(* ===== verification/_CoqProject ===== *)
-Q . S2P
Prelude.v
PyStr.v
Json.v
Enums.v
StateMachine.v
Contracts.v
Scope.v
Db.v
Authority.v
Compiler.v
Packs.v
Store.v
Identity.v
Leases.v
Scheduler.v
Gates.v
Registries.v
Policy.v
Integration.v
Evidence.v
Observations.v
Context.v
Memory.v
Promotions.v
Times.v
Evaluation.v
Rules.v
Adapters.v
Workflow.v
Services.v
Kernel.v
Replay.v
System.v
Operator.v
Bench.v
Commands.v
Tables.v
Parts.v
Grants.v
Claims.v
Deliveries.v
Freshness.v
Assemblies.v
Improvements.v
Memories.v
Outboxes.v
Effects.v
Counterexamples.v
