(* ===== verification/Prelude.v ===== *)
(** * A verified model of the CompanyOS runtime kernel

    The runtime ([src/companyos_runtime]) keeps goals, runs and tasks of an
    autonomous organisation in one SQLite database.  Every change is a command
    of a live, authenticated session; it runs in one transaction, appends one or
    more events to a hash-chained log, and updates the projections.  This
    library models the core of it, from the values up, and proves what makes
    each part correct.

    ** The files, in dependency order

    - [Prelude]: the exceptions of [errors.py]; results [res]; the state and
      exception monad [M] with its inversion lemmas; lists and booleans.
    - [PyStr]: the string methods that the code calls, on UTF-8 byte strings
      ([strip], [split], [upper], [casefold], [unquote], [sorted]).
    - [Json]: JSON values, [canonical_json] of [types.py] and [json.loads].
    - [Enums], [Contracts]: [types.py], the enumerations and the parsers and
      serialisers of runtime surfaces, goals and tasks.
    - [StateMachine]: [state_machine.py], the run machine with its guards, the
      task and the goal transitions.
    - [Scope]: [scope.py], resource scopes and the containment of a task in its
      goal.
    - [Db]: the tables and constraints of [schema.py], transactions, the clock
      and the other surroundings (class [Env]), queries, and the proof
      frameworks: [keeps], invariants of database code, [post], postconditions,
      and [atomic], code that changes nothing when it raises.
    - [Authority], [Compiler]: [authority.py], [authority_compiler.py] and
      [compiler.py], the contracts of projects, programs, goals and tasks, the
      comparison of bounds, the program graph, the authoring packets.
    - [Packs]: [domain_packs.py], domain packs, the bundles that they compile to and
      the conformance harnesses.
    - [Store]: [store.py], the authority domain, the authorisation of events,
      [append_event], idempotency records, [verify_event_chain].
    - [Identity]: [identity.py], principals, credentials, roles, sessions.
    - [Leases]: [leases.py], leases with fencing tokens.
    - [Scheduler]: [scheduler.py], claims, results, retries and recovery.
    - [Gates]: [gates.py] and the decision gates of [policy.py], the guards of a
      run computed from the tables.
    - [Registries]: what the services beside the core have in common, the kinds of
      event that they log and the tables that they leave alone.
    - [Policy] (Module [Engine]): the rest of [policy.py], approvals, capability
      grants and their consumption.
    - [Integration] (Module [Items]): [integration.py], the integration queue.
    - [Evidence], [Observations]: [evidence.py] and [observations.py], artifacts,
      claims, the classification of artifact URIs, and runtime observations.
    - [Context]: [context.py], context items, their attestations and the assemblies.
    - [Memory]: [memory.py], memories, their sources and their promotion.
    - [Promotions] (Module [Promotions]): the requests and records of [evaluation.py]
      with the texts and times in them.
    - [Times]: the texts of times of [Db] are read back by [Promotions] and compare
      as the times do.
    - [Evaluation], [Rules]: [EvaluationRegistry] of [evaluation.py], evaluations,
      proposals and attachments; what a promotion reads back from the log, the sealed
      custody and the promotion itself.
    - [Adapters]: [adapters.py] and [fake_provider.py], the protocol of an external
      service with its laws (class [AdapterLaws]), the conformance harness, and the
      provider double with the proof that it obeys the laws.
    - [Workflow] (Module [Outbox]): [workflow.py], the outbox of effects: enqueue,
      dispatch with its fault points, checkpoints and recovery.
    - [Services]: the commands of these services as data.
    - [Kernel]: [kernel.py], the commands on goals, runs and tasks.
    - [Replay]: [replay.py], the rebuilding of the projections from the log,
      their comparison with the tables, and repair.
    - [System]: sequences of commands of any kernels, schedulers, lease and
      identity managers and services ([SysOp], [run_sys_ops]), and what they do to
      the tables and the log together.
    - [Operator]: [operator.py], the redacted snapshot of a database.
    - [Bench]: a concrete organisation in which the witnesses run.
    - [Commands], [Tables]: what kernel commands guarantee among other commands,
      and the typing invariant of the core tables.
    - [Parts]: invariants of one registry among all commands.
    - [Grants], [Claims], [Deliveries], [Freshness]: what the policy engine, the
      evidence registry, the integration queue and the observation registry
      guarantee through any commands, and what a delivery may rely on.
    - [Assemblies], [Improvements], [Memories]: what the context, evaluation and memory
      registries guarantee through any commands, each with a complete story as witness.
    - [Outboxes], [Effects]: the specifications of the transactions of the outbox,
      and the histories of commands, dispatches with crashes and recoveries over a
      database and an external service together ([WorkOp], [run_work_ops]).
    - [Counterexamples]: runs in which the code does not do what it means to.

    [Leases], [Scheduler] and [Kernel] verify sessions through [Identity] and
    append events through [Store]; [Store] reads the tables of [Identity] and the
    enumerations; [Scheduler] and [Kernel] use the machines of [StateMachine] and
    the rows of [Leases]; [Kernel] asks [Gates] for guards, [Scope] for the
    containment of a task in its goal and [Authority] for adopted projects;
    [Replay] applies the machines and parsers again to what they logged.  The
    services verify sessions and append events in the same way, each to tables of
    its own; [Policy] reads the task authorities of the kernel, [Workflow] consumes
    grants through [Policy] and reaches the outside world only through the class
    [WorkflowAdapter]; [Memory] and [Rules] read evidence, approvals and evaluations
    of the others; [Gates] reads what all of them record.  The verifiers of
    attestations are functions in the record of a registry.  A method of the
    source is the definition of its name; a method of an object that holds
    configuration takes it as an argument.

    ** What the theorems show

    - Values: reading the canonical text of a JSON value gives it back, so a
      digest of the text identifies the value ([Json]); serialising and parsing
      an accepted contract gives it back ([Contracts]).
    - State machines: no run is delivered without an evaluator verdict and all
      five delivery guards, and no task without the whole route of states.
    - Scopes: an accepted task may touch only what its goal may touch, and
      nothing that is forbidden.
    - Log: an append extends a verified log to a verified one, with gapless
      versions; two verified logs with the same last hash record the same facts
      or exhibit a hash collision; a core event has a live authority, a live
      session and an admitted role; bindings stay exclusive.
    - Identities: an enabled owner always remains, through any calls; revoked,
      disabled and rotated sessions never verify again; authentication and
      rotation need the credential; administration needs an owner.
    - Leases: fences only grow; an active lease excludes everyone else; through any
      commands an overtaken or released fence never renews nor passes the check for
      an active lease, and an overtaken one passes no check ([Commands]).
    - Scheduler: a refinement.  [sched_step] is the specification of the life of
      a task, [scheduler_refines] shows that every call is a sequence of its
      steps, and the invariant [sched_inv] (gapless attempt numbers, at most
      [max_attempts], one open attempt) is proved of the specification.  A claim
      reports once and an overtaken claim is dead; retries obey the backoff
      bounds; the versions of tasks follow the log.

    - Authority: an accepted task authority names exact parents, and every level
      of the spine bounds the next; the program graph check ends and accepts only
      acyclic graphs; compiling twice is compiling once, and a capability is
      granted exactly when its gate is open.
    - System: whatever replay returns agrees with the tables, after any commands
      in which no worker reports a blank failure class, and without adopted authority
      a verified log does replay; repair undoes any
      damage to goals, runs and tasks; deliveries are in the log with their
      guards.  The proof is a simulation: [matches] relates the tables to what
      the log rebuilds, and every handler keeps it.
    - Commands: a command and its retries happen once: a retry changes nothing, and
      its answer, if it is not refused, is the recorded one (a logic for two runs,
      [once]); a task is delivered only on recorded facts; a closed task's claims
      are dead; starts without evidence are bounded; the history only grows; a
      command that raises changes nothing; the core tables stay typed.

    - Grants: the books of every grant balance; a grant is backed by the approval
      of another principal, who was an owner in session when the approval and the
      grant were written ([brought_about] of [System] finds the command that wrote
      them); a request is authorised in every column and booked at
      most once; a revocation is final; a compiled task stays within its budget.
    - Claims, items and observations: a claim rests on artifacts that prove it, and
      a passing verdict is not by a producer of them, so that a judged delivery was
      judged by someone else; the state of an integration item is what its events lead to,
      and an integrated delivery rests on passing evidence; observations conform to
      the contract of the goal, and the guard of the kernel and the gate of the
      registry accept the same ones.
    - Effects: over any service that obeys the laws and through any crashes, the
      service acts at most once for an effect and only with authority, receipts say
      what it did, answers are final, and the outbox, the step and the receipt
      agree.  To the database a dispatch is a sequence of commands
      ([work_is_commands]), so that all theorems about commands hold among them.

    - Context: an assembly is a fair selection of eligible items within its budget,
      and nobody is instructed by context that no verifier vouched for.
    - Memories: a memory rests on recorded evidence, a promotion on an approval
      of exactly this content by an owner in session and a clean held-out evaluation;
      nothing else changes it.
    - Evaluation: sealed datasets are used once; a promoted rule has an approval of
      exactly the request for this promotion by an owner in session, and independent
      clean evaluations, and an active one four
      different people behind it; the records of promotions are read back.
    - Domain packs: a bundle survives its wire format, conformance is determinism, and
      packs that pass together share nothing.
    - Operator: a snapshot changes nothing, depends on public columns only, and adds up.

    Theorems about a sequence of calls hold for any calls in any order,
    whichever of them raise.  Calls do not interleave inside a transaction: the
    code opens every writing transaction with [BEGIN IMMEDIATE].

    ** Decisions of the model

    - A Python text is its UTF-8 bytes; [len] counts characters.  Case mapping
      and white space cover what the modelled modules can distinguish (see
      [PyStr]).  The message of an exception is dropped, its class is kept.
    - Instants are integers, microseconds since 1970; SQLite's ['now'] and
      [julianday] have millisecond resolution.  Every reading of the clock and
      every drawn identifier consumes its own index, so that no theorem assumes
      that two readings agree, nor that the clock is monotonic.
    - Hashes, key derivation, Unicode tables, the clock and the sources of
      identifiers are fields of [Env].  No theorem assumes that SHA-256 has no
      collisions; where it matters the collision is in the conclusion.
      [Db.Toy.env] is the concrete instance in which the witnesses run.
    - A column that holds an enumeration or a contract keeps the parsed value;
      the round trips of [Enums] and [Contracts] justify it.  Other JSON columns
      keep the JSON value.
    - A table is a finite map under its primary key; [INSERT] checks the keys,
      CHECK and FOREIGN KEY constraints that [schema.py] declares.  Where a query
      has no total order, ties keep the order of the map.
    - Counters are unbounded integers, as in Python; SQLite's 64-bit limit is not
      reached by counting.
    - A kernel is its configuration; the table of goal authorities that the object
      keeps in memory is passed to the commands that read it and returned by the
      one that writes it.  Replay keeps a rebuilt goal, run or task as a row; the
      columns that events do not determine hold what [repair] inserts.

    - The laws of an external service are what the protocol of [adapters.py] and
      its conformance harness ask: a ledger under idempotency keys that only grows,
      of which execution and lookup tell the truth.  The services are reached
      between the transactions of a dispatch, never inside one.
    - The text of an [AuthorizationError] is the argument [message] of
      [recover_pending], since exceptions carry no message; the queries of one
      [require_fresh] read one state of the database; a timestamp that the caller
      of the observation registry supplies is an instant, not its text; [Times]
      justifies that for the texts that the code writes.
    - A metric is an integer or a binary float ([spec_float]) and keeps the text of
      [repr] in JSON; [fromisoformat] reads the extended format; the sequence number
      of an event is its position in the log.
    - A domain pack is a record of operations over a state of its own, so that its
      answers may change from one reading to the next.

    Loops over rows are structural recursion on the list of rows.  Three
    definitions have fuel: percent-decoding in [Scope] has the twenty rounds of
    the source; the JSON reader has one unit per byte of input, of which
    [loads_canonical] proves that it is enough; the walk of the program graph in
    [Authority] has one unit per program and one more, of which
    [program_graph_checked] proves that it never runs out.

    ** Not modelled

    Of [fake_provider.py] the migration of older files is left out.  [validation.py]
    checks files of a repository against JSON schemas.  The connection controls and
    the schema migration of [store.py], the indexes and migrations of [schema.py],
    backups, the command line and the demonstration are input and output; the path,
    the table list and the migration row of a snapshot are parameters. *)

From stdpp Require Export base tactics strings gmap fin_maps numbers list.

Declare Scope runtime_scope.
Delimit Scope runtime_scope with rt.
Open Scope runtime_scope.

(** ** Typed failures ([companyos_runtime/errors.py])

    One constructor per exception class of [errors.py], plus the Python and
    sqlite3 exceptions that the modelled code can let escape.  The message text
    of an exception is not modelled: callers of the runtime branch on the class
    only. *)
Inductive Exn :=
  | ContractError
  | NotFoundError
  | TransitionError
  | LeaseError
  | AuthorizationError
  | EvidenceError
  | FreshnessError
  | IntegrityError
  | SimulatedCrash
  | SqliteIntegrityError
  | PyKeyError
  | PyTypeError
  | PyValueError
  | PyOverflowError
  | PyRecursionError
  | SqliteProgrammingError
  | SqliteOperationalError
  | PyStopIteration.

#[export] Instance Exn_eq_dec : EqDecision Exn.
Proof. solve_decision. Defined.

(** ** Results *)
Inductive res (A : Type) :=
  | Ok (a : A)
  | Raise (e : Exn).
Arguments Ok {A} a.
Arguments Raise {A} e.

#[export] Instance res_eq_dec `{EqDecision A} : EqDecision (res A).
Proof. solve_decision. Defined.

#[export] Instance res_ret : MRet res := λ A a, Ok a.
#[export] Instance res_bind : MBind res := λ A B k m,
  match m with Ok a => k a | Raise e => Raise e end.
#[export] Instance res_fmap : FMap res := λ A B f m,
  match m with Ok a => Ok (f a) | Raise e => Raise e end.

Definition is_ok {A} (m : res A) : bool :=
  match m with Ok _ => true | Raise _ => false end.

(** [if not b: raise e] *)
Definition require (b : bool) (e : Exn) : res unit :=
  if b then Ok tt else Raise e.

(** [x if x is not None else raise e] *)
Definition of_option {A} (o : option A) (e : Exn) : res A :=
  match o with Some a => Ok a | None => Raise e end.

Fixpoint mapR {A B} (f : A → res B) (l : list A) : res (list B) :=
  match l with
  | [] => Ok []
  | x :: l => y ← f x; ys ← mapR f l; Ok (y :: ys)
  end.

(** ** Stateful fallible code

    [M S A] is code over a state [S] that returns an [A] or raises.  A raise
    keeps the state reached so far; rolling back is the business of
    [transaction] (file [Db]). *)
Definition M (S A : Type) : Type := S → res A * S.

#[export] Instance M_ret S : MRet (M S) := λ A a s, (Ok a, s).
#[export] Instance M_bind S : MBind (M S) := λ A B k m s,
  match m s with (Ok a, s') => k a s' | (Raise e, s') => (Raise e, s') end.

Definition raise {S A} (e : Exn) : M S A := λ s, (Raise e, s).
Definition get {S} : M S S := λ s, (Ok s, s).
Definition gets {S A} (f : S → A) : M S A := λ s, (Ok (f s), s).
Definition modify {S} (f : S → S) : M S unit := λ s, (Ok tt, f s).
Definition ensure {S} (b : bool) (e : Exn) : M S unit :=
  if b then mret tt else raise e.
Definition lift_res {S A} (r : res A) : M S A := λ s, (r, s).
Definition expect {S A} (o : option A) (e : Exn) : M S A := lift_res (of_option o e).

(** [for x in l: f x] *)
Fixpoint forM {S A} (l : list A) (f : A → M S unit) : M S unit :=
  match l with
  | [] => mret tt
  | x :: l => _ ← f x; forM l f
  end.

Fixpoint mapM {S A B} (f : A → M S B) (l : list A) : M S (list B) :=
  match l with
  | [] => mret []
  | x :: l => y ← f x; ys ← mapM f l; mret (y :: ys)
  end.

(** Run code that uses one component of a larger state. *)
Definition zoom {S T A} (rd : T → S) (wr : S → T → T) (m : M S A) : M T A :=
  λ t, let (r, s') := m (rd t) in (r, wr s' t).

(** ** Inversion lemmas *)
Lemma res_bind_ok {A B} (m : res A) (k : A → res B) b :
  (m ≫= k) = Ok b ↔ ∃ a, m = Ok a ∧ k a = Ok b.
Proof.
  destruct m; simpl; unfold mbind, res_bind; split; intros H; try done.
  - eauto.
  - by destruct H as (a' & [= <-] & ?).
  - by destruct H as (a' & ? & ?).
Qed.

Lemma require_ok b e u : require b e = Ok u ↔ b = true.
Proof. destruct b, u; done. Qed.

Lemma of_option_ok {A} (o : option A) e a : of_option o e = Ok a ↔ o = Some a.
Proof. destruct o; simpl; split; by intros [= ->]. Qed.

Lemma bind_ok {S A B} (m : M S A) (k : A → M S B) s b s'' :
  (m ≫= k) s = (Ok b, s'') ↔ ∃ a s', m s = (Ok a, s') ∧ k a s' = (Ok b, s'').
Proof.
  unfold mbind, M_bind. destruct (m s) as [[a|e] s'].
  - split; [eauto|]. by intros (? & ? & [= <- <-] & ?).
  - split; [done|]. by intros (? & ? & ? & ?).
Qed.

Lemma bind_raise {S A B} (m : M S A) (k : A → M S B) s e s'' :
  (m ≫= k) s = (Raise e, s'') ↔
  m s = (Raise e, s'') ∨ ∃ a s', m s = (Ok a, s') ∧ k a s' = (Raise e, s'').
Proof.
  unfold mbind, M_bind. destruct (m s) as [[a|e'] s'].
  - split; [eauto|]. by intros [?|(? & ? & [= <- <-] & ?)].
  - split; [by intros [= -> ->]; left|]. by intros [[= -> ->]|(? & ? & ? & ?)].
Qed.

Lemma mret_ok {S A} (a b : A) (s s' : S) : (mret a : M S A) s = (Ok b, s') ↔ b = a ∧ s' = s.
Proof. unfold mret, M_ret. split; [by intros [= -> ->]|by intros [-> ->]]. Qed.

Lemma raise_ok {S A} e (b : A) (s s' : S) : raise e s = (Ok b, s') ↔ False.
Proof. done. Qed.

Lemma gets_ok {S A} (f : S → A) (b : A) (s s' : S) :
  gets f s = (Ok b, s') ↔ b = f s ∧ s' = s.
Proof. unfold gets. split; [by intros [= -> ->]|by intros [-> ->]]. Qed.

Lemma modify_ok {S} (f : S → S) u (s s' : S) : modify f s = (Ok u, s') ↔ s' = f s.
Proof. unfold modify. destruct u. split; [by intros [= ->]|by intros ->]. Qed.

Lemma ensure_ok {S} b e u (s s' : S) : ensure b e s = (Ok u, s') ↔ b = true ∧ s' = s.
Proof. unfold ensure. destruct b, u; [rewrite mret_ok|rewrite raise_ok]; split; by intros []. Qed.

Lemma lift_res_ok {S A} (r : res A) b (s s' : S) :
  lift_res r s = (Ok b, s') ↔ r = Ok b ∧ s' = s.
Proof. unfold lift_res. split; [by intros [= -> ->]|by intros [-> ->]]. Qed.

Lemma expect_ok {S A} (o : option A) e b (s s' : S) :
  expect o e s = (Ok b, s') ↔ o = Some b ∧ s' = s.
Proof. unfold expect. rewrite lift_res_ok, of_option_ok. done. Qed.

(** [minv H] turns a successful run [H : m s = (Ok a, s')] of a handler into
    the facts its guards established, one per guard, and the state it reached. *)
Ltac minv1 :=
  match goal with
  | H : (_ ≫= _) _ = (Ok _, _) |- _ => apply bind_ok in H as (? & ? & ? & ?)
  | H : (mret _) _ = (Ok _, _) |- _ => apply mret_ok in H as [-> ->]
  | H : (mret _) _ = (Ok _, _) |- _ => apply mret_ok in H as [? ?]
  | H : raise _ _ = (Ok _, _) |- _ => by apply raise_ok in H
  | H : gets _ _ = (Ok _, _) |- _ => apply gets_ok in H as [? ?]
  | H : modify _ _ = (Ok _, _) |- _ => apply modify_ok in H
  | H : ensure _ _ _ = (Ok _, _) |- _ => apply ensure_ok in H as [? ?]
  | H : expect _ _ _ = (Ok _, _) |- _ => apply expect_ok in H as [? ?]
  | H : lift_res _ _ = (Ok _, _) |- _ => apply lift_res_ok in H as [? ?]
  | H : (_ ≫= _) = Ok _ |- _ => apply res_bind_ok in H as (? & ? & ?)
  | H : require _ _ = Ok _ |- _ => apply require_ok in H
  | H : of_option _ _ = Ok _ |- _ => apply of_option_ok in H
  | H : (Ok _, _) = (Ok _, _) |- _ => injection H as ? ?
  | H : (Raise _, _) = (Ok _, _) |- _ => discriminate H
  | H : Ok _ = Ok _ |- _ => injection H as ?
  | H : Raise _ = Ok _ |- _ => discriminate H
  end; simplify_eq.
Ltac minv := repeat (progress (simpl in *; repeat minv1)).

(** ** Booleans *)
Ltac bsplit :=
  repeat match goal with
  | H : (_ && _) = true |- _ => apply andb_true_iff in H as [? ?]
  | H : (_ || _) = false |- _ => apply orb_false_iff in H as [? ?]
  | H : negb _ = true |- _ => apply negb_true_iff in H
  | H : negb _ = false |- _ => apply negb_false_iff in H
  | H : bool_decide _ = true |- _ => apply bool_decide_eq_true in H
  | H : bool_decide _ = false |- _ => apply bool_decide_eq_false in H
  | H : (_ =? _)%Z = true |- _ => apply Z.eqb_eq in H
  | H : (_ <? _)%Z = true |- _ => apply Z.ltb_lt in H
  | H : (_ <=? _)%Z = true |- _ => apply Z.leb_le in H
  | H : (_ =? _)%Z = false |- _ => apply Z.eqb_neq in H
  | H : (_ <? _)%Z = false |- _ => apply Z.ltb_ge in H
  | H : (_ <=? _)%Z = false |- _ => apply Z.leb_gt in H
  end.

(** ** Lists *)
Lemma mapR_ok {A B} (f : A → res B) l ys :
  mapR f l = Ok ys ↔ Forall2 (λ x y, f x = Ok y) l ys.
Proof.
  revert ys. induction l as [|x l IH]; intros ys; simpl.
  - split; [intros [= <-]; constructor|]. by inversion 1.
  - rewrite res_bind_ok. split.
    + intros (y & Hy & H). apply res_bind_ok in H as (ys' & Hys & [= <-]).
      constructor; [done|]. by apply IH.
    + inversion 1 as [|? y ? ys' Hy Hys]; subst. exists y. split; [done|].
      apply res_bind_ok. exists ys'. split; [by apply IH|done].
Qed.

(** A selection that drops nothing. *)
Lemma omap_cons {A B} (f : A → option B) x l :
  omap f (x :: l) = match f x with Some y => y :: omap f l | None => omap f l end.
Proof. done. Qed.
Lemma omap_le {A B} (f : A → option B) l : length (omap f l) ≤ length l.
Proof. induction l as [|x l IH]; [done|]. rewrite omap_cons. case_match; simpl; lia. Qed.
Lemma omap_full {A B} (f : A → option B) l :
  length (omap f l) = length l → Forall2 (λ x y, f x = Some y) l (omap f l).
Proof.
  induction l as [|x l IH]; [constructor|]. rewrite omap_cons. destruct (f x) as [y|] eqn:Hx; simpl; intros Hl.
  - constructor; [done|]. apply IH. lia.
  - pose proof (omap_le f l). lia.
Qed.

Lemma existsb_In {A} (f : A → bool) (l : list A) :
  existsb f l = true ↔ ∃ x, x ∈ l ∧ f x = true.
Proof. rewrite existsb_exists. setoid_rewrite list_elem_of_In. done. Qed.

Lemma forallb_In {A} (f : A → bool) (l : list A) :
  forallb f l = true ↔ ∀ x, x ∈ l → f x = true.
Proof. rewrite forallb_forall. setoid_rewrite list_elem_of_In. done. Qed.

Lemma existsb_false_In {A} (f : A → bool) (l : list A) :
  existsb f l = false → ∀ x, x ∈ l → f x = false.
Proof.
  intros Hl x Hx. destruct (f x) eqn:Hf; [|done].
  rewrite <- Hl. symmetry. apply existsb_In. eauto.
Qed.

(** Boolean membership, as Python's [x in xs]. *)
Definition memb `{EqDecision A} (x : A) (l : list A) : bool := bool_decide (x ∈ l).

Lemma memb_true `{EqDecision A} (x : A) l : memb x l = true ↔ x ∈ l.
Proof. apply bool_decide_eq_true. Qed.

(** [len(xs) == len(set(xs))] *)
Definition no_dups `{EqDecision A} (l : list A) : bool := bool_decide (NoDup l).

(** [dict.fromkeys(xs)]: the first occurrence of each element, in order. *)
Fixpoint dedup_keep `{EqDecision A} (seen l : list A) : list A :=
  match l with
  | [] => []
  | x :: l => if memb x seen then dedup_keep seen l else x :: dedup_keep (x :: seen) l
  end.
Definition fromkeys `{EqDecision A} (l : list A) : list A := dedup_keep [] l.

Lemma dedup_keep_elem `{EqDecision A} (seen l : list A) x :
  x ∈ dedup_keep seen l ↔ x ∈ l ∧ x ∉ seen.
Proof.
  revert seen. induction l as [|y l IH]; intros seen; simpl; [set_solver|].
  unfold memb. case_bool_decide as Hy; rewrite ?elem_of_cons, ?IH, ?not_elem_of_cons.
  - split; [tauto|]. intros [[->|?] ?]; [done|tauto].
  - destruct (decide (x = y)) as [->|]; tauto.
Qed.

Lemma fromkeys_elem `{EqDecision A} (l : list A) x : x ∈ fromkeys l ↔ x ∈ l.
Proof. unfold fromkeys. rewrite dedup_keep_elem. set_solver. Qed.

Lemma dedup_keep_NoDup `{EqDecision A} (seen l : list A) : NoDup (dedup_keep seen l).
Proof.
  revert seen. induction l as [|y l IH]; intros seen; simpl; [constructor|].
  unfold memb. case_bool_decide; [done|]. constructor; [|done].
  rewrite dedup_keep_elem. set_solver.
Qed.

Lemma fromkeys_NoDup `{EqDecision A} (l : list A) : NoDup (fromkeys l).
Proof. apply dedup_keep_NoDup. Qed.

(** ** Hints *)
Create HintDb rt.
Create Rewrite HintDb rt.
#[export] Hint Resolve fromkeys_NoDup dedup_keep_NoDup : rt.
#[export] Hint Rewrite @memb_true @existsb_In @forallb_In @bool_decide_eq_true : rt.

Lemma res_ret_bind {A B} (a : A) (k : A → res B) : (Ok a ≫= k) = k a.
Proof. done. Qed.
#[export] Hint Rewrite @res_ret_bind : rt.

Lemma mapR_map {A B} (f : A → res B) (g : B → A) l :
  Forall (λ y, f (g y) = Ok y) l → mapR f (g <$> l) = Ok l.
Proof.
  intros Hl. apply mapR_ok. induction Hl; simpl; constructor; done.
Qed.

Lemma no_dups_true `{EqDecision A} (l : list A) : no_dups l = true ↔ NoDup l.
Proof. apply bool_decide_eq_true. Qed.
