(* ===== verification/PyStr.v ===== *)
(** * Python text

    A Python [str] is modelled by its UTF-8 encoding: a [string] whose
    characters are bytes.  Code-point order and byte order agree on UTF-8, so
    comparisons and [sorted] are those of Python.  This file models the string
    methods that the runtime calls: [strip], [startswith], [endswith],
    [replace], [split], [lower], [upper], [casefold] and the percent decoding of
    [urllib.parse.unquote].

    Case mapping is exact on ASCII and on every character whose mapping is an
    ASCII string (the long s, the dotless i, the Kelvin sign, the sharp s and
    the Latin ligatures); other letters are left unchanged. *)

From S2P Require Import Prelude.
From Stdlib Require Import Ascii.

Local Open Scope string_scope.

Abbreviation chars := String.list_ascii_of_string.
Abbreviation of_chars := String.string_of_list_ascii.

Definition code (c : ascii) : Z := Z.of_N (N_of_ascii c).
Definition chr (z : Z) : ascii := ascii_of_N (Z.to_N z).

(** ** [str.strip] *)

(** One-byte white space: TAB..CR, FS..US and SPACE. *)
Definition ws1 (a : ascii) : bool :=
  let x := code a in ((9 <=? x) && (x <=? 13) || (28 <=? x) && (x <=? 32))%Z.
(** U+0085 and U+00A0. *)
Definition ws2 (a b : ascii) : bool :=
  ((code a =? 194) && ((code b =? 133) || (code b =? 160)))%Z.
(** U+1680, U+2000..U+200A, U+2028, U+2029, U+202F, U+205F and U+3000. *)
Definition ws3 (a b c : ascii) : bool :=
  let x := code a in let y := code b in let z := code c in
  ((x =? 225) && (y =? 154) && (z =? 128)
   || (x =? 226) && (y =? 128) && ((128 <=? z) && (z <=? 138) || (z =? 168) || (z =? 169) || (z =? 175))
   || (x =? 226) && (y =? 129) && (z =? 159)
   || (x =? 227) && (y =? 128) && (z =? 128))%Z.

(** Drop leading white space, where [ws] recognises a white-space character in
    the order the bytes are read. *)
Fixpoint drop_ws (w2 : ascii → ascii → bool) (w3 : ascii → ascii → ascii → bool)
    (l : list ascii) : list ascii :=
  match l with
  | [] => []
  | a :: l1 =>
    if ws1 a then drop_ws w2 w3 l1 else
    match l1 with
    | [] => l
    | b :: l2 =>
      if w2 a b then drop_ws w2 w3 l2 else
      match l2 with
      | [] => l
      | c :: l3 => if w3 a b c then drop_ws w2 w3 l3 else l
      end
    end
  end.

Definition lstrip_l : list ascii → list ascii := drop_ws ws2 ws3.
Definition rstrip_l (l : list ascii) : list ascii :=
  rev (drop_ws (λ a b, ws2 b a) (λ a b c, ws3 c b a) (rev l)).
Definition strip (s : string) : string := of_chars (rstrip_l (lstrip_l (chars s))).

(** [not value.strip()] *)
Definition blank (s : string) : bool := bool_decide (strip s = "").

(** ** Prefixes, suffixes, searching *)
Fixpoint prefixb (p s : list ascii) : bool :=
  match p, s with
  | [], _ => true
  | a :: p, b :: s => bool_decide (a = b) && prefixb p s
  | _ :: _, [] => false
  end.
Definition startswith (s p : string) : bool := prefixb (chars p) (chars s).
Definition endswith (s p : string) : bool := prefixb (rev (chars p)) (rev (chars s)).

(** [s[:-n]] for [n > 0] *)
Definition drop_last (n : nat) (s : string) : string :=
  of_chars (take (length (chars s) - n) (chars s)).

Definition contains_char (c : ascii) (s : string) : bool := memb c (chars s).

(** [s.split(sep)] for a one-character separator. *)
Fixpoint split_l (c : ascii) (l : list ascii) : list (list ascii) :=
  match l with
  | [] => [[]]
  | a :: l =>
    let r := split_l c l in
    if bool_decide (a = c) then [] :: r
    else match r with [] => [[a]] | x :: r => (a :: x) :: r end
  end.
Definition split (c : ascii) (s : string) : list string :=
  of_chars <$> split_l c (chars s).

(** [sep.join(xs)] *)
Fixpoint str_join (sep : string) (xs : list string) : string :=
  match xs with
  | [] => ""
  | [x] => x
  | x :: xs => x +:+ sep +:+ str_join sep xs
  end.

(** [s.split(sep, 1)]: the text before and after the first occurrence. *)
Fixpoint split_once (sep l : list ascii) : option (list ascii * list ascii) :=
  if prefixb sep l then Some ([], drop (length sep) l)
  else match l with
       | [] => None
       | a :: l => '(x, y) ← split_once sep l; Some (a :: x, y)
       end.
Definition partition_at (sep s : string) : option (string * string) :=
  '(x, y) ← split_once (chars sep) (chars s); Some (of_chars x, of_chars y).

(** [s.replace(a, b)] for single characters. *)
Definition replace_char (a b : ascii) (s : string) : string :=
  of_chars ((λ c, if bool_decide (c = a) then b else c) <$> chars s).

Definition lstrip_char (c : ascii) (s : string) : string :=
  of_chars ((fix go l := match l with
             | a :: l' => if bool_decide (a = c) then go l' else l
             | [] => [] end) (chars s)).
Definition rstrip_char (c : ascii) (s : string) : string :=
  of_chars (rev (chars (lstrip_char c (of_chars (rev (chars s)))))).

(** ** Case mapping *)
Definition is_lower (c : ascii) : bool := ((97 <=? code c) && (code c <=? 122))%Z.
Definition is_upper (c : ascii) : bool := ((65 <=? code c) && (code c <=? 90))%Z.
Definition is_digit (c : ascii) : bool := ((48 <=? code c) && (code c <=? 57))%Z.
Definition is_alpha (c : ascii) : bool := is_lower c || is_upper c.

Definition low (c : ascii) : ascii := if is_upper c then chr (code c + 32) else c.
Definition upp (c : ascii) : ascii := if is_lower c then chr (code c - 32) else c.

(** [str.lower]: the Kelvin sign U+212A is the only non-ASCII character whose
    lower case is ASCII. *)
Fixpoint lower_l (l : list ascii) : list ascii :=
  match l with
  | a :: ((b :: c :: l3) as l1) =>
    if bool_decide ((code a, code b, code c) = (226, 132, 170)%Z) then chr 107 :: lower_l l3
    else low a :: lower_l l1
  | a :: l1 => low a :: lower_l l1
  | [] => []
  end.
Definition lower (s : string) : string := of_chars (lower_l (chars s)).

(** Two- and three-byte characters whose upper case is an ASCII string, with
    the lower case of that string. *)
Definition fold2 (a b : ascii) : option string :=
  if bool_decide ((code a, code b) = (195, 159)%Z) then Some "ss"
  else if bool_decide ((code a, code b) = (197, 191)%Z) then Some "s"
  else None.
Definition fold3 (a b c : ascii) : option string :=
  if bool_decide ((code a, code b) = (239, 172)%Z) then
    match code c with
    | 128%Z => Some "ff" | 129%Z => Some "fi" | 130%Z => Some "fl" | 131%Z => Some "ffi"
    | 132%Z => Some "ffl" | 133%Z => Some "st" | 134%Z => Some "st" | _ => None
    end
  else None.

Fixpoint upper_l (l : list ascii) : list ascii :=
  match l with
  | [] => []
  | a :: l1 =>
    match l1 with
    | [] => [upp a]
    | b :: l2 =>
      if bool_decide ((code a, code b) = (196, 177)%Z) then chr 73 :: upper_l l2 else
      match fold2 a b with
      | Some r => (upp <$> chars r) ++ upper_l l2
      | None =>
        match l2 with
        | [] => upp a :: upper_l l1
        | c :: l3 =>
          match fold3 a b c with
          | Some r => (upp <$> chars r) ++ upper_l l3
          | None => upp a :: upper_l l1
          end
        end
      end
    end
  end.
Definition upper (s : string) : string := of_chars (upper_l (chars s)).

Fixpoint casefold_l (l : list ascii) : list ascii :=
  match l with
  | [] => []
  | a :: l1 =>
    match l1 with
    | [] => [low a]
    | b :: l2 =>
      match fold2 a b with
      | Some r => chars r ++ casefold_l l2
      | None =>
        match l2 with
        | [] => low a :: casefold_l l1
        | c :: l3 =>
          if bool_decide ((code a, code b, code c) = (226, 132, 170)%Z)
          then chr 107 :: casefold_l l3 else
          match fold3 a b c with
          | Some r => chars r ++ casefold_l l3
          | None => low a :: casefold_l l1
          end
        end
      end
    end
  end.
Definition casefold (s : string) : string := of_chars (casefold_l (chars s)).

(** [len(s) == 64 and all(c in "0123456789abcdef" for c in s)] *)
Definition is_hex_lower (c : ascii) : bool :=
  is_digit c || ((97 <=? code c) && (code c <=? 102))%Z.
Definition sha256_hex (s : string) : bool :=
  (String.length s =? 64)%nat && forallb is_hex_lower (chars s).

(** ** Percent decoding ([urllib.parse.unquote])

    [unquote] decodes every maximal run of ASCII text separately: the [%XX]
    escapes of the run become bytes, and the bytes are decoded as UTF-8 with
    [errors="replace"].  Non-ASCII text is copied. *)
Definition hex_val (c : ascii) : option Z :=
  let x := code c in
  if is_digit c then Some (x - 48)%Z
  else if ((97 <=? x) && (x <=? 102))%Z then Some (x - 87)%Z
  else if ((65 <=? x) && (x <=? 70))%Z then Some (x - 55)%Z
  else None.

(** [unquote_to_bytes] *)
Fixpoint unquote_bytes (l : list ascii) : list ascii :=
  match l with
  | [] => []
  | a :: l1 =>
    if bool_decide (a = "%"%char) then
      match l1 with
      | b :: ((c :: l3) as l2) =>
        match hex_val b, hex_val c with
        | Some x, Some y => chr (16 * x + y) :: unquote_bytes l3
        | _, _ => a :: unquote_bytes l1
        end
      | _ => a :: unquote_bytes l1
      end
    else a :: unquote_bytes l1
  end.

(** How many continuation bytes a lead byte announces, and the range of the
    first of them (RFC 3629). *)
Definition utf8_lead (a : ascii) : option (nat * Z * Z) :=
  let x := code a in
  if ((194 <=? x) && (x <=? 223))%Z then Some (1%nat, 128, 191)%Z
  else if (x =? 224)%Z then Some (2%nat, 160, 191)%Z
  else if (x =? 237)%Z then Some (2%nat, 128, 159)%Z
  else if ((225 <=? x) && (x <=? 239))%Z then Some (2%nat, 128, 191)%Z
  else if (x =? 240)%Z then Some (3%nat, 144, 191)%Z
  else if ((241 <=? x) && (x <=? 243))%Z then Some (3%nat, 128, 191)%Z
  else if (x =? 244)%Z then Some (3%nat, 128, 143)%Z
  else None.
Definition in_range (a : ascii) (lo hi : Z) : bool := ((lo <=? code a) && (code a <=? hi))%Z.

(** The length of the longest valid prefix of the sequence that the head of
    [l] starts (at least 1), and whether that prefix is a whole character. *)
Definition utf8_step (l : list ascii) : nat * bool :=
  match l with
  | [] => (1%nat, false)
  | a :: l =>
    if (code a <? 128)%Z then (1%nat, true) else
    match utf8_lead a with
    | None => (1%nat, false)
    | Some (n, lo, hi) =>
      match l with
      | b :: l =>
        if in_range b lo hi then
          if (n =? 1)%nat then (2%nat, true) else
          match l with
          | c :: l =>
            if in_range c 128 191 then
              if (n =? 2)%nat then (3%nat, true) else
              match l with
              | d :: _ => if in_range d 128 191 then (4%nat, true) else (3%nat, false)
              | [] => (3%nat, false)
              end
            else (2%nat, false)
          | [] => (2%nat, false)
          end
        else (1%nat, false)
      | [] => (1%nat, false)
      end
    end
  end.

(** U+FFFD *)
Definition replacement : list ascii := [chr 239; chr 191; chr 189].

(** [bytes.decode("utf-8", "replace")]; the fuel is the number of bytes. *)
Fixpoint utf8_replace (fuel : nat) (l : list ascii) : list ascii :=
  match fuel, l with
  | S fuel, _ :: _ =>
    let '(n, ok) := utf8_step l in
    (if ok then take n l else replacement) ++ utf8_replace fuel (drop n l)
  | _, _ => []
  end.

Definition unquote_run (l : list ascii) : list ascii :=
  let bs := unquote_bytes l in utf8_replace (length bs) bs.

(** [run] is the ASCII run read so far, in reverse. *)
Fixpoint unquote_l (run l : list ascii) : list ascii :=
  match l with
  | [] => unquote_run (rev run)
  | a :: l =>
    if (code a <? 128)%Z then unquote_l (a :: run) l
    else unquote_run (rev run) ++ a :: unquote_l [] l
  end.
Definition unquote (s : string) : string :=
  if contains_char "%" s then of_chars (unquote_l [] (chars s)) else s.

(** ** Ordering *)

(** [a <= b] on strings. *)
Definition str_leb (a b : string) : bool := String.leb a b.

Fixpoint insert_by {A} (key : A → string) (x : A) (l : list A) : list A :=
  match l with
  | [] => [x]
  | y :: l' => if str_leb (key x) (key y) then x :: l else y :: insert_by key x l'
  end.
(** [sorted(xs, key=key)] *)
Definition sort_by {A} (key : A → string) (l : list A) : list A :=
  foldr (insert_by key) [] l.

Example unquote_ex : unquote "a%20b%2Fc%zz" = "a b/c%zz".
Proof. reflexivity. Qed.
Example strip_ex : strip "  a b	 " = "a b".
Proof. reflexivity. Qed.

(** ** [strip] is idempotent *)
Local Open Scope list_scope.
Section drop_ws.
Context (w2 : ascii → ascii → bool) (w3 : ascii → ascii → ascii → bool).

(** [l] starts with white space that [drop_ws] removes. *)
Definition ws_head (l : list ascii) : bool :=
  match l with
  | [] => false
  | a :: l1 => ws1 a || match l1 with
               | [] => false
               | b :: l2 => w2 a b || match l2 with [] => false | c :: _ => w3 a b c end
               end
  end.

Lemma ws_head_drop l : ws_head (drop_ws w2 w3 l) = false.
Proof.
  induction l as [l IH] using (induction_ltof1 _ length). unfold ltof in IH.
  destruct l as [|a [|b [|c l]]]; simpl; try done;
    repeat case_match; simpl;
    repeat match goal with H : ?b = false |- context [?b] => rewrite H end; try done;
    apply IH; simpl; lia.
Qed.

Lemma drop_ws_id l : ws_head l = false → drop_ws w2 w3 l = l.
Proof.
  destruct l as [|a [|b [|c l]]]; simpl; try done; intros H;
    repeat (apply orb_false_iff in H as [H' H]; rewrite ?H'; clear H'); rewrite ?H; done.
Qed.

Lemma ws_head_prefix p l : p `prefix_of` l → ws_head l = false → ws_head p = false.
Proof.
  intros [k ->]. destruct p as [|a [|b [|c p]]]; simpl; try done; intros H;
    repeat (apply orb_false_iff in H as [H' H]; rewrite ?H'; clear H'); rewrite ?H; done.
Qed.

Lemma drop_ws_cons a l1 :
  drop_ws w2 w3 (a :: l1) =
    if ws1 a then drop_ws w2 w3 l1 else
    match l1 with
    | [] => [a]
    | b :: l2 => if w2 a b then drop_ws w2 w3 l2 else
                 match l2 with
                 | [] => [a; b]
                 | c :: l3 => if w3 a b c then drop_ws w2 w3 l3 else a :: b :: c :: l3
                 end
    end.
Proof. by destruct l1 as [|b [|c l]]. Qed.

Lemma drop_ws_suffix l : ∃ k, l = k ++ drop_ws w2 w3 l.
Proof.
  induction l as [l IH] using (induction_ltof1 _ length). unfold ltof in IH.
  assert (∀ p q, l = p ++ q → p ≠ [] → ∃ k, l = k ++ drop_ws w2 w3 q) as Hskip.
  { intros p q -> Hp. destruct (IH q) as [k Hk].
    - rewrite length_app. destruct p; [done|simpl; lia].
    - exists (p ++ k). by rewrite <- app_assoc, <- Hk. }
  destruct l as [|a l1]; [by exists []|]. rewrite drop_ws_cons.
  destruct (ws1 a); [by apply (Hskip [a])|]. destruct l1 as [|b l2]; [by exists []|].
  destruct (w2 a b); [by apply (Hskip [a; b])|]. destruct l2 as [|c l3]; [by exists []|].
  destruct (w3 a b c); [by apply (Hskip [a; b; c])|by exists []].
Qed.
End drop_ws.

Lemma of_chars_chars s : of_chars (chars s) = s.
Proof. apply String.string_of_list_ascii_of_string. Qed.
Lemma chars_of_chars l : chars (of_chars l) = l.
Proof. apply String.list_ascii_of_string_of_list_ascii. Qed.
#[export] Hint Rewrite of_chars_chars chars_of_chars : rt.

Lemma strip_idemp s : strip (strip s) = strip s.
Proof.
  unfold strip. rewrite chars_of_chars. f_equal.
  set (y := lstrip_l (chars s)).
  assert (lstrip_l (rstrip_l y) = rstrip_l y) as ->.
  { apply drop_ws_id. eapply ws_head_prefix; [|apply ws_head_drop].
    destruct (drop_ws_suffix (λ a b, ws2 b a) (λ a b c, ws3 c b a) (rev y)) as [k Hk].
    exists (rev k). unfold rstrip_l.
    rewrite <- rev_app_distr, <- Hk. symmetry. apply rev_involutive. }
  unfold rstrip_l. rewrite rev_involutive. by rewrite drop_ws_id by apply ws_head_drop.
Qed.
#[export] Hint Rewrite strip_idemp : rt.

(** A text that starts with a printed ASCII character is not blank. *)
Lemma drop_ws_last w2 w3 c l :
  ws1 c = false → (∀ a, w2 a c = false) → (∀ a b, w3 a b c = false) → drop_ws w2 w3 (l ++ [c]) ≠ [].
Proof.
  intros H1 H2 H3. induction l as [l IH] using (induction_ltof1 _ length). unfold ltof in IH.
  destruct l as [|a l]; [simpl; by rewrite H1|]. simpl (_ ++ _). rewrite drop_ws_cons.
  destruct (ws1 a); [apply IH; simpl; lia|].
  destruct l as [|b l]; simpl; [by rewrite H2|]. destruct (w2 a b); [apply IH; simpl; lia|].
  destruct l as [|d l]; simpl; [by rewrite H3|]. destruct (w3 a b d); [apply IH; simpl; lia|done].
Qed.

Lemma strip_printed c s : ((33 <=? code c) && (code c <=? 126))%Z = true → strip (String c s) ≠ "".
Proof.
  intros Hc. assert (ws1 c = false) as H1 by (unfold ws1; lia).
  assert (∀ b, ws2 c b = false) as H2 by (intros b; unfold ws2; lia).
  assert (∀ a b, ws3 c a b = false) as H3 by (intros a b; unfold ws3; lia).
  unfold strip. assert (lstrip_l (chars (String c s)) = c :: chars s) as ->.
  { apply drop_ws_id. unfold ws_head. simpl. rewrite H1.
    destruct (chars s) as [|b [|d l]]; simpl; rewrite ?H2, ?H3; done. }
  unfold rstrip_l. simpl. intros He.
  apply (drop_ws_last (λ a b, ws2 b a) (λ a b d, ws3 d b a) c (rev (chars s)) H1 H2 (λ a b, H3 b a)).
  match type of He with of_chars (rev ?r) = _ => destruct r as [|x k] end; [done|].
  exfalso. simpl in He. assert (chars (of_chars (rev k ++ [x])) = []) as Hn by (by rewrite He).
  rewrite chars_of_chars in Hn. by destruct (rev k).
Qed.

Lemma blank_strip s : blank (strip s) = blank s.
Proof. unfold blank. by rewrite strip_idemp. Qed.
#[export] Hint Rewrite blank_strip : rt.

(** ** Upper case *)
Definition ascii7 (c : ascii) : bool := (code c <? 128)%Z.

Lemma upper_l_upper l : forallb is_upper l = true → upper_l l = l.
Proof.
  induction l as [|a l IH]; [done|]. simpl. intros [Ha Hl]%andb_prop.
  assert (upp a = a) as Hu.
  { unfold upp, is_lower, is_upper in *. bsplit. destruct (_ && _) eqn:?; [|done]. bsplit. lia. }
  destruct l as [|b l]; [by rewrite Hu|].
  unfold is_upper in Ha. bsplit.
  assert (fold2 a b = None) as Hf.
  { unfold fold2. do 2 (rewrite bool_decide_eq_false_2; [|intros [= ? ?]; lia]). done. }
  rewrite bool_decide_eq_false_2 by (intros [= ? ?]; lia). rewrite Hf.
  destruct l as [|c l]; [rewrite Hu; f_equal; by apply IH|].
  assert (fold3 a b c = None) as ->.
  { unfold fold3. rewrite bool_decide_eq_false_2; [done|]. intros [= ? ?]. lia. }
  rewrite Hu. f_equal. by apply IH.
Qed.

Lemma upp_not_lower c : is_lower (upp c) = false.
Proof. by destruct c as [[] [] [] [] [] [] [] []]. Qed.

Lemma upper_l_not_lower l : Forall (λ c, is_lower c = false) (upper_l l).
Proof.
  induction l as [l IH] using (induction_ltof1 _ length). unfold ltof in IH.
  assert (∀ m, Forall (λ c, is_lower c = false) (upp <$> m)) as Hm.
  { intros m. apply Forall_fmap, Forall_true, upp_not_lower. }
  destruct l as [|a [|b l2]]; [constructor|by repeat constructor; apply upp_not_lower|].
  assert (Forall (λ c, is_lower c = false) (upp a :: upper_l (b :: l2))) as Hdef.
  { constructor; [apply upp_not_lower|apply IH; simpl; lia]. }
  assert (Forall (λ c, is_lower c = false) (upper_l l2)) as H2 by (apply IH; simpl; lia).
  change (upper_l (a :: b :: l2)) with
    (if bool_decide ((code a, code b) = (196, 177)%Z) then chr 73 :: upper_l l2 else
     match fold2 a b with
     | Some r => (upp <$> chars r) ++ upper_l l2
     | None => match l2 with
               | [] => upp a :: upper_l (b :: l2)
               | c :: l3 => match fold3 a b c with
                            | Some r => (upp <$> chars r) ++ upper_l l3
                            | None => upp a :: upper_l (b :: l2)
                            end
               end
     end).
  case_bool_decide; [by constructor|]. destruct (fold2 a b); [by apply Forall_app|].
  destruct l2 as [|c l3]; [done|]. destruct (fold3 a b c); [|done].
  apply Forall_app. split; [done|]. apply IH. simpl. lia.
Qed.

(** Upper-casing and stripping leave upper-case ASCII text alone. *)
Lemma upper_upper s : forallb is_upper (chars s) = true → upper s = s.
Proof. intros H. unfold upper. by rewrite upper_l_upper, of_chars_chars. Qed.

Lemma upper_alpha_upper s :
  forallb is_alpha (chars (upper s)) = true → forallb is_upper (chars (upper s)) = true.
Proof.
  unfold upper. rewrite chars_of_chars. intros H. apply forallb_In. intros c Hc.
  pose proof (proj1 (forallb_In is_alpha _) H c Hc) as Ha.
  pose proof (proj1 (Forall_forall _ _) (upper_l_not_lower (chars s)) c Hc) as Hl.
  unfold is_alpha in Ha. simpl in Hl. by rewrite Hl in Ha.
Qed.

(** A visible ASCII character. *)
Definition plain (c : ascii) : bool := ((33 <=? code c) && (code c <=? 126))%Z.

Lemma ws_head_plain w2 w3 l :
  (∀ a b, plain a = true → plain b = true → w2 a b = false) →
  (∀ a b c, plain a = true → plain b = true → plain c = true → w3 a b c = false) →
  forallb plain l = true → ws_head w2 w3 l = false.
Proof.
  assert (∀ a, plain a = true → ws1 a = false) as H1.
  { unfold plain, ws1. intros a Ha. bsplit. apply orb_false_iff.
    split; apply andb_false_iff; right; apply Z.leb_gt; lia. }
  intros H2 H3 Hl. destruct l as [|a [|b [|c l]]]; simpl in *; try done; bsplit;
    rewrite ?H1, ?H2, ?H3 by done; done.
Qed.

Lemma strip_plain s : forallb plain (chars s) = true → strip s = s.
Proof.
  intros Hs. unfold strip, lstrip_l, rstrip_l.
  assert (∀ a b, plain a = true → plain b = true → ws2 a b = false) as H2.
  { unfold plain, ws2. intros a b Ha Hb. bsplit. apply andb_false_iff. left. apply Z.eqb_neq. lia. }
  assert (∀ a b c, plain a = true → plain b = true → plain c = true → ws3 a b c = false) as H3.
  { unfold plain, ws3. intros a b c Ha Hb Hc. bsplit.
    rewrite !(proj2 (Z.eqb_neq (code a) _)) by lia. done. }
  rewrite (drop_ws_id ws2 ws3) by (apply ws_head_plain; auto).
  rewrite drop_ws_id.
  - by rewrite rev_involutive, of_chars_chars.
  - apply ws_head_plain; auto. apply forallb_In. intros c Hc.
    apply (proj1 (forallb_In plain _) Hs). apply list_elem_of_In, in_rev, list_elem_of_In, Hc.
Qed.

Lemma plain_of (f : ascii → bool) s :
  (∀ c, f c = true → plain c = true) → forallb f (chars s) = true → strip s = s.
Proof.
  intros Hf Hs. apply strip_plain, forallb_In. intros c Hc. apply Hf. by apply (proj1 (forallb_In f _) Hs).
Qed.

Lemma strip_upper s : forallb is_upper (chars s) = true → strip s = s.
Proof. apply plain_of. unfold is_upper, plain. intros c Hc. bsplit. apply andb_true_iff; split; apply Z.leb_le; lia. Qed.

Lemma strip_hex s : forallb is_hex_lower (chars s) = true → strip s = s.
Proof.
  apply plain_of. unfold is_hex_lower, is_digit, plain. intros c Hc.
  apply orb_true_iff in Hc as [Hc|Hc]; bsplit; apply andb_true_iff; split; apply Z.leb_le; lia.
Qed.

(** ** Prefixes *)
Lemma prefixb_spec p s : prefixb p s = true ↔ p `prefix_of` s.
Proof.
  revert s. induction p as [|a p IH]; intros [|b s]; simpl.
  - split; [by intros _; exists []|done].
  - split; [intros _; by exists (b :: s)|done].
  - split; [done|]. by intros [k ?].
  - rewrite andb_true_iff, bool_decide_eq_true, IH. split.
    + intros [-> [k ->]]. by exists k.
    + intros [k [= -> ->]]. split; [done|by exists k].
Qed.

Lemma startswith_spec s p : startswith s p = true ↔ chars p `prefix_of` chars s.
Proof. apply prefixb_spec. Qed.

Lemma chars_inj s t : chars s = chars t → s = t.
Proof. intros H. by rewrite <- (of_chars_chars s), <- (of_chars_chars t), H. Qed.

Lemma chars_app s t : chars (s +:+ t) = chars s ++ chars t.
Proof. induction s as [|a s IH]; simpl; [done|]. by rewrite IH. Qed.

Lemma lstrip_char_suffix c l :
  ∃ k, l = k ++ chars (lstrip_char c (of_chars l)).
Proof.
  unfold lstrip_char. rewrite !chars_of_chars.
  induction l as [|a l [k IH]]; simpl; [by exists []|].
  case_bool_decide; [|by exists []]. exists (a :: k). simpl. by f_equal.
Qed.

Lemma rstrip_char_prefix c s : chars (rstrip_char c s) `prefix_of` chars s.
Proof.
  unfold rstrip_char. rewrite chars_of_chars.
  destruct (lstrip_char_suffix c (rev (chars s))) as [k Hk].
  exists (rev k). rewrite <- rev_app_distr, <- Hk. symmetry. apply rev_involutive.
Qed.

Lemma low_not_upper c : is_upper (low c) = false.
Proof. by destruct c as [[] [] [] [] [] [] [] []]. Qed.

Lemma low_lower c : is_lower c = true → low c = c.
Proof. by destruct c as [[] [] [] [] [] [] [] []]. Qed.

Lemma lower_l_head l a l' : lower_l l = a :: l' → is_upper a = false.
Proof.
  destruct l as [|x [|y [|z l]]]; simpl; try done;
    try (intros [= <- _]; apply low_not_upper).
  case_bool_decide; intros [= <- _]; [done|apply low_not_upper].
Qed.

(** The first character of case-folded text that starts with an ASCII letter. *)
Lemma casefold_l_alpha a l : is_alpha a = true → casefold_l (a :: l) = low a :: casefold_l l.
Proof.
  intros Ha. assert ((code a < 128)%Z) as Hc.
  { unfold is_alpha, is_lower, is_upper in Ha. apply orb_prop in Ha as [?|?]; bsplit; lia. }
  destruct l as [|b l]; [done|].
  assert (fold2 a b = None) as Hf.
  { unfold fold2. do 2 (rewrite bool_decide_eq_false_2; [|intros [= ? ?]; lia]). done. }
  destruct l as [|c l]; simpl; rewrite Hf; [done|].
  rewrite bool_decide_eq_false_2 by (intros [= ? ? ?]; lia).
  assert (fold3 a b c = None) as ->; [|done].
  unfold fold3. rewrite bool_decide_eq_false_2; [done|]. intros [= ? ?]. lia.
Qed.

Lemma drop_last_prefix n s : chars (drop_last n s) `prefix_of` chars s.
Proof. unfold drop_last. rewrite chars_of_chars. apply prefix_take. Qed.

Lemma drop_last_app s t : drop_last (length (chars t)) (s +:+ t) = s.
Proof.
  unfold drop_last. rewrite chars_app, length_app.
  replace (length (chars s) + length (chars t) - length (chars t)) with (length (chars s)) by lia.
  by rewrite take_app_length, of_chars_chars.
Qed.

Lemma endswith_app s t : endswith (s +:+ t) t = true.
Proof.
  unfold endswith. rewrite prefixb_spec, chars_app, rev_app_distr. by exists (rev (chars s)).
Qed.

Lemma elem_of_insert_by {A} (key : A → string) (x y : A) l :
  y ∈ insert_by key x l ↔ y = x ∨ y ∈ l.
Proof.
  induction l as [|z l IH]; simpl; [set_solver|].
  destruct (str_leb _ _); rewrite ?elem_of_cons, ?IH; tauto.
Qed.

Lemma elem_of_sort_by {A} (key : A → string) l y : y ∈ sort_by key l ↔ y ∈ l.
Proof.
  induction l as [|x l IH]; [done|].
  change (sort_by key (x :: l)) with (insert_by key x (sort_by key l)).
  by rewrite elem_of_insert_by, IH, elem_of_cons.
Qed.
