(* ===== verification/Json.v ===== *)
(** * JSON values and canonical serialisation

    The values that [json.loads] yields (floating-point numbers apart) and
    [canonical_json] of [types.py]: [json.dumps] with [ensure_ascii=False],
    [sort_keys=True] and the compact separators.  A [dict] is an association
    list; Python's insertion order is the order of the list. *)

From Stdlib Require Import DecimalString DecimalZ.
From S2P Require Import Prelude PyStr.
From Stdlib Require Import Ascii.

Local Open Scope string_scope.

#[warnings="-register-all"]
Inductive json :=
  | JNull
  | JBool (b : bool)
  | JInt (z : Z)
  | JStr (s : string)
  | JList (l : list json)
  | JObj (kvs : list (string * json)).

Definition dict := list (string * json).

(** [d.get(k)] *)
Fixpoint dget (d : dict) (k : string) : option json :=
  match d with
  | [] => None
  | (k', v) :: d => if String.eqb k k' then Some v else dget d k
  end.
Definition dkeys (d : dict) : list string := fst <$> d.
(** [d.get(k, default)] *)
Definition dget_or (d : dict) (k : string) (v : json) : json := default v (dget d k).
(** [d[k]] *)
Definition dindex (d : dict) (k : string) : res json := of_option (dget d k) PyKeyError.

(** ** Printing *)
Definition hex_digit (n : Z) : ascii := if (n <? 10)%Z then chr (48 + n) else chr (87 + n).

Definition escape_char (c : ascii) : list ascii :=
  let x := code c in
  if (x =? 34)%Z then ["\"%char; chr 34]
  else if (x =? 92)%Z then ["\"; "\"]%char
  else if (x =? 10)%Z then ["\"; "n"]%char
  else if (x =? 13)%Z then ["\"; "r"]%char
  else if (x =? 9)%Z then ["\"; "t"]%char
  else if (x =? 12)%Z then ["\"; "f"]%char
  else if (x =? 8)%Z then ["\"; "b"]%char
  else if (x <? 32)%Z then
    ["\"; "u"; "0"; "0"]%char ++ [hex_digit (x / 16); hex_digit (x mod 16)]
  else [c].

Definition quote_char : string := of_chars [chr 34].
Definition quoted (s : string) : string :=
  quote_char +:+ of_chars (chars s ≫= escape_char) +:+ quote_char.

Definition print_int (z : Z) : string := NilZero.string_of_int (Z.to_int z).

Fixpoint canonical_json (j : json) : string :=
  match j with
  | JNull => "null"
  | JBool true => "true"
  | JBool false => "false"
  | JInt z => print_int z
  | JStr s => quoted s
  | JList l => "[" +:+ str_join "," (canonical_json <$> l) +:+ "]"
  | JObj kvs =>
    let parts := (fix go (l : dict) := match l with
                  | [] => []
                  | (k, v) :: l => (k, canonical_json v) :: go l
                  end) kvs in
    "{" +:+ str_join "," ((λ kv, quoted kv.1 +:+ ":" +:+ kv.2) <$> sort_by fst parts) +:+ "}"
  end.

Example canonical_json_ex :
  canonical_json (JObj [("b", JList [JInt (-12); JNull]); ("a", JBool true)])
  = of_chars (concat [["{"%char; chr 34; "a"%char; chr 34]; chars ":true,"; [chr 34; "b"%char; chr 34]; chars ":[-12,null]}"]).
Proof. vm_compute. reflexivity. Qed.

(** ** Reading ([json.loads])

    The parser reads the compact form that [canonical_json] writes.  The fuel
    bounds the nesting; the length of the text is always enough. *)
Local Open Scope list_scope.

Definition hex4 (c d : ascii) : option ascii :=
  x ← hex_val c; y ← hex_val d; Some (chr (16 * x + y)).

(** One possibly escaped character of a string literal. *)
Definition read_char (l : list ascii) : option (ascii * list ascii) :=
  match l with
  | [] => None
  | a :: l1 =>
    if bool_decide (a = "\"%char) then
      match l1 with
      | b :: l2 =>
        if (code b =? 34)%Z || (code b =? 92)%Z then Some (b, l2)
        else if (code b =? 110)%Z then Some (chr 10, l2)
        else if (code b =? 114)%Z then Some (chr 13, l2)
        else if (code b =? 116)%Z then Some (chr 9, l2)
        else if (code b =? 102)%Z then Some (chr 12, l2)
        else if (code b =? 98)%Z then Some (chr 8, l2)
        else match l2 with
             | _ :: _ :: c :: d :: l3 => x ← hex4 c d; Some (x, l3)
             | _ => None
             end
      | [] => None
      end
    else Some (a, l1)
  end.

(** The rest of a string literal after its opening quote. *)
Fixpoint read_string (fuel : nat) (l : list ascii) : option (string * list ascii) :=
  match fuel with
  | O => None
  | S fuel =>
    match l with
    | [] => None
    | a :: l1 =>
      if bool_decide (a = chr 34) then Some ("", l1)
      else '(c, l2) ← read_char l; '(s, l3) ← read_string fuel l2; Some (String c s, l3)
    end
  end.

Definition is_num (c : ascii) : bool := is_digit c || bool_decide (c = "-"%char).
Fixpoint span_num (l : list ascii) : list ascii * list ascii :=
  match l with
  | a :: l1 => if is_num a then let '(x, y) := span_num l1 in (a :: x, y) else ([], l)
  | [] => ([], [])
  end.

Definition read_int (l : list ascii) : option (json * list ascii) :=
  let '(x, y) := span_num l in
  i ← NilZero.int_of_string (of_chars x); Some (JInt (Z.of_int i), y).

Definition starts (p : string) (l : list ascii) : bool := prefixb (chars p) l.

Fixpoint read_json (fuel : nat) (l : list ascii) : option (json * list ascii) :=
  match fuel with
  | O => None
  | S fuel =>
    if starts "null" l then Some (JNull, drop 4 l)
    else if starts "true" l then Some (JBool true, drop 4 l)
    else if starts "false" l then Some (JBool false, drop 5 l)
    else if starts quote_char l then
      '(s, r) ← read_string (length l) (drop 1 l); Some (JStr s, r)
    else if starts "[]" l then Some (JList [], drop 2 l)
    else if starts "[" l then '(x, r) ← read_items fuel (drop 1 l); Some (JList x, r)
    else if starts "{}" l then Some (JObj [], drop 2 l)
    else if starts "{" l then '(x, r) ← read_members fuel (drop 1 l); Some (JObj x, r)
    else read_int l
  end
with read_items (fuel : nat) (l : list ascii) : option (list json * list ascii) :=
  match fuel with
  | O => None
  | S fuel =>
    '(v, r) ← read_json fuel l;
    match r with
    | c :: r =>
      if bool_decide (c = ","%char) then '(vs, r) ← read_items fuel r; Some (v :: vs, r)
      else if bool_decide (c = "]"%char) then Some ([v], r) else None
    | [] => None
    end
  end
with read_members (fuel : nat) (l : list ascii) : option (dict * list ascii) :=
  match fuel with
  | O => None
  | S fuel =>
    '(k, r) ← read_string (length l) (drop 1 l);
    '(v, r) ← read_json fuel (drop 1 r);
    match r with
    | c :: r =>
      if bool_decide (c = ","%char) then '(vs, r) ← read_members fuel r; Some ((k, v) :: vs, r)
      else if bool_decide (c = "}"%char) then Some ([(k, v)], r) else None
    | [] => None
    end
  end.

Definition loads (s : string) : option json :=
  '(j, r) ← read_json (S (String.length s)) (chars s);
  match r with [] => Some j | _ => None end.

(** ** The round trip *)

(** The value that a text stands for: objects in key order. *)
Fixpoint norm (j : json) : json :=
  match j with
  | JList l => JList (norm <$> l)
  | JObj kvs =>
    JObj (sort_by fst ((fix go (l : dict) := match l with
                        | [] => []
                        | (k, v) :: l => (k, norm v) :: go l
                        end) kvs))
  | _ => j
  end.

Section json_ind.
Context (P : json → Prop) (Hnull : P JNull) (Hbool : ∀ b, P (JBool b)) (Hint : ∀ z, P (JInt z))
  (Hstr : ∀ s, P (JStr s)) (Hlist : ∀ l, Forall P l → P (JList l))
  (Hobj : ∀ kvs, Forall (λ kv, P kv.2) kvs → P (JObj kvs)).

Fixpoint json_ind' (j : json) : P j :=
  match j with
  | JNull => Hnull
  | JBool b => Hbool b
  | JInt z => Hint z
  | JStr s => Hstr s
  | JList l => Hlist l ((fix go l : Forall P l := match l with
                         | [] => Forall_nil_2 _
                         | x :: l => Forall_cons_2 _ _ _ (json_ind' x) (go l)
                         end) l)
  | JObj kvs => Hobj kvs ((fix go l : Forall (λ kv, P kv.2) l := match l with
                           | [] => Forall_nil_2 _
                           | x :: l => Forall_cons_2 (λ kv, P kv.2) _ _ (json_ind' x.2) (go l)
                           end) kvs)
  end.
End json_ind.

Definition on_snd {A B} (f : A → B) (kv : string * A) : string * B := (kv.1, f kv.2).

Lemma insert_by_on_snd {A B} (f : A → B) x l :
  insert_by fst (on_snd f x) (on_snd f <$> l) = on_snd f <$> insert_by fst x l.
Proof.
  induction l as [|y l IH]; [done|]. cbn. destruct (str_leb _ _); [done|]. cbn.
  f_equal. apply IH.
Qed.

Lemma sort_by_on_snd {A B} (f : A → B) l :
  sort_by fst (on_snd f <$> l) = on_snd f <$> sort_by fst l.
Proof.
  induction l as [|x l IH]; [done|]. change (sort_by fst (on_snd f <$> x :: l))
    with (insert_by fst (on_snd f x) (sort_by fst (on_snd f <$> l))).
  rewrite IH. apply insert_by_on_snd.
Qed.

Lemma norm_obj kvs : norm (JObj kvs) = JObj (on_snd norm <$> sort_by fst kvs).
Proof.
  cbn. f_equal. rewrite <- sort_by_on_snd. f_equal.
  induction kvs as [|[k v] kvs IH]; [done|]. by rewrite IH.
Qed.

Definition member_text (kv : string * json) : string := quoted kv.1 +:+ ":" +:+ canonical_json kv.2.

Lemma canonical_obj kvs :
  canonical_json (JObj kvs)
  = "{" +:+ str_join "," (member_text <$> sort_by fst kvs) +:+ "}".
Proof.
  cbn. do 2 f_equal.
  assert ((fix go (l : dict) := match l with
                  | [] => []
                  | (k, v) :: l => (k, canonical_json v) :: go l
                  end) kvs = on_snd canonical_json <$> kvs) as ->.
  { induction kvs as [|[k v] kvs IH]; [done|]. by rewrite IH. }
  rewrite sort_by_on_snd, <- list_fmap_compose. done.
Qed.

Lemma read_char_escape c t :
  read_char (escape_char c ++ t) = Some (c, t) ∧
  ∃ a l, escape_char c = a :: l ∧ a ≠ chr 34.
Proof. destruct c as [[] [] [] [] [] [] [] []]; (split; [reflexivity|do 2 eexists; done]). Qed.

Lemma read_string_quoted s r fuel :
  (String.length s < fuel)%nat →
  read_string fuel ((chars s ≫= escape_char) ++ chr 34 :: r) = Some (s, r).
Proof.
  revert fuel. induction s as [|c s IH]; intros [|fuel] Hf; simpl in Hf; try lia; [done|].
  cbn [chars]. rewrite bind_cons, <- app_assoc.
  destruct (read_char_escape c ((chars s ≫= escape_char) ++ chr 34 :: r)) as [Hr (a & l & He & Ha)].
  rewrite He in Hr |- *. cbn [read_string app].
  rewrite bool_decide_eq_false_2 by done. cbn [app] in Hr. rewrite Hr. simpl.
  by rewrite IH by lia.
Qed.

Lemma escape_length s : (String.length s ≤ length (chars s ≫= escape_char))%nat.
Proof.
  induction s as [|c s IH]; [done|]. cbn [chars String.length]. rewrite bind_cons, length_app.
  destruct (read_char_escape c []) as [_ (a & l & -> & _)]. cbn [length]. lia.
Qed.

(** *** Numbers *)
Lemma uint_digits d : forallb is_num (chars (NilEmpty.string_of_uint d)) = true.
Proof. by induction d. Qed.

Lemma print_int_num z : forallb is_num (chars (print_int z)) = true ∧ print_int z ≠ "".
Proof.
  unfold print_int, NilZero.string_of_int.
  assert (∀ d, forallb is_num (chars (NilZero.string_of_uint d)) = true ∧
               NilZero.string_of_uint d ≠ "") as Hd.
  { intros []; (split; [|done]); try done; apply uint_digits. }
  destruct (Z.to_int z) as [d|d]; [apply Hd|]. split; [|done]. apply (proj1 (Hd d)).
Qed.

Lemma span_num_app l r :
  forallb is_num l = true → match r with [] => True | c :: _ => is_num c = false end →
  span_num (l ++ r) = (l, r).
Proof.
  intros Hl Hr. induction l as [|a l IH]; simpl.
  - destruct r as [|c r]; [done|]. simpl. by rewrite Hr.
  - simpl in Hl. bsplit. by rewrite H, IH.
Qed.

(** A text that cannot continue a number. *)
Definition stops (r : list ascii) : Prop := match r with [] => True | c :: _ => is_num c = false end.

Lemma read_int_print z r : stops r → read_int (chars (print_int z) ++ r) = Some (JInt z, r).
Proof.
  intros Hr. destruct (print_int_num z) as [Hn _]. unfold read_int.
  rewrite span_num_app, of_chars_chars by done. unfold print_int.
  assert (NilZero.int_of_string (NilZero.string_of_int (Z.to_int z)) = Some (Z.to_int z)) as ->.
  { apply NilZero.isi; destruct z as [|p|p]; try done; intros [= Hnil];
      by apply DecimalPos.Unsigned.to_uint_nonnil in Hnil. }
  simpl. by rewrite DecimalZ.of_to.
Qed.

(** *** Whole values *)
Definition text (j : json) : list ascii := chars (canonical_json j).

Definition reads_back (j : json) : Prop :=
  ∀ fuel r, (length (text j) ≤ fuel)%nat → stops r →
  read_json fuel (text j ++ r) = Some (norm j, r).

Lemma starts_other p0 p c t : p0 ≠ c → starts (String p0 p) (c :: t) = false.
Proof. intros Hne. unfold starts. simpl. by rewrite bool_decide_eq_false_2. Qed.

Lemma starts_quote t : starts quote_char (chr 34 :: t) = true.
Proof. done. Qed.

Lemma join_cons sep x y l :
  chars (str_join sep (x :: y :: l)) = chars x ++ chars sep ++ chars (str_join sep (y :: l)).
Proof. by rewrite <- !chars_app. Qed.

Lemma read_int_value z : reads_back (JInt z).
Proof.
  intros fuel r Hf Hr. destruct (print_int_num z) as [Hn Hne].
  unfold text in *. cbn [canonical_json norm] in *.
  pose proof (read_int_print z r Hr) as Hread.
  destruct (chars (print_int z)) as [|c t] eqn:Hc.
  { exfalso. apply Hne. by apply chars_inj. }
  simpl in Hn. bsplit. destruct fuel as [|fuel]; [simpl in Hf; lia|].
  cbn [read_json app] in *.
  rewrite !starts_other by (intros <-; done). unfold quote_char. simpl of_chars.
  by rewrite starts_other by (intros <-; done).
Qed.

Lemma read_str_value s : reads_back (JStr s).
Proof.
  intros fuel r Hf Hr. unfold text, quoted in *. cbn [canonical_json norm] in *.
  unfold quoted in *. rewrite !chars_app, chars_of_chars, <- !app_assoc in *.
  change (chars quote_char) with [chr 34] in *. cbn [app] in *.
  destruct fuel as [|fuel]; [simpl in Hf; lia|]. cbn [read_json].
  rewrite !starts_other by done. rewrite starts_quote, skipn_cons, drop_0.
  rewrite read_string_quoted; [done|]. pose proof (escape_length s).
  simpl. rewrite length_app. simpl. lia.
Qed.

Local Arguments str_join : simpl never.

Lemma join_one sep x : str_join sep [x] = x.
Proof. done. Qed.

Lemma read_items_back l :
  Forall reads_back l → l ≠ [] → ∀ fuel r,
  (length (chars (str_join "," (canonical_json <$> l))) < fuel)%nat →
  read_items fuel (chars (str_join "," (canonical_json <$> l)) ++ "]"%char :: r)
  = Some (norm <$> l, r).
Proof.
  induction 1 as [|x l Hx Hl IH]; [done|]. intros _ [|fuel] r Hf; [lia|].
  destruct l as [|y l].
  - cbn [read_items]. unfold reads_back, text in Hx. cbn [fmap list_fmap] in *. rewrite join_one in *.
    rewrite Hx; [done|simpl in *; lia|done].
  - cbn [fmap list_fmap] in *. rewrite join_cons in *. rewrite !length_app in Hf.
    rewrite <- !app_assoc. cbn [read_items].
    unfold reads_back, text in Hx. rewrite Hx; [|lia|done].
    simpl (chars ",") in *. cbn [app length] in *. simpl.
    specialize (IH ltac:(done) fuel r ltac:(lia)). cbn [fmap list_fmap] in IH. by rewrite IH.
Qed.

Lemma member_text_chars k v :
  chars (member_text (k, v)) =
  chr 34 :: (chars k ≫= escape_char) ++ chr 34 :: ":"%char :: text v.
Proof.
  unfold member_text, quoted. rewrite !chars_app, chars_of_chars. cbn [fst snd].
  change (chars quote_char) with [chr 34]. change (chars ":") with [":"%char].
  rewrite <- !app_assoc. done.
Qed.

Lemma read_members_back l :
  Forall (λ kv, reads_back kv.2) l → l ≠ [] → ∀ fuel r,
  (length (chars (str_join "," (member_text <$> l))) < fuel)%nat →
  read_members fuel (chars (str_join "," (member_text <$> l)) ++ "}"%char :: r)
  = Some (on_snd norm <$> l, r).
Proof.
  induction 1 as [|[k v] l Hx Hl IH]; [done|]. intros _ [|fuel] r Hf; [lia|].
  assert (∀ tl, (length (chars (member_text (k, v))) < S fuel)%nat → stops tl →
    ('(k', r1) ← read_string (length (chars (member_text (k, v)) ++ tl))
                   (drop 1 (chars (member_text (k, v)) ++ tl));
     '(v', r2) ← read_json fuel (drop 1 r1); Some (k', v', r2)) = Some (k, norm v, tl)) as Hm.
  { intros tl Hlen Htl. rewrite member_text_chars in *. cbn [app length] in *.
    rewrite skipn_cons, drop_0, <- app_assoc. cbn [app]. pose proof (escape_length k).
    rewrite length_app in Hlen. cbn [length] in Hlen.
    rewrite read_string_quoted by (rewrite !length_app; simpl; lia). simpl.
    unfold reads_back in Hx. cbn [snd] in Hx. rewrite drop_0. by rewrite Hx by (done || lia). }
  destruct l as [|y l].
  - cbn [fmap list_fmap] in *. rewrite join_one in *. specialize (Hm ("}"%char :: r) Hf eq_refl). cbn [read_members].
    destruct (read_string _ _) as [[k1 r1]|]; [|done]. simpl in *.
    destruct (read_json _ _) as [[v1 r2]|]; [|done]. simpl in *. by simplify_eq.
  - cbn [fmap list_fmap] in *. rewrite join_cons in *. rewrite !length_app in Hf.
    rewrite <- !app_assoc. simpl (chars ",") in *. cbn [app length] in *.
    specialize (IH ltac:(done) fuel r ltac:(lia)). cbn [fmap list_fmap] in IH.
    specialize (Hm ("," :: chars (str_join "," (member_text y :: (member_text <$> l))) ++ "}" :: r)%char
      ltac:(lia) eq_refl).
    cbn [read_members].
    destruct (read_string _ _) as [[k1 r1]|]; [|done]. simpl in Hm |- *.
    destruct (read_json _ _) as [[v1 r2]|]; [|done]. simpl in Hm |- *. simplify_eq.
    simpl. by rewrite IH.
Qed.

Lemma sort_by_nil {A} (key : A → string) l : sort_by key l = [] → l = [].
Proof.
  destruct l as [|x l]; [done|]. change (sort_by key (x :: l)) with (insert_by key x (sort_by key l)).
  destruct (sort_by key l); simpl; [done|]. by destruct (str_leb _ _).
Qed.

(** A text begins like its value: it is neither empty nor a closing bracket. *)
Lemma text_head j : ∃ c t, text j = c :: t ∧ c ≠ "]"%char.
Proof.
  destruct j as [|[]|z|s|l|kvs]; unfold text; try (do 2 eexists; done).
  - destruct (print_int_num z) as [Hn Hne]. cbn [canonical_json].
    destruct (chars (print_int z)) as [|c t] eqn:Hc; [exfalso; by apply Hne, chars_inj|].
    exists c, t. split; [done|]. simpl in Hn. bsplit. by intros ->.
Qed.

Lemma read_list_value l : Forall reads_back l → reads_back (JList l).
Proof.
  intros Hl fuel r Hf Hr. destruct (decide (l = [])) as [->|Hne].
  { destruct fuel as [|fuel]; [simpl in Hf; lia|]. done. }
  unfold text in *. cbn [canonical_json norm] in *. rewrite !chars_app, <- !app_assoc in *.
  change (chars "[") with ["["%char] in *. change (chars "]") with ["]"%char] in *.
  rewrite !length_app in Hf. cbn [app length] in *. destruct fuel as [|fuel]; [lia|].
  cbn [read_json]. rewrite !starts_other by done.
  change (starts quote_char _) with false. cbv iota.
  assert (starts "[]" ("["%char :: chars (str_join "," (canonical_json <$> l)) ++ "]"%char :: r) = false)
    as ->.
  { destruct l as [|x l]; [done|]. destruct (text_head x) as (c & t & Hx & Hc).
    assert (∃ t', chars (str_join "," (canonical_json <$> x :: l)) = c :: t') as [t' ->].
    { cbn [fmap list_fmap]. destruct l as [|y l]; [by exists t|].
      cbn [fmap list_fmap]. rewrite join_cons. unfold text in Hx. rewrite Hx. by eexists. }
    unfold starts. cbn [chars prefixb app].
    by rewrite (bool_decide_eq_false_2 ("]"%char = c)), andb_false_r by congruence. }
  assert (∀ t, starts "[" ("["%char :: t) = true) as -> by done.
  rewrite skipn_cons, drop_0, read_items_back by (done || lia). done.
Qed.

Lemma read_obj_value kvs : Forall (λ kv, reads_back kv.2) kvs → reads_back (JObj kvs).
Proof.
  intros Hl fuel r Hf Hr. unfold text in *. rewrite norm_obj, canonical_obj in *.
  assert (Forall (λ kv, reads_back kv.2) (sort_by fst kvs)) as Hs.
  { apply Forall_forall. intros kv Hkv%elem_of_sort_by. by apply (proj1 (Forall_forall _ _) Hl). }
  destruct (sort_by fst kvs) as [|[k v] l] eqn:Hsort.
  { destruct fuel as [|fuel]; [simpl in Hf; lia|]. done. }
  rewrite !chars_app, <- !app_assoc in *.
  change (chars "{") with ["{"%char] in *. change (chars "}") with ["}"%char] in *.
  rewrite !length_app in Hf. cbn [app length] in *. destruct fuel as [|fuel]; [lia|].
  cbn [read_json]. rewrite !starts_other by done.
  change (starts quote_char _) with false. cbv iota.
  assert (∃ t', chars (str_join "," (member_text <$> (k, v) :: l)) = chr 34 :: t') as [t' Ht].
  { cbn [fmap list_fmap]. destruct l as [|y l].
    - cbn [fmap list_fmap]. rewrite join_one, member_text_chars. by eexists.
    - cbn [fmap list_fmap]. rewrite join_cons, member_text_chars. by eexists. }
  assert (starts "{}" ("{"%char :: chars (str_join "," (member_text <$> (k, v) :: l)) ++ "}"%char :: r)
    = false) as -> by (by rewrite Ht).
  assert (∀ t, starts "{" ("{"%char :: t) = true) as -> by done.
  rewrite skipn_cons, drop_0, read_members_back by (done || lia). done.
Qed.

Lemma read_json_text j : reads_back j.
Proof.
  induction j as [| [] | | | |] using json_ind'.
  1-3: intros [|fuel] r Hf Hr; [simpl in Hf; lia|done].
  - apply read_int_value.
  - apply read_str_value.
  - by apply read_list_value.
  - by apply read_obj_value.
Qed.

Lemma loads_canonical j : loads (canonical_json j) = Some (norm j).
Proof.
  unfold loads. pose proof (read_json_text j) as Hj. unfold reads_back, text in Hj.
  specialize (Hj (S (String.length (canonical_json j))) []). rewrite app_nil_r in Hj.
  rewrite Hj; [done| |done].
  assert (∀ s, length (chars s) = String.length s) as -> by (intros s; induction s; simpl; lia).
  lia.
Qed.

Lemma canonical_json_inj j j' : canonical_json j = canonical_json j' → norm j = norm j'.
Proof. intros Hj. pose proof (loads_canonical j) as H1. rewrite Hj, loads_canonical in H1. congruence. Qed.

(** Objects with the same text agree on every key. *)
Lemma dget_insert_by (kv : string * json) l k :
  kv.1 ∉ l.*1 → dget (insert_by fst kv l) k = dget (kv :: l) k.
Proof.
  destruct kv as [k0 v0]. induction l as [|[k1 v1] l IH]; intros Hn; [done|].
  cbn [insert_by]. destruct (str_leb _ _); [done|]. cbn [dget]. rewrite IH by set_solver.
  cbn [dget]. destruct (String.eqb_spec k k0), (String.eqb_spec k k1); try done. set_solver.
Qed.

Lemma insert_by_keys (kv : string * json) l k :
  k ∈ (insert_by fst kv l).*1 ↔ k ∈ (kv :: l).*1.
Proof.
  rewrite !list_elem_of_fmap. setoid_rewrite elem_of_insert_by. by setoid_rewrite elem_of_cons.
Qed.

Lemma sort_by_keys (l : dict) k : k ∈ (sort_by fst l).*1 ↔ k ∈ l.*1.
Proof. rewrite !list_elem_of_fmap. by setoid_rewrite elem_of_sort_by. Qed.

Lemma dget_sort (l : dict) k : NoDup l.*1 → dget (sort_by fst l) k = dget l k.
Proof.
  induction l as [|[k1 v1] l IH]; [done|]. cbn [fmap list_fmap]. intros [Hn Hnd]%NoDup_cons.
  change (sort_by fst ((k1, v1) :: l)) with (insert_by fst (k1, v1) (sort_by fst l)).
  rewrite dget_insert_by by (by rewrite sort_by_keys). cbn [dget]. by rewrite IH.
Qed.

Lemma dget_on_snd f (l : dict) k : dget (on_snd f <$> l) k = f <$> dget l k.
Proof.
  induction l as [|[k1 v1] l IH]; [done|]. cbn. by destruct (String.eqb k k1).
Qed.

Lemma norm_dget (a b : dict) k :
  NoDup a.*1 → NoDup b.*1 → norm (JObj a) = norm (JObj b) →
  norm <$> dget a k = norm <$> dget b k.
Proof.
  intros Ha Hb. rewrite !norm_obj. intros [= Hn].
  rewrite <- (dget_sort a), <- (dget_sort b), <- !dget_on_snd by done. by rewrite Hn.
Qed.

(** C36: serialisation is faithful: reading the canonical text of any JSON value
    gives the value back up to the order of object keys, so two values with
    the same canonical text (and hence the same [content_hash] input) are the
    same value up to key order. *)
Theorem canonical_json_roundtrip j :
  loads (canonical_json j) = Some (norm j) ∧
  ∀ j', canonical_json j = canonical_json j' → norm j = norm j'.
Proof. split; [apply loads_canonical|apply canonical_json_inj]. Qed.
