(* ===== verification/Enums.v ===== *)
(** * The enumerations of [types.py]

    One inductive type per [StrEnum], its members in source order, with the
    text of each member.  [of_value] is the constructor call [Cls(value)]; the
    class [StrEnum] and its laws say that the texts identify the members, which
    is what lets a text column of the database be read back as the member that
    was written to it. *)

From S2P Require Import Prelude PyStr Json.

Local Open Scope string_scope.

Class StrEnum (A : Type) := { value : A → string; members : list A }.

Arguments value {A _} x : simpl never.

Class StrEnumLaws (A : Type) `{StrEnum A} := {
  members_all (x : A) : x ∈ members;
  value_inj (x y : A) : value x = value y → x = y }.

(** [Cls(text)]: [ValueError] when no member has that text. *)
Definition of_value {A} `{StrEnum A} (s : string) : res A :=
  of_option (List.find (λ x, bool_decide (value x = s)) members) PyValueError.

(** [Cls(item)] for any JSON value: only a [str] equals a member. *)
Definition of_json {A} `{StrEnum A} (j : json) : res A :=
  match j with JStr s => of_value s | _ => Raise PyValueError end.

Lemma of_value_ok {A} `{StrEnumLaws A} (s : string) (x : A) :
  of_value s = Ok x ↔ value x = s.
Proof.
  unfold of_value. rewrite of_option_ok. split.
  - intros Hf. apply List.find_some in Hf as [_ Hv]. by apply bool_decide_eq_true in Hv.
  - intros <-. destruct (List.find _ _) as [y|] eqn:Hf.
    + apply List.find_some in Hf as [_ Hv]. apply bool_decide_eq_true in Hv.
      f_equal. by apply value_inj.
    + apply List.find_none with (x := x) in Hf; [|by apply list_elem_of_In, members_all].
      by rewrite bool_decide_eq_false in Hf.
Qed.

Lemma of_value_value {A} `{StrEnumLaws A} (x : A) : of_value (value x) = Ok x.
Proof. by apply of_value_ok. Qed.
#[export] Hint Rewrite @of_value_value : rt.

(** ** [GoalState] *)
Inductive GoalState :=
  | G_COMPILED.

#[export] Instance GoalState_eq_dec : EqDecision GoalState.
Proof. solve_decision. Defined.

Definition goalState_value (x : GoalState) : string :=
  match x with
  | G_COMPILED => "compiled"
  end.

Definition goalState_all : list GoalState :=
  [G_COMPILED].

#[export] Instance GoalState_enum : StrEnum GoalState :=
  {| value := goalState_value; members := goalState_all |}.

#[export] Instance GoalState_enum_laws : StrEnumLaws GoalState.
Proof. split; [by intros []; vm_compute; repeat constructor|by intros [] []]. Qed.

(** ** [LoopState] *)
Inductive LoopState :=
  | L_INTAKE
  | L_COMPILED
  | L_READY
  | L_RUNNING
  | L_SUSPENDED
  | L_EVIDENCE_PENDING
  | L_INTEGRATION_PENDING
  | L_CI_PENDING
  | L_DEPLOY_DIR_UPDATED
  | L_RUNTIME_STALE
  | L_RUNTIME_CHECK_PENDING
  | L_RUNTIME_FRESH
  | L_IMPROVEMENT_PENDING
  | L_DELIVERED
  | L_BLOCKED_DECISION
  | L_BLOCKED_MISSING_STATE
  | L_BLOCKED_CAPABILITY.

#[export] Instance LoopState_eq_dec : EqDecision LoopState.
Proof. solve_decision. Defined.

Definition loopState_value (x : LoopState) : string :=
  match x with
  | L_INTAKE => "intake"
  | L_COMPILED => "compiled"
  | L_READY => "ready"
  | L_RUNNING => "running"
  | L_SUSPENDED => "suspended_for_input"
  | L_EVIDENCE_PENDING => "evidence_pending"
  | L_INTEGRATION_PENDING => "integration_pending"
  | L_CI_PENDING => "ci_pending"
  | L_DEPLOY_DIR_UPDATED => "deploy_dir_updated"
  | L_RUNTIME_STALE => "runtime_stale"
  | L_RUNTIME_CHECK_PENDING => "runtime_check_pending"
  | L_RUNTIME_FRESH => "runtime_freshness_verified"
  | L_IMPROVEMENT_PENDING => "improvement_pending"
  | L_DELIVERED => "delivered"
  | L_BLOCKED_DECISION => "blocked_with_decision"
  | L_BLOCKED_MISSING_STATE => "blocked_with_missing_state"
  | L_BLOCKED_CAPABILITY => "blocked_with_capability_gap"
  end.

Definition loopState_all : list LoopState :=
  [L_INTAKE; L_COMPILED; L_READY; L_RUNNING; L_SUSPENDED; L_EVIDENCE_PENDING;
    L_INTEGRATION_PENDING; L_CI_PENDING; L_DEPLOY_DIR_UPDATED; L_RUNTIME_STALE;
    L_RUNTIME_CHECK_PENDING; L_RUNTIME_FRESH; L_IMPROVEMENT_PENDING; L_DELIVERED;
    L_BLOCKED_DECISION; L_BLOCKED_MISSING_STATE; L_BLOCKED_CAPABILITY].

#[export] Instance LoopState_enum : StrEnum LoopState :=
  {| value := loopState_value; members := loopState_all |}.

#[export] Instance LoopState_enum_laws : StrEnumLaws LoopState.
Proof. split; [by intros []; vm_compute; repeat constructor|by intros [] []]. Qed.

(** ** [LoopEvent] *)
Inductive LoopEvent :=
  | E_OWNER_INTENT_RECEIVED
  | E_GOAL_COMPILED
  | E_RUN_READY
  | E_TASK_STARTED
  | E_HUMAN_APPROVAL_REQUESTED
  | E_HUMAN_APPROVAL_RECEIVED
  | E_EVIDENCE_SUBMITTED
  | E_EVALUATOR_VERDICT_RECEIVED
  | E_CI_CHECK_STARTED
  | E_CI_CHECK_COMPLETED
  | E_DEPLOY_DIRECTORY_UPDATED
  | E_SERVICE_RESTART_ATTEMPTED
  | E_RUNTIME_FRESHNESS_VERIFIED
  | E_RUNTIME_DRIFT_DETECTED
  | E_CAPABILITY_GAP_DETECTED
  | E_MISSING_STATE_DETECTED
  | E_CIRCUIT_BREAKER_TRIGGERED
  | E_IMPROVEMENT_REQUESTED
  | E_DELIVERY_CONFIRMED
  | E_RESUME_REQUESTED.

#[export] Instance LoopEvent_eq_dec : EqDecision LoopEvent.
Proof. solve_decision. Defined.

Definition loopEvent_value (x : LoopEvent) : string :=
  match x with
  | E_OWNER_INTENT_RECEIVED => "owner_intent_received"
  | E_GOAL_COMPILED => "goal_compiled"
  | E_RUN_READY => "run_ready"
  | E_TASK_STARTED => "task_started"
  | E_HUMAN_APPROVAL_REQUESTED => "human_approval_requested"
  | E_HUMAN_APPROVAL_RECEIVED => "human_approval_received"
  | E_EVIDENCE_SUBMITTED => "evidence_submitted"
  | E_EVALUATOR_VERDICT_RECEIVED => "evaluator_verdict_received"
  | E_CI_CHECK_STARTED => "ci_check_started"
  | E_CI_CHECK_COMPLETED => "ci_check_completed"
  | E_DEPLOY_DIRECTORY_UPDATED => "deploy_directory_updated"
  | E_SERVICE_RESTART_ATTEMPTED => "service_restart_attempted"
  | E_RUNTIME_FRESHNESS_VERIFIED => "runtime_freshness_verified"
  | E_RUNTIME_DRIFT_DETECTED => "runtime_drift_detected"
  | E_CAPABILITY_GAP_DETECTED => "capability_gap_detected"
  | E_MISSING_STATE_DETECTED => "missing_state_detected"
  | E_CIRCUIT_BREAKER_TRIGGERED => "circuit_breaker_triggered"
  | E_IMPROVEMENT_REQUESTED => "improvement_requested"
  | E_DELIVERY_CONFIRMED => "delivery_confirmed"
  | E_RESUME_REQUESTED => "resume_requested"
  end.

Definition loopEvent_all : list LoopEvent :=
  [E_OWNER_INTENT_RECEIVED; E_GOAL_COMPILED; E_RUN_READY; E_TASK_STARTED;
    E_HUMAN_APPROVAL_REQUESTED; E_HUMAN_APPROVAL_RECEIVED; E_EVIDENCE_SUBMITTED;
    E_EVALUATOR_VERDICT_RECEIVED; E_CI_CHECK_STARTED; E_CI_CHECK_COMPLETED;
    E_DEPLOY_DIRECTORY_UPDATED; E_SERVICE_RESTART_ATTEMPTED;
    E_RUNTIME_FRESHNESS_VERIFIED; E_RUNTIME_DRIFT_DETECTED; E_CAPABILITY_GAP_DETECTED;
    E_MISSING_STATE_DETECTED; E_CIRCUIT_BREAKER_TRIGGERED; E_IMPROVEMENT_REQUESTED;
    E_DELIVERY_CONFIRMED; E_RESUME_REQUESTED].

#[export] Instance LoopEvent_enum : StrEnum LoopEvent :=
  {| value := loopEvent_value; members := loopEvent_all |}.

#[export] Instance LoopEvent_enum_laws : StrEnumLaws LoopEvent.
Proof. split; [by intros []; vm_compute; repeat constructor|by intros [] []]. Qed.

(** ** [TaskState] *)
Inductive TaskState :=
  | T_READY
  | T_LEASED
  | T_RUNNING
  | T_SUSPENDED
  | T_EVIDENCE_PENDING
  | T_EVALUATOR_PENDING
  | T_INTEGRATION_PENDING
  | T_DELIVERED
  | T_RETRY_PENDING
  | T_FAILED
  | T_BLOCKED
  | T_CANCELED
  | T_DELETED
  | T_RETIRED.

#[export] Instance TaskState_eq_dec : EqDecision TaskState.
Proof. solve_decision. Defined.

Definition taskState_value (x : TaskState) : string :=
  match x with
  | T_READY => "ready"
  | T_LEASED => "leased"
  | T_RUNNING => "running"
  | T_SUSPENDED => "suspended_for_input"
  | T_EVIDENCE_PENDING => "evidence_pending"
  | T_EVALUATOR_PENDING => "evaluator_pending"
  | T_INTEGRATION_PENDING => "integration_pending"
  | T_DELIVERED => "delivered"
  | T_RETRY_PENDING => "retry_pending"
  | T_FAILED => "failed"
  | T_BLOCKED => "blocked_with_decision"
  | T_CANCELED => "canceled"
  | T_DELETED => "deleted"
  | T_RETIRED => "retired"
  end.

Definition taskState_all : list TaskState :=
  [T_READY; T_LEASED; T_RUNNING; T_SUSPENDED; T_EVIDENCE_PENDING; T_EVALUATOR_PENDING;
    T_INTEGRATION_PENDING; T_DELIVERED; T_RETRY_PENDING; T_FAILED; T_BLOCKED;
    T_CANCELED; T_DELETED; T_RETIRED].

#[export] Instance TaskState_enum : StrEnum TaskState :=
  {| value := taskState_value; members := taskState_all |}.

#[export] Instance TaskState_enum_laws : StrEnumLaws TaskState.
Proof. split; [by intros []; vm_compute; repeat constructor|by intros [] []]. Qed.

(** ** [EvidenceState] *)
Inductive EvidenceState :=
  | ES_STRUCTURE
  | ES_RUNTIME
  | ES_PROVIDER_SMOKE
  | ES_HUMAN_ACCEPTANCE
  | ES_BUSINESS_VALIDATION
  | ES_DURABLE_MEMORY_PROMOTION
  | ES_ACTIVE_RULE_PROMOTION.

#[export] Instance EvidenceState_eq_dec : EqDecision EvidenceState.
Proof. solve_decision. Defined.

Definition evidenceState_value (x : EvidenceState) : string :=
  match x with
  | ES_STRUCTURE => "structure_verification"
  | ES_RUNTIME => "runtime_verification"
  | ES_PROVIDER_SMOKE => "provider_smoke"
  | ES_HUMAN_ACCEPTANCE => "human_acceptance"
  | ES_BUSINESS_VALIDATION => "business_validation"
  | ES_DURABLE_MEMORY_PROMOTION => "durable_memory_promotion"
  | ES_ACTIVE_RULE_PROMOTION => "active_rule_promotion"
  end.

Definition evidenceState_all : list EvidenceState :=
  [ES_STRUCTURE; ES_RUNTIME; ES_PROVIDER_SMOKE; ES_HUMAN_ACCEPTANCE;
    ES_BUSINESS_VALIDATION; ES_DURABLE_MEMORY_PROMOTION; ES_ACTIVE_RULE_PROMOTION].

#[export] Instance EvidenceState_enum : StrEnum EvidenceState :=
  {| value := evidenceState_value; members := evidenceState_all |}.

#[export] Instance EvidenceState_enum_laws : StrEnumLaws EvidenceState.
Proof. split; [by intros []; vm_compute; repeat constructor|by intros [] []]. Qed.

(** ** [Capability] *)
Inductive Capability :=
  | C_READ_LOCAL
  | C_WRITE_LOCAL
  | C_NETWORK
  | C_EXTERNAL_DOWNLOAD
  | C_REPO_REMOTE
  | C_SERVER_READ
  | C_SERVER_WRITE
  | C_PROVIDER_COST
  | C_PUBLIC_RELEASE
  | C_DESTRUCTIVE
  | C_DURABLE_MEMORY_PROMOTION
  | C_ACTIVE_RULE_PROMOTION
  | C_CONTROL_RESUME.

#[export] Instance Capability_eq_dec : EqDecision Capability.
Proof. solve_decision. Defined.

Definition capability_value (x : Capability) : string :=
  match x with
  | C_READ_LOCAL => "read_local"
  | C_WRITE_LOCAL => "write_local"
  | C_NETWORK => "network"
  | C_EXTERNAL_DOWNLOAD => "external_download"
  | C_REPO_REMOTE => "repo_remote"
  | C_SERVER_READ => "server_read"
  | C_SERVER_WRITE => "server_write"
  | C_PROVIDER_COST => "provider_cost"
  | C_PUBLIC_RELEASE => "public_release"
  | C_DESTRUCTIVE => "destructive"
  | C_DURABLE_MEMORY_PROMOTION => "durable_memory_promotion"
  | C_ACTIVE_RULE_PROMOTION => "active_rule_promotion"
  | C_CONTROL_RESUME => "control_resume"
  end.

Definition capability_all : list Capability :=
  [C_READ_LOCAL; C_WRITE_LOCAL; C_NETWORK; C_EXTERNAL_DOWNLOAD; C_REPO_REMOTE;
    C_SERVER_READ; C_SERVER_WRITE; C_PROVIDER_COST; C_PUBLIC_RELEASE; C_DESTRUCTIVE;
    C_DURABLE_MEMORY_PROMOTION; C_ACTIVE_RULE_PROMOTION; C_CONTROL_RESUME].

#[export] Instance Capability_enum : StrEnum Capability :=
  {| value := capability_value; members := capability_all |}.

#[export] Instance Capability_enum_laws : StrEnumLaws Capability.
Proof. split; [by intros []; vm_compute; repeat constructor|by intros [] []]. Qed.

(** ** [IntegrationState] *)
Inductive IntegrationState :=
  | I_REVIEW_PENDING
  | I_EVALUATOR_PENDING
  | I_PUSH_PR_PENDING
  | I_CI_PENDING
  | I_CI_FAILED
  | I_MERGE_PENDING
  | I_DEPLOY_PENDING
  | I_DEPLOY_DIR_UPDATED
  | I_SERVICE_RESTART_REQUIRED
  | I_RUNTIME_CHECK_PENDING
  | I_RUNTIME_STALE
  | I_DELETE_PENDING
  | I_RETIRE_PENDING
  | I_DELIVERED
  | I_DEFER_WITH_OWNER
  | I_SUPERSEDED.

#[export] Instance IntegrationState_eq_dec : EqDecision IntegrationState.
Proof. solve_decision. Defined.

Definition integrationState_value (x : IntegrationState) : string :=
  match x with
  | I_REVIEW_PENDING => "review_pending"
  | I_EVALUATOR_PENDING => "evaluator_pending"
  | I_PUSH_PR_PENDING => "push_pr_pending"
  | I_CI_PENDING => "ci_pending"
  | I_CI_FAILED => "ci_failed"
  | I_MERGE_PENDING => "merge_pending"
  | I_DEPLOY_PENDING => "deploy_pending"
  | I_DEPLOY_DIR_UPDATED => "deploy_dir_updated"
  | I_SERVICE_RESTART_REQUIRED => "service_restart_required"
  | I_RUNTIME_CHECK_PENDING => "runtime_check_pending"
  | I_RUNTIME_STALE => "runtime_stale"
  | I_DELETE_PENDING => "delete_pending"
  | I_RETIRE_PENDING => "retire_pending"
  | I_DELIVERED => "delivered"
  | I_DEFER_WITH_OWNER => "defer_with_owner"
  | I_SUPERSEDED => "superseded"
  end.

Definition integrationState_all : list IntegrationState :=
  [I_REVIEW_PENDING; I_EVALUATOR_PENDING; I_PUSH_PR_PENDING; I_CI_PENDING;
    I_CI_FAILED; I_MERGE_PENDING; I_DEPLOY_PENDING; I_DEPLOY_DIR_UPDATED;
    I_SERVICE_RESTART_REQUIRED; I_RUNTIME_CHECK_PENDING; I_RUNTIME_STALE;
    I_DELETE_PENDING; I_RETIRE_PENDING; I_DELIVERED; I_DEFER_WITH_OWNER; I_SUPERSEDED].

#[export] Instance IntegrationState_enum : StrEnum IntegrationState :=
  {| value := integrationState_value; members := integrationState_all |}.

#[export] Instance IntegrationState_enum_laws : StrEnumLaws IntegrationState.
Proof. split; [by intros []; vm_compute; repeat constructor|by intros [] []]. Qed.

(** ** [EvaluatorVerdict] *)
Inductive EvaluatorVerdict :=
  | V_NOT_REQUIRED
  | V_PENDING
  | V_PASS
  | V_FAIL
  | V_PASS_WITH_RISK
  | V_BLOCKED.

#[export] Instance EvaluatorVerdict_eq_dec : EqDecision EvaluatorVerdict.
Proof. solve_decision. Defined.

Definition evaluatorVerdict_value (x : EvaluatorVerdict) : string :=
  match x with
  | V_NOT_REQUIRED => "not_required"
  | V_PENDING => "pending"
  | V_PASS => "pass"
  | V_FAIL => "fail"
  | V_PASS_WITH_RISK => "pass_with_residual_risk"
  | V_BLOCKED => "blocked_with_decision"
  end.

Definition evaluatorVerdict_all : list EvaluatorVerdict :=
  [V_NOT_REQUIRED; V_PENDING; V_PASS; V_FAIL; V_PASS_WITH_RISK; V_BLOCKED].

#[export] Instance EvaluatorVerdict_enum : StrEnum EvaluatorVerdict :=
  {| value := evaluatorVerdict_value; members := evaluatorVerdict_all |}.

#[export] Instance EvaluatorVerdict_enum_laws : StrEnumLaws EvaluatorVerdict.
Proof. split; [by intros []; vm_compute; repeat constructor|by intros [] []]. Qed.

(** ** [ProposalState] *)
Inductive ProposalState :=
  | P_CANDIDATE
  | P_HELDOUT_PENDING
  | P_OWNER_REVIEW
  | P_LIMITED
  | P_ACTIVE
  | P_REJECTED
  | P_RETIRED.

#[export] Instance ProposalState_eq_dec : EqDecision ProposalState.
Proof. solve_decision. Defined.

Definition proposalState_value (x : ProposalState) : string :=
  match x with
  | P_CANDIDATE => "candidate"
  | P_HELDOUT_PENDING => "heldout_pending"
  | P_OWNER_REVIEW => "owner_review"
  | P_LIMITED => "limited"
  | P_ACTIVE => "active"
  | P_REJECTED => "rejected"
  | P_RETIRED => "retired"
  end.

Definition proposalState_all : list ProposalState :=
  [P_CANDIDATE; P_HELDOUT_PENDING; P_OWNER_REVIEW; P_LIMITED; P_ACTIVE; P_REJECTED;
    P_RETIRED].

#[export] Instance ProposalState_enum : StrEnum ProposalState :=
  {| value := proposalState_value; members := proposalState_all |}.

#[export] Instance ProposalState_enum_laws : StrEnumLaws ProposalState.
Proof. split; [by intros []; vm_compute; repeat constructor|by intros [] []]. Qed.

(** [EvidenceState.parse]: the legacy text is refused by name. *)
Definition evidenceState_parse (j : json) : res EvidenceState :=
  match j with
  | JStr s =>
    if bool_decide (s = "durable_rule_promotion") then Raise ContractError
    else match of_value s with Ok x => Ok x | Raise _ => Raise ContractError end
  | _ => Raise ContractError
  end.

Arguments evidenceState_parse : simpl never.

Definition TERMINAL_TASK_STATES : list TaskState :=
  [T_DELIVERED; T_CANCELED; T_DELETED; T_RETIRED].

Lemma evidenceState_parse_ok s x : evidenceState_parse (JStr s) = Ok x ↔ value x = s.
Proof.
  unfold evidenceState_parse. case_bool_decide as Hs.
  - split; [done|]. intros <-. by destruct x.
  - destruct (of_value s) as [y|] eqn:Hv.
    + rewrite <- (of_value_ok s x), Hv. split; by intros [= ->].
    + split; [done|]. intros Hx. by rewrite <- Hx, of_value_value in Hv.
Qed.
