(* ===== verification/StateMachine.v ===== *)
(** * Run and task transitions ([state_machine.py])

    The loop (run) transition table with its guards, the task transition table,
    the goal projection, and [require_transition].  The theorems say what the
    tables enforce: a run is delivered only through its guards, a task only
    after it was leased, run, evidenced and integrated. *)

From S2P Require Import Prelude PyStr Json Enums.

Local Open Scope string_scope.

(** ** The loop state machine *)
Record LoopTransitionRule := rule { rule_target : LoopState; rule_guards : list string }.

Definition LOOP_TRANSITIONS (current : LoopState) (event : LoopEvent)
    : option LoopTransitionRule :=
  match current, event with
  | L_INTAKE, E_GOAL_COMPILED => Some (rule L_COMPILED ["contract_valid"])
  | L_INTAKE, E_MISSING_STATE_DETECTED => Some (rule L_BLOCKED_MISSING_STATE [])
  | L_COMPILED, E_RUN_READY => Some (rule L_READY ["readiness_gate_passed"])
  | L_COMPILED, E_CAPABILITY_GAP_DETECTED => Some (rule L_BLOCKED_CAPABILITY [])
  | L_READY, E_TASK_STARTED => Some (rule L_RUNNING ["lease_valid"])
  | L_READY, E_CAPABILITY_GAP_DETECTED => Some (rule L_BLOCKED_CAPABILITY [])
  | L_RUNNING, E_HUMAN_APPROVAL_REQUESTED => Some (rule L_SUSPENDED [])
  | L_RUNNING, E_EVIDENCE_SUBMITTED => Some (rule L_EVIDENCE_PENDING [])
  | L_RUNNING, E_CIRCUIT_BREAKER_TRIGGERED => Some (rule L_BLOCKED_DECISION [])
  | L_RUNNING, E_CAPABILITY_GAP_DETECTED => Some (rule L_BLOCKED_CAPABILITY [])
  | L_SUSPENDED, E_HUMAN_APPROVAL_RECEIVED => Some (rule L_RUNNING ["approval_valid"])
  | L_SUSPENDED, E_RESUME_REQUESTED => Some (rule L_RUNNING ["resume_authorized"])
  | L_EVIDENCE_PENDING, E_EVALUATOR_VERDICT_RECEIVED => Some (rule L_INTEGRATION_PENDING
      ["evidence_satisfied"; "evaluator_satisfied"])
  | L_EVIDENCE_PENDING, E_TASK_STARTED => Some (rule L_RUNNING ["repair_route_selected"])
  | L_INTEGRATION_PENDING, E_CI_CHECK_STARTED => Some (rule L_CI_PENDING [])
  | L_INTEGRATION_PENDING, E_DEPLOY_DIRECTORY_UPDATED => Some (rule L_DEPLOY_DIR_UPDATED [])
  | L_INTEGRATION_PENDING, E_DELIVERY_CONFIRMED => Some (rule L_DELIVERED
      ["evidence_satisfied"; "evaluator_satisfied"; "integration_satisfied"; "freshness_satisfied"; "tasks_terminal"])
  | L_CI_PENDING, E_CI_CHECK_COMPLETED => Some (rule L_INTEGRATION_PENDING ["ci_green"])
  | L_CI_PENDING, E_CIRCUIT_BREAKER_TRIGGERED => Some (rule L_BLOCKED_DECISION [])
  | L_DEPLOY_DIR_UPDATED, E_SERVICE_RESTART_ATTEMPTED => Some (rule L_RUNTIME_CHECK_PENDING [])
  | L_DEPLOY_DIR_UPDATED, E_RUNTIME_DRIFT_DETECTED => Some (rule L_RUNTIME_STALE [])
  | L_RUNTIME_STALE, E_SERVICE_RESTART_ATTEMPTED => Some (rule L_RUNTIME_CHECK_PENDING [])
  | L_RUNTIME_CHECK_PENDING, E_RUNTIME_FRESHNESS_VERIFIED => Some (rule L_RUNTIME_FRESH
      ["freshness_satisfied"])
  | L_RUNTIME_CHECK_PENDING, E_RUNTIME_DRIFT_DETECTED => Some (rule L_RUNTIME_STALE [])
  | L_RUNTIME_FRESH, E_DELIVERY_CONFIRMED => Some (rule L_DELIVERED
      ["evidence_satisfied"; "evaluator_satisfied"; "integration_satisfied"; "freshness_satisfied"; "tasks_terminal"])
  | L_DELIVERED, E_IMPROVEMENT_REQUESTED => Some (rule L_IMPROVEMENT_PENDING [])
  | L_BLOCKED_MISSING_STATE, E_OWNER_INTENT_RECEIVED => Some (rule L_INTAKE [])
  | L_BLOCKED_CAPABILITY, E_RESUME_REQUESTED => Some (rule L_READY ["capability_available"])
  | L_BLOCKED_DECISION, E_RESUME_REQUESTED => Some (rule L_READY ["owner_decision_recorded"])
  | L_IMPROVEMENT_PENDING, E_DELIVERY_CONFIRMED => Some (rule L_DELIVERED
      ["improvement_routed"])
  | _, _ => None
  end.

Definition Guards := gmap string bool.

(** [results.get(guard) is True] *)
Definition guard_true (results : Guards) (guard : string) : bool :=
  bool_decide (results !! guard = Some true).

Definition apply_loop_event (current : LoopState) (event : LoopEvent)
    (guard_results : Guards) : res LoopState :=
  r ← of_option (LOOP_TRANSITIONS current event) TransitionError;
  _ ← require (forallb (guard_true guard_results) (rule_guards r)) TransitionError;
  Ok (rule_target r).

(** ** The task state machine *)
Definition GOAL_TRANSITIONS (s : GoalState) : list GoalState :=
  match s with G_COMPILED => [] end.

Definition TASK_TRANSITIONS (s : TaskState) : list TaskState :=
  match s with
  | T_READY => [T_LEASED; T_CANCELED; T_BLOCKED; T_DELETED]
  | T_LEASED => [T_RUNNING; T_READY; T_RETRY_PENDING; T_BLOCKED]
  | T_RUNNING => [T_SUSPENDED; T_EVIDENCE_PENDING; T_RETRY_PENDING; T_FAILED; T_BLOCKED]
  | T_SUSPENDED => [T_LEASED; T_CANCELED; T_BLOCKED]
  | T_EVIDENCE_PENDING => [T_EVALUATOR_PENDING; T_INTEGRATION_PENDING; T_RUNNING; T_BLOCKED]
  | T_EVALUATOR_PENDING => [T_INTEGRATION_PENDING; T_RUNNING; T_BLOCKED]
  | T_INTEGRATION_PENDING => [T_DELIVERED; T_RUNNING; T_BLOCKED]
  | T_RETRY_PENDING => [T_READY; T_FAILED; T_BLOCKED]
  | T_BLOCKED => [T_READY; T_CANCELED; T_DELETED; T_RETIRED]
  | T_DELIVERED => [T_RETIRED]
  | T_FAILED => [T_RETRY_PENDING; T_RETIRED]
  | T_CANCELED => [T_RETIRED]
  | T_DELETED => []
  | T_RETIRED => []
  end.

(** A value of any of the state classes, as [require_transition] receives it. *)
Inductive AnyState :=
  | AnyLoop (s : LoopState)
  | AnyGoal (s : GoalState)
  | AnyTask (s : TaskState)
  | AnyIntegration (s : IntegrationState)
  | AnyProposal (s : ProposalState).

Definition require_transition (current target : AnyState) : res unit :=
  match current, target with
  | AnyLoop _, AnyLoop _ => Raise TransitionError
  | AnyGoal c, AnyGoal t => require (memb t (GOAL_TRANSITIONS c)) TransitionError
  | AnyTask c, AnyTask t => require (memb t (TASK_TRANSITIONS c)) TransitionError
  | _, _ => Raise TransitionError
  end.

(** The shape in which the runtime calls it. *)
Definition require_task_transition (c t : TaskState) : res unit :=
  require_transition (AnyTask c) (AnyTask t).

Lemma require_task_transition_ok c t u :
  require_task_transition c t = Ok u ↔ t ∈ TASK_TRANSITIONS c.
Proof.
  unfold require_task_transition. simpl. rewrite require_ok, memb_true. done.
Qed.

(** ** Runs of the loop machine *)
Definition all_true (g : Guards) (names : list string) : Prop :=
  Forall (λ n, g !! n = Some true) names.

Lemma apply_loop_event_ok c e g t :
  apply_loop_event c e g = Ok t ↔
  ∃ r, LOOP_TRANSITIONS c e = Some r ∧ all_true g (rule_guards r) ∧ t = rule_target r.
Proof.
  unfold apply_loop_event. rewrite res_bind_ok. setoid_rewrite of_option_ok.
  split.
  - intros (r & Hr & H). apply res_bind_ok in H as (u & Hu & [= <-]).
    apply require_ok in Hu. exists r. split_and!; try done.
    apply Forall_forall. intros n Hn. apply (bool_decide_eq_true (g !! n = Some true)).
    by apply (proj1 (forallb_In (guard_true g) _) Hu).
  - intros (r & Hr & Hg & ->). exists r. split; [done|].
    apply res_bind_ok. exists tt. split; [|done]. apply require_ok, forallb_In.
    intros n Hn. apply bool_decide_eq_true. by apply (proj1 (Forall_forall _ _) Hg).
Qed.

(** One attempted event of a run, and the events of a run in order. *)
Definition LoopMove := (LoopEvent * Guards)%type.

Fixpoint run_loop (s : LoopState) (ms : list LoopMove) : res LoopState :=
  match ms with
  | [] => Ok s
  | (e, g) :: ms => s' ← apply_loop_event s e g; run_loop s' ms
  end.

(** The states of a run before any evaluator verdict was accepted. *)
Definition before_verdict (s : LoopState) : bool :=
  memb s [L_INTAKE; L_COMPILED; L_READY; L_RUNNING; L_SUSPENDED; L_EVIDENCE_PENDING;
          L_BLOCKED_DECISION; L_BLOCKED_MISSING_STATE; L_BLOCKED_CAPABILITY].

Lemma loop_step_verdict s e g s' :
  apply_loop_event s e g = Ok s' → before_verdict s = true →
  before_verdict s' = true ∨
  (s = L_EVIDENCE_PENDING ∧ e = E_EVALUATOR_VERDICT_RECEIVED ∧
   all_true g ["evidence_satisfied"; "evaluator_satisfied"]).
Proof.
  intros (r & Hr & Hg & ->)%apply_loop_event_ok Hs.
  destruct s, e; try discriminate Hr; try discriminate Hs; injection Hr as <-;
    first [by left | by right].
Qed.

Definition delivery_guards : list string :=
  ["evidence_satisfied"; "evaluator_satisfied"; "integration_satisfied";
   "freshness_satisfied"; "tasks_terminal"].

Lemma loop_step_delivered s e g :
  apply_loop_event s e g = Ok L_DELIVERED →
  s = L_IMPROVEMENT_PENDING ∨ all_true g delivery_guards.
Proof.
  intros (r & Hr & Hg & Ht)%apply_loop_event_ok.
  destruct s, e; try discriminate Hr; injection Hr as <-; try discriminate Ht;
    first [by left | by right].
Qed.

Lemma improvement_after_delivered s e g :
  apply_loop_event s e g = Ok L_IMPROVEMENT_PENDING → s = L_DELIVERED.
Proof.
  intros (r & Hr & Hg & Ht)%apply_loop_event_ok.
  by destruct s, e; try discriminate Hr; injection Hr as <-; try discriminate Ht.
Qed.

Lemma run_loop_verdict s ms t :
  run_loop s ms = Ok t → before_verdict s = true → before_verdict t = false →
  ∃ g, (E_EVALUATOR_VERDICT_RECEIVED, g) ∈ ms ∧
       all_true g ["evidence_satisfied"; "evaluator_satisfied"].
Proof.
  revert s. induction ms as [|[e g] ms IH]; intros s H Hs Ht; simpl in H; [by congruence|].
  apply res_bind_ok in H as (s' & Hstep & H).
  destruct (loop_step_verdict _ _ _ _ Hstep Hs) as [Hs'|(_ & -> & Hg)].
  - destruct (IH s' H Hs' Ht) as (g' & ? & ?). exists g'. split; [by constructor 2|done].
  - exists g. split; [by constructor|done].
Qed.

Lemma run_loop_guards s ms t :
  run_loop s ms = Ok t → s ≠ L_DELIVERED → s ≠ L_IMPROVEMENT_PENDING →
  t = L_DELIVERED ∨ t = L_IMPROVEMENT_PENDING →
  ∃ e g, (e, g) ∈ ms ∧ all_true g delivery_guards.
Proof.
  revert s. induction ms as [|[e g] ms IH]; intros s H Hd Hi Ht; simpl in H.
  { simplify_eq. by destruct Ht. }
  apply res_bind_ok in H as (s' & Hstep & H).
  destruct (decide (s' = L_DELIVERED)) as [->|Hd'].
  { apply loop_step_delivered in Hstep as [?|?]; [done|]. exists e, g. split; [by constructor|done]. }
  destruct (decide (s' = L_IMPROVEMENT_PENDING)) as [->|Hi'].
  { by apply improvement_after_delivered in Hstep. }
  destruct (IH s' H Hd' Hi' Ht) as (e' & g' & ? & ?). exists e', g'. split; [by constructor 2|done].
Qed.

(** A run that starts in [intake] and is [delivered] was moved out of
    [evidence_pending] by an evaluator verdict whose evidence and evaluator
    guards were both true, and some accepted event carried all five delivery
    guards, whatever detours through CI, deployment, suspension or improvement
    it took. *)
Theorem delivery_needs_guards ms :
  run_loop L_INTAKE ms = Ok L_DELIVERED →
  (∃ g, (E_EVALUATOR_VERDICT_RECEIVED, g) ∈ ms ∧
        all_true g ["evidence_satisfied"; "evaluator_satisfied"]) ∧
  (∃ e g, (e, g) ∈ ms ∧ all_true g delivery_guards).
Proof.
  intros H. split; [by eapply run_loop_verdict|]. eapply run_loop_guards; eauto.
Qed.

Definition delivery_run : list LoopMove :=
  let all := list_to_map ((λ n, (n, true)) <$>
    (delivery_guards ++ ["contract_valid"; "readiness_gate_passed"; "lease_valid"])%list) in
  (λ e, (e, all)) <$> [E_GOAL_COMPILED; E_RUN_READY; E_TASK_STARTED; E_EVIDENCE_SUBMITTED;
    E_EVALUATOR_VERDICT_RECEIVED; E_DELIVERY_CONFIRMED].

Lemma delivery_needs_guards_witness :
  run_loop L_INTAKE delivery_run = Ok L_DELIVERED ∧
  ∃ e g, (e, g) ∈ delivery_run ∧ all_true g delivery_guards.
Proof.
  assert (run_loop L_INTAKE delivery_run = Ok L_DELIVERED) as H by (vm_compute; reflexivity).
  split; [exact H|]. exact (proj2 (delivery_needs_guards _ H)).
Defined.

Local Close Scope string_scope.

(** ** Paths of the task machine *)

(** A path: every state follows from the one before it. *)
Fixpoint task_path (s : TaskState) (p : list TaskState) : Prop :=
  match p with
  | [] => True
  | t :: p => require_task_transition s t = Ok tt ∧ task_path t p
  end.

Definition delivery_route : list TaskState :=
  [T_LEASED; T_RUNNING; T_EVIDENCE_PENDING; T_INTEGRATION_PENDING; T_DELIVERED].

(** How much of [delivery_route] a task must have followed to be in a state. *)
Definition route_index (s : TaskState) : nat :=
  match s with
  | T_LEASED => 1 | T_RUNNING => 2 | T_SUSPENDED => 2
  | T_EVIDENCE_PENDING => 3 | T_EVALUATOR_PENDING => 3
  | T_INTEGRATION_PENDING => 4 | T_DELIVERED => 5 | _ => 0
  end.

Lemma route_step s t :
  require_task_transition s t = Ok tt →
  route_index t ≤ route_index s ∨ (route_index t = S (route_index s) ∧
    delivery_route !! route_index s = Some t).
Proof.
  rewrite require_task_transition_ok. intros Ht.
  destruct s; simpl in Ht; set_unfold in Ht; destruct_or?; subst; simpl;
    first [left; lia | right; split; [lia|done]].
Qed.

(** The part of the route that leads to [s] occurs, in order, in [p]. *)
Definition followed (p : list TaskState) (s : TaskState) : Prop :=
  sublist (take (route_index s) delivery_route) p.

Lemma followed_step p s t :
  require_task_transition s t = Ok tt → followed p s → followed (p ++ [t]) t.
Proof.
  unfold followed. intros [Hle|[-> Hn]]%route_step Hs.
  - etrans; [|apply sublist_inserts_r, Hs].
    rewrite <- (Nat.min_l _ _ Hle), <- take_take. apply sublist_take.
  - rewrite (take_S_r _ _ _ Hn). by apply sublist_app.
Qed.

Lemma followed_path p s q t :
  followed p s → task_path s q → last (s :: q) = Some t → followed (p ++ q) t.
Proof.
  revert p s. induction q as [|u q IH]; intros p s Hs Hq Ht.
  - simpl in Ht. simplify_eq. by rewrite app_nil_r.
  - destruct Hq as [Hsu Hq]. rewrite cons_middle, app_assoc.
    apply (IH _ u); [by eapply followed_step|done|by rewrite last_cons_cons in Ht].
Qed.

(** Along the transitions that [require_transition] allows, a task that
    starts [ready] and becomes [delivered] was leased, then running, then
    evidence-pending, then integration-pending, in this order. *)
Theorem task_delivery_route q :
  task_path T_READY q → last q = Some T_DELIVERED → sublist delivery_route q.
Proof.
  intros Hq Ht. apply (followed_path [] T_READY q T_DELIVERED); [constructor|done|].
  destruct q as [|u q]; [done|]. by rewrite last_cons_cons.
Qed.

Lemma task_delivery_route_witness :
  sublist delivery_route
    [T_LEASED; T_RUNNING; T_RETRY_PENDING; T_READY; T_LEASED; T_RUNNING; T_EVIDENCE_PENDING;
     T_EVALUATOR_PENDING; T_RUNNING; T_EVIDENCE_PENDING; T_INTEGRATION_PENDING; T_DELIVERED].
Proof.
  apply (task_delivery_route); [by repeat split|reflexivity].
Defined.

Lemma terminal_sealed s t :
  s = T_DELETED ∨ s = T_RETIRED → require_task_transition s t = Raise TransitionError.
Proof. by intros [-> | ->]; destruct t. Qed.
