(* ===== verification/Contracts.v ===== *)
(** * Public contracts ([types.py])

    Strict parsing of runtime surface, goal and task specifications out of JSON
    objects, and their serialisation.  The database stores a specification as
    [canonical_json (to_dict spec)]; the round-trip theorems of this file are
    what allows the later files to keep the parsed specification itself. *)

From S2P Require Import Prelude PyStr Json Enums.

Local Open Scope string_scope.

Definition _strict_keys (data : dict) (required allowed : list string) : res unit :=
  _ ← require (forallb (λ k, memb k (dkeys data)) required) ContractError;
  require (forallb (λ k, memb k allowed) (dkeys data)) ContractError.

Definition _non_empty_string (j : json) : res string :=
  match j with
  | JStr s => if blank s then Raise ContractError else Ok (strip s)
  | _ => Raise ContractError
  end.

(** One item of a string list: a string with something in it. *)
Definition string_item (j : json) : res string := _non_empty_string j.

Definition _string_list (allow_empty : bool) (j : json) : res (list string) :=
  match j with
  | JList l =>
    result ← mapR string_item l;
    _ ← require (allow_empty || negb (bool_decide (l = []))) ContractError;
    _ ← require (no_dups result) ContractError;
    Ok result
  | _ => Raise ContractError
  end.

(** [isinstance(v, int) and not isinstance(v, bool) and lo <= v (<= hi)] *)
Definition int_in (lo : Z) (hi : option Z) (j : json) : res Z :=
  match j with
  | JInt z =>
    _ ← require ((lo <=? z)%Z && match hi with Some h => (z <=? h)%Z | None => true end) ContractError;
    Ok z
  | _ => Raise ContractError
  end.

Definition bool_of (j : json) : res bool :=
  match j with JBool b => Ok b | _ => Raise ContractError end.

(** [for item in v]: the items of a list, the characters of a string, the keys
    of an object. *)
Definition iter_items (j : json) : res (list json) :=
  match j with
  | JList l => Ok l
  | JStr s => Ok ((λ c, JStr (of_chars [c])) <$> chars s)
  | JObj d => Ok (JStr <$> dkeys d)
  | _ => Raise PyTypeError
  end.

(** [except <es>: raise ContractError] *)
Definition reraise {A} (es : list Exn) (r : res A) : res A :=
  match r with
  | Ok a => Ok a
  | Raise e => Raise (if memb e es then ContractError else e)
  end.

Definition jstrs (l : list string) : json := JList (JStr <$> l).
Definition jvalues {A} `{StrEnum A} (l : list A) : json := jstrs (value <$> l).

(** ** Runtime surfaces *)
Record RuntimeSurfaceSpec := {
  rs_surface_key : string;
  rs_target_identity : string;
  rs_allowed_probes : list string;
  rs_max_ttl_seconds : Z;
  rs_trigger_event_required : bool }.

#[export] Instance RuntimeSurfaceSpec_eq_dec : EqDecision RuntimeSurfaceSpec.
Proof. solve_decision. Defined.

Definition surface_keys : list string :=
  ["surface_key"; "target_identity"; "allowed_probes"; "max_ttl_seconds";
   "trigger_event_required"].

Definition RuntimeSurfaceSpec_from_dict (data : dict) : res RuntimeSurfaceSpec :=
  _ ← _strict_keys data ["surface_key"; "target_identity"; "allowed_probes"] surface_keys;
  ttl ← int_in 1 (Some 86400%Z) (dget_or data "max_ttl_seconds" (JInt 300));
  trigger_required ← bool_of (dget_or data "trigger_event_required" (JBool true));
  key ← dindex data "surface_key" ≫= _non_empty_string;
  target ← dindex data "target_identity" ≫= _non_empty_string;
  probes ← dindex data "allowed_probes" ≫= _string_list false;
  Ok {| rs_surface_key := key; rs_target_identity := target; rs_allowed_probes := probes;
        rs_max_ttl_seconds := ttl; rs_trigger_event_required := trigger_required |}.

Definition RuntimeSurfaceSpec_to_dict (s : RuntimeSurfaceSpec) : dict :=
  [("surface_key", JStr (rs_surface_key s));
   ("target_identity", JStr (rs_target_identity s));
   ("allowed_probes", jstrs (rs_allowed_probes s));
   ("max_ttl_seconds", JInt (rs_max_ttl_seconds s));
   ("trigger_event_required", JBool (rs_trigger_event_required s))].

(** [isinstance(item, Mapping)] *)
Definition mapping (j : json) : res dict :=
  match j with JObj d => Ok d | _ => Raise ContractError end.

Definition _runtime_surfaces (j : json) : res (list RuntimeSurfaceSpec) :=
  match j with
  | JList l =>
    ds ← mapR mapping l;
    surfaces ← mapR RuntimeSurfaceSpec_from_dict ds;
    _ ← require (no_dups (rs_surface_key <$> surfaces)) ContractError;
    Ok surfaces
  | _ => Raise ContractError
  end.

Definition jsurfaces (l : list RuntimeSurfaceSpec) : json :=
  JList ((λ s, JObj (RuntimeSurfaceSpec_to_dict s)) <$> l).

(** ** Workflow steps *)
Record WorkflowStep := {
  ws_step_id : string;
  ws_adapter : string;
  ws_action : string;
  ws_resource : string;
  ws_request_digest : string }.

#[export] Instance WorkflowStep_eq_dec : EqDecision WorkflowStep.
Proof. solve_decision. Defined.

Definition step_keys : list string :=
  ["step_id"; "adapter"; "action"; "resource"; "request_digest"].

Definition workflow_step (step : dict) : res WorkflowStep :=
  _ ← _strict_keys step step_keys step_keys;
  digest ← dindex step "request_digest" ≫= _non_empty_string;
  _ ← require (sha256_hex digest) ContractError;
  step_id ← dindex step "step_id" ≫= _non_empty_string;
  adapter ← dindex step "adapter" ≫= _non_empty_string;
  action ← dindex step "action" ≫= _non_empty_string;
  resource ← dindex step "resource" ≫= _non_empty_string;
  Ok {| ws_step_id := step_id; ws_adapter := adapter; ws_action := action;
        ws_resource := resource; ws_request_digest := digest |}.

Definition _workflow_steps (j : json) : res (list WorkflowStep) :=
  match j with
  | JList l =>
    ds ← mapR mapping l;
    normalized ← mapR workflow_step ds;
    _ ← require (no_dups (ws_step_id <$> normalized)) ContractError;
    Ok normalized
  | _ => Raise ContractError
  end.

Definition workflow_step_dict (w : WorkflowStep) : dict :=
  [("step_id", JStr (ws_step_id w)); ("adapter", JStr (ws_adapter w));
   ("action", JStr (ws_action w)); ("resource", JStr (ws_resource w));
   ("request_digest", JStr (ws_request_digest w))].

(** ** Goals *)
Record GoalSpec := {
  gs_goal_id : string;
  gs_target_outcome : string;
  gs_success_evidence_states : list EvidenceState;
  gs_read_scope : list string;
  gs_write_scope : list string;
  gs_forbidden_scope : list string;
  gs_allowed_capabilities : list Capability;
  gs_required_runtime_surfaces : list RuntimeSurfaceSpec;
  gs_evaluator_required : bool;
  gs_max_iterations_without_evidence : Z;
  gs_provider_budget_minor_units : Z;
  gs_provider_call_limit : Z;
  gs_budget_currency : string;
  gs_non_goals : list string }.

#[export] Instance GoalSpec_eq_dec : EqDecision GoalSpec.
Proof. solve_decision. Defined.

Definition goal_keys : list string :=
  ["goal_id"; "target_outcome"; "success_evidence_states"; "read_scope"; "write_scope";
   "forbidden_scope"; "allowed_capabilities"; "required_runtime_surfaces";
   "evaluator_required"; "max_iterations_without_evidence"; "provider_budget_minor_units";
   "provider_call_limit"; "budget_currency"; "non_goals"].

(** [len(c) == 3 and c.isalpha() and c.isascii()] after [.upper()]. *)
Definition currency_of (j : json) : res string :=
  s ← _non_empty_string j;
  let currency := upper s in
  _ ← require ((String.length currency =? 3)%nat && forallb is_alpha (chars currency))
        ContractError;
  Ok currency.

Definition GoalSpec_from_dict (data : dict) : res GoalSpec :=
  _ ← _strict_keys data ["goal_id"; "target_outcome"; "success_evidence_states"] goal_keys;
  evidence ← dindex data "success_evidence_states" ≫= _string_list false;
  evidence_states ← mapR (λ s, evidenceState_parse (JStr s)) evidence;
  capabilities ← reraise [PyValueError]
    (iter_items (dget_or data "allowed_capabilities" (jstrs ["read_local"])) ≫= mapR of_json);
  iterations ← int_in 1 None (dget_or data "max_iterations_without_evidence" (JInt 3));
  evaluator_required ← bool_of (dget_or data "evaluator_required" (JBool false));
  _ ← require (no_dups (capabilities : list Capability)) ContractError;
  budget ← int_in 0 None (dget_or data "provider_budget_minor_units" (JInt 0));
  calls ← int_in 0 None (dget_or data "provider_call_limit" (JInt 0));
  currency ← currency_of (dget_or data "budget_currency" (JStr "USD"));
  goal_id ← dindex data "goal_id" ≫= _non_empty_string;
  target_outcome ← dindex data "target_outcome" ≫= _non_empty_string;
  read_scope ← _string_list true (dget_or data "read_scope" (JList []));
  write_scope ← _string_list true (dget_or data "write_scope" (JList []));
  forbidden_scope ← _string_list true (dget_or data "forbidden_scope" (JList []));
  surfaces ← _runtime_surfaces (dget_or data "required_runtime_surfaces" (JList []));
  non_goals ← _string_list true (dget_or data "non_goals" (JList []));
  Ok {| gs_goal_id := goal_id; gs_target_outcome := target_outcome;
        gs_success_evidence_states := evidence_states; gs_read_scope := read_scope;
        gs_write_scope := write_scope; gs_forbidden_scope := forbidden_scope;
        gs_allowed_capabilities := capabilities; gs_required_runtime_surfaces := surfaces;
        gs_evaluator_required := evaluator_required;
        gs_max_iterations_without_evidence := iterations;
        gs_provider_budget_minor_units := budget; gs_provider_call_limit := calls;
        gs_budget_currency := currency; gs_non_goals := non_goals |}.

Definition GoalSpec_to_dict (s : GoalSpec) : dict :=
  [("goal_id", JStr (gs_goal_id s));
   ("target_outcome", JStr (gs_target_outcome s));
   ("success_evidence_states", jvalues (gs_success_evidence_states s));
   ("read_scope", jstrs (gs_read_scope s));
   ("write_scope", jstrs (gs_write_scope s));
   ("forbidden_scope", jstrs (gs_forbidden_scope s));
   ("allowed_capabilities", jvalues (gs_allowed_capabilities s));
   ("required_runtime_surfaces", jsurfaces (gs_required_runtime_surfaces s));
   ("evaluator_required", JBool (gs_evaluator_required s));
   ("max_iterations_without_evidence", JInt (gs_max_iterations_without_evidence s));
   ("provider_budget_minor_units", JInt (gs_provider_budget_minor_units s));
   ("provider_call_limit", JInt (gs_provider_call_limit s));
   ("budget_currency", JStr (gs_budget_currency s));
   ("non_goals", jstrs (gs_non_goals s))].

(** ** Tasks *)
Record TaskSpec := {
  ts_task_id : string;
  ts_goal_id : string;
  ts_objective : string;
  ts_expected_delta : string;
  ts_primary_surface : string;
  ts_evidence_target : EvidenceState;
  ts_capabilities : list Capability;
  ts_read_scope : list string;
  ts_write_scope : list string;
  ts_forbidden_scope : list string;
  ts_required_runtime_surfaces : list RuntimeSurfaceSpec;
  ts_evaluator_required : bool;
  ts_integration_required : bool;
  ts_workflow_steps : list WorkflowStep;
  ts_max_attempts : Z }.

#[export] Instance TaskSpec_eq_dec : EqDecision TaskSpec.
Proof. solve_decision. Defined.

Definition task_required_keys : list string :=
  ["task_id"; "goal_id"; "objective"; "expected_delta"; "primary_surface"; "evidence_target"].
Definition task_keys : list string :=
  ["task_id"; "goal_id"; "objective"; "expected_delta"; "primary_surface"; "evidence_target";
   "capabilities"; "read_scope"; "write_scope"; "forbidden_scope";
   "required_runtime_surfaces"; "evaluator_required"; "integration_required";
   "workflow_steps"; "max_attempts"].

Definition TaskSpec_from_dict (data : dict) : res TaskSpec :=
  _ ← _strict_keys data task_required_keys task_keys;
  target ← dindex data "evidence_target" ≫= evidenceState_parse;
  capabilities ← reraise [PyTypeError; PyValueError]
    (iter_items (dget_or data "capabilities" (jstrs ["read_local"])) ≫= mapR of_json);
  steps ← _workflow_steps (dget_or data "workflow_steps" (JList []));
  max_attempts ← int_in 1 None (dget_or data "max_attempts" (JInt 3));
  evaluator_required ← bool_of (dget_or data "evaluator_required" (JBool false));
  _ ← require (no_dups (capabilities : list Capability)) ContractError;
  integration_required ← bool_of (dget_or data "integration_required" (JBool true));
  task_id ← dindex data "task_id" ≫= _non_empty_string;
  goal_id ← dindex data "goal_id" ≫= _non_empty_string;
  objective ← dindex data "objective" ≫= _non_empty_string;
  expected_delta ← dindex data "expected_delta" ≫= _non_empty_string;
  primary_surface ← dindex data "primary_surface" ≫= _non_empty_string;
  read_scope ← _string_list true (dget_or data "read_scope" (JList []));
  write_scope ← _string_list true (dget_or data "write_scope" (JList []));
  forbidden_scope ← _string_list true (dget_or data "forbidden_scope" (JList []));
  surfaces ← _runtime_surfaces (dget_or data "required_runtime_surfaces" (JList []));
  Ok {| ts_task_id := task_id; ts_goal_id := goal_id; ts_objective := objective;
        ts_expected_delta := expected_delta; ts_primary_surface := primary_surface;
        ts_evidence_target := target; ts_capabilities := capabilities;
        ts_read_scope := read_scope; ts_write_scope := write_scope;
        ts_forbidden_scope := forbidden_scope; ts_required_runtime_surfaces := surfaces;
        ts_evaluator_required := evaluator_required;
        ts_integration_required := integration_required;
        ts_workflow_steps := steps; ts_max_attempts := max_attempts |}.

Definition TaskSpec_to_dict (s : TaskSpec) : dict :=
  [("task_id", JStr (ts_task_id s));
   ("goal_id", JStr (ts_goal_id s));
   ("objective", JStr (ts_objective s));
   ("expected_delta", JStr (ts_expected_delta s));
   ("primary_surface", JStr (ts_primary_surface s));
   ("evidence_target", JStr (value (ts_evidence_target s)));
   ("capabilities", jvalues (ts_capabilities s));
   ("read_scope", jstrs (ts_read_scope s));
   ("write_scope", jstrs (ts_write_scope s));
   ("forbidden_scope", jstrs (ts_forbidden_scope s));
   ("required_runtime_surfaces", jsurfaces (ts_required_runtime_surfaces s));
   ("evaluator_required", JBool (ts_evaluator_required s));
   ("integration_required", JBool (ts_integration_required s));
   ("workflow_steps", JList ((λ w, JObj (workflow_step_dict w)) <$> ts_workflow_steps s));
   ("max_attempts", JInt (ts_max_attempts s))].

(** ** What the parsers establish *)
Definition stripped (s : string) : Prop := blank s = false ∧ strip s = s.
Definition strings_wf (l : list string) : Prop := Forall stripped l ∧ NoDup l.

Lemma non_empty_string_ok j s : _non_empty_string j = Ok s → stripped s.
Proof.
  destruct j as [| | |t| |]; try done. simpl. destruct (blank t) eqn:Hb; [done|].
  intros [= <-]. split; [by rewrite blank_strip|apply strip_idemp].
Qed.

Lemma non_empty_string_rt s : stripped s → _non_empty_string (JStr s) = Ok s.
Proof. intros [Hb Hs]. simpl. by rewrite Hb, Hs. Qed.

Lemma string_list_ok ae j l :
  _string_list ae j = Ok l → strings_wf l ∧ (ae = true ∨ l ≠ []).
Proof.
  destruct j as [| | | |js|]; try done. simpl. intros H. minv.
  match goal with H : mapR _ _ = _ |- _ => apply mapR_ok in H as HF end.
  split; [split|].
  - apply Forall_forall. intros s Hs. apply list_elem_of_lookup in Hs as [i Hi].
    destruct (Forall2_lookup_r _ _ _ _ _ HF Hi) as (j & _ & Hj).
    by eapply non_empty_string_ok.
  - by apply no_dups_true.
  - destruct ae; [by left|right]. intros ->. by inversion HF; subst.
Qed.

Lemma string_list_rt ae l :
  strings_wf l → ae = true ∨ l ≠ [] → _string_list ae (jstrs l) = Ok l.
Proof.
  intros [Hl Hnd] Hae. unfold _string_list, jstrs.
  rewrite (mapR_map string_item JStr l).
  - rewrite res_ret_bind. rewrite (proj2 (no_dups_true l)) by done.
    destruct Hae as [->|Hl0]; [done|]. destruct l; [done|]. by destruct ae.
  - eapply Forall_impl; [exact Hl|]. apply non_empty_string_rt.
Qed.

Lemma int_in_ok lo hi j z : int_in lo hi j = Ok z → int_in lo hi (JInt z) = Ok z.
Proof. destruct j as [| |z0| | |]; try done. intros H. assert (z0 = z) as -> by (simpl in H; by minv). done. Qed.

Lemma evidence_states_ok l states :
  mapR (λ s, evidenceState_parse (JStr s)) l = Ok states → l = value <$> states.
Proof.
  rewrite mapR_ok. induction 1 as [|s x l states Hs _ IH]; [done|].
  apply evidenceState_parse_ok in Hs. by rewrite fmap_cons, IH, Hs.
Qed.

Lemma evidence_states_rt states :
  mapR (λ s, evidenceState_parse (JStr s)) (value <$> states) = Ok states.
Proof. apply mapR_map, Forall_true. intros x. by apply evidenceState_parse_ok. Qed.

Lemma evidence_values_wf (states : list EvidenceState) :
  NoDup states → strings_wf (value <$> states).
Proof.
  intros Hnd. split; [|apply NoDup_fmap_2; [intros x y; apply value_inj|done]].
  apply Forall_fmap, Forall_true. by intros [].
Qed.

Lemma capabilities_rt es (l : list Capability) :
  reraise es (iter_items (jvalues l) ≫= mapR of_json) = Ok l.
Proof.
  unfold jvalues, jstrs, iter_items. rewrite res_ret_bind, <- list_fmap_compose.
  rewrite (mapR_map of_json (JStr ∘ value) l); [done|].
  apply Forall_true. intros x. apply of_value_value.
Qed.

Record surface_wf (s : RuntimeSurfaceSpec) : Prop := {
  sw_key : stripped (rs_surface_key s);
  sw_target : stripped (rs_target_identity s);
  sw_probes : strings_wf (rs_allowed_probes s) ∧ rs_allowed_probes s ≠ [];
  sw_ttl : int_in 1 (Some 86400%Z) (JInt (rs_max_ttl_seconds s)) = Ok (rs_max_ttl_seconds s) }.

Lemma surface_ok d s : RuntimeSurfaceSpec_from_dict d = Ok s → surface_wf s.
Proof.
  unfold RuntimeSurfaceSpec_from_dict. intros H. minv.
  repeat match goal with
  | H : _non_empty_string _ = Ok _ |- _ => apply non_empty_string_ok in H
  | H : _string_list _ _ = Ok _ |- _ => apply string_list_ok in H as [? [?|?]]; [done|]
  | H : int_in _ _ _ = Ok _ |- _ => apply int_in_ok in H
  end. by split.
Qed.

Lemma surface_rt s :
  surface_wf s → RuntimeSurfaceSpec_from_dict (RuntimeSurfaceSpec_to_dict s) = Ok s.
Proof.
  intros [Hk Ht [Hp Hp0] Httl]. destruct s as [k t p ttl b].
  unfold RuntimeSurfaceSpec_from_dict, RuntimeSurfaceSpec_to_dict, dget_or, dindex.
  cbn -[int_in jstrs _non_empty_string _string_list] in *.
  rewrite Httl. cbn -[int_in jstrs _non_empty_string _string_list].
  rewrite !non_empty_string_rt by done. cbn -[jstrs _string_list].
  by rewrite string_list_rt by auto.
Qed.

Definition surfaces_wf (l : list RuntimeSurfaceSpec) : Prop :=
  Forall surface_wf l ∧ NoDup (rs_surface_key <$> l).

Lemma surfaces_ok j l : _runtime_surfaces j = Ok l → surfaces_wf l.
Proof.
  destruct j as [| | | |js|]; try done. simpl. intros H. minv.
  repeat match goal with H : mapR _ _ = _ |- _ => apply mapR_ok in H end.
  split; [|by apply no_dups_true]. eapply Forall2_Forall_r; [done|].
  apply Forall_true. intros d s. apply surface_ok.
Qed.

Lemma mapR_mapping {A} (f : A → dict) l :
  mapR mapping ((λ x, JObj (f x)) <$> l) = Ok (f <$> l).
Proof. apply mapR_ok. induction l; constructor; done. Qed.

Lemma surfaces_rt l : surfaces_wf l → _runtime_surfaces (jsurfaces l) = Ok l.
Proof.
  intros [Hl Hnd]. unfold _runtime_surfaces, jsurfaces.
  rewrite mapR_mapping, res_ret_bind.
  rewrite (mapR_map _ RuntimeSurfaceSpec_to_dict l).
  - rewrite res_ret_bind. by rewrite (proj2 (no_dups_true _)).
  - eapply Forall_impl; [done|]. apply surface_rt.
Qed.

Record step_wf (w : WorkflowStep) : Prop := {
  stw_id : stripped (ws_step_id w);
  stw_adapter : stripped (ws_adapter w);
  stw_action : stripped (ws_action w);
  stw_resource : stripped (ws_resource w);
  stw_digest : stripped (ws_request_digest w) ∧ sha256_hex (ws_request_digest w) = true }.

Lemma workflow_step_ok d w : workflow_step d = Ok w → step_wf w.
Proof.
  unfold workflow_step. intros H. minv.
  repeat match goal with
  | H : _non_empty_string _ = Ok _ |- _ => apply non_empty_string_ok in H
  end. by constructor.
Qed.

Lemma workflow_step_rt w : step_wf w → workflow_step (workflow_step_dict w) = Ok w.
Proof.
  intros [Hi Ha Hc Hr [Hd Hx]]. destruct w. unfold workflow_step, workflow_step_dict, dindex.
  cbn -[_non_empty_string sha256_hex] in *. rewrite (non_empty_string_rt _ Hd).
  cbn -[_non_empty_string sha256_hex]. rewrite Hx. cbn -[_non_empty_string].
  by rewrite !non_empty_string_rt by done.
Qed.

Definition steps_wf (l : list WorkflowStep) : Prop :=
  Forall step_wf l ∧ NoDup (ws_step_id <$> l).

Lemma steps_ok j l : _workflow_steps j = Ok l → steps_wf l.
Proof.
  destruct j as [| | | |js|]; try done. simpl. intros H. minv.
  repeat match goal with H : mapR _ _ = _ |- _ => apply mapR_ok in H end.
  split; [|by apply no_dups_true]. eapply Forall2_Forall_r; [done|].
  apply Forall_true. intros d w. apply workflow_step_ok.
Qed.

Lemma steps_rt l :
  steps_wf l → _workflow_steps (JList ((λ w, JObj (workflow_step_dict w)) <$> l)) = Ok l.
Proof.
  intros [Hl Hnd]. unfold _workflow_steps. rewrite mapR_mapping, res_ret_bind.
  rewrite (mapR_map _ workflow_step_dict l).
  - rewrite res_ret_bind. by rewrite (proj2 (no_dups_true _)).
  - eapply Forall_impl; [done|]. apply workflow_step_rt.
Qed.

Lemma currency_ok j s : currency_of j = Ok s → currency_of (JStr s) = Ok s.
Proof.
  unfold currency_of at 1. intros H. minv.
  match goal with H : _ && _ = true |- _ => rename H into Hc end.
  pose proof Hc as [Hlen Ha]%andb_prop. pose proof (upper_alpha_upper _ Ha) as Hu.
  unfold currency_of. rewrite non_empty_string_rt.
  - rewrite res_ret_bind. cbv zeta. by rewrite (upper_upper _ Hu), Hc.
  - split; [|by apply strip_upper]. unfold blank. rewrite strip_upper by done.
    apply bool_decide_eq_false. intros He. by rewrite He in Hlen.
Qed.

Record goal_wf (g : GoalSpec) : Prop := {
  gw_id : stripped (gs_goal_id g);
  gw_outcome : stripped (gs_target_outcome g);
  gw_evidence : NoDup (gs_success_evidence_states g) ∧ gs_success_evidence_states g ≠ [];
  gw_read : strings_wf (gs_read_scope g);
  gw_write : strings_wf (gs_write_scope g);
  gw_forbidden : strings_wf (gs_forbidden_scope g);
  gw_caps : NoDup (gs_allowed_capabilities g);
  gw_surfaces : surfaces_wf (gs_required_runtime_surfaces g);
  gw_iterations : int_in 1 None (JInt (gs_max_iterations_without_evidence g))
                  = Ok (gs_max_iterations_without_evidence g);
  gw_budget : int_in 0 None (JInt (gs_provider_budget_minor_units g))
              = Ok (gs_provider_budget_minor_units g);
  gw_calls : int_in 0 None (JInt (gs_provider_call_limit g)) = Ok (gs_provider_call_limit g);
  gw_currency : currency_of (JStr (gs_budget_currency g)) = Ok (gs_budget_currency g);
  gw_non_goals : strings_wf (gs_non_goals g) }.

Ltac parsed :=
  repeat match goal with
  | H : _non_empty_string _ = Ok _ |- _ => apply non_empty_string_ok in H
  | H : _string_list false _ = Ok _ |- _ => apply string_list_ok in H as [? [?|?]]; [done|]
  | H : _string_list true _ = Ok _ |- _ => apply string_list_ok in H as [? _]
  | H : int_in _ _ (dget_or _ _ _) = Ok _ |- _ => apply int_in_ok in H
  | H : _runtime_surfaces _ = Ok _ |- _ => apply surfaces_ok in H
  | H : _workflow_steps _ = Ok _ |- _ => apply steps_ok in H
  | H : currency_of (dget_or _ _ _) = Ok _ |- _ => apply currency_ok in H
  | H : no_dups _ = true |- _ => apply no_dups_true in H
  | H : mapR (λ s, evidenceState_parse (JStr s)) _ = Ok _ |- _ =>
    apply evidence_states_ok in H; subst
  end.

Lemma goal_ok d g : GoalSpec_from_dict d = Ok g → goal_wf g.
Proof.
  unfold GoalSpec_from_dict. intros H. minv. parsed. constructor; try done; simpl.
  match goal with H : strings_wf (fmap _ _) |- _ => destruct H as [_ Hnd] end.
  split; [by eapply NoDup_fmap_1|]. by intros ->.
Qed.

Lemma evidence_list_rt (states : list EvidenceState) :
  NoDup states → states ≠ [] → _string_list false (jvalues states) = Ok (value <$> states).
Proof.
  intros Hnd Hne. apply string_list_rt; [by apply evidence_values_wf|right]. by destruct states.
Qed.

(** Evaluate a parser on the object that the serialiser makes. *)
Ltac run_parser :=
  repeat (cbn -[int_in jstrs jvalues jsurfaces _non_empty_string _string_list currency_of
    iter_items reraise mapR _runtime_surfaces _workflow_steps no_dups evidenceState_parse];
  first
    [ rewrite string_list_rt by auto | rewrite surfaces_rt by auto | rewrite steps_rt by auto
    | rewrite evidence_list_rt by auto
    | rewrite capabilities_rt | rewrite evidence_states_rt
    | rewrite (proj2 (no_dups_true _)) by auto
    | rewrite non_empty_string_rt by auto
    | match goal with H : int_in _ _ _ = Ok _ |- _ => rewrite H; clear H end
    | match goal with H : currency_of _ = Ok _ |- _ => rewrite H; clear H end ]).

Lemma goal_rt g : goal_wf g → GoalSpec_from_dict (GoalSpec_to_dict g) = Ok g.
Proof.
  intros [Hid Ho [He He0] Hr Hw Hf Hc Hs Hit Hb Hcl Hcu Hn].
  unfold GoalSpec_from_dict, dget_or, dindex.
  assert (_strict_keys (GoalSpec_to_dict g)
    ["goal_id"; "target_outcome"; "success_evidence_states"] goal_keys = Ok tt) as ->
    by reflexivity.
  run_parser. by destruct g.
Qed.

Record task_wf (t : TaskSpec) : Prop := {
  tw_id : stripped (ts_task_id t);
  tw_goal : stripped (ts_goal_id t);
  tw_objective : stripped (ts_objective t);
  tw_delta : stripped (ts_expected_delta t);
  tw_primary : stripped (ts_primary_surface t);
  tw_caps : NoDup (ts_capabilities t);
  tw_read : strings_wf (ts_read_scope t);
  tw_write : strings_wf (ts_write_scope t);
  tw_forbidden : strings_wf (ts_forbidden_scope t);
  tw_surfaces : surfaces_wf (ts_required_runtime_surfaces t);
  tw_steps : steps_wf (ts_workflow_steps t);
  tw_attempts : int_in 1 None (JInt (ts_max_attempts t)) = Ok (ts_max_attempts t) }.

Lemma task_ok d t : TaskSpec_from_dict d = Ok t → task_wf t.
Proof.
  unfold TaskSpec_from_dict. intros H. minv. parsed. by constructor.
Qed.

Lemma parse_value_rt x : evidenceState_parse (JStr (value x)) = Ok x.
Proof. by apply evidenceState_parse_ok. Qed.

Lemma task_rt t : task_wf t → TaskSpec_from_dict (TaskSpec_to_dict t) = Ok t.
Proof.
  intros [? ? ? ? ? ? ? ? ? ? ? Hm]. unfold TaskSpec_from_dict, dget_or, dindex.
  assert (_strict_keys (TaskSpec_to_dict t) task_required_keys task_keys = Ok tt) as ->
    by reflexivity.
  cbn -[int_in jstrs jvalues jsurfaces _non_empty_string _string_list currency_of
    iter_items reraise mapR _runtime_surfaces _workflow_steps no_dups].
  rewrite parse_value_rt. run_parser. by destruct t.
Qed.

(** Whatever the strict parsers accept is a fixed point of serialising and
    parsing: [GoalSpec.from_dict(spec.to_dict())] and
    [TaskSpec.from_dict(spec.to_dict())] give the same specification back, so
    the copy of a contract kept in the database stands for the contract that
    was accepted. *)
Theorem contract_roundtrip d :
  (∀ g, GoalSpec_from_dict d = Ok g → GoalSpec_from_dict (GoalSpec_to_dict g) = Ok g) ∧
  (∀ t, TaskSpec_from_dict d = Ok t → TaskSpec_from_dict (TaskSpec_to_dict t) = Ok t).
Proof.
  split; intros ? H; [by eapply goal_rt, goal_ok|by eapply task_rt, task_ok].
Qed.

Definition sample_goal_dict : dict :=
  [("success_evidence_states", jstrs [" runtime_verification"]);
   ("goal_id", JStr " g1 "); ("target_outcome", JStr "ship");
   ("read_scope", jstrs ["src/app/**"; "docs"]); ("write_scope", jstrs ["src/app/**"]);
   ("forbidden_scope", jstrs ["src/secrets/**"]);
   ("allowed_capabilities", jstrs ["read_local"; "write_local"; "provider_cost"]);
   ("provider_budget_minor_units", JInt 500); ("provider_call_limit", JInt 4);
   ("budget_currency", JStr " usd ");
   ("required_runtime_surfaces", JList [JObj [("surface_key", JStr "api");
      ("target_identity", JStr "svc"); ("allowed_probes", jstrs ["http"])]])].

Definition sample_task_dict : dict :=
  [("task_id", JStr "t1"); ("goal_id", JStr "g1"); ("objective", JStr "edit");
   ("expected_delta", JStr "d"); ("primary_surface", JStr "api");
   ("evidence_target", JStr "runtime_verification");
   ("capabilities", jstrs ["read_local"; "write_local"]);
   ("read_scope", jstrs ["src/app/main.py"]); ("write_scope", jstrs ["src/app/**"]);
   ("workflow_steps", JList [JObj [("step_id", JStr "s1"); ("adapter", JStr "fake");
      ("action", JStr "write"); ("resource", JStr "src/app/x");
      ("request_digest", JStr "0123456789abcdef0123456789abcdef0123456789abcdef0123456789abcdef")]])].

Definition sample_goal : GoalSpec :=
  Eval vm_compute in match GoalSpec_from_dict sample_goal_dict with
  | Ok g => g
  | Raise _ => Build_GoalSpec "" "" [] [] [] [] [] [] false 0 0 0 "" []
  end.

Definition sample_task : TaskSpec :=
  Eval vm_compute in match TaskSpec_from_dict sample_task_dict with
  | Ok t => t
  | Raise _ => Build_TaskSpec "" "" "" "" "" ES_STRUCTURE [] [] [] [] [] false false [] 0
  end.

Lemma contract_roundtrip_witness :
  GoalSpec_from_dict (GoalSpec_to_dict sample_goal) = Ok sample_goal ∧
  TaskSpec_from_dict (TaskSpec_to_dict sample_task) = Ok sample_task.
Proof.
  split.
  - apply (proj1 (contract_roundtrip sample_goal_dict)). vm_compute. reflexivity.
  - apply (proj2 (contract_roundtrip sample_task_dict)). vm_compute. reflexivity.
Defined.

(** [GoalSpec] lets a [TypeError] escape where [TaskSpec] reports a contract
    violation, and both accept an object or an empty string where a list of
    capabilities is meant. *)
Definition put (k : string) (v : json) (d : dict) : dict := (k, v) :: filter (λ kv, kv.1 ≠ k) d.

Example goal_null_capabilities :
  GoalSpec_from_dict (put "allowed_capabilities" JNull sample_goal_dict) = Raise PyTypeError.
Proof. vm_compute. reflexivity. Qed.
Example task_null_capabilities :
  TaskSpec_from_dict (put "capabilities" JNull sample_task_dict) = Raise ContractError.
Proof. vm_compute. reflexivity. Qed.
Example goal_object_capabilities :
  is_ok (GoalSpec_from_dict (put "allowed_capabilities" (JObj [("network", JNull)]) sample_goal_dict))
  = true ∧
  is_ok (GoalSpec_from_dict (put "allowed_capabilities" (JStr "") sample_goal_dict)) = true.
Proof. vm_compute. done. Qed.
