(* ===== verification/Scope.v ===== *)
(** * Scopes and containment ([scope.py])

    Normalisation of scope strings, the covering relation, and the containment
    of a task contract in its goal contract. *)

From Stdlib Require Import Ascii.
From S2P Require Import Prelude PyStr Json Enums Contracts.

Local Open Scope string_scope.

(** [posixpath.normpath] *)
Definition normpath_step (rooted : bool) (acc : list string) (comp : string) : list string :=
  if bool_decide (comp = "") || bool_decide (comp = ".") then acc
  else if bool_decide (comp ≠ "..") || (negb rooted && bool_decide (acc = []))
          || bool_decide (last acc = Some "..") then (acc ++ [comp])%list
  else take (length acc - 1) acc.

Definition normpath (path : string) : string :=
  if bool_decide (path = "") then "." else
  let rooted := startswith path "/" in
  let slashes := if rooted then
      if startswith path "//" && negb (startswith path "///") then "//" else "/"
    else "" in
  let comps := foldl (normpath_step rooted) [] (split "/" path) in
  let r := slashes +:+ str_join "/" comps in
  if bool_decide (r = "") then "." else r.

(** [_DRIVE.match] *)
Definition is_drive (s : string) : bool :=
  match chars s with
  | a :: b :: c :: _ => is_alpha a && bool_decide (b = ":"%char) && bool_decide (c = "/"%char)
  | _ => false
  end.

(** At most [n] rounds of percent decoding; [None] when none was the last. *)
Fixpoint decode_rounds (n : nat) (raw : string) : option string :=
  match n with
  | O => None
  | S n =>
    let decoded := replace_char "\" "/" (unquote raw) in
    if bool_decide (decoded = raw) then Some raw else decode_rounds n decoded
  end.

Definition rstrip_slash : string → string := rstrip_char "/".

Definition lower_head (s : string) : string :=
  match chars s with [] => "" | a :: l => of_chars (low a :: l) end.

Definition normalize_scope (v : string) : res string :=
  _ ← require (negb (blank v)) ContractError;
  raw ← of_option (decode_rounds 20 (replace_char "\" "/" (strip v))) ContractError;
  let recursive := endswith raw "/**" in
  let body := if recursive then drop_last 3 raw else raw in
  _ ← require (negb (contains_char Ascii.zero body || contains_char "*" body
        || contains_char "?" body || contains_char "#" body
        || memb ".." (split "/" body))) ContractError;
  normalized ←
    match partition_at "://" body with
    | Some (scheme, rest) =>
      _ ← require (negb (bool_decide (scheme = "") || bool_decide (rest = ""))) ContractError;
      Ok (lower scheme +:+ "://" +:+ lstrip_char "/" (normpath ("/" +:+ rest)))
    | None =>
      let normalized := normpath body in
      Ok (if is_drive normalized then lower_head normalized else normalized)
    end;
  let stripped := rstrip_slash normalized in
  let normalized := if bool_decide (stripped = "") then "/" else stripped in
  Ok (normalized +:+ (if recursive then "/**" else "")).

(** [if p.endswith("/**"): p = p[:-3].rstrip("/")] *)
Definition scope_root (p : string) : string :=
  if endswith p "/**" then rstrip_slash (drop_last 3 p) else p.

(** The comparison that [scope_covers] ends with. *)
Definition root_covers (parent child : string) : bool :=
  let '(parent, child) :=
    if is_drive parent && is_drive child then (casefold parent, casefold child)
    else (parent, child) in
  if bool_decide (parent = child) then true
  else if bool_decide (parent = "/") then startswith child "/"
  else startswith child (parent +:+ "/").

Definition scope_covers (allowed candidate : string) : res bool :=
  parent ← normalize_scope allowed;
  child ← normalize_scope candidate;
  Ok (root_covers (scope_root parent) (scope_root child)).

(** [any(f(x) for x in xs)]: stops at the first hit. *)
Fixpoint anyR {A} (f : A → res bool) (l : list A) : res bool :=
  match l with
  | [] => Ok false
  | x :: l => b ← f x; if b : bool then Ok true else anyR f l
  end.

Definition scope_allowed (allowed_scopes : list string) (candidate : string) : res bool :=
  anyR (λ parent, scope_covers parent candidate) allowed_scopes.

Definition scopes_overlap (left right : string) : res bool :=
  b ← scope_covers left right;
  if b : bool then Ok true else scope_covers right left.

(** The list comprehension over all pairs, none of which is skipped. *)
Definition _reject_forbidden (scopes forbidden : list string) : res unit :=
  hits ← mapR (λ p, scopes_overlap p.1 p.2) (scopes ≫= λ s, (s,.) <$> forbidden);
  require (negb (existsb id hits)) ContractError.

Definition validate_goal_scope (spec : GoalSpec) : res unit :=
  _ ← require (negb (memb C_PROVIDER_COST (gs_allowed_capabilities spec)
        && ((gs_provider_call_limit spec <? 1)%Z
            || (gs_provider_budget_minor_units spec <? 0)%Z))) ContractError;
  _ ← mapR normalize_scope
        ((gs_read_scope spec ++ gs_write_scope spec ++ gs_forbidden_scope spec)%list);
  _ ← _reject_forbidden (gs_read_scope spec) (gs_forbidden_scope spec);
  _reject_forbidden (gs_write_scope spec) (gs_forbidden_scope spec).

(** [{item.surface_key: item for item in surfaces}.get(key)]: the last wins. *)
Definition surface_for (l : list RuntimeSurfaceSpec) (k : string) : option RuntimeSurfaceSpec :=
  List.find (λ s, bool_decide (rs_surface_key s = k)) (rev l).

Definition validate_task_within_goal (goal : GoalSpec) (task : TaskSpec) : res unit :=
  _ ← validate_goal_scope goal;
  _ ← require (bool_decide (ts_goal_id task = gs_goal_id goal)) ContractError;
  _ ← mapR normalize_scope
        ((ts_read_scope task ++ ts_write_scope task ++ ts_forbidden_scope task)%list);
  _ ← require (forallb (λ c, memb c (gs_allowed_capabilities goal)) (ts_capabilities task))
        ContractError;
  reads ← mapR (scope_allowed (gs_read_scope goal)) (ts_read_scope task);
  writes ← mapR (scope_allowed (gs_write_scope goal)) (ts_write_scope task);
  _ ← require (forallb id reads) ContractError;
  _ ← require (forallb id writes) ContractError;
  let combined_forbidden := (gs_forbidden_scope goal ++ ts_forbidden_scope task)%list in
  _ ← _reject_forbidden (ts_read_scope task) combined_forbidden;
  _ ← _reject_forbidden (ts_write_scope task) combined_forbidden;
  require (forallb (λ s, bool_decide
      (surface_for (gs_required_runtime_surfaces goal) (rs_surface_key s) = Some s))
    (ts_required_runtime_surfaces task)) ContractError.

(** ** Examples *)
Example norm_ex1 : normalize_scope " src\app//x/./y/** " = Ok "src/app/x/y/**".
Proof. vm_compute. reflexivity. Qed.
Example norm_ex2 : normalize_scope "HTTPS://Host//a/" = Ok "https://Host/a".
Proof. vm_compute. reflexivity. Qed.
Example norm_ex3 : normalize_scope "a/%252e%252e/b" = Raise ContractError.
Proof. vm_compute. reflexivity. Qed.
Example norm_ex4 : normalize_scope "D:/x" = Ok "d:/x".
Proof. vm_compute. reflexivity. Qed.
Example covers_ex1 : scope_covers "C:/Work/**" "c:/work/File" = Ok true.
Proof. vm_compute. reflexivity. Qed.
Example covers_ex2 : scope_covers "src/**" "src2/x" = Ok false.
Proof. vm_compute. reflexivity. Qed.
Example sample_task_in_goal : validate_task_within_goal sample_goal sample_task = Ok tt.
Proof. vm_compute. reflexivity. Qed.

(** ** The order behind [scope_covers] *)
Local Close Scope string_scope.
Local Open Scope list_scope.

Definition slash : list ascii := ["/"%char].

(** What a covered text other than the parent itself starts with. *)
Definition below (a : list ascii) : list ascii := if bool_decide (a = slash) then slash else a ++ slash.
Definition cov (a b : list ascii) : Prop := a = b ∨ below a `prefix_of` b.

Lemma prefix_below a : a `prefix_of` below a.
Proof. unfold below. case_bool_decide; [by subst|by apply prefix_app_r]. Qed.

Lemma cov_trans a b c : cov a b → cov b c → cov a c.
Proof.
  intros [->|Hab] [->|Hbc]; [by left|by right|by right|right].
  etrans; [exact Hab|]. etrans; [apply prefix_below|exact Hbc].
Qed.

Lemma below_comparable a b :
  below a `prefix_of` below b → cov a b ∨ cov b a.
Proof.
  unfold cov, below. intros [k Hk]. repeat case_bool_decide; subst; auto.
  - destruct a as [|x a']; [left; right; by exists []|].
    unfold slash in *; simpl in Hk. assert (x = "/"%char) as -> by congruence. by destruct a'.
  - destruct b as [|x b']; [right; right; by exists []|]. left; right.
    simpl in Hk. assert (x = "/"%char) as -> by congruence. by exists b'.
  - destruct k as [|x k _] using rev_ind.
    + rewrite app_nil_r in Hk. apply app_inj_tail in Hk as [-> _]. auto.
    + rewrite app_assoc in Hk. apply app_inj_tail in Hk as [-> _]. left; right. by exists k.
Qed.

Lemma cov_comparable a b x : cov a x → cov b x → cov a b ∨ cov b a.
Proof.
  intros [->|Ha] [->|Hb]; [by left; left|by right; right|by left; right|].
  destruct (prefix_weak_total _ _ _ Ha Hb); [by apply below_comparable|].
  apply or_comm. by apply below_comparable.
Qed.

(** Roots as [normalize_scope] and [scope_root] produce them: a drive root has
    a lower-case drive letter. *)
Definition low_drive (r : string) : Prop :=
  is_drive r = true → ∃ d l, chars r = d :: ":"%char :: "/"%char :: l ∧ is_lower d = true.

Lemma root_covers_spec p c :
  root_covers p c = true ↔
  if is_drive p && is_drive c then cov (chars (casefold p)) (chars (casefold c))
  else cov (chars p) (chars c).
Proof.
  assert (∀ p c : string,
    (if bool_decide (p = c) then true
     else if bool_decide (p = "/"%string) then startswith c "/"
     else startswith c (p +:+ "/")) = true ↔ cov (chars p) (chars c)) as H.
  { clear. intros p c. unfold cov, below. case_bool_decide as H1; [subst; by split; auto|].
    assert (chars p ≠ chars c) by (intros ?%chars_inj; done).
    case_bool_decide as H2.
    - subst p. rewrite startswith_spec, bool_decide_eq_true_2 by done. simpl. tauto.
    - rewrite startswith_spec, chars_app, bool_decide_eq_false_2; [simpl; tauto|].
      intros Hs. apply H2, chars_inj, Hs. }
  unfold root_covers. destruct (is_drive p && is_drive c); apply H.
Qed.

Lemma is_drive_cons r d l :
  chars r = d :: ":"%char :: "/"%char :: l → is_lower d = true → is_drive r = true.
Proof. intros H Hd. unfold is_drive. rewrite H. unfold is_alpha. by rewrite Hd. Qed.

Lemma is_drive_prefix r x k :
  is_drive r = true → chars x = chars r ++ k → is_drive x = true.
Proof. unfold is_drive. intros Hr ->. destruct (chars r) as [|a [|b [|c l]]]; done. Qed.

Lemma cov_drive r x : is_drive r = true → cov (chars r) (chars x) → is_drive x = true.
Proof.
  intros Hr [Heq|Hp]; [by apply (is_drive_prefix r x []); rewrite ?app_nil_r|].
  assert (chars r `prefix_of` chars x) as [k Hk] by (etrans; [apply prefix_below|exact Hp]).
  by eapply is_drive_prefix.
Qed.

(** A root without a drive covers a drive root only as the bare drive. *)
Lemma cov_bare r x d l :
  is_drive r = false → chars x = d :: ":"%char :: "/"%char :: l → is_lower d = true →
  cov (chars r) (chars x) → chars r = [d; ":"%char].
Proof.
  intros Hr Hx Hd [Heq|[k Hk]].
  - exfalso. rewrite (is_drive_cons r d l) in Hr; [done|congruence|done].
  - rewrite Hx in Hk. unfold below in Hk. case_bool_decide as Hs.
    + exfalso. injection Hk as -> _. by vm_compute in Hd.
    + destruct (chars r) as [|a [|b [|c r']]] eqn:Hcr.
      * injection Hk as -> _. by vm_compute in Hd.
      * by injection Hk.
      * by injection Hk as -> -> _.
      * exfalso. injection Hk as -> <- <- _. unfold is_drive in Hr. rewrite Hcr in Hr.
        unfold is_alpha in Hr. by rewrite Hd in Hr.
Qed.

Lemma casefold_drive r d l :
  chars r = d :: ":"%char :: "/"%char :: l → is_lower d = true →
  ∃ k, chars (casefold r) = d :: k.
Proof.
  intros Hr Hd. unfold casefold. rewrite chars_of_chars, Hr.
  rewrite casefold_l_alpha by (unfold is_alpha; by rewrite Hd).
  rewrite low_lower by done. eauto.
Qed.

(** Two drive roots that cover the same text, up to case, share the drive. *)
Lemma cov_same_head (a b : list ascii) x y k l :
  cov a b → a = x :: k → b = y :: l → x ≠ "/"%char → x = y.
Proof.
  intros [Heq|[t Ht]] -> -> Hx; [congruence|]. unfold below in Ht.
  case_bool_decide as E; [unfold slash in E; congruence|]. simpl in Ht. congruence.
Qed.

Lemma lower_not_slash d : is_lower d = true → d ≠ "/"%char.
Proof. by intros H ->. Qed.

Lemma bare_covers r x d l :
  chars r = [d; ":"%char] → chars x = d :: ":"%char :: "/"%char :: l → cov (chars r) (chars x).
Proof.
  intros -> ->. right. unfold below. rewrite bool_decide_eq_false_2 by done. by exists l.
Qed.

Lemma root_covers_trans a b c :
  low_drive a → low_drive b → low_drive c →
  root_covers a b = true → root_covers b c = true → root_covers a c = true.
Proof.
  rewrite !root_covers_spec. intros La Lb Lc.
  destruct (is_drive a) eqn:Da, (is_drive b) eqn:Db, (is_drive c) eqn:Dc; simpl;
    intros Hab Hbc; try (by eapply cov_trans);
    try (by rewrite (cov_drive b c) in Dc); try (by rewrite (cov_drive a b) in Db).
  destruct (Lb Db) as (d & lb & Hb & Hdb), (Lc Dc) as (e & lc & Hc & Hec).
  pose proof (cov_bare _ _ _ _ Da Hb Hdb Hab) as Ha.
  destruct (casefold_drive _ _ _ Hb Hdb) as [kb Hkb], (casefold_drive _ _ _ Hc Hec) as [kc Hkc].
  assert (d = e) as -> by exact (cov_same_head _ _ _ _ _ _ Hbc Hkb Hkc (lower_not_slash _ Hdb)).
  by eapply bare_covers.
Qed.

Lemma root_covers_comparable a b x :
  low_drive a → low_drive b → low_drive x →
  root_covers a x = true → root_covers b x = true →
  root_covers a b = true ∨ root_covers b a = true.
Proof.
  rewrite !root_covers_spec. intros La Lb Lx.
  assert (∀ a b, low_drive a → is_drive a = true → is_drive b = false → is_drive x = true →
    cov (chars (casefold a)) (chars (casefold x)) → cov (chars b) (chars x) →
    cov (chars b) (chars a)) as Hmix.
  { clear -Lx. intros a b La Da Db Dx Ha Hb.
    destruct (La Da) as (d & la & Hca & Hda), (Lx Dx) as (e & lx & Hcx & Hex).
    pose proof (cov_bare _ _ _ _ Db Hcx Hex Hb) as Hcb.
    destruct (casefold_drive _ _ _ Hca Hda) as [ka Hka], (casefold_drive _ _ _ Hcx Hex) as [kx Hkx].
    assert (d = e) as -> by exact (cov_same_head _ _ _ _ _ _ Ha Hka Hkx (lower_not_slash _ Hda)).
    by eapply bare_covers. }
  destruct (is_drive a) eqn:Da, (is_drive b) eqn:Db, (is_drive x) eqn:Dx; simpl;
    intros Ha Hb; eauto using cov_comparable;
    exfalso; first [by pose proof (cov_drive a x Da Ha); congruence
                   |by pose proof (cov_drive b x Db Hb); congruence].
Qed.

Lemma low_drive_head x :
  (∀ a l, chars x = a :: l → is_upper a = false) → low_drive x.
Proof.
  unfold low_drive, is_drive. intros H Hd.
  destruct (chars x) as [|a [|b [|c l]]]; try done. bsplit. subst.
  exists a, l. split; [done|]. unfold is_alpha in *. by rewrite (H a _ eq_refl), orb_false_r in *.
Qed.

Lemma low_drive_prefix r x : chars r `prefix_of` chars x → low_drive x → low_drive r.
Proof.
  intros [k Hk] Lx Hr. destruct (Lx (is_drive_prefix r x k Hr Hk)) as (d & l & Hx & Hd).
  unfold is_drive in Hr. destruct (chars r) as [|a [|b [|c l']]]; try done.
  rewrite Hk in Hx. injection Hx as -> -> -> _. eauto.
Qed.

Lemma scope_root_recursive s : scope_root (s +:+ "/**") = rstrip_slash s.
Proof.
  unfold scope_root. rewrite endswith_app. f_equal. apply (drop_last_app s "/**").
Qed.

Lemma scope_root_prefix s : chars (scope_root s) `prefix_of` chars s.
Proof.
  unfold scope_root. destruct (endswith _ _); [|done].
  etrans; [apply rstrip_char_prefix|apply drop_last_prefix].
Qed.

Lemma app_empty_r s : s +:+ "" = s.
Proof. apply chars_inj. rewrite chars_app. apply app_nil_r. Qed.

Lemma lower_uri_low scheme rest : low_drive (lower scheme +:+ "://" +:+ rest).
Proof.
  apply low_drive_head. intros a l. rewrite chars_app. unfold lower. rewrite chars_of_chars.
  destruct (lower_l _) as [|b k] eqn:Hl; [by intros [= <- _]|].
  intros [= <- _]. by eapply lower_l_head.
Qed.

Lemma lower_head_low s : low_drive (lower_head s).
Proof.
  apply low_drive_head. intros a l. unfold lower_head.
  destruct (chars s); [done|]. rewrite chars_of_chars. intros [= <- _]. apply low_not_upper.
Qed.

Lemma normalize_low v n : normalize_scope v = Ok n → low_drive (scope_root n).
Proof.
  unfold normalize_scope. intros H.
  apply res_bind_ok in H as (? & _ & H). apply res_bind_ok in H as (raw & _ & H).
  apply res_bind_ok in H as (? & _ & H). apply res_bind_ok in H as (norm & Hn & [= <-]).
  assert (low_drive norm) as Lnorm.
  { destruct (partition_at _ _) as [[scheme rest]|]; [minv; apply lower_uri_low|].
    injection Hn as <-. destruct (is_drive _) eqn:Hd; [apply lower_head_low|].
    intros Hd'. congruence. }
  set (s := if bool_decide (rstrip_slash norm = "") then "/" else rstrip_slash norm).
  assert (low_drive s) as Ls.
  { unfold s. case_bool_decide; [done|]. eapply low_drive_prefix; [apply rstrip_char_prefix|done]. }
  destruct (endswith raw _).
  - rewrite scope_root_recursive. eapply low_drive_prefix; [apply rstrip_char_prefix|done].
  - rewrite app_empty_r. eapply low_drive_prefix; [apply scope_root_prefix|done].
Qed.

Lemma scope_covers_ok a b v :
  scope_covers a b = Ok v ↔
  ∃ p c, normalize_scope a = Ok p ∧ normalize_scope b = Ok c ∧
         v = root_covers (scope_root p) (scope_root c).
Proof.
  unfold scope_covers. rewrite res_bind_ok. split.
  - intros (p & Hp & H). apply res_bind_ok in H as (c & Hc & [= <-]). eauto.
  - intros (p & c & Hp & Hc & ->). exists p. split; [done|]. apply res_bind_ok. eauto.
Qed.

Lemma root_covers_refl r : root_covers r r = true.
Proof. apply root_covers_spec. destruct (_ && _); by left. Qed.

Lemma scope_covers_refl a n : normalize_scope a = Ok n → scope_covers a a = Ok true.
Proof. intros Hn. apply scope_covers_ok. exists n, n. by rewrite root_covers_refl. Qed.

Lemma scope_covers_trans a b c :
  scope_covers a b = Ok true → scope_covers b c = Ok true → scope_covers a c = Ok true.
Proof.
  rewrite !scope_covers_ok. intros (p & q & Hp & Hq & H1) (q' & r & Hq' & Hr & H2).
  assert (q' = q) as -> by congruence. exists p, r. split_and!; [done..|]. symmetry.
  eapply (root_covers_trans _ (scope_root q)); eauto using normalize_low, eq_sym.
Qed.

Lemma scope_covers_overlap a b x :
  scope_covers a x = Ok true → scope_covers b x = Ok true → scopes_overlap a b = Ok true.
Proof.
  rewrite !scope_covers_ok. intros (p & q & Hp & Hq & H1) (p' & q' & Hp' & Hq' & H2).
  assert (q' = q) as -> by congruence. unfold scopes_overlap, scope_covers. rewrite Hp, Hp', !res_ret_bind.
  destruct (root_covers (scope_root p) (scope_root p')) eqn:Hc; [done|].
  destruct (root_covers_comparable (scope_root p) (scope_root p') (scope_root q)) as [?|Hd];
    eauto using normalize_low, eq_sym; [congruence|]. by rewrite Hd.
Qed.

(** ** Containment of a task in its goal *)
Lemma anyR_ok {A} (f : A → res bool) l :
  anyR f l = Ok true → ∃ x, x ∈ l ∧ f x = Ok true.
Proof.
  induction l as [|x l IH]; simpl; [done|]. intros (b & Hb & H)%res_bind_ok.
  destruct b; [exists x; split; [constructor|done]|].
  destruct (IH H) as (y & ? & ?). exists y. split; [by constructor|done].
Qed.

Lemma mapR_all_true {A} (f : A → res bool) l bs :
  mapR f l = Ok bs → forallb id bs = true → ∀ x, x ∈ l → f x = Ok true.
Proof.
  intros HF%mapR_ok Hall x Hx. apply list_elem_of_lookup in Hx as [i Hi].
  destruct (Forall2_lookup_l _ _ _ _ _ HF Hi) as (b & Hb & Hf).
  rewrite Hf. f_equal. apply (proj1 (forallb_In id bs) Hall). by eapply list_elem_of_lookup_2.
Qed.

Lemma reject_forbidden_ok scopes forbidden u :
  _reject_forbidden scopes forbidden = Ok u →
  ∀ s f, s ∈ scopes → f ∈ forbidden → scopes_overlap s f = Ok false.
Proof.
  unfold _reject_forbidden. intros (hits & HF%mapR_ok & Hno%require_ok)%res_bind_ok s f Hs Hf.
  apply negb_true_iff in Hno.
  assert ((s, f) ∈ (scopes ≫= λ s, (s,.) <$> forbidden)) as Hin.
  { apply list_elem_of_bind. exists s. split; [|done]. apply list_elem_of_fmap. by exists f. }
  apply list_elem_of_lookup in Hin as [i Hi].
  destruct (Forall2_lookup_l _ _ _ _ _ HF Hi) as (b & Hb & Hov). simpl in Hov. rewrite Hov.
  destruct b; [|done]. exfalso.
  assert (existsb id hits = true) as Ht; [|by rewrite Ht in Hno].
  apply existsb_In. exists true. split; [by eapply list_elem_of_lookup_2|done].
Qed.

(** What an accepted task may touch: a resource that one of its scopes of a
    kind covers. *)
Definition may_touch (scopes : list string) (resource : string) : Prop :=
  ∃ s, s ∈ scopes ∧ scope_covers s resource = Ok true.

Lemma contained_scope goal_scopes task_scopes forbidden bs u resource :
  mapR (scope_allowed goal_scopes) task_scopes = Ok bs → forallb id bs = true →
  _reject_forbidden task_scopes forbidden = Ok u →
  may_touch task_scopes resource → may_touch goal_scopes resource ∧ ¬ may_touch forbidden resource.
Proof.
  intros Hm Hall Hrej (s & Hs & Hcov). split.
  - pose proof (mapR_all_true _ _ _ Hm Hall s Hs) as Hs'.
    apply anyR_ok in Hs' as (p & Hp & Hps). exists p. split; [done|].
    by eapply scope_covers_trans.
  - intros (f & Hf & Hcf).
    pose proof (reject_forbidden_ok _ _ _ Hrej s f Hs Hf) as Hno.
    by rewrite (scope_covers_overlap _ _ _ Hcov Hcf) in Hno.
Qed.

(** Authority containment.  When a task contract is accepted within its
    goal, every resource the task may write (or read) is one the goal may write
    (or read) and lies in no forbidden scope of the goal or of the task; and the
    capabilities and runtime surfaces of the task are among those of the goal.
    The argument rests on [scope_covers] being a preorder whose up-sets are
    chains, drive letters and case folding included. *)
Theorem task_contained goal task :
  validate_task_within_goal goal task = Ok tt →
  (∀ r, may_touch (ts_write_scope task) r →
        may_touch (gs_write_scope goal) r ∧
        ¬ may_touch (gs_forbidden_scope goal ++ ts_forbidden_scope task) r) ∧
  (∀ r, may_touch (ts_read_scope task) r →
        may_touch (gs_read_scope goal) r ∧
        ¬ may_touch (gs_forbidden_scope goal ++ ts_forbidden_scope task) r) ∧
  ts_goal_id task = gs_goal_id goal ∧
  ts_capabilities task ⊆ gs_allowed_capabilities goal ∧
  ts_required_runtime_surfaces task ⊆ gs_required_runtime_surfaces goal.
Proof.
  unfold validate_task_within_goal. intros H. minv. split_and!.
  - intros r. by eapply contained_scope.
  - intros r. by eapply contained_scope.
  - by bsplit.
  - intros c Hc. apply memb_true.
    match goal with H : forallb _ (ts_capabilities task) = true |- _ =>
      exact (proj1 (forallb_In _ _) H c Hc) end.
  - intros s Hs.
    match goal with H : forallb _ (ts_required_runtime_surfaces task) = true |- _ =>
      pose proof (proj1 (forallb_In _ _) H s Hs) as Hf end.
    simpl in Hf. apply bool_decide_eq_true in Hf.
    apply List.find_some in Hf as [Hf _]. by apply list_elem_of_In, in_rev.
Qed.

Lemma task_contained_witness :
  may_touch (gs_write_scope sample_goal) "src/app/x/y" ∧
  ¬ may_touch (gs_forbidden_scope sample_goal ++ ts_forbidden_scope sample_task) "src/app/x/y".
Proof.
  apply (proj1 (task_contained sample_goal sample_task ltac:(vm_compute; reflexivity))).
  exists "src/app/**"%string. split; [by constructor|vm_compute; reflexivity].
Defined.

(** ** Where normalisation loses a prohibition

    [/**] normalises to [./**] and [C:/**] keeps its upper-case letter, since
    [normpath] has dropped the slash that the drive test looks for; neither
    covers the paths below the root it names. *)
Example root_wildcard_covers_nothing :
  normalize_scope "/**" = Ok "./**"%string ∧ scope_covers "/**" "/etc/passwd" = Ok false ∧
  scopes_overlap "/etc/passwd" "/**" = Ok false.
Proof. vm_compute. done. Qed.

Example drive_root_covers_nothing :
  scope_covers "C:/**" "C:/Windows" = Ok false ∧ scopes_overlap "C:/Windows" "C:/**" = Ok false ∧
  scope_covers "c:/**" "C:/Windows" = Ok true.
Proof. vm_compute. done. Qed.

Example normalize_not_idempotent :
  normalize_scope "%20a" = Ok " a"%string ∧ normalize_scope " a" = Ok "a"%string.
Proof. vm_compute. done. Qed.
