(* ===== verification/Db.v ===== *)
(** * The database, the clock and the process ([schema.py], [SQLiteStore.transaction])

    One record per table row and one finite map per table, keyed by the primary
    key; the event log is the list of its rows in [seq] order.  A text column
    that holds the value of an enumeration keeps the member, a [spec_json]
    column keeps the parsed specification (see [Contracts.contract_roundtrip]),
    the other JSON columns keep the JSON value, and a time column keeps the
    instant, in microseconds since the epoch.  The insertions check the
    constraints that [schema.py] declares: primary keys, UNIQUE, CHECK and
    FOREIGN KEY.

    What the runtime asks of its surroundings is the class [Env]: hashing, key
    derivation, random tokens and UUIDs, the clock, the Unicode tables that
    [unicodedata] reads, the addresses that [ipaddress] accepts and the text of a
    floating-point number.  Every clock read and every drawn identifier consumes
    one index, so no two calls are assumed to agree. *)

From stdpp Require Import pretty.
From Stdlib Require Import Ascii.
From Stdlib Require SpecFloat.
From S2P Require Import Prelude PyStr Json Enums Contracts.

Local Open Scope string_scope.
Local Open Scope list_scope.

(** ** Roles ([identity.py]) *)
Inductive Role :=
  | R_OWNER | R_WORKER | R_EVALUATOR | R_RELEASE | R_OBSERVER | R_PROVIDER_ATTESTOR
  | R_HUMAN_ACCEPTOR | R_BUSINESS_REVIEWER | R_SYSTEM.

#[export] Instance Role_eq_dec : EqDecision Role.
Proof. solve_decision. Defined.

Definition role_value (r : Role) : string :=
  match r with
  | R_OWNER => "owner" | R_WORKER => "worker" | R_EVALUATOR => "evaluator"
  | R_RELEASE => "release" | R_OBSERVER => "observer"
  | R_PROVIDER_ATTESTOR => "provider_attestor" | R_HUMAN_ACCEPTOR => "human_acceptor"
  | R_BUSINESS_REVIEWER => "business_reviewer" | R_SYSTEM => "system"
  end.
Definition role_all : list Role :=
  [R_OWNER; R_WORKER; R_EVALUATOR; R_RELEASE; R_OBSERVER; R_PROVIDER_ATTESTOR;
   R_HUMAN_ACCEPTOR; R_BUSINESS_REVIEWER; R_SYSTEM].

#[export] Instance Role_enum : StrEnum Role := {| value := role_value; members := role_all |}.
#[export] Instance Role_enum_laws : StrEnumLaws Role.
Proof. split; [by intros []; vm_compute; repeat constructor|by intros [] []]. Qed.

#[export] Instance Role_countable : Countable Role.
Proof.
  apply (inj_countable role_value (λ s, match of_value s with Ok r => Some r | _ => None end)).
  by intros [].
Defined.

(** ** Rows *)
Definition Instant := Z.

Record Principal := {
  p_id : string; p_key : string; p_display_name : string;
  p_salt : string; p_hash : string; p_iterations : Z;
  p_credential_version : Z; p_enabled : bool;
  p_created_at : Instant; p_updated_at : Instant; p_disabled_at : option Instant }.

Record Session := {
  s_id : string; s_principal_id : string; s_token_hash : string;
  s_credential_version : Z; s_issued_at : Instant; s_expires_at : Instant;
  s_revoked_at : option Instant }.

Record Event := {
  ev_id : string; ev_aggregate_type : string; ev_aggregate_id : string;
  ev_aggregate_version : Z; ev_project_id : string;
  ev_run_id : option string; ev_task_id : option string; ev_event_type : string;
  ev_schema_version : Z; ev_actor : string; ev_auth_context : json;
  ev_command_id : string; ev_idempotency_key : option string;
  ev_correlation_id : string; ev_causation_id : option string;
  ev_policy_version : string; ev_occurred_at : Instant; ev_recorded_at : Instant;
  ev_confidentiality : string; ev_payload : json; ev_payload_digest : string;
  ev_previous_hash : string; ev_hash : string }.

Record IdemRecord := {
  ir_payload_digest : string; ir_result : json; ir_event_id : string;
  ir_created_at : Instant }.

Record GoalRow := {
  go_id : string; go_project_id : string; go_state : GoalState; go_spec : GoalSpec;
  go_version : Z; go_created_at : Instant; go_updated_at : Instant }.

Record RunRow := {
  ru_id : string; ru_goal_id : string; ru_project_id : string; ru_loop_state : LoopState;
  ru_policy_version : string; ru_version : Z; ru_created_at : Instant;
  ru_updated_at : Instant }.

Record TaskRow := {
  t_id : string; t_goal_id : string; t_run_id : option string; t_project_id : string;
  t_state : TaskState; t_spec : TaskSpec; t_version : Z; t_attempt_count : Z;
  t_due_at : option Instant; t_last_error : option string;
  t_created_at : Instant; t_updated_at : Instant }.

(** The texts that the scheduler and the task controls write to [attempts.state]. *)
Inductive AttemptState :=
  | A_leased | A_running | A_succeeded | A_failed | A_abandoned
  | A_blocked | A_canceled | A_deleted | A_retired.
#[export] Instance AttemptState_eq_dec : EqDecision AttemptState.
Proof. solve_decision. Defined.

Record Attempt := {
  a_id : string; a_task_id : string; a_run_id : string; a_number : Z;
  a_worker_id : string; a_state : AttemptState; a_started_at : Instant;
  a_ended_at : option Instant; a_failure_id : option string }.

Record Lease := {
  l_resource_key : string; l_project_id : string; l_task_id : string; l_holder : string;
  l_fence : Z; l_issued_at : Instant; l_expires_at : Instant;
  l_released_at : option Instant }.

Record NegativeResult := {
  n_id : string; n_project_id : string; n_run_id : string; n_task_id : string;
  n_fingerprint : string; n_failure_class : string; n_severity : string;
  n_repair_route : string; n_first_seen : Instant; n_last_seen : Instant;
  n_recurrence : Z }.

(** *** Rows of the registries that guards read *)
Record EvidenceClaim := {
  ec_id : string; ec_project_id : string; ec_run_id : string; ec_task_id : string;
  ec_claim : string; ec_evidence_state : EvidenceState; ec_artifact_refs : json;
  ec_verifier_principal_id : string; ec_verifier_version : string; ec_environment : string;
  ec_evaluator_verdict : EvaluatorVerdict; ec_non_claims : json; ec_created_at : Instant }.

Record Observation := {
  ob_id : string; ob_project_id : string; ob_run_id : string; ob_surface_key : string;
  ob_target_identity : string; ob_observer : string; ob_probe_name : string;
  ob_probe_version : string; ob_trigger_event_id : option string; ob_status : string;
  ob_value : json; ob_value_digest : string; ob_observed_at : Instant;
  ob_recorded_at : Instant; ob_expires_at : Instant }.

Record IntegrationItem := {
  ii_id : string; ii_project_id : string; ii_run_id : string; ii_task_id : string;
  ii_state : IntegrationState; ii_source_ref : string; ii_target_ref : string;
  ii_owner : string; ii_evidence_refs : json; ii_updated_at : Instant }.

Record StepRow := {
  st_task_id : string; st_step_id : string; st_status : string; st_input_digest : string;
  st_result : option json; st_effect_id : option string; st_started_at : Instant;
  st_completed_at : option Instant }.

Record Approval := {
  av_id : string; av_project_id : string; av_goal_id : string; av_run_id : string;
  av_task_id : string; av_requester : string; av_approver : option string;
  av_capability : string; av_action : string; av_resource : string;
  av_request_digest : string; av_binding_digest : option string;
  av_binding_version : option Z; av_decision_gate : option string;
  av_policy_version : string; av_decision : string; av_requested_at : Instant;
  av_decided_at : option Instant; av_expires_at : option Instant }.

Record Grant := {
  gr_id : string; gr_project_id : string; gr_goal_id : string; gr_run_id : string;
  gr_task_id : string; gr_approval_id : option string; gr_issuer : string;
  gr_principal : string; gr_capability : string; gr_action : string; gr_resource : string;
  gr_request_digest : string; gr_policy_version : string; gr_not_before : Instant;
  gr_expires_at : Instant; gr_max_uses : Z; gr_used_count : Z; gr_cost_limit : Z;
  gr_cost_used : Z; gr_required_fence : option Z; gr_revoked_at : option Instant }.

Record Proposal := {
  ip_id : string; ip_project_id : string; ip_source_run_id : string; ip_hypothesis : string;
  ip_candidate_digest : string; ip_editable_surface : string; ip_expected_benefit : string;
  ip_risk : string; ip_rollback_route : string; ip_held_in_eval_id : option string;
  ip_held_out_eval_id : option string; ip_sealed_eval_id : option string; ip_state : ProposalState;
  ip_owner_approval_id : option string; ip_created_at : Instant; ip_updated_at : Instant }.

Record AdoptedProject := {
  ad_project_id : string; ad_version : Z; ad_digest : string; ad_spec : dict;
  ad_current_program_id : string; ad_adopted_at : Instant }.

Record AdoptedProgram := {
  ag_program_id : string; ag_project_id : string; ag_version : Z; ag_digest : string;
  ag_state : string; ag_graph_digest : string; ag_spec : dict; ag_adopted_at : Instant }.

Record GoalBinding := {
  gb_goal_id : string; gb_project_id : string; gb_program_id : string; gb_digest : string;
  gb_authority : dict; gb_source_event_id : string }.

Record TaskBinding := {
  tb_task_id : string; tb_project_id : string; tb_program_id : string; tb_goal_id : string;
  tb_digest : string; tb_authority : dict; tb_provider_budget_minor_units : Z;
  tb_provider_call_limit : Z; tb_required_decision_gates : json; tb_source_event_id : string }.

Record Usage := {
  us_grant_id : string; us_idempotency_key : string; us_request_digest : string; us_cost : Z;
  us_used_at : Instant; us_effect_id : option string }.

Record OutboxRow := {
  ox_effect_id : string; ox_project_id : string; ox_run_id : string; ox_task_id : string;
  ox_step_id : string; ox_adapter : string; ox_idempotency_key : string;
  ox_request_digest : string; ox_request : dict; ox_status : string; ox_created_at : Instant;
  ox_dispatched_at : option Instant; ox_reconciled_at : option Instant;
  ox_last_error : option string }.

Record Receipt := {
  rc_receipt_id : string; rc_effect_id : string; rc_status : string;
  rc_provider_receipt : option string; rc_result : json; rc_result_digest : string;
  rc_recorded_at : Instant }.

Record Artifact := {
  at_id : string; at_project_id : string; at_run_id : string; at_task_id : string;
  at_producer_principal_id : string; at_kind : string; at_uri : string;
  at_content_digest : string; at_confidentiality : string; at_created_at : Instant }.

(** *** Context, memory and evaluation *)
Record ContextItem := {
  cx_id : string; cx_project_id : string; cx_scope : string; cx_source_ref : string;
  cx_source_digest : string; cx_content : string; cx_classification : string;
  cx_normative_status : string; cx_priority : Z; cx_token_estimate : Z; cx_observed_at : Instant;
  cx_effective_at : Instant; cx_expires_at : option Instant; cx_supersedes : option string;
  cx_created_at : Instant }.

Record Assembly := {
  as_id : string; as_project_id : string; as_run_id : string; as_task_id : string;
  as_token_budget : Z; as_selected : json; as_rejected : json; as_digest : string;
  as_created_at : Instant }.

Record MemoryItem := {
  mi_id : string; mi_project_id : string; mi_source_evidence_id : string; mi_source_digest : string;
  mi_scope : string; mi_classification : string; mi_content : string; mi_status : string;
  mi_effective_at : Instant; mi_expires_at : option Instant; mi_supersedes : option string;
  mi_promotion_approval_id : option string; mi_heldout_eval_id : option string;
  mi_created_at : Instant }.

Record EvalRow := {
  el_id : string; el_project_id : string; el_candidate_digest : string; el_dataset_name : string;
  el_dataset_split : string; el_dataset_digest : string; el_evaluator : string;
  el_evaluator_version : string; el_status : string; el_metrics : list (string * SpecFloat.spec_float);
  el_safety_failures : json;
  el_attestation_id : string; el_attestation_digest : string; el_created_at : Instant }.

Record Custody := {
  sa_attestation_id : string; sa_proposal_id : string; sa_eval_id : string; sa_project_id : string;
  sa_candidate_digest : string; sa_dataset_digest : string; sa_eval_attestation_digest : string;
  sa_evaluator_principal_id : string; sa_custody_provider : string; sa_custodian_id : string;
  sa_policy_version : string; sa_attestation_digest : string; sa_verified_at : Instant }.

Record Knowledge := {
  context_items : gmap string ContextItem;
  context_assemblies : gmap string Assembly;
  memory_items : gmap string MemoryItem;
  eval_runs : gmap string EvalRow;
  custody : gmap string Custody }.

Definition empty_knowledge : Knowledge := Build_Knowledge ∅ ∅ ∅ ∅ ∅.

Record Effects := {
  capability_usage : gmap (string * string) Usage;
  outbox : gmap string OutboxRow;
  effect_receipts : gmap string Receipt;
  artifacts : gmap string Artifact;
  knowledge : Knowledge }.

Definition empty_effects : Effects := Build_Effects ∅ ∅ ∅ ∅ empty_knowledge.

Record Registry := {
  evidence_claims : gmap string EvidenceClaim;
  observations : gmap string Observation;
  integration_items : gmap string IntegrationItem;
  workflow_steps : gmap (string * string) StepRow;
  approvals : gmap string Approval;
  grants : gmap string Grant;
  proposals : gmap string Proposal;
  adopted_projects : gmap string AdoptedProject;
  adopted_programs : gmap string AdoptedProgram;
  goal_bindings : gmap string GoalBinding;
  task_bindings : gmap string TaskBinding;
  effects : Effects }.

Definition empty_registry : Registry := Build_Registry ∅ ∅ ∅ ∅ ∅ ∅ ∅ ∅ ∅ ∅ ∅ empty_effects.

(** ** The database *)
Record DB := {
  principals : gmap string Principal;
  principal_roles : gmap (string * Role) Instant;
  sessions : gmap string Session;
  events : list Event;
  idempotency : gmap (string * string * string) IdemRecord;
  goals : gmap string GoalRow;
  runs : gmap string RunRow;
  tasks : gmap string TaskRow;
  attempts : gmap string Attempt;
  leases : gmap string Lease;
  negatives : gmap string NegativeResult;
  registry : Registry }.

Definition empty_db : DB := Build_DB ∅ ∅ ∅ [] ∅ ∅ ∅ ∅ ∅ ∅ ∅ empty_registry.

Definition set_principals f d := Build_DB (f (principals d)) (principal_roles d) (sessions d)
  (events d) (idempotency d) (goals d) (runs d) (tasks d) (attempts d) (leases d) (negatives d) (registry d).
Definition set_roles f d := Build_DB (principals d) (f (principal_roles d)) (sessions d)
  (events d) (idempotency d) (goals d) (runs d) (tasks d) (attempts d) (leases d) (negatives d) (registry d).
Definition set_sessions f d := Build_DB (principals d) (principal_roles d) (f (sessions d))
  (events d) (idempotency d) (goals d) (runs d) (tasks d) (attempts d) (leases d) (negatives d) (registry d).
Definition set_events f d := Build_DB (principals d) (principal_roles d) (sessions d)
  (f (events d)) (idempotency d) (goals d) (runs d) (tasks d) (attempts d) (leases d) (negatives d) (registry d).
Definition set_idempotency f d := Build_DB (principals d) (principal_roles d) (sessions d)
  (events d) (f (idempotency d)) (goals d) (runs d) (tasks d) (attempts d) (leases d) (negatives d) (registry d).
Definition set_goals f d := Build_DB (principals d) (principal_roles d) (sessions d)
  (events d) (idempotency d) (f (goals d)) (runs d) (tasks d) (attempts d) (leases d) (negatives d) (registry d).
Definition set_runs f d := Build_DB (principals d) (principal_roles d) (sessions d)
  (events d) (idempotency d) (goals d) (f (runs d)) (tasks d) (attempts d) (leases d) (negatives d) (registry d).
Definition set_tasks f d := Build_DB (principals d) (principal_roles d) (sessions d)
  (events d) (idempotency d) (goals d) (runs d) (f (tasks d)) (attempts d) (leases d) (negatives d) (registry d).
Definition set_attempts f d := Build_DB (principals d) (principal_roles d) (sessions d)
  (events d) (idempotency d) (goals d) (runs d) (tasks d) (f (attempts d)) (leases d) (negatives d) (registry d).
Definition set_leases f d := Build_DB (principals d) (principal_roles d) (sessions d)
  (events d) (idempotency d) (goals d) (runs d) (tasks d) (attempts d) (f (leases d)) (negatives d) (registry d).
Definition set_negatives f d := Build_DB (principals d) (principal_roles d) (sessions d)
  (events d) (idempotency d) (goals d) (runs d) (tasks d) (attempts d) (leases d) (f (negatives d)) (registry d).
Definition set_registry f d := Build_DB (principals d) (principal_roles d) (sessions d)
  (events d) (idempotency d) (goals d) (runs d) (tasks d) (attempts d) (leases d) (negatives d)
  (f (registry d)).

Definition set_evidence_claims f : DB → DB := set_registry (λ r, Build_Registry
  (f (evidence_claims r)) (observations r) (integration_items r) (workflow_steps r)
  (approvals r) (grants r) (proposals r) (adopted_projects r)
  (adopted_programs r) (goal_bindings r) (task_bindings r) (effects r)).
Definition set_observations f : DB → DB := set_registry (λ r, Build_Registry
  (evidence_claims r) (f (observations r)) (integration_items r) (workflow_steps r)
  (approvals r) (grants r) (proposals r) (adopted_projects r)
  (adopted_programs r) (goal_bindings r) (task_bindings r) (effects r)).
Definition set_integration_items f : DB → DB := set_registry (λ r, Build_Registry
  (evidence_claims r) (observations r) (f (integration_items r)) (workflow_steps r)
  (approvals r) (grants r) (proposals r) (adopted_projects r)
  (adopted_programs r) (goal_bindings r) (task_bindings r) (effects r)).
Definition set_workflow_steps f : DB → DB := set_registry (λ r, Build_Registry
  (evidence_claims r) (observations r) (integration_items r) (f (workflow_steps r))
  (approvals r) (grants r) (proposals r) (adopted_projects r)
  (adopted_programs r) (goal_bindings r) (task_bindings r) (effects r)).
Definition set_approvals f : DB → DB := set_registry (λ r, Build_Registry
  (evidence_claims r) (observations r) (integration_items r) (workflow_steps r)
  (f (approvals r)) (grants r) (proposals r) (adopted_projects r)
  (adopted_programs r) (goal_bindings r) (task_bindings r) (effects r)).
Definition set_grants f : DB → DB := set_registry (λ r, Build_Registry
  (evidence_claims r) (observations r) (integration_items r) (workflow_steps r)
  (approvals r) (f (grants r)) (proposals r) (adopted_projects r)
  (adopted_programs r) (goal_bindings r) (task_bindings r) (effects r)).
Definition set_proposals f : DB → DB := set_registry (λ r, Build_Registry
  (evidence_claims r) (observations r) (integration_items r) (workflow_steps r)
  (approvals r) (grants r) (f (proposals r)) (adopted_projects r)
  (adopted_programs r) (goal_bindings r) (task_bindings r) (effects r)).
Definition set_adopted_projects f : DB → DB := set_registry (λ r, Build_Registry
  (evidence_claims r) (observations r) (integration_items r) (workflow_steps r)
  (approvals r) (grants r) (proposals r) (f (adopted_projects r))
  (adopted_programs r) (goal_bindings r) (task_bindings r) (effects r)).
Definition set_adopted_programs f : DB → DB := set_registry (λ r, Build_Registry
  (evidence_claims r) (observations r) (integration_items r) (workflow_steps r)
  (approvals r) (grants r) (proposals r) (adopted_projects r)
  (f (adopted_programs r)) (goal_bindings r) (task_bindings r) (effects r)).
Definition set_goal_bindings f : DB → DB := set_registry (λ r, Build_Registry
  (evidence_claims r) (observations r) (integration_items r) (workflow_steps r)
  (approvals r) (grants r) (proposals r) (adopted_projects r)
  (adopted_programs r) (f (goal_bindings r)) (task_bindings r) (effects r)).
Definition set_task_bindings f : DB → DB := set_registry (λ r, Build_Registry
  (evidence_claims r) (observations r) (integration_items r) (workflow_steps r)
  (approvals r) (grants r) (proposals r) (adopted_projects r)
  (adopted_programs r) (goal_bindings r) (f (task_bindings r)) (effects r)).

Definition set_effects f : DB → DB := set_registry (λ r, Build_Registry
  (evidence_claims r) (observations r) (integration_items r) (workflow_steps r)
  (approvals r) (grants r) (proposals r) (adopted_projects r)
  (adopted_programs r) (goal_bindings r) (task_bindings r) (f (effects r))).
Definition set_capability_usage f : DB → DB := set_effects (λ e, Build_Effects
  (f (capability_usage e)) (outbox e) (effect_receipts e) (artifacts e) (knowledge e)).
Definition set_outbox f : DB → DB := set_effects (λ e, Build_Effects
  (capability_usage e) (f (outbox e)) (effect_receipts e) (artifacts e) (knowledge e)).
Definition set_effect_receipts f : DB → DB := set_effects (λ e, Build_Effects
  (capability_usage e) (outbox e) (f (effect_receipts e)) (artifacts e) (knowledge e)).
Definition set_artifacts f : DB → DB := set_effects (λ e, Build_Effects
  (capability_usage e) (outbox e) (effect_receipts e) (f (artifacts e)) (knowledge e)).
Definition set_knowledge f : DB → DB := set_effects (λ e, Build_Effects
  (capability_usage e) (outbox e) (effect_receipts e) (artifacts e) (f (knowledge e))).
Definition set_context_items f : DB → DB := set_knowledge (λ k, Build_Knowledge
  (f (context_items k)) (context_assemblies k) (memory_items k) (eval_runs k) (custody k)).
Definition set_context_assemblies f : DB → DB := set_knowledge (λ k, Build_Knowledge
  (context_items k) (f (context_assemblies k)) (memory_items k) (eval_runs k) (custody k)).
Definition set_memory_items f : DB → DB := set_knowledge (λ k, Build_Knowledge
  (context_items k) (context_assemblies k) (f (memory_items k)) (eval_runs k) (custody k)).
Definition set_eval_runs f : DB → DB := set_knowledge (λ k, Build_Knowledge
  (context_items k) (context_assemblies k) (memory_items k) (f (eval_runs k)) (custody k)).
Definition set_custody f : DB → DB := set_knowledge (λ k, Build_Knowledge
  (context_items k) (context_assemblies k) (memory_items k) (eval_runs k) (f (custody k))).

(** ** The surroundings *)
Class Env := {
  sha256 : string → string;               (** [hashlib.sha256(text).hexdigest()] *)
  pbkdf2 : string → string → Z → string;  (** [hashlib.pbkdf2_hmac("sha256", secret, salt, n)] *)
  clock : nat → Z;                        (** the [n]-th reading of the clock, in microseconds *)
  uuid4 : nat → string;                   (** the [n]-th [str(uuid.uuid4())] *)
  token_bytes : Z → nat → string;         (** the [n]-th drawing of [secrets.token_bytes(k)] *)
  nfkc : string → string;                 (** [unicodedata.normalize("NFKC", text)] *)
  str_lower : string → string;            (** [text.lower()], where the result is stored *)
  has_control : string → bool;            (** some character has a category [C*] *)
  bracketed_host : string → bool;         (** [urllib.parse] accepts the bracketed host of a URL *)
  float_repr : SpecFloat.spec_float → string        (** [repr] of a finite [float] *) }.

(** ** The process

    [_AuthorityDomain] of [store.py]: the command authorities bound so far (the
    key stands for the identity of the opaque token) and the pinned
    configuration of the protected handlers.  [w_live] holds the identities of
    the objects that are still referenced, which is what a [weakref] observes. *)
Inductive AuthorityKind := K_core | K_protected.
#[export] Instance AuthorityKind_eq_dec : EqDecision AuthorityKind.
Proof. solve_decision. Defined.

Record Binding := {
  b_handler : string; b_owner : nat; b_kind : AuthorityKind;
  b_binding_id : string; b_config_digest : string }.

Record Domain := {
  d_authorities : gmap nat Binding;
  d_configs : gmap string string;
  d_types : gmap string (list string);
  d_live : gset nat }.

Record World := {
  w_db : DB;
  w_ticks : nat;    (** clock readings so far *)
  w_drawn : nat;    (** identifiers and tokens drawn so far *)
  w_domain : Domain }.

Definition set_db (f : DB → DB) (w : World) : World :=
  Build_World (f (w_db w)) (w_ticks w) (w_drawn w) (w_domain w).
Definition set_domain (f : Domain → Domain) (w : World) : World :=
  Build_World (w_db w) (w_ticks w) (w_drawn w) (f (w_domain w)).

Definition P : Type → Type := M World.

Definition read {A} (f : DB → A) : P A := gets (λ w, f (w_db w)).
Definition write (f : DB → DB) : P unit := modify (set_db f).

(** [with store.transaction() as connection: m]: commit on success, roll the
    database back on any exception.  Nested reads see the writes of [m]. *)
Definition transaction {A} (m : P A) : P A := λ w,
  match m w with
  | (Ok a, w') => (Ok a, w')
  | (Raise e, w') => (Raise e, set_db (λ _, w_db w) w')
  end.

Section env.
Context `{ENV : Env}.

(** [datetime.now(UTC)] *)
Definition utc_now : P Instant := λ w,
  (Ok (clock (w_ticks w)), Build_World (w_db w) (S (w_ticks w)) (w_drawn w) (w_domain w)).
(** SQLite's ['now'], which has millisecond resolution. *)
Definition sql_now : P Instant := λ w,
  (Ok (clock (w_ticks w) / 1000 * 1000)%Z,
   Build_World (w_db w) (S (w_ticks w)) (w_drawn w) (w_domain w)).
Definition new_uuid : P string := λ w,
  (Ok (uuid4 (w_drawn w)), Build_World (w_db w) (w_ticks w) (S (w_drawn w)) (w_domain w)).
Definition new_token (n : Z) : P string := λ w,
  (Ok (token_bytes n (w_drawn w)), Build_World (w_db w) (w_ticks w) (S (w_drawn w)) (w_domain w)).

(** [content_hash] *)
Definition content_hash (j : json) : string :=
  match j with JStr s => sha256 s | _ => sha256 (canonical_json j) end.
End env.

(** [julianday(t)]: SQLite keeps times in whole milliseconds. *)
Definition julianday (t : Instant) : Z := ((t + 500) / 1000)%Z.

(** ** Times as text *)
Definition pad (n : nat) (z : Z) : string :=
  let s := pretty z in
  of_chars (replicate (n - String.length s) "0"%char) +:+ s.

(** Days since 1970-01-01 to year, month and day of the Gregorian calendar. *)
Definition civil (days : Z) : Z * Z * Z :=
  (let z := days + 719468 in
   let era := z / 146097 in
   let doe := z - era * 146097 in
   let yoe := (doe - doe / 1460 + doe / 36524 - doe / 146096) / 365 in
   let doy := doe - (365 * yoe + yoe / 4 - yoe / 100) in
   let mp := (5 * doy + 2) / 153 in
   let m := if mp <? 10 then mp + 3 else mp - 9 in
   (yoe + era * 400 + (if m <=? 2 then 1 else 0), m, doy - (153 * mp + 2) / 5 + 1))%Z.

Definition iso_seconds (t : Instant) : string :=
  let s := (t / 1000000)%Z in
  let '(y, m, d) := civil (s / 86400)%Z in
  pad 4 y +:+ "-" +:+ pad 2 m +:+ "-" +:+ pad 2 d +:+ "T" +:+
  pad 2 (s mod 86400 / 3600)%Z +:+ ":" +:+ pad 2 (s mod 3600 / 60)%Z +:+ ":" +:+ pad 2 (s mod 60)%Z.

(** [value.astimezone(UTC).isoformat(timespec="microseconds")] *)
Definition iso (t : Instant) : string :=
  iso_seconds t +:+ "." +:+ pad 6 (t mod 1000000)%Z +:+ "+00:00".
(** [strftime('%Y-%m-%dT%H:%M:%fZ', t)] *)
Definition iso_sql (t : Instant) : string :=
  iso_seconds t +:+ "." +:+ pad 3 (t mod 1000000 / 1000)%Z +:+ "Z".

Example iso_ex : iso 1709210096789012%Z = "2024-02-29T12:34:56.789012+00:00".
Proof. vm_compute. reflexivity. Qed.

Definition jopt (o : option string) : json := match o with Some s => JStr s | None => JNull end.

(** ** Queries over a table *)
Section table.
Context `{Countable K} {A : Type}.

Definition rows (m : gmap K A) : list A := snd <$> map_to_list m.
Definition map_any (f : A → bool) (m : gmap K A) : bool := existsb f (rows m).
Definition select (f : A → bool) (m : gmap K A) : list A := List.filter f (rows m).
(** [UPDATE table SET g WHERE f] *)
Definition update_where (f : A → bool) (g : A → A) (m : gmap K A) : gmap K A :=
  (λ x, if f x then g x else x) <$> m.

Lemma elem_of_rows (m : gmap K A) x : x ∈ rows m ↔ ∃ k, m !! k = Some x.
Proof.
  unfold rows. rewrite list_elem_of_fmap. split.
  - intros ([k y] & -> & Hk%elem_of_map_to_list). eauto.
  - intros [k Hk]. exists (k, x). split; [done|]. by apply elem_of_map_to_list.
Qed.

Lemma map_any_true f (m : gmap K A) :
  map_any f m = true ↔ ∃ k x, m !! k = Some x ∧ f x = true.
Proof.
  unfold map_any. rewrite existsb_In. setoid_rewrite elem_of_rows.
  split; [intros (x & [k Hk] & Hf); eauto|intros (k & x & Hk & Hf); eauto].
Qed.

Lemma map_any_false f (m : gmap K A) :
  map_any f m = false ↔ ∀ k x, m !! k = Some x → f x = false.
Proof.
  split.
  - intros Hm k x Hk. destruct (f x) eqn:Hf; [|done].
    rewrite <- Hm. symmetry. apply map_any_true. eauto.
  - intros Hm. destruct (map_any f m) eqn:E; [|done].
    apply map_any_true in E as (k & x & Hk & Hf). by rewrite (Hm k x) in Hf.
Qed.

Lemma elem_of_select f (m : gmap K A) x :
  x ∈ select f m ↔ (∃ k, m !! k = Some x) ∧ f x = true.
Proof.
  unfold select. rewrite list_elem_of_In, filter_In, <- list_elem_of_In, elem_of_rows. done.
Qed.

Lemma lookup_update_where f g (m : gmap K A) k :
  update_where f g m !! k = (λ x, if f x then g x else x) <$> m !! k.
Proof. apply lookup_fmap. Qed.

Lemma select_empty f : select f (∅ : gmap K A) = [].
Proof. unfold select, rows. by rewrite map_to_list_empty. Qed.
(** What a new row adds to a query. *)
Lemma select_insert f (m : gmap K A) k x :
  m !! k = None → select f (<[k := x]> m) ≡ₚ (if f x then [x] else []) ++ select f m.
Proof.
  intros Hk. unfold select, rows.
  assert (∀ l l', l ≡ₚ l' → List.filter f l ≡ₚ List.filter f l') as Hp.
  { intros l l' Hl. induction Hl as [|y l l' Hl IH|y z l|l l' l'' _ IH1 _ IH2]; simpl; [done| | |by etrans].
    - destruct (f y); [by apply perm_skip|done].
    - destruct (f y), (f z); try done. apply perm_swap. }
  rewrite (Hp _ _ (fmap_Permutation snd _ _ (map_to_list_insert m k x Hk))). simpl. by destruct (f x).
Qed.
Lemma select_ext f g (m : gmap K A) :
  (∀ k x, m !! k = Some x → f x = g x) → select f m = select g m.
Proof.
  intros Hfg. unfold select, rows.
  assert (∀ kx, kx ∈ map_to_list m → f kx.2 = g kx.2) as Hl
    by (intros [k x] Hkx%elem_of_map_to_list; eauto).
  revert Hl. generalize (map_to_list m). intros l Hl. induction l as [|kx l IH]; [done|]. simpl.
  assert (List.filter f (snd <$> l) = List.filter g (snd <$> l)) as Htl
    by (apply IH; intros; apply Hl; by constructor).
  rewrite (Hl kx) by constructor. case_match; [f_equal; exact Htl|exact Htl].
Qed.
End table.

(** [SUM] *)
Definition sum {A} (f : A → Z) (l : list A) : Z := foldr (λ x s, f x + s)%Z 0%Z l.
Lemma sum_app {A} (f : A → Z) l l' : sum f (l ++ l') = (sum f l + sum f l')%Z.
Proof. induction l as [|x l IH]; simpl; [done|]. rewrite IH. lia. Qed.
#[export] Instance sum_perm {A} (f : A → Z) : Proper ((≡ₚ) ==> eq) (sum f).
Proof. intros l l' Hl. induction Hl; simpl; lia. Qed.
Lemma sum_nonneg {A} (f : A → Z) l : Forall (λ x, 0 ≤ f x)%Z l → (0 ≤ sum f l)%Z.
Proof. induction 1; simpl; lia. Qed.

Fixpoint insert_sorted {A} (le : A → A → bool) (x : A) (l : list A) : list A :=
  match l with
  | [] => [x]
  | y :: l' => if le x y then x :: l else y :: insert_sorted le x l'
  end.
(** [ORDER BY] *)
Definition order_by {A} (le : A → A → bool) (l : list A) : list A :=
  foldr (insert_sorted le) [] l.

Lemma elem_of_insert_sorted {A} le (x y : A) l : y ∈ insert_sorted le x l ↔ y = x ∨ y ∈ l.
Proof.
  induction l as [|z l IH]; simpl; [set_solver|].
  destruct (le x z); rewrite ?elem_of_cons, ?IH; [tauto|]. tauto.
Qed.

Lemma elem_of_order_by {A} le (l : list A) y : y ∈ order_by le l ↔ y ∈ l.
Proof.
  induction l as [|x l IH]; simpl; [done|]. unfold order_by in *. simpl.
  by rewrite elem_of_insert_sorted, IH, elem_of_cons.
Qed.

Lemma insert_sorted_perm {A} le (x : A) l : insert_sorted le x l ≡ₚ x :: l.
Proof.
  induction l as [|y l IH]; simpl; [done|]. destruct (le x y); [done|]. by rewrite IH, Permutation_swap.
Qed.
Lemma order_by_perm {A} le (l : list A) : order_by le l ≡ₚ l.
Proof.
  induction l as [|x l IH]; simpl; [done|]. unfold order_by in *. simpl.
  by rewrite insert_sorted_perm, IH.
Qed.

(** [LIMIT n]; a negative limit is no limit. *)
Definition limit {A} (n : Z) (l : list A) : list A :=
  if (n <? 0)%Z then l else take (Z.to_nat n) l.

Lemma limit_elem {A} n (l : list A) x : x ∈ limit n l → x ∈ l.
Proof.
  unfold limit. destruct (n <? 0)%Z; [done|]. intros Hx.
  rewrite <- (take_drop (Z.to_nat n) l). apply elem_of_app. by left.
Qed.

(** The rows that a query selects have distinct keys. *)
Lemma query_NoDup {A} (id : A → string) le n f (m : gmap string A) :
  (∀ k x, m !! k = Some x → id x = k) → NoDup (id <$> limit n (order_by le (select f m))).
Proof.
  intros Hid. assert (NoDup (id <$> select f m)) as Hsel.
  { unfold select, rows. assert (∀ kx, kx ∈ map_to_list m → id kx.2 = kx.1) as Hk
      by (intros [k x] Hkx%elem_of_map_to_list; by apply Hid).
    pose proof (NoDup_fst_map_to_list m) as Hnd. revert Hk Hnd.
    generalize (map_to_list m). intros l. induction l as [|[k x] l IH]; intros Hk Hnd; simpl; [constructor|].
    inversion Hnd as [|? ? Hnin Hnd']; subst.
    assert (NoDup (id <$> List.filter f (snd <$> l))) as Hrest by (apply IH; [|done]; set_solver).
    destruct (f x); simpl; [|done]. constructor; [|done].
    pose proof (Hk (k, x) ltac:(set_solver)) as Hkx. simpl in Hkx. rewrite Hkx. intros Hin. apply Hnin.
    apply list_elem_of_fmap in Hin as (y & Hy & Hyl).
    apply list_elem_of_In, filter_In in Hyl as [Hyl _].
    apply list_elem_of_In, list_elem_of_fmap in Hyl as ([k' y'] & -> & Hin). simpl in *.
    apply list_elem_of_fmap. exists (k', y'). simpl. split; [|done].
    rewrite Hy. apply (Hk (k', y')). set_solver. }
  assert (NoDup (id <$> order_by le (select f m))) as Hord by (by rewrite order_by_perm).
  unfold limit. destruct (n <? 0)%Z; [done|]. rewrite fmap_take.
  rewrite <- (take_drop (Z.to_nat n) (id <$> order_by le (select f m))) in Hord.
  by apply NoDup_app in Hord as [? _].
Qed.

(** ** Insertions with their constraints *)
Definition constraint (f : DB → bool) : P unit := d ← read id; ensure (f d) SqliteIntegrityError.

Definition absent `{Countable K} {A} (m : gmap K A) (k : K) : bool :=
  bool_decide (m !! k = None).
Definition present `{Countable K} {A} (m : gmap K A) (k : K) : bool := negb (absent m k).

Definition insert_principal (p : Principal) : P unit :=
  _ ← constraint (λ d, absent (principals d) (p_id p)
        && negb (map_any (λ q, bool_decide (p_key q = p_key p)) (principals d))
        && (100000 <=? p_iterations p)%Z && (0 <? p_credential_version p)%Z);
  write (set_principals <[p_id p := p]>).

Definition insert_role (id : string) (r : Role) (granted_at : Instant) : P unit :=
  _ ← constraint (λ d, absent (principal_roles d) (id, r) && present (principals d) id);
  write (set_roles <[(id, r) := granted_at]>).

Definition insert_session (s : Session) : P unit :=
  _ ← constraint (λ d, absent (sessions d) (s_id s)
        && negb (map_any (λ t, bool_decide (s_token_hash t = s_token_hash s)) (sessions d))
        && (0 <? s_credential_version s)%Z && (s_issued_at s <? s_expires_at s)%Z
        && present (principals d) (s_principal_id s));
  write (set_sessions <[s_id s := s]>).

Definition insert_event (e : Event) : P unit :=
  _ ← constraint (λ d, negb (existsb (λ f,
          bool_decide (ev_id f = ev_id e) || bool_decide (ev_hash f = ev_hash e)
          || bool_decide ((ev_aggregate_type f, ev_aggregate_id f, ev_aggregate_version f)
                          = (ev_aggregate_type e, ev_aggregate_id e, ev_aggregate_version e)))
        (events d))
        && (0 <? ev_aggregate_version e)%Z && (0 <? ev_schema_version e)%Z
        && match ev_causation_id e with
           | None => true
           | Some c => existsb (λ f, bool_decide (ev_id f = c)) (events d)
           end);
  write (set_events (λ es, es ++ [e])).

Definition insert_idempotency (project scope key : string) (r : IdemRecord) : P unit :=
  _ ← constraint (λ d, absent (idempotency d) (project, scope, key)
        && existsb (λ e, bool_decide (ev_id e = ir_event_id r)) (events d));
  write (set_idempotency <[(project, scope, key) := r]>).

Definition insert_goal (g : GoalRow) : P unit :=
  _ ← constraint (λ d, absent (goals d) (go_id g));
  write (set_goals <[go_id g := g]>).

Definition insert_run (r : RunRow) : P unit :=
  _ ← constraint (λ d, absent (runs d) (ru_id r) && present (goals d) (ru_goal_id r));
  write (set_runs <[ru_id r := r]>).

Definition insert_task (t : TaskRow) : P unit :=
  _ ← constraint (λ d, absent (tasks d) (t_id t) && present (goals d) (t_goal_id t)
        && match t_run_id t with None => true | Some r => present (runs d) r end);
  write (set_tasks <[t_id t := t]>).

Definition insert_attempt (a : Attempt) : P unit :=
  _ ← constraint (λ d, absent (attempts d) (a_id a)
        && negb (map_any (λ b, bool_decide ((a_task_id b, a_number b) = (a_task_id a, a_number a)))
                 (attempts d))
        && (0 <? a_number a)%Z && present (tasks d) (a_task_id a)
        && present (runs d) (a_run_id a));
  write (set_attempts <[a_id a := a]>).

Definition lease_ok (d : DB) (l : Lease) : bool :=
  (0 <? l_fence l)%Z && (l_issued_at l <? l_expires_at l)%Z && present (tasks d) (l_task_id l).

Definition insert_lease (l : Lease) : P unit :=
  _ ← constraint (λ d, absent (leases d) (l_resource_key l) && lease_ok d l);
  write (set_leases <[l_resource_key l := l]>).

(** [UPDATE leases SET ... WHERE resource_key = ...], which the constraints of
    the table also guard. *)
Definition replace_lease (l : Lease) : P unit :=
  _ ← constraint (λ d, lease_ok d l);
  write (set_leases <[l_resource_key l := l]>).

Definition insert_negative (n : NegativeResult) : P unit :=
  _ ← constraint (λ d, absent (negatives d) (n_id n) && (0 <? n_recurrence n)%Z
        && present (tasks d) (n_task_id n));
  write (set_negatives <[n_id n := n]>).

Definition insert_adopted_project (a : AdoptedProject) : P unit :=
  _ ← constraint (λ d, absent (adopted_projects (registry d)) (ad_project_id a)
        && (0 <? ad_version a)%Z);
  write (set_adopted_projects <[ad_project_id a := a]>).

Definition insert_adopted_program (a : AdoptedProgram) : P unit :=
  _ ← constraint (λ d, absent (adopted_programs (registry d)) (ag_program_id a)
        && (0 <? ag_version a)%Z && present (adopted_projects (registry d)) (ag_project_id a));
  write (set_adopted_programs <[ag_program_id a := a]>).

Definition insert_goal_binding (b : GoalBinding) : P unit :=
  _ ← constraint (λ d, absent (goal_bindings (registry d)) (gb_goal_id b)
        && present (goals d) (gb_goal_id b)
        && present (adopted_programs (registry d)) (gb_program_id b)
        && existsb (λ e, bool_decide (ev_id e = gb_source_event_id b)) (events d));
  write (set_goal_bindings <[gb_goal_id b := b]>).

Definition insert_task_binding (b : TaskBinding) : P unit :=
  _ ← constraint (λ d, absent (task_bindings (registry d)) (tb_task_id b)
        && (0 <=? tb_provider_budget_minor_units b)%Z && (0 <=? tb_provider_call_limit b)%Z
        && present (tasks d) (tb_task_id b)
        && present (goal_bindings (registry d)) (tb_goal_id b)
        && existsb (λ e, bool_decide (ev_id e = tb_source_event_id b)) (events d));
  write (set_task_bindings <[tb_task_id b := b]>).

(** ** Running database code *)
Lemma read_ok {A} (f : DB → A) b (w w' : World) :
  read f w = (Ok b, w') ↔ b = f (w_db w) ∧ w' = w.
Proof. unfold read. by rewrite gets_ok. Qed.

Lemma read_id_ok b (w w' : World) : read id w = (Ok b, w') ↔ b = w_db w ∧ w' = w.
Proof. apply read_ok. Qed.

Lemma write_ok f u (w w' : World) : write f w = (Ok u, w') ↔ w' = set_db f w.
Proof. unfold write. by rewrite modify_ok. Qed.

Lemma constraint_ok f u (w w' : World) :
  constraint f w = (Ok u, w') ↔ f (w_db w) = true ∧ w' = w.
Proof.
  unfold constraint. rewrite bind_ok. setoid_rewrite read_ok. setoid_rewrite ensure_ok.
  split; [intros (? & ? & [-> ->] & [? ->]); done|intros [? ->]; eauto 10].
Qed.

Lemma transaction_ok {A} (m : P A) a (w w' : World) :
  transaction m w = (Ok a, w') ↔ m w = (Ok a, w').
Proof. unfold transaction. destruct (m w) as [[]]; split; congruence. Qed.

(** An operation that raises leaves the database as it was. *)
Lemma transaction_raise {A} (m : P A) e (w w' : World) :
  transaction m w = (Raise e, w') → w_db w' = w_db w.
Proof. unfold transaction. destruct (m w) as [[]]; intros [= -> <-]. done. Qed.

Lemma absent_true `{Countable K} {A} (m : gmap K A) k : absent m k = true ↔ m !! k = None.
Proof. apply bool_decide_eq_true. Qed.
Lemma present_true `{Countable K} {A} (m : gmap K A) k : present m k = true ↔ is_Some (m !! k).
Proof.
  unfold present, absent. rewrite negb_true_iff, bool_decide_eq_false.
  apply not_eq_None_Some.
Qed.

Section draws.
Context `{ENV : Env}.

Definition tick (w : World) : World :=
  Build_World (w_db w) (S (w_ticks w)) (w_drawn w) (w_domain w).
Definition drawn (w : World) : World :=
  Build_World (w_db w) (w_ticks w) (S (w_drawn w)) (w_domain w).

Lemma utc_now_ok t w w' : utc_now w = (Ok t, w') ↔ t = clock (w_ticks w) ∧ w' = tick w.
Proof. unfold utc_now. split; [by intros [= <- <-]|by intros [-> ->]]. Qed.
Lemma sql_now_ok t w w' :
  sql_now w = (Ok t, w') ↔ t = (clock (w_ticks w) / 1000 * 1000)%Z ∧ w' = tick w.
Proof. unfold sql_now. split; [by intros [= <- <-]|by intros [-> ->]]. Qed.
Lemma new_uuid_ok i w w' : new_uuid w = (Ok i, w') ↔ i = uuid4 (w_drawn w) ∧ w' = drawn w.
Proof. unfold new_uuid. split; [by intros [= <- <-]|by intros [-> ->]]. Qed.
Lemma new_token_ok n i w w' :
  new_token n w = (Ok i, w') ↔ i = token_bytes n (w_drawn w) ∧ w' = drawn w.
Proof. unfold new_token. split; [by intros [= <- <-]|by intros [-> ->]]. Qed.
End draws.

(** [rinv] turns a successful run of database code into the facts its guards
    established and the state it reached, without unfolding anything else. *)
Ltac rinv1 :=
  match goal with
  | H : (_ ≫= _) _ = (Ok _, _) |- _ => apply bind_ok in H as (? & ? & ? & H)
  | H : (_ ≫= _) = Ok _ |- _ => apply res_bind_ok in H as (? & ? & H)
  | H : (mret _) _ = (Ok _, _) |- _ => apply mret_ok in H as [? ?]; subst
  | H : raise _ _ = (Ok _, _) |- _ => by apply raise_ok in H
  | H : gets _ _ = (Ok _, _) |- _ => apply gets_ok in H as [? ?]; subst
  | H : read id _ = (Ok _, _) |- _ => apply read_id_ok in H as [? ?]; subst
  | H : read _ _ = (Ok _, _) |- _ => apply read_ok in H as [? ?]; subst
  | H : write _ _ = (Ok _, _) |- _ => apply write_ok in H; subst
  | H : constraint _ _ = (Ok _, _) |- _ => apply constraint_ok in H as [? ?]; subst
  | H : transaction _ _ = (Ok _, _) |- _ => apply (proj1 (transaction_ok _ _ _ _)) in H
  | H : modify _ _ = (Ok _, _) |- _ => apply modify_ok in H; subst
  | H : utc_now _ = (Ok _, _) |- _ => apply utc_now_ok in H as [? ?]; subst
  | H : sql_now _ = (Ok _, _) |- _ => apply sql_now_ok in H as [? ?]; subst
  | H : new_uuid _ = (Ok _, _) |- _ => apply new_uuid_ok in H as [? ?]; subst
  | H : new_token _ _ = (Ok _, _) |- _ => apply new_token_ok in H as [? ?]; subst
  | H : ensure _ _ _ = (Ok _, _) |- _ => apply ensure_ok in H as [? ?]; subst
  | H : expect _ _ _ = (Ok _, _) |- _ => apply expect_ok in H as [? ?]; subst
  | H : lift_res _ _ = (Ok _, _) |- _ => apply lift_res_ok in H as [? ?]; subst
  | H : require _ _ = Ok _ |- _ => apply require_ok in H
  | H : of_option _ _ = Ok _ |- _ => apply of_option_ok in H
  | H : (Ok _, _) = (Ok _, _) |- _ => injection H as ? ?; subst
  | H : (Raise _, _) = (Ok _, _) |- _ => discriminate H
  | H : Ok _ = Ok _ |- _ => injection H as ?; subst
  | H : Raise _ = Ok _ |- _ => discriminate H
  end.
Ltac rinv := repeat rinv1.

(** ** A concrete environment

    The environment in which the witnesses of the development run: a hash
    with the shape of SHA-256 output, numbered identifiers and a clock
    that advances by one millisecond per reading. *)
Module Toy.
(** The hash keeps 64 hexadecimal digits in a queue, [front] and the reversal of
    [back].  Each half of a byte is combined with the oldest digit, turned by one
    bit, and with the newest one; the bits are passed on as constants. *)
Record nibble := Nibble { nb_0 : bool; nb_1 : bool; nb_2 : bool; nb_3 : bool }.

Definition xor3 {R} (a b c : bool) (k : bool → R) : R :=
  if a then if b then if c then k true else k false else if c then k false else k true
  else if b then if c then k false else k true else if c then k true else k false.

Definition mix {R} (x p n : nibble) (k : nibble → R) : R :=
  match x, p, n with
  | Nibble x0 x1 x2 x3, Nibble p0 p1 p2 p3, Nibble n0 n1 n2 n3 =>
    xor3 x1 p0 n0 (λ b0, xor3 x2 p1 n1 (λ b1, xor3 x3 p2 n2 (λ b2, xor3 x0 p3 n3 (λ b3, k (Nibble b0 b1 b2 b3)))))
  end.

Fixpoint absorb (l : list Ascii.ascii) (newest : nibble) (front back : list nibble) : list nibble :=
  match l with
  | [] => front ++ rev back
  | Ascii.Ascii c0 c1 c2 c3 c4 c5 c6 c7 :: l =>
    let go x y front back :=
      mix x newest (Nibble c0 c1 c2 c3) (λ x, mix y x (Nibble c4 c5 c6 c7) (λ y, absorb l y front (y :: x :: back))) in
    match front with
    | x :: y :: front => go x y front back
    | _ => match rev' back with
           | x :: y :: front => go x y front []
           | _ => []
           end
    end
  end.

Definition hex_of (n : nibble) : Ascii.ascii :=
  match n with
  | Nibble a b c false => Ascii.Ascii a b c false true true false false
  | Nibble a false false true => Ascii.Ascii a false false true true true false false
  | Nibble a true false true => Ascii.Ascii (negb a) a false false false true true false
  | Nibble a false true true => Ascii.Ascii (negb a) (negb a) a false false true true false
  | Nibble a true true true => Ascii.Ascii (negb a) a true false false true true false
  end.

Definition zeros : list nibble := repeat (Nibble false false false false) 64.
Definition sha (s : string) : string :=
  of_chars (hex_of <$> take 64 (absorb (chars s) (Nibble true true true false) zeros [] ++ zeros)).

Lemma hex_of_hex n : is_hex_lower (hex_of n) = true.
Proof. by destruct n as [[] [] [] []]. Qed.

Lemma sha_hex s : sha256_hex (sha s) = true.
Proof.
  unfold sha, sha256_hex. apply andb_true_iff. split.
  - apply Nat.eqb_eq.
    assert (∀ l, String.length (of_chars l) = length l) as -> by (intros l; induction l; simpl; congruence).
    rewrite length_fmap, length_take, length_app. unfold zeros at 2. rewrite repeat_length. lia.
  - rewrite chars_of_chars. apply forallb_In. intros c Hc.
    apply list_elem_of_fmap in Hc as (n & -> & _). apply hex_of_hex.
Qed.

#[export] Instance env : Env := {|
  sha256 := sha;
  pbkdf2 := λ secret salt n, sha (secret +:+ "/" +:+ salt);
  clock := λ n, (1700000000000000 + 1000 * Z.of_nat n)%Z;
  uuid4 := λ n, "uuid-" +:+ pretty n;
  token_bytes := λ k n, "token-" +:+ pretty n;
  nfkc := λ s, s;
  str_lower := lower;
  has_control := λ s, existsb (λ c, (code c <? 32)%Z) (chars s);
  bracketed_host := λ _, false;
  float_repr := λ f, match f with
    | SpecFloat.S754_finite neg m e => (if neg then "-" else "") +:+ pretty (Zpos m) +:+ "p" +:+ pretty e
    | SpecFloat.S754_zero neg => if neg then "-0.0" else "0.0"
    | _ => ""
    end |}.

(** Times that the databases of the witnesses use. *)
Definition past : Instant := 1600000000000000%Z.
Definition future : Instant := 1800000000000000%Z.

Definition world (d : DB) (dom : Domain) : World := Build_World d 0 0 dom.
Definition no_domain : Domain := Build_Domain ∅ ∅ ∅ ∅.
End Toy.

(** A run that succeeds, for witnesses: evaluate the outcome, not the world. *)
Lemma run_succeeds {A} (m : P A) w : is_ok (m w).1 = true → ∃ a w', m w = (Ok a, w').
Proof. destruct (m w) as [[a|x] w']; [eauto|done]. Qed.

(** What evaluating a run shows of the result it was given. *)
Lemma run_shows {A} (m : P A) w (f : A → World → bool) a w' :
  match m w with (Ok a, w') => f a w' | _ => false end = true → m w = (Ok a, w') → f a w' = true.
Proof. intros Hf Hm. by rewrite Hm in Hf. Qed.

(** Close [b = true] by evaluating [b]. *)
Ltac by_eval := vm_cast_no_check (@eq_refl bool true).

(** ** Invariants of database code

    [keeps I m]: whatever [m] does, success or exception, a database that
    satisfies [I] is left satisfying [I]. *)
Definition keeps {A} (I : DB → Prop) (m : P A) : Prop :=
  ∀ w r w', m w = (r, w') → I (w_db w) → I (w_db w').

Section keeps.
Context (I : DB → Prop).

Lemma keeps_bind {A B} (m : P A) (k : A → P B) :
  keeps I m → (∀ a, keeps I (k a)) → keeps I (m ≫= k).
Proof.
  intros Hm Hk w r w' Hrun Hi. unfold mbind, M_bind in Hrun.
  destruct (m w) as [[a|e] w1] eqn:Hmw.
  - by eapply Hk; [|eapply Hm].
  - injection Hrun as <- <-. by eapply Hm.
Qed.

Lemma keeps_same {A} (m : P A) : (∀ w, w_db (m w).2 = w_db w) → keeps I m.
Proof. intros Hm w r w' Hrun Hi. specialize (Hm w). rewrite Hrun in Hm. simpl in Hm. by rewrite Hm. Qed.

Lemma keeps_ret {A} (a : A) : keeps I (mret a).
Proof. by apply keeps_same. Qed.
Lemma keeps_raise {A} e : keeps I (raise e : P A).
Proof. by apply keeps_same. Qed.
Lemma keeps_read {A} (f : DB → A) : keeps I (read f).
Proof. by apply keeps_same. Qed.
Lemma keeps_gets {A} (f : World → A) : keeps I (gets f).
Proof. by apply keeps_same. Qed.
Lemma keeps_ensure b e : keeps I (ensure b e).
Proof. apply keeps_same. intros w. by destruct b. Qed.
Lemma keeps_expect {A} (o : option A) e : keeps I (expect o e).
Proof. by apply keeps_same. Qed.
Lemma keeps_lift {A} (r : res A) : keeps I (lift_res r).
Proof. by apply keeps_same. Qed.
Lemma keeps_constraint f : keeps I (constraint f).
Proof. unfold constraint. apply keeps_bind; [apply keeps_read|intros; apply keeps_ensure]. Qed.
Lemma keeps_write f : (∀ d, I d → I (f d)) → keeps I (write f).
Proof. intros Hf w r w' [= <- <-] Hi. by apply Hf. Qed.
Lemma keeps_transaction {A} (m : P A) : keeps I m → keeps I (transaction m).
Proof.
  intros Hm w r w' Hrun Hi. unfold transaction in Hrun.
  destruct (m w) as [[a|e] w1] eqn:Hmw; injection Hrun as <- <-; [by eapply Hm|done].
Qed.
Lemma keeps_forM {A} (l : list A) f : (∀ x, keeps I (f x)) → keeps I (forM l f).
Proof.
  intros Hf. induction l as [|x l IH]; simpl; [apply keeps_ret|].
  apply keeps_bind; [apply Hf|intros; apply IH].
Qed.
Lemma keeps_if {A} (b : bool) (m n : P A) : keeps I m → keeps I n → keeps I (if b then m else n).
Proof. by destruct b. Qed.
Lemma keeps_constraint_write c f :
  (∀ d, c d = true → I d → I (f d)) → keeps I (_ ← constraint c; write f).
Proof.
  intros Hf w r w' Hrun Hi. unfold mbind, M_bind, constraint, read, gets, ensure in Hrun.
  simpl in Hrun. unfold mbind, M_bind in Hrun. simpl in Hrun.
  destruct (c (w_db w)) eqn:Hc; injection Hrun as <- <-; [by apply Hf|done].
Qed.

Context `{ENV : Env}.
Lemma keeps_utc_now : keeps I utc_now.
Proof. by apply keeps_same. Qed.
Lemma keeps_sql_now : keeps I sql_now.
Proof. by apply keeps_same. Qed.
Lemma keeps_new_uuid : keeps I new_uuid.
Proof. by apply keeps_same. Qed.
Lemma keeps_new_token n : keeps I (new_token n).
Proof. by apply keeps_same. Qed.
End keeps.

Create HintDb keeps.
#[export] Hint Resolve keeps_ret keeps_raise keeps_read keeps_gets keeps_ensure keeps_expect
  keeps_lift keeps_constraint keeps_utc_now keeps_sql_now keeps_new_uuid keeps_new_token : keeps.

(** Walk through a handler; what remains are its writes. *)
Ltac keeps_walk :=
  repeat first
    [ progress intros
    | match goal with
      | |- keeps _ (let _ := _ in _) => progress cbv zeta
      | |- keeps _ (_ ≫= _) => apply keeps_bind
      | |- keeps _ (transaction _) => apply keeps_transaction
      | |- keeps _ (forM _ _) => apply keeps_forM
      | |- keeps _ (if _ then _ else _) => apply keeps_if
      | |- keeps _ (match ?x with _ => _ end) => destruct x
      end
    | solve [eauto 2 with keeps] ].

(** What keeps every invariant has changed no table; [same_db] says so of every
    such call among the hypotheses. *)
Lemma reads_only {A} (m : P A) w r w' : (∀ I, keeps I m) → m w = (r, w') → w_db w' = w_db w.
Proof. intros Hm Hrun. by apply (Hm (λ d, d = w_db w) w r w' Hrun). Qed.
Ltac same_db := repeat match goal with
  | H : ?m ?w = (_, ?w1) |- _ =>
    lazymatch goal with
    | _ : w_db w1 = w_db w |- _ => fail
    | _ => assert (w_db w1 = w_db w) by (apply (reads_only m w _ w1 ltac:(intros; solve [keeps_walk]) H))
    end
  end.

(** ** Atomicity

    [atomic m]: when [m] raises, the database is as it was before. *)
Definition atomic {A} (m : P A) : Prop :=
  ∀ w e w', m w = (Raise e, w') → w_db w' = w_db w.

(** Code that touches no table. *)
Definition pure_db {A} (m : P A) : Prop := ∀ w, w_db (m w).2 = w_db w.

Lemma atomic_transaction {A} (m : P A) : atomic (transaction m).
Proof. intros w e w'. apply transaction_raise. Qed.
Lemma atomic_pure {A} (m : P A) : pure_db m → atomic m.
Proof. intros Hm w e w' Hrun. specialize (Hm w). by rewrite Hrun in Hm. Qed.
Lemma atomic_bind {A B} (m : P A) (k : A → P B) :
  pure_db m → (∀ a, atomic (k a)) → atomic (m ≫= k).
Proof.
  intros Hm Hk w e w' Hrun. specialize (Hm w). unfold mbind, M_bind in Hrun.
  destruct (m w) as [[a|e'] w1]; simpl in Hm; rewrite <- Hm.
  - by eapply Hk.
  - by injection Hrun as -> ->.
Qed.
(** What follows a transaction in a handler cannot raise. *)
Lemma atomic_then {A B} (m : P A) (f : A → B) : atomic m → atomic (a ← m; mret (f a)).
Proof.
  intros Hm w e w' Hrun. unfold mbind, M_bind, mret, M_ret in Hrun.
  destruct (m w) as [[a|e'] w1] eqn:Hmw; [done|]. injection Hrun as -> ->. by eapply Hm.
Qed.

Lemma pure_transaction {A} (m : P A) : pure_db m → pure_db (transaction m).
Proof. intros Hm w. specialize (Hm w). unfold transaction. by destruct (m w) as [[]]. Qed.
Lemma pure_bind {A B} (m : P A) (k : A → P B) : pure_db m → (∀ a, pure_db (k a)) → pure_db (m ≫= k).
Proof.
  intros Hm Hk w. specialize (Hm w). unfold mbind, M_bind. destruct (m w) as [[a|e] w1]; [|done].
  rewrite Hk. done.
Qed.
Lemma pure_ensure b e : pure_db (ensure b e).
Proof. intros w. by destruct b. Qed.

Lemma atomic_then_total {A B} (m : P A) (k : A → P B) :
  atomic m → (∀ a w, ∃ b w', k a w = (Ok b, w')) → atomic (m ≫= k).
Proof.
  intros Hm Hk w e w' Hrun. unfold mbind, M_bind in Hrun.
  destruct (m w) as [[a|e'] w1] eqn:Hmw.
  - destruct (Hk a w1) as (b & w2 & Hb). by rewrite Hb in Hrun.
  - injection Hrun as -> ->. by eapply Hm.
Qed.

Lemma keeps_of_atomic {A} I (m : P A) :
  atomic m → (∀ w a w', m w = (Ok a, w') → I (w_db w) → I (w_db w')) → keeps I m.
Proof. intros Ha Hm w [a|e] w' Hrun Hi; [by eapply Hm|]. by rewrite (Ha _ _ _ Hrun). Qed.

#[export] Hint Resolve atomic_transaction : keeps.
(** What only reads the tables. *)
Create HintDb pure.
#[export] Hint Resolve pure_ensure : pure.

Ltac atomic_walk :=
  repeat first
    [ progress intros
    | match goal with
      | |- atomic (let _ := _ in _) => progress cbv zeta
      | |- atomic (transaction _) => apply atomic_transaction
      | |- atomic (_ ≫= _) => apply atomic_bind; [first [by intros ?|solve [auto with pure]]|]
      | |- atomic (match ?x with _ => _ end) => destruct x
      end ].

(** ** Postconditions

    [post I m Q]: a run of [m] that returns [a] from a database in [I] leaves a
    database in [Q a].  What an exception leaves is the business of [atomic]. *)
Definition post {A} (I : DB → Prop) (m : P A) (Q : A → DB → Prop) : Prop :=
  ∀ w a w', m w = (Ok a, w') → I (w_db w) → Q a (w_db w').

Lemma post_bind {A B} I (m : P A) R (k : A → P B) Q :
  post I m R → (∀ a, post (R a) (k a) Q) → post I (m ≫= k) Q.
Proof.
  intros Hm Hk w b w' Hrun Hi. apply bind_ok in Hrun as (a & w1 & Ha & Hb).
  eapply Hk; [exact Hb|]. by eapply Hm.
Qed.
Lemma post_keeps {A} I (m : P A) : keeps I m → post I m (λ _, I).
Proof. intros Hm w a w' Hrun. by eapply Hm. Qed.
Lemma post_weaken {A} (I J : DB → Prop) (m : P A) (Q R : A → DB → Prop) :
  post J m R → (∀ d, I d → J d) → (∀ a d, R a d → Q a d) → post I m Q.
Proof. intros Hm HI HQ w a w' Hrun Hi. eapply HQ, Hm; [exact Hrun|]. by apply HI. Qed.
(** A prefix that keeps the precondition. *)
Lemma post_seq {A B} I (m : P A) (k : A → P B) Q :
  keeps I m → (∀ a, post I (k a) Q) → post I (m ≫= k) Q.
Proof. intros Hm Hk. eapply post_bind; [by apply post_keeps|done]. Qed.
(** A suffix that keeps the postcondition. *)
Lemma post_then {A B} I (m : P A) (k : A → P B) (J : DB → Prop) :
  post I m (λ _, J) → (∀ a, keeps J (k a)) → post I (m ≫= k) (λ _, J).
Proof. intros Hm Hk. eapply post_bind; [done|]. intros a. by apply post_keeps. Qed.
Lemma post_ret {A} I (a : A) (Q : A → DB → Prop) : (∀ d, I d → Q a d) → post I (mret a) Q.
Proof. intros HQ w b w' Hrun Hi. rinv. by apply HQ. Qed.
Lemma post_transaction {A} I (m : P A) Q : post I m Q → post I (transaction m) Q.
Proof. intros Hm w a w' Hrun Hi. apply (proj1 (transaction_ok _ _ _ _)) in Hrun. exact (Hm w a w' Hrun Hi). Qed.
(** What was read is known of the database. *)
Lemma post_read {A B} I (f : DB → A) (k : A → P B) Q :
  (∀ x, post (λ d, I d ∧ x = f d) (k x) Q) → post I (read f ≫= k) Q.
Proof. intros Hk. eapply post_bind; [|exact Hk]. intros w a w' Hrun Hi. apply read_ok in Hrun as [-> ->]. by split. Qed.
(** A guard that passed is a fact. *)
Lemma post_fact {A B} I (m : P A) (F : A → Prop) (k : A → P B) Q :
  keeps I m → (∀ w a w', m w = (Ok a, w') → F a) → (∀ a, F a → post I (k a) Q) → post I (m ≫= k) Q.
Proof.
  intros Hm HF Hk w b w' Hrun Hi. apply bind_ok in Hrun as (a & w1 & Ha & Hb).
  eapply Hk; [by eapply HF|exact Hb|]. by eapply Hm.
Qed.
Lemma post_pre {A} (F : Prop) (I : DB → Prop) (m : P A) Q :
  (F → post I m Q) → post (λ d, I d ∧ F) m Q.
Proof. intros Hm w a w' Hrun [Hi HF]. by eapply (Hm HF). Qed.
Lemma post_if {A} I (b : bool) (m n : P A) Q : post I m Q → post I n Q → post I (if b then m else n) Q.
Proof. by destruct b. Qed.

(** An operation that raises changes nothing: its postcondition is enough. *)
Lemma keeps_of_post {A} I (m : P A) : atomic m → post I m (λ _, I) → keeps I m.
Proof. intros Ha Hm. apply keeps_of_atomic; [done|]. intros w a w' Hrun. by eapply Hm. Qed.
Lemma keeps_pure {A} I (m : P A) : pure_db m → keeps I m.
Proof. apply keeps_same. Qed.

Lemma post_constraint {B} I c (k : unit → P B) Q :
  post (λ d, I d ∧ c d = true) (k tt) Q → post I (constraint c ≫= k) Q.
Proof.
  intros Hk w b w' Hrun Hi. apply bind_ok in Hrun as ([] & w1 & [Hc ->]%constraint_ok & Hrun).
  by eapply Hk.
Qed.
Lemma post_guard {B} I b e (k : unit → P B) Q :
  (b = true → post I (k tt) Q) → post I (ensure b e ≫= k) Q.
Proof.
  intros Hk w x w' Hrun Hi. apply bind_ok in Hrun as ([] & w1 & [Hb ->]%ensure_ok & Hrun).
  by eapply Hk.
Qed.
Lemma post_expect {A B} I (o : option A) e (k : A → P B) Q :
  (∀ a, o = Some a → post I (k a) Q) → post I (expect o e ≫= k) Q.
Proof.
  intros Hk w x w' Hrun Hi. apply bind_ok in Hrun as (a & w1 & [Ha ->]%expect_ok & Hrun).
  by eapply Hk.
Qed.
Lemma post_lift {A B} I (r : res A) (k : A → P B) Q :
  (∀ a, r = Ok a → post I (k a) Q) → post I (lift_res r ≫= k) Q.
Proof.
  intros Hk w x w' Hrun Hi. apply bind_ok in Hrun as (a & w1 & [Ha ->]%lift_res_ok & Hrun).
  by eapply Hk.
Qed.
