(* ===== verification/Authority.v ===== *)
(** * Project, program, goal and task authority ([authority.py], [authority_compiler.py])

    The versioned authority spine: a project bounds its programs, a program its
    goals, a goal its tasks.  Each level names the exact version of its parents
    by a reference with a digest.  This file has the contracts with their
    parsers, the comparison of bounds, the check of a program graph and the
    validation of goal and task authorities; the compilers from authoring
    packets are in [Compiler].  The theorems show that authority only narrows on
    the way down, that an accepted graph has no cycle and that checking it
    always ends, and that parsing a serialised contract gives it back. *)

From Stdlib Require Import Ascii.
From S2P Require Import Prelude PyStr Json Enums Contracts Scope Db.

Local Open Scope string_scope.

(** ** Field parsers *)
Definition _text (j : json) : res string :=
  match j with
  | JStr s =>
    _ ← require (negb (blank s) && bool_decide (s = strip s)) ContractError;
    Ok s
  | _ => Raise ContractError
  end.

Definition _positive_int (j : json) : res Z := int_in 1 None j.
Definition _non_negative_int (j : json) : res Z := int_in 0 None j.

Definition _strings (j : json) : res (list string) :=
  match j with
  | JList l =>
    result ← mapR _text l;
    _ ← require (no_dups result) ContractError;
    Ok result
  | _ => Raise ContractError
  end.

(** [raw.upper()] of a trimmed text, three ASCII letters. *)
Definition three_letters (s : string) : bool :=
  (String.length s =? 3)%nat && forallb is_alpha (chars s).
Definition _currency (j : json) : res string :=
  s ← _text j;
  let currency := upper s in
  _ ← require (three_letters currency) ContractError;
  Ok currency.

Definition json_is (j : json) (s : string) : bool :=
  match j with JStr t => bool_decide (t = s) | _ => false end.

(** ** [ProgramState] *)
Inductive ProgramState := PS_COMPILED | PS_ACTIVE | PS_DELIVERED | PS_CANCELED | PS_RETIRED.
#[export] Instance ProgramState_eq_dec : EqDecision ProgramState.
Proof. solve_decision. Defined.

Definition programState_value (x : ProgramState) : string :=
  match x with
  | PS_COMPILED => "compiled" | PS_ACTIVE => "active" | PS_DELIVERED => "delivered"
  | PS_CANCELED => "canceled" | PS_RETIRED => "retired"
  end.
Definition programState_all : list ProgramState :=
  [PS_COMPILED; PS_ACTIVE; PS_DELIVERED; PS_CANCELED; PS_RETIRED].
#[export] Instance ProgramState_enum : StrEnum ProgramState :=
  {| value := programState_value; members := programState_all |}.
#[export] Instance ProgramState_enum_laws : StrEnumLaws ProgramState.
Proof. split; [by intros []; vm_compute; repeat constructor|by intros [] []]. Qed.

Definition terminal (s : ProgramState) : bool := memb s [PS_DELIVERED; PS_CANCELED; PS_RETIRED].

(** ** References *)
Record AuthorityRef := {
  ar_kind : string; ar_object_id : string; ar_version : Z; ar_digest : string }.
#[export] Instance AuthorityRef_eq_dec : EqDecision AuthorityRef.
Proof. solve_decision. Defined.

Definition ref_keys : list string := ["kind"; "object_id"; "version"; "digest"].

Definition AuthorityRef_from_dict (data : dict) : res AuthorityRef :=
  _ ← _strict_keys data ref_keys ref_keys;
  kind ← dindex data "kind" ≫= _text;
  _ ← require (memb kind ["project"; "program"; "goal"]) ContractError;
  digest ← dindex data "digest" ≫= _text;
  _ ← require (sha256_hex digest) ContractError;
  object_id ← dindex data "object_id" ≫= _text;
  version ← dindex data "version" ≫= _positive_int;
  Ok {| ar_kind := kind; ar_object_id := object_id; ar_version := version; ar_digest := digest |}.

Definition AuthorityRef_to_dict (r : AuthorityRef) : dict :=
  [("kind", JStr (ar_kind r)); ("object_id", JStr (ar_object_id r));
   ("version", JInt (ar_version r)); ("digest", JStr (ar_digest r))].

Definition jref (r : AuthorityRef) : json := JObj (AuthorityRef_to_dict r).

(** ** Bounds *)
Record AuthorityBounds := {
  ab_capabilities : list Capability;
  ab_read_scope : list string;
  ab_write_scope : list string;
  ab_forbidden_scope : list string;
  ab_required_runtime_surfaces : list RuntimeSurfaceSpec;
  ab_provider_budget_minor_units : Z;
  ab_provider_call_limit : Z;
  ab_budget_currency : string;
  ab_evaluator_required : bool;
  ab_required_decision_gates : list string }.
#[export] Instance AuthorityBounds_eq_dec : EqDecision AuthorityBounds.
Proof. solve_decision. Defined.

Definition bounds_scopes (b : AuthorityBounds) : list string :=
  (ab_read_scope b ++ ab_write_scope b)%list.

Definition validate_bounds (bounds : AuthorityBounds) : res unit :=
  _ ← require (three_letters (ab_budget_currency bounds)
        && bool_decide (ab_budget_currency bounds = upper (ab_budget_currency bounds))) ContractError;
  _ ← _non_negative_int (JInt (ab_provider_budget_minor_units bounds));
  _ ← _non_negative_int (JInt (ab_provider_call_limit bounds));
  _ ← mapR normalize_scope (bounds_scopes bounds ++ ab_forbidden_scope bounds)%list;
  _ ← _reject_forbidden (bounds_scopes bounds) (ab_forbidden_scope bounds);
  require (negb (memb C_PROVIDER_COST (ab_capabilities bounds)
    && (ab_provider_call_limit bounds <? 1)%Z)) ContractError.

Definition bounds_keys : list string :=
  ["capabilities"; "read_scope"; "write_scope"; "forbidden_scope";
   "required_runtime_surfaces"; "provider_budget_minor_units"; "provider_call_limit";
   "budget_currency"; "evaluator_required"; "required_decision_gates"].

(** [isinstance(value, list)] *)
Definition list_items (j : json) : res (list json) :=
  match j with JList l => Ok l | _ => Raise ContractError end.

Definition AuthorityBounds_from_dict (data : dict) : res AuthorityBounds :=
  _ ← _strict_keys data bounds_keys bounds_keys;
  raw_capabilities ← dindex data "capabilities" ≫= list_items;
  capabilities ← reraise [PyValueError] (mapR of_json raw_capabilities);
  _ ← require (no_dups (capabilities : list Capability)) ContractError;
  surfaces ← dindex data "required_runtime_surfaces" ≫= _runtime_surfaces;
  evaluator_required ← dindex data "evaluator_required" ≫= bool_of;
  currency ← dindex data "budget_currency" ≫= _currency;
  read_scope ← dindex data "read_scope" ≫= _strings;
  write_scope ← dindex data "write_scope" ≫= _strings;
  forbidden_scope ← dindex data "forbidden_scope" ≫= _strings;
  budget ← dindex data "provider_budget_minor_units" ≫= _non_negative_int;
  calls ← dindex data "provider_call_limit" ≫= _non_negative_int;
  gates ← dindex data "required_decision_gates" ≫= _strings;
  let result :=
    {| ab_capabilities := capabilities; ab_read_scope := read_scope;
       ab_write_scope := write_scope; ab_forbidden_scope := forbidden_scope;
       ab_required_runtime_surfaces := surfaces; ab_provider_budget_minor_units := budget;
       ab_provider_call_limit := calls; ab_budget_currency := currency;
       ab_evaluator_required := evaluator_required; ab_required_decision_gates := gates |} in
  _ ← validate_bounds result;
  Ok result.

Definition AuthorityBounds_to_dict (b : AuthorityBounds) : dict :=
  [("capabilities", jvalues (ab_capabilities b));
   ("read_scope", jstrs (ab_read_scope b));
   ("write_scope", jstrs (ab_write_scope b));
   ("forbidden_scope", jstrs (ab_forbidden_scope b));
   ("required_runtime_surfaces", jsurfaces (ab_required_runtime_surfaces b));
   ("provider_budget_minor_units", JInt (ab_provider_budget_minor_units b));
   ("provider_call_limit", JInt (ab_provider_call_limit b));
   ("budget_currency", JStr (ab_budget_currency b));
   ("evaluator_required", JBool (ab_evaluator_required b));
   ("required_decision_gates", jstrs (ab_required_decision_gates b))].

Definition validate_child_bounds (parent child : AuthorityBounds) : res unit :=
  _ ← validate_bounds parent;
  _ ← validate_bounds child;
  _ ← require (forallb (λ c, memb c (ab_capabilities parent)) (ab_capabilities child)) ContractError;
  reads ← mapR (scope_allowed (ab_read_scope parent)) (ab_read_scope child);
  _ ← require (forallb id reads) ContractError;
  writes ← mapR (scope_allowed (ab_write_scope parent)) (ab_write_scope child);
  _ ← require (forallb id writes) ContractError;
  _ ← _reject_forbidden (bounds_scopes child) (ab_forbidden_scope parent);
  let parent_surfaces := surface_for (ab_required_runtime_surfaces parent) in
  let child_surfaces := surface_for (ab_required_runtime_surfaces child) in
  _ ← require (forallb (λ s, bool_decide (parent_surfaces (rs_surface_key s) = Some s))
        (ab_required_runtime_surfaces child)) ContractError;
  _ ← require (forallb (λ k, bool_decide (child_surfaces k = parent_surfaces k))
        (rs_surface_key <$> ab_required_runtime_surfaces parent)) ContractError;
  _ ← require (bool_decide (ab_budget_currency child = ab_budget_currency parent)) ContractError;
  _ ← require (ab_provider_budget_minor_units child <=? ab_provider_budget_minor_units parent)%Z
        ContractError;
  _ ← require (ab_provider_call_limit child <=? ab_provider_call_limit parent)%Z ContractError;
  _ ← require (negb (ab_evaluator_required parent && negb (ab_evaluator_required child)))
        ContractError;
  require (forallb (λ g, memb g (ab_required_decision_gates child))
    (ab_required_decision_gates parent)) ContractError.

(** [data["schema_version"] != "..."] *)
Definition schema_is (data : dict) (version : string) : res unit :=
  v ← dindex data "schema_version";
  require (json_is v version) ContractError.

Definition ref_of_kind (kind : string) (d : dict) : res AuthorityRef :=
  r ← AuthorityRef_from_dict d;
  _ ← require (bool_decide (ar_kind r = kind)) ContractError;
  Ok r.

(** ** Projects *)
Record ProjectSpec := {
  pj_project_id : string; pj_version : Z; pj_target_outcome : string;
  pj_authority : AuthorityBounds; pj_schema_version : string }.
#[export] Instance ProjectSpec_eq_dec : EqDecision ProjectSpec.
Proof. solve_decision. Defined.

Definition project_schema : string := "companyos.project-spec.v1".
Definition project_keys : list string :=
  ["schema_version"; "project_id"; "version"; "target_outcome"; "authority"].

Definition ProjectSpec_from_dict (data : dict) : res ProjectSpec :=
  _ ← _strict_keys data project_keys project_keys;
  _ ← schema_is data project_schema;
  authority ← dindex data "authority" ≫= mapping;
  project_id ← dindex data "project_id" ≫= _text;
  version ← dindex data "version" ≫= _positive_int;
  target_outcome ← dindex data "target_outcome" ≫= _text;
  bounds ← AuthorityBounds_from_dict authority;
  Ok {| pj_project_id := project_id; pj_version := version; pj_target_outcome := target_outcome;
        pj_authority := bounds; pj_schema_version := project_schema |}.

Definition ProjectSpec_to_dict (p : ProjectSpec) : dict :=
  [("schema_version", JStr (pj_schema_version p));
   ("project_id", JStr (pj_project_id p));
   ("version", JInt (pj_version p));
   ("target_outcome", JStr (pj_target_outcome p));
   ("authority", JObj (AuthorityBounds_to_dict (pj_authority p)))].

(** ** Programs *)
Record ProgramSpec := {
  pg_program_id : string; pg_version : Z; pg_project_ref : AuthorityRef;
  pg_objective : string; pg_state : ProgramState; pg_dependency_refs : list AuthorityRef;
  pg_wave : Z; pg_authority : AuthorityBounds; pg_schema_version : string }.
#[export] Instance ProgramSpec_eq_dec : EqDecision ProgramSpec.
Proof. solve_decision. Defined.

Definition program_schema : string := "companyos.program-spec.v1".
Definition program_keys : list string :=
  ["schema_version"; "program_id"; "version"; "project_ref"; "objective"; "state";
   "dependency_refs"; "wave"; "authority"].

Definition ProgramSpec_from_dict (data : dict) : res ProgramSpec :=
  _ ← _strict_keys data program_keys program_keys;
  _ ← schema_is data program_schema;
  project_dict ← dindex data "project_ref" ≫= mapping;
  dependency_dicts ← (dindex data "dependency_refs" ≫= list_items) ≫= mapR mapping;
  authority ← dindex data "authority" ≫= mapping;
  project_ref ← ref_of_kind "project" project_dict;
  dependencies ← mapR (ref_of_kind "program") dependency_dicts;
  _ ← require (no_dups dependencies) ContractError;
  state ← reraise [PyValueError] (dindex data "state" ≫= of_json);
  wave ← dindex data "wave" ≫= _non_negative_int;
  program_id ← dindex data "program_id" ≫= _text;
  _ ← require (negb (memb program_id (ar_object_id <$> dependencies))) ContractError;
  version ← dindex data "version" ≫= _positive_int;
  objective ← dindex data "objective" ≫= _text;
  bounds ← AuthorityBounds_from_dict authority;
  Ok {| pg_program_id := program_id; pg_version := version; pg_project_ref := project_ref;
        pg_objective := objective; pg_state := state; pg_dependency_refs := dependencies;
        pg_wave := wave; pg_authority := bounds; pg_schema_version := program_schema |}.

Definition ProgramSpec_to_dict (p : ProgramSpec) : dict :=
  [("schema_version", JStr (pg_schema_version p));
   ("program_id", JStr (pg_program_id p));
   ("version", JInt (pg_version p));
   ("project_ref", jref (pg_project_ref p));
   ("objective", JStr (pg_objective p));
   ("state", JStr (value (pg_state p)));
   ("dependency_refs", JList (jref <$> pg_dependency_refs p));
   ("wave", JInt (pg_wave p));
   ("authority", JObj (AuthorityBounds_to_dict (pg_authority p)))].

(** ** Goal authorities *)
Record CompiledGoalAuthority := {
  cg_version : Z; cg_project_ref : AuthorityRef; cg_program_ref : AuthorityRef;
  cg_required_decision_gates : list string; cg_goal_spec : GoalSpec;
  cg_schema_version : string }.
#[export] Instance CompiledGoalAuthority_eq_dec : EqDecision CompiledGoalAuthority.
Proof. solve_decision. Defined.

Definition goal_authority_schema : string := "companyos.compiled-goal-authority.v1".
Definition goal_authority_keys : list string :=
  ["schema_version"; "version"; "project_ref"; "program_ref"; "required_decision_gates";
   "goal_spec"].

Definition CompiledGoalAuthority_from_dict (data : dict) : res CompiledGoalAuthority :=
  _ ← _strict_keys data goal_authority_keys goal_authority_keys;
  _ ← schema_is data goal_authority_schema;
  project_dict ← dindex data "project_ref" ≫= mapping;
  program_dict ← dindex data "program_ref" ≫= mapping;
  goal_dict ← dindex data "goal_spec" ≫= mapping;
  project_ref ← ref_of_kind "project" project_dict;
  program_ref ← ref_of_kind "program" program_dict;
  version ← dindex data "version" ≫= _positive_int;
  gates ← dindex data "required_decision_gates" ≫= _strings;
  goal_spec ← GoalSpec_from_dict goal_dict;
  Ok {| cg_version := version; cg_project_ref := project_ref; cg_program_ref := program_ref;
        cg_required_decision_gates := gates; cg_goal_spec := goal_spec;
        cg_schema_version := goal_authority_schema |}.

Definition CompiledGoalAuthority_to_dict (a : CompiledGoalAuthority) : dict :=
  [("schema_version", JStr (cg_schema_version a));
   ("version", JInt (cg_version a));
   ("project_ref", jref (cg_project_ref a));
   ("program_ref", jref (cg_program_ref a));
   ("required_decision_gates", jstrs (cg_required_decision_gates a));
   ("goal_spec", JObj (GoalSpec_to_dict (cg_goal_spec a)))].

(** ** Decision gates *)
Record DecisionGateContract := {
  dg_gate_id : string; dg_capability : Capability; dg_action : string;
  dg_resource : string; dg_request_digest : string }.
#[export] Instance DecisionGateContract_eq_dec : EqDecision DecisionGateContract.
Proof. solve_decision. Defined.

Definition gate_keys : list string :=
  ["gate_id"; "capability"; "action"; "resource"; "request_digest"].

(** ["://" in resource and "*" not in resource] *)
Definition exact_resource (resource : string) : bool :=
  bool_decide (is_Some (partition_at "://" resource)) && negb (contains_char "*" resource).

Definition DecisionGateContract_from_dict (data : dict) : res DecisionGateContract :=
  _ ← _strict_keys data gate_keys gate_keys;
  name ← dindex data "capability" ≫= _text;
  capability ← reraise [PyValueError] (of_value name);
  resource ← dindex data "resource" ≫= _text;
  _ ← require (exact_resource resource) ContractError;
  request_digest ← dindex data "request_digest" ≫= _text;
  _ ← require (sha256_hex request_digest) ContractError;
  gate_id ← dindex data "gate_id" ≫= _text;
  action ← dindex data "action" ≫= _text;
  Ok {| dg_gate_id := gate_id; dg_capability := capability; dg_action := action;
        dg_resource := resource; dg_request_digest := request_digest |}.

Definition DecisionGateContract_to_dict (g : DecisionGateContract) : dict :=
  [("gate_id", JStr (dg_gate_id g)); ("capability", JStr (value (dg_capability g)));
   ("action", JStr (dg_action g)); ("resource", JStr (dg_resource g));
   ("request_digest", JStr (dg_request_digest g))].

Definition jgates (l : list DecisionGateContract) : json :=
  JList ((λ g, JObj (DecisionGateContract_to_dict g)) <$> l).

Definition _DECISION_GATE_DEFINITIONS (gate : string) : option (Capability * string * string) :=
  if bool_decide (gate = "provider") then Some (C_PROVIDER_COST, "generate", "provider://")
  else if bool_decide (gate = "merge") then Some (C_REPO_REMOTE, "merge", "repo://")
  else if bool_decide (gate = "release") then Some (C_PUBLIC_RELEASE, "release", "release://")
  else None.

(** [xs[0]] when there is exactly one. *)
Definition the_only {A} (l : list A) : res A :=
  match l with [x] => Ok x | _ => Raise ContractError end.

Definition gate_contract (task : TaskSpec) (gate : string) : res DecisionGateContract :=
  '(capability, action, scheme) ← of_option (_DECISION_GATE_DEFINITIONS gate) ContractError;
  resource ← the_only (List.filter
    (λ scope, startswith (casefold scope) scheme && negb (contains_char "*" scope))
    (ts_write_scope task));
  request ← the_only (List.filter
    (λ step, bool_decide (ws_action step = action) && bool_decide (ws_resource step = resource))
    (ts_workflow_steps task));
  Ok {| dg_gate_id := gate; dg_capability := capability; dg_action := action;
        dg_resource := resource; dg_request_digest := ws_request_digest request |}.

Definition _canonical_decision_gate_contracts (task : TaskSpec) (gates : list string) :
    res (list DecisionGateContract) :=
  mapR (gate_contract task) gates.

(** [DecisionGateContract.from_dict(item)]: the annotation asks for a mapping,
    but any iterable of keys gets past the first comparison. *)
Definition hashable (j : json) : bool :=
  match j with JList _ | JObj _ => false | _ => true end.
(** [sorted] of distinct keys finds every two of them comparable. *)
Definition sortable (l : list json) : bool :=
  forallb (λ j, match j with JInt _ | JBool _ => true | _ => false end) l
  || forallb (λ j, match j with JStr _ => true | _ => false end) l
  || forallb (λ j, match j with JNull => true | _ => false end) l.

Definition gate_item (j : json) : res DecisionGateContract :=
  match j with
  | JObj d => DecisionGateContract_from_dict d
  | JStr _ => Raise ContractError
  | JList l =>
    _ ← require (forallb hashable l) PyTypeError;
    _ ← require (forallb (λ k, existsb (λ j, json_is j k) l) gate_keys) ContractError;
    let unknown := List.filter (λ j, negb (existsb (json_is j) gate_keys)) l in
    if bool_decide (unknown = []) then Raise PyTypeError
    else Raise (if sortable unknown then ContractError else PyTypeError)
  | _ => Raise PyTypeError
  end.

(** ** Task authorities *)
Record CompiledTaskAuthority := {
  ct_version : Z; ct_project_ref : AuthorityRef; ct_program_ref : AuthorityRef;
  ct_goal_ref : AuthorityRef; ct_required_decision_gates : list string;
  ct_decision_gate_contracts : list DecisionGateContract;
  ct_provider_budget_minor_units : Z; ct_provider_call_limit : Z;
  ct_budget_currency : string; ct_task_spec : TaskSpec; ct_schema_version : string }.
#[export] Instance CompiledTaskAuthority_eq_dec : EqDecision CompiledTaskAuthority.
Proof. solve_decision. Defined.

Definition task_authority_schema : string := "companyos.compiled-task-authority.v1".
Definition task_authority_keys : list string :=
  ["schema_version"; "version"; "project_ref"; "program_ref"; "goal_ref";
   "required_decision_gates"; "provider_budget_minor_units"; "decision_gate_contracts";
   "provider_call_limit"; "budget_currency"; "task_spec"].

Definition CompiledTaskAuthority_from_dict (data : dict) : res CompiledTaskAuthority :=
  _ ← _strict_keys data task_authority_keys task_authority_keys;
  _ ← schema_is data task_authority_schema;
  project_dict ← dindex data "project_ref" ≫= mapping;
  program_dict ← dindex data "program_ref" ≫= mapping;
  goal_dict ← dindex data "goal_ref" ≫= mapping;
  task_dict ← dindex data "task_spec" ≫= mapping;
  project_ref ← ref_of_kind "project" project_dict;
  program_ref ← ref_of_kind "program" program_dict;
  goal_ref ← ref_of_kind "goal" goal_dict;
  raw_currency ← dindex data "budget_currency" ≫= _text;
  let currency := upper raw_currency in
  required_decision_gates ← dindex data "required_decision_gates" ≫= _strings;
  task_spec ← TaskSpec_from_dict task_dict;
  version ← dindex data "version" ≫= _positive_int;
  raw_contracts ← dindex data "decision_gate_contracts";
  contracts ← match raw_contracts with JList l => mapR gate_item l | _ => Ok [] end;
  budget ← dindex data "provider_budget_minor_units" ≫= _non_negative_int;
  calls ← dindex data "provider_call_limit" ≫= _non_negative_int;
  _ ← require (three_letters currency) ContractError;
  _ ← list_items raw_contracts;
  let gate_ids := dg_gate_id <$> contracts in
  _ ← require (bool_decide (gate_ids = required_decision_gates) && no_dups gate_ids) ContractError;
  canonical ← _canonical_decision_gate_contracts task_spec required_decision_gates;
  _ ← require (bool_decide (contracts = canonical)) ContractError;
  Ok {| ct_version := version; ct_project_ref := project_ref; ct_program_ref := program_ref;
        ct_goal_ref := goal_ref; ct_required_decision_gates := required_decision_gates;
        ct_decision_gate_contracts := contracts; ct_provider_budget_minor_units := budget;
        ct_provider_call_limit := calls; ct_budget_currency := currency;
        ct_task_spec := task_spec; ct_schema_version := task_authority_schema |}.

Definition CompiledTaskAuthority_to_dict (a : CompiledTaskAuthority) : dict :=
  [("schema_version", JStr (ct_schema_version a));
   ("version", JInt (ct_version a));
   ("project_ref", jref (ct_project_ref a));
   ("program_ref", jref (ct_program_ref a));
   ("goal_ref", jref (ct_goal_ref a));
   ("required_decision_gates", jstrs (ct_required_decision_gates a));
   ("decision_gate_contracts", jgates (ct_decision_gate_contracts a));
   ("provider_budget_minor_units", JInt (ct_provider_budget_minor_units a));
   ("provider_call_limit", JInt (ct_provider_call_limit a));
   ("budget_currency", JStr (ct_budget_currency a));
   ("task_spec", JObj (TaskSpec_to_dict (ct_task_spec a)))].

(** ** Validation ([authority_compiler.py]) *)
Section validation.
Context `{ENV : Env}.

Definition reference_to (kind id : string) (version : Z) (d : dict) : AuthorityRef :=
  {| ar_kind := kind; ar_object_id := id; ar_version := version;
     ar_digest := content_hash (JObj d) |}.
Definition ProjectSpec_reference (p : ProjectSpec) : AuthorityRef :=
  reference_to "project" (pj_project_id p) (pj_version p) (ProjectSpec_to_dict p).
Definition ProgramSpec_reference (p : ProgramSpec) : AuthorityRef :=
  reference_to "program" (pg_program_id p) (pg_version p) (ProgramSpec_to_dict p).
Definition CompiledGoalAuthority_reference (a : CompiledGoalAuthority) : AuthorityRef :=
  reference_to "goal" (gs_goal_id (cg_goal_spec a)) (cg_version a) (CompiledGoalAuthority_to_dict a).

(** [{item.program_id: item for item in programs}.get(id)] *)
Definition by_id (programs : list ProgramSpec) (id : string) : option ProgramSpec :=
  List.find (λ p, bool_decide (pg_program_id p = id)) (rev programs).

(** [for x in l: st = f(st, x)] *)
Fixpoint foldR {S A} (f : S → A → res S) (st : S) (l : list A) : res S :=
  match l with
  | [] => Ok st
  | x :: l => st' ← f st x; foldR f st' l
  end.

(** The sets [visiting] and [visited]. *)
Definition Visits : Type := gset string * gset string.

(** [visit]: depth-first, one unit of fuel per nested call. *)
Fixpoint visit (programs : list ProgramSpec) (fuel : nat) (st : Visits) (id : string) : res Visits :=
  match fuel with
  | O => Raise PyRecursionError
  | S fuel =>
    if bool_decide (id ∈ st.1) then Raise ContractError
    else if bool_decide (id ∈ st.2) then Ok st
    else
      p ← of_option (by_id programs id) PyKeyError;
      st' ← foldR (λ st dependency,
          match by_id programs (ar_object_id dependency) with
          | Some _ => visit programs fuel st (ar_object_id dependency)
          | None => Ok st
          end) ({[id]} ∪ st.1, st.2) (pg_dependency_refs p);
      Ok (st'.1 ∖ {[id]}, {[id]} ∪ st'.2)
  end.

Definition check_program (project : ProjectSpec) (programs : list ProgramSpec) (program : ProgramSpec) :
    res unit :=
  _ ← require (bool_decide (pg_project_ref program = ProjectSpec_reference project)) ContractError;
  _ ← validate_child_bounds (pj_authority project) (pg_authority program);
  foldR (λ _ dependency,
      target ← of_option (by_id programs (ar_object_id dependency)) ContractError;
      _ ← require (bool_decide (dependency = ProgramSpec_reference target)) ContractError;
      require (pg_wave target <? pg_wave program)%Z ContractError)
    tt (pg_dependency_refs program).

Definition validate_program_graph (project : ProjectSpec) (programs : list ProgramSpec) : res unit :=
  _ ← require (no_dups (pg_program_id <$> programs)) ContractError;
  _ ← foldR (visit programs (S (length programs))) (∅, ∅) (pg_program_id <$> programs);
  foldR (λ _, check_program project programs) tt programs.

(** [CurrentProgramStateProvider.current_program] *)
Definition StateProvider : Type := AuthorityRef → string → option ProgramSpec.

Definition compile_project (data : dict) : res ProjectSpec := ProjectSpec_from_dict data.

Definition compile_program (data : dict) (project : ProjectSpec)
    (program_graph : option (list ProgramSpec)) (provider : option StateProvider) : res ProgramSpec :=
  canonical_project ← ProjectSpec_from_dict (ProjectSpec_to_dict project);
  program ← ProgramSpec_from_dict data;
  _ ← require (bool_decide (pg_project_ref program = ProjectSpec_reference canonical_project))
        ContractError;
  _ ← validate_child_bounds (pj_authority canonical_project) (pg_authority program);
  _ ← (if bool_decide (pg_state program = PS_COMPILED) then Ok tt else
         current_program ← of_option provider ContractError;
         current ← of_option
           (current_program (ProjectSpec_reference canonical_project) (pg_program_id program))
           ContractError;
         canonical ← ProgramSpec_from_dict (ProgramSpec_to_dict current);
         require (bool_decide (ProgramSpec_reference canonical = ProgramSpec_reference program))
           ContractError);
  _ ← (if bool_decide (pg_dependency_refs program = []) then Ok tt else
         graph ← of_option program_graph ContractError;
         canonical_graph ← mapR (λ item, ProgramSpec_from_dict (ProgramSpec_to_dict item)) graph;
         _ ← require (memb (ProgramSpec_reference program)
               (ProgramSpec_reference <$> canonical_graph)) ContractError;
         validate_program_graph canonical_project canonical_graph);
  Ok program.

Definition _goal_bounds (goal : GoalSpec) (decision_gates : list string) : AuthorityBounds :=
  {| ab_capabilities := gs_allowed_capabilities goal;
     ab_read_scope := gs_read_scope goal;
     ab_write_scope := gs_write_scope goal;
     ab_forbidden_scope := gs_forbidden_scope goal;
     ab_required_runtime_surfaces := gs_required_runtime_surfaces goal;
     ab_provider_budget_minor_units := gs_provider_budget_minor_units goal;
     ab_provider_call_limit := gs_provider_call_limit goal;
     ab_budget_currency := gs_budget_currency goal;
     ab_evaluator_required := gs_evaluator_required goal;
     ab_required_decision_gates := decision_gates |}.

Definition validate_goal_authority (authority : CompiledGoalAuthority) (project : ProjectSpec)
    (program : ProgramSpec) (program_graph : option (list ProgramSpec))
    (provider : option StateProvider) : res CompiledGoalAuthority :=
  canonical_project ← ProjectSpec_from_dict (ProjectSpec_to_dict project);
  canonical_program ← compile_program (ProgramSpec_to_dict program) canonical_project
                        program_graph provider;
  canonical ← CompiledGoalAuthority_from_dict (CompiledGoalAuthority_to_dict authority);
  _ ← require (negb (terminal (pg_state canonical_program))) ContractError;
  _ ← require (bool_decide (cg_project_ref canonical = ProjectSpec_reference canonical_project))
        ContractError;
  _ ← require (bool_decide (cg_program_ref canonical = ProgramSpec_reference canonical_program))
        ContractError;
  let gates := ab_required_decision_gates (pg_authority canonical_program) in
  _ ← require (bool_decide (cg_required_decision_gates canonical = gates)) ContractError;
  _ ← validate_child_bounds (pg_authority canonical_program)
        (_goal_bounds (cg_goal_spec canonical) gates);
  Ok canonical.

Definition _DECISION_GATE_CAPABILITIES (gate : string) : option Capability :=
  if bool_decide (gate = "provider") then Some C_PROVIDER_COST
  else if bool_decide (gate = "merge") then Some C_REPO_REMOTE
  else if bool_decide (gate = "release") then Some C_PUBLIC_RELEASE
  else None.

Definition _task_bounds (authority : CompiledTaskAuthority) (decision_gates : list string) :
    AuthorityBounds :=
  let task := ct_task_spec authority in
  {| ab_capabilities := ts_capabilities task;
     ab_read_scope := ts_read_scope task;
     ab_write_scope := ts_write_scope task;
     ab_forbidden_scope := ts_forbidden_scope task;
     ab_required_runtime_surfaces := ts_required_runtime_surfaces task;
     ab_provider_budget_minor_units := ct_provider_budget_minor_units authority;
     ab_provider_call_limit := ct_provider_call_limit authority;
     ab_budget_currency := ct_budget_currency authority;
     ab_evaluator_required := ts_evaluator_required task;
     ab_required_decision_gates := decision_gates |}.

Definition validate_task_authority (authority : CompiledTaskAuthority) (project : ProjectSpec)
    (program : ProgramSpec) (goal : CompiledGoalAuthority)
    (program_graph : option (list ProgramSpec)) (provider : option StateProvider) :
    res CompiledTaskAuthority :=
  canonical_project ← ProjectSpec_from_dict (ProjectSpec_to_dict project);
  canonical_program ← compile_program (ProgramSpec_to_dict program) canonical_project
                        program_graph provider;
  canonical_goal ← validate_goal_authority goal canonical_project canonical_program
                     program_graph provider;
  canonical ← CompiledTaskAuthority_from_dict (CompiledTaskAuthority_to_dict authority);
  _ ← require (negb (terminal (pg_state canonical_program))) ContractError;
  _ ← require (bool_decide (ct_project_ref canonical = ProjectSpec_reference canonical_project))
        ContractError;
  _ ← require (bool_decide (ct_program_ref canonical = ProgramSpec_reference canonical_program))
        ContractError;
  _ ← require (bool_decide (ct_goal_ref canonical = CompiledGoalAuthority_reference canonical_goal))
        ContractError;
  _ ← require (bool_decide (ct_required_decision_gates canonical
        = cg_required_decision_gates canonical_goal)) ContractError;
  expected ← _canonical_decision_gate_contracts (ct_task_spec canonical)
               (ct_required_decision_gates canonical);
  _ ← require (bool_decide (ct_decision_gate_contracts canonical = expected)) ContractError;
  _ ← foldR (λ _ gate,
        capability ← of_option (_DECISION_GATE_CAPABILITIES gate) ContractError;
        require (memb capability (ts_capabilities (ct_task_spec canonical))) ContractError)
      tt (ct_required_decision_gates canonical);
  _ ← require (negb (memb "provider" (ct_required_decision_gates canonical)
        && ((ct_provider_budget_minor_units canonical <? 1)%Z
            || (ct_provider_call_limit canonical <? 1)%Z))) ContractError;
  _ ← require (bool_decide (ts_goal_id (ct_task_spec canonical)
        = gs_goal_id (cg_goal_spec canonical_goal))) ContractError;
  let gates := ab_required_decision_gates (pg_authority canonical_program) in
  _ ← validate_child_bounds (_goal_bounds (cg_goal_spec canonical_goal) gates)
        (_task_bounds canonical gates);
  Ok canonical.
End validation.

(** ** Authority narrows *)
Record narrows (parent child : AuthorityBounds) : Prop := {
  nw_capabilities : ab_capabilities child ⊆ ab_capabilities parent;
  nw_read r : may_touch (ab_read_scope child) r → may_touch (ab_read_scope parent) r;
  nw_write r : may_touch (ab_write_scope child) r → may_touch (ab_write_scope parent) r;
  nw_forbidden r : may_touch (bounds_scopes child) r → ¬ may_touch (ab_forbidden_scope parent) r;
  nw_surfaces k : surface_for (ab_required_runtime_surfaces child) k
                  = surface_for (ab_required_runtime_surfaces parent) k;
  nw_budget : (ab_provider_budget_minor_units child ≤ ab_provider_budget_minor_units parent)%Z;
  nw_calls : (ab_provider_call_limit child ≤ ab_provider_call_limit parent)%Z;
  nw_currency : ab_budget_currency child = ab_budget_currency parent;
  nw_evaluator : ab_evaluator_required parent = true → ab_evaluator_required child = true;
  nw_gates : ab_required_decision_gates parent ⊆ ab_required_decision_gates child }.

Lemma may_touch_app a b r : may_touch (a ++ b)%list r ↔ may_touch a r ∨ may_touch b r.
Proof.
  unfold may_touch. setoid_rewrite elem_of_app. split.
  - intros (s & [?|?] & ?); eauto.
  - intros [(s & ? & ?)|(s & ? & ?)]; eauto.
Qed.

#[export] Instance narrows_trans : Transitive narrows.
Proof.
  intros a b c Hab Hbc. split.
  - etrans; [apply (nw_capabilities _ _ Hbc)|apply (nw_capabilities _ _ Hab)].
  - intros r Hr. by apply (nw_read _ _ Hab), (nw_read _ _ Hbc).
  - intros r Hr. by apply (nw_write _ _ Hab), (nw_write _ _ Hbc).
  - intros r Hr. apply (nw_forbidden _ _ Hab). unfold bounds_scopes in *.
    apply may_touch_app. apply may_touch_app in Hr as [Hr|Hr].
    + left. by apply (nw_read _ _ Hbc).
    + right. by apply (nw_write _ _ Hbc).
  - intros k. by rewrite (nw_surfaces _ _ Hbc), (nw_surfaces _ _ Hab).
  - etrans; [apply (nw_budget _ _ Hbc)|apply (nw_budget _ _ Hab)].
  - etrans; [apply (nw_calls _ _ Hbc)|apply (nw_calls _ _ Hab)].
  - by rewrite (nw_currency _ _ Hbc), (nw_currency _ _ Hab).
  - intros He. by apply (nw_evaluator _ _ Hbc), (nw_evaluator _ _ Hab).
  - etrans; [apply (nw_gates _ _ Hab)|apply (nw_gates _ _ Hbc)].
Qed.

Lemma narrower_scope allowed requested bs r :
  mapR (scope_allowed allowed) requested = Ok bs → forallb id bs = true →
  may_touch requested r → may_touch allowed r.
Proof.
  intros Hm Hall (s & Hs & Hcov).
  apply (mapR_all_true _ _ _ Hm Hall), anyR_ok in Hs as (p & Hp & Hps).
  exists p. split; [done|]. by eapply scope_covers_trans.
Qed.

Lemma forbidden_scope scopes forbidden u r :
  _reject_forbidden scopes forbidden = Ok u → may_touch scopes r → ¬ may_touch forbidden r.
Proof.
  intros Hrej (s & Hs & Hcov) (f & Hf & Hcf).
  pose proof (reject_forbidden_ok _ _ _ Hrej s f Hs Hf) as Hno.
  by rewrite (scope_covers_overlap _ _ _ Hcov Hcf) in Hno.
Qed.

Lemma surface_for_none l k : surface_for l k = None ↔ k ∉ rs_surface_key <$> l.
Proof.
  unfold surface_for. rewrite list_elem_of_fmap. split.
  - intros Hn (s & -> & Hs). apply List.find_none with (x := s) in Hn.
    + by rewrite bool_decide_eq_true_2 in Hn.
    + by apply (proj1 (in_rev _ _)), list_elem_of_In.
  - intros Hn. destruct (List.find _ _) as [s|] eqn:Hf; [|done]. exfalso. apply Hn.
    apply List.find_some in Hf as [Hin Hk%bool_decide_eq_true].
    exists s. split; [done|]. by apply list_elem_of_In, in_rev.
Qed.

Lemma same_surfaces parent child :
  forallb (λ s, bool_decide (surface_for parent (rs_surface_key s) = Some s)) child = true →
  forallb (λ k, bool_decide (surface_for child k = surface_for parent k))
    (rs_surface_key <$> parent) = true →
  ∀ k, surface_for child k = surface_for parent k.
Proof.
  rewrite !forallb_In. intros Hc Hp k.
  destruct (decide (k ∈ rs_surface_key <$> parent)) as [Hk|Hk].
  - apply Hp in Hk. by apply bool_decide_eq_true in Hk.
  - rewrite (proj2 (surface_for_none parent k) Hk). apply surface_for_none.
    rewrite list_elem_of_fmap. intros (s & -> & Hs). apply Hk. apply (Hc s), bool_decide_eq_true in Hs.
    apply List.find_some in Hs as [Hs _]. apply list_elem_of_fmap.
    exists s. split; [done|]. by apply list_elem_of_In, in_rev.
Qed.

Lemma forallb_memb `{EqDecision A} (l k : list A) :
  forallb (λ x, memb x l) k = true → k ⊆ l.
Proof. rewrite forallb_In. intros H x Hx. by apply memb_true, H. Qed.

Lemma child_narrows parent child u : validate_child_bounds parent child = Ok u → narrows parent child.
Proof.
  unfold validate_child_bounds. intros H. minv. bsplit. split; try done.
  - by apply forallb_memb.
  - intros r. by eapply narrower_scope.
  - intros r. by eapply narrower_scope.
  - intros r. by eapply forbidden_scope.
  - by apply same_surfaces.
  - intros Hev. rewrite Hev in *. by apply negb_false_iff.
  - by apply forallb_memb.
Qed.

(** ** Parsing what was serialised *)
Lemma text_ok j s : _text j = Ok s → stripped s.
Proof. destruct j; try done. simpl. intros H. minv. bsplit. by split. Qed.
Lemma text_rt s : stripped s → _text (JStr s) = Ok s.
Proof. intros [Hb Hs]. simpl. by rewrite Hb, bool_decide_eq_true_2. Qed.

Lemma strings_ok j l : _strings j = Ok l → strings_wf l.
Proof.
  destruct j as [| | | |js|]; try done. simpl. intros H. minv. split; [|by apply no_dups_true].
  match goal with H : mapR _ _ = _ |- _ => apply mapR_ok in H as HF end.
  eapply Forall2_Forall_r; [done|]. apply Forall_true. intros j s. apply text_ok.
Qed.
Lemma strings_rt l : strings_wf l → _strings (jstrs l) = Ok l.
Proof.
  intros [Hl Hnd]. unfold _strings, jstrs. rewrite (mapR_map _text JStr l), res_ret_bind.
  - by rewrite (proj2 (no_dups_true l)).
  - eapply Forall_impl; [exact Hl|]. apply text_rt.
Qed.

Lemma three_letters_upper s : three_letters (upper s) = true →
  stripped (upper s) ∧ upper (upper s) = upper s.
Proof.
  intros [Hlen Ha]%andb_prop. pose proof (upper_alpha_upper _ Ha) as Hu.
  split; [|by apply upper_upper]. split; [|by apply strip_upper].
  unfold blank. rewrite strip_upper by done. apply bool_decide_eq_false.
  intros He. by rewrite He in Hlen.
Qed.
Lemma currency_parsed j s : _currency j = Ok s → _currency (JStr s) = Ok s.
Proof.
  unfold _currency at 1. intros (t & _ & H)%res_bind_ok. cbv zeta in H. minv.
  destruct (three_letters_upper t) as [Hs Hu]; [done|].
  unfold _currency. rewrite text_rt, res_ret_bind by done. cbv zeta. rewrite Hu.
  by match goal with H : three_letters _ = true |- _ => rewrite H end.
Qed.

Lemma positive_ok j z : _positive_int j = Ok z → _positive_int (JInt z) = Ok z.
Proof. apply int_in_ok. Qed.
Lemma non_negative_ok j z : _non_negative_int j = Ok z → _non_negative_int (JInt z) = Ok z.
Proof. apply int_in_ok. Qed.

Lemma caps_rt (l : list Capability) : reraise [PyValueError] (mapR of_json (JStr <$> (value <$> l))) = Ok l.
Proof.
  rewrite <- list_fmap_compose, (mapR_map of_json (JStr ∘ value) l); [done|].
  apply Forall_true. intros x. apply of_value_value.
Qed.

Lemma caps_items (l : list Capability) : list_items (jvalues l) = Ok (JStr <$> (value <$> l)).
Proof. done. Qed.

Lemma reraise_ok {A} es (a : A) : reraise es (Ok a) = Ok a.
Proof. done. Qed.

(** Facts about the fields that a parser has accepted. *)
Ltac accepted :=
  repeat match goal with
  | H : _text _ = Ok _ |- _ => apply text_ok in H
  | H : _strings _ = Ok _ |- _ => apply strings_ok in H
  | H : _currency _ = Ok _ |- _ => apply currency_parsed in H; revert H
  | H : _positive_int _ = Ok _ |- _ => apply positive_ok in H; revert H
  | H : _non_negative_int _ = Ok _ |- _ => apply non_negative_ok in H; revert H
  | H : _runtime_surfaces _ = Ok _ |- _ => apply surfaces_ok in H
  | H : no_dups _ = true |- _ => apply no_dups_true in H
  end; intros.
(** Run a parser on a serialised record whose fields were accepted. *)
Ltac replay :=
  repeat (cbn -[_text _strings _currency _positive_int _non_negative_int jstrs jvalues jsurfaces
    fmap jgates of_value _runtime_surfaces mapR no_dups memb sha256_hex exact_resource three_letters upper
    gate_item _canonical_decision_gate_contracts bool_decide DecisionGateContract_to_dict reraise
    AuthorityBounds_to_dict AuthorityBounds_from_dict validate_bounds AuthorityRef_to_dict
    ref_of_kind GoalSpec_from_dict GoalSpec_to_dict TaskSpec_from_dict TaskSpec_to_dict];
  first
    [ rewrite text_rt by done | rewrite strings_rt by done | rewrite surfaces_rt by done
    | rewrite caps_items | rewrite caps_rt | rewrite of_value_value | rewrite reraise_ok | rewrite (proj2 (no_dups_true _)) by done
    | match goal with H : upper (upper _) = _ |- _ => rewrite H end
    | match goal with H : _ = Ok _ |- _ => rewrite H end
    | match goal with H : _ = true |- _ => rewrite H end
    | match goal with H : _ = false |- _ => rewrite H end ]).

Lemma ref_rt d r : AuthorityRef_from_dict d = Ok r → AuthorityRef_from_dict (AuthorityRef_to_dict r) = Ok r.
Proof.
  unfold AuthorityRef_from_dict at 1. intros H. minv. accepted.
  unfold AuthorityRef_from_dict, AuthorityRef_to_dict, dindex.
  replay. done.
Qed.

Lemma bounds_rt d b :
  AuthorityBounds_from_dict d = Ok b → AuthorityBounds_from_dict (AuthorityBounds_to_dict b) = Ok b.
Proof.
  unfold AuthorityBounds_from_dict at 1. intros H. minv. accepted.
  unfold AuthorityBounds_from_dict, AuthorityBounds_to_dict, dindex.
  replay. done.
Qed.

Lemma ref_kind_rt kind d r :
  ref_of_kind kind d = Ok r → ref_of_kind kind (AuthorityRef_to_dict r) = Ok r.
Proof.
  unfold ref_of_kind. intros (r' & Hr & H)%res_bind_ok. minv.
  rewrite (ref_rt _ _ Hr), res_ret_bind. by match goal with H : bool_decide _ = true |- _ => rewrite H end.
Qed.

Lemma refs_rt kind ds rs :
  mapR (ref_of_kind kind) ds = Ok rs →
  mapR mapping (jref <$> rs) = Ok (AuthorityRef_to_dict <$> rs) ∧
  mapR (ref_of_kind kind) (AuthorityRef_to_dict <$> rs) = Ok rs.
Proof.
  intros HF%mapR_ok. split; [apply (mapR_mapping AuthorityRef_to_dict)|]. apply mapR_map.
  eapply Forall2_Forall_r; [done|]. apply Forall_true. intros d r. apply ref_kind_rt.
Qed.

Lemma project_rt d p : ProjectSpec_from_dict d = Ok p → ProjectSpec_from_dict (ProjectSpec_to_dict p) = Ok p.
Proof.
  unfold ProjectSpec_from_dict at 1. intros H. minv. accepted.
  match goal with H : AuthorityBounds_from_dict _ = Ok _ |- _ => apply bounds_rt in H end.
  unfold ProjectSpec_from_dict, ProjectSpec_to_dict, schema_is, dindex.
  replay. done.
Qed.

Lemma program_rt d p : ProgramSpec_from_dict d = Ok p → ProgramSpec_from_dict (ProgramSpec_to_dict p) = Ok p.
Proof.
  unfold ProgramSpec_from_dict at 1. intros H. minv. accepted.
  repeat match goal with
  | H : AuthorityBounds_from_dict _ = Ok _ |- _ => apply bounds_rt in H; revert H
  | H : ref_of_kind _ _ = Ok _ |- _ => apply ref_kind_rt in H; revert H
  | H : mapR (ref_of_kind _) _ = Ok _ |- _ => apply refs_rt in H; revert H
  end. intros.
  repeat match goal with H : _ ∧ _ |- _ => destruct H end.
  unfold ProgramSpec_from_dict, ProgramSpec_to_dict, schema_is, dindex.
  replay. done.
Qed.

Lemma goal_authority_rt d a :
  CompiledGoalAuthority_from_dict d = Ok a →
  CompiledGoalAuthority_from_dict (CompiledGoalAuthority_to_dict a) = Ok a.
Proof.
  unfold CompiledGoalAuthority_from_dict at 1. intros H. minv. accepted.
  repeat match goal with
  | H : ref_of_kind _ _ = Ok _ |- _ => apply ref_kind_rt in H; revert H
  | H : GoalSpec_from_dict _ = Ok _ |- _ => apply goal_ok, goal_rt in H; revert H
  end. intros.
  unfold CompiledGoalAuthority_from_dict, CompiledGoalAuthority_to_dict, schema_is, dindex.
  replay. done.
Qed.

Lemma gate_rt d g :
  DecisionGateContract_from_dict d = Ok g →
  DecisionGateContract_from_dict (DecisionGateContract_to_dict g) = Ok g.
Proof.
  unfold DecisionGateContract_from_dict at 1. intros H. minv. accepted.
  unfold DecisionGateContract_from_dict, DecisionGateContract_to_dict, dindex.
  replay. rewrite (text_rt (value _)) by (match goal with c : Capability |- _ => by destruct c end).
  replay. done.
Qed.

Lemma gate_item_ok j g : gate_item j = Ok g → gate_item (JObj (DecisionGateContract_to_dict g)) = Ok g.
Proof.
  destruct j as [| | | |l|d]; try done; [|apply gate_rt].
  simpl. intros H. minv. by case_bool_decide.
Qed.

Lemma gates_rt l gs :
  mapR gate_item l = Ok gs →
  mapR gate_item ((λ g, JObj (DecisionGateContract_to_dict g)) <$> gs) = Ok gs.
Proof.
  intros HF%mapR_ok. apply mapR_map. eapply Forall2_Forall_r; [done|].
  apply Forall_true. intros j g. apply gate_item_ok.
Qed.

Lemma task_authority_rt d a :
  CompiledTaskAuthority_from_dict d = Ok a →
  CompiledTaskAuthority_from_dict (CompiledTaskAuthority_to_dict a) = Ok a.
Proof.
  unfold CompiledTaskAuthority_from_dict at 1. intros H. minv.
  match goal with H : list_items ?j = Ok _ |- _ => destruct j as [| | | |raw|]; try done end.
  accepted.
  repeat match goal with
  | H : ref_of_kind _ _ = Ok _ |- _ => apply ref_kind_rt in H; revert H
  | H : TaskSpec_from_dict _ = Ok _ |- _ => apply task_ok, task_rt in H; revert H
  | H : mapR gate_item _ = Ok _ |- _ => apply gates_rt in H; revert H
  | H : three_letters (upper _) = true |- _ =>
    pose proof (three_letters_upper _ H) as [? ?]; revert H
  end. intros.
  unfold CompiledTaskAuthority_from_dict, CompiledTaskAuthority_to_dict, schema_is, dindex, jgates.
  replay. done.
Qed.

(** The specification inside survives, whatever else the authority holds. *)
Lemma goal_authority_spec a g :
  goal_wf (cg_goal_spec a) →
  CompiledGoalAuthority_from_dict (CompiledGoalAuthority_to_dict a) = Ok g →
  cg_goal_spec a = cg_goal_spec g.
Proof.
  intros Hwf H. unfold CompiledGoalAuthority_from_dict in H. rinv.
  repeat match goal with H : dindex (CompiledGoalAuthority_to_dict a) _ = Ok _ |- _ =>
    injection H as <- end.
  repeat match goal with H : mapping _ = Ok _ |- _ => injection H as <- end.
  rewrite (goal_rt _ Hwf) in *. simpl. congruence.
Qed.
Lemma task_authority_spec a t :
  task_wf (ct_task_spec a) →
  CompiledTaskAuthority_from_dict (CompiledTaskAuthority_to_dict a) = Ok t →
  ct_task_spec a = ct_task_spec t.
Proof.
  intros Hwf H. unfold CompiledTaskAuthority_from_dict in H. rinv.
  repeat match goal with H : dindex (CompiledTaskAuthority_to_dict a) _ = Ok _ |- _ =>
    injection H as <- end.
  repeat match goal with H : mapping _ = Ok _ |- _ => injection H as <- end.
  rewrite (task_rt _ Hwf) in *. simpl. congruence.
Qed.

(** Whatever the strict parsers of the authority spine accept is a fixed
    point of serialising and parsing, so that the canonical copies which every
    validation makes of its arguments, and the copies read back from the
    database, are the contracts that were accepted. *)
Theorem authority_roundtrip d :
  (∀ p, ProjectSpec_from_dict d = Ok p → ProjectSpec_from_dict (ProjectSpec_to_dict p) = Ok p) ∧
  (∀ p, ProgramSpec_from_dict d = Ok p → ProgramSpec_from_dict (ProgramSpec_to_dict p) = Ok p) ∧
  (∀ a, CompiledGoalAuthority_from_dict d = Ok a →
        CompiledGoalAuthority_from_dict (CompiledGoalAuthority_to_dict a) = Ok a) ∧
  (∀ a, CompiledTaskAuthority_from_dict d = Ok a →
        CompiledTaskAuthority_from_dict (CompiledTaskAuthority_to_dict a) = Ok a).
Proof.
  split_and!; intros ?; [apply project_rt|apply program_rt|apply goal_authority_rt|apply task_authority_rt].
Qed.

(** ** The spine *)
Section spine.
Context `{ENV : Env}.

Record program_within (P : ProjectSpec) (R : ProgramSpec) : Prop := {
  pw_project : pg_project_ref R = ProjectSpec_reference P;
  pw_bounds : narrows (pj_authority P) (pg_authority R) }.

Lemma compile_program_ok d project graph provider R :
  compile_program d project graph provider = Ok R →
  ProgramSpec_from_dict d = Ok R ∧
  ∃ P, ProjectSpec_from_dict (ProjectSpec_to_dict project) = Ok P ∧ program_within P R.
Proof.
  unfold compile_program. intros (P & HP & H)%res_bind_ok.
  apply res_bind_ok in H as (R' & HR & H). apply res_bind_ok in H as ([] & Href%require_ok & H).
  apply res_bind_ok in H as ([] & Hb & H). apply res_bind_ok in H as (? & _ & H).
  apply res_bind_ok in H as (? & _ & [= ->]). split; [done|]. exists P. split; [done|].
  split; [by apply bool_decide_eq_true in Href|by eapply child_narrows].
Qed.

Record goal_within (P : ProjectSpec) (R : ProgramSpec) (G : CompiledGoalAuthority) : Prop := {
  gin_project : cg_project_ref G = ProjectSpec_reference P;
  gin_program : cg_program_ref G = ProgramSpec_reference R;
  gin_gates : cg_required_decision_gates G = ab_required_decision_gates (pg_authority R);
  gin_bounds : narrows (pg_authority R)
                (_goal_bounds (cg_goal_spec G) (ab_required_decision_gates (pg_authority R)));
  gin_live : terminal (pg_state R) = false }.

Lemma validate_goal_ok authority project program graph provider G :
  validate_goal_authority authority project program graph provider = Ok G →
  CompiledGoalAuthority_from_dict (CompiledGoalAuthority_to_dict authority) = Ok G ∧
  ∃ P R, ProjectSpec_from_dict (ProjectSpec_to_dict project) = Ok P ∧
         ProgramSpec_from_dict (ProgramSpec_to_dict program) = Ok R ∧
         program_within P R ∧ goal_within P R G.
Proof.
  unfold validate_goal_authority. intros (P & HP & H)%res_bind_ok.
  apply res_bind_ok in H as (R & HR & H). apply compile_program_ok in HR as (HR & P' & HP' & Hin).
  rewrite (project_rt _ _ HP) in HP'. injection HP' as <-. rinv. bsplit.
  split; [done|]. exists P, R. split_and!; [done..|]. split; [done..| |done]. by eapply child_narrows.
Qed.

Record task_within (P : ProjectSpec) (R : ProgramSpec) (G : CompiledGoalAuthority)
    (T : CompiledTaskAuthority) : Prop := {
  tin_project : ct_project_ref T = ProjectSpec_reference P;
  tin_program : ct_program_ref T = ProgramSpec_reference R;
  tin_goal : ct_goal_ref T = CompiledGoalAuthority_reference G;
  tin_same_goal : ts_goal_id (ct_task_spec T) = gs_goal_id (cg_goal_spec G);
  tin_gates : ct_required_decision_gates T = cg_required_decision_gates G;
  tin_bounds : narrows
    (_goal_bounds (cg_goal_spec G) (ab_required_decision_gates (pg_authority R)))
    (_task_bounds T (ab_required_decision_gates (pg_authority R))) }.

Lemma validate_task_ok authority project program goal graph provider T :
  validate_task_authority authority project program goal graph provider = Ok T →
  CompiledTaskAuthority_from_dict (CompiledTaskAuthority_to_dict authority) = Ok T ∧
  ∃ P R G, ProjectSpec_from_dict (ProjectSpec_to_dict project) = Ok P ∧
           ProgramSpec_from_dict (ProgramSpec_to_dict program) = Ok R ∧
           CompiledGoalAuthority_from_dict (CompiledGoalAuthority_to_dict goal) = Ok G ∧
           program_within P R ∧ goal_within P R G ∧ task_within P R G T.
Proof.
  unfold validate_task_authority. intros (P & HP & H)%res_bind_ok.
  apply res_bind_ok in H as (R & HR & H). apply compile_program_ok in HR as (HR & P1 & HP1 & Hin).
  rewrite (project_rt _ _ HP) in HP1. injection HP1 as <-.
  apply res_bind_ok in H as (G & HG & H).
  apply validate_goal_ok in HG as (HG & P2 & R2 & HP2 & HR2 & _ & Hgin).
  rewrite (project_rt _ _ HP) in HP2. injection HP2 as <-.
  rewrite (program_rt _ _ HR) in HR2. injection HR2 as <-.
  rinv. bsplit. split; [done|]. exists P, R, G. split_and!; [done..|].
  split; [done..|]. by eapply child_narrows.
Qed.

(** C38: authority only narrows on the way from project to task.  When a task
    authority is accepted, it names the exact versions of the project, the
    program and the goal it was checked against, the program is not terminal,
    and every level bounds the next: each resource that the task may touch the
    goal, the program and the project may touch too, and none of them forbids
    it; capabilities, budget and call limit shrink, runtime surfaces and the
    currency stay, a required evaluator and required decision gates cannot be
    dropped. *)
Theorem authority_narrows authority project program goal graph provider T :
  validate_task_authority authority project program goal graph provider = Ok T →
  ∃ P R G, ProjectSpec_from_dict (ProjectSpec_to_dict project) = Ok P ∧
    ProgramSpec_from_dict (ProgramSpec_to_dict program) = Ok R ∧
    CompiledGoalAuthority_from_dict (CompiledGoalAuthority_to_dict goal) = Ok G ∧
    ct_project_ref T = ProjectSpec_reference P ∧
    ct_program_ref T = ProgramSpec_reference R ∧
    ct_goal_ref T = CompiledGoalAuthority_reference G ∧
    terminal (pg_state R) = false ∧
    let gates := ab_required_decision_gates (pg_authority R) in
    let bounds := _task_bounds T gates in
    narrows (pj_authority P) bounds ∧ narrows (pg_authority R) bounds ∧
    narrows (_goal_bounds (cg_goal_spec G) gates) bounds ∧
    (∀ r, may_touch (bounds_scopes bounds) r →
       ¬ may_touch (gs_forbidden_scope (cg_goal_spec G)
                    ++ ab_forbidden_scope (pg_authority R)
                    ++ ab_forbidden_scope (pj_authority P))%list r).
Proof.
  intros H. apply validate_task_ok in H as (_ & P & R & G & HP & HR & HG & Hprog & Hgoal & Htask).
  pose proof (pw_bounds _ _ Hprog) as Hb1. pose proof (gin_bounds _ _ _ Hgoal) as Hb2.
  pose proof (tin_bounds _ _ _ _ Htask) as Hb3.
  exists P, R, G. destruct Htask, Hgoal. cbv zeta. split_and!; [done..| | | |].
  - exact (transitivity Hb1 (transitivity Hb2 Hb3)).
  - exact (transitivity Hb2 Hb3).
  - done.
  - intros r Hr. rewrite !may_touch_app.
    pose proof (nw_forbidden _ _ Hb3 r Hr). pose proof (nw_forbidden _ _ (transitivity Hb2 Hb3) r Hr).
    pose proof (nw_forbidden _ _ (transitivity Hb1 (transitivity Hb2 Hb3)) r Hr). naive_solver.
Qed.
End spine.

(** ** The program graph *)

(** Code that fails with a [ContractError] or not at all. *)
Definition contract_only {A} (r : res A) : Prop := ∀ e, r = Raise e → e = ContractError.

Lemma co_ok {A} (a : A) : contract_only (Ok a).
Proof. done. Qed.
Lemma co_raise {A} : contract_only (Raise ContractError : res A).
Proof. by intros e [= <-]. Qed.
Lemma co_require b : contract_only (require b ContractError).
Proof. by destruct b; [|intros e [= <-]]. Qed.
Lemma co_option {A} (o : option A) : contract_only (of_option o ContractError).
Proof. by destruct o; [|intros e [= <-]]. Qed.
Lemma co_bind {A B} (m : res A) (k : A → res B) :
  contract_only m → (∀ a, contract_only (k a)) → contract_only (m ≫= k).
Proof. intros Hm Hk e. destruct m as [a|x]; simpl; [apply Hk|]. intros [= <-]. by apply Hm. Qed.
Lemma co_mapR {A B} (f : A → res B) l : (∀ x, contract_only (f x)) → contract_only (mapR f l).
Proof.
  intros Hf. induction l as [|x l IH]; [done|]. simpl.
  apply co_bind; [done|intros y]. apply co_bind; [done|intros ys]. done.
Qed.
Lemma co_anyR {A} (f : A → res bool) l : (∀ x, contract_only (f x)) → contract_only (anyR f l).
Proof.
  intros Hf. induction l as [|x l IH]; [done|]. simpl. apply co_bind; [done|by intros []].
Qed.
Lemma co_foldR {S A} (f : S → A → res S) st l :
  (∀ st x, contract_only (f st x)) → contract_only (foldR f st l).
Proof.
  intros Hf. revert st. induction l as [|x l IH]; intros st; [done|]. simpl. by apply co_bind.
Qed.

Create HintDb co.
#[local] Hint Resolve co_ok co_raise co_require co_option : co.
Ltac co_walk :=
  repeat first
    [ progress intros
    | match goal with
      | |- contract_only (let _ := _ in _) => progress cbv zeta
      | |- contract_only (_ ≫= _) => apply co_bind
      | |- contract_only (mapR _ _) => apply co_mapR
      | |- contract_only (anyR _ _) => apply co_anyR
      | |- contract_only (foldR _ _ _) => apply co_foldR
      | |- contract_only (match ?x with _ => _ end) => destruct x
      end
    | solve [eauto 2 with co] ].

Lemma co_normalize v : contract_only (normalize_scope v).
Proof. unfold normalize_scope. co_walk. Qed.
#[local] Hint Resolve co_normalize : co.
Lemma co_covers a b : contract_only (scope_covers a b).
Proof. unfold scope_covers. co_walk. Qed.
#[local] Hint Resolve co_covers : co.
Lemma co_allowed l a : contract_only (scope_allowed l a).
Proof. unfold scope_allowed. co_walk. Qed.
Lemma co_overlap a b : contract_only (scopes_overlap a b).
Proof. unfold scopes_overlap. co_walk. Qed.
#[local] Hint Resolve co_allowed co_overlap : co.
Lemma co_reject l k : contract_only (_reject_forbidden l k).
Proof. unfold _reject_forbidden. co_walk. Qed.
#[local] Hint Resolve co_reject : co.
Lemma co_bounds b : contract_only (validate_bounds b).
Proof. unfold validate_bounds, _non_negative_int, int_in. co_walk. Qed.
#[local] Hint Resolve co_bounds : co.
Lemma co_child p c : contract_only (validate_child_bounds p c).
Proof. unfold validate_child_bounds. co_walk. Qed.
#[local] Hint Resolve co_child : co.

Lemma foldR_check {A} (f : A → res unit) l :
  foldR (λ _, f) tt l = Ok tt → ∀ p, p ∈ l → f p = Ok tt.
Proof.
  induction l as [|q l IH]; intros Hl p Hp; [by apply not_elem_of_nil in Hp|]. simpl in Hl.
  apply res_bind_ok in Hl as ([] & Hq & Hl). apply elem_of_cons in Hp as [->|Hp]; [done|]. by apply IH.
Qed.

Section graph.
Context `{ENV : Env} (project : ProjectSpec) (programs : list ProgramSpec).

Lemma co_check_program p : contract_only (check_program project programs p).
Proof. unfold check_program. co_walk. Qed.

Definition ids : gset string := list_to_set (pg_program_id <$> programs).

Lemma by_id_ids id : is_Some (by_id programs id) ↔ id ∈ ids.
Proof.
  unfold ids. rewrite elem_of_list_to_set, list_elem_of_fmap. unfold by_id. split.
  - intros [p Hp]. apply List.find_some in Hp as [Hin Hid%bool_decide_eq_true].
    exists p. split; [done|]. by apply list_elem_of_In, in_rev.
  - intros (p & -> & Hp). destruct (List.find _ _) eqn:Hf; [done|]. exfalso.
    apply List.find_none with (x := p) in Hf; [by rewrite bool_decide_eq_true_2 in Hf|].
    by apply (proj1 (in_rev _ _)), list_elem_of_In.
Qed.

(** A traversal step is fine when it fails with a contract violation, or comes
    back to the same open set. *)
Definition settles (open : gset string) (r : res Visits) : Prop :=
  match r with Ok st => st.1 = open | Raise e => e = ContractError end.

Lemma settles_fold {A} (f : Visits → A → res Visits) (open : gset string) l st :
  (∀ st x, st.1 = open → settles open (f st x)) → st.1 = open → settles open (foldR f st l).
Proof.
  intros Hf. revert st. induction l as [|x l IH]; intros st Hst; [done|]. simpl.
  pose proof (Hf st x Hst) as Hx. destruct (f st x) as [st'|e]; [by apply IH|done].
Qed.

(** One unit of fuel per program that is not open yet is enough. *)
Lemma visit_settles fuel st id :
  id ∈ ids → st.1 ⊆ ids → (size (ids ∖ st.1) < fuel)%nat →
  settles st.1 (visit programs fuel st id).
Proof.
  revert st id. induction fuel as [|fuel IH]; intros st id Hid Hsub Hfuel; [lia|]. simpl.
  case_bool_decide as Hopen; [done|]. case_bool_decide; [done|].
  destruct (proj2 (by_id_ids id) Hid) as [p ->]. simpl.
  match goal with |- settles _ (?r ≫= _) =>
    assert (settles ({[id]} ∪ st.1) r) as Hr; [|destruct r as [st'|]; [simpl in *|done]] end.
  - apply settles_fold; [|done]. intros st' dep Hst'.
    destruct (by_id programs (ar_object_id dep)) eqn:Hdep; [|done].
    rewrite <- Hst'. apply IH; [by apply by_id_ids; eauto|rewrite Hst'; set_solver|].
    rewrite Hst'. assert (ids ∖ ({[id]} ∪ st.1) ⊂ ids ∖ st.1) as Hlt by set_solver.
    apply subset_size in Hlt. lia.
  - rewrite Hr. apply set_eq. intros x. destruct (decide (x = id)) as [->|]; set_solver.
Qed.

Lemma co_visits : NoDup (pg_program_id <$> programs) → contract_only
  (foldR (visit programs (S (length programs))) (∅, ∅) (pg_program_id <$> programs)).
Proof.
  intros Hnd. assert (∀ l, l ⊆ pg_program_id <$> programs → ∀ st, st.1 = ∅ →
    settles ∅ (foldR (visit programs (S (length programs))) st l)) as Hall.
  { induction l as [|x l IH]; intros Hl st Hst; [done|]. cbn [foldR].
    assert (settles st.1 (visit programs (S (length programs)) st x)) as Hx.
    { apply visit_settles.
      - unfold ids. rewrite elem_of_list_to_set. apply Hl. by left.
      - rewrite Hst. set_solver.
      - rewrite Hst, difference_empty_L. unfold ids.
        rewrite size_list_to_set, length_fmap by done. lia. }
    destruct (visit _ _ st x) as [st'|e]; simpl in *; [|done].
    apply IH; [|congruence]. intros y Hy. apply Hl. by right. }
  intros e He. pose proof (Hall (pg_program_id <$> programs) (reflexivity _) (∅, ∅) eq_refl) as Hs.
  exact (eq_ind _ (settles ∅) Hs _ He).
Qed.

Lemma by_id_elem id p : by_id programs id = Some p → p ∈ programs ∧ pg_program_id p = id.
Proof.
  unfold by_id. intros [Hin Hid%bool_decide_eq_true]%List.find_some.
  split; [|done]. by apply list_elem_of_In, in_rev.
Qed.

Lemma check_program_ok p :
  check_program project programs p = Ok tt →
  program_within project p ∧
  ∀ r, r ∈ pg_dependency_refs p →
    ∃ q, q ∈ programs ∧ r = ProgramSpec_reference q ∧ (pg_wave q < pg_wave p)%Z.
Proof.
  unfold check_program. intros H. apply res_bind_ok in H as ([] & Href%require_ok%bool_decide_eq_true & H).
  apply res_bind_ok in H as (? & Hb%child_narrows & H). split; [done|].
  intros r Hr. apply (foldR_check _ _ H) in Hr. rinv. bsplit.
  match goal with H : by_id _ _ = Some ?q |- _ => apply by_id_elem in H as [? ?]; by exists q end.
Qed.

(** A reference names its program, so the dependency found under the name is
    the program that was meant. *)
Lemma dependency_wave p q :
  NoDup (pg_program_id <$> programs) →
  (∀ r, r ∈ pg_dependency_refs p →
     ∃ q, q ∈ programs ∧ r = ProgramSpec_reference q ∧ (pg_wave q < pg_wave p)%Z) →
  q ∈ programs → ProgramSpec_reference q ∈ pg_dependency_refs p → (pg_wave q < pg_wave p)%Z.
Proof.
  intros Hnd Hdeps Hq (q' & Hq' & Href & Hlt)%Hdeps.
  assert (q = q') as ->; [|done]. assert (pg_program_id q = pg_program_id q') as Hid by exact (f_equal ar_object_id Href).
  apply list_elem_of_lookup in Hq as [i Hi], Hq' as [j Hj].
  assert (i = j) as ->; [|congruence]. apply (NoDup_lookup _ _ _ (pg_program_id q) Hnd).
  - by rewrite list_lookup_fmap, Hi.
  - by rewrite list_lookup_fmap, Hj, Hid.
Qed.

(** C39: checking a program graph always ends, with a verdict: the depth-first
    search needs at most one nested call per program (the model's bound is never
    hit), no lookup misses, and the only failure is a [ContractError].  A graph
    that is accepted is what a plan should be: the programs have distinct names,
    belong to the exact version of the project and stay within its authority,
    every dependency is the exact version of a program of the graph in an
    earlier wave, and so no chain of dependencies comes back to its start. *)
Theorem program_graph_checked :
  contract_only (validate_program_graph project programs) ∧
  (validate_program_graph project programs = Ok tt →
   NoDup (pg_program_id <$> programs) ∧
   (∀ p, p ∈ programs →
      program_within project p ∧
      ∀ r, r ∈ pg_dependency_refs p →
        ∃ q, q ∈ programs ∧ r = ProgramSpec_reference q ∧ (pg_wave q < pg_wave p)%Z) ∧
   let depends p q := p ∈ programs ∧ q ∈ programs ∧ ProgramSpec_reference q ∈ pg_dependency_refs p in
   ∀ p, ¬ tc depends p p).
Proof.
  split.
  { unfold validate_program_graph, require. destruct (no_dups _) eqn:Hnd; simpl; [|apply co_raise].
    apply co_bind; [by apply co_visits, no_dups_true|intros _].
    apply co_foldR. intros _. apply co_check_program. }
  unfold validate_program_graph. intros H.
  apply res_bind_ok in H as ([] & Hnd%require_ok%no_dups_true & H).
  apply res_bind_ok in H as (? & _ & H).
  assert (∀ p, p ∈ programs → program_within project p ∧
      ∀ r, r ∈ pg_dependency_refs p →
        ∃ q, q ∈ programs ∧ r = ProgramSpec_reference q ∧ (pg_wave q < pg_wave p)%Z) as Hall.
  { intros p Hp. eapply check_program_ok, foldR_check; done. }
  split_and!; [done..|]. cbv zeta. intros p Hcycle.
  assert (∀ a b, tc (λ p q, p ∈ programs ∧ q ∈ programs ∧
      ProgramSpec_reference q ∈ pg_dependency_refs p) a b → (pg_wave b < pg_wave a)%Z) as Hdown;
    [|by specialize (Hdown _ _ Hcycle); lia].
  induction 1 as [a b (Ha & Hb & Hr)|a b c (Ha & Hb & Hr) _ IH].
  - apply dependency_wave; [done|by apply Hall|done..].
  - etrans; [exact IH|]. apply dependency_wave; [done|by apply Hall|done..].
Qed.
End graph.

(** ** A spine that is accepted *)
Module Spine.
Import Db.Toy.

Definition bounds_dict (budget : Z) : dict :=
  [("capabilities", jstrs ["read_local"; "write_local"; "provider_cost"]);
   ("read_scope", jstrs ["docs/**"; "src/app/**"]);
   ("write_scope", jstrs ["src/app/**"; "provider://images"]);
   ("forbidden_scope", jstrs ["src/secrets/**"]);
   ("required_runtime_surfaces", JList []);
   ("provider_budget_minor_units", JInt budget); ("provider_call_limit", JInt 5);
   ("budget_currency", JStr "eur"); ("evaluator_required", JBool true);
   ("required_decision_gates", jstrs ["provider"])].

Definition project_dict : dict :=
  [("schema_version", JStr project_schema); ("project_id", JStr "proj"); ("version", JInt 1);
   ("target_outcome", JStr "ship"); ("authority", JObj (bounds_dict 900))].
Definition project : ProjectSpec := Eval vm_compute in
  match ProjectSpec_from_dict project_dict with
  | Ok p => p
  | Raise _ => Build_ProjectSpec "" 0 "" (Build_AuthorityBounds [] [] [] [] [] 0 0 "" false []) ""
  end.

Definition program_dict (id : string) (wave : Z) (deps : list AuthorityRef) : dict :=
  [("schema_version", JStr program_schema); ("program_id", JStr id); ("version", JInt 1);
   ("project_ref", jref (ProjectSpec_reference project)); ("objective", JStr "build");
   ("state", JStr "compiled"); ("dependency_refs", JList (jref <$> deps)); ("wave", JInt wave);
   ("authority", JObj (bounds_dict 700))].
Definition parse_program (d : dict) : ProgramSpec :=
  match ProgramSpec_from_dict d with
  | Ok p => p
  | Raise _ => Build_ProgramSpec "" 0 (ProjectSpec_reference project) "" PS_RETIRED [] 0
                 (pj_authority project) ""
  end.
Definition base : ProgramSpec := Eval vm_compute in parse_program (program_dict "base" 0 []).
Definition program : ProgramSpec := Eval vm_compute in
  parse_program (program_dict "main" 1 [ProgramSpec_reference base]).
Definition graph : list ProgramSpec := [base; program].

Definition goal_dict : dict :=
  [("goal_id", JStr "g1"); ("target_outcome", JStr "ship");
   ("success_evidence_states", jstrs ["runtime_verification"]);
   ("read_scope", jstrs ["src/app/**"]); ("write_scope", jstrs ["src/app/**"; "provider://images"]);
   ("allowed_capabilities", jstrs ["read_local"; "write_local"; "provider_cost"]);
   ("evaluator_required", JBool true); ("provider_budget_minor_units", JInt 500);
   ("provider_call_limit", JInt 4); ("budget_currency", JStr "EUR")].
Definition goal : CompiledGoalAuthority := Eval vm_compute in
  match GoalSpec_from_dict goal_dict with
  | Ok g => Build_CompiledGoalAuthority 1 (ProjectSpec_reference project)
              (ProgramSpec_reference program) ["provider"] g goal_authority_schema
  | Raise _ => Build_CompiledGoalAuthority 0 (ProjectSpec_reference project)
              (ProgramSpec_reference program) [] sample_goal ""
  end.

Definition request : dict := [("operation", JStr "draw")].
Definition digest : string := Eval vm_compute in content_hash (JObj request).
Definition task_dict : dict :=
  [("task_id", JStr "t1"); ("goal_id", JStr "g1"); ("objective", JStr "draw");
   ("expected_delta", JStr "d"); ("primary_surface", JStr "api");
   ("evidence_target", JStr "runtime_verification");
   ("capabilities", jstrs ["write_local"; "provider_cost"]);
   ("write_scope", jstrs ["src/app/x"; "provider://images"]); ("evaluator_required", JBool true);
   ("workflow_steps", JList [JObj [("step_id", JStr "s1"); ("adapter", JStr "fake-provider");
      ("action", JStr "generate"); ("resource", JStr "provider://images");
      ("request_digest", JStr digest)]])].
Definition task_spec : TaskSpec := Eval vm_compute in
  match TaskSpec_from_dict task_dict with Ok t => t | Raise _ => sample_task end.
Definition task : CompiledTaskAuthority :=
  {| ct_version := 1; ct_project_ref := ProjectSpec_reference project;
     ct_program_ref := ProgramSpec_reference program;
     ct_goal_ref := CompiledGoalAuthority_reference goal;
     ct_required_decision_gates := ["provider"];
     ct_decision_gate_contracts :=
       [{| dg_gate_id := "provider"; dg_capability := C_PROVIDER_COST; dg_action := "generate";
           dg_resource := "provider://images"; dg_request_digest := digest |}];
     ct_provider_budget_minor_units := 100; ct_provider_call_limit := 1;
     ct_budget_currency := "EUR"; ct_task_spec := task_spec;
     ct_schema_version := task_authority_schema |}.

Lemma authority_narrows_witness :
  ∃ P R G, ProjectSpec_from_dict (ProjectSpec_to_dict project) = Ok P ∧
    narrows (pj_authority P) (_task_bounds task (ab_required_decision_gates (pg_authority R))) ∧
    ct_goal_ref task = CompiledGoalAuthority_reference G.
Proof.
  assert (validate_task_authority task project program goal (Some graph) None = Ok task) as Hok
    by vm_cast_no_check (eq_refl (Ok task)).
  pose proof (authority_narrows _ _ _ _ _ _ _ Hok) as (P & R & G & HP & _ & _ & _ & _ & HG & _ & Hn & _).
  exists P, R, G. split; [exact HP|]. split; [exact Hn|exact HG].
Defined.

Lemma program_graph_checked_witness :
  ¬ tc (λ p q, p ∈ graph ∧ q ∈ graph ∧ ProgramSpec_reference q ∈ pg_dependency_refs p) program program.
Proof.
  assert (validate_program_graph project graph = Ok tt) as Hok by vm_cast_no_check (eq_refl (Ok tt)).
  pose proof (proj2 (program_graph_checked project graph) Hok) as (_ & _ & H). exact (H program).
Defined.

(** A cycle is found, and so is a stale reference. *)
Definition looped : ProgramSpec :=
  {| pg_program_id := "base"; pg_version := 1; pg_project_ref := ProjectSpec_reference project;
     pg_objective := "build"; pg_state := PS_COMPILED;
     pg_dependency_refs := [ProgramSpec_reference program]; pg_wave := 0;
     pg_authority := pg_authority base; pg_schema_version := program_schema |}.
Example cycle_rejected : validate_program_graph project [looped; program] = Raise ContractError.
Proof. vm_compute. reflexivity. Qed.

Lemma authority_roundtrip_witness :
  CompiledTaskAuthority_from_dict (CompiledTaskAuthority_to_dict task) = Ok task ∧
  ProgramSpec_from_dict (ProgramSpec_to_dict program) = Ok program.
Proof.
  split.
  - apply (authority_roundtrip (CompiledTaskAuthority_to_dict task)).
    vm_cast_no_check (eq_refl (Ok task)).
  - apply (authority_roundtrip (ProgramSpec_to_dict program)).
    vm_cast_no_check (eq_refl (Ok program)).
Defined.
End Spine.
