(* ===== verification/Compiler.v ===== *)
(** * Compiling authoring packets ([compiler.py], the compilers of [authority_compiler.py])

    A human writes a goal contract or a task packet with contextual fields, a
    closed-by-default gate per dangerous capability and a policy for the
    evaluator; the compiler turns it into the strict specification.  The
    theorems show that a gated capability needs its gate explicitly open, that
    compiling is stable (the compiled specification compiles to itself), and that
    an authority that was compiled validates to itself. *)

From S2P Require Import Prelude PyStr Json Enums Contracts Scope Db Authority.

Local Open Scope string_scope.

(** ** The authoring contract *)
Definition _GATE_CAPABILITIES : list (string * string) :=
  [("network", "network"); ("external_download", "external_download");
   ("repo_remote", "repo_remote"); ("server_write", "server_write");
   ("provider", "provider_cost"); ("public_release", "public_release");
   ("destructive_operations", "destructive")].

(** [value in {...}]: hashing a list or an object raises, [1] equals [True] and
    [0] equals [False]. *)
Definition in_set (f : json → bool) (j : json) : res bool :=
  match j with JList _ | JObj _ => Raise PyTypeError | _ => Ok (f j) end.

Definition _OPEN_VALUES (j : json) : bool :=
  match j with
  | JBool true => true
  | JInt z => (z =? 1)%Z
  | JStr s => memb s ["open"; "allowed"; "scoped_open"; "write_allowed"; "push_pr_allowed"]
  | _ => false
  end.
Definition _CLOSED_VALUES (j : json) : bool :=
  match j with
  | JNull | JBool false => true
  | JInt z => (z =? 0)%Z
  | JStr s => memb s ["closed"; "denied"; "none"]
  | _ => false
  end.
Definition _EVALUATOR_POLICIES : list string :=
  ["not_required"; "required_before_integration"; "required_before_claim"].

Definition GOAL_EXECUTABLE_FIELDS : list string :=
  ["goal_id"; "target_outcome"; "success_evidence_states"; "owner_authority";
   "required_runtime_surfaces"; "evaluator_required"; "circuit_breakers"; "non_goals"].
Definition GOAL_CONTEXTUAL_FIELDS : list string :=
  ["source_request"; "context_pack"; "project_adoption_ref"; "integration_policy";
   "stop_routes"; "closeout_shape"].
Definition GOAL_AUTHORITY_FIELDS : list string :=
  ["read_scope"; "write_scope"; "forbidden_scope"; "allowed_capabilities"].
Definition GOAL_CIRCUIT_BREAKER_FIELDS : list string :=
  ["max_iterations_without_new_evidence"; "provider_budget"].
Definition PROVIDER_BUDGET_FIELDS : list string := ["currency"; "max_minor_units"; "max_calls"].
Definition TASK_EXECUTABLE_FIELDS : list string :=
  ["task_id"; "parent_goal_id"; "objective"; "expected_delta"; "primary_artifact_or_surface";
   "read_scope"; "write_scope"; "forbidden_scope"; "capabilities"; "evaluator_policy";
   "evaluator_required"; "integration_required"; "required_runtime_surfaces"; "gates";
   "workflow_steps"; "evidence_target"; "max_attempts"].
Definition TASK_CONTEXTUAL_FIELDS : list string :=
  ["dirty_boundary"; "worktree_policy"; "worker_policy"; "procedure"; "verification_route";
   "integration_route"; "stop_conditions"; "close_condition"; "delete_or_retire_condition";
   "requirement_closure_map"; "non_claims"].

Record CompilationResult := {
  cr_kind : string; cr_source_digest : string; cr_compiled : dict;
  cr_non_executable_authoring_fields : list string; cr_warnings : list string }.

Definition _object (j : json) : res dict := mapping j.

Definition _reject_unknown (value : dict) (allowed : list string) : res unit :=
  require (forallb (λ k, memb k allowed) (dkeys value)) ContractError.

(** [tuple(sorted(set(packet) - executable))] *)
Definition ignored_fields (packet : dict) (executable : list string) : list string :=
  sort_by id (fromkeys (List.filter (λ k, negb (memb k executable)) (dkeys packet))).
Definition warning (name : string) : string :=
  "authoring field is contextual, not executable authority: " +:+ name.

Section compiler.
Context `{ENV : Env}.

Definition compilation (kind : string) (source compiled : dict) (ignored : list string) :
    CompilationResult :=
  {| cr_kind := kind; cr_source_digest := content_hash (JObj source); cr_compiled := compiled;
     cr_non_executable_authoring_fields := ignored; cr_warnings := warning <$> ignored |}.

Definition goal_packet_dict (packet authority breakers provider_budget : dict) : dict :=
  [("goal_id", dget_or packet "goal_id" JNull);
   ("target_outcome", dget_or packet "target_outcome" JNull);
   ("success_evidence_states", dget_or packet "success_evidence_states" (JList []));
   ("read_scope", dget_or authority "read_scope" (JList []));
   ("write_scope", dget_or authority "write_scope" (JList []));
   ("forbidden_scope", dget_or authority "forbidden_scope" (JList []));
   ("allowed_capabilities", dget_or authority "allowed_capabilities" (jstrs ["read_local"]));
   ("required_runtime_surfaces", dget_or packet "required_runtime_surfaces" (JList []));
   ("evaluator_required", dget_or packet "evaluator_required" (JBool false));
   ("max_iterations_without_evidence",
      dget_or breakers "max_iterations_without_new_evidence" (JInt 3));
   ("provider_budget_minor_units", dget_or provider_budget "max_minor_units" (JInt 0));
   ("provider_call_limit", dget_or provider_budget "max_calls" (JInt 0));
   ("budget_currency", dget_or provider_budget "currency" (JStr "USD"));
   ("non_goals", dget_or packet "non_goals" (JList []))].

Definition compile_goal (authoring : json) : res (GoalSpec * CompilationResult) :=
  source ← _object authoring;
  match dget source "goal_contract" with
  | None =>
    spec ← GoalSpec_from_dict source;
    _ ← validate_goal_scope spec;
    Ok (spec, compilation "GoalSpec" source (GoalSpec_to_dict spec) [])
  | Some contract =>
    packet ← _object contract;
    authority ← _object (dget_or packet "owner_authority" (JObj []));
    breakers ← _object (dget_or packet "circuit_breakers" (JObj []));
    _ ← _reject_unknown packet (GOAL_EXECUTABLE_FIELDS ++ GOAL_CONTEXTUAL_FIELDS)%list;
    _ ← _reject_unknown authority GOAL_AUTHORITY_FIELDS;
    _ ← _reject_unknown breakers GOAL_CIRCUIT_BREAKER_FIELDS;
    provider_budget ← _object (dget_or breakers "provider_budget" (JObj []));
    _ ← _reject_unknown provider_budget PROVIDER_BUDGET_FIELDS;
    spec ← GoalSpec_from_dict (goal_packet_dict packet authority breakers provider_budget);
    _ ← validate_goal_scope spec;
    Ok (spec, compilation "GoalSpec" source (GoalSpec_to_dict spec)
                (ignored_fields packet GOAL_EXECUTABLE_FIELDS))
  end.

(** One round of the loop over [_GATE_CAPABILITIES]. *)
Definition check_gate (gates : dict) (capabilities : list json) (gc : string * string) : res unit :=
  let '(gate, capability) := gc in
  let granted := existsb (λ j, json_is j capability) capabilities in
  match dget gates gate with
  | None => require (negb granted) ContractError
  | Some gate_value =>
    open ← in_set _OPEN_VALUES gate_value;
    closed ← in_set _CLOSED_VALUES gate_value;
    _ ← require (open || closed) ContractError;
    _ ← require (negb (open && negb granted)) ContractError;
    require (negb (closed && granted)) ContractError
  end.

Definition task_packet_dict (packet : dict) (capabilities : json) (evaluator_required : bool) : dict :=
  [("task_id", dget_or packet "task_id" JNull);
   ("goal_id", dget_or packet "parent_goal_id" JNull);
   ("objective", dget_or packet "objective" JNull);
   ("expected_delta", dget_or packet "expected_delta" JNull);
   ("primary_surface", dget_or packet "primary_artifact_or_surface" JNull);
   ("evidence_target", dget_or packet "evidence_target" JNull);
   ("capabilities", capabilities);
   ("read_scope", dget_or packet "read_scope" (JList []));
   ("write_scope", dget_or packet "write_scope" (JList []));
   ("forbidden_scope", dget_or packet "forbidden_scope" (JList []));
   ("required_runtime_surfaces", dget_or packet "required_runtime_surfaces" (JList []));
   ("evaluator_required", JBool evaluator_required);
   ("integration_required", dget_or packet "integration_required" (JBool true));
   ("workflow_steps", dget_or packet "workflow_steps" (JList []));
   ("max_attempts", dget_or packet "max_attempts" (JInt 3))].

Definition compile_task (authoring : json) (goal : GoalSpec) : res (TaskSpec * CompilationResult) :=
  source ← _object authoring;
  match dget source "task_packet" with
  | None =>
    spec ← TaskSpec_from_dict source;
    _ ← validate_task_within_goal goal spec;
    Ok (spec, compilation "TaskSpec" source (TaskSpec_to_dict spec) [])
  | Some task_packet =>
    packet ← _object task_packet;
    _ ← _reject_unknown packet (TASK_EXECUTABLE_FIELDS ++ TASK_CONTEXTUAL_FIELDS)%list;
    let evaluator_policy := dget_or packet "evaluator_policy" (JStr "not_required") in
    known ← in_set (λ j, existsb (json_is j) _EVALUATOR_POLICIES) evaluator_policy;
    _ ← require known ContractError;
    let evaluator_required :=
      existsb (json_is evaluator_policy) ["required_before_integration"; "required_before_claim"] in
    capabilities ← list_items (dget_or packet "capabilities" (jstrs ["read_local"]));
    gates ← _object (dget_or packet "gates" (JObj []));
    _ ← require (forallb (λ g, memb g _GATE_CAPABILITIES.*1) (dkeys gates)) ContractError;
    _ ← foldR (λ _, check_gate gates capabilities) tt _GATE_CAPABILITIES;
    _ ← match dget_or packet "evaluator_required" JNull with
        | JNull => Ok tt
        | JBool b => require (Bool.eqb b evaluator_required) ContractError
        | _ => Raise ContractError
        end;
    spec ← TaskSpec_from_dict (task_packet_dict packet (JList capabilities) evaluator_required);
    _ ← validate_task_within_goal goal spec;
    Ok (spec, compilation "TaskSpec" source (TaskSpec_to_dict spec)
                (ignored_fields packet TASK_EXECUTABLE_FIELDS))
  end.

(** ** Compiling authorities *)
Definition compile_goal_authority (authoring : json) (project : ProjectSpec) (program : ProgramSpec)
    (version : Z) (program_graph : option (list ProgramSpec)) (provider : option StateProvider) :
    res (CompiledGoalAuthority * CompilationResult) :=
  '(goal, result) ← compile_goal authoring;
  version ← _positive_int (JInt version);
  project' ← ProjectSpec_from_dict (ProjectSpec_to_dict project);
  program' ← ProgramSpec_from_dict (ProgramSpec_to_dict program);
  let candidate :=
    {| cg_version := version; cg_project_ref := ProjectSpec_reference project';
       cg_program_ref := ProgramSpec_reference program';
       cg_required_decision_gates := ab_required_decision_gates (pg_authority program');
       cg_goal_spec := goal; cg_schema_version := goal_authority_schema |} in
  authority ← validate_goal_authority candidate project program program_graph provider;
  Ok (authority, result).

(** [budget_currency or default] *)
Definition or_default (o : option string) (d : string) : string :=
  match o with Some s => if bool_decide (s = "") then d else s | None => d end.

Definition compile_task_authority (authoring : json) (project : ProjectSpec) (program : ProgramSpec)
    (goal : CompiledGoalAuthority) (provider_budget_minor_units provider_call_limit : Z)
    (budget_currency : option string) (version : Z)
    (program_graph : option (list ProgramSpec)) (provider : option StateProvider) :
    res (CompiledTaskAuthority * CompilationResult) :=
  canonical_goal ← validate_goal_authority goal project program program_graph provider;
  '(task, result) ← compile_task authoring (cg_goal_spec canonical_goal);
  let currency := upper (or_default budget_currency (gs_budget_currency (cg_goal_spec canonical_goal))) in
  budget ← _non_negative_int (JInt provider_budget_minor_units);
  calls ← _non_negative_int (JInt provider_call_limit);
  version ← _positive_int (JInt version);
  project' ← ProjectSpec_from_dict (ProjectSpec_to_dict project);
  program' ← ProgramSpec_from_dict (ProgramSpec_to_dict program);
  contracts ← _canonical_decision_gate_contracts task (cg_required_decision_gates canonical_goal);
  let candidate :=
    {| ct_version := version; ct_project_ref := ProjectSpec_reference project';
       ct_program_ref := ProgramSpec_reference program';
       ct_goal_ref := CompiledGoalAuthority_reference canonical_goal;
       ct_required_decision_gates := cg_required_decision_gates canonical_goal;
       ct_decision_gate_contracts := contracts; ct_provider_budget_minor_units := budget;
       ct_provider_call_limit := calls; ct_budget_currency := currency;
       ct_task_spec := task; ct_schema_version := task_authority_schema |} in
  authority ← validate_task_authority candidate project program canonical_goal program_graph provider;
  Ok (authority, result).

(** ** Gates are closed by default *)
Definition packet_gates (packet : dict) : dict :=
  match dget_or packet "gates" (JObj []) with JObj d => d | _ => [] end.
Definition gate_open (packet : dict) (gate : string) : bool :=
  match dget (packet_gates packet) gate with Some v => _OPEN_VALUES v | None => false end.
Definition policy_requires_evaluator (packet : dict) : bool :=
  existsb (json_is (dget_or packet "evaluator_policy" (JStr "not_required")))
    ["required_before_integration"; "required_before_claim"].

Lemma open_not_closed j : _OPEN_VALUES j = true → _CLOSED_VALUES j = false.
Proof.
  destruct j as [|[]|z|s| |]; try done; simpl.
  - intros Hz%Z.eqb_eq. subst. done.
  - intros Hs%memb_true. apply bool_decide_eq_false. set_solver.
Qed.

Lemma granted_parsed es caps (l : list Capability) c :
  reraise es (iter_items (JList caps) ≫= mapR of_json) = Ok l →
  c ∈ l ↔ existsb (λ j, json_is j (value c)) caps = true.
Proof.
  unfold iter_items. rewrite res_ret_bind. intros H.
  destruct (mapR of_json caps) as [l'|] eqn:Hm; [injection H as <-|done].
  apply mapR_ok in Hm. induction Hm as [|j c' caps l' Hj Hm IH]; [set_solver|].
  cbn [existsb]. rewrite orb_true_iff, elem_of_cons, IH.
  assert (c = c' ↔ json_is j (value c) = true) as ->; [|done].
  destruct j as [| | |s| |]; try done. simpl in Hj. apply of_value_ok in Hj as <-.
  simpl. rewrite bool_decide_eq_true. split; [by intros ->|intros Hv; symmetry; by apply value_inj].
Qed.

Lemma check_gate_ok gates caps gate cap :
  check_gate gates caps (gate, cap) = Ok tt →
  existsb (λ j, json_is j cap) caps
  = match dget gates gate with Some v => _OPEN_VALUES v | None => false end.
Proof.
  unfold check_gate. destruct (dget gates gate) as [v|].
  - assert (∀ f b, in_set f v = Ok b → b = f v) as Hin by (by intros f b; destruct v; simpl; congruence).
    intros (open & Ho%Hin & H)%res_bind_ok. apply res_bind_ok in H as (closed & Hc%Hin & H). subst.
    apply res_bind_ok in H as ([] & H1%require_ok & H). apply res_bind_ok in H as ([] & H2%require_ok & H3%require_ok).
    destruct (_OPEN_VALUES v), (existsb _ caps); try done. simpl in *. rewrite H1 in H3. done.
  - intros H%require_ok. by apply negb_true_iff.
Qed.

Lemma parsed_capabilities d spec :
  TaskSpec_from_dict d = Ok spec →
  reraise [PyTypeError; PyValueError]
    (iter_items (dget_or d "capabilities" (jstrs ["read_local"])) ≫= mapR of_json)
  = Ok (ts_capabilities spec).
Proof. unfold TaskSpec_from_dict. intros H. rinv. done. Qed.
Lemma parsed_evaluator d spec :
  TaskSpec_from_dict d = Ok spec →
  bool_of (dget_or d "evaluator_required" (JBool false)) = Ok (ts_evaluator_required spec).
Proof. unfold TaskSpec_from_dict. intros H. rinv. done. Qed.

(** A task packet grants a dangerous capability exactly when its gate is
    explicitly open.  A missing gate is closed; an open gate whose capability is
    not listed, and a listed capability whose gate is closed, are refused; the
    evaluator is required exactly when the policy says so; and the compiled task
    is contained in its goal. *)
Theorem gates_closed_by_default source packet goal spec result :
  compile_task (JObj source) goal = Ok (spec, result) →
  dget source "task_packet" = Some (JObj packet) →
  (∀ gate c, (gate, value c) ∈ _GATE_CAPABILITIES →
     c ∈ ts_capabilities spec ↔ gate_open packet gate = true) ∧
  ts_evaluator_required spec = policy_requires_evaluator packet ∧
  validate_task_within_goal goal spec = Ok tt.
Proof.
  intros H Hp. unfold compile_task in H. cbn [_object mapping] in H. rewrite res_ret_bind, Hp in H.
  cbn [_object mapping] in H. rewrite res_ret_bind in H. cbv zeta in H.
  apply res_bind_ok in H as (? & _ & H). apply res_bind_ok in H as (? & _ & H).
  apply res_bind_ok in H as (? & _ & H). apply res_bind_ok in H as (caps & _ & H).
  apply res_bind_ok in H as (gates & Hg & H). apply res_bind_ok in H as (? & _ & H).
  apply res_bind_ok in H as ([] & Hgates & H). apply res_bind_ok in H as (? & _ & H).
  apply res_bind_ok in H as (spec' & Hspec & H). apply res_bind_ok in H as ([] & Hin & [= -> _]).
  assert (packet_gates packet = gates) as Hpg.
  { unfold packet_gates. destruct (dget_or packet "gates" (JObj [])); try done. by injection Hg. }
  split_and!; [|by apply parsed_evaluator in Hspec as [= <-]|done].
  intros gate c Hgc. apply (foldR_check _ _ Hgates), check_gate_ok in Hgc.
  rewrite (granted_parsed _ _ _ _ (parsed_capabilities _ _ Hspec)), Hgc.
  unfold gate_open. by rewrite Hpg.
Qed.

(** ** Compiling is stable *)
Lemma compile_goal_ok authoring spec r :
  compile_goal authoring = Ok (spec, r) →
  goal_wf spec ∧ validate_goal_scope spec = Ok tt ∧ cr_compiled r = GoalSpec_to_dict spec.
Proof.
  unfold compile_goal. intros (source & _ & H)%res_bind_ok.
  destruct (dget source "goal_contract") as [contract|]; rinv;
    match goal with u : unit |- _ => destruct u end;
    (split; [by eapply goal_ok|done]).
Qed.
Lemma compile_task_ok authoring goal spec r :
  compile_task authoring goal = Ok (spec, r) →
  task_wf spec ∧ validate_task_within_goal goal spec = Ok tt ∧ cr_compiled r = TaskSpec_to_dict spec.
Proof.
  unfold compile_task. intros (source & _ & H)%res_bind_ok.
  destruct (dget source "task_packet") as [packet|].
  - apply res_bind_ok in H as (p & _ & H). cbv zeta in H.
    do 8 apply res_bind_ok in H as (? & _ & H).
    apply res_bind_ok in H as (? & Hs%task_ok & H). apply res_bind_ok in H as ([] & Hw & [= -> <-]). done.
  - apply res_bind_ok in H as (? & Hs%task_ok & H). apply res_bind_ok in H as ([] & Hw & [= -> <-]). done.
Qed.

(** A compiled contract stands for the packet it was compiled from.  What
    the compiler reports as compiled is the serialised specification, and
    compiling that again gives the same specification and the same report,
    without warnings. *)
Theorem compiling_is_stable authoring goal :
  (∀ spec r, compile_goal authoring = Ok (spec, r) →
     compile_goal (JObj (cr_compiled r))
     = Ok (spec, compilation "GoalSpec" (cr_compiled r) (cr_compiled r) [])) ∧
  (∀ spec r, compile_task authoring goal = Ok (spec, r) →
     compile_task (JObj (cr_compiled r)) goal
     = Ok (spec, compilation "TaskSpec" (cr_compiled r) (cr_compiled r) [])).
Proof.
  split; intros spec r H.
  - apply compile_goal_ok in H as (Hwf & Hscope & ->). unfold compile_goal.
    cbn [_object mapping]. rewrite res_ret_bind.
    replace (dget (GoalSpec_to_dict spec) "goal_contract") with (@None json) by reflexivity.
    by rewrite (goal_rt _ Hwf), res_ret_bind, Hscope.
  - apply compile_task_ok in H as (Hwf & Hscope & ->). unfold compile_task.
    cbn [_object mapping]. rewrite res_ret_bind.
    replace (dget (TaskSpec_to_dict spec) "task_packet") with (@None json) by reflexivity.
    by rewrite (task_rt _ Hwf), res_ret_bind, Hscope.
Qed.

(** ** Compiled authorities are valid *)
Lemma validate_goal_canonical authority authority' project program graph provider G :
  CompiledGoalAuthority_from_dict (CompiledGoalAuthority_to_dict authority')
  = CompiledGoalAuthority_from_dict (CompiledGoalAuthority_to_dict authority) →
  validate_goal_authority authority project program graph provider = Ok G →
  validate_goal_authority authority' project program graph provider = Ok G.
Proof. intros Heq. unfold validate_goal_authority. by rewrite Heq. Qed.
Lemma validate_task_canonical authority authority' project program goal graph provider T :
  CompiledTaskAuthority_from_dict (CompiledTaskAuthority_to_dict authority')
  = CompiledTaskAuthority_from_dict (CompiledTaskAuthority_to_dict authority) →
  validate_task_authority authority project program goal graph provider = Ok T →
  validate_task_authority authority' project program goal graph provider = Ok T.
Proof. intros Heq. unfold validate_task_authority. by rewrite Heq. Qed.

(** A compiled authority is one that the kernel accepts unchanged: the goal
    authority that [compile_goal_authority] returns validates to itself under
    the same project and program, and so does the task authority under the
    canonical goal authority it was compiled for; both carry the specification
    that the compilation reports. *)
Theorem compiled_authority_valid authoring project program graph provider version :
  (∀ G r, compile_goal_authority authoring project program version graph provider = Ok (G, r) →
     validate_goal_authority G project program graph provider = Ok G ∧
     cr_compiled r = GoalSpec_to_dict (cg_goal_spec G)) ∧
  (∀ goal budget calls currency T r,
     compile_task_authority authoring project program goal budget calls currency version
       graph provider = Ok (T, r) →
     ∃ G, validate_goal_authority goal project program graph provider = Ok G ∧
          validate_task_authority T project program G graph provider = Ok T ∧
          cr_compiled r = TaskSpec_to_dict (ct_task_spec T)).
Proof.
  split.
  - unfold compile_goal_authority. intros G r ([goal r'] & Hc & H)%res_bind_ok. simpl in H.
    apply compile_goal_ok in Hc as (Hwf & _ & Hr).
    do 3 apply res_bind_ok in H as (? & _ & H). cbv zeta in H.
    apply res_bind_ok in H as (G' & Hv & [= -> ->]).
    pose proof (validate_goal_ok _ _ _ _ _ _ Hv) as [Hparse _]. split.
    + eapply validate_goal_canonical; [|exact Hv]. rewrite Hparse. by eapply goal_authority_rt.
    + rewrite Hr. f_equal. by eapply goal_authority_spec in Hparse.
  - unfold compile_task_authority. intros goal budget calls currency T r (G & HG & H)%res_bind_ok.
    apply res_bind_ok in H as ([task r'] & Hc & H). simpl in H. cbv zeta in H.
    apply compile_task_ok in Hc as (Hwf & _ & Hr).
    do 6 apply res_bind_ok in H as (? & _ & H). 
    apply res_bind_ok in H as (T' & Hv & [= -> ->]).
    pose proof (validate_task_ok _ _ _ _ _ _ _ Hv) as [Hparse _].
    exists G. split_and!; [done| |].
    + eapply validate_task_canonical; [|exact Hv]. rewrite Hparse. by eapply task_authority_rt.
    + rewrite Hr. f_equal. by eapply task_authority_spec in Hparse.
Qed.
End compiler.

(** ** Packets that compile *)
Module Packets.
Import Db.Toy.

Definition goal_packet : json :=
  JObj [("goal_contract", JObj [("goal_id", JStr "g1"); ("target_outcome", JStr "ship");
    ("success_evidence_states", jstrs ["runtime_verification"]);
    ("owner_authority", JObj [("read_scope", jstrs ["src/app/**"]);
       ("write_scope", jstrs ["src/app/**"; "provider://images"]);
       ("allowed_capabilities", jstrs ["read_local"; "write_local"; "provider_cost"])]);
    ("evaluator_required", JBool true); ("stop_routes", JList []);
    ("circuit_breakers", JObj [("provider_budget", JObj [("currency", JStr "EUR");
       ("max_minor_units", JInt 500); ("max_calls", JInt 4)])])])].

Definition task_packet : dict :=
  [("task_id", JStr "t1"); ("parent_goal_id", JStr "g1"); ("objective", JStr "draw");
   ("expected_delta", JStr "d"); ("primary_artifact_or_surface", JStr "api");
   ("evidence_target", JStr "runtime_verification");
   ("capabilities", jstrs ["write_local"; "provider_cost"]);
   ("gates", JObj [("provider", JStr "open"); ("network", JStr "closed")]);
   ("evaluator_policy", JStr "required_before_claim");
   ("write_scope", jstrs ["src/app/x"; "provider://images"]);
   ("workflow_steps", JList [JObj [("step_id", JStr "s1"); ("adapter", JStr "fake");
      ("action", JStr "generate"); ("resource", JStr "provider://images");
      ("request_digest", JStr Spine.digest)]]); ("procedure", JStr "as usual")].
Definition task_source : dict := [("task_packet", JObj task_packet)].

Definition compiled_goal : GoalSpec * CompilationResult := Eval vm_compute in
  match compile_goal goal_packet with
  | Ok p => p
  | Raise _ => (sample_goal, Build_CompilationResult "" "" [] [] [])
  end.
Definition compiled_task : TaskSpec * CompilationResult := Eval vm_compute in
  match compile_task (JObj task_source) compiled_goal.1 with
  | Ok p => p
  | Raise _ => (sample_task, Build_CompilationResult "" "" [] [] [])
  end.

Example warned : cr_warnings compiled_task.2
  = ["authoring field is contextual, not executable authority: procedure"].
Proof. vm_compute. reflexivity. Qed.

Lemma gates_closed_by_default_witness :
  C_PROVIDER_COST ∈ ts_capabilities compiled_task.1 ∧ C_NETWORK ∉ ts_capabilities compiled_task.1.
Proof.
  assert (compile_task (JObj task_source) compiled_goal.1 = Ok (compiled_task.1, compiled_task.2)) as Hok
    by vm_cast_no_check (eq_refl (Ok compiled_task)).
  destruct (gates_closed_by_default task_source task_packet compiled_goal.1 _ _ Hok eq_refl) as [H _].
  assert (∀ gc, memb gc _GATE_CAPABILITIES = true → gc ∈ _GATE_CAPABILITIES) as Hmem
    by (intros gc; apply memb_true).
  split.
  - refine (proj2 (H "provider" C_PROVIDER_COST (Hmem _ _)) _); by_eval.
  - intros Hn. assert (gate_open task_packet "network" = false) as Hclosed by (vm_compute; reflexivity).
    rewrite (proj1 (H "network" C_NETWORK (Hmem _ ltac:(by_eval))) Hn) in Hclosed. discriminate.
Defined.

Lemma compiling_is_stable_witness :
  is_ok (compile_goal (JObj (cr_compiled compiled_goal.2))) = true ∧
  is_ok (compile_task (JObj (cr_compiled compiled_task.2)) compiled_goal.1) = true.
Proof.
  assert (compile_goal goal_packet = Ok (compiled_goal.1, compiled_goal.2)) as Hg
    by vm_cast_no_check (eq_refl (Ok compiled_goal)).
  assert (compile_task (JObj task_source) compiled_goal.1 = Ok (compiled_task.1, compiled_task.2)) as Ht
    by vm_cast_no_check (eq_refl (Ok compiled_task)).
  split.
  - exact (f_equal is_ok (proj1 (compiling_is_stable goal_packet compiled_goal.1) _ _ Hg)).
  - exact (f_equal is_ok (proj2 (compiling_is_stable (JObj task_source) compiled_goal.1) _ _ Ht)).
Defined.

Definition compiled_authority : CompiledGoalAuthority * CompilationResult := Eval vm_compute in
  match compile_goal_authority goal_packet Spine.project Spine.program 1 (Some Spine.graph) None with
  | Ok p => p
  | Raise _ => (Spine.goal, compiled_goal.2)
  end.

Lemma compiled_authority_valid_witness :
  validate_goal_authority compiled_authority.1 Spine.project Spine.program (Some Spine.graph) None
  = Ok compiled_authority.1.
Proof.
  assert (compile_goal_authority goal_packet Spine.project Spine.program 1 (Some Spine.graph) None
    = Ok (compiled_authority.1, compiled_authority.2)) as Hok
    by vm_cast_no_check (eq_refl (Ok compiled_authority)).
  exact (proj1 (proj1 (compiled_authority_valid goal_packet Spine.project Spine.program
    (Some Spine.graph) None 1) _ _ Hok)).
Defined.

(** A gate whose state is a list or an object escapes as a [TypeError]; the
    numbers 1 and 0 pass for true and false. *)
Example gate_state_type_error :
  compile_task (JObj [("task_packet", JObj (("gates", JObj [("provider", JList [])]) :: task_packet))])
    compiled_goal.1 = Raise PyTypeError.
Proof. vm_compute. reflexivity. Qed.
Example gate_state_number :
  is_ok (compile_task (JObj [("task_packet", JObj (("gates", JObj [("provider", JInt 1)]) :: task_packet))])
    compiled_goal.1) = true.
Proof. vm_compute. reflexivity. Qed.
End Packets.
