(* ===== verification/Packs.v ===== *)
(** * Domain packs ([domain_packs.py])

    A domain pack is the only way in which a domain reaches the core: an object
    that names itself and hands out authoring packets for a goal and a task.
    [compile_domain_pack] turns it into a bundle, the strict contracts with the
    digests of their sources; the conformance harness compiles a pack twice and
    reads the bundle back.  A pack is code of somebody else, so here it is a record
    of operations over a state of its own, and every reading of it may raise or
    give another answer.

    The theorems show that a bundle survives its wire format, that the harness
    tests nothing but determinism, and that packs which pass together own disjoint
    parts of the world. *)

From S2P Require Import Prelude PyStr Json Enums Contracts Scope Db Authority Compiler.

Local Open Scope string_scope.

Definition CORE_CONTRACT_VERSION : string := "aos.core.v0.1".
Definition _FIXTURE_FIELDS : list string :=
  ["pack_id"; "pack_version"; "domain"; "domain_ref"; "goal_authoring"; "task_authoring"].
Definition _BUNDLE_FIELDS : list string :=
  ["contract_version"; "domain_pack"; "domain_ref"; "goal_spec"; "task_spec"; "source_digests"].

(** ** Checks *)
Definition _exact_fields (value : dict) (fields : list string) : res unit :=
  _ ← require (forallb (λ k, memb k (dkeys value)) fields) ContractError;
  require (forallb (λ k, memb k fields) (dkeys value)) ContractError.

Definition _text (v : json) : res string :=
  match v with
  | JStr s => _ ← require (negb (blank s)) ContractError; Ok (strip s)
  | _ => Raise ContractError
  end.

Definition pack_id_char (c : Ascii.ascii) : bool :=
  contains_char c "abcdefghijklmnopqrstuvwxyz0123456789-".

Definition _pack_id (v : json) : res string :=
  result ← _text v;
  _ ← require (forallb pack_id_char (chars result)) ContractError;
  Ok result.

Definition _digest (v : json) : res string :=
  result ← _text v;
  _ ← require (sha256_hex result) ContractError;
  Ok result.

Definition _validate_adapter_namespace (pack_id : string) (task : TaskSpec) : res unit :=
  let adapter_prefix := pack_id +:+ "." in
  require (forallb (λ step, startswith (ws_adapter step) adapter_prefix
                            && negb (bool_decide (ws_adapter step = adapter_prefix)))
             (ts_workflow_steps task)) ContractError.

(** The prefix of the references that a pack owns. *)
Definition domain_prefix (pack_id : string) : string := "domain://" +:+ pack_id +:+ "/".
Definition owned_ref (pack_id : string) (v : json) : res string :=
  domain_ref ← _text v;
  _ ← require (startswith domain_ref (domain_prefix pack_id)) ContractError;
  Ok domain_ref.

(** ** Packs *)
Record DomainPack (St : Type) := {
  dp_pack_id : M St json; dp_pack_version : M St json; dp_domain : M St json; dp_domain_ref : M St json;
  dp_goal_authoring : M St json; dp_task_authoring : M St json }.
Arguments dp_pack_id {St} _.
Arguments dp_pack_version {St} _.
Arguments dp_domain {St} _.
Arguments dp_domain_ref {St} _.
Arguments dp_goal_authoring {St} _.
Arguments dp_task_authoring {St} _.

Record FixtureDomainPack := {
  fx_pack_id : string; fx_pack_version : string; fx_domain : string; fx_domain_ref : string;
  fx_goal_authoring : dict; fx_task_authoring : dict }.

Definition FixtureDomainPack_from_dict (data : dict) : res FixtureDomainPack :=
  _ ← _exact_fields data _FIXTURE_FIELDS;
  pack_id ← dindex data "pack_id" ≫= _pack_id;
  domain_ref ← dindex data "domain_ref" ≫= owned_ref pack_id;
  pack_version ← dindex data "pack_version" ≫= _text;
  domain ← dindex data "domain" ≫= _text;
  goal_authoring ← dindex data "goal_authoring" ≫= mapping;
  task_authoring ← dindex data "task_authoring" ≫= mapping;
  Ok {| fx_pack_id := pack_id; fx_pack_version := pack_version; fx_domain := domain;
        fx_domain_ref := domain_ref; fx_goal_authoring := goal_authoring; fx_task_authoring := task_authoring |}.

(** The object: its readings never change, since the packets are copied out. *)
Definition fixture_pack {St} (f : FixtureDomainPack) : DomainPack St := {|
  dp_pack_id := mret (JStr (fx_pack_id f)); dp_pack_version := mret (JStr (fx_pack_version f));
  dp_domain := mret (JStr (fx_domain f)); dp_domain_ref := mret (JStr (fx_domain_ref f));
  dp_goal_authoring := mret (JObj (fx_goal_authoring f)); dp_task_authoring := mret (JObj (fx_task_authoring f)) |}.

(** ** Bundles *)
Record AOSCoreBundle := {
  bd_pack_id : string; bd_pack_version : string; bd_domain_ref : string; bd_goal : GoalSpec; bd_task : TaskSpec;
  bd_goal_source_digest : string; bd_task_source_digest : string }.

#[export] Instance AOSCoreBundle_eq_dec : EqDecision AOSCoreBundle.
Proof. solve_decision. Defined.

Definition AOSCoreBundle_to_wire (b : AOSCoreBundle) : dict :=
  [("contract_version", JStr CORE_CONTRACT_VERSION);
   ("domain_pack", JObj [("pack_id", JStr (bd_pack_id b)); ("pack_version", JStr (bd_pack_version b))]);
   ("domain_ref", JStr (bd_domain_ref b));
   ("goal_spec", JObj (GoalSpec_to_dict (bd_goal b)));
   ("task_spec", JObj (TaskSpec_to_dict (bd_task b)));
   ("source_digests", JObj [("goal_authoring", JStr (bd_goal_source_digest b));
                            ("task_authoring", JStr (bd_task_source_digest b))])].

Definition AOSCoreBundle_from_wire (data : dict) : res AOSCoreBundle :=
  _ ← _exact_fields data _BUNDLE_FIELDS;
  version ← dindex data "contract_version";
  _ ← require (json_is version CORE_CONTRACT_VERSION) ContractError;
  identity ← dindex data "domain_pack" ≫= mapping;
  _ ← _exact_fields identity ["pack_id"; "pack_version"];
  digests ← dindex data "source_digests" ≫= mapping;
  _ ← _exact_fields digests ["goal_authoring"; "task_authoring"];
  pack_id ← dindex identity "pack_id" ≫= _pack_id;
  domain_ref ← dindex data "domain_ref" ≫= owned_ref pack_id;
  goal ← (dindex data "goal_spec" ≫= mapping) ≫= GoalSpec_from_dict;
  task ← (dindex data "task_spec" ≫= mapping) ≫= TaskSpec_from_dict;
  _ ← _validate_adapter_namespace pack_id task;
  _ ← validate_task_within_goal goal task;
  pack_version ← dindex identity "pack_version" ≫= _text;
  goal_source_digest ← dindex digests "goal_authoring" ≫= _digest;
  task_source_digest ← dindex digests "task_authoring" ≫= _digest;
  Ok {| bd_pack_id := pack_id; bd_pack_version := pack_version; bd_domain_ref := domain_ref; bd_goal := goal;
        bd_task := task; bd_goal_source_digest := goal_source_digest; bd_task_source_digest := task_source_digest |}.

(** ** Compilation and conformance *)
Section harness.
Context `{ENV : Env} {St : Type}.

Definition compile_domain_pack (pack : DomainPack St) : M St AOSCoreBundle :=
  v ← dp_pack_id pack;
  pack_id ← lift_res (_pack_id v);
  v ← dp_domain_ref pack;
  domain_ref ← lift_res (owned_ref pack_id v);
  v ← dp_goal_authoring pack;
  goal ← lift_res (compile_goal v);
  v ← dp_task_authoring pack;
  task ← lift_res (compile_task v goal.1);
  _ ← lift_res (_validate_adapter_namespace pack_id task.1);
  v ← dp_pack_version pack;
  pack_version ← lift_res (_text v);
  mret {| bd_pack_id := pack_id; bd_pack_version := pack_version; bd_domain_ref := domain_ref; bd_goal := goal.1;
          bd_task := task.1; bd_goal_source_digest := cr_source_digest goal.2;
          bd_task_source_digest := cr_source_digest task.2 |}.

(** Two wires are equal as Python objects; both have the shape of [to_wire], with
    a text, a number or a truth value in the same places. *)
Definition same_wire (a b : dict) : bool := bool_decide (canonical_json (JObj a) = canonical_json (JObj b)).

Definition checks : list string :=
  ["strict_goal_compile"; "strict_task_compile"; "authority_subset"; "adapter_namespace"; "opaque_domain_reference";
   "deterministic_recompile"; "strict_bundle_roundtrip"].
Definition non_claims : list string :=
  ["provider_smoke"; "human_acceptance"; "business_validation"; "active_rule_promotion"; "public_standard_status"].
Definition passed (names : list string) : json := JObj ((λ name, (name, JStr "passed")) <$> names).

Record DomainPackConformanceReport := {
  cp_pack_id : string; cp_domain : string; cp_goal_id : string; cp_task_id : string; cp_bundle_digest : string }.

Definition report_to_wire (r : DomainPackConformanceReport) : dict :=
  [("pack_id", JStr (cp_pack_id r)); ("domain", JStr (cp_domain r)); ("goal_id", JStr (cp_goal_id r));
   ("task_id", JStr (cp_task_id r)); ("status", JStr "passed"); ("bundle_digest", JStr (cp_bundle_digest r));
   ("checks", passed checks); ("evidence_state", JStr "runtime_verification"); ("non_claims", jstrs non_claims)].

Definition report_of (b : AOSCoreBundle) (domain : string) : DomainPackConformanceReport :=
  {| cp_pack_id := bd_pack_id b; cp_domain := domain; cp_goal_id := gs_goal_id (bd_goal b);
     cp_task_id := ts_task_id (bd_task b); cp_bundle_digest := content_hash (JObj (AOSCoreBundle_to_wire b)) |}.

Definition run_domain_pack_conformance (pack : DomainPack St) : M St DomainPackConformanceReport :=
  first ← compile_domain_pack pack;
  replay ← compile_domain_pack pack;
  let first_wire := AOSCoreBundle_to_wire first in
  _ ← ensure (same_wire first_wire (AOSCoreBundle_to_wire replay)) IntegrityError;
  roundtrip ← lift_res (AOSCoreBundle_from_wire first_wire);
  _ ← ensure (same_wire (AOSCoreBundle_to_wire roundtrip) first_wire) IntegrityError;
  v ← dp_domain pack;
  domain ← lift_res (_text v);
  mret (report_of first domain).

Definition cross_domain_report (reports : list DomainPackConformanceReport) : dict :=
  [("contract_version", JStr CORE_CONTRACT_VERSION); ("status", JStr "passed");
   ("checks", passed ["unique_domain_packs"; "unique_core_ids"; "shared_core_contract"; "domain_payload_outside_core"]);
   ("packs", JList ((λ r, JObj (report_to_wire r)) <$> reports));
   ("evidence_state", JStr "runtime_verification"); ("non_claims", jstrs non_claims)].

Definition run_cross_domain_conformance (packs : list (DomainPack St)) : M St dict :=
  _ ← ensure (2 <=? length packs)%nat ContractError;
  reports ← mapM run_domain_pack_conformance packs;
  _ ← ensure (no_dups (cp_pack_id <$> reports) && no_dups (cp_domain <$> reports)
              && no_dups (cp_goal_id <$> reports) && no_dups (cp_task_id <$> reports)) ContractError;
  mret (cross_domain_report reports).
End harness.

(** ** What a bundle is *)
Lemma pack_text_ok v s : _text v = Ok s → stripped s.
Proof.
  destruct v as [| | |t| |]; try done. simpl. rewrite res_bind_ok. intros (? & Hb%require_ok & [= <-]). bsplit.
  split; [by rewrite blank_strip|apply strip_idemp].
Qed.
Lemma pack_text_rt s : stripped s → _text (JStr s) = Ok s.
Proof. intros [Hb Hs]. simpl. by rewrite Hb, Hs. Qed.

Definition owned (pack_id domain_ref : string) : Prop :=
  stripped domain_ref ∧ startswith domain_ref (domain_prefix pack_id) = true.
Definition namespaced (pack_id : string) (task : TaskSpec) : Prop :=
  ∀ step, step ∈ ts_workflow_steps task →
    startswith (ws_adapter step) (pack_id +:+ ".") = true ∧ ws_adapter step ≠ pack_id +:+ ".".

(** The name of a pack, its reference, its contracts and their digests. *)
Record bundle_wf (b : AOSCoreBundle) : Prop := {
  bw_id : stripped (bd_pack_id b) ∧ forallb pack_id_char (chars (bd_pack_id b)) = true;
  bw_version : stripped (bd_pack_version b);
  bw_ref : owned (bd_pack_id b) (bd_domain_ref b);
  bw_goal : goal_wf (bd_goal b);
  bw_task : task_wf (bd_task b);
  bw_adapters : namespaced (bd_pack_id b) (bd_task b);
  bw_within : validate_task_within_goal (bd_goal b) (bd_task b) = Ok tt;
  bw_goal_digest : sha256_hex (bd_goal_source_digest b) = true;
  bw_task_digest : sha256_hex (bd_task_source_digest b) = true }.

Lemma pack_id_ok v s : _pack_id v = Ok s → stripped s ∧ forallb pack_id_char (chars s) = true.
Proof. unfold _pack_id. intros (t & Ht%pack_text_ok & (? & H%require_ok & [= <-])%res_bind_ok)%res_bind_ok. done. Qed.
Lemma owned_ok id v s : owned_ref id v = Ok s → owned id s.
Proof. unfold owned_ref. intros (t & Ht%pack_text_ok & (? & H%require_ok & [= <-])%res_bind_ok)%res_bind_ok. done. Qed.
Lemma digest_ok v s : _digest v = Ok s → sha256_hex s = true.
Proof. unfold _digest. intros (t & Ht%pack_text_ok & (? & H%require_ok & [= <-])%res_bind_ok)%res_bind_ok. done. Qed.
Lemma namespace_ok id task u : _validate_adapter_namespace id task = Ok u ↔ namespaced id task.
Proof.
  unfold _validate_adapter_namespace, namespaced. rewrite require_ok, forallb_In.
  by setoid_rewrite andb_true_iff; setoid_rewrite negb_true_iff; setoid_rewrite bool_decide_eq_false.
Qed.

Lemma hex_stripped s : sha256_hex s = true → stripped s.
Proof.
  unfold sha256_hex. intros [Hl Hh]%andb_prop. apply strip_hex in Hh as Hs. split; [|done].
  unfold blank. rewrite Hs. apply bool_decide_eq_false. intros ->. done.
Qed.

Lemma from_wire_ok d b : AOSCoreBundle_from_wire d = Ok b → bundle_wf b.
Proof.
  unfold AOSCoreBundle_from_wire. intros H. rinv. constructor; cbn;
    repeat match goal with
    | H : (dindex _ _ ≫= _) ≫= _ = Ok _ |- _ => apply res_bind_ok in H as (? & _ & H)
    | H : dindex _ _ ≫= _ = Ok _ |- _ => apply res_bind_ok in H as (? & _ & H)
    | u : unit |- _ => destruct u
    end;
    eauto using pack_id_ok, pack_text_ok, owned_ok, digest_ok, goal_ok, task_ok.
  by eapply namespace_ok.
Qed.

(** ** The wire format *)
Lemma from_wire_rt b : bundle_wf b → AOSCoreBundle_from_wire (AOSCoreBundle_to_wire b) = Ok b.
Proof.
  intros [[Hid Hc] Hv [Hr Hp] Hg Ht Ha Hw Hdg Hdt]. unfold AOSCoreBundle_from_wire.
  assert (_exact_fields (AOSCoreBundle_to_wire b) _BUNDLE_FIELDS = Ok tt) as -> by reflexivity.
  unfold dindex, _pack_id, owned_ref, _digest.
  cbn -[_text GoalSpec_to_dict TaskSpec_to_dict GoalSpec_from_dict TaskSpec_from_dict domain_prefix startswith
    sha256_hex pack_id_char _validate_adapter_namespace validate_task_within_goal].
  rewrite !pack_text_rt by (try done; by apply hex_stripped). rewrite ?res_ret_bind.
  rewrite Hc. cbn -[GoalSpec_to_dict TaskSpec_to_dict GoalSpec_from_dict TaskSpec_from_dict domain_prefix startswith
    sha256_hex _validate_adapter_namespace validate_task_within_goal].
  rewrite Hp, Hdg, Hdt, goal_rt, task_rt by done.
  rewrite (bool_decide_eq_true_2 (CORE_CONTRACT_VERSION = _)) by done.
  cbn -[_validate_adapter_namespace validate_task_within_goal].
  rewrite (proj2 (namespace_ok _ _ tt) Ha), res_ret_bind, Hw. by destruct b.
Qed.

Lemma norm_list_inj {A} (f : A → json) (l l' : list A) :
  (∀ x y, norm (f x) = norm (f y) → x = y) → norm (JList (f <$> l)) = norm (JList (f <$> l')) → l = l'.
Proof.
  cbn [norm]. intros Hf [= H]. revert l' H. induction l as [|x l IH]; intros [|y l'] H; try done.
  injection H as Hx Hl. f_equal; [by apply Hf|by apply IH].
Qed.
Lemma jstrs_inj l l' : norm (jstrs l) = norm (jstrs l') → l = l'.
Proof. apply norm_list_inj. by intros x y [= ->]. Qed.
Lemma jvalues_inj `{StrEnumLaws A} (l l' : list A) : norm (jvalues l) = norm (jvalues l') → l = l'.
Proof. intros Hl%jstrs_inj. revert Hl. apply list_fmap_eq_inj. intros x y. apply value_inj. Qed.

(** Objects with the same keys in the same order are compared field by field. *)
Lemma dget_lookup (d : dict) i k v : NoDup (dkeys d) → d !! i = Some (k, v) → dget d k = Some v.
Proof.
  revert i. induction d as [|[k' v'] d IH]; intros i Hnd Hi; [done|]. apply NoDup_cons in Hnd as [Hn Hnd].
  cbn [dget]. destruct i as [|i].
  - injection Hi as -> ->. by rewrite String.eqb_refl.
  - rewrite (proj2 (String.eqb_neq k k')); [by eapply IH|]. intros ->. apply Hn.
    apply list_elem_of_fmap. exists (k', v). split; [done|]. by eapply list_elem_of_lookup_2.
Qed.
Lemma fields_eq (a b : dict) :
  no_dups (dkeys a) = true → dkeys a = dkeys b → norm (JObj a) = norm (JObj b) →
  Forall2 (λ x y, norm x.2 = norm y.2) a b.
Proof.
  intros Ha%no_dups_true Hk Hn. pose proof Ha as Hb. rewrite Hk in Hb.
  apply Forall2_same_length_lookup_2; [by rewrite <- (length_fmap fst a), <- (length_fmap fst b); unfold dkeys in Hk; rewrite Hk|].
  intros i [k x] [k' y] Hx Hy. cbn.
  assert (k = k') as <-.
  { assert (dkeys a !! i = dkeys b !! i) as E by (by rewrite Hk). unfold dkeys in E.
    rewrite !list_lookup_fmap, Hx, Hy in E. by injection E. }
  pose proof (norm_dget a b k Ha Hb Hn) as E.
  rewrite (dget_lookup a i k x), (dget_lookup b i k y) in E by done. by injection E.
Qed.

(** [by_fields H]: one equation per field. *)
Ltac by_fields H :=
  apply fields_eq in H; [|reflexivity|reflexivity];
  repeat (let E := fresh "E" in apply Forall2_cons in H as [E H]; cbn [snd] in E;
    lazymatch type of E with
    | norm (jvalues _) = _ => apply jvalues_inj in E
    | norm (jstrs _) = _ => apply jstrs_inj in E
    | norm (JList _) = _ => idtac
    | norm (jsurfaces _) = _ => idtac
    | norm (JObj _) = _ => idtac
    | _ => try injection E as E
    end);
  clear H.

Lemma surface_dict_inj a b :
  norm (JObj (RuntimeSurfaceSpec_to_dict a)) = norm (JObj (RuntimeSurfaceSpec_to_dict b)) → a = b.
Proof. intros H. by_fields H. destruct a, b. simpl in *. by subst. Qed.
Lemma step_dict_inj a b : norm (JObj (workflow_step_dict a)) = norm (JObj (workflow_step_dict b)) → a = b.
Proof. intros H. by_fields H. destruct a, b. simpl in *. by subst. Qed.
Lemma goal_dict_inj a b : norm (JObj (GoalSpec_to_dict a)) = norm (JObj (GoalSpec_to_dict b)) → a = b.
Proof.
  intros H. by_fields H.
  match goal with E : norm (jsurfaces _) = _ |- _ => apply norm_list_inj in E; [|exact surface_dict_inj] end.
  destruct a, b. simpl in *. by subst.
Qed.
Lemma task_dict_inj a b : norm (JObj (TaskSpec_to_dict a)) = norm (JObj (TaskSpec_to_dict b)) → a = b.
Proof.
  intros H. by_fields H.
  match goal with E : norm (jsurfaces _) = _ |- _ => apply norm_list_inj in E; [|exact surface_dict_inj] end.
  match goal with E : norm (JList _) = _ |- _ => apply norm_list_inj in E; [|exact step_dict_inj] end.
  match goal with E : value _ = value _ |- _ => apply value_inj in E end.
  destruct a, b. simpl in *. by subst.
Qed.
Lemma same_wire_eq a b : same_wire (AOSCoreBundle_to_wire a) (AOSCoreBundle_to_wire b) = true ↔ a = b.
Proof.
  unfold same_wire. rewrite bool_decide_eq_true. split; [|by intros ->].
  intros H%canonical_json_inj. by_fields H.
  repeat match goal with
  | E : norm (JObj (GoalSpec_to_dict _)) = _ |- _ => apply goal_dict_inj in E
  | E : norm (JObj (TaskSpec_to_dict _)) = _ |- _ => apply task_dict_inj in E
  | E : norm (JObj _) = norm (JObj _) |- _ => by_fields E
  end.
  destruct a, b. simpl in *. by subst.
Qed.

(** ** Namespaces *)
Lemma separated_prefix (c : Ascii.ascii) (p q l : list Ascii.ascii) :
  c ∉ p → c ∉ q → (p ++ [c])%list `prefix_of` l → (q ++ [c])%list `prefix_of` l → p = q.
Proof.
  revert q l. induction p as [|a p IH]; intros [|b q] l Hp Hq [k ->] [k' Hk]; try done.
  - injection Hk as <- _. by destruct Hq; left.
  - injection Hk as <- _. by destruct Hp; left.
  - injection Hk as <- Hk. apply not_elem_of_cons in Hp as [_ Hp]. apply not_elem_of_cons in Hq as [_ Hq].
    f_equal. eapply IH; [done|done|by exists k|by exists k'].
Qed.

Lemma pack_id_plain c s : forallb pack_id_char (chars s) = true → pack_id_char c = false → c ∉ chars s.
Proof. intros Hs Hc Hin. pose proof (proj1 (forallb_In _ _) Hs c Hin). congruence. Qed.

(** Two packs never own the same adapter, nor the same reference. *)
Lemma adapters_apart p q s :
  forallb pack_id_char (chars p) = true → forallb pack_id_char (chars q) = true →
  startswith s (p +:+ ".") = true → startswith s (q +:+ ".") = true → p = q.
Proof.
  intros Hp Hq H1 H2. apply chars_inj. rewrite startswith_spec, chars_app in H1, H2.
  eapply separated_prefix; [| |exact H1|exact H2]; by apply pack_id_plain.
Qed.
Lemma refs_apart p q s :
  forallb pack_id_char (chars p) = true → forallb pack_id_char (chars q) = true →
  startswith s (domain_prefix p) = true → startswith s (domain_prefix q) = true → p = q.
Proof.
  intros Hp Hq. unfold domain_prefix. rewrite !startswith_spec, !chars_app. intros [k ->] H2.
  rewrite <- app_assoc in H2. apply prefix_app_inv in H2. apply chars_inj.
   refine (separated_prefix _ _ _ _ _ _ _ H2); [by apply pack_id_plain..|by exists k].
Qed.

(** ** What the harness establishes *)
Section theorems.
Context `{ENV : Env} {St : Type} (hexdigest : ∀ text, sha256_hex (sha256 text) = true).
Implicit Types (pack : DomainPack St) (s : St).

Lemma goal_digest v g : compile_goal v = Ok g → sha256_hex (cr_source_digest g.2) = true.
Proof.
  destruct g as [spec r]. unfold compile_goal. intros (source & _ & H)%res_bind_ok.
  destruct (dget source "goal_contract"); rinv; apply hexdigest.
Qed.
Lemma task_digest v goal t : compile_task v goal = Ok t → sha256_hex (cr_source_digest t.2) = true.
Proof.
  destruct t as [spec r]. unfold compile_task. intros (source & _ & H)%res_bind_ok.
  destruct (dget source "task_packet").
  - apply res_bind_ok in H as (p & _ & H). cbv zeta in H. do 10 apply res_bind_ok in H as (? & _ & H).
    injection H as <- <-. apply hexdigest.
  - rinv. apply hexdigest.
Qed.

Lemma compile_ok pack s b s' : compile_domain_pack pack s = (Ok b, s') → bundle_wf b.
Proof.
  unfold compile_domain_pack. intros H.
  repeat match goal with H : (_ ≫= _) _ = (Ok _, _) |- _ => apply bind_ok in H as (? & ? & ? & H) end.
  repeat match goal with H : lift_res _ _ = (Ok _, _) |- _ => apply lift_res_ok in H as [? ->] end.
  apply mret_ok in H as [-> ->].
  repeat match goal with x : _ * CompilationResult |- _ => destruct x end.
  match goal with H : compile_goal _ = _ |- _ => pose proof (goal_digest _ _ H); apply compile_goal_ok in H as (? & _ & _) end.
  match goal with H : compile_task _ _ = _ |- _ => pose proof (task_digest _ _ _ H); apply compile_task_ok in H as (? & ? & _) end.
  match goal with H : _validate_adapter_namespace _ _ = _ |- _ => apply namespace_ok in H end.
  constructor; eauto using pack_id_ok, pack_text_ok, owned_ok.
Qed.
(** What the harness amounts to: the pack compiles twice to the same bundle. *)
Definition deterministic_conformance pack : M St DomainPackConformanceReport :=
  first ← compile_domain_pack pack;
  replay ← compile_domain_pack pack;
  _ ← ensure (bool_decide (first = replay)) IntegrityError;
  v ← dp_domain pack;
  domain ← lift_res (_text v);
  mret (report_of first domain).

Lemma bool_same_wire a b :
  same_wire (AOSCoreBundle_to_wire a) (AOSCoreBundle_to_wire b) = bool_decide (a = b).
Proof.
  destruct (bool_decide (a = b)) eqn:E; bsplit; [by apply same_wire_eq|].
  apply not_true_is_false. by rewrite same_wire_eq.
Qed.

Lemma conformance_eq pack s : run_domain_pack_conformance pack s = deterministic_conformance pack s.
Proof.
  unfold run_domain_pack_conformance, deterministic_conformance, mbind, M_bind.
  destruct (compile_domain_pack pack s) as [[first|x] s1] eqn:Hfirst; [|done].
  destruct (compile_domain_pack pack s1) as [[replay|x] s2]; [|done].
  rewrite bool_same_wire. destruct (ensure _ _ s2) as [[[]|x] s3]; [|done].
  apply compile_ok in Hfirst. unfold lift_res. rewrite from_wire_rt by done.
  by rewrite bool_same_wire, bool_decide_eq_true_2.
Qed.

(** The contracts and the references of two bundles have nothing in common. *)
Record apart (a b : AOSCoreBundle) : Prop := {
  ap_goal : gs_goal_id (bd_goal a) ≠ gs_goal_id (bd_goal b);
  ap_task : ts_task_id (bd_task a) ≠ ts_task_id (bd_task b);
  ap_ref : bd_domain_ref a ≠ bd_domain_ref b;
  ap_adapters : ws_adapter <$> ts_workflow_steps (bd_task a) ## ws_adapter <$> ts_workflow_steps (bd_task b) }.

Definition reported (pack : DomainPack St) (b : AOSCoreBundle) (r : DomainPackConformanceReport) : Prop :=
  bundle_wf b ∧ r = report_of b (cp_domain r) ∧ ∃ s s', compile_domain_pack pack s = (Ok b, s').

Lemma conformance_ok pack s r s' : run_domain_pack_conformance pack s = (Ok r, s') → ∃ b, reported pack b r.
Proof.
  rewrite conformance_eq. unfold deterministic_conformance. intros (b & s1 & Hb & H)%bind_ok.
  repeat match goal with H : (_ ≫= _) _ = (Ok _, _) |- _ => apply bind_ok in H as (? & ? & ? & H) end.
  apply mret_ok in H as [-> ->]. exists b. split; [by eapply compile_ok|]. eauto.
Qed.

Lemma reports_ok packs s rs s' :
  mapM run_domain_pack_conformance packs s = (Ok rs, s') → ∃ bs, Forall3 reported packs bs rs.
Proof.
  revert s rs s'. induction packs as [|pack packs IH]; intros s rs s' H; cbn [mapM] in H.
  - apply mret_ok in H as [-> _]. exists []. constructor.
  - apply bind_ok in H as (r & s1 & Hr & H). apply bind_ok in H as (rs' & s2 & Hrs & H).
    apply mret_ok in H as [-> _]. apply conformance_ok in Hr as [b Hb]. apply IH in Hrs as [bs Hbs].
    exists (b :: bs). by constructor.
Qed.

Lemma bundles_apart a b r t :
  bundle_wf a → bundle_wf b → r = report_of a (cp_domain r) → t = report_of b (cp_domain t) →
  cp_pack_id r ≠ cp_pack_id t → cp_goal_id r ≠ cp_goal_id t → cp_task_id r ≠ cp_task_id t → apart a b.
Proof.
  intros [[_ Ha] _ [_ Hra] _ _ Hna _ _ _] [[_ Hb] _ [_ Hrb] _ _ Hnb _ _ _] -> -> Hid Hg Ht. cbn in *.
  constructor; [done|done| |].
  - intros E. rewrite E in Hra. apply Hid. by eapply refs_apart.
  - intros x (u & -> & Hu)%list_elem_of_fmap (v & Huv & Hv)%list_elem_of_fmap.
    apply Hna in Hu as [Hu _]. apply Hnb in Hv as [Hv _]. rewrite Huv in Hu. apply Hid. by eapply adapters_apart.
Qed.

(** A bundle survives its wire format: what [compile_domain_pack] makes of any
    pack, and whatever [from_wire] accepts, is well formed (a legal name that owns
    the reference and all adapters, strict contracts, the task within its goal) and
    is read back from what [to_wire] writes; and two bundles with equal wires are
    equal. *)
Theorem bundles_survive_the_wire :
  (∀ pack s b s', compile_domain_pack pack s = (Ok b, s') →
     bundle_wf b ∧ AOSCoreBundle_from_wire (AOSCoreBundle_to_wire b) = Ok b) ∧
  (∀ d b, AOSCoreBundle_from_wire d = Ok b →
     bundle_wf b ∧ AOSCoreBundle_from_wire (AOSCoreBundle_to_wire b) = Ok b) ∧
  (∀ a b, same_wire (AOSCoreBundle_to_wire a) (AOSCoreBundle_to_wire b) = true ↔ a = b).
Proof.
  split_and!; [| |exact same_wire_eq].
  - intros pack s b s' H%compile_ok. split; [done|by apply from_wire_rt].
  - intros d b H%from_wire_ok. split; [done|by apply from_wire_rt].
Qed.

(** C34: the conformance harness tests determinism and nothing else: for any pack,
    however it answers, the run is that of a harness which compiles twice and
    compares the bundles, so the round trip never fails; and a fixture, whose answers
    never change, conforms exactly when it compiles. *)
Theorem conformance_is_determinism :
  (∀ pack s, run_domain_pack_conformance pack s = deterministic_conformance pack s) ∧
  ∀ data f s, FixtureDomainPack_from_dict data = Ok f →
    run_domain_pack_conformance (fixture_pack f) s
    = match compile_domain_pack (fixture_pack f) s with
      | (Ok b, _) => (Ok (report_of b (fx_domain f)), s)
      | (Raise x, _) => (Raise x, s)
      end.
Proof.
  split; [exact conformance_eq|]. intros data f s Hf.
  assert (stripped (fx_domain f)) as Hd by (unfold FixtureDomainPack_from_dict in Hf; rinv; by eapply pack_text_ok).
  assert (∀ s', (compile_domain_pack (fixture_pack f) s').2 = s') as Hs.
  { intros s'. unfold compile_domain_pack, mbind, M_bind, lift_res. cbn.
    repeat (match goal with |- context [match ?r with Ok _ => _ | Raise _ => _ end] => destruct r end; try done). }
  rewrite conformance_eq. unfold deterministic_conformance, mbind, M_bind.
  pose proof (Hs s) as Hs1.
  destruct (compile_domain_pack (fixture_pack f) s) as [[b|x] s1] eqn:Hc; cbn in Hs1; subst s1; [|done].
  rewrite Hc. unfold ensure. rewrite bool_decide_eq_true_2 by done. cbn -[_text]. by rewrite pack_text_rt.
Qed.

(** C33: packs that pass together stay apart: there are at least two of them, each
    reported for a bundle that it compiled to, no two in the same domain, and any two
    of them share neither a goal, nor a task, nor a reference, nor an adapter. *)
Theorem packs_stay_apart packs s d s' :
  run_cross_domain_conformance packs s = (Ok d, s') →
  (2 ≤ length packs)%nat ∧ ∃ bs rs, d = cross_domain_report rs ∧ Forall3 reported packs bs rs ∧
    NoDup (cp_domain <$> rs) ∧ ∀ i j a b, bs !! i = Some a → bs !! j = Some b → i ≠ j → apart a b.
Proof.
  unfold run_cross_domain_conformance. intros (? & ? & [Hlen ->]%ensure_ok & H)%bind_ok.
  apply bind_ok in H as (rs & s1 & Hrs & H). apply bind_ok in H as (? & ? & [Hn ->]%ensure_ok & H).
  apply mret_ok in H as [-> ->]. bsplit. split; [by apply Nat.leb_le|].
  apply reports_ok in Hrs as [bs Hbs]. exists bs, rs.
  repeat match goal with H : no_dups _ = true |- _ => apply no_dups_true in H end.
  split_and!; [done|done|done|]. intros i j a b Ha Hb Hij.
  destruct (Forall3_lookup_m _ _ _ _ _ _ Hbs Ha) as (pa & r & _ & Hr & Hra).
  destruct (Forall3_lookup_m _ _ _ _ _ _ Hbs Hb) as (pb & t & _ & Ht & Htb).
  destruct Hra as (? & ? & _), Htb as (? & ? & _).
  assert (∀ {A} (f : DomainPackConformanceReport → A), NoDup (f <$> rs) → f r ≠ f t) as Hne.
  { intros A f Hnd E. apply Hij. eapply (NoDup_lookup (f <$> rs)); [done|..];
      rewrite list_lookup_fmap; [by rewrite Hr|by rewrite Ht, E]. }
  by eapply bundles_apart; eauto.
Qed.
End theorems.

(** ** Two packs *)
Module Fixtures.
Import Db.Toy.

Definition authored_goal (name : string) : json :=
  JObj [("goal_contract", JObj [("goal_id", JStr ("goal-" +:+ name)); ("target_outcome", JStr "ship");
    ("success_evidence_states", jstrs ["runtime_verification"]);
    ("owner_authority", JObj [("write_scope", jstrs ["src/app/**"]);
       ("allowed_capabilities", jstrs ["read_local"; "write_local"])])])].
Definition authored_task (name adapter : string) : json :=
  JObj [("task_packet", JObj [("task_id", JStr ("task-" +:+ name)); ("parent_goal_id", JStr ("goal-" +:+ name));
    ("objective", JStr "draw"); ("expected_delta", JStr "d"); ("primary_artifact_or_surface", JStr "api");
    ("evidence_target", JStr "runtime_verification"); ("capabilities", jstrs ["write_local"]);
    ("write_scope", jstrs ["src/app/x"]);
    ("workflow_steps", JList [JObj [("step_id", JStr "s1"); ("adapter", JStr adapter); ("action", JStr "write");
       ("resource", JStr "src/app/x"); ("request_digest", JStr Spine.digest)]])])].
Definition fixture (name domain adapter : string) : dict :=
  [("pack_id", JStr (" " +:+ name)); ("pack_version", JStr "1"); ("domain", JStr domain);
   ("domain_ref", JStr ("domain://" +:+ name +:+ "/spec")); ("goal_authoring", authored_goal name);
   ("task_authoring", authored_task name adapter)].

Definition loaded (d : dict) : FixtureDomainPack := Eval cbv beta in
  match FixtureDomainPack_from_dict d with Ok f => f | Raise _ => Build_FixtureDomainPack "" "" "" "" [] [] end.
Definition media : FixtureDomainPack := Eval vm_compute in loaded (fixture "media-1" "media" "media-1.write").
Definition games : FixtureDomainPack := Eval vm_compute in loaded (fixture "games" "games" "games.write").
Definition packs : list (DomainPack unit) := [fixture_pack media; fixture_pack games].

(** An adapter outside the name space of its pack; one pack twice. *)
Example foreign_adapter :
  (compile_domain_pack (fixture_pack (loaded (fixture "games" "games" "media-1.write"))) tt).1 = Raise ContractError.
Proof. vm_compute. reflexivity. Qed.
Example one_pack_twice :
  (run_cross_domain_conformance [fixture_pack media; fixture_pack media] tt).1 = Raise ContractError.
Proof. vm_compute. reflexivity. Qed.

(** A pack that counts its versions. *)
Definition restless : DomainPack nat := {|
  dp_pack_id := mret (JStr "games"); dp_pack_version := (λ n, (Ok (JStr (print_int (Z.of_nat n))), S n));
  dp_domain := mret (JStr "games"); dp_domain_ref := mret (JStr "domain://games/spec");
  dp_goal_authoring := mret (authored_goal "games"); dp_task_authoring := mret (authored_task "games" "games.write") |}.

Definition bundle : AOSCoreBundle := Eval vm_compute in
  match compile_domain_pack (fixture_pack games) tt with
  | (Ok b, _) => b
  | _ => Build_AOSCoreBundle "" "" "" sample_goal sample_task "" ""
  end.

Lemma games_compiled : compile_domain_pack (fixture_pack games) tt = (Ok bundle, tt).
Proof. vm_compute. reflexivity. Qed.

Lemma bundles_survive_the_wire_witness :
  AOSCoreBundle_from_wire (AOSCoreBundle_to_wire bundle) = Ok bundle.
Proof. exact (proj2 (proj1 (bundles_survive_the_wire sha_hex) _ _ _ _ games_compiled)). Defined.

Lemma conformance_is_determinism_witness :
  run_domain_pack_conformance (fixture_pack games) tt = (Ok (report_of bundle "games"), tt) ∧
  (run_domain_pack_conformance restless 0%nat).1 = Raise IntegrityError.
Proof.
  split.
  - assert (FixtureDomainPack_from_dict (fixture "games" "games" "games.write") = Ok games) as Hf
      by (vm_compute; reflexivity).
    rewrite (proj2 (conformance_is_determinism (ENV := env) sha_hex) _ _ tt Hf), games_compiled. reflexivity.
  - rewrite (proj1 (conformance_is_determinism (ENV := env) sha_hex)). vm_compute. reflexivity.
Defined.

Lemma both_pass : is_ok (run_cross_domain_conformance packs tt).1 = true.
Proof. vm_compute. reflexivity. Qed.

Lemma packs_stay_apart_witness :
  ∃ a b r t, reported (St := unit) (fixture_pack media) a r ∧ reported (St := unit) (fixture_pack games) b t ∧ apart a b.
Proof.
  destruct (run_cross_domain_conformance packs tt) as [[d|x] s'] eqn:Hrun;
    [|pose proof both_pass as Hok; rewrite Hrun in Hok; discriminate].
  destruct (packs_stay_apart (ENV := env) sha_hex _ _ _ _ Hrun) as (_ & bs & rs & _ & Hbs & _ & Hapart).
  inversion Hbs as [|? a r ? bs' rs' Ha Hbs']; subst.
  inversion Hbs' as [|? b t ? bs'' rs'' Hb Hbs'']; subst.
  exists a, b, r, t. split; [exact Ha|]. split; [exact Hb|]. by apply (Hapart 0%nat 1%nat).
Defined.
End Fixtures.
