(* ===== verification/Store.v ===== *)
(** * The event store ([store.py])

    The authority domain that trusted handlers bind to, the authorisation of
    core and protected events, the hash-chained append, the idempotency records
    and the verification of the chain. *)

From Stdlib Require Import Ascii.
From S2P Require Import Prelude PyStr Json Enums StateMachine Contracts Db.

Local Open Scope string_scope.
Local Open Scope list_scope.
Local Open Scope Z_scope.

(** ** Tables of the module *)
Definition _CORE_HANDLERS (aggregate_type : string) : option (list string) :=
  if bool_decide (aggregate_type = "goal") then Some ["runtime_kernel"]
  else if bool_decide (aggregate_type = "run") then Some ["runtime_kernel"]
  else if bool_decide (aggregate_type = "task") then Some ["runtime_kernel"; "task_scheduler"]
  else None.

Definition is_core (aggregate_type : string) : bool :=
  match _CORE_HANDLERS aggregate_type with Some _ => true | None => false end.

Definition _CORE_AUTHORITY_VERSION : string := "opaque-command-v1".

Definition _CORE_AUTH_CONTEXT_FIELDS : list string :=
  ["handler"; "authorized_role"; "session_id"; "command_authority_version"].

Definition _PROTECTED_EVENT_HANDLERS (aggregate_type event_type : string) : option (list string) :=
  snd <$> List.find (λ e, bool_decide (e.1 = (aggregate_type, event_type)))
    [(("approval", "approval_decided"), ["policy_engine"]);
     (("artifact", "artifact_registered"), ["evidence_registry"]);
     (("evidence", "evidence_claim_recorded"), ["evidence_registry"]);
     (("eval", "eval_recorded"), ["evaluation_registry"]);
     (("improvement", "improvement_proposed"), ["evaluation_registry"]);
     (("improvement", "improvement_eval_attached"), ["evaluation_registry"]);
     (("improvement", "improvement_promoted"), ["evaluation_registry"]);
     (("sealed_custody", "sealed_custody_attested"), ["evaluation_registry"])].

Definition _PROTECTED_AGGREGATES : list string :=
  ["approval"; "artifact"; "evidence"; "eval"; "improvement"; "sealed_custody"].

Definition _PROTECTED_AUTH_CONTEXT_FIELDS : list string :=
  ["handler"; "handler_binding_id"; "handler_config_digest"; "protected_event";
   "command_authority_version"].

Definition _RUN_EVENT_ROLES (e : LoopEvent) : list Role :=
  match e with
  | E_OWNER_INTENT_RECEIVED => [R_OWNER; R_SYSTEM]
  | E_GOAL_COMPILED => [R_SYSTEM]
  | E_RUN_READY => [R_SYSTEM]
  | E_TASK_STARTED => [R_WORKER; R_SYSTEM]
  | E_HUMAN_APPROVAL_REQUESTED => [R_WORKER; R_SYSTEM]
  | E_HUMAN_APPROVAL_RECEIVED => [R_OWNER; R_SYSTEM]
  | E_EVIDENCE_SUBMITTED => [R_WORKER; R_SYSTEM]
  | E_EVALUATOR_VERDICT_RECEIVED => [R_EVALUATOR]
  | E_CI_CHECK_STARTED => [R_RELEASE; R_SYSTEM]
  | E_CI_CHECK_COMPLETED => [R_RELEASE; R_SYSTEM]
  | E_DEPLOY_DIRECTORY_UPDATED => [R_RELEASE]
  | E_SERVICE_RESTART_ATTEMPTED => [R_RELEASE]
  | E_RUNTIME_FRESHNESS_VERIFIED => [R_OBSERVER]
  | E_RUNTIME_DRIFT_DETECTED => [R_OBSERVER; R_SYSTEM]
  | E_DELIVERY_CONFIRMED => [R_RELEASE]
  | E_IMPROVEMENT_REQUESTED => [R_OWNER; R_SYSTEM]
  | E_RESUME_REQUESTED => [R_OWNER; R_SYSTEM]
  | E_CAPABILITY_GAP_DETECTED => [R_SYSTEM]
  | E_MISSING_STATE_DETECTED => [R_SYSTEM]
  | E_CIRCUIT_BREAKER_TRIGGERED => [R_WORKER; R_SYSTEM]
  end.

Definition _TASK_TARGET_ROLES (s : TaskState) : list Role :=
  match s with
  | T_LEASED | T_RUNNING | T_EVIDENCE_PENDING => [R_WORKER; R_SYSTEM]
  | T_EVALUATOR_PENDING | T_INTEGRATION_PENDING => [R_EVALUATOR; R_SYSTEM]
  | T_DELIVERED => [R_RELEASE]
  | T_RETRY_PENDING | T_FAILED => [R_WORKER; R_SYSTEM]
  | T_BLOCKED | T_CANCELED | T_DELETED | T_RETIRED => [R_OWNER; R_SYSTEM]
  | T_SUSPENDED => [R_OWNER; R_WORKER; R_SYSTEM]
  | T_READY => [R_SYSTEM]
  end.

(** [_core_roles] *)
Definition _core_roles (aggregate_type event_type : string) (payload : dict) (handler : string)
    : res (list Role) :=
  if bool_decide (aggregate_type = "goal") then
    _ ← require (bool_decide (event_type = "goal_created")) IntegrityError;
    Ok [R_OWNER]
  else if bool_decide (aggregate_type = "run") then
    match of_value event_type with
    | Ok e => Ok (_RUN_EVENT_ROLES e)
    | Raise _ => Raise IntegrityError
    end
  else if bool_decide (event_type = "task_added") then Ok [R_OWNER; R_SYSTEM]
  else
    _ ← require (bool_decide (event_type = "task_state_changed")) IntegrityError;
    match dget payload "target" with
    | Some (JStr target) =>
      match of_value target with
      | Ok s =>
        let roles := _TASK_TARGET_ROLES s in
        Ok (if bool_decide (handler = "runtime_kernel") && memb s [T_LEASED; T_READY]
            then roles ++ [R_OWNER] else roles)
      | Raise _ => Raise IntegrityError
      end
    | _ => Raise IntegrityError
    end.

(** [_handler_supports_event] *)
Definition _handler_supports_event (handler aggregate_type event_type : string) : bool :=
  if bool_decide (handler = "runtime_kernel") then is_core aggregate_type
  else bool_decide (handler = "task_scheduler") && bool_decide (aggregate_type = "task")
       && bool_decide (event_type = "task_state_changed").

(** ** Sessions as the store sees them *)

(** The bearer object of [identity.py]. *)
Record VerifiedPrincipal := {
  vp_principal_id : string; vp_display_name : string; vp_session_id : string;
  vp_session_secret : string; vp_issued_at : Instant; vp_expires_at : Instant }.

(** An object of the process: its identity and the name of its exact type. *)
Record Obj := { o_id : nat; o_type : string }.

Definition all_hex64 : string → bool := sha256_hex.

Section store.
Context `{ENV : Env}.

(** ** Binding command authorities *)
Definition _prune_dead_command_authorities : P unit :=
  modify (set_domain (λ d, Build_Domain
    (filter (λ kb, b_owner kb.2 ∈ d_live d) (d_authorities d)) (d_configs d) (d_types d) (d_live d))).

Definition bind_authority (b : Binding) : P nat :=
  d ← gets w_domain;
  let k := fresh (dom (d_authorities d)) in
  _ ← modify (set_domain (λ d, Build_Domain (<[k := b]> (d_authorities d)) (d_configs d)
                (d_types d) (d_live d)));
  mret k.

Definition owner_bound (owner : nat) (d : Domain) : bool :=
  map_any (λ b, bool_decide (b_owner b = owner)) (d_authorities d).

Definition core_config_digest (handler : string) : string :=
  content_hash (JObj [("authority_kind", JStr "core"); ("handler", JStr handler);
                      ("version", JStr _CORE_AUTHORITY_VERSION)]).

(** [protected_authority_config_digest] *)
Definition protected_authority_config_digest (handler : string) (config : dict) : string :=
  content_hash (JObj [("authority_contract", JStr "protected-command-v1"); ("handler", JStr handler);
                      ("config", JObj config)]).

Definition _bind_core_command_authority (owner : Obj) (handler : string) : P nat :=
  expected_type ← (if bool_decide (handler = "runtime_kernel") then mret "RuntimeKernel"
                   else if bool_decide (handler = "task_scheduler") then mret "TaskScheduler"
                   else raise IntegrityError);
  _ ← ensure (bool_decide (o_type owner = expected_type)) IntegrityError;
  _ ← _prune_dead_command_authorities;
  d ← gets w_domain;
  _ ← ensure (negb (owner_bound (o_id owner) d)) IntegrityError;
  binding_id ← new_uuid;
  bind_authority {| b_handler := handler; b_owner := o_id owner; b_kind := K_core;
                    b_binding_id := binding_id; b_config_digest := core_config_digest handler |}.

Definition _bind_protected_command_authority (owner : Obj) (handler config_digest : string)
    (runtime_types : list string) : P nat :=
  expected_type ← (if bool_decide (handler = "policy_engine") then mret "PolicyEngine"
                   else if bool_decide (handler = "evidence_registry") then mret "EvidenceRegistry"
                   else if bool_decide (handler = "evaluation_registry")
                        then mret "EvaluationRegistry"
                   else raise IntegrityError);
  _ ← ensure (bool_decide (o_type owner = expected_type)) IntegrityError;
  _ ← ensure (all_hex64 config_digest) IntegrityError;
  _ ← _prune_dead_command_authorities;
  d ← gets w_domain;
  _ ← ensure (negb (owner_bound (o_id owner) d)) IntegrityError;
  let live_same_handler := map_any (λ b, bool_decide (b_kind b = K_protected)
        && bool_decide (b_handler b = handler) && bool_decide (b_owner b ∈ d_live d))
      (d_authorities d) in
  _ ← ensure (negb (bool_decide (handler = "evaluation_registry") && live_same_handler))
        IntegrityError;
  _ ← ensure (bool_decide (default config_digest (d_configs d !! handler) = config_digest))
        IntegrityError;
  _ ← ensure (bool_decide (default runtime_types (d_types d !! handler) = runtime_types))
        IntegrityError;
  _ ← modify (set_domain (λ d, Build_Domain (d_authorities d)
                (<[handler := config_digest]> (d_configs d))
                (<[handler := runtime_types]> (d_types d)) (d_live d)));
  binding_id ← new_uuid;
  bind_authority {| b_handler := handler; b_owner := o_id owner; b_kind := K_protected;
                    b_binding_id := binding_id; b_config_digest := config_digest |}.

(** [self.__command_authorities.get(token)], with a live owner. *)
Definition live_authority (d : Domain) (token : option nat) : option Binding :=
  k ← token; b ← d_authorities d !! k;
  if bool_decide (b_owner b ∈ d_live d) then Some b else None.

(** ** Authorisation *)

(** The rows of the query: roles of a live session of the actor, in the order
    of their text. *)
Definition live_roles (d : DB) (session_id actor : string) (now : Instant)
    (allowed : list Role) : list (Role * string) :=
  match sessions d !! session_id with
  | Some s =>
    match principals d !! s_principal_id s with
    | Some p =>
      if bool_decide (s_principal_id s = actor) && bool_decide (s_revoked_at s = None)
         && p_enabled p && (s_credential_version s =? p_credential_version p)
         && (julianday (s_issued_at s) <=? julianday now)
         && (julianday now <? julianday (s_expires_at s))
      then (λ r, (r, s_token_hash s)) <$>
           sort_by role_value (List.filter (λ r,
             memb r allowed && present (principal_roles d) (actor, r)) role_all)
      else []
    | None => []
    end
  | None => []
  end.

Definition _authorize_core_event (aggregate_type event_type actor : string) (payload : dict)
    (auth_session : option VerifiedPrincipal) (command_authority : option nat)
    : P (string * Role * string) :=
  dom ← gets w_domain;
  b ← expect (live_authority dom command_authority) IntegrityError;
  _ ← ensure (bool_decide (b_kind b = K_core)) IntegrityError;
  let handler := b_handler b in
  _ ← ensure (_handler_supports_event handler aggregate_type event_type) IntegrityError;
  vp ← expect auth_session IntegrityError;
  _ ← ensure (bool_decide (vp_session_id vp ≠ "") && bool_decide (vp_principal_id vp = actor))
        IntegrityError;
  allowed_roles ← lift_res (_core_roles aggregate_type event_type payload handler);
  now ← sql_now;
  d ← read id;
  row ← expect (head (live_roles d (vp_session_id vp) actor now allowed_roles)) IntegrityError;
  _ ← ensure (bool_decide (sha256 (vp_session_secret vp) = row.2)) IntegrityError;
  mret (handler, row.1, vp_session_id vp).

Definition _authorize_protected_event (aggregate_type event_type : string)
    (command_authority command_owner : option nat) : P (string * string * string) :=
  handlers ← expect (_PROTECTED_EVENT_HANDLERS aggregate_type event_type) IntegrityError;
  dom ← gets w_domain;
  b ← expect (live_authority dom command_authority) IntegrityError;
  _ ← ensure (bool_decide (command_owner = Some (b_owner b))
        && bool_decide (b_kind b = K_protected) && memb (b_handler b) handlers) IntegrityError;
  mret (b_handler b, b_binding_id b, b_config_digest b).

(** ** Appending *)

(** The keyword arguments of [append_event]. *)
Record EventArgs := {
  ea_aggregate_type : string; ea_aggregate_id : string; ea_expected_version : Z;
  ea_project_id : string; ea_event_type : string; ea_actor : string;
  ea_command_id : string; ea_correlation_id : string; ea_policy_version : string;
  ea_payload : dict; ea_auth_context : dict; ea_auth_session : option VerifiedPrincipal;
  ea_command_authority : option nat; ea_command_owner : option nat;
  ea_run_id : option string; ea_task_id : option string;
  ea_idempotency_key : option string; ea_causation_id : option string;
  ea_confidentiality : string; ea_occurred_at : option Instant }.

Definition head_version (d : DB) (aggregate_type aggregate_id : string) : Z :=
  foldr Z.max 0 (ev_aggregate_version <$>
    List.filter (λ e, bool_decide (ev_aggregate_type e = aggregate_type)
                      && bool_decide (ev_aggregate_id e = aggregate_id)) (events d)).

Definition head_hash (d : DB) : string :=
  match last (events d) with Some e => ev_hash e | None => "GENESIS" end.

Definition envelope (e : Event) : json :=
  JObj [("event_id", JStr (ev_id e)); ("aggregate_type", JStr (ev_aggregate_type e));
        ("aggregate_id", JStr (ev_aggregate_id e));
        ("aggregate_version", JInt (ev_aggregate_version e));
        ("project_id", JStr (ev_project_id e)); ("run_id", jopt (ev_run_id e));
        ("task_id", jopt (ev_task_id e)); ("event_type", JStr (ev_event_type e));
        ("schema_version", JInt (ev_schema_version e)); ("actor", JStr (ev_actor e));
        ("auth_context", ev_auth_context e); ("command_id", JStr (ev_command_id e));
        ("idempotency_key", jopt (ev_idempotency_key e));
        ("correlation_id", JStr (ev_correlation_id e));
        ("causation_id", jopt (ev_causation_id e));
        ("policy_version", JStr (ev_policy_version e));
        ("occurred_at", JStr (iso (ev_occurred_at e)));
        ("recorded_at", JStr (iso (ev_recorded_at e)));
        ("confidentiality", JStr (ev_confidentiality e));
        ("payload_digest", JStr (ev_payload_digest e));
        ("previous_event_hash", JStr (ev_previous_hash e))].

(** The hash of an event over the hash of the event before it. *)
Definition chain_hash (previous : string) (e : Event) : string :=
  content_hash (JStr (previous +:+ canonical_json (envelope e))).

Definition payload_digest_of (payload : json) : string :=
  content_hash (JStr (canonical_json payload)).

Definition disjoint_keys (fields : list string) (d : dict) : bool :=
  forallb (λ k, negb (memb k fields)) (dkeys d).

(** What [normalized_auth.update] adds. *)
Definition core_metadata (handler : string) (role : Role) (session_id : string) : dict :=
  [("handler", JStr handler); ("authorized_role", JStr (value role));
   ("session_id", JStr session_id);
   ("command_authority_version", JStr _CORE_AUTHORITY_VERSION)].
Definition protected_metadata (handler binding_id config_digest event : string) : dict :=
  [("handler", JStr handler); ("handler_binding_id", JStr binding_id);
   ("handler_config_digest", JStr config_digest); ("protected_event", JStr event);
   ("command_authority_version", JStr _CORE_AUTHORITY_VERSION)].

(** The authority metadata that the store adds to [auth_context]. *)
Definition authorize_event (a : EventArgs) : P dict :=
  if is_core (ea_aggregate_type a) then
    r ← _authorize_core_event (ea_aggregate_type a) (ea_event_type a) (ea_actor a)
          (ea_payload a) (ea_auth_session a) (ea_command_authority a);
    _ ← ensure (disjoint_keys _CORE_AUTH_CONTEXT_FIELDS (ea_auth_context a)) IntegrityError;
    let '(handler, authorized_role, session_id) := r in
    mret (ea_auth_context a ++ core_metadata handler authorized_role session_id)
  else if memb (ea_aggregate_type a) _PROTECTED_AGGREGATES then
    r ← _authorize_protected_event (ea_aggregate_type a) (ea_event_type a)
          (ea_command_authority a) (ea_command_owner a);
    _ ← ensure (disjoint_keys _PROTECTED_AUTH_CONTEXT_FIELDS (ea_auth_context a)) IntegrityError;
    let '(handler, binding_id, config_digest) := r in
    mret (ea_auth_context a ++ protected_metadata handler binding_id config_digest
            (ea_aggregate_type a +:+ "/" +:+ ea_event_type a))
  else mret (ea_auth_context a).

Definition append_event (a : EventArgs) : P Event :=
  normalized_auth ← authorize_event a;
  d ← read id;
  let current_version := head_version d (ea_aggregate_type a) (ea_aggregate_id a) in
  _ ← ensure (current_version =? ea_expected_version a) IntegrityError;
  _ ← ensure (match ea_causation_id a with
              | None => true
              | Some c => existsb (λ e, bool_decide (ev_id e = c)) (events d)
              end) IntegrityError;
  let previous_hash := head_hash d in
  event_id ← new_uuid;
  recorded_at ← utc_now;
  let payload := JObj (ea_payload a) in
  let e hash := {| ev_id := event_id;
    ev_aggregate_type := ea_aggregate_type a; ev_aggregate_id := ea_aggregate_id a;
    ev_aggregate_version := current_version + 1; ev_project_id := ea_project_id a;
    ev_run_id := ea_run_id a; ev_task_id := ea_task_id a; ev_event_type := ea_event_type a;
    ev_schema_version := 1; ev_actor := ea_actor a; ev_auth_context := JObj normalized_auth;
    ev_command_id := ea_command_id a; ev_idempotency_key := ea_idempotency_key a;
    ev_correlation_id := ea_correlation_id a; ev_causation_id := ea_causation_id a;
    ev_policy_version := ea_policy_version a;
    ev_occurred_at := default recorded_at (ea_occurred_at a); ev_recorded_at := recorded_at;
    ev_confidentiality := ea_confidentiality a; ev_payload := payload;
    ev_payload_digest := payload_digest_of payload;
    ev_previous_hash := previous_hash; ev_hash := hash |} in
  let event := e (chain_hash previous_hash (e "")) in
  _ ← insert_event event;
  mret event.

(** ** Idempotency *)
Definition get_idempotent_result (project_id scope key payload_digest : string)
    : P (option json) :=
  row ← read (λ d, idempotency d !! (project_id, scope, key));
  match row with
  | None => mret None
  | Some r =>
    _ ← ensure (bool_decide (ir_payload_digest r = payload_digest)) IntegrityError;
    mret (Some (ir_result r))
  end.

Definition save_idempotent_result (project_id scope key payload_digest : string)
    (result : dict) (event_id : string) : P unit :=
  now ← utc_now;
  insert_idempotency project_id scope key
    {| ir_payload_digest := payload_digest; ir_result := JObj result;
       ir_event_id := event_id; ir_created_at := now |}.
End store.

(** ** Verifying the chain ([verify_event_chain]) *)
Section verify.
Context `{ENV : Env}.

(** [str(auth.get(k))]; a text that no comparison accepts stands for the
    rendering of a value that is not a string. *)
Definition auth_text (auth : dict) (k : string) : string :=
  match dget auth k with Some (JStr s) => s | _ => "None" end.
Definition auth_is (auth : dict) (k v : string) : bool :=
  match dget auth k with Some (JStr s) => bool_decide (s = v) | _ => false end.
Definition payload_dict (j : json) : dict := match j with JObj d => d | _ => [] end.

Definition core_row_ok (d : DB) (e : Event) : res unit :=
  match ev_auth_context e with
  | JObj auth =>
    let handler := auth_text auth "handler" in
    allowed_roles ← _core_roles (ev_aggregate_type e) (ev_event_type e)
                      (payload_dict (ev_payload e)) handler;
    _ ← require (auth_is auth "command_authority_version" _CORE_AUTHORITY_VERSION
          && existsb (auth_is auth "handler")
               (default [] (_CORE_HANDLERS (ev_aggregate_type e)))
          && _handler_supports_event handler (ev_aggregate_type e) (ev_event_type e)
          && existsb (λ r, auth_is auth "authorized_role" (value r)) allowed_roles) IntegrityError;
    session ← of_option
      (s ← match dget auth "session_id" with
           | Some (JStr k) => sessions d !! k
           | _ => None
           end;
       if bool_decide (s_principal_id s = ev_actor e) then Some s else None) IntegrityError;
    require ((julianday (s_issued_at session) <=? julianday (ev_occurred_at e))
      && (julianday (ev_occurred_at e) <? julianday (s_expires_at session))
      && match s_revoked_at session with
         | None => true
         | Some r => (julianday (ev_occurred_at e) <=? julianday r)
         end) IntegrityError
  | _ => Raise IntegrityError
  end.

Definition same_keys (fields : list string) (d : dict) : bool :=
  forallb (λ k, memb k (dkeys d)) fields && forallb (λ k, memb k fields) (dkeys d).

Definition protected_row_ok (e : Event) : res unit :=
  match ev_auth_context e with
  | JObj auth =>
    handlers ← of_option (_PROTECTED_EVENT_HANDLERS (ev_aggregate_type e) (ev_event_type e))
                 IntegrityError;
    require (same_keys _PROTECTED_AUTH_CONTEXT_FIELDS auth
      && existsb (auth_is auth "handler") handlers
      && auth_is auth "command_authority_version" _CORE_AUTHORITY_VERSION
      && auth_is auth "protected_event" (ev_aggregate_type e +:+ "/" +:+ ev_event_type e)
      && match dget auth "handler_binding_id" with
         | Some (JStr s) => negb (bool_decide (s = "")) | _ => false end
      && match dget auth "handler_config_digest" with
         | Some (JStr s) => all_hex64 s | _ => false end) IntegrityError
  | _ => Raise IntegrityError
  end.

(** The checks on one row after a row whose hash is [previous_hash]. *)
Definition verify_row (d : DB) (previous_hash : string) (e : Event) : res unit :=
  _ ← require (bool_decide (ev_previous_hash e = previous_hash)) IntegrityError;
  _ ← require (bool_decide (chain_hash previous_hash e = ev_hash e)) IntegrityError;
  _ ← require (bool_decide (payload_digest_of (ev_payload e) = ev_payload_digest e))
        IntegrityError;
  if is_core (ev_aggregate_type e) then core_row_ok d e
  else if memb (ev_aggregate_type e) _PROTECTED_AGGREGATES then protected_row_ok e
  else Ok tt.

Fixpoint verify_rows (d : DB) (previous_hash : string) (es : list Event) : res unit :=
  match es with
  | [] => Ok tt
  | e :: es => _ ← verify_row d previous_hash e; verify_rows d (ev_hash e) es
  end.

Definition verify_event_chain : P Z :=
  d ← read id;
  _ ← lift_res (verify_rows d "GENESIS" (events d));
  mret (Z.of_nat (length (events d))).

(** [_verify_protected_event_authority] *)
Definition _verify_protected_event_authority (e : Event)
    (expected_handler expected_config_digest : string) : res string :=
  match ev_auth_context e with
  | JObj auth =>
    handlers ← of_option (_PROTECTED_EVENT_HANDLERS (ev_aggregate_type e) (ev_event_type e))
                 IntegrityError;
    _ ← require (same_keys _PROTECTED_AUTH_CONTEXT_FIELDS auth
      && memb expected_handler handlers
      && auth_is auth "handler" expected_handler
      && auth_is auth "handler_config_digest" expected_config_digest
      && auth_is auth "command_authority_version" _CORE_AUTHORITY_VERSION
      && auth_is auth "protected_event" (ev_aggregate_type e +:+ "/" +:+ ev_event_type e))
        IntegrityError;
    match dget auth "handler_binding_id" with
    | Some (JStr s) =>
      _ ← require (negb (bool_decide (s = ""))) IntegrityError; Ok s
    | _ => Raise IntegrityError
    end
  | _ => Raise IntegrityError
  end.

(** *** Facts about the tables *)
Lemma verify_rows_app d h es e :
  verify_rows d h (es ++ [e]) =
  (_ ← verify_rows d h es; verify_row d (default h (ev_hash <$> last es)) e).
Proof.
  revert h. induction es as [|f es IH]; intros h.
  - simpl. destruct (verify_row d h e) as [[]|]; done.
  - cbn [verify_rows app]. destruct (verify_row d h f); [|done].
    change (verify_rows d (ev_hash f) (es ++ [e]) =
      (_ ← verify_rows d (ev_hash f) es; verify_row d (default h (ev_hash <$> last (f :: es))) e)).
    rewrite IH. destruct (verify_rows d (ev_hash f) es); [|done]. simpl.
    destruct es as [|g es]; [done|]. rewrite last_cons_cons.
    by destruct (last (g :: es)) eqn:Hl; [|apply last_None in Hl].
Qed.

Lemma head_hash_last d : head_hash d = default "GENESIS" (ev_hash <$> last (events d)).
Proof. unfold head_hash. by destruct (last _). Qed.

(** Checking a row against a database reads its sessions only. *)
Lemma verify_row_sessions d d' h e :
  sessions d = sessions d' → verify_row d h e = verify_row d' h e.
Proof. intros Hs. unfold verify_row, core_row_ok. by rewrite Hs. Qed.

Lemma verify_rows_sessions d d' h es :
  sessions d = sessions d' → verify_rows d h es = verify_rows d' h es.
Proof.
  intros Hs. revert h. induction es as [|e es IH]; intros h; [done|].
  cbn [verify_rows]. rewrite (verify_row_sessions d d') by done.
  destruct (verify_row d' h e); [apply IH|done].
Qed.

(** A role that the query of [_authorize_core_event] returned. *)
Record live_role (d : DB) (session_id actor : string) (now : Instant) (allowed : list Role)
    (r : Role) (s : Session) (p : Principal) : Prop := {
  lr_session : sessions d !! session_id = Some s;
  lr_principal : principals d !! actor = Some p;
  lr_actor : s_principal_id s = actor;
  lr_revoked : s_revoked_at s = None;
  lr_enabled : p_enabled p = true;
  lr_version : s_credential_version s = p_credential_version p;
  lr_issued : julianday (s_issued_at s) <= julianday now;
  lr_expires : julianday now < julianday (s_expires_at s);
  lr_allowed : r ∈ allowed;
  lr_role : is_Some (principal_roles d !! (actor, r)) }.

Lemma head_elem {A} (l : list A) x : head l = Some x → x ∈ l.
Proof. destruct l; [done|]. intros [= ->]. constructor. Qed.

Lemma live_roles_head d session_id actor now allowed r h :
  head (live_roles d session_id actor now allowed) = Some (r, h) →
  ∃ s p, live_role d session_id actor now allowed r s p ∧ h = s_token_hash s.
Proof.
  unfold live_roles. destruct (sessions d !! session_id) as [s|] eqn:Hs; [|done].
  destruct (principals d !! s_principal_id s) as [p|] eqn:Hp; [|done].
  destruct (_ && _) eqn:Hc; [|done]. bsplit. intros Hh%head_elem.
  apply list_elem_of_fmap in Hh as (r' & [= -> ->] & Hr). apply elem_of_sort_by in Hr.
  apply list_elem_of_In, filter_In in Hr as [_ Hr]. bsplit.
  exists s, p. split; [|done]. subst. constructor; try done.
  - by apply memb_true.
  - by apply present_true.
Qed.

(** ** What a successful authorisation means *)
Lemma authorize_core_ok ty et actor payload vp token w h r sid w' :
  _authorize_core_event ty et actor payload vp token w = (Ok (h, r, sid), w') →
  w' = Build_World (w_db w) (S (w_ticks w)) (w_drawn w) (w_domain w) ∧
  ∃ b v allowed s p,
    live_authority (w_domain w) token = Some b ∧ b_kind b = K_core ∧ b_handler b = h ∧
    _handler_supports_event h ty et = true ∧
    vp = Some v ∧ sid = vp_session_id v ∧
    _core_roles ty et payload h = Ok allowed ∧
    live_role (w_db w) sid actor (clock (w_ticks w) / 1000 * 1000) allowed r s p ∧
    sha256 (vp_session_secret v) = s_token_hash s.
Proof.
  unfold _authorize_core_event. intros Hrun. rinv.
  match goal with H : head _ = Some ?x |- _ => destruct x as [r' h'] end.
  match goal with H : head _ = Some _ |- _ => apply live_roles_head in H as (s & p & Hl & ->) end.
  simpl in *. bsplit. simplify_eq. split; [done|]. eauto 20.
Qed.

(** The event that an append records. *)
Record appended (d : DB) (a : EventArgs) (auth : dict) (now : Instant) (e : Event) : Prop := {
  ap_type : ev_aggregate_type e = ea_aggregate_type a;
  ap_id : ev_aggregate_id e = ea_aggregate_id a;
  ap_version : ev_aggregate_version e
               = head_version d (ea_aggregate_type a) (ea_aggregate_id a) + 1;
  ap_expected : head_version d (ea_aggregate_type a) (ea_aggregate_id a) = ea_expected_version a;
  ap_project : ev_project_id e = ea_project_id a;
  ap_run : ev_run_id e = ea_run_id a;
  ap_task : ev_task_id e = ea_task_id a;
  ap_event : ev_event_type e = ea_event_type a;
  ap_actor : ev_actor e = ea_actor a;
  ap_payload : ev_payload e = JObj (ea_payload a);
  ap_digest : ev_payload_digest e = payload_digest_of (JObj (ea_payload a));
  ap_auth : ev_auth_context e = JObj auth;
  ap_previous : ev_previous_hash e = head_hash d;
  ap_hash : ev_hash e = chain_hash (head_hash d) e;
  ap_occurred : ev_occurred_at e = default now (ea_occurred_at a);
  ap_recorded : ev_recorded_at e = now;
  ap_new : Forall (λ f, ev_id f ≠ ev_id e ∧ ev_hash f ≠ ev_hash e) (events d) }.

Lemma authorize_event_world a w r w' :
  authorize_event a w = (r, w') →
  w_db w' = w_db w ∧ w_drawn w' = w_drawn w ∧ w_domain w' = w_domain w ∧
  (w_ticks w <= w_ticks w' <= S (w_ticks w))%nat.
Proof.
  unfold authorize_event. destruct (is_core _); [|destruct (memb _ _)].
  - unfold _authorize_core_event, mbind, M_bind, gets, expect, lift_res, ensure, sql_now, read,
      raise, mret, M_ret. intros H.
    repeat (case_match; simplify_eq; simpl in *); split_and!; try done; lia.
  - unfold _authorize_protected_event, mbind, M_bind, gets, expect, lift_res, ensure, read,
      raise, mret, M_ret. intros H.
    repeat (case_match; simplify_eq; simpl in *); split_and!; try done; lia.
  - intros [= <- <-]. split_and!; try done; lia.
Qed.

Definition append_world (w wa : World) (e : Event) : World :=
  Build_World (set_events (λ es, es ++ [e]) (w_db w)) (S (w_ticks wa)) (S (w_drawn wa))
    (w_domain wa).

Lemma append_event_ok a w e w' :
  append_event a w = (Ok e, w') →
  ∃ auth wa, authorize_event a w = (Ok auth, wa) ∧
    appended (w_db w) a auth (clock (w_ticks wa)) e ∧ w' = append_world w wa e.
Proof.
  unfold append_event. intros H. apply bind_ok in H as (auth & wa & Ha & H).
  destruct (authorize_event_world _ _ _ _ Ha) as (Hdb & _). rinv.
  match goal with H : insert_event _ _ = _ |- _ => unfold insert_event in H; rinv end.
  simpl in *. exists auth, wa. split; [done|]. rewrite Hdb in *. bsplit. split.
  - constructor; try done.
    match goal with Hno : existsb _ _ = false |- _ =>
      pose proof (existsb_false_In _ _ Hno) as Hall end.
    apply Forall_forall. intros f Hf. specialize (Hall f Hf). cbn beta in Hall. bsplit. by split.
  - unfold append_world, set_db. simpl. by rewrite ?Hdb.
Qed.

(** The log with more events. *)
Definition logged (es : list Event) (d : DB) : DB := set_events (λ l, l ++ es) d.

Lemma append_logged a w e w' :
  append_event a w = (Ok e, w') →
  ∃ auth now, appended (w_db w) a auth now e ∧ w_db w' = logged [e] (w_db w).
Proof. intros (auth & wa & _ & Ha & ->)%append_event_ok. by eexists auth, _. Qed.

(** An append writes the event log only. *)
Lemma keeps_append_event I a : (∀ e, keeps I (insert_event e)) → keeps I (append_event a).
Proof.
  intros He. unfold append_event. keeps_walk.
  apply keeps_same. intros w. destruct (authorize_event a w) as [r w'] eqn:Ha.
  by destruct (authorize_event_world _ _ _ _ Ha).
Qed.

Lemma append_event_atomic a : atomic (append_event a).
Proof.
  unfold append_event. apply atomic_bind.
  { intros w. destruct (authorize_event a w) as [r w'] eqn:Ha.
    by destruct (authorize_event_world _ _ _ _ Ha). }
  intros auth. do 5 (apply atomic_bind; [first [by intros w|apply pure_ensure]|intros ?]). cbv zeta.
  apply atomic_then_total; [|intros; by eexists _, _].
  unfold insert_event. apply atomic_then_total; [|intros; by eexists _, _].
  apply atomic_pure. intros w. unfold constraint, mbind, M_bind, read, gets, ensure. by case_match.
Qed.

(** ** Versions of an aggregate *)
Definition of_aggregate (ty id : string) (e : Event) : bool :=
  bool_decide (ev_aggregate_type e = ty) && bool_decide (ev_aggregate_id e = id).
Definition versions (d : DB) (ty id : string) : list Z :=
  ev_aggregate_version <$> List.filter (of_aggregate ty id) (events d).

(** The versions of every aggregate are 1, 2, 3, ... in log order. *)
Definition gapless (d : DB) : Prop :=
  ∀ ty id, versions d ty id = seqZ 1 (Z.of_nat (length (versions d ty id))).

Lemma foldr_max_seqZ n : foldr Z.max 0 (seqZ 1 (Z.of_nat n)) = Z.of_nat n.
Proof.
  assert (∀ m k, 0 <= k → foldr Z.max 0 (seqZ (1 + k) (Z.of_nat m))
    = if (m =? 0)%nat then 0 else k + Z.of_nat m) as Hgen.
  { induction m as [|m IH]; intros k Hk; [done|].
    rewrite seqZ_cons by lia. cbn [foldr].
    replace (Z.succ (1 + k)) with (1 + (k + 1)) by lia.
    replace (Z.pred (Z.of_nat (S m))) with (Z.of_nat m) by lia.
    rewrite IH by lia. destruct m; simpl; lia. }
  specialize (Hgen n 0 ltac:(lia)). rewrite Z.add_0_r in Hgen. rewrite Hgen. by destruct n.
Qed.

Lemma head_version_gapless d ty id :
  gapless d → head_version d ty id = Z.of_nat (length (versions d ty id)).
Proof.
  intros Hg. unfold head_version. change (List.filter _ _) with (List.filter (of_aggregate ty id) (events d)).
  change (ev_aggregate_version <$> _) with (versions d ty id).
  rewrite (Hg ty id) at 1. apply foldr_max_seqZ.
Qed.

Lemma seqZ_snoc n : seqZ 1 (Z.of_nat (S n)) = seqZ 1 (Z.of_nat n) ++ [Z.of_nat n + 1].
Proof.
  rewrite Nat2Z.inj_succ, <- Z.add_1_r, seqZ_app by lia. f_equal.
  rewrite seqZ_cons by lia. f_equal. lia.
Qed.

Lemma append_gapless d a auth now e :
  gapless d → appended d a auth now e → gapless (set_events (λ es, es ++ [e]) d).
Proof.
  intros Hg Hap ty id. unfold versions. cbn [events set_events].
  rewrite List.filter_app, fmap_app, length_app. change (ev_aggregate_version <$> List.filter _ (events d))
    with (versions d ty id). simpl.
  destruct (of_aggregate ty id e) eqn:He; simpl.
  - unfold of_aggregate in He. bsplit.
    rewrite Nat.add_1_r, seqZ_snoc, <- Hg, (ap_version _ _ _ _ _ Hap).
    rewrite <- (ap_type _ _ _ _ _ Hap), <- (ap_id _ _ _ _ _ Hap). subst.
    by rewrite head_version_gapless.
  - by rewrite app_nil_r, Nat.add_0_r.
Qed.

(** ** Appending keeps the chain verifiable *)
Lemma dget_app_none d k l : dget d k = None → dget (d ++ l) k = dget l k.
Proof.
  induction d as [|[k' v] d IH]; [done|]. simpl. destruct (String.eqb k k'); [done|apply IH].
Qed.

Lemma dget_keys d k : dget d k = None ↔ k ∉ dkeys d.
Proof.
  induction d as [|[k' v] d IH]; simpl; [set_solver|].
  destruct (String.eqb_spec k k'); rewrite not_elem_of_cons; [naive_solver|].
  unfold dkeys in *. rewrite IH. naive_solver.
Qed.

Lemma disjoint_dget fields d k :
  disjoint_keys fields d = true → k ∈ fields → dget d k = None.
Proof.
  intros Hd Hk. apply dget_keys. intros Hin.
  pose proof (proj1 (forallb_In _ _) Hd k Hin) as Hn. apply negb_true_iff in Hn.
  apply (memb_true k fields) in Hk. congruence.
Qed.

Lemma memb_elem `{EqDecision A} (x : A) l : x ∈ l → memb x l = true.
Proof. apply memb_true. Qed.

(** The metadata that the store appends is what a later lookup finds. *)
Lemma auth_lookup fields ctx own k v :
  disjoint_keys fields ctx = true → memb k fields = true → dget own k = Some v →
  dget (ctx ++ own) k = Some v.
Proof.
  intros Hd Hk Hv. rewrite dget_app_none; [done|].
  eapply disjoint_dget; [done|]. by apply memb_true.
Qed.

Lemma handler_listed h ty et :
  _handler_supports_event h ty et = true → h ∈ default [] (_CORE_HANDLERS ty).
Proof.
  unfold _handler_supports_event, is_core, _CORE_HANDLERS.
  case_bool_decide as Hh; [subst h|].
  - repeat case_bool_decide; intros ?; try done; by repeat constructor.
  - intros ?. bsplit. subst. by apply (bool_decide_unpack _).
Qed.

(** The session of a core event covers the moment that the event records. *)
Definition session_covers (d : DB) (a : EventArgs) (occurred : Instant) : Prop :=
  ∀ v s, ea_auth_session a = Some v → sessions d !! vp_session_id v = Some s →
  julianday (s_issued_at s) <= julianday occurred < julianday (s_expires_at s).

Lemma core_row_appended a w auth wa e now d' :
  is_core (ea_aggregate_type a) = true →
  authorize_event a w = (Ok auth, wa) → appended (w_db w) a auth now e →
  session_covers (w_db w) a (ev_occurred_at e) →
  sessions d' = sessions (w_db w) → core_row_ok d' e = Ok tt.
Proof.
  intros Hcore Ha Hap Hcov Hs'. unfold authorize_event in Ha. rewrite Hcore in Ha.
  apply bind_ok in Ha as ([[h r] sid] & w1 & Hauth & Ha). rinv.
  apply authorize_core_ok in Hauth as (-> & b & v & allowed & s & p & Hb & _ & _ & Hsup & Hv & -> & Hroles & Hl & Hsecret).
  match goal with H : disjoint_keys _ _ = true |- _ => rename H into Hdis end.
  destruct Hap. unfold core_row_ok. rewrite ap_auth0. cbv zeta.
  set (md := core_metadata h r (vp_session_id v)) in *.
  assert (∀ kk vv, memb kk _CORE_AUTH_CONTEXT_FIELDS = true → dget md kk = Some vv →
    dget (ea_auth_context a ++ md) kk = Some vv) as Hget.
  { intros kk vv Hk. by apply auth_lookup with (fields := _CORE_AUTH_CONTEXT_FIELDS). }
  assert (∀ kk vv, memb kk _CORE_AUTH_CONTEXT_FIELDS = true → dget md kk = Some (JStr vv) →
    auth_is (ea_auth_context a ++ md) kk vv = true) as His.
  { intros kk vv Hk Hv'. unfold auth_is. rewrite (Hget kk _ Hk Hv'). by apply bool_decide_eq_true. }
  unfold auth_text. rewrite (Hget "handler" (JStr h)) by done.
  rewrite ap_type0, ap_event0, ap_payload0. simpl payload_dict. rewrite Hroles, res_ret_bind.
  rewrite (His "command_authority_version" _CORE_AUTHORITY_VERSION), Hsup by done.
  assert (existsb (auth_is (ea_auth_context a ++ md) "handler")
     (default [] (_CORE_HANDLERS (ea_aggregate_type a))) = true) as ->.
  { apply existsb_In. exists h. split; [by eapply handler_listed|by apply His]. }
  match goal with |- context [existsb ?f allowed] => assert (existsb f allowed = true) as -> end.
  { apply existsb_In. exists r. split; [apply Hl|by apply His]. }
  simpl require. rewrite res_ret_bind.
  rewrite (Hget "session_id" (JStr (vp_session_id v))) by done.
  destruct Hl. rewrite Hs', lr_session0. simpl. rewrite ap_actor0.
  rewrite bool_decide_eq_true_2 by done. simpl. rewrite lr_revoked0.
  destruct (Hcov v s Hv lr_session0) as [H1 H2].
  apply Z.leb_le in H1. apply Z.ltb_lt in H2. by rewrite H1, H2.
Qed.

(** Bindings of protected handlers, as [_bind_protected_command_authority]
    makes them. *)
Definition domain_wf (d : Domain) : Prop :=
  ∀ k b, d_authorities d !! k = Some b → b_kind b = K_protected →
  all_hex64 (b_config_digest b) = true ∧ b_binding_id b ≠ "".

Lemma live_authority_some d token b :
  live_authority d token = Some b →
  ∃ k, token = Some k ∧ d_authorities d !! k = Some b ∧ b_owner b ∈ d_live d.
Proof.
  unfold live_authority. intros (k & Hk & (b' & Hb & Hc)%bind_Some)%bind_Some.
  case_bool_decide; [|done]. simplify_eq. eauto.
Qed.

Lemma authorize_protected_ok ty et token owner w h i g w' :
  _authorize_protected_event ty et token owner w = (Ok (h, i, g), w') →
  w' = w ∧ ∃ hs b, _PROTECTED_EVENT_HANDLERS ty et = Some hs ∧
    live_authority (w_domain w) token = Some b ∧ owner = Some (b_owner b) ∧
    b_kind b = K_protected ∧ h ∈ hs ∧ h = b_handler b ∧ i = b_binding_id b ∧
    g = b_config_digest b.
Proof.
  unfold _authorize_protected_event. intros Hrun. rinv. simplify_eq. bsplit.
  split; [done|]. eexists _, _. split_and!; try done. by apply memb_true.
Qed.

Lemma protected_row_appended a w auth wa e now :
  is_core (ea_aggregate_type a) = false →
  memb (ea_aggregate_type a) _PROTECTED_AGGREGATES = true → ea_auth_context a = [] →
  authorize_event a w = (Ok auth, wa) → appended (w_db w) a auth now e →
  domain_wf (w_domain w) → protected_row_ok e = Ok tt.
Proof.
  intros Hcore Hprot Hctx Ha Hap Hwf. unfold authorize_event in Ha. rewrite Hcore, Hprot in Ha.
  apply bind_ok in Ha as ([[h i] g] & w1 & Hauth & Ha). rinv.
  apply authorize_protected_ok in Hauth as (-> & hs & b & Hhs & Hb & _ & Hk & Hh & -> & -> & ->).
  apply live_authority_some in Hb as (k & _ & Hb & _).
  destruct (Hwf k b Hb Hk) as [Hhex Hid]. destruct Hap.
  unfold protected_row_ok. rewrite ap_auth0, ap_type0, ap_event0, Hhs, Hctx.
  set (md := protected_metadata _ _ _ _). simpl app.
  assert (∀ kk vv, dget md kk = Some (JStr vv) → auth_is md kk vv = true) as His.
  { intros kk vv Hv. unfold auth_is. rewrite Hv. by apply bool_decide_eq_true. }
  simpl of_option. rewrite res_ret_bind.
  assert (existsb (auth_is md "handler") hs = true) as ->.
  { apply existsb_In. exists (b_handler b). split; [done|by apply His]. }
  rewrite (His "command_authority_version" _CORE_AUTHORITY_VERSION) by done.
  rewrite (His "protected_event" (ea_aggregate_type a +:+ "/" +:+ ea_event_type a)) by done.
  change (dget md "handler_binding_id") with (Some (JStr (b_binding_id b))).
  change (dget md "handler_config_digest") with (Some (JStr (b_config_digest b))).
  cbv beta iota. rewrite Hhex, bool_decide_eq_false_2 by done. done.
Qed.

Lemma append_verifies a w e w' auth wa :
  authorize_event a w = (Ok auth, wa) →
  appended (w_db w) a auth (clock (w_ticks wa)) e → w' = append_world w wa e →
  verify_rows (w_db w) "GENESIS" (events (w_db w)) = Ok tt →
  (is_core (ea_aggregate_type a) = true → session_covers (w_db w) a (ev_occurred_at e)) →
  (memb (ea_aggregate_type a) _PROTECTED_AGGREGATES = true → ea_auth_context a = []) →
  domain_wf (w_domain w) →
  verify_rows (w_db w') "GENESIS" (events (w_db w')) = Ok tt.
Proof.
  intros Ha Hap -> Hok Hcov Hctx Hwf. simpl.
  rewrite verify_rows_app, (verify_rows_sessions _ (w_db w)), Hok by done.
  rewrite res_ret_bind, <- head_hash_last. unfold verify_row.
  rewrite (bool_decide_eq_true_2 _ (ap_previous _ _ _ _ _ Hap)).
  rewrite (bool_decide_eq_true_2 _ (eq_sym (ap_hash _ _ _ _ _ Hap))).
  rewrite (ap_payload _ _ _ _ _ Hap), (bool_decide_eq_true_2 _ (eq_sym (ap_digest _ _ _ _ _ Hap))).
  rewrite (ap_type _ _ _ _ _ Hap). simpl require. rewrite !res_ret_bind.
  destruct (is_core (ea_aggregate_type a)) eqn:Hcore.
  - by eapply core_row_appended; eauto.
  - destruct (memb _ _) eqn:Hprot; [|done].
    by eapply protected_row_appended; eauto.
Qed.

(** ** Tamper evidence *)

(** Two log rows record the same fact: every column agrees (JSON columns up to
    the order of keys, times in their text form). *)
Record same_event (e f : Event) : Prop := {
  se_id : ev_id e = ev_id f;
  se_aggregate : (ev_aggregate_type e, ev_aggregate_id e, ev_aggregate_version e)
                 = (ev_aggregate_type f, ev_aggregate_id f, ev_aggregate_version f);
  se_project : ev_project_id e = ev_project_id f;
  se_scope : (ev_run_id e, ev_task_id e) = (ev_run_id f, ev_task_id f);
  se_type : ev_event_type e = ev_event_type f;
  se_schema : ev_schema_version e = ev_schema_version f;
  se_actor : ev_actor e = ev_actor f;
  se_auth : norm (ev_auth_context e) = norm (ev_auth_context f);
  se_command : (ev_command_id e, ev_idempotency_key e) = (ev_command_id f, ev_idempotency_key f);
  se_links : (ev_correlation_id e, ev_causation_id e) = (ev_correlation_id f, ev_causation_id f);
  se_policy : ev_policy_version e = ev_policy_version f;
  se_times : (iso (ev_occurred_at e), iso (ev_recorded_at e))
             = (iso (ev_occurred_at f), iso (ev_recorded_at f));
  se_confidentiality : ev_confidentiality e = ev_confidentiality f;
  se_payload : norm (ev_payload e) = norm (ev_payload f);
  se_chain : (ev_previous_hash e, ev_hash e) = (ev_previous_hash f, ev_hash f) }.

Definition collision : Prop := ∃ x y, x ≠ y ∧ sha256 x = sha256 y.

Lemma sha256_eq x y : sha256 x = sha256 y → x = y ∨ collision.
Proof. intros Hxy. destruct (decide (x = y)); [by left|right]. by exists x, y. Qed.

Lemma jopt_inj a b : norm (jopt a) = norm (jopt b) → a = b.
Proof. destruct a, b; simpl; congruence. Qed.

#[local] Opaque iso.
Lemma envelope_inj e f :
  canonical_json (envelope e) = canonical_json (envelope f) →
  norm (ev_payload e) = norm (ev_payload f) → ev_hash e = ev_hash f → same_event e f.
Proof.
  intros He%canonical_json_inj Hp Hh.
  assert (∀ g, NoDup (dkeys match envelope g with JObj d => d | _ => [] end)) as Hnd
    by (intros g; apply (bool_decide_unpack _); vm_compute; exact I).
  assert (∀ k, norm <$> dget match envelope e with JObj d => d | _ => [] end k
             = norm <$> dget match envelope f with JObj d => d | _ => [] end k) as Hk
    by (intros k; apply norm_dget; [apply Hnd..|done]).
  assert (∀ k v v', dget match envelope e with JObj d => d | _ => [] end k = Some v →
    dget match envelope f with JObj d => d | _ => [] end k = Some v' → norm v = norm v') as Hf.
  { intros k v v' Hv Hv'. specialize (Hk k). rewrite Hv, Hv' in Hk. by injection Hk. }
  pose proof (Hf "event_id" _ _ eq_refl eq_refl) as [= ?].
  pose proof (Hf "aggregate_type" _ _ eq_refl eq_refl) as [= ?].
  pose proof (Hf "aggregate_id" _ _ eq_refl eq_refl) as [= ?].
  pose proof (Hf "aggregate_version" _ _ eq_refl eq_refl) as [= ?].
  pose proof (Hf "project_id" _ _ eq_refl eq_refl) as [= ?].
  pose proof (jopt_inj _ _ (Hf "run_id" _ _ eq_refl eq_refl)).
  pose proof (jopt_inj _ _ (Hf "task_id" _ _ eq_refl eq_refl)).
  pose proof (Hf "event_type" _ _ eq_refl eq_refl) as [= ?].
  pose proof (Hf "schema_version" _ _ eq_refl eq_refl) as [= ?].
  pose proof (Hf "actor" _ _ eq_refl eq_refl) as [= ?].
  pose proof (Hf "auth_context" _ _ eq_refl eq_refl).
  pose proof (Hf "command_id" _ _ eq_refl eq_refl) as [= ?].
  pose proof (jopt_inj _ _ (Hf "idempotency_key" _ _ eq_refl eq_refl)).
  pose proof (Hf "correlation_id" _ _ eq_refl eq_refl) as [= ?].
  pose proof (jopt_inj _ _ (Hf "causation_id" _ _ eq_refl eq_refl)).
  pose proof (Hf "policy_version" _ _ eq_refl eq_refl) as [= ?].
  pose proof (Hf "occurred_at" _ _ eq_refl eq_refl) as [= ?].
  pose proof (Hf "recorded_at" _ _ eq_refl eq_refl) as [= ?].
  pose proof (Hf "confidentiality" _ _ eq_refl eq_refl) as [= ?].
  pose proof (Hf "previous_event_hash" _ _ eq_refl eq_refl) as [= ?].
  clear Hk Hf He. constructor; repeat first [assumption | f_equal].
Qed.
#[local] Transparent iso.

Definition no_brace (s : string) : bool := forallb (λ c, negb (bool_decide (c = "{"%char))) (chars s).

(** A hash is followed by the brace that opens the envelope. *)
Lemma split_brace (a b x y : list ascii) :
  forallb (λ c, negb (bool_decide (c = "{"%char))) a = true →
  forallb (λ c, negb (bool_decide (c = "{"%char))) b = true →
  a ++ "{"%char :: x = b ++ "{"%char :: y → a = b ∧ x = y.
Proof.
  revert b. induction a as [|c a IH]; intros [|c' b] Ha Hb Heq; simpl in *.
  - injection Heq as ->. done.
  - injection Heq as <- _. done.
  - injection Heq as -> _. done.
  - injection Heq as -> Heq. bsplit. destruct (IH b) as [-> ->]; done.
Qed.

Lemma canonical_obj_brace d : ∃ t, chars (canonical_json (JObj d)) = "{"%char :: t.
Proof. rewrite canonical_obj, chars_app. by eexists. Qed.

Lemma envelope_split p q e f :
  no_brace p = true → no_brace q = true →
  p +:+ canonical_json (envelope e) = q +:+ canonical_json (envelope f) →
  p = q ∧ canonical_json (envelope e) = canonical_json (envelope f).
Proof.
  intros Hp Hq Heq. apply (f_equal (λ s, chars s)) in Heq. rewrite !chars_app in Heq.
  unfold envelope in *.
  match type of Heq with
    _ ++ chars (canonical_json (JObj ?a)) = _ ++ chars (canonical_json (JObj ?b)) =>
    destruct (canonical_obj_brace a) as [ta Ha], (canonical_obj_brace b) as [tb Hb]
  end.
  rewrite Ha, Hb in Heq. apply split_brace in Heq as [Hpq ->]; [|done..].
  split; [by apply chars_inj|]. apply chars_inj. by rewrite Ha, Hb.
Qed.

Lemma hex_no_brace s : sha256_hex s = true → no_brace s = true.
Proof.
  unfold sha256_hex, no_brace. intros [_ Hs]%andb_prop. apply forallb_In. intros c Hc.
  pose proof (proj1 (forallb_In _ _) Hs c Hc) as Hx. apply negb_true_iff.
  apply bool_decide_eq_false. by intros ->.
Qed.

(** The hash that the last row carries, or [GENESIS]. *)
Definition tip (es : list Event) : string := default "GENESIS" (ev_hash <$> last es).

Lemma verify_row_ok d h e :
  verify_row d h e = Ok tt →
  ev_previous_hash e = h ∧ ev_hash e = sha256 (h +:+ canonical_json (envelope e)) ∧
  ev_payload_digest e = sha256 (canonical_json (ev_payload e)).
Proof.
  unfold verify_row. intros Hv. rinv. bsplit. unfold chain_hash, payload_digest_of in *.
  simpl in *. done.
Qed.

Lemma tip_no_brace d es :
  (∀ x, sha256_hex (sha256 x) = true) → verify_rows d "GENESIS" es = Ok tt →
  no_brace (tip es) = true.
Proof.
  intros Hhex. destruct es as [|e es _] using rev_ind; [done|].
  rewrite verify_rows_app. intros Hv. rinv. apply verify_row_ok in Hv as (_ & Hh & _).
  unfold tip. rewrite last_snoc. simpl. rewrite Hh. by apply hex_no_brace.
Qed.

Lemma tamper_evident d d' es es' :
  (∀ x, sha256_hex (sha256 x) = true) →
  verify_rows d "GENESIS" es = Ok tt → verify_rows d' "GENESIS" es' = Ok tt →
  tip es = tip es' → Forall2 same_event es es' ∨ collision.
Proof.
  intros Hhex. revert es'. induction es as [|e es IH] using rev_ind; intros es' Hv Hv' Htip;
    destruct es' as [|f es' _] using rev_ind.
  - left. constructor.
  - exfalso. rewrite verify_rows_app in Hv'. rinv. apply verify_row_ok in Hv' as (_ & Hh & _).
    unfold tip in Htip. rewrite last_snoc in Htip. simpl in Htip.
    rewrite Hh in Htip. pose proof (Hhex (default "GENESIS" (ev_hash <$> last es') +:+
      canonical_json (envelope f))) as Hx. rewrite <- Htip in Hx. done.
  - exfalso. rewrite verify_rows_app in Hv. rinv. apply verify_row_ok in Hv as (_ & Hh & _).
    unfold tip in Htip. rewrite last_snoc in Htip. simpl in Htip.
    rewrite Hh in Htip. pose proof (Hhex (default "GENESIS" (ev_hash <$> last es) +:+
      canonical_json (envelope e))) as Hx. rewrite Htip in Hx. done.
  - rewrite verify_rows_app in Hv, Hv'. rinv.
    match goal with H : verify_rows d _ _ = Ok ?u, H' : verify_rows d' _ _ = Ok ?u' |- _ =>
      destruct u, u'; rename H into Hes; rename H' into Hes' end.
    apply verify_row_ok in Hv as (Hp & Hh & Hd). apply verify_row_ok in Hv' as (Hp' & Hh' & Hd').
    unfold tip in Htip. rewrite !last_snoc in Htip. simpl in Htip.
    fold (tip es) (tip es') in *.
    destruct (sha256_eq (tip es +:+ canonical_json (envelope e))
      (tip es' +:+ canonical_json (envelope f))) as [Heq|]; [congruence| |by right].
    destruct (envelope_split _ _ _ _ (tip_no_brace _ _ Hhex Hes) (tip_no_brace _ _ Hhex Hes') Heq)
      as [Htips Henv].
    destruct (IH es' Hes Hes' Htips) as [HF|]; [|by right].
    assert (ev_payload_digest e = ev_payload_digest f) as Hdig.
    { pose proof (canonical_json_inj _ _ Henv) as Hn. unfold envelope in Hn.
      apply (norm_dget _ _ "payload_digest") in Hn; [|apply (bool_decide_unpack _); vm_compute; exact I..].
      by injection Hn. }
    destruct (sha256_eq (canonical_json (ev_payload e)) (canonical_json (ev_payload f)))
      as [Hpay%canonical_json_inj|]; [congruence| |by right].
    left. apply Forall2_app; [done|]. constructor; [|constructor].
    by apply envelope_inj.
Qed.
End verify.

(** ** The contract of the event log *)
Section log.
Context `{ENV : Env}.

Lemma verify_event_chain_ok w n w' :
  verify_event_chain w = (Ok n, w') ↔
  verify_rows (w_db w) "GENESIS" (events (w_db w)) = Ok tt ∧
  n = Z.of_nat (length (events (w_db w))) ∧ w' = w.
Proof.
  unfold verify_event_chain, read, gets, mbind, M_bind, lift_res. simpl.
  destruct (verify_rows _ _ _) as [[]|]; [|by split; [|intros (? & _)]].
  unfold mret, M_ret. split; [by intros [= <- <-]|by intros (_ & -> & ->)].
Qed.

(** Appending keeps the log verifiable.  If [verify_event_chain] accepts
    the log and [append_event] succeeds, the log grows by exactly the returned
    event, [verify_event_chain] accepts it again and counts one more event,
    and the versions of every aggregate stay 1, 2, 3, ...  A core event needs
    its session to cover the recorded moment (see
    [expired_between_checks_breaks_chain]); a protected event is appended by a
    binding that [_bind_protected_command_authority] made. *)
Theorem append_extends_chain a w e w' n w1 :
  verify_event_chain w = (Ok n, w1) → append_event a w = (Ok e, w') →
  gapless (w_db w) → domain_wf (w_domain w) →
  (is_core (ea_aggregate_type a) = true → session_covers (w_db w) a (ev_occurred_at e)) →
  (memb (ea_aggregate_type a) _PROTECTED_AGGREGATES = true → ea_auth_context a = []) →
  events (w_db w') = events (w_db w) ++ [e] ∧
  verify_event_chain w' = (Ok (n + 1), w') ∧ gapless (w_db w').
Proof.
  intros Hv Ha Hg Hwf Hcov Hctx. apply verify_event_chain_ok in Hv as (Hv & -> & _).
  destruct (append_event_ok _ _ _ _ Ha) as (auth & wa & Hauth & Hap & Hw').
  assert (verify_rows (w_db w') "GENESIS" (events (w_db w')) = Ok tt) as Hok
    by (eapply append_verifies; eauto).
  split_and!.
  - by rewrite Hw'.
  - apply verify_event_chain_ok. split_and!; [done| |done].
    rewrite Hw'. simpl. rewrite length_app. simpl. lia.
  - rewrite Hw'. by eapply append_gapless.
Qed.

(** C32: tamper evidence.  Two logs that both pass verification and end in the
    same event hash record the same facts, row by row, unless a collision of
    SHA-256 is at hand: no row can be altered, dropped, inserted or reordered
    without changing the last hash. *)
Theorem chain_tamper_evident d d' :
  (∀ x, sha256_hex (sha256 x) = true) →
  verify_rows d "GENESIS" (events d) = Ok tt → verify_rows d' "GENESIS" (events d') = Ok tt →
  head_hash d = head_hash d' →
  Forall2 same_event (events d) (events d') ∨ (∃ x y, x ≠ y ∧ sha256 x = sha256 y).
Proof.
  intros Hhex Hv Hv' Hh. rewrite !head_hash_last in Hh. by eapply tamper_evident.
Qed.

(** A core event is recorded only under live authority.  When an event of
    a goal, run or task is appended, the appending handler holds a core
    binding of a live object and supports the event; the actor is an enabled
    principal with an unrevoked session of the current credential version
    whose secret was presented and whose validity interval contains the
    moment of the check; and the actor holds a role that the event admits,
    which the event records. *)
Theorem core_event_authorised a w e w' :
  append_event a w = (Ok e, w') → is_core (ea_aggregate_type a) = true →
  ∃ b v allowed r s p,
    live_authority (w_domain w) (ea_command_authority a) = Some b ∧ b_kind b = K_core ∧
    _handler_supports_event (b_handler b) (ev_aggregate_type e) (ev_event_type e) = true ∧
    ea_auth_session a = Some v ∧
    _core_roles (ev_aggregate_type e) (ev_event_type e) (ea_payload a) (b_handler b) = Ok allowed ∧
    live_role (w_db w) (vp_session_id v) (ev_actor e) (clock (w_ticks w) / 1000 * 1000) allowed r s p ∧
    sha256 (vp_session_secret v) = s_token_hash s ∧
    ev_auth_context e = JObj (ea_auth_context a ++ core_metadata (b_handler b) r (vp_session_id v)).
Proof.
  intros Ha Hcore. destruct (append_event_ok _ _ _ _ Ha) as (auth & wa & Hauth & Hap & _).
  destruct Hap. unfold authorize_event in Hauth. rewrite Hcore in Hauth.
  apply bind_ok in Hauth as ([[h r] sid] & w1 & Hc & Hauth). rinv.
  apply authorize_core_ok in Hc as (-> & b & v & allowed & s & p & Hb & Hk & <- & Hsup & Hv & -> & Hroles & Hl & Hsecret).
  rewrite ap_type0, ap_event0, ap_actor0.
  exists b, v, allowed, r, s, p. split_and!; done.
Qed.
End log.

(** ** Idempotency records *)
Section idempotency.
Context `{ENV : Env}.

(** An idempotency record is written once and answers every retry.  After
    [save_idempotent_result], looking the key up with the same payload digest
    returns the saved result, with any other digest raises [IntegrityError],
    and saving under the same key again is refused. *)
Theorem idempotent_record project scope key digest result event_id w u w' :
  save_idempotent_result project scope key digest result event_id w = (Ok u, w') →
  get_idempotent_result project scope key digest w' = (Ok (Some (JObj result)), w') ∧
  (∀ digest', digest' ≠ digest →
     get_idempotent_result project scope key digest' w' = (Raise IntegrityError, w')) ∧
  (∀ digest' result' event_id',
     (save_idempotent_result project scope key digest' result' event_id' w').1
     = Raise SqliteIntegrityError).
Proof.
  unfold save_idempotent_result, insert_idempotency. intros Hs. rinv. simpl.
  unfold get_idempotent_result, read, gets, mbind, M_bind. simpl.
  rewrite lookup_insert_eq. split_and!.
  - unfold ensure. simpl. by rewrite bool_decide_eq_true_2.
  - intros digest' Hne. unfold ensure. simpl. by rewrite bool_decide_eq_false_2.
  - intros. unfold save_idempotent_result, insert_idempotency, constraint, read, gets, mbind, M_bind,
      ensure, utc_now, absent. simpl. rewrite lookup_insert_eq. done.
Qed.
End idempotency.

(** ** The authority domain *)
Section domain.
Context `{ENV : Env}.

Record domain_inv (d : Domain) : Prop := {
  di_wf : domain_wf d;
  di_owner : ∀ k k' b b', d_authorities d !! k = Some b → d_authorities d !! k' = Some b' →
    b_owner b = b_owner b' → k = k';
  di_eval : ∀ k k' b b', d_authorities d !! k = Some b → d_authorities d !! k' = Some b' →
    b_kind b = K_protected → b_kind b' = K_protected →
    b_handler b = "evaluation_registry" → b_handler b' = "evaluation_registry" →
    b_owner b ∈ d_live d → b_owner b' ∈ d_live d → k = k';
  di_config : ∀ k b, d_authorities d !! k = Some b → b_kind b = K_protected →
    d_configs d !! b_handler b = Some (b_config_digest b) }.

Definition pruned (d : Domain) : Domain := Build_Domain
  (filter (λ kb, b_owner kb.2 ∈ d_live d) (d_authorities d)) (d_configs d) (d_types d) (d_live d).

Lemma pruned_lookup d k b :
  d_authorities (pruned d) !! k = Some b ↔ d_authorities d !! k = Some b ∧ b_owner b ∈ d_live d.
Proof. apply map_lookup_filter_Some. Qed.

Lemma pruned_inv d : domain_inv d → domain_inv (pruned d).
Proof.
  intros []. constructor.
  - intros k b [Hk _]%pruned_lookup. eauto.
  - intros k k' b b' [Hk _]%pruned_lookup [Hk' _]%pruned_lookup. eauto.
  - intros k k' b b' [Hk _]%pruned_lookup [Hk' _]%pruned_lookup. eauto.
  - intros k b [Hk _]%pruned_lookup. simpl. eauto.
Qed.

Lemma owner_bound_false o d k b :
  owner_bound o d = false → d_authorities d !! k = Some b → b_owner b ≠ o.
Proof. intros Ho Hk Hb. pose proof (proj1 (map_any_false _ _) Ho k b Hk) as Hf. cbn beta in Hf. by bsplit. Qed.

(** Adding a binding for a new owner, under a pinned configuration. *)
Lemma bind_inv d b configs types :
  domain_inv d → owner_bound (b_owner b) d = false →
  (∀ h g, d_configs d !! h = Some g → configs !! h = Some g) →
  (b_kind b = K_protected → all_hex64 (b_config_digest b) = true ∧ b_binding_id b ≠ "" ∧
     configs !! b_handler b = Some (b_config_digest b) ∧
     (b_handler b = "evaluation_registry" → ∀ k c, d_authorities d !! k = Some c →
        b_kind c = K_protected → b_handler c = "evaluation_registry" → b_owner c ∉ d_live d)) →
  domain_inv (Build_Domain (<[fresh (dom (d_authorities d)) := b]> (d_authorities d))
                configs types (d_live d)).
Proof.
  intros [] Ho Hconf Hb. pose proof (is_fresh (dom (d_authorities d))) as Hfresh.
  set (k0 := fresh (dom (d_authorities d))) in *.
  constructor; unfold domain_wf; simpl.
  - intros k c [[<- <-]|[_ Hk]]%lookup_insert_Some Hkind; [|eauto].
    by destruct (Hb Hkind) as (? & ? & _).
  - intros k k' c c' [[<- <-]|[_ Hk]]%lookup_insert_Some [[<- <-]|[_ Hk']]%lookup_insert_Some Hc;
      [done| | |eauto].
    + exfalso. by eapply (owner_bound_false _ _ k' c').
    + exfalso. by eapply (owner_bound_false _ _ k c).
  - intros k k' c c' [[<- <-]|[_ Hk]]%lookup_insert_Some [[<- <-]|[_ Hk']]%lookup_insert_Some
      Hc Hc' Hh Hh' Hl Hl'; [done| | |eauto].
    + exfalso. destruct (Hb Hc) as (_ & _ & _ & He). by eapply He.
    + exfalso. destruct (Hb Hc') as (_ & _ & _ & He). by eapply He.
  - intros k c [[<- <-]|[_ Hk]]%lookup_insert_Some Hkind; [|eauto].
    by destruct (Hb Hkind) as (_ & _ & ? & _).
Qed.

Lemma live_inserted d k b :
  d_authorities d !! k = Some b → b_owner b ∈ d_live d → live_authority d (Some k) = Some b.
Proof. intros Hk Hl. unfold live_authority. simpl. rewrite Hk. simpl. by rewrite bool_decide_eq_true_2. Qed.

Local Arguments live_authority : simpl never.

Ltac bind_run := rinv; repeat match goal with
  | H : _prune_dead_command_authorities _ = _ |- _ =>
    unfold _prune_dead_command_authorities in H; rinv
  | H : bind_authority _ _ = _ |- _ => unfold bind_authority in H; rinv
  end.

(** Command authorities are exclusive.  Binding keeps the domain
    invariant: an object holds at most one authority, one live evaluation
    registry exists per database, and every protected binding carries the
    pinned configuration digest of its handler; only an object of the exact
    trusted type is bound, and the token it gets is live and names its
    handler. *)
Theorem authority_binding_exclusive owner handler digest types w k w' :
  (∀ n, uuid4 n ≠ "") → domain_inv (w_domain w) → o_id owner ∈ d_live (w_domain w) →
  (_bind_core_command_authority owner handler w = (Ok k, w') →
    domain_inv (w_domain w') ∧
    (handler, o_type owner) ∈ [("runtime_kernel", "RuntimeKernel"); ("task_scheduler", "TaskScheduler")] ∧
    ∃ b, live_authority (w_domain w') (Some k) = Some b ∧ b_kind b = K_core ∧
         b_handler b = handler ∧ b_owner b = o_id owner) ∧
  (_bind_protected_command_authority owner handler digest types w = (Ok k, w') →
    domain_inv (w_domain w') ∧ d_configs (w_domain w') !! handler = Some digest ∧
    ∃ b, live_authority (w_domain w') (Some k) = Some b ∧ b_kind b = K_protected ∧
         b_handler b = handler ∧ b_owner b = o_id owner).
Proof.
  intros Huuid Hinv Hlive. split.
  - unfold _bind_core_command_authority. intros Hrun.
    apply bind_ok in Hrun as (ty & w0 & Hty & Hrun).
    assert (w0 = w ∧ (handler, ty) ∈ [("runtime_kernel", "RuntimeKernel"); ("task_scheduler", "TaskScheduler")])
      as [-> Hin] by (clear -Hty; repeat case_bool_decide; subst; rinv; split; (done || by repeat constructor)).
    clear Hty. bind_run. bsplit. subst ty. simpl. split_and!; [|done|].
    + eapply (bind_inv (pruned (w_domain w))); [by apply pruned_inv|done|done|done].
    + eexists. split; [by apply live_inserted; [apply lookup_insert_eq|]|done].
  - unfold _bind_protected_command_authority. intros Hrun.
    apply bind_ok in Hrun as (ty & w0 & Hty & Hrun).
    assert (w0 = w) as -> by (clear -Hty; repeat case_bool_decide; rinv; done).
    clear Hty. bind_run. bsplit. simpl in *. split_and!.
    + eapply (bind_inv (pruned (w_domain w))); [by apply pruned_inv|done| |].
      * intros h g Hh. simpl in Hh. destruct (decide (h = handler)) as [->|].
        -- rewrite lookup_insert_eq. rewrite Hh in *. simpl in *. congruence.
        -- by rewrite lookup_insert_ne.
      * intros _. simpl. rewrite lookup_insert_eq. split_and!; [done|apply Huuid|done|].
        intros -> k c [Hk _]%pruned_lookup Hkind Hh Hl.
        match goal with H : (_ && map_any _ _)%bool = false |- _ => rename H into Hany end.
        rewrite bool_decide_eq_true_2 in Hany by done. simpl in Hany.
        pose proof (proj1 (map_any_false _ _) Hany k c
          (proj2 (pruned_lookup _ _ _) (conj Hk Hl))) as Hf. simpl in Hf.
        rewrite !bool_decide_eq_true_2 in Hf by done. done.
    + by rewrite lookup_insert_eq.
    + eexists. split; [by apply live_inserted; [apply lookup_insert_eq|]|done].
Qed.
End domain.

(** ** A sample store

    One principal with every role and a session, and one live object of each
    trusted type; the witnesses of this and the following files start here. *)
Module Sample.
Import Toy.

Definition alice : Principal := {|
  p_id := "p-alice"; p_key := "alice"; p_display_name := "Alice"; p_salt := "salt";
  p_hash := pbkdf2 "correct horse battery" "salt" 600000; p_iterations := 600000;
  p_credential_version := 1; p_enabled := true; p_created_at := past; p_updated_at := past;
  p_disabled_at := None |}.
Definition alice_session (expires : Instant) : Session := {|
  s_id := "sess"; s_principal_id := "p-alice"; s_token_hash := sha256 "secret";
  s_credential_version := 1; s_issued_at := past; s_expires_at := expires;
  s_revoked_at := None |}.
Definition alice_vp : VerifiedPrincipal := {|
  vp_principal_id := "p-alice"; vp_display_name := "Alice"; vp_session_id := "sess";
  vp_session_secret := "secret"; vp_issued_at := past; vp_expires_at := future |}.

Definition goal_row : GoalRow := {|
  go_id := "g1"; go_project_id := "proj"; go_state := G_COMPILED; go_spec := sample_goal;
  go_version := 1; go_created_at := past; go_updated_at := past |}.
Definition run_row : RunRow := {|
  ru_id := "r1"; ru_goal_id := "g1"; ru_project_id := "proj"; ru_loop_state := L_RUNNING;
  ru_policy_version := "v1"; ru_version := 1; ru_created_at := past; ru_updated_at := past |}.
Definition task_row : TaskRow := {|
  t_id := "t1"; t_goal_id := "g1"; t_run_id := Some "r1"; t_project_id := "proj";
  t_state := T_READY; t_spec := sample_task; t_version := 0; t_attempt_count := 0;
  t_due_at := None; t_last_error := None; t_created_at := past; t_updated_at := past |}.

Definition db_with (expires : Instant) : DB := {|
  principals := {["p-alice" := alice]};
  principal_roles := list_to_map ((λ r, (("p-alice", r), past)) <$> role_all);
  sessions := {["sess" := alice_session expires]};
  events := []; idempotency := ∅;
  goals := {["g1" := goal_row]}; runs := {["r1" := run_row]}; tasks := {["t1" := task_row]};
  attempts := ∅; leases := ∅; negatives := ∅; registry := empty_registry |}.

Definition kernel : Obj := {| o_id := 1; o_type := "RuntimeKernel" |}.
Definition scheduler : Obj := {| o_id := 2; o_type := "TaskScheduler" |}.
Definition policy : Obj := {| o_id := 3; o_type := "PolicyEngine" |}.

Definition core_binding (o : nat) (h : string) : Binding := {|
  b_handler := h; b_owner := o; b_kind := K_core; b_binding_id := "b"; b_config_digest := "" |}.
Definition domain : Domain := {|
  d_authorities := {[0%nat := core_binding 1 "runtime_kernel"; 1%nat := core_binding 2 "task_scheduler"]};
  d_configs := ∅; d_types := ∅; d_live := {[1%nat; 2%nat; 3%nat]} |}.

Definition start : World := world (db_with future) domain.

Definition goal_created : EventArgs := {|
  ea_aggregate_type := "goal"; ea_aggregate_id := "g2"; ea_expected_version := 0;
  ea_project_id := "proj"; ea_event_type := "goal_created"; ea_actor := "p-alice";
  ea_command_id := "c1"; ea_correlation_id := "g2"; ea_policy_version := "v1";
  ea_payload := [("goal_id", JStr "g2")]; ea_auth_context := [];
  ea_auth_session := Some alice_vp; ea_command_authority := Some 0%nat;
  ea_command_owner := None; ea_run_id := None; ea_task_id := None;
  ea_idempotency_key := Some "k"; ea_causation_id := None; ea_confidentiality := "internal";
  ea_occurred_at := None |}.

Lemma domain_bindings k b :
  d_authorities domain !! k = Some b → b_kind b = K_core ∧ b_owner b = S k.
Proof.
  unfold domain. cbn [d_authorities]. rewrite lookup_insert_Some, lookup_singleton_Some.
  by intros [[<- <-]|[_ [<- <-]]].
Qed.
Lemma domain_core k b : d_authorities domain !! k = Some b → b_kind b = K_core.
Proof. apply domain_bindings. Qed.

Lemma domain_ok : domain_inv domain.
Proof.
  assert (∀ k b, d_authorities domain !! k = Some b → b_owner b = S k) as Hown
    by apply domain_bindings.
  constructor.
  - intros k b Hk%domain_core Hb. congruence.
  - intros k k' b b' Hk%Hown Hk'%Hown Hb. lia.
  - intros k k' b b' Hk%domain_core Hk' Hb. congruence.
  - intros k b Hk%domain_core Hb. congruence.
Qed.

Lemma goal_created_runs : is_ok (append_event goal_created start).1 = true.
Proof. vm_compute. reflexivity. Qed.

Lemma append_extends_chain_witness :
  ∃ e w', append_event goal_created start = (Ok e, w') ∧ verify_event_chain w' = (Ok 1, w').
Proof.
  destruct (run_succeeds _ _ goal_created_runs) as (e & w' & Ha).
  exists e, w'. split; [exact Ha|].
  refine (proj1 (proj2 (append_extends_chain goal_created start e w' 0 start _ Ha _ _ _ _))).
  - apply verify_event_chain_ok. repeat split.
  - intros ty id. reflexivity.
  - apply domain_ok.
  - intros _ v s Hv Hs. injection Hv as <-. injection Hs as <-.
    pose proof (run_shows (append_event goal_created) start (λ e _, (julianday past <=? julianday (ev_occurred_at e))
      && (julianday (ev_occurred_at e) <? julianday future)) e w' ltac:(by_eval) Ha) as Ho.
    apply andb_prop in Ho as [Ho1%Z.leb_le Ho2%Z.ltb_lt]. split; [exact Ho1|exact Ho2].
  - intros Hp. vm_compute in Hp. discriminate Hp.
Defined.

Lemma core_event_authorised_witness :
  ∃ e w' r, append_event goal_created start = (Ok e, w') ∧
    is_Some (principal_roles (w_db start) !! (ev_actor e, r)).
Proof.
  destruct (run_succeeds _ _ goal_created_runs) as (e & w' & Ha).
  destruct (core_event_authorised goal_created start e w' Ha eq_refl)
    as (b & v & allowed & r & s & p & _ & _ & _ & _ & _ & Hl & _).
  exists e, w', r. split; [exact Ha|exact (lr_role _ _ _ _ _ _ _ _ Hl)].
Defined.

Lemma chain_tamper_evident_witness :
  ∃ d, length (events d) = 1%nat ∧
    (Forall2 same_event (events d) (events d) ∨ ∃ x y, x ≠ y ∧ sha256 x = sha256 y).
Proof.
  destruct (run_succeeds _ _ goal_created_runs) as (e & w' & Ha).
  pose proof (run_shows (append_event goal_created) start (λ _ w', is_ok (verify_rows (w_db w') "GENESIS" (events (w_db w')))
    && (length (events (w_db w')) =? 1)%nat) e w' ltac:(by_eval) Ha) as Hv.
  apply andb_prop in Hv as [Hv Hl%Nat.eqb_eq].
  exists (w_db w'). split; [exact Hl|].
  destruct (verify_rows (w_db w') "GENESIS" (events (w_db w'))) as [[]|] eqn:Hrows; [|discriminate Hv].
  exact (chain_tamper_evident (w_db w') (w_db w') sha_hex Hrows Hrows eq_refl).
Defined.

Lemma idempotent_record_witness :
  ∃ e w' w'', append_event goal_created start = (Ok e, w') ∧
    save_idempotent_result "proj" "kernel" "k" "digest" [("ok", JBool true)] (ev_id e) w' = (Ok tt, w'') ∧
    get_idempotent_result "proj" "kernel" "k" "digest" w''
    = (Ok (Some (JObj [("ok", JBool true)])), w'').
Proof.
  destruct (run_succeeds _ _ goal_created_runs) as (e & w' & Ha).
  destruct (run_succeeds (save_idempotent_result "proj" "kernel" "k" "digest" [("ok", JBool true)] (ev_id e)) w')
    as ([] & w'' & Hs).
  { exact (run_shows (append_event goal_created) start
      (λ e w', is_ok (save_idempotent_result "proj" "kernel" "k" "digest" [("ok", JBool true)] (ev_id e) w').1)
      e w' ltac:(by_eval) Ha). }
  exists e, w', w''. split; [exact Ha|]. split; [exact Hs|].
  exact (proj1 (idempotent_record _ _ _ _ _ _ _ _ _ Hs)).
Defined.

Lemma authority_binding_exclusive_witness :
  ∃ k w', _bind_protected_command_authority policy "policy_engine"
            (sha256 "cfg") ["PolicyEngine"] start = (Ok k, w') ∧ domain_inv (w_domain w').
Proof.
  destruct (run_succeeds (_bind_protected_command_authority policy "policy_engine" (sha256 "cfg")
    ["PolicyEngine"]) start ltac:(by_eval)) as (k & w' & Hb).
  exists k, w'. split; [exact Hb|].
  refine (proj1 (proj2 (authority_binding_exclusive policy "policy_engine" (sha256 "cfg")
    ["PolicyEngine"] start k w' _ domain_ok _) Hb)).
  - intros n. discriminate.
  - apply (bool_decide_unpack _). vm_compute. exact I.
Defined.

(** The session is checked at one reading of the clock and the event is
    stamped at the next; when the session expires in between, the append
    succeeds and the log can never be verified again. *)
Definition expiring : World := world (db_with (clock 0 + 1000)) domain.

Example expired_between_checks_breaks_chain :
  match append_event goal_created expiring with
  | (Ok _, w') => (verify_event_chain w').1
  | _ => Ok 0
  end = Raise IntegrityError.
Proof. vm_compute. reflexivity. Qed.
End Sample.
