(* ===== verification/Identity.v ===== *)
(** * Identities and sessions ([identity.py])

    Principals with credentials and roles, short-lived bearer sessions, and the
    operations of [IdentityManager].  A credential is the byte string that
    [_credential_bytes] makes of it; a role argument is its text. *)

From Stdlib Require Import Ascii.
From S2P Require Import Prelude PyStr Json Enums Contracts Db Store.

Local Open Scope string_scope.
Local Open Scope list_scope.
Local Open Scope Z_scope.

Definition PBKDF2_ITERATIONS : Z := 600000.
Definition DEFAULT_SESSION_TTL_SECONDS : Z := 300.
Definition MAX_SESSION_TTL_SECONDS : Z := 900.
Definition _MINIMUM_CREDENTIAL_BYTES : Z := 12.
Definition _MAXIMUM_CREDENTIAL_BYTES : Z := 4096.

Record PrincipalRecord := {
  pr_id : string; pr_display_name : string; pr_roles : list Role; pr_enabled : bool;
  pr_credential_version : Z }.

(** [len(text)]: the characters of a text are its bytes that do not continue a
    UTF-8 sequence. *)
Definition str_len (s : string) : Z :=
  Z.of_nat (length (List.filter (λ c, negb (in_range c 128 191)) (chars s))).
Definition byte_len (s : string) : Z := Z.of_nat (String.length s).

Section identity.
Context `{ENV : Env}.

(** ** Arguments *)
Definition _principal_name (v : string) : res (string * string) :=
  let normalized := nfkc (strip v) in
  _ ← require (negb (bool_decide (normalized = "")) && (str_len normalized <=? 128)) PyValueError;
  _ ← require (negb (has_control normalized)) PyValueError;
  Ok (casefold normalized, normalized).

Definition _credential_bytes (raw : string) (require_strength : bool) : res string :=
  let minimum := if require_strength then _MINIMUM_CREDENTIAL_BYTES else 1 in
  if (byte_len raw <? minimum) || (_MAXIMUM_CREDENTIAL_BYTES <? byte_len raw)
  then Raise (if require_strength then PyValueError else AuthorizationError)
  else Ok raw.

Definition _derive_credential (credential salt : string) (iterations : Z) : string :=
  pbkdf2 credential salt iterations.

Definition _role (v : string) : res Role := of_value v.

Definition _roles (values : list string) : res (list Role) :=
  rs ← mapR _role values;
  let normalized := fromkeys rs in
  _ ← require (negb (bool_decide (normalized = []))) PyValueError;
  Ok normalized.

Definition _session_ttl (v : Z) : res Z :=
  _ ← require ((0 <? v) && (v <=? MAX_SESSION_TTL_SECONDS)) PyValueError; Ok v.

(** ** Reading the tables *)
Definition _role_set (d : DB) (principal_id : string) : list Role :=
  List.filter (λ r, present (principal_roles d) (principal_id, r)) role_all.

Definition find_principal (d : DB) (principal_key : string) : option Principal :=
  head (select (λ p, bool_decide (p_key p = principal_key)) (principals d)).

Definition _principal_by_key (principal_key : string) : P Principal :=
  o ← read (λ d, find_principal d principal_key); expect o AuthorizationError.

Definition _principal_record (principal_id : string) : P PrincipalRecord :=
  d ← read id;
  p ← expect (principals d !! principal_id) AuthorizationError;
  mret {| pr_id := principal_id; pr_display_name := p_display_name p;
          pr_roles := _role_set d principal_id; pr_enabled := p_enabled p;
          pr_credential_version := p_credential_version p |}.

(** The rows of [principals JOIN principal_roles] with the owner role. *)
Definition enabled_owner (d : DB) (p : Principal) : bool :=
  p_enabled p && present (principal_roles d) (p_id p, R_OWNER).
Definition enabled_owners (d : DB) : gmap string Principal :=
  filter (λ kp, enabled_owner d kp.2 = true) (principals d).

Definition _assert_not_last_enabled_owner : P unit :=
  d ← read id; ensure (1 <? Z.of_nat (size (enabled_owners d))) AuthorizationError.

(** ** Sessions *)
Definition _issue_session (principal_id display_name : string) (credential_version ttl_seconds : Z)
    : P VerifiedPrincipal :=
  session_id ← new_uuid;
  session_secret ← new_token 32;
  issued ← utc_now;
  let expires := issued + ttl_seconds * 1000000 in
  _ ← insert_session {| s_id := session_id; s_principal_id := principal_id;
        s_token_hash := sha256 session_secret; s_credential_version := credential_version;
        s_issued_at := issued; s_expires_at := expires; s_revoked_at := None |};
  mret {| vp_principal_id := principal_id; vp_display_name := display_name;
          vp_session_id := session_id; vp_session_secret := session_secret;
          vp_issued_at := issued; vp_expires_at := expires |}.

(** The conjuncts of [valid] before the one that reads the clock. *)
Definition session_row (d : DB) (session : VerifiedPrincipal) : option (Session * Principal) :=
  s ← sessions d !! vp_session_id session;
  p ← principals d !! s_principal_id s;
  if bool_decide (sha256 (vp_session_secret session) = s_token_hash s)
     && bool_decide (s_revoked_at s = None) && p_enabled p
     && (s_credential_version s =? p_credential_version p)
  then Some (s, p) else None.

Definition _verify_session (session : VerifiedPrincipal) (required_role : option Role)
    : P PrincipalRecord :=
  d ← read id;
  sp ← expect (session_row d session) AuthorizationError;
  let '(s, p) := sp in
  now ← utc_now;
  _ ← ensure ((now <? s_expires_at s)
        && bool_decide (s_principal_id s = vp_principal_id session)
        && bool_decide (p_display_name p = vp_display_name session)) AuthorizationError;
  let principal_id := s_principal_id s in
  let roles := _role_set d principal_id in
  _ ← ensure (match required_role with Some r => memb r roles | None => true end)
        AuthorizationError;
  _ ← ensure (negb (bool_decide (roles = []))) AuthorizationError;
  mret {| pr_id := principal_id; pr_display_name := p_display_name p; pr_roles := roles;
          pr_enabled := true; pr_credential_version := p_credential_version p |}.

Definition verify (session : VerifiedPrincipal) : P PrincipalRecord :=
  transaction (_verify_session session None).

Definition require_role (session : VerifiedPrincipal) (required_role : Role) : P PrincipalRecord :=
  transaction (_verify_session session (Some required_role)).

(** Inside the transaction of the caller. *)
Definition verify_in_transaction (session : VerifiedPrincipal) : P PrincipalRecord :=
  _verify_session session None.
Definition require_role_in_transaction (session : VerifiedPrincipal) (required_role : Role)
    : P PrincipalRecord := _verify_session session (Some required_role).

(** ** Operations *)
Definition new_principal (id key name salt digest : string) (now : Instant) : Principal := {|
  p_id := id; p_key := key; p_display_name := name; p_salt := salt; p_hash := digest;
  p_iterations := PBKDF2_ITERATIONS; p_credential_version := 1; p_enabled := true;
  p_created_at := now; p_updated_at := now; p_disabled_at := None |}.

Definition bootstrap_owner (display_name credential : string) (session_ttl_seconds : Z)
    : P VerifiedPrincipal :=
  kn ← lift_res (_principal_name display_name);
  credential_bytes ← lift_res (_credential_bytes credential true);
  ttl ← lift_res (_session_ttl session_ttl_seconds);
  salt ← new_token 16;
  let digest := _derive_credential credential_bytes salt PBKDF2_ITERATIONS in
  now ← utc_now;
  principal_id ← new_uuid;
  transaction (
    d ← read id;
    _ ← ensure (bool_decide (size (principals d) = 0%nat)) AuthorizationError;
    _ ← insert_principal (new_principal principal_id kn.1 kn.2 salt digest now);
    _ ← insert_role principal_id R_OWNER now;
    _issue_session principal_id kn.2 1 ttl).

Definition _DUMMY_SALT : string := of_chars (chr <$>
  [130; 74; 48; 23; 146; 132; 111; 130; 136; 202; 227; 56; 218; 113; 124; 205]).
Definition _DUMMY_HASH : string := of_chars (replicate 32 Ascii.zero).

Definition authenticate (display_name credential : string) (session_ttl_seconds : Z)
    : P VerifiedPrincipal :=
  kn ← lift_res (_principal_name display_name);
  credential_bytes ← lift_res (_credential_bytes credential false);
  ttl ← lift_res (_session_ttl session_ttl_seconds);
  transaction (
    row ← read (λ d, find_principal d kn.1);
    let '(salt, iterations, expected) := match row with
      | Some p => (p_salt p, p_iterations p, p_hash p)
      | None => (_DUMMY_SALT, PBKDF2_ITERATIONS, _DUMMY_HASH) end in
    let candidate := _derive_credential credential_bytes salt iterations in
    let valid_credential := bool_decide (candidate = expected) in
    p ← expect row AuthorizationError;
    _ ← ensure (valid_credential && p_enabled p) AuthorizationError;
    _issue_session (p_id p) (p_display_name p) (p_credential_version p) ttl).

(** [except sqlite3.IntegrityError: raise ValueError] *)
Definition integrity_as_value {A} (m : P A) : P A := λ w,
  match m w with
  | (Raise SqliteIntegrityError, w') => (Raise PyValueError, w')
  | r => r
  end.

(** [executemany("INSERT INTO principal_roles ...")] over the sorted roles. *)
Definition insert_roles (principal_id : string) (roles : list Role) (now : Instant) : P unit :=
  forM (sort_by role_value roles) (λ r, insert_role principal_id r now).

Definition create_principal (owner_session : VerifiedPrincipal) (display_name credential : string)
    (roles : list string) : P PrincipalRecord :=
  kn ← lift_res (_principal_name display_name);
  credential_bytes ← lift_res (_credential_bytes credential true);
  normalized_roles ← lift_res (_roles roles);
  salt ← new_token 16;
  let digest := _derive_credential credential_bytes salt PBKDF2_ITERATIONS in
  now ← utc_now;
  principal_id ← new_uuid;
  transaction (
    _ ← _verify_session owner_session (Some R_OWNER);
    _ ← integrity_as_value (insert_principal (new_principal principal_id kn.1 kn.2 salt digest now));
    _ ← insert_roles principal_id normalized_roles now;
    _principal_record principal_id).

Definition touch_principal (f : Principal → Principal) (principal_id : string) : P unit :=
  write (set_principals (alter f principal_id)).

Definition delete_roles (principal_id : string) : P unit :=
  write (set_roles (filter (λ kv, kv.1.1 ≠ principal_id))).

(** [UPDATE authenticated_sessions SET revoked_at = now
    WHERE principal_id = ? AND revoked_at IS NULL] *)
Definition revoke (now : Instant) (s : Session) : Session := {|
  s_id := s_id s; s_principal_id := s_principal_id s; s_token_hash := s_token_hash s;
  s_credential_version := s_credential_version s; s_issued_at := s_issued_at s;
  s_expires_at := s_expires_at s; s_revoked_at := Some now |}.
Definition revoke_sessions (principal_id : string) (now : Instant) : P unit :=
  write (set_sessions (update_where
    (λ s, bool_decide (s_principal_id s = principal_id) && bool_decide (s_revoked_at s = None))
    (revoke now))).

Definition with_updated (now : Instant) (p : Principal) : Principal := {|
  p_id := p_id p; p_key := p_key p; p_display_name := p_display_name p; p_salt := p_salt p;
  p_hash := p_hash p; p_iterations := p_iterations p;
  p_credential_version := p_credential_version p; p_enabled := p_enabled p;
  p_created_at := p_created_at p; p_updated_at := now; p_disabled_at := p_disabled_at p |}.
Definition with_enabled (b : bool) (now : Instant) (p : Principal) : Principal := {|
  p_id := p_id p; p_key := p_key p; p_display_name := p_display_name p; p_salt := p_salt p;
  p_hash := p_hash p; p_iterations := p_iterations p;
  p_credential_version := p_credential_version p; p_enabled := b;
  p_created_at := p_created_at p; p_updated_at := now;
  p_disabled_at := if b then None else Some now |}.
Definition with_credential (salt digest : string) (version : Z) (now : Instant) (p : Principal)
    : Principal := {|
  p_id := p_id p; p_key := p_key p; p_display_name := p_display_name p; p_salt := salt;
  p_hash := digest; p_iterations := PBKDF2_ITERATIONS; p_credential_version := version;
  p_enabled := p_enabled p; p_created_at := p_created_at p; p_updated_at := now;
  p_disabled_at := p_disabled_at p |}.

Definition set_principal_roles (owner_session : VerifiedPrincipal) (display_name : string)
    (roles : list string) : P PrincipalRecord :=
  kn ← lift_res (_principal_name display_name);
  normalized_roles ← lift_res (_roles roles);
  transaction (
    _ ← _verify_session owner_session (Some R_OWNER);
    target ← _principal_by_key kn.1;
    current_roles ← read (λ d, _role_set d (p_id target));
    _ ← (if p_enabled target && memb R_OWNER current_roles && negb (memb R_OWNER normalized_roles)
         then _assert_not_last_enabled_owner else mret tt);
    now ← utc_now;
    _ ← delete_roles (p_id target);
    _ ← insert_roles (p_id target) normalized_roles now;
    _ ← touch_principal (with_updated now) (p_id target);
    _principal_record (p_id target)).

Definition disable_principal (owner_session : VerifiedPrincipal) (display_name : string)
    : P PrincipalRecord :=
  kn ← lift_res (_principal_name display_name);
  transaction (
    _ ← _verify_session owner_session (Some R_OWNER);
    target ← _principal_by_key kn.1;
    roles ← read (λ d, _role_set d (p_id target));
    _ ← (if p_enabled target && memb R_OWNER roles
         then _assert_not_last_enabled_owner else mret tt);
    now ← utc_now;
    _ ← touch_principal (with_enabled false now) (p_id target);
    _ ← revoke_sessions (p_id target) now;
    _principal_record (p_id target)).

Definition enable_principal (owner_session : VerifiedPrincipal) (display_name : string)
    : P PrincipalRecord :=
  kn ← lift_res (_principal_name display_name);
  transaction (
    _ ← _verify_session owner_session (Some R_OWNER);
    target ← _principal_by_key kn.1;
    now ← utc_now;
    _ ← touch_principal (with_enabled true now) (p_id target);
    _principal_record (p_id target)).

Definition rotate_credential (session : VerifiedPrincipal)
    (current_credential new_credential : string) (session_ttl_seconds : Z) : P VerifiedPrincipal :=
  current_bytes ← lift_res (_credential_bytes current_credential false);
  new_bytes ← lift_res (_credential_bytes new_credential true);
  ttl ← lift_res (_session_ttl session_ttl_seconds);
  new_salt ← new_token 16;
  let new_digest := _derive_credential new_bytes new_salt PBKDF2_ITERATIONS in
  transaction (
    principal ← _verify_session session None;
    row ← read (λ d, principals d !! pr_id principal);
    row ← expect row PyTypeError;
    let current_digest := _derive_credential current_bytes (p_salt row) (p_iterations row) in
    _ ← ensure (bool_decide (current_digest = p_hash row)) AuthorizationError;
    now ← utc_now;
    let next_version := p_credential_version row + 1 in
    _ ← touch_principal (λ p, if p_enabled p
          then with_credential new_salt new_digest next_version now p else p) (pr_id principal);
    _ ← revoke_sessions (pr_id principal) now;
    _issue_session (pr_id principal) (pr_display_name principal) next_version ttl).

Definition revoke_session (session : VerifiedPrincipal) : P unit :=
  transaction (
    _ ← _verify_session session None;
    now ← utc_now;
    write (set_sessions (alter (revoke now) (vp_session_id session)))).
End identity.

(** ** Invariants *)

(** The operations of the manager as data, for statements about any sequence
    of calls, whichever of them fail. *)
Inductive IdentityOp :=
  | OpBootstrap (display_name credential : string) (ttl : Z)
  | OpAuthenticate (display_name credential : string) (ttl : Z)
  | OpVerify (session : VerifiedPrincipal)
  | OpRequireRole (session : VerifiedPrincipal) (role : Role)
  | OpCreate (owner : VerifiedPrincipal) (display_name credential : string) (roles : list string)
  | OpSetRoles (owner : VerifiedPrincipal) (display_name : string) (roles : list string)
  | OpDisable (owner : VerifiedPrincipal) (display_name : string)
  | OpEnable (owner : VerifiedPrincipal) (display_name : string)
  | OpRotate (session : VerifiedPrincipal) (current_credential new_credential : string) (ttl : Z)
  | OpRevoke (session : VerifiedPrincipal).

Section invariants.
Context `{ENV : Env}.

Definition ignore {A} (m : P A) : P unit := _ ← m; mret tt.

Definition run_op (op : IdentityOp) : P unit :=
  match op with
  | OpBootstrap n c t => ignore (bootstrap_owner n c t)
  | OpAuthenticate n c t => ignore (authenticate n c t)
  | OpVerify s => ignore (verify s)
  | OpRequireRole s r => ignore (require_role s r)
  | OpCreate o n c rs => ignore (create_principal o n c rs)
  | OpSetRoles o n rs => ignore (set_principal_roles o n rs)
  | OpDisable o n => ignore (disable_principal o n)
  | OpEnable o n => ignore (enable_principal o n)
  | OpRotate s c n t => ignore (rotate_credential s c n t)
  | OpRevoke s => revoke_session s
  end.

(** The world after a sequence of calls, each of which may raise. *)
Fixpoint run_ops (ops : list IdentityOp) (w : World) : World :=
  match ops with [] => w | op :: ops => run_ops ops (run_op op w).2 end.

(** A property that every write of the manager keeps is kept by every call. *)
Record kept_by_writes (I : DB → Prop) : Prop := {
  kw_principal : ∀ p, keeps I (insert_principal p);
  kw_role : ∀ i r t, keeps I (insert_role i r t);
  kw_session : ∀ s, keeps I (insert_session s);
  kw_touch : ∀ f i, (∀ p, p_id (f p) = p_id p) → keeps I (touch_principal f i);
  kw_delete : ∀ i, keeps I (delete_roles i);
  kw_revoke_all : ∀ i t, keeps I (revoke_sessions i t);
  kw_revoke : ∀ i t, keeps I (write (set_sessions (alter (revoke t) i))) }.

Lemma keeps_verify I vp r : keeps I (_verify_session vp r).
Proof. unfold _verify_session. keeps_walk. Qed.
Lemma keeps_by_key I k : keeps I (_principal_by_key k).
Proof. unfold _principal_by_key. keeps_walk. Qed.
Lemma keeps_record I i : keeps I (_principal_record i).
Proof. unfold _principal_record. keeps_walk. Qed.
Lemma keeps_last_owner I : keeps I _assert_not_last_enabled_owner.
Proof. unfold _assert_not_last_enabled_owner. keeps_walk. Qed.
Lemma keeps_as_value I {A} (m : P A) : keeps I m → keeps I (integrity_as_value m).
Proof.
  intros Hm w r w' Hrun Hi. unfold integrity_as_value in Hrun.
  destruct (m w) as [r1 w1] eqn:Hmw. assert (w' = w1) as -> by (destruct r1 as [|[]]; congruence).
  by eapply Hm.
Qed.
Lemma keeps_issue I i n v t : (∀ s, keeps I (insert_session s)) → keeps I (_issue_session i n v t).
Proof. intros Hs. unfold _issue_session. keeps_walk. Qed.

Lemma run_op_keeps I op : kept_by_writes I → keeps I (run_op op).
Proof.
  intros [Hp Hr Hs Ht Hd Ha Hv].
  assert (∀ i n v t, keeps I (_issue_session i n v t)) as Hi by (intros; by apply keeps_issue).
  destruct op; unfold run_op, ignore, bootstrap_owner, authenticate, verify, require_role,
    create_principal, set_principal_roles, disable_principal, enable_principal,
    rotate_credential, revoke_session, insert_roles;
    keeps_walk; eauto using keeps_verify, keeps_by_key, keeps_record, keeps_last_owner, keeps_as_value;
    apply Ht; intros p; by destruct (p_enabled p).
Qed.

Lemma run_ops_keeps I ops w :
  kept_by_writes I → I (w_db w) → I (w_db (run_ops ops w)).
Proof.
  intros HI. revert w. induction ops as [|op ops IH]; intros w Hw; [done|]. simpl. apply IH.
  destruct (run_op op w) as [r w'] eqn:Hrun. by eapply run_op_keeps.
Qed.

(** ** Revocation is permanent *)
Definition revoked (session_id : string) (d : DB) : Prop :=
  ∃ s, sessions d !! session_id = Some s ∧ s_revoked_at s ≠ None.

Lemma insert_keeps_revoked i d (s : Session) :
  absent (sessions d) (s_id s) = true → revoked i d → revoked i (set_sessions <[s_id s := s]> d).
Proof.
  intros Ha%absent_true (s0 & Hs & Hr). exists s0. split; [|done]. simpl.
  rewrite lookup_insert_ne; [done|]. intros He. congruence.
Qed.

Lemma revoked_kept i : kept_by_writes (revoked i).
Proof.
  constructor; intros.
  - by apply keeps_constraint_write.
  - by apply keeps_constraint_write.
  - apply keeps_constraint_write. intros d Hc Hr. bsplit. by apply insert_keeps_revoked.
  - by apply keeps_write.
  - by apply keeps_write.
  - apply keeps_write. intros d (s & Hs & Hr). unfold revoked. simpl.
    rewrite lookup_update_where, Hs. simpl. case_match; eexists; split; done.
  - apply keeps_write. intros d (s & Hs & Hr). unfold revoked. simpl.
    destruct (decide (i = i0)) as [->|].
    + rewrite lookup_alter_eq, Hs. simpl. eexists. split; done.
    + rewrite lookup_alter_ne by done. eauto.
Qed.

Lemma session_row_revoked vp d : revoked (vp_session_id vp) d → session_row d vp = None.
Proof.
  intros (s & Hs & Hr). unfold session_row. rewrite Hs. simpl.
  destruct (principals d !! s_principal_id s); [|done]. simpl.
  rewrite (bool_decide_eq_false_2 (s_revoked_at s = None)) by done.
  by rewrite andb_false_r.
Qed.

Lemma verify_none vp r w :
  session_row (w_db w) vp = None → _verify_session vp r w = (Raise AuthorizationError, w).
Proof. intros Hn. unfold _verify_session, read, gets, mbind, M_bind. simpl. by rewrite Hn. Qed.

Lemma verify_ok vp r w rec w' :
  _verify_session vp r w = (Ok rec, w') →
  w' = Build_World (w_db w) (S (w_ticks w)) (w_drawn w) (w_domain w) ∧
  ∃ s p, session_row (w_db w) vp = Some (s, p) ∧ clock (w_ticks w) < s_expires_at s ∧
    s_principal_id s = vp_principal_id vp ∧ p_display_name p = vp_display_name vp ∧
    pr_id rec = vp_principal_id vp ∧ pr_roles rec = _role_set (w_db w) (vp_principal_id vp) ∧
    pr_display_name rec = p_display_name p ∧
    (∀ role, r = Some role → role ∈ pr_roles rec) ∧ pr_roles rec ≠ [].
Proof.
  unfold _verify_session. intros Hrun. apply bind_ok in Hrun as (d & w1 & Hd & Hrun). rinv.
  match goal with H : session_row _ _ = Some ?x |- _ => destruct x as [s p]; rename H into Hrow end.
  rinv.
  bsplit. split; [done|]. exists s, p. simpl. split_and!; try congruence.
  intros role ->. by apply memb_true.
Qed.

Lemma session_row_ok d vp s p :
  session_row d vp = Some (s, p) →
  sessions d !! vp_session_id vp = Some s ∧ principals d !! s_principal_id s = Some p ∧
  sha256 (vp_session_secret vp) = s_token_hash s ∧ s_revoked_at s = None ∧ p_enabled p = true ∧
  s_credential_version s = p_credential_version p.
Proof.
  unfold session_row. intros (s' & Hs & (p' & Hp & Hc)%bind_Some)%bind_Some.
  destruct (_ && _) eqn:Hb; [|done]. injection Hc as -> ->. bsplit. done.
Qed.

(** ** An enabled owner always remains *)
Definition keyed (d : DB) : Prop := ∀ k p, principals d !! k = Some p → p_id p = k.
Definition is_owner (d : DB) (k : string) : Prop :=
  ∃ p, principals d !! k = Some p ∧ p_enabled p = true ∧ is_Some (principal_roles d !! (k, R_OWNER)).
Definition owner_inv (d : DB) : Prop := keyed d ∧ ∃ k, is_owner d k.

Lemma enabled_owners_lookup d k p :
  keyed d → enabled_owners d !! k = Some p ↔
  principals d !! k = Some p ∧ p_enabled p = true ∧ is_Some (principal_roles d !! (k, R_OWNER)).
Proof.
  intros Hk. unfold enabled_owners, enabled_owner. rewrite map_lookup_filter_Some. simpl.
  rewrite andb_true_iff, present_true. split.
  - intros (Hp & He & Hr). rewrite (Hk k p Hp) in Hr. done.
  - intros (Hp & He & Hr). by rewrite (Hk k p Hp).
Qed.

Lemma other_key `{Countable K} {A} (m : gmap K A) k :
  (1 < size m)%nat → ∃ k' x, k' ≠ k ∧ m !! k' = Some x.
Proof.
  intros Hs. destruct (decide (delete k m = ∅)) as [He|Hne].
  - exfalso. destruct (m !! k) as [y|] eqn:Hk.
    + pose proof (map_size_delete_Some k m ltac:(eauto)) as Hd. rewrite He, map_size_empty in Hd. lia.
    + rewrite delete_id in He by done. subst. rewrite map_size_empty in Hs. lia.
  - apply map_choose in Hne as (k' & x & Hx). apply lookup_delete_Some in Hx as [? ?]. eauto.
Qed.

Lemma other_owner d k :
  keyed d → 1 < Z.of_nat (size (enabled_owners d)) → ∃ k', k' ≠ k ∧ is_owner d k'.
Proof.
  intros Hk Hs. destruct (other_key (enabled_owners d) k) as (k' & p & Hne & Hp); [lia|].
  apply enabled_owners_lookup in Hp as (? & ? & ?); [|done]. exists k'. split; [done|]. by exists p.
Qed.

Lemma insert_role_ok i r t u w w' :
  insert_role i r t w = (Ok u, w') →
  present (principals (w_db w)) i = true ∧ w' = set_db (set_roles <[(i, r) := t]>) w.
Proof. unfold insert_role. intros Hrun. rinv. by bsplit. Qed.

Lemma insert_roles_ok i rs t u w w' :
  insert_roles i rs t w = (Ok u, w') →
  principals (w_db w') = principals (w_db w) ∧
  ∀ k r, is_Some (principal_roles (w_db w') !! (k, r)) ↔
         is_Some (principal_roles (w_db w) !! (k, r)) ∨ k = i ∧ r ∈ rs.
Proof.
  unfold insert_roles. intros Hrun.
  assert (∀ l, forM l (λ r, insert_role i r t) w = (Ok u, w') →
    principals (w_db w') = principals (w_db w) ∧
    ∀ k r, is_Some (principal_roles (w_db w') !! (k, r)) ↔
           is_Some (principal_roles (w_db w) !! (k, r)) ∨ k = i ∧ r ∈ l) as Hl.
  { clear Hrun. intros l. revert w. induction l as [|r0 l IH]; intros w Hrun; simpl in Hrun.
    - rinv. split; [done|]. intros. set_solver.
    - apply bind_ok in Hrun as ([] & w1 & H1 & Hrun). apply insert_role_ok in H1 as [_ ->].
      destruct (IH _ Hrun) as [Hp Hr]. split; [by rewrite Hp|].
      intros k r. rewrite Hr. simpl. destruct (decide ((i, r0) = (k, r))) as [[= -> ->]|Hne].
      + rewrite lookup_insert_eq. split; [intros _; right; split; [done|by constructor]|].
        intros _. left. by eexists.
      + rewrite lookup_insert_ne by done. rewrite elem_of_cons.
        split; intros [?|[-> ?]]; auto. destruct_or?; subst; auto. congruence. }
  destruct (Hl _ Hrun) as [Hp Hr]. split; [done|]. intros k r. by rewrite Hr, elem_of_sort_by.
Qed.

Lemma find_principal_ok d key p :
  find_principal d key = Some p → ∃ k, principals d !! k = Some p ∧ p_key p = key.
Proof.
  unfold find_principal. intros Hh%head_elem. apply elem_of_select in Hh as [[k Hk] Hf].
  apply bool_decide_eq_true in Hf. eauto.
Qed.

Lemma role_set_elem d i r : r ∈ _role_set d i ↔ is_Some (principal_roles d !! (i, r)).
Proof.
  unfold _role_set. rewrite list_elem_of_In, filter_In, <- list_elem_of_In, present_true.
  split; [by intros []|]. intros Hr. split; [|done]. destruct r; by apply (bool_decide_unpack _).
Qed.

Lemma by_key_ok key p w w' :
  _principal_by_key key w = (Ok p, w') → w' = w ∧ find_principal (w_db w) key = Some p.
Proof. unfold _principal_by_key. intros Hrun. rinv. done. Qed.

Lemma record_ok i rec w w' : _principal_record i w = (Ok rec, w') → w' = w ∧ pr_id rec = i.
Proof. unfold _principal_record. intros Hrun. by rinv. Qed.

Lemma last_owner_check (b : bool) u w w' :
  ((if b then _assert_not_last_enabled_owner else mret tt) : P unit) w = (Ok u, w') →
  w' = w ∧ (b = true → 1 < Z.of_nat (size (enabled_owners (w_db w)))).
Proof.
  destruct b; intros Hrun; [unfold _assert_not_last_enabled_owner in Hrun|]; rinv; [|done].
  by bsplit.
Qed.

(** Invert the calls of the manager's helpers. *)
Ltac idinv := rinv; repeat match goal with
  | H : _verify_session _ _ _ = (Ok _, _) |- _ => apply verify_ok in H as [-> H]
  | H : _principal_by_key _ _ = (Ok _, _) |- _ => apply by_key_ok in H as [-> H]
  | H : _principal_record _ _ = (Ok _, _) |- _ => apply record_ok in H as [-> H]
  | H : (if _ then _assert_not_last_enabled_owner else _) _ = (Ok _, _) |- _ =>
    apply last_owner_check in H as [-> H]
  | H : touch_principal _ _ _ = (Ok _, _) |- _ => unfold touch_principal in H; rinv
  | H : delete_roles _ _ = (Ok _, _) |- _ => unfold delete_roles in H; rinv
  | H : revoke_sessions _ _ _ = (Ok _, _) |- _ => unfold revoke_sessions in H; rinv
  end.

Lemma keyed_alter f k d :
  (∀ p, p_id (f p) = p_id p) → keyed d → keyed (set_principals (alter f k) d).
Proof.
  intros Hf Hk k' p Hp. simpl in Hp. apply lookup_alter_Some in Hp as [(-> & q & Hq & ->)|[_ Hp]].
  - rewrite Hf. by apply Hk.
  - by apply Hk.
Qed.

(** An owner other than the target, unless the target stays one. *)
Lemma other_or_target d t k stays :
  keyed d → is_owner d k →
  (p_enabled t && memb R_OWNER (_role_set d (p_id t)) && negb stays = true →
     1 < Z.of_nat (size (enabled_owners d))) →
  principals d !! p_id t = Some t → ∃ k', is_owner d k' ∧ (k' = p_id t → stays = true).
Proof.
  intros Hk Ho Hlast Ht. destruct (decide (k = p_id t)) as [->|]; [|by exists k].
  destruct stays; [by exists (p_id t)|].
  destruct (other_owner d (p_id t)) as (k' & Hne & Ho'); [done| |by exists k'].
  apply Hlast. destruct Ho as (p & Hp & He & Hr).
  assert (p = t) as -> by congruence. rewrite He, andb_true_r. simpl.
  by apply memb_true, role_set_elem.
Qed.

(** The principal that a name selects is stored under its identifier. *)
Ltac target t Ht Hk := match goal with
  | H : find_principal _ _ = Some ?x |- _ =>
    let kt := fresh in
    apply find_principal_ok in H as (kt & Ht & _); pose proof (Hk _ _ Ht) as <-; rename x into t
  end.

Lemma disable_owner_inv vp name rec w w' :
  disable_principal vp name w = (Ok rec, w') → owner_inv (w_db w) → owner_inv (w_db w').
Proof.
  unfold disable_principal. intros Hrun [Hk [k Ho]]. idinv. simpl in *. target t Ht Hk.
  destruct (other_or_target _ t k false Hk Ho) as (k' & (p & Hp & He & Hr) & Hne);
    [by rewrite andb_true_r|done|].
  split; [by apply (keyed_alter (with_enabled _ _))|].
  exists k', p. simpl. rewrite lookup_alter_ne; [done|]. intros He'. by discriminate Hne.
Qed.

Lemma set_roles_owner_inv vp name roles rec w w' :
  set_principal_roles vp name roles w = (Ok rec, w') → owner_inv (w_db w) → owner_inv (w_db w').
Proof.
  unfold set_principal_roles. intros Hrun [Hk [k Ho]]. idinv. simpl in *. target t Ht Hk.
  match goal with H : insert_roles _ ?l _ _ = _ |- _ =>
    rename l into rs; apply insert_roles_ok in H as [Hps Hrs] end.
  match type of Hps with principals (w_db ?x) = _ => rename x into w1 end.
  destruct (other_or_target _ t k (memb R_OWNER rs) Hk Ho) as (k' & (p & Hp & He & Hr) & Hin);
    [done..|]. simpl in *.
  assert (is_Some (principal_roles (w_db w1) !! (k', R_OWNER))) as Hown.
  { apply Hrs. destruct (decide (k' = p_id t)) as [->|Hne].
    - right. split; [done|]. by apply memb_true, Hin.
    - left. destruct Hr as [at_ Hat]. exists at_. by apply map_lookup_filter_Some. }
  split.
  - apply (keyed_alter (with_updated _)); [done|]. intros k0 p0. rewrite Hps. apply Hk.
  - unfold is_owner. simpl. rewrite Hps. destruct (decide (k' = p_id t)) as [->|Hne].
    + exists (p_id t), (with_updated (clock (S (w_ticks w))) p).
      by rewrite lookup_alter_eq, Hp.
    + exists k', p. by rewrite lookup_alter_ne.
Qed.

Lemma is_owner_mono d d' :
  (∀ k p, principals d !! k = Some p → p_enabled p = true →
     ∃ p', principals d' !! k = Some p' ∧ p_enabled p' = true) →
  (∀ kr, is_Some (principal_roles d !! kr) → is_Some (principal_roles d' !! kr)) →
  (∃ k, is_owner d k) → ∃ k, is_owner d' k.
Proof.
  intros Hp Hr (k & p & Hk & He & Ho). destruct (Hp k p Hk He) as (p' & ? & ?).
  exists k, p'. eauto.
Qed.

Lemma owner_insert_principal p : keeps owner_inv (insert_principal p).
Proof.
  apply keeps_constraint_write. intros d Hc [Hk Ho]. bsplit.
  match goal with H : absent _ _ = true |- _ => apply absent_true in H as Ha end. split.
  - intros k q Hq. simpl in Hq. apply lookup_insert_Some in Hq as [[<- <-]|[_ Hq]]; [done|by apply Hk].
  - revert Ho. apply is_owner_mono; [|done]. intros k q Hq He. simpl. exists q.
    rewrite lookup_insert_ne; [done|]. intros <-. congruence.
Qed.

Lemma owner_insert_role i r t : keeps owner_inv (insert_role i r t).
Proof.
  apply keeps_constraint_write. intros d _ [Hk Ho]. split; [done|]. revert Ho.
  apply is_owner_mono; [eauto|]. intros kr [v Hv]. simpl.
  destruct (decide ((i, r) = kr)) as [->|]; [rewrite lookup_insert_eq|rewrite lookup_insert_ne by done];
    eauto.
Qed.

Lemma owner_insert_session s : keeps owner_inv (insert_session s).
Proof. by apply keeps_constraint_write. Qed.
Lemma owner_revoke_sessions i t : keeps owner_inv (revoke_sessions i t).
Proof. by apply keeps_write. Qed.
Lemma owner_set_sessions f : keeps owner_inv (write (set_sessions f)).
Proof. by apply keeps_write. Qed.

Lemma owner_touch f i :
  (∀ p, p_id (f p) = p_id p ∧ (p_enabled p = true → p_enabled (f p) = true)) →
  keeps owner_inv (touch_principal f i).
Proof.
  intros Hf. apply keeps_write. intros d [Hk Ho]. split; [apply keyed_alter; [apply Hf|done]|].
  revert Ho. apply is_owner_mono; [|done]. intros k p Hp He. simpl.
  destruct (decide (i = k)) as [->|]; [rewrite lookup_alter_eq|rewrite lookup_alter_ne by done];
    rewrite Hp; simpl; eexists; split; try done. by apply Hf.
Qed.

(** Every call that raises leaves the tables as they were. *)
Lemma run_op_atomic op : atomic (run_op op).
Proof.
  destruct op; unfold run_op, ignore; try apply (atomic_then _ (λ _, tt));
    unfold bootstrap_owner, authenticate, verify, require_role, create_principal,
      set_principal_roles, disable_principal, enable_principal, rotate_credential, revoke_session;
    atomic_walk.
Qed.

Lemma run_op_owner_inv op : keeps owner_inv (run_op op).
Proof.
  pose proof owner_insert_principal. pose proof owner_insert_role. pose proof owner_insert_session.
  pose proof owner_set_sessions. pose proof owner_revoke_sessions.
  assert (∀ i n v t, keeps owner_inv (_issue_session i n v t)) by (intros; by apply keeps_issue).
  destruct op as [| | | | |owner name roles|owner name| | |];
    try (unfold run_op, ignore, bootstrap_owner, authenticate, verify, require_role,
    create_principal, enable_principal, rotate_credential, revoke_session, insert_roles; keeps_walk;
    eauto using keeps_verify, keeps_by_key, keeps_record, keeps_last_owner, keeps_as_value;
    apply owner_touch; intros p; destruct (p_enabled p) eqn:He; simpl; by rewrite ?He);
    apply keeps_of_atomic; try apply run_op_atomic; intros w u w' Hrun Hi;
    apply bind_ok in Hrun as (rec & w1 & Hrun & [-> ->]%mret_ok).
  - by eapply set_roles_owner_inv.
  - by eapply disable_owner_inv.
Qed.

(** Once a database has an enabled principal with the owner role, it has one
    after any sequence of calls to the identity manager, successful or not. *)
Theorem an_owner_remains ops w :
  owner_inv (w_db w) → ∃ k, is_owner (w_db (run_ops ops w)) k.
Proof.
  intros Hw. assert (owner_inv (w_db (run_ops ops w))) as [_ Ho]; [|done].
  revert w Hw. induction ops as [|op ops IH]; intros w Hw; [done|]. apply IH.
  destruct (run_op op w) as [r w'] eqn:Hrun. by eapply run_op_owner_inv.
Qed.

(** ** Lives and deaths of sessions *)
Lemma revoked_never_verifies i vp ops role w :
  vp_session_id vp = i → revoked i (w_db w) →
  (_verify_session vp role (run_ops ops w)).1 = Raise AuthorizationError.
Proof.
  intros <- Hr. rewrite verify_none; [done|].
  by apply session_row_revoked, run_ops_keeps; [apply revoked_kept|].
Qed.

Lemma revoked_by_all d i t k s :
  sessions d !! k = Some s → s_principal_id s = i →
  revoked k (set_sessions (update_where
    (λ s, bool_decide (s_principal_id s = i) && bool_decide (s_revoked_at s = None))
    (revoke t)) d).
Proof.
  intros Hs Hi. unfold revoked. simpl. rewrite lookup_update_where, Hs. simpl.
  rewrite (bool_decide_eq_true_2 (s_principal_id s = i)) by done. simpl.
  case_bool_decide; eexists; split; done.
Qed.

(** A session that [revoke_session] has closed never verifies again, for any
    role and after any later calls. *)
Theorem revoked_session_is_dead vp ops role w u w' :
  revoke_session vp w = (Ok u, w') →
  (_verify_session vp role (run_ops ops w')).1 = Raise AuthorizationError.
Proof.
  unfold revoke_session. intros Hrun. idinv. simpl.
  match goal with H : ∃ s p, _ |- _ => destruct H as (s & p & Hrow & _) end.
  apply session_row_ok in Hrow as (Hs & _).
  eapply revoked_never_verifies; [done|]. unfold revoked. simpl.
  rewrite lookup_alter_eq, Hs. simpl. eexists. split; done.
Qed.

(** Disabling a principal kills every session it has, for good: none of them
    verifies after any later calls, even when the principal is enabled again. *)
Theorem disabled_sessions_are_dead owner name rec vp s ops role w w' :
  disable_principal owner name w = (Ok rec, w') →
  sessions (w_db w) !! vp_session_id vp = Some s → s_principal_id s = pr_id rec →
  (_verify_session vp role (run_ops ops w')).1 = Raise AuthorizationError.
Proof.
  unfold disable_principal. intros Hrun Hs Hi.
  idinv. simpl.
  eapply revoked_never_verifies; [done|]. eapply revoked_by_all; [exact Hs|]. congruence.
Qed.

(** ** Issued sessions *)
Lemma issue_ok i n v t vp w w' :
  _issue_session i n v t w = (Ok vp, w') →
  vp_principal_id vp = i ∧ vp_display_name vp = n ∧
  vp_expires_at vp = vp_issued_at vp + t * 1000000 ∧
  sessions (w_db w) !! vp_session_id vp = None ∧ is_Some (principals (w_db w) !! i) ∧
  w_db w' = set_sessions <[vp_session_id vp :=
    {| s_id := vp_session_id vp; s_principal_id := i; s_token_hash := sha256 (vp_session_secret vp);
       s_credential_version := v; s_issued_at := vp_issued_at vp; s_expires_at := vp_expires_at vp;
       s_revoked_at := None |}]> (w_db w).
Proof.
  unfold _issue_session, insert_session. intros Hrun. rinv. bsplit. simpl in *.
  split_and!; try done; [by apply absent_true|by apply present_true].
Qed.

Lemma verify_succeeds vp s p w :
  session_row (w_db w) vp = Some (s, p) → clock (w_ticks w) < s_expires_at s →
  s_principal_id s = vp_principal_id vp → p_display_name p = vp_display_name vp →
  _role_set (w_db w) (vp_principal_id vp) ≠ [] →
  ∃ rec, _verify_session vp None w = (Ok rec, tick w) ∧ pr_id rec = vp_principal_id vp ∧
         pr_roles rec = _role_set (w_db w) (vp_principal_id vp).
Proof.
  intros Hrow Hc Hi Hn Hr. unfold _verify_session, mbind, M_bind, read, gets, expect, lift_res.
  simpl. rewrite Hrow. simpl. apply Z.ltb_lt in Hc. rewrite Hc, Hi, Hn, !bool_decide_eq_true_2 by done.
  simpl. rewrite bool_decide_eq_false_2 by done. simpl. eauto.
Qed.

(** The session that an operation has just issued verifies until it expires. *)
Lemma issued_verifies i n v t vp p w w' :
  _issue_session i n v t w = (Ok vp, w') →
  principals (w_db w) !! i = Some p → p_enabled p = true → p_credential_version p = v →
  p_display_name p = n →
  ∀ w2, w_db w2 = w_db w' → clock (w_ticks w2) < vp_expires_at vp → _role_set (w_db w) i ≠ [] →
  ∃ rec, _verify_session vp None w2 = (Ok rec, tick w2) ∧ pr_id rec = i.
Proof.
  intros Hrun Hp He Hv Hn w2 Hdb Hc Hr.
  apply issue_ok in Hrun as (Hi & Hname & _ & _ & _ & Hw').
  destruct (verify_succeeds vp {| s_id := vp_session_id vp; s_principal_id := i;
    s_token_hash := sha256 (vp_session_secret vp); s_credential_version := v;
    s_issued_at := vp_issued_at vp; s_expires_at := vp_expires_at vp; s_revoked_at := None |} p w2)
    as (rec & Hrec & Hid & _); rewrite ?Hdb, ?Hw'; simpl; try congruence; [|by rewrite Hi|eauto].
  - unfold session_row. simpl. rewrite lookup_insert_eq. simpl. rewrite Hp. simpl.
    rewrite !bool_decide_eq_true_2 by done. by rewrite He, Hv, Z.eqb_refl.
  - exists rec. split; [done|]. congruence.
Qed.

Definition ttl_ok (t : Z) : Prop := 0 < t ≤ MAX_SESSION_TTL_SECONDS.
Lemma session_ttl_ok v t : _session_ttl v = Ok t → t = v ∧ ttl_ok v.
Proof. unfold _session_ttl, ttl_ok. intros Hrun. rinv. bsplit. done. Qed.

Lemma credential_ok raw (b : bool) c :
  _credential_bytes raw b = Ok c → c = raw ∧ (b = true → 12 ≤ byte_len raw).
Proof.
  unfold _credential_bytes. destruct (_ || _) eqn:Hb; [done|]. intros [= <-].
  split; [done|]. intros ->. by bsplit.
Qed.

(** [authenticate] returns a session only for an enabled principal whose
    stored hash is the derivation of the presented credential.  The session
    lasts at most fifteen minutes and, as long as the tables stay as they are,
    verifies until it expires, provided that the principal has a role. *)
Theorem authenticate_sound name credential ttl vp w w' :
  authenticate name credential ttl w = (Ok vp, w') →
  ∃ kn k p, _principal_name name = Ok kn ∧ principals (w_db w) !! k = Some p ∧ p_key p = kn.1 ∧
    p_enabled p = true ∧ pbkdf2 credential (p_salt p) (p_iterations p) = p_hash p ∧
    vp_principal_id vp = p_id p ∧ vp_expires_at vp = vp_issued_at vp + ttl * 1000000 ∧ ttl_ok ttl ∧
    (k = p_id p → ∀ w2, w_db w2 = w_db w' → clock (w_ticks w2) < vp_expires_at vp →
      _role_set (w_db w) (p_id p) ≠ [] →
      ∃ rec, _verify_session vp None w2 = (Ok rec, tick w2) ∧ pr_id rec = p_id p).
Proof.
  unfold authenticate. intros Hrun. rinv.
  match goal with H : _credential_bytes _ _ = _ |- _ => apply credential_ok in H as [-> _] end.
  match goal with H : context [match find_principal ?d ?k with _ => _ end] |- _ =>
    destruct (find_principal d k) as [p|] eqn:Hp; [|by rinv; discriminate] end.
  rinv. bsplit.
  match goal with H : Some _ = Some _ |- _ => injection H as [= <-] end.
  match goal with H : _session_ttl _ = _ |- _ => apply session_ttl_ok in H as [-> Ht] end.
  apply find_principal_ok in Hp as (k & Hk & Hkey).
  match goal with H : _issue_session _ _ _ _ _ = _ |- _ => rename H into Hissue end.
  pose proof (issue_ok _ _ _ _ _ _ _ Hissue) as (Hi & Hn & Hx & _).
  eexists _, k, p. split_and!; try done.
  intros -> w2. by eapply issued_verifies.
Qed.

(** [rotate_credential] needs the current credential, replaces it by the new
    one, closes every session of the principal for good, and opens a new one
    that verifies until it expires. *)
Theorem rotation_replaces_credential old current new ttl vp w w' :
  rotate_credential old current new ttl w = (Ok vp, w') →
  ∃ p p', principals (w_db w) !! vp_principal_id old = Some p ∧ principals (w_db w') !! vp_principal_id old = Some p' ∧
    pbkdf2 current (p_salt p) (p_iterations p) = p_hash p ∧
    pbkdf2 new (p_salt p') (p_iterations p') = p_hash p' ∧
    p_credential_version p' = p_credential_version p + 1 ∧ 12 ≤ byte_len new ∧
    (∀ vp0 s ops role, sessions (w_db w) !! vp_session_id vp0 = Some s →
       s_principal_id s = vp_principal_id old →
       (_verify_session vp0 role (run_ops ops w')).1 = Raise AuthorizationError) ∧
    (∀ w2, w_db w2 = w_db w' → clock (w_ticks w2) < vp_expires_at vp →
       ∃ rec, _verify_session vp None w2 = (Ok rec, tick w2) ∧ pr_id rec = vp_principal_id old).
Proof.
  unfold rotate_credential. intros Hrun. idinv. simpl in *.
  repeat match goal with H : _credential_bytes _ _ = _ |- _ => apply credential_ok in H as [-> ?] end.
  match goal with H : ∃ s p, _ |- _ =>
    destruct H as (s & p & Hrow & _ & Hsi & Hpn & Hi & Hroles & Hn & _ & Hne) end.
  apply session_row_ok in Hrow as (Hs & Hp & _ & _ & He & _).
  rewrite Hi in *. rewrite Hsi in Hp. bsplit.
  match goal with H : principals _ !! _ = Some ?y |- _ => assert (y = p) as -> by congruence end.
  pose proof (issue_ok _ _ _ _ _ _ _ Hrun) as (_ & _ & _ & Hfresh & _ & Hw'). simpl in *.
  eexists p, _. split_and!; try done.
  - rewrite Hw'. simpl. by rewrite lookup_alter_eq, Hp.
  - by rewrite He.
  - by rewrite He.
  - auto.
  - intros vp0 s0 ops role Hs0 Hs0i. eapply revoked_never_verifies; [done|]. rewrite Hw'.
    apply insert_keeps_revoked; [by apply absent_true|]. by eapply revoked_by_all.
  - intros w2 Hw2 Hc. eapply issued_verifies; [exact Hrun|..]; simpl; [..|exact Hw2|exact Hc|].
    + by rewrite lookup_alter_eq, Hp.
    + by rewrite He.
    + by rewrite He.
    + by rewrite He, Hn.
    + by rewrite Hroles in Hne.
Qed.

(** ** Bootstrap *)
Definition some_principal (d : DB) : Prop := principals d ≠ ∅.

Lemma some_principal_kept : kept_by_writes some_principal.
Proof.
  constructor; intros; try (apply keeps_constraint_write; intros d _ Hd); try (apply keeps_write; intros d Hd);
    try exact Hd; unfold some_principal in *; simpl.
  - apply insert_non_empty.
  - intros Ha. apply Hd, map_eq. intros k. apply (f_equal (lookup k)) in Ha.
    rewrite lookup_alter, !lookup_empty in *.
    destruct (decide (i = k)) as [<-|]; [|done]. by apply fmap_None in Ha.
Qed.

Lemma empty_keyed d : principals d = ∅ → keyed d.
Proof. intros He k p. rewrite He. done. Qed.

(** [bootstrap_owner] works only on a database without principals; it leaves
    an enabled owner, and after it no bootstrap succeeds any more. *)
Theorem bootstrap_only_once name credential ttl vp ops n2 c2 t2 w w' :
  bootstrap_owner name credential ttl w = (Ok vp, w') →
  principals (w_db w) = ∅ ∧ owner_inv (w_db w') ∧ is_owner (w_db w') (vp_principal_id vp) ∧
  is_ok (bootstrap_owner n2 c2 t2 (run_ops ops w')).1 = false.
Proof.
  intros Hrun. assert (principals (w_db w) = ∅ ∧ keyed (w_db w') ∧
    is_owner (w_db w') (vp_principal_id vp)) as (He & Hk & Ho).
  { unfold bootstrap_owner, insert_principal in Hrun. rinv. bsplit. simpl in *.
    match goal with H : size _ = 0%nat |- _ => apply map_size_empty_inv in H; rename H into He end.
    match goal with H : insert_role _ _ _ _ = _ |- _ => apply insert_role_ok in H as [_ ->] end.
    match goal with H : _issue_session _ _ _ _ _ = _ |- _ =>
      apply issue_ok in H as (-> & _ & _ & _ & _ & ->) end.
    simpl. split_and!; [done| |].
    - intros k p Hp. simpl in Hp. rewrite He in Hp.
      apply lookup_insert_Some in Hp as [[<- <-]|[_ Hp]]; [done|]. by rewrite lookup_empty in Hp.
    - eexists. simpl. rewrite !lookup_insert_eq. eauto. }
  split_and!; [done|by split; [|eexists]|done|].
  assert (some_principal (w_db (run_ops ops w'))) as Hsome.
  { apply run_ops_keeps; [apply some_principal_kept|]. destruct Ho as (p & Hp & _).
    intros Hw'. by rewrite Hw' in Hp. }
  destruct (bootstrap_owner n2 c2 t2 (run_ops ops w')) as [[v|e] w2] eqn:Hb; [|done].
  unfold bootstrap_owner in Hb. rinv. bsplit. simpl in *.
  match goal with H : size _ = 0%nat |- _ => by apply map_size_empty_inv in H end.
Qed.

(** ** Administration *)
Definition admin_session (op : IdentityOp) : option VerifiedPrincipal :=
  match op with
  | OpCreate o _ _ _ | OpSetRoles o _ _ | OpDisable o _ | OpEnable o _ => Some o
  | _ => None
  end.

(** The session is live at some reading of the clock and its principal holds
    the role. *)
Definition live_as (d : DB) (vp : VerifiedPrincipal) (r : Role) : Prop :=
  ∃ s p n, sessions d !! vp_session_id vp = Some s ∧
    principals d !! vp_principal_id vp = Some p ∧ p_enabled p = true ∧
    sha256 (vp_session_secret vp) = s_token_hash s ∧ s_revoked_at s = None ∧
    s_credential_version s = p_credential_version p ∧ clock n < s_expires_at s ∧
    is_Some (principal_roles d !! (vp_principal_id vp, r)).

Lemma verify_live_as vp required r w rec w' :
  _verify_session vp required w = (Ok rec, w') → r ∈ pr_roles rec → live_as (w_db w) vp r.
Proof.
  intros (_ & s & p & Hrow & Hc & Hi & _ & _ & Hr & _)%verify_ok Hrole.
  apply session_row_ok in Hrow as (Hs & Hp & Hh & Hrev & He & Hv). rewrite Hi in Hp.
  exists s, p, (w_ticks w). split_and!; try done. rewrite Hr in Hrole. by apply role_set_elem.
Qed.

Lemma verify_live vp r w rec w' :
  _verify_session vp (Some r) w = (Ok rec, w') → live_as (w_db w) vp r.
Proof.
  intros Hrun. eapply verify_live_as; [exact Hrun|].
  apply verify_ok in Hrun as (_ & s & p & _ & _ & _ & _ & _ & _ & _ & Hrole & _). by apply Hrole.
Qed.

(** The calls that create principals, set roles, disable or enable change the
    tables only under a live session of an enabled principal with the owner
    role. *)
Theorem only_owners_administer op vp w :
  admin_session op = Some vp → w_db (run_op op w).2 ≠ w_db w → live_as (w_db w) vp R_OWNER.
Proof.
  intros Hop Hne. destruct (run_op op w) as [[u|e] w'] eqn:Hrun; simpl in Hne;
    [|by destruct Hne; eapply run_op_atomic].
  destruct op; simpl in Hop; try done; injection Hop as ->; simpl in Hrun;
    unfold ignore, create_principal, set_principal_roles, disable_principal, enable_principal in Hrun;
    rinv; match goal with H : _verify_session _ _ _ = _ |- _ => by apply verify_live in H end.
Qed.
End invariants.
#[export] Hint Extern 1 (keeps _ (_verify_session _ _)) => apply keeps_verify : keeps.
#[export] Hint Extern 1 (keeps _ (verify_in_transaction _)) => apply keeps_verify : keeps.
#[export] Hint Extern 1 (keeps _ (require_role_in_transaction _ _)) => apply keeps_verify : keeps.


(** ** Witnesses *)
Module Staff.
Import Toy Sample.

(** A second owner, with a session. *)
Definition bob : Principal := {|
  p_id := "p-bob"; p_key := "bob"; p_display_name := "Bob"; p_salt := "pepper";
  p_hash := pbkdf2 "another long secret" "pepper" 600000; p_iterations := 600000;
  p_credential_version := 1; p_enabled := true; p_created_at := past; p_updated_at := past;
  p_disabled_at := None |}.
Definition bob_session : Session := {|
  s_id := "sess-bob"; s_principal_id := "p-bob"; s_token_hash := sha256 "bob-secret";
  s_credential_version := 1; s_issued_at := past; s_expires_at := future; s_revoked_at := None |}.
Definition bob_vp : VerifiedPrincipal := {|
  vp_principal_id := "p-bob"; vp_display_name := "Bob"; vp_session_id := "sess-bob";
  vp_session_secret := "bob-secret"; vp_issued_at := past; vp_expires_at := future |}.
Definition two_owners : World := set_db (λ d,
  set_sessions <["sess-bob" := bob_session]> (set_roles <[("p-bob", R_OWNER) := past]>
    (set_principals <["p-bob" := bob]> d))) start.

Lemma start_owner : owner_inv (w_db start).
Proof.
  split.
  - intros k p. unfold start, world, db_with. cbn [w_db principals].
    rewrite lookup_singleton_Some. by intros [<- <-].
  - exists "p-alice", alice. split_and!; [reflexivity|reflexivity|]. apply (bool_decide_unpack _).
    vm_compute. exact I.
Qed.

Lemma an_owner_remains_witness :
  ∃ k, is_owner (w_db (run_ops [OpDisable alice_vp "Alice"; OpSetRoles alice_vp "Alice" ["worker"]] start)) k.
Proof. exact (an_owner_remains _ start start_owner). Defined.

Lemma revoked_session_is_dead_witness :
  ∃ w', revoke_session alice_vp start = (Ok tt, w') ∧
    (_verify_session alice_vp None
       (run_ops [OpAuthenticate "Alice" "correct horse battery" 300] w')).1 = Raise AuthorizationError.
Proof.
  destruct (run_succeeds (revoke_session alice_vp) start ltac:(by_eval)) as ([] & w' & Hr).
  exists w'. split; [exact Hr|]. exact (revoked_session_is_dead alice_vp _ None start tt w' Hr).
Defined.

Lemma disabled_sessions_are_dead_witness :
  ∃ rec w', disable_principal alice_vp "Bob" two_owners = (Ok rec, w') ∧
    (_verify_session bob_vp None (run_ops [OpEnable alice_vp "Bob"] w')).1 = Raise AuthorizationError.
Proof.
  destruct (run_succeeds (disable_principal alice_vp "Bob") two_owners ltac:(by_eval))
    as (rec & w' & Hr).
  exists rec, w'. split; [exact Hr|].
  refine (disabled_sessions_are_dead alice_vp "Bob" rec bob_vp bob_session _ None two_owners w' Hr _ _).
  - reflexivity.
  - pose proof (run_shows (disable_principal alice_vp "Bob") two_owners
      (λ rec _, bool_decide (s_principal_id bob_session = pr_id rec)) rec w' ltac:(by_eval) Hr) as Hi.
    apply bool_decide_eq_true in Hi. exact Hi.
Defined.

Lemma authenticate_sound_witness :
  ∃ vp w', authenticate "Alice" "correct horse battery" 300 start = (Ok vp, w') ∧
    vp_expires_at vp = (vp_issued_at vp + 300 * 1000000)%Z.
Proof.
  destruct (run_succeeds (authenticate "Alice" "correct horse battery" 300) start ltac:(by_eval))
    as (vp & w' & Hr).
  exists vp, w'. split; [exact Hr|].
  destruct (authenticate_sound _ _ _ vp start w' Hr)
    as (kn & k & p & _ & _ & _ & _ & _ & _ & Hx & _). exact Hx.
Defined.

Lemma rotation_replaces_credential_witness :
  ∃ vp w', rotate_credential alice_vp "correct horse battery" "a new long secret" 300 start
           = (Ok vp, w') ∧
    (_verify_session alice_vp None (run_ops [] w')).1 = Raise AuthorizationError.
Proof.
  destruct (run_succeeds (rotate_credential alice_vp "correct horse battery" "a new long secret" 300)
    start ltac:(by_eval)) as (vp & w' & Hr).
  exists vp, w'. split; [exact Hr|].
  destruct (rotation_replaces_credential _ _ _ _ vp start w' Hr)
    as (p & p' & _ & _ & _ & _ & _ & _ & Hold & _).
  exact (Hold alice_vp (alice_session future) [] None eq_refl eq_refl).
Defined.

Lemma bootstrap_only_once_witness :
  ∃ vp w', bootstrap_owner "Root" "correct horse battery" 300 (world empty_db no_domain) = (Ok vp, w') ∧
    is_ok (bootstrap_owner "Eve" "a new long secret" 300 (run_ops [OpRevoke vp] w')).1 = false.
Proof.
  destruct (run_succeeds (bootstrap_owner "Root" "correct horse battery" 300)
    (world empty_db no_domain) ltac:(by_eval)) as (vp & w' & Hr).
  exists vp, w'. split; [exact Hr|].
  exact (proj2 (proj2 (proj2 (bootstrap_only_once _ _ _ vp [OpRevoke vp] "Eve" "a new long secret" 300
    _ w' Hr)))).
Defined.

Lemma only_owners_administer_witness : live_as (w_db start) alice_vp R_OWNER.
Proof.
  refine (only_owners_administer (OpCreate alice_vp "Bob" "another long secret" ["worker"]) alice_vp
    start eq_refl _).
  destruct (run_succeeds (run_op (OpCreate alice_vp "Bob" "another long secret" ["worker"])) start
    ltac:(by_eval)) as (u & w' & Hr).
  pose proof (run_shows _ start
    (λ _ w', negb (bool_decide (size (principals (w_db w')) = size (principals (w_db start))))) u w'
    ltac:(by_eval) Hr) as Hs.
  apply negb_true_iff, bool_decide_eq_false in Hs. rewrite Hr. intros He.
  exact (Hs (f_equal (λ d, size (principals d)) He)).
Defined.
End Staff.
