(* ===== verification/Leases.v ===== *)
(** * Leases ([leases.py])

    Single-host leases with fencing tokens.  A resource has at most one row in
    [leases]; every takeover increments its fence.  [_now], [_expires] and
    [_is_active] read SQLite's clock, one reading per statement. *)

From S2P Require Import Prelude PyStr Json Enums Contracts Db Store Identity.

Local Open Scope string_scope.
Local Open Scope list_scope.
Local Open Scope Z_scope.

(** [LeaseOperationResult]: the row and [replayed]. *)
Record LeaseOperationResult := { lo_record : Lease; lo_replayed : bool }.

(** ** Arguments *)
Definition _required_text (v : string) : res string :=
  _ ← require (negb (bool_decide (strip v = ""))) LeaseError; Ok (strip v).
Definition _positive_int (v : Z) : res Z := _ ← require (1 <=? v) LeaseError; Ok v.

(** The last instant that SQLite's date functions accept. *)
Definition max_instant : Instant := 253402300799999000.

Definition run_or_goal (t : TaskRow) : string :=
  match t_run_id t with
  | Some r => if bool_decide (r = "") then t_goal_id t else r
  | None => t_goal_id t
  end.

Section leases.
Context `{ENV : Env}.

Definition _now : P Instant := sql_now.

(** [strftime(..., 'now', '+N seconds')], which is NULL past the year 9999. *)
Definition _expires (ttl_seconds : Z) : P (option Instant) :=
  now ← sql_now;
  let t := now + ttl_seconds * 1000000 in
  mret (if t <=? max_instant then Some t else None).

Definition active_at (now : Instant) (l : Lease) : bool :=
  bool_decide (l_released_at l = None) && (julianday now <? julianday (l_expires_at l)).

Definition _is_active (row : Lease) : P bool :=
  if negb (bool_decide (l_released_at row = None)) then mret false
  else now ← sql_now; mret (julianday now <? julianday (l_expires_at row)).

Definition _assert_task_scope (project_id task_id : string) : P TaskRow :=
  o ← read (λ d, tasks d !! task_id);
  t ← expect o LeaseError;
  _ ← ensure (bool_decide (t_project_id t = project_id)) LeaseError;
  mret t.

Definition _holder_id (holder : VerifiedPrincipal) : P string :=
  principal ← verify_in_transaction holder;
  _ ← ensure (memb R_WORKER (pr_roles principal) || memb R_SYSTEM (pr_roles principal)) LeaseError;
  mret (pr_id principal).

Definition _append_audit (policy_version resource_key : string) (task : TaskRow) (holder : string)
    (fence : Z) (event_type : string) (expires_at : Instant) : P unit :=
  version ← read (λ d, head_version d "lease" resource_key);
  command_id ← new_uuid;
  _ ← append_event {|
    ea_aggregate_type := "lease"; ea_aggregate_id := resource_key;
    ea_expected_version := version; ea_project_id := t_project_id task;
    ea_event_type := event_type; ea_actor := holder; ea_command_id := command_id;
    ea_correlation_id := run_or_goal task; ea_policy_version := policy_version;
    ea_payload := [("holder", JStr holder); ("fence", JInt fence);
                   ("expires_at", JStr (iso_sql expires_at))];
    ea_auth_context := []; ea_auth_session := None; ea_command_authority := None;
    ea_command_owner := None; ea_run_id := t_run_id task; ea_task_id := Some (t_id task);
    ea_idempotency_key := None; ea_causation_id := None; ea_confidentiality := "internal";
    ea_occurred_at := None |};
  mret tt.

Definition lease_row (resource_key project_id task_id holder : string) (fence : Z)
    (issued_at expires_at : Instant) (released_at : option Instant) : Lease := {|
  l_resource_key := resource_key; l_project_id := project_id; l_task_id := task_id;
  l_holder := holder; l_fence := fence; l_issued_at := issued_at; l_expires_at := expires_at;
  l_released_at := released_at |}.

Definition scope_matches (row : Lease) (project_id task_id holder : string) : bool :=
  bool_decide ((l_project_id row, l_task_id row, l_holder row) = (project_id, task_id, holder)).

Definition _require_match (row : option Lease) (project_id task_id holder : string) (fence : Z)
    (require_active : bool) : P Lease :=
  row ← expect row LeaseError;
  _ ← ensure (scope_matches row project_id task_id holder && (l_fence row =? fence)) LeaseError;
  _ ← (if require_active
       then active ← _is_active row; ensure active LeaseError
       else mret tt);
  mret row.

(** ** Operations *)
Context (policy_version : string).

(** [INSERT] for a new resource, [UPDATE] for a known one. *)
Definition put_lease (row : option Lease) (l : Lease) : P unit :=
  match row with None => insert_lease l | Some _ => replace_lease l end.

Definition take (row : option Lease) (resource_key project_id task_id holder_id : string)
    (ttl_seconds : Z) (task : TaskRow) : P LeaseOperationResult :=
  issued_at ← _now;
  expires_at ← _expires ttl_seconds;
  expires_at ← expect expires_at SqliteIntegrityError;
  let acquired := lease_row resource_key project_id task_id holder_id
    (match row with None => 1 | Some l => l_fence l + 1 end) issued_at expires_at None in
  _ ← put_lease row acquired;
  _ ← _append_audit policy_version resource_key task holder_id (l_fence acquired)
        (match row with None => "lease_acquired" | Some _ => "lease_taken_over" end) expires_at;
  mret {| lo_record := acquired; lo_replayed := false |}.

Definition acquire (resource_key project_id task_id : string) (holder : VerifiedPrincipal)
    (ttl_seconds : Z) : P LeaseOperationResult :=
  resource_key ← lift_res (_required_text resource_key);
  project_id ← lift_res (_required_text project_id);
  task_id ← lift_res (_required_text task_id);
  ttl_seconds ← lift_res (_positive_int ttl_seconds);
  transaction (
    holder_id ← _holder_id holder;
    task ← _assert_task_scope project_id task_id;
    row ← read (λ d, leases d !! resource_key);
    active ← match row with None => mret false | Some l => _is_active l end;
    match row with
    | Some l =>
      if active : bool then
        _ ← ensure (scope_matches l project_id task_id holder_id) LeaseError;
        mret {| lo_record := l; lo_replayed := true |}
      else take row resource_key project_id task_id holder_id ttl_seconds task
    | None => take row resource_key project_id task_id holder_id ttl_seconds task
    end).

Definition with_expiry (l : Lease) (resource_key : string) (expires_at : Instant) : Lease :=
  lease_row resource_key (l_project_id l) (l_task_id l) (l_holder l) (l_fence l) (l_issued_at l)
    expires_at (l_released_at l).
Definition with_release (l : Lease) (resource_key : string) (now : Instant) : Lease :=
  lease_row resource_key (l_project_id l) (l_task_id l) (l_holder l) (l_fence l) (l_issued_at l)
    (l_expires_at l) (Some now).

Definition renew (resource_key project_id task_id : string) (holder : VerifiedPrincipal)
    (fence ttl_seconds : Z) : P LeaseOperationResult :=
  resource_key ← lift_res (_required_text resource_key);
  project_id ← lift_res (_required_text project_id);
  task_id ← lift_res (_required_text task_id);
  fence ← lift_res (_positive_int fence);
  ttl_seconds ← lift_res (_positive_int ttl_seconds);
  transaction (
    holder_id ← _holder_id holder;
    row ← read (λ d, leases d !! resource_key);
    row ← _require_match row project_id task_id holder_id fence true;
    expires_at ← _expires ttl_seconds;
    expires_at ← expect expires_at SqliteIntegrityError;
    let renewed := with_expiry row resource_key expires_at in
    _ ← replace_lease renewed;
    task ← _assert_task_scope project_id task_id;
    _ ← _append_audit policy_version resource_key task holder_id fence "lease_renewed" expires_at;
    mret {| lo_record := renewed; lo_replayed := false |}).

Definition release (resource_key project_id task_id : string) (holder : VerifiedPrincipal)
    (fence : Z) : P LeaseOperationResult :=
  resource_key ← lift_res (_required_text resource_key);
  project_id ← lift_res (_required_text project_id);
  task_id ← lift_res (_required_text task_id);
  fence ← lift_res (_positive_int fence);
  transaction (
    holder_id ← _holder_id holder;
    row ← read (λ d, leases d !! resource_key);
    row ← _require_match row project_id task_id holder_id fence false;
    if negb (bool_decide (l_released_at row = None))
    then mret {| lo_record := row; lo_replayed := true |}
    else
      active ← _is_active row;
      _ ← ensure active LeaseError;
      now ← _now;
      let released := with_release row resource_key now in
      _ ← replace_lease released;
      task ← _assert_task_scope project_id task_id;
      _ ← _append_audit policy_version resource_key task holder_id fence "lease_released"
            (l_expires_at released);
      mret {| lo_record := released; lo_replayed := false |}).

Definition current_fence (resource_key : string) : P (option Z) :=
  resource_key ← lift_res (_required_text resource_key);
  row ← read (λ d, leases d !! resource_key);
  mret (l_fence <$> row).

Definition require_current_fence (resource_key project_id task_id : string)
    (holder : VerifiedPrincipal) (fence : Z) (require_active : bool) : P Lease :=
  resource_key ← lift_res (_required_text resource_key);
  project_id ← lift_res (_required_text project_id);
  task_id ← lift_res (_required_text task_id);
  fence ← lift_res (_positive_int fence);
  transaction (
    holder_id ← _holder_id holder;
    row ← read (λ d, leases d !! resource_key);
    _require_match row project_id task_id holder_id fence require_active).
End leases.

(** ** What a successful call did *)
Section facts.
Context `{ENV : Env}.

Definition sql_at (n : nat) : Instant := clock n / 1000 * 1000.

Lemma required_text_ok v x : _required_text v = Ok x → x = strip v ∧ strip v ≠ "".
Proof. unfold _required_text. intros Hrun. rinv. by bsplit. Qed.
Lemma positive_int_ok v x : _positive_int v = Ok x → x = v ∧ 1 ≤ v.
Proof. unfold _positive_int. intros Hrun. rinv. by bsplit. Qed.

Lemma expires_ok ttl o w w' :
  _expires ttl w = (Ok o, w') →
  w' = tick w ∧ (∀ t, o = Some t → t = sql_at (w_ticks w) + ttl * 1000000).
Proof. unfold _expires. intros Hrun. rinv. split; [done|]. intros t. by case_match; intros [= <-]. Qed.

(** The instant [ttl] seconds after the [n]-th reading, or NULL. *)
Definition expiry_at (n : nat) (ttl : Z) : option Instant :=
  let t := sql_at n + ttl * 1000000 in if t <=? max_instant then Some t else None.
Lemma expires_exact ttl o w w' :
  _expires ttl w = (Ok o, w') → w' = tick w ∧ o = expiry_at (w_ticks w) ttl.
Proof. unfold _expires. intros Hrun. by rinv. Qed.

Lemma is_active_ok l b w w' :
  _is_active l w = (Ok b, w') →
  b = active_at (sql_at (w_ticks w)) l ∧ w_db w' = w_db w ∧ (w_ticks w <= w_ticks w')%nat.
Proof.
  unfold _is_active, active_at. destruct (bool_decide _); simpl; intros Hrun; rinv; [|done].
  split_and!; [done|done|simpl; lia].
Qed.

Lemma holder_ok holder i w w' :
  _holder_id holder w = (Ok i, w') →
  w' = tick w ∧ i = vp_principal_id holder ∧
  (live_as (w_db w) holder R_WORKER ∨ live_as (w_db w) holder R_SYSTEM).
Proof.
  unfold _holder_id, verify_in_transaction. intros Hrun. rinv.
  match goal with H : _verify_session _ _ _ = _ |- _ =>
    pose proof H as Hv; apply verify_ok in H as (-> & s & p & _ & _ & _ & _ & Hi & _) end.
  match goal with H : _ || _ = true |- _ => apply orb_true_iff in H as [Hr|Hr] end;
    apply memb_true in Hr; pose proof (verify_live_as _ _ _ _ _ _ Hv Hr); auto.
Qed.

Lemma task_scope_ok project task_id t w w' :
  _assert_task_scope project task_id w = (Ok t, w') →
  w' = w ∧ tasks (w_db w) !! task_id = Some t ∧ t_project_id t = project.
Proof. unfold _assert_task_scope. intros Hrun. rinv. by bsplit. Qed.

(** The audit event of a lease operation. *)
Record audited (d d' : DB) (key holder : string) (fence : Z) (kind : string) (expires : Instant)
    : Prop := {
  au_event : ∃ e, d' = set_events (λ es, es ++ [e]) d ∧
    ev_aggregate_type e = "lease" ∧ ev_aggregate_id e = key ∧ ev_event_type e = kind ∧
    ev_actor e = holder ∧ ev_payload e = JObj [("holder", JStr holder); ("fence", JInt fence);
                                               ("expires_at", JStr (iso_sql expires))] ∧
    ev_aggregate_version e = head_version d "lease" key + 1 }.

Lemma audit_ok pv key t holder fence kind expires u w w' :
  _append_audit pv key t holder fence kind expires w = (Ok u, w') →
  audited (w_db w) (w_db w') key holder fence kind expires.
Proof.
  unfold _append_audit. intros Hrun. rinv.
  match goal with H : append_event _ _ = _ |- _ =>
    apply append_event_ok in H as (auth & wa & _ & Ha & ->) end.
  destruct Ha. simpl in *. constructor. eexists. split_and!; try done.
Qed.

Lemma audited_leases d d' key holder fence kind expires :
  audited d d' key holder fence kind expires → leases d' = leases d.
Proof. by intros [(e & -> & _)]. Qed.

Lemma replace_lease_ok l u w w' :
  replace_lease l w = (Ok u, w') →
  w' = set_db (set_leases <[l_resource_key l := l]>) w ∧ lease_ok (w_db w) l = true.
Proof. unfold replace_lease. intros Hrun. by rinv. Qed.

Lemma put_lease_ok row l u w w' :
  put_lease row l w = (Ok u, w') →
  w' = set_db (set_leases <[l_resource_key l := l]>) w ∧ lease_ok (w_db w) l = true.
Proof.
  destruct row; simpl; [apply replace_lease_ok|]. unfold insert_lease. intros Hrun. rinv. by bsplit.
Qed.

Lemma match_ok row project task holder fence active l w w' :
  _require_match row project task holder fence active w = (Ok l, w') →
  row = Some l ∧ w_db w' = w_db w ∧ (w_ticks w <= w_ticks w')%nat ∧
  l_project_id l = project ∧ l_task_id l = task ∧ l_holder l = holder ∧ l_fence l = fence ∧
  (active = true → active_at (sql_at (w_ticks w)) l = true).
Proof.
  unfold _require_match, scope_matches. intros Hrun. rinv. bsplit. simplify_eq.
  destruct active; rinv; [|done].
  match goal with H : _is_active _ _ = _ |- _ => apply is_active_ok in H as (? & ? & ?) end. done.
Qed.

(** The row that a takeover writes, and the rest of what it did. *)
Record taken (d d' : DB) (key project task : string) (holder : VerifiedPrincipal) (ttl : Z)
    (l : Lease) : Prop := {
  tk_row : leases d' = <[key := l]> (leases d);
  tk_scope : l_resource_key l = key ∧ l_project_id l = project ∧ l_task_id l = task ∧
             l_holder l = vp_principal_id holder ∧ l_released_at l = None;
  tk_fence : l_fence l = match leases d !! key with None => 1 | Some l0 => l_fence l0 + 1 end;
  tk_expiry : ∃ n, l_expires_at l = sql_at n + ttl * 1000000;
  tk_event : ∃ e, events d' = events d ++ [e] ∧ ev_aggregate_type e = "lease" ∧
             ev_aggregate_id e = key ∧ ev_actor e = vp_principal_id holder ∧
             dget (match ev_payload e with JObj p => p | _ => [] end) "fence" = Some (JInt (l_fence l)) }.

Lemma take_ok pv row key project task_id holder ttl t r w w' :
  take pv row key project task_id (vp_principal_id holder) ttl t w = (Ok r, w') →
  row = leases (w_db w) !! key →
  lo_replayed r = false ∧ taken (w_db w) (w_db w') key project task_id holder ttl (lo_record r).
Proof.
  unfold take, _now. intros Hrun Hrow. rinv.
  match goal with H : _expires _ _ = _ |- _ => apply expires_ok in H as [-> Hx] end.
  specialize (Hx _ eq_refl).
  match goal with H : _append_audit _ _ _ _ _ _ _ _ = _ |- _ =>
    apply audit_ok in H as [(e & Hdb & Hty & Hid & _ & Hactor & Hpay & _)] end.
  match goal with H : put_lease _ _ _ = _ |- _ => apply put_lease_ok in H as [-> _] end.
  split; [done|]. rewrite Hdb. constructor; simpl.
  - done.
  - done.
  - done.
  - eauto.
  - exists e. by rewrite Hpay.
Qed.

End facts.

(** Invert the calls of the lease helpers. *)
Ltac leaseinv := rinv; repeat match goal with
  | H : _required_text _ = _ |- _ => apply required_text_ok in H as [-> _]
  | H : _positive_int _ = _ |- _ => apply positive_int_ok in H as [-> ?]
  | H : _holder_id _ _ = _ |- _ =>
    let Hlive := fresh "Hlive" in apply holder_ok in H as (-> & -> & Hlive)
  | H : _expires _ _ = _ |- _ => apply expires_ok in H as [-> H]; specialize (H _ eq_refl)
  | H : _assert_task_scope _ _ _ = _ |- _ =>
    let Ht := fresh "Ht" in let Hp := fresh "Hp" in apply task_scope_ok in H as (-> & Ht & Hp)
  | H : replace_lease _ _ = _ |- _ => apply replace_lease_ok in H as [-> ?]
  | H : put_lease _ _ _ = _ |- _ => apply put_lease_ok in H as [-> ?]
  | H : _append_audit _ _ _ _ _ _ _ _ = _ |- _ =>
    let Hdb := fresh "Hdb" in
    apply audit_ok in H as [(? & Hdb & ? & ? & ? & ? & ? & ?)]
  end.

(** ** Operations and their sequences *)
Section effects.
Context `{ENV : Env}.

Definition worker_or_system (d : DB) (holder : VerifiedPrincipal) : Prop :=
  live_as d holder R_WORKER ∨ live_as d holder R_SYSTEM.

Lemma acquire_atomic pv resource project task holder ttl :
  atomic (acquire pv resource project task holder ttl).
Proof. unfold acquire. atomic_walk. Qed.

(** What a successful [acquire] from [w] to [w'] did. *)
Definition acquire_effect (resource project task : string) (holder : VerifiedPrincipal) (ttl : Z)
    (r : LeaseOperationResult) (w w' : World) : Prop :=
  worker_or_system (w_db w) holder ∧
  (∃ t, tasks (w_db w) !! strip task = Some t ∧ t_project_id t = strip project) ∧
  if lo_replayed r then
    w_db w' = w_db w ∧ leases (w_db w) !! strip resource = Some (lo_record r) ∧
    scope_matches (lo_record r) (strip project) (strip task) (vp_principal_id holder) = true ∧
    active_at (sql_at (S (w_ticks w))) (lo_record r) = true
  else
    (∀ l, leases (w_db w) !! strip resource = Some l →
          active_at (sql_at (S (w_ticks w))) l = false) ∧
    taken (w_db w) (w_db w') (strip resource) (strip project) (strip task) holder ttl (lo_record r).

Lemma acquire_facts pv resource project task holder ttl r w w' :
  acquire pv resource project task holder ttl w = (Ok r, w') →
  acquire_effect resource project task holder ttl r w w'.
Proof.
  unfold acquire, acquire_effect. intros Hrun. leaseinv.
  simpl in *. split; [done|]. split; [eauto|].
  destruct (leases (w_db w) !! strip resource) as [l|] eqn:Hl; rinv.
  - match goal with H : _is_active _ _ = (Ok ?b, ?w1) |- _ =>
      apply is_active_ok in H as (Hact & Hdb & _); destruct b; rinv end; simpl in *.
    + by rewrite Hdb.
    + rewrite <- Hdb in Hl. rewrite <- Hl in Hrun. apply take_ok in Hrun as [-> Htk]; [|done].
      rewrite Hdb in *. split; [|done]. intros l' [= <-]. by rewrite <- Hact.
  - rewrite <- Hl in Hrun. apply take_ok in Hrun as [-> Htk]; [|done]. by split.
Qed.

(** [acquire] succeeds only for a live session with the worker or the system
    role and a task of the project.  Either the same principal already holds an
    active lease of the resource for the task, and nothing changes, or no lease
    of the resource is active, and the row becomes one for the caller whose
    fence is one more than before, with an audit event that records it. *)
Theorem acquire_grants pv resource project task holder ttl r w w' :
  acquire pv resource project task holder ttl w = (Ok r, w') →
  acquire_effect resource project task holder ttl r w w'.
Proof. apply acquire_facts. Qed.

(** While a lease is active, [acquire] by anyone else, or for another task,
    raises and changes nothing. *)
Theorem active_lease_excludes pv resource project task holder ttl l w :
  leases (w_db w) !! strip resource = Some l → active_at (sql_at (S (w_ticks w))) l = true →
  scope_matches l (strip project) (strip task) (vp_principal_id holder) = false →
  ∃ x w', acquire pv resource project task holder ttl w = (Raise x, w') ∧ w_db w' = w_db w.
Proof.
  intros Hl Hact Hs. destruct (acquire pv resource project task holder ttl w) as [[r|x] w'] eqn:Hrun.
  - apply acquire_facts in Hrun as (_ & _ & Hr).
    destruct (lo_replayed r); [|destruct Hr as [Hr _]; specialize (Hr l Hl); congruence].
    destruct Hr as (_ & Hl' & Hs' & _). congruence.
  - exists x, w'. split; [done|]. by eapply acquire_atomic.
Qed.

Lemma renew_facts pv resource project task holder fence ttl r w w' :
  renew pv resource project task holder fence ttl w = (Ok r, w') →
  worker_or_system (w_db w) holder ∧
  ∃ l n, leases (w_db w) !! strip resource = Some l ∧ l_fence l = fence ∧
    scope_matches l (strip project) (strip task) (vp_principal_id holder) = true ∧
    active_at (sql_at (S (w_ticks w))) l = true ∧ (S (w_ticks w) <= n)%nat ∧
    lo_record r = with_expiry l (strip resource) (sql_at n + ttl * 1000000) ∧ 1 ≤ ttl ∧
    lease_ok (w_db w) (lo_record r) = true ∧
    leases (w_db w') = <[strip resource := lo_record r]> (leases (w_db w)) ∧
    ∃ e, events (w_db w') = events (w_db w) ++ [e] ∧ ev_event_type e = "lease_renewed".
Proof.
  unfold renew. intros Hrun. leaseinv.
  match goal with H : _require_match _ _ _ _ _ _ _ = _ |- _ =>
    apply match_ok in H as (Hl & Hdb1 & Hn & Hpr & Hta & Hho & Hfe & Hact) end.
  simpl in *. specialize (Hact eq_refl). rewrite Hdb1 in *. split; [done|].
  eexists _, _. split_and!; try done.
  - unfold scope_matches. apply bool_decide_eq_true. congruence.
  - by subst.
  - by rewrite Hdb.
  - rewrite Hdb. eauto.
Qed.

Lemma release_facts pv resource project task holder fence r w w' :
  release pv resource project task holder fence w = (Ok r, w') →
  worker_or_system (w_db w) holder ∧
  ∃ l, leases (w_db w) !! strip resource = Some l ∧ l_fence l = fence ∧
    scope_matches l (strip project) (strip task) (vp_principal_id holder) = true ∧
    if lo_replayed r then
      w_db w' = w_db w ∧ lo_record r = l ∧ l_released_at l ≠ None
    else
      (∃ n n', lo_record r = with_release l (strip resource) (sql_at n') ∧
            active_at (sql_at n) l = true ∧ (S (w_ticks w) <= n <= n')%nat) ∧
      leases (w_db w') = <[strip resource := lo_record r]> (leases (w_db w)) ∧
      ∃ e, events (w_db w') = events (w_db w) ++ [e] ∧ ev_event_type e = "lease_released".
Proof.
  unfold release. intros Hrun. leaseinv.
  match goal with H : _require_match _ _ _ _ _ _ _ = _ |- _ =>
    apply match_ok in H as (Hl & Hdb1 & Hn & Hpr & Hta & Hho & Hfe & _) end.
  simpl in *. split; [done|]. eexists. split_and!; try done.
  { unfold scope_matches. apply bool_decide_eq_true. congruence. }
  destruct (bool_decide (l_released_at _ = None)) eqn:Hrel; simpl in Hrun; leaseinv; bsplit; simpl.
  - match goal with H : _is_active _ _ = _ |- _ => apply is_active_ok in H as (Hact & Hdb2 & Hn2) end.
    unfold _now in *. leaseinv. simpl in *. rewrite Hdb, Hdb2, Hdb1. simpl.
    split_and!; [eexists _, _; split; [reflexivity|by split]|done|eauto].
  - done.
Qed.

(** ** Fences only grow *)

(** What may become of a lease: a higher fence, or the same grant, possibly
    renewed or released. *)
Definition lease_step (l l' : Lease) : Prop :=
  l_fence l < l_fence l' ∨
  (l_fence l = l_fence l' ∧ l_project_id l = l_project_id l' ∧ l_task_id l = l_task_id l' ∧
   l_holder l = l_holder l' ∧ l_issued_at l = l_issued_at l' ∧
   (l_released_at l ≠ None → l_released_at l' ≠ None)).
Definition lease_le (d d' : DB) : Prop :=
  ∀ k l, leases d !! k = Some l → ∃ l', leases d' !! k = Some l' ∧ lease_step l l'.

#[export] Instance lease_le_preorder : PreOrder lease_le.
Proof.
  split.
  - intros d k l Hl. exists l. split; [done|]. right. tauto.
  - intros d1 d2 d3 H12 H23 k l Hl. destruct (H12 k l Hl) as (l2 & Hl2 & Hs2).
    destruct (H23 k l2 Hl2) as (l3 & Hl3 & Hs3). exists l3. split; [done|].
    unfold lease_step in *. destruct Hs2 as [?|(? & ? & ? & ? & ? & ?)],
      Hs3 as [?|(? & ? & ? & ? & ? & ?)]; [left; lia..|right].
    split_and!; try congruence. auto.
Qed.

Lemma lease_le_same d d' : leases d' = leases d → lease_le d d'.
Proof. intros He k l Hl. exists l. rewrite He. split; [done|]. right. tauto. Qed.

Lemma lease_le_insert d d' k l :
  leases d' = <[k := l]> (leases d) → (∀ l0, leases d !! k = Some l0 → lease_step l0 l) →
  lease_le d d'.
Proof.
  intros He Hs k' l' Hl'. rewrite He. destruct (decide (k = k')) as [<-|].
  - exists l. rewrite lookup_insert_eq. eauto.
  - exists l'. rewrite lookup_insert_ne by done. split; [done|]. right. tauto.
Qed.

(** The calls that can touch a lease or the identity tables, in any order. *)
Inductive LeaseOp :=
  | LoAcquire (resource project task : string) (holder : VerifiedPrincipal) (ttl : Z)
  | LoRenew (resource project task : string) (holder : VerifiedPrincipal) (fence ttl : Z)
  | LoRelease (resource project task : string) (holder : VerifiedPrincipal) (fence : Z)
  | LoRequire (resource project task : string) (holder : VerifiedPrincipal) (fence : Z)
      (require_active : bool)
  | LoIdentity (op : IdentityOp).

Definition run_lease_op (pv : string) (op : LeaseOp) : P unit :=
  match op with
  | LoAcquire k p t h ttl => ignore (acquire pv k p t h ttl)
  | LoRenew k p t h f ttl => ignore (renew pv k p t h f ttl)
  | LoRelease k p t h f => ignore (release pv k p t h f)
  | LoRequire k p t h f a => ignore (require_current_fence k p t h f a)
  | LoIdentity op => run_op op
  end.

Fixpoint run_lease_ops (pv : string) (ops : list LeaseOp) (w : World) : World :=
  match ops with [] => w | op :: ops => run_lease_ops pv ops (run_lease_op pv op w).2 end.

Lemma run_lease_op_atomic pv op : atomic (run_lease_op pv op).
Proof.
  destruct op; [| | | |apply run_op_atomic]; apply (atomic_then _ (λ _, tt));
    unfold acquire, renew, release, require_current_fence; atomic_walk.
Qed.

Lemma identity_keeps_leases op d0 : keeps (λ d, leases d = leases d0) (run_op op).
Proof.
  apply run_op_keeps. constructor; intros;
    first [by apply keeps_constraint_write | by apply keeps_write].
Qed.

Lemma require_current_fence_ok k p t h f a l w w' :
  require_current_fence k p t h f a w = (Ok l, w') →
  w_db w' = w_db w ∧ leases (w_db w) !! strip k = Some l ∧ l_fence l = f ∧
  (a = true → active_at (sql_at (S (w_ticks w))) l = true).
Proof.
  unfold require_current_fence. intros Hrun. leaseinv.
  apply match_ok in Hrun as (Hl & Hdb & _ & _ & _ & _ & Hf & Ha). done.
Qed.

Lemma run_lease_op_le pv op w : lease_le (w_db w) (w_db (run_lease_op pv op w).2).
Proof.
  destruct (run_lease_op pv op w) as [[u|x] w'] eqn:Hrun; simpl;
    [|by rewrite (run_lease_op_atomic _ _ _ _ _ Hrun)].
  destruct op; simpl in Hrun; unfold ignore in Hrun;
    [rinv..|apply lease_le_same; by eapply identity_keeps_leases].
  - match goal with H : acquire _ _ _ _ _ _ _ = _ |- _ => apply acquire_facts in H as (_ & _ & Hr) end.
    destruct (lo_replayed _); [by destruct Hr as [-> _]|]. destruct Hr as [_ Htk].
    eapply lease_le_insert; [apply Htk|]. intros l0 Hl0. left. rewrite (tk_fence _ _ _ _ _ _ _ _ Htk), Hl0. simpl. lia.
  - match goal with H : renew _ _ _ _ _ _ _ _ = _ |- _ =>
      apply renew_facts in H as (_ & l & n & Hl & _ & _ & _ & _ & Hrec & _ & _ & Hls & _) end.
    eapply lease_le_insert; [apply Hls|]. intros l0 Hl0. right. rewrite Hrec. simpl.
    split_and!; congruence.
  - match goal with H : release _ _ _ _ _ _ _ = _ |- _ =>
      apply release_facts in H as (_ & l & Hl & _ & _ & Hr) end.
    destruct (lo_replayed _); [by destruct Hr as [-> _]|].
    destruct Hr as [(n & n' & Hrec & _) [Hls _]].
    eapply lease_le_insert; [apply Hls|]. intros l0 Hl0. right. rewrite Hrec. simpl.
    split_and!; congruence.
  - match goal with H : require_current_fence _ _ _ _ _ _ _ = _ |- _ =>
      by apply require_current_fence_ok in H as [-> _] end.
Qed.

Lemma run_lease_ops_le pv ops w : lease_le (w_db w) (w_db (run_lease_ops pv ops w)).
Proof.
  revert w. induction ops as [|op ops IH]; intros w; simpl; [done|].
  etrans; [apply run_lease_op_le|apply IH].
Qed.

(** A grant that is over: a later grant exists, or it was released. *)
Definition over (d : DB) (key : string) (fence : Z) : Prop :=
  ∃ l, leases d !! key = Some l ∧
    (fence < l_fence l ∨ l_fence l = fence ∧ l_released_at l ≠ None).

Lemma over_stays d d' key fence : lease_le d d' → over d key fence → over d' key fence.
Proof.
  intros Hle (l & Hl & Ho). destruct (Hle key l Hl) as (l' & Hl' & Hs). exists l'. split; [done|].
  destruct Ho as [?|[? ?]], Hs as [?|(? & ? & ? & ? & ? & ?)];
    first [left; lia|right; split; [congruence|auto]].
Qed.

(** Whatever lease and identity calls are made, in any order and whichever of
    them fail, no lease row disappears, and a row either gets a higher fence or
    stays the same grant, renewed or released: fences only grow. *)
Theorem fences_only_grow pv ops w : lease_le (w_db w) (w_db (run_lease_ops pv ops w)).
Proof. apply run_lease_ops_le. Qed.

(** A grant that was overtaken: the resource has a later one. *)
Definition overtaken (d : DB) (key : string) (fence : Z) : Prop :=
  ∃ l, leases d !! key = Some l ∧ fence < l_fence l.

Lemma overtaken_stays d d' key fence : lease_le d d' → overtaken d key fence → overtaken d' key fence.
Proof.
  intros Hle (l & Hl & Hf). destruct (Hle key l Hl) as (l' & Hl' & Hs). exists l'. split; [done|].
  destruct Hs as [?|(? & ? & ? & ? & ? & ?)]; lia.
Qed.

(** The call is refused and changes no table. *)
Definition refused {A} (m : P A) (w : World) : Prop := ∃ x w', m w = (Raise x, w') ∧ w_db w' = w_db w.
Lemma refused_by {A} (m : P A) w : atomic m → (∀ r w', m w ≠ (Ok r, w')) → refused m w.
Proof.
  intros Ha Hno. destruct (m w) as [[r|x] w'] eqn:Hrun; [by destruct (Hno r w')|].
  exists x, w'. split; [exact Hrun|by eapply Ha].
Qed.

Lemma over_inactive d key fence l t :
  over d key fence → leases d !! key = Some l → l_fence l = fence → active_at t l = false.
Proof.
  intros (l' & Hl' & Hover) Hl Hf. apply not_true_is_false. intros Hact. assert (l' = l) as -> by congruence.
  unfold active_at in Hact. bsplit. destruct Hover as [?|[? ?]]; [lia|done].
Qed.

(** A grant that is over is not renewed and does not pass the check for an active one;
    an overtaken one passes no check, and it is not released either. *)
Lemma over_refused pv resource project task holder fence ttl w :
  over (w_db w) (strip resource) fence →
  refused (renew pv resource project task holder fence ttl) w ∧
  refused (require_current_fence resource project task holder fence true) w.
Proof.
  intros Ho. split; apply refused_by.
  - unfold renew. atomic_walk.
  - intros r w' Hrun. apply renew_facts in Hrun as (_ & l & n & Hl & Hf & _ & Hact & _).
    by rewrite (over_inactive _ _ _ _ _ Ho Hl Hf) in Hact.
  - unfold require_current_fence. atomic_walk.
  - intros r w' Hrun. apply require_current_fence_ok in Hrun as (_ & Hl & Hf & Hact).
    specialize (Hact eq_refl). by rewrite (over_inactive _ _ _ _ _ Ho Hl Hf) in Hact.
Qed.
Lemma overtaken_refused pv resource project task holder fence require_active w :
  overtaken (w_db w) (strip resource) fence →
  refused (release pv resource project task holder fence) w ∧
  refused (require_current_fence resource project task holder fence require_active) w.
Proof.
  intros (l & Hl & Hf). split; apply refused_by.
  - unfold release. atomic_walk.
  - intros r w' Hrun. apply release_facts in Hrun as (_ & l' & Hl' & Hf' & _).
    assert (l' = l) as -> by congruence. lia.
  - unfold require_current_fence. atomic_walk.
  - intros r w' Hrun. apply require_current_fence_ok in Hrun as (_ & Hl' & Hf' & _).
    rewrite Hl in Hl'. injection Hl' as <-. lia.
Qed.

(** [renew] moves the end of an active lease that the caller holds at this
    fence, for this task, to its time-to-live from now, and [release] marks it
    released; both leave the fence and the grant as they were and add one audit
    event.  A second [release] of the same grant changes nothing. *)
Theorem renew_release_effect pv resource project task holder fence ttl w :
  (∀ r w', renew pv resource project task holder fence ttl w = (Ok r, w') →
    ∃ l n, leases (w_db w) !! strip resource = Some l ∧ l_fence l = fence ∧
      l_holder l = vp_principal_id holder ∧ active_at (sql_at (S (w_ticks w))) l = true ∧
      leases (w_db w') = <[strip resource :=
        with_expiry l (strip resource) (sql_at n + ttl * 1000000)]> (leases (w_db w)) ∧
      ∃ e, events (w_db w') = events (w_db w) ++ [e] ∧ ev_event_type e = "lease_renewed") ∧
  (∀ r w', release pv resource project task holder fence w = (Ok r, w') →
    ∃ l, leases (w_db w) !! strip resource = Some l ∧ l_fence l = fence ∧
      l_holder l = vp_principal_id holder ∧ over (w_db w') (strip resource) fence ∧
      (l_released_at l ≠ None → w_db w' = w_db w ∧ lo_replayed r = true)).
Proof.
  split.
  - intros r w' Hrun.
    apply renew_facts in Hrun as (_ & l & n & Hl & Hf & Hs & Hact & _ & Hrec & _ & _ & Hls & He).
    apply bool_decide_eq_true in Hs. exists l, n. rewrite <- Hrec. split_and!; congruence || done.
  - intros r w' Hrun. apply release_facts in Hrun as (_ & l & Hl & Hf & Hs & Hr).
    apply bool_decide_eq_true in Hs. exists l. split_and!; try congruence.
    + destruct (lo_replayed r).
      * destruct Hr as (-> & _ & ?). exists l. auto.
      * destruct Hr as [(n & n' & Hrec & _) [Hls _]]. exists (lo_record r). rewrite Hls, lookup_insert_eq, Hrec.
        split; [done|]. right. by rewrite <- Hf.
    + intros Hrel. destruct (lo_replayed r); [by destruct Hr as [-> _]|].
      destruct Hr as [(n & n' & _ & Hact & _) _]. unfold active_at in Hact. by bsplit.
Qed.
End effects.

(** ** Witnesses *)
Module Holders.
Import Toy Sample.

Definition held_by (holder : string) (released : option Instant) : Lease :=
  lease_row "res" "proj" "t1" holder 3 past future released.
Definition with_lease (l : Lease) : World := set_db (set_leases <["res" := l]>) start.

Lemma acquire_grants_witness :
  ∃ r w', acquire "v1" " res " "proj" "t1" alice_vp 60 start = (Ok r, w') ∧
    l_fence (lo_record r) = 1 ∧ leases (w_db w') !! "res" = Some (lo_record r).
Proof.
  destruct (run_succeeds (acquire "v1" " res " "proj" "t1" alice_vp 60) start ltac:(by_eval))
    as (r & w' & Hr).
  pose proof (run_shows _ start (λ r _, negb (lo_replayed r)) r w' ltac:(by_eval) Hr) as Hn.
  apply negb_true_iff in Hn.
  pose proof (acquire_grants _ _ _ _ _ _ r start w' Hr) as (_ & _ & Ha). rewrite Hn in Ha.
  destruct Ha as [_ [Hrow _ Hf _ _]]. exists r, w'. split; [exact Hr|].
  split; [rewrite Hf; reflexivity|rewrite Hrow; reflexivity].
Defined.

Lemma active_lease_excludes_witness :
  ∃ x w', acquire "v1" "res" "proj" "t1" alice_vp 60 (with_lease (held_by "p-bob" None)) = (Raise x, w') ∧
    w_db w' = w_db (with_lease (held_by "p-bob" None)).
Proof.
  exact (active_lease_excludes "v1" "res" "proj" "t1" alice_vp 60 (held_by "p-bob" None)
    (with_lease (held_by "p-bob" None)) eq_refl eq_refl eq_refl).
Defined.

Lemma renew_release_effect_witness :
  ∃ r w', release "v1" "res" "proj" "t1" alice_vp 3 (with_lease (held_by "p-alice" None)) = (Ok r, w') ∧
    over (w_db w') "res" 3.
Proof.
  destruct (run_succeeds (release "v1" "res" "proj" "t1" alice_vp 3) (with_lease (held_by "p-alice" None))
    ltac:(by_eval)) as (r & w' & Hr).
  exists r, w'. split; [exact Hr|].
  destruct (renew_release_effect "v1" "res" "proj" "t1" alice_vp 3 60 (with_lease (held_by "p-alice" None)))
    as [_ Hrel].
  destruct (Hrel r w' Hr) as (l & _ & _ & _ & Hover & _). exact Hover.
Defined.
End Holders.
