(* ===== verification/Scheduler.v ===== *)
(** * The task scheduler ([scheduler.py])

    Claims of ready tasks by workers, their start, completion and failure,
    bounded retries with backoff, and recovery of abandoned work.  A
    [TaskScheduler] is its command authority and its configuration.  A statement
    that compares with SQLite's ['now'] reads the clock once. *)

From stdpp Require Import pretty.
From S2P Require Import Prelude PyStr Json Enums StateMachine Contracts Db Store Identity Leases.

Local Open Scope string_scope.
Local Open Scope list_scope.
Local Open Scope Z_scope.

Arguments content_hash : simpl never.

Record TaskScheduler := {
  sc_command_authority : nat; sc_policy_version : string;
  sc_retry_base_seconds : Z; sc_retry_max_seconds : Z }.

Record TaskClaim := {
  tc_task_id : string; tc_run_id : string; tc_attempt_id : string; tc_attempt_number : Z;
  tc_worker_id : string; tc_resource_key : string; tc_fence : Z; tc_expires_at : Instant }.

Record FailureOutcome := {
  fo_task_id : string; fo_attempt_id : string; fo_state : TaskState;
  fo_retry_due_at : option Instant; fo_circuit_open : bool; fo_fingerprint : string }.

Definition _task_resource (task_id : string) : string := "task://" +:+ task_id.

(** ** Rows and their updates *)
Definition task_with (state : TaskState) (version : Z) (updated : Instant) (t : TaskRow) : TaskRow := {|
  t_id := t_id t; t_goal_id := t_goal_id t; t_run_id := t_run_id t; t_project_id := t_project_id t;
  t_state := state; t_spec := t_spec t; t_version := version; t_attempt_count := t_attempt_count t;
  t_due_at := t_due_at t; t_last_error := t_last_error t; t_created_at := t_created_at t;
  t_updated_at := updated |}.
Definition task_claimed (attempt_number : Z) (t : TaskRow) : TaskRow := {|
  t_id := t_id t; t_goal_id := t_goal_id t; t_run_id := t_run_id t; t_project_id := t_project_id t;
  t_state := t_state t; t_spec := t_spec t; t_version := t_version t;
  t_attempt_count := attempt_number; t_due_at := None; t_last_error := t_last_error t;
  t_created_at := t_created_at t; t_updated_at := t_updated_at t |}.
Definition task_failed (due : option Instant) (fingerprint : string) (t : TaskRow) : TaskRow := {|
  t_id := t_id t; t_goal_id := t_goal_id t; t_run_id := t_run_id t; t_project_id := t_project_id t;
  t_state := t_state t; t_spec := t_spec t; t_version := t_version t;
  t_attempt_count := t_attempt_count t; t_due_at := due; t_last_error := Some fingerprint;
  t_created_at := t_created_at t; t_updated_at := t_updated_at t |}.
Definition attempt_with (state : AttemptState) (ended : option Instant) (failure : option string)
    (a : Attempt) : Attempt := {|
  a_id := a_id a; a_task_id := a_task_id a; a_run_id := a_run_id a; a_number := a_number a;
  a_worker_id := a_worker_id a; a_state := state; a_started_at := a_started_at a;
  a_ended_at := ended; a_failure_id := failure |}.
Definition lease_released (now : Instant) (l : Lease) : Lease := with_release l (l_resource_key l) now.
Definition seen_again (now : Instant) (n : NegativeResult) : NegativeResult := {|
  n_id := n_id n; n_project_id := n_project_id n; n_run_id := n_run_id n; n_task_id := n_task_id n;
  n_fingerprint := n_fingerprint n; n_failure_class := n_failure_class n; n_severity := n_severity n;
  n_repair_route := n_repair_route n; n_first_seen := n_first_seen n; n_last_seen := now;
  n_recurrence := n_recurrence n + 1 |}.

(** [UPDATE tasks SET ... WHERE task_id = ?] *)
Definition update_task (f : TaskRow → TaskRow) (task_id : string) : P unit :=
  write (set_tasks (alter f task_id)).
Definition update_attempts (f : Attempt → bool) (g : Attempt → Attempt) : P unit :=
  write (set_attempts (update_where f g)).
(** [UPDATE leases SET released_at = ? WHERE resource_key = ? AND fence = ?] *)
Definition release_lease (resource_key : string) (fence : Z) (now : Instant) : P unit :=
  write (set_leases (alter (λ l, if l_fence l =? fence then lease_released now l else l) resource_key)).

(** ** The queue *)
Definition due (now : Instant) (t : TaskRow) : bool :=
  match t_due_at t with None => true | Some at_ => julianday at_ <=? julianday now end.

(** The join with [runs] of [promote_due_retries] and [claim_next]. *)
Definition queued (d : DB) (project_id : string) (state : TaskState) (now : Instant) (t : TaskRow)
    : bool :=
  bool_decide (t_project_id t = project_id) && bool_decide (t_state t = state)
  && match t_run_id t with
     | Some r =>
       match runs d !! r with
       | Some run => bool_decide (ru_project_id run = t_project_id t)
                     && bool_decide (ru_goal_id run = t_goal_id t)
                     && memb (ru_loop_state run) [L_READY; L_RUNNING]
       | None => false
       end
     | None => false
     end
  && due now t.

(** NULL sorts first. *)
Definition due_leb (a b : option Instant) : bool :=
  match a, b with None, _ => true | Some _, None => false | Some x, Some y => x <=? y end.
Definition lex {A} (le1 le2 : A → A → bool) (x y : A) : bool :=
  le1 x y && (negb (le1 y x) || le2 x y).
Definition by_due (x y : TaskRow) : bool := due_leb (t_due_at x) (t_due_at y).
Definition by_created (x y : TaskRow) : bool := t_created_at x <=? t_created_at y.
Definition by_id (x y : TaskRow) : bool := str_leb (t_id x) (t_id y).
Definition by_updated (x y : TaskRow) : bool := t_updated_at x <=? t_updated_at y.

(** [t.* FROM tasks AS t LEFT JOIN leases AS l ON l.resource_key = 'task://' || t.task_id] *)
Definition abandoned (d : DB) (project_id : string) (now : Instant) (t : TaskRow) : bool :=
  bool_decide (t_project_id t = project_id) && memb (t_state t) [T_LEASED; T_RUNNING]
  && match leases d !! _task_resource (t_id t) with
     | None => true
     | Some l => negb (bool_decide (l_released_at l = None))
                 || (julianday (l_expires_at l) <=? julianday now)
     end.

Section scheduler.
Context `{ENV : Env}.

(** [TaskScheduler.__init__] *)
Definition new_TaskScheduler (self : Obj) (policy_version : string)
    (retry_base_seconds retry_max_seconds : Z) : P TaskScheduler :=
  _ ← ensure ((1 <=? retry_base_seconds) && (retry_base_seconds <=? retry_max_seconds)) PyValueError;
  token ← _bind_core_command_authority self "task_scheduler";
  mret {| sc_command_authority := token; sc_policy_version := policy_version;
          sc_retry_base_seconds := retry_base_seconds; sc_retry_max_seconds := retry_max_seconds |}.

Context (self : TaskScheduler).

Definition _worker_id (worker : VerifiedPrincipal) : P string :=
  r ← require_role worker R_WORKER; mret (pr_id r).
Definition _system_id (actor : VerifiedPrincipal) : P string :=
  r ← require_role actor R_SYSTEM; mret (pr_id r).

Definition retry_seconds (attempt_number : Z) : Z :=
  Z.min (sc_retry_base_seconds self * 2 ^ Z.max (attempt_number - 1) 0) (sc_retry_max_seconds self).
Definition _retry_due (attempt_number : Z) : P (option Instant) :=
  _expires (retry_seconds attempt_number).

Definition _require_executable_run (row : TaskRow) : P unit :=
  d ← read id;
  run ← expect (r ← t_run_id row; runs d !! r) LeaseError;
  ensure (bool_decide (ru_project_id run = t_project_id row)
          && bool_decide (ru_goal_id run = t_goal_id row)
          && bool_decide (ru_loop_state run = L_RUNNING)) LeaseError.

Definition _transition (row : TaskRow) (target : TaskState) (actor reason : string)
    (auth_session : VerifiedPrincipal) : P TaskRow :=
  _ ← lift_res (require_task_transition (t_state row) target);
  let version := t_version row in
  command_id ← new_uuid;
  _ ← append_event {|
    ea_aggregate_type := "task"; ea_aggregate_id := t_id row; ea_expected_version := version;
    ea_project_id := t_project_id row; ea_event_type := "task_state_changed"; ea_actor := actor;
    ea_command_id := command_id; ea_correlation_id := run_or_goal row;
    ea_policy_version := sc_policy_version self;
    ea_payload := [("from", JStr (value (t_state row))); ("target", JStr (value target));
                   ("reason", JStr reason)];
    ea_auth_context := []; ea_auth_session := Some auth_session;
    ea_command_authority := Some (sc_command_authority self); ea_command_owner := None;
    ea_run_id := t_run_id row; ea_task_id := Some (t_id row); ea_idempotency_key := None;
    ea_causation_id := None; ea_confidentiality := "internal"; ea_occurred_at := None |};
  now ← utc_now;
  _ ← update_task (task_with target (version + 1) now) (t_id row);
  mret (task_with target (version + 1) (t_updated_at row) row).

Definition promote_due_retries (project_id : string) (actor : VerifiedPrincipal) (lim : Z) : P Z :=
  actor_id ← _system_id actor;
  transaction (
    now ← sql_now;
    rows ← read (λ d, limit lim (order_by (lex by_due by_id)
             (select (queued d project_id T_RETRY_PENDING now) (tasks d))));
    _ ← forM rows (λ row,
          _ ← _transition row T_READY actor_id "retry backoff elapsed" actor; mret tt);
    mret (Z.of_nat (length rows))).

(** The first queued row with attempts left. *)
Definition claimable (t : TaskRow) : bool :=
  (t_attempt_count t <? ts_max_attempts (t_spec t)) && negb (bool_decide (t_run_id t = None)).

Definition _require_claim (claim : TaskClaim) : P unit :=
  now ← sql_now;
  row ← read (λ d, leases d !! tc_resource_key claim);
  _ ← ensure (match row with
              | Some l => bool_decide (l_task_id l = tc_task_id claim)
                          && bool_decide (l_holder l = tc_worker_id claim)
                          && (l_fence l =? tc_fence claim) && active_at now l
              | None => false
              end) LeaseError;
  attempt ← read (λ d, attempts d !! tc_attempt_id claim);
  ensure (match attempt with
          | Some a => bool_decide (a_task_id a = tc_task_id claim)
                      && bool_decide (a_worker_id a = tc_worker_id claim)
                      && bool_decide (a_ended_at a = None)
          | None => false
          end) LeaseError.

Definition _record_negative (task : TaskRow) (fingerprint failure_class severity repair_route : string)
    (now : Instant) : P string :=
  prior ← read (λ d, head (select (λ n, bool_decide
             ((n_project_id n, n_task_id n, n_fingerprint n) = (t_project_id task, t_id task, fingerprint)))
             (negatives d)));
  match prior with
  | Some n => _ ← write (set_negatives (alter (seen_again now) (n_id n))); mret (n_id n)
  | None =>
    failure_id ← new_uuid;
    run_id ← expect (t_run_id task) SqliteIntegrityError;
    _ ← insert_negative {| n_id := failure_id; n_project_id := t_project_id task; n_run_id := run_id;
          n_task_id := t_id task; n_fingerprint := fingerprint; n_failure_class := failure_class;
          n_severity := severity; n_repair_route := repair_route; n_first_seen := now;
          n_last_seen := now; n_recurrence := 1 |};
    mret failure_id
  end.

(** ** Claims *)

(** Claim one selected row: the lease, the attempt, the transition. *)
Definition claim_row (selected : TaskRow) (run_id project_id worker_id resource : string)
    (existing : option Lease) (worker : VerifiedPrincipal) (ttl_seconds : Z) : P TaskClaim :=
  let fence := match existing with Some l => l_fence l + 1 | None => 1 end in
  issued_at ← _now;
  expires_at ← _expires ttl_seconds;
  expires_at ← expect expires_at SqliteIntegrityError;
  _ ← put_lease existing
        (lease_row resource project_id (t_id selected) worker_id fence issued_at expires_at None);
  let attempt_number := t_attempt_count selected + 1 in
  attempt_id ← new_uuid;
  _ ← insert_attempt {| a_id := attempt_id; a_task_id := t_id selected; a_run_id := run_id;
        a_number := attempt_number; a_worker_id := worker_id; a_state := A_leased;
        a_started_at := issued_at; a_ended_at := None; a_failure_id := None |};
  updated ← _transition selected T_LEASED worker_id ("scheduler claim fence " +:+ pretty fence) worker;
  _ ← update_task (task_claimed attempt_number) (t_id updated);
  mret {| tc_task_id := t_id selected; tc_run_id := run_id; tc_attempt_id := attempt_id;
          tc_attempt_number := attempt_number; tc_worker_id := worker_id;
          tc_resource_key := resource; tc_fence := fence; tc_expires_at := expires_at |}.

(** [SELECT released_at IS NULL AND julianday(expires_at) > julianday('now')] *)
Definition still_leased (existing : option Lease) : P bool :=
  match existing with
  | Some l => now ← sql_now; mret (active_at now l)
  | None => mret false
  end.

Definition claim_next (project_id : string) (worker : VerifiedPrincipal) (ttl_seconds : Z)
    : P (option TaskClaim) :=
  worker_id ← _worker_id worker;
  _ ← ensure (1 <=? ttl_seconds) LeaseError;
  transaction (
    now ← sql_now;
    rows ← read (λ d, order_by (lex by_due (lex by_created by_id))
             (select (queued d project_id T_READY now) (tasks d)));
    match head (List.filter claimable rows) with
    | None => mret None
    | Some selected =>
      run_id ← expect (t_run_id selected) PyTypeError;
      let resource := _task_resource (t_id selected) in
      existing ← read (λ d, leases d !! resource);
      active ← still_leased existing;
      if active : bool then mret None
      else
        claim ← claim_row selected run_id project_id worker_id resource existing worker ttl_seconds;
        mret (Some claim)
    end).

(** The row that [SELECT * FROM tasks WHERE task_id = ?] fetches; subscripting
    [None] is a [TypeError]. *)
Definition task_row (task_id : string) : P TaskRow :=
  o ← read (λ d, tasks d !! task_id); expect o PyTypeError.

Definition owns (claim : TaskClaim) (worker : VerifiedPrincipal) : P string :=
  worker_id ← _worker_id worker;
  _ ← ensure (bool_decide (worker_id = tc_worker_id claim)) LeaseError;
  mret worker_id.

Definition is_attempt (claim : TaskClaim) (a : Attempt) : bool :=
  bool_decide (a_id a = tc_attempt_id claim).

Definition start (claim : TaskClaim) (worker : VerifiedPrincipal) : P unit :=
  _ ← owns claim worker;
  transaction (
    _ ← _require_claim claim;
    row ← task_row (tc_task_id claim);
    _ ← _require_executable_run row;
    _ ← _transition row T_RUNNING (tc_worker_id claim)
          ("attempt " +:+ pretty (tc_attempt_number claim) +:+ " started") worker;
    update_attempts (λ a, is_attempt claim a && bool_decide (a_state a = A_leased))
      (λ a, attempt_with A_running (a_ended_at a) (a_failure_id a) a)).

Definition complete (claim : TaskClaim) (worker : VerifiedPrincipal) : P unit :=
  _ ← owns claim worker;
  transaction (
    _ ← _require_claim claim;
    row ← task_row (tc_task_id claim);
    _ ← _transition row T_EVIDENCE_PENDING (tc_worker_id claim)
          ("attempt " +:+ pretty (tc_attempt_number claim) +:+ " completed; evidence pending") worker;
    now ← _now;
    _ ← update_attempts (is_attempt claim) (λ a, attempt_with A_succeeded (Some now) (a_failure_id a) a);
    release_lease (tc_resource_key claim) (tc_fence claim) now).

Definition fail (claim : TaskClaim) (worker : VerifiedPrincipal)
    (failure_class message severity repair_route : string) : P FailureOutcome :=
  worker_id ← owns claim worker;
  let fingerprint := content_hash (JObj [("failure_class", JStr failure_class);
                                         ("message", JStr message)]) in
  transaction (
    _ ← _require_claim claim;
    row ← task_row (tc_task_id claim);
    now ← _now;
    failure_id ← _record_negative row fingerprint failure_class severity repair_route now;
    row ← _transition row T_FAILED (tc_worker_id claim) failure_class worker;
    let circuit_open := ts_max_attempts (t_spec row) <=? t_attempt_count row in
    rr ← (if circuit_open then mret (row, None)
          else
            row ← _transition row T_RETRY_PENDING worker_id "bounded retry scheduled" worker;
            retry_due ← _retry_due (tc_attempt_number claim);
            mret (row, retry_due));
    let '(row, retry_due) := rr in
    _ ← update_task (task_failed retry_due fingerprint) (tc_task_id claim);
    _ ← update_attempts (is_attempt claim) (attempt_with A_failed (Some now) (Some failure_id));
    _ ← release_lease (tc_resource_key claim) (tc_fence claim) now;
    mret {| fo_task_id := tc_task_id claim; fo_attempt_id := tc_attempt_id claim;
            fo_state := t_state row; fo_retry_due_at := retry_due; fo_circuit_open := circuit_open;
            fo_fingerprint := fingerprint |}).

(** ** Abandoned work *)
Definition reap_row (actor_id : string) (actor : VerifiedPrincipal) (now : Instant) (row : TaskRow)
    : P unit :=
  let fingerprint := content_hash (JObj [("failure_class", JStr "WorkerLeaseExpired");
                                         ("task_id", JStr (t_id row))]) in
  failure_id ← _record_negative row fingerprint "WorkerLeaseExpired" "error" "scheduler_reclaim" now;
  let circuit_open := ts_max_attempts (t_spec row) <=? t_attempt_count row in
  row ← _transition row T_RETRY_PENDING actor_id
          (if bool_decide (t_state row = T_RUNNING) then "worker lease expired"
           else "worker lease expired before start") actor;
  due_at ← _retry_due (t_attempt_count row);
  rr ← (if circuit_open : bool then
          row ← _transition row T_FAILED actor_id "attempt limit exhausted" actor;
          mret (row, None)
        else mret (row, due_at));
  let '(row, due_at) := rr in
  _ ← update_task (task_failed due_at fingerprint) (t_id row);
  update_attempts (λ a, bool_decide (a_task_id a = t_id row) && bool_decide (a_ended_at a = None))
    (attempt_with A_abandoned (Some now) (Some failure_id)).

Definition reap_expired (project_id : string) (actor : VerifiedPrincipal) (lim : Z) : P Z :=
  actor_id ← _system_id actor;
  transaction (
    now ← sql_now;
    rows ← read (λ d, limit lim (order_by by_updated (select (abandoned d project_id now) (tasks d))));
    now ← _now;
    _ ← forM rows (reap_row actor_id actor now);
    mret (Z.of_nat (length rows))).
End scheduler.

(** ** What the helpers do *)
Section facts.
Context `{ENV : Env} (self : TaskScheduler).

(** [d'] is [d] after the events [es] were logged and the task [id] changed by [f]. *)
Definition changed (id : string) (f : TaskRow → TaskRow) (d : DB) : DB := set_tasks (alter f id) d.

(** An event of a task transition. *)
Record moved (row : TaskRow) (target : TaskState) (actor : string) (e : Event) : Prop := {
  mv_type : ev_aggregate_type e = "task"; mv_id : ev_aggregate_id e = t_id row;
  mv_version : ev_aggregate_version e = t_version row + 1; mv_actor : ev_actor e = actor;
  mv_payload : ∃ reason, ev_payload e = JObj [("from", JStr (value (t_state row)));
                 ("target", JStr (value target)); ("reason", JStr reason)] }.

Lemma transition_ok row target actor reason vp row' w w' :
  _transition self row target actor reason vp w = (Ok row', w') →
  target ∈ TASK_TRANSITIONS (t_state row) ∧ head_version (w_db w) "task" (t_id row) = t_version row ∧
  row' = task_with target (t_version row + 1) (t_updated_at row) row ∧
  ∃ e now, moved row target actor e ∧
    w_db w' = changed (t_id row) (task_with target (t_version row + 1) now) (logged [e] (w_db w)).
Proof.
  unfold _transition, update_task. intros Hrun. rinv.
  match goal with H : require_task_transition _ _ = _ |- _ => apply require_task_transition_ok in H end.
  match goal with H : append_event _ _ = _ |- _ =>
    apply append_event_ok in H as (auth & wa & _ & Ha & ->) end.
  destruct Ha. simpl in *. split_and!; try done.
  eexists _, _. split; [|done]. constructor; try done; [congruence|eauto].
Qed.

Lemma worker_ok vp i w w' : _worker_id vp w = (Ok i, w') →
  w_db w' = w_db w ∧ i = vp_principal_id vp ∧ live_as (w_db w) vp R_WORKER.
Proof.
  unfold _worker_id, require_role. intros Hrun. rinv.
  match goal with H : _verify_session _ _ _ = _ |- _ => pose proof H as Hl;
    apply verify_ok in H as (-> & s & p & _ & _ & _ & _ & Hi & _) end.
  split_and!; [done|done|by eapply verify_live].
Qed.

Lemma system_ok vp i w w' : _system_id vp w = (Ok i, w') →
  w_db w' = w_db w ∧ i = vp_principal_id vp ∧ live_as (w_db w) vp R_SYSTEM.
Proof.
  unfold _system_id, require_role. intros Hrun. rinv.
  match goal with H : _verify_session _ _ _ = _ |- _ => pose proof H as Hl;
    apply verify_ok in H as (-> & s & p & _ & _ & _ & _ & Hi & _) end.
  split_and!; [done|done|by eapply verify_live].
Qed.

Lemma owns_ok claim vp i w w' : owns claim vp w = (Ok i, w') →
  w_db w' = w_db w ∧ i = tc_worker_id claim ∧ i = vp_principal_id vp ∧ live_as (w_db w) vp R_WORKER.
Proof.
  unfold owns. intros Hrun. rinv. bsplit.
  match goal with H : _worker_id _ _ = _ |- _ => apply worker_ok in H as (? & ? & ?) end. done.
Qed.

(** The claim is the current, active lease of its worker and its attempt runs. *)
Definition holds (d : DB) (now : Instant) (c : TaskClaim) : Prop :=
  (∃ l, leases d !! tc_resource_key c = Some l ∧ l_task_id l = tc_task_id c ∧
        l_holder l = tc_worker_id c ∧ l_fence l = tc_fence c ∧ active_at now l = true) ∧
  (∃ a, attempts d !! tc_attempt_id c = Some a ∧ a_task_id a = tc_task_id c ∧
        a_worker_id a = tc_worker_id c ∧ a_ended_at a = None).

Lemma require_claim_ok c u w w' : _require_claim c w = (Ok u, w') →
  w' = tick w ∧ holds (w_db w) (sql_at (w_ticks w)) c.
Proof.
  unfold _require_claim. intros Hrun. rinv. simpl in *.
  destruct (leases (w_db w) !! _) as [l|] eqn:Hl; [|done].
  destruct (attempts (w_db w) !! _) as [a|] eqn:Ha; [|done]. bsplit.
  split; [done|]. split; [exists l|exists a]; done.
Qed.

Lemma task_row_ok id t w w' : task_row id w = (Ok t, w') → w' = w ∧ tasks (w_db w) !! id = Some t.
Proof. unfold task_row. intros Hrun. rinv. done. Qed.

(** Recording a failure touches [negative_results] only. *)
Lemma record_negative_ok row fp cls sev route now i w w' :
  _record_negative row fp cls sev route now w = (Ok i, w') →
  ∃ f, w_db w' = set_negatives f (w_db w).
Proof.
  unfold _record_negative, insert_negative. intros Hrun. rinv.
  destruct (head _); rinv; eexists; done.
Qed.

Lemma insert_attempt_ok a u w w' : insert_attempt a w = (Ok u, w') →
  w' = set_db (set_attempts <[a_id a := a]>) w ∧ attempts (w_db w) !! a_id a = None ∧
  0 < a_number a ∧
  (∀ k b, attempts (w_db w) !! k = Some b → (a_task_id b, a_number b) ≠ (a_task_id a, a_number a)).
Proof.
  unfold insert_attempt. intros Hrun. rinv. bsplit. split_and!; [done|by apply absent_true|done|].
  intros k b Hb He.
  match goal with H : map_any _ _ = false |- _ => pose proof (proj1 (map_any_false _ _) H k b Hb) as Hf end.
  by apply bool_decide_eq_false in Hf.
Qed.
End facts.

(** Invert the calls of the scheduler's helpers. *)
Ltac schedinv := unfold _now in *; leaseinv; repeat match goal with
  | H : _worker_id _ _ = _ |- _ =>
    let Hdb := fresh "Hdb" in let Hl := fresh "Hlive" in apply worker_ok in H as (Hdb & -> & Hl)
  | H : _system_id _ _ = _ |- _ =>
    let Hdb := fresh "Hdb" in let Hl := fresh "Hlive" in apply system_ok in H as (Hdb & -> & Hl)
  | H : owns _ _ _ = _ |- _ =>
    let Hdb := fresh "Hdb" in let Hl := fresh "Hlive" in let Hw := fresh "Hw" in
    apply owns_ok in H as (Hdb & -> & Hw & Hl)
  | H : _require_claim _ _ = _ |- _ =>
    let Hh := fresh "Hholds" in apply require_claim_ok in H as [-> Hh]
  | H : task_row _ _ = _ |- _ => let Ht := fresh "Ht" in apply task_row_ok in H as [-> Ht]
  | H : insert_attempt _ _ = _ |- _ => apply insert_attempt_ok in H as (-> & ? & ? & ?)
  | H : update_task _ _ _ = _ |- _ => unfold update_task in H; rinv
  | H : update_attempts _ _ _ = _ |- _ => unfold update_attempts in H; rinv
  | H : release_lease _ _ _ _ = _ |- _ => unfold release_lease in H; rinv
  end.

(** ** Sequences of calls *)
Inductive SchedOp :=
  | SoPromote (project : string) (actor : VerifiedPrincipal) (lim : Z)
  | SoClaim (project : string) (worker : VerifiedPrincipal) (ttl : Z)
  | SoStart (claim : TaskClaim) (worker : VerifiedPrincipal)
  | SoComplete (claim : TaskClaim) (worker : VerifiedPrincipal)
  | SoFail (claim : TaskClaim) (worker : VerifiedPrincipal)
      (failure_class message severity repair_route : string)
  | SoReap (project : string) (actor : VerifiedPrincipal) (lim : Z)
  | SoLease (policy_version : string) (op : LeaseOp).

Section sequences.
Context `{ENV : Env} (self : TaskScheduler).

Definition run_sched_op (op : SchedOp) : P unit :=
  match op with
  | SoPromote p a n => ignore (promote_due_retries self p a n)
  | SoClaim p w t => ignore (claim_next self p w t)
  | SoStart c w => start self c w
  | SoComplete c w => complete self c w
  | SoFail c w f m s r => ignore (fail self c w f m s r)
  | SoReap p a n => ignore (reap_expired self p a n)
  | SoLease pv op => run_lease_op pv op
  end.

Fixpoint run_sched_ops (ops : list SchedOp) (w : World) : World :=
  match ops with [] => w | op :: ops => run_sched_ops ops (run_sched_op op w).2 end.

Lemma run_sched_ops_keeps I ops w :
  (∀ op, keeps I (run_sched_op op)) → I (w_db w) → I (w_db (run_sched_ops ops w)).
Proof.
  intros HI. revert w. induction ops as [|op ops IH]; intros w Hw; [done|]. simpl. apply IH.
  destruct (run_sched_op op w) as [r w'] eqn:Hrun. by eapply HI.
Qed.

(** Reading a role leaves the tables alone. *)
Lemma pure_require_role vp r : pure_db (require_role vp r).
Proof.
  apply pure_transaction. unfold _verify_session.
  repeat first [apply pure_ensure | by intros w | apply pure_bind; [|intros ?] | case_match].
Qed.
Lemma pure_worker vp : pure_db (_worker_id vp).
Proof. apply pure_bind; [apply pure_require_role|done]. Qed.
Lemma pure_system vp : pure_db (_system_id vp).
Proof. apply pure_bind; [apply pure_require_role|done]. Qed.
Lemma pure_owns c vp : pure_db (owns c vp).
Proof.
  apply pure_bind; [apply pure_worker|intros ?]. apply pure_bind; [apply pure_ensure|by intros ? ?].
Qed.

(** A call of the scheduler or the lease manager that raises changes no table. *)
Lemma run_sched_op_atomic op : atomic (run_sched_op op).
Proof.
  pose proof pure_worker. pose proof pure_system. pose proof pure_owns.
  destruct op; unfold run_sched_op, ignore; try apply (atomic_then _ (λ _, tt));
    try apply run_lease_op_atomic;
    unfold promote_due_retries, claim_next, start, complete, fail, reap_expired;
    apply atomic_bind; auto; intros ?; atomic_walk.
Qed.

(** ** Versions of tasks *)

(** The row of every task carries the version of its last event. *)
Definition versions_agree (d : DB) : Prop :=
  ∀ k t, tasks d !! k = Some t → t_version t = head_version d "task" k.

Lemma foldr_max_snoc l x : foldr Z.max 0 (l ++ [x]) = Z.max (foldr Z.max 0 l) (Z.max x 0).
Proof. induction l as [|y l IH]; simpl; [lia|]. rewrite IH. lia. Qed.

Lemma head_version_logged d e ty id :
  head_version (logged [e] d) ty id =
  if of_aggregate ty id e then Z.max (head_version d ty id) (Z.max (ev_aggregate_version e) 0)
  else head_version d ty id.
Proof.
  unfold head_version, logged, of_aggregate. simpl. rewrite List.filter_app, fmap_app. simpl.
  destruct (_ && _); simpl; [apply foldr_max_snoc|by rewrite app_nil_r].
Qed.

Lemma head_version_nonneg d ty id : 0 ≤ head_version d ty id.
Proof. unfold head_version. induction (_ <$> _); simpl; lia. Qed.

Lemma transition_versions row target actor reason vp :
  keeps versions_agree (_transition self row target actor reason vp).
Proof.
  apply keeps_of_atomic.
  - unfold _transition, update_task. do 2 (apply atomic_bind; [by intros ?|intros ?]).
    apply atomic_then_total; [apply append_event_atomic|]. intros. by eexists _, _.
  - intros w row' w' Hrun Hi.
    apply transition_ok in Hrun as (_ & Hv & _ & e & now & Hm & Hdb). destruct Hm as [Hty Hid Hver _ _].
    rewrite Hdb. intros k t. unfold changed. simpl. rewrite lookup_alter_Some.
    change (head_version (set_tasks _ ?d) ?ty ?id) with (head_version d ty id).
    rewrite head_version_logged. unfold of_aggregate. rewrite Hty, Hid.
    pose proof (head_version_nonneg (w_db w) "task" (t_id row)).
    intros [(<- & t0 & Ht0 & ->)|[Hne Ht]]; simpl.
    + rewrite bool_decide_eq_true_2 by done. lia.
    + rewrite bool_decide_eq_false_2 by done. by apply Hi.
Qed.

(** Writes to the other tables. *)
Lemma versions_same d d' : tasks d' = tasks d → events d' = events d → versions_agree d → versions_agree d'.
Proof. intros Ht He Hi k t. unfold head_version. rewrite Ht, He. apply Hi. Qed.

Lemma update_task_versions f id : (∀ t, t_version (f t) = t_version t) → keeps versions_agree (update_task f id).
Proof.
  intros Hf. apply keeps_write. intros d Hi k t. simpl. rewrite lookup_alter_Some.
  intros [(<- & t0 & Ht0 & ->)|[_ Ht]]; [rewrite Hf|]; by apply Hi.
Qed.

Lemma append_versions a : ea_aggregate_type a ≠ "task" → keeps versions_agree (append_event a).
Proof.
  intros Hty. apply keeps_of_atomic; [apply append_event_atomic|]. intros w e w' Hrun Hi.
  apply append_event_ok in Hrun as (auth & wa & _ & Ha & ->). intros k t Ht.
  change (w_db (append_world w wa e)) with (logged [e] (w_db w)). rewrite head_version_logged.
  unfold of_aggregate. rewrite (ap_type _ _ _ _ _ Ha), bool_decide_eq_false_2 by done. by apply Hi.
Qed.

Lemma identity_versions op : keeps versions_agree (run_op op).
Proof.
  apply run_op_keeps. constructor; intros;
    first [by apply keeps_constraint_write | by apply keeps_write].
Qed.

Lemma lease_op_versions pv op : keeps versions_agree (run_lease_op pv op).
Proof.
  destruct op; [| | | |apply identity_versions]; unfold run_lease_op, ignore, acquire, renew, release,
    require_current_fence, take, put_lease, _append_audit, _holder_id, verify_in_transaction,
    _require_match, _is_active, _assert_task_scope, _expires, _now; keeps_walk;
  first [ apply keeps_verify | by apply keeps_constraint_write | by apply append_versions ].
Qed.

Lemma record_negative_versions row fp cls sev route now :
  keeps versions_agree (_record_negative row fp cls sev route now).
Proof.
  unfold _record_negative. keeps_walk; first [by apply keeps_write|by apply keeps_constraint_write].
Qed.


Lemma run_sched_op_versions op : keeps versions_agree (run_sched_op op).
Proof.
  pose proof transition_versions. pose proof record_negative_versions. pose proof lease_op_versions.
  assert (∀ vp, keeps versions_agree (_worker_id vp)) by (intros; apply keeps_pure, pure_worker).
  assert (∀ vp, keeps versions_agree (_system_id vp)) by (intros; apply keeps_pure, pure_system).
  assert (∀ c vp, keeps versions_agree (owns c vp)) by (intros; apply keeps_pure, pure_owns).
  destruct op; unfold run_sched_op, ignore, promote_due_retries, claim_next, still_leased, claim_row, put_lease,
    start, complete, fail, reap_expired, reap_row, task_row, _require_claim, _require_executable_run,
    _retry_due, _expires, _now; keeps_walk; auto;
  first [ by apply update_task_versions | by apply keeps_write | by apply keeps_constraint_write ].
Qed.

(** The version of every task stays the version of its last event through
    any sequence of scheduler, lease and identity calls. *)
Theorem task_versions_follow_events ops w :
  versions_agree (w_db w) → versions_agree (w_db (run_sched_ops ops w)).
Proof. apply run_sched_ops_keeps, run_sched_op_versions. Qed.
End sequences.

(** ** The effect of each call *)
Section effects.
Context `{ENV : Env} (self : TaskScheduler).

(** A new attempt, as [claim_next] inserts it. *)
Definition attempt_of (c : TaskClaim) (started : Instant) : Attempt := {|
  a_id := tc_attempt_id c; a_task_id := tc_task_id c; a_run_id := tc_run_id c;
  a_number := tc_attempt_number c; a_worker_id := tc_worker_id c; a_state := A_leased;
  a_started_at := started; a_ended_at := None; a_failure_id := None |}.
Definition lease_of (c : TaskClaim) (project : string) (issued : Instant) : Lease :=
  lease_row (tc_resource_key c) project (tc_task_id c) (tc_worker_id c) (tc_fence c) issued
    (tc_expires_at c) None.

Record claimed (d d' : DB) (project worker : string) (ttl : Z) (t : TaskRow) (c : TaskClaim) : Prop := {
  cl_claim : tc_task_id c = t_id t ∧ t_run_id t = Some (tc_run_id c) ∧ tc_worker_id c = worker ∧
             tc_resource_key c = _task_resource (t_id t) ∧ tc_attempt_number c = t_attempt_count t + 1;
  cl_fence : tc_fence c = match leases d !! tc_resource_key c with Some l => l_fence l + 1 | None => 1 end;
  cl_expiry : ∃ n, tc_expires_at c = sql_at n + ttl * 1000000;
  cl_ready : T_LEASED ∈ TASK_TRANSITIONS (t_state t) ∧ t_version t = head_version d "task" (t_id t);
  cl_new : attempts d !! tc_attempt_id c = None ∧ 0 < tc_attempt_number c ∧
           ∀ k b, attempts d !! k = Some b → (a_task_id b, a_number b) ≠ (t_id t, t_attempt_count t + 1);
  cl_db : ∃ issued now e, moved t T_LEASED worker e ∧
    leases d' = <[tc_resource_key c := lease_of c project issued]> (leases d) ∧
    attempts d' = <[tc_attempt_id c := attempt_of c issued]> (attempts d) ∧
    tasks d' = alter (λ t0, task_claimed (tc_attempt_number c)
                             (task_with T_LEASED (t_version t + 1) now t0)) (t_id t) (tasks d) ∧
    events d' = events d ++ [e] }.

Lemma alter_alter {A} (f g : A → A) k (m : gmap string A) :
  alter f k (alter g k m) = alter (λ x, f (g x)) k m.
Proof.
  apply map_eq. intros j. destruct (decide (k = j)) as [<-|].
  - rewrite !lookup_alter_eq. by destruct (m !! k).
  - by rewrite !lookup_alter_ne.
Qed.

Lemma claim_row_ok t run project i resource vp ttl c w w' :
  claim_row self t run project i resource (leases (w_db w) !! resource) vp ttl w = (Ok c, w') →
  t_run_id t = Some run → resource = _task_resource (t_id t) →
  claimed (w_db w) (w_db w') project i ttl t c.
Proof.
  unfold claim_row. intros Hrun Hr ->. schedinv. simpl in *.
  match goal with H : _transition _ _ _ _ _ _ _ = _ |- _ =>
    apply transition_ok in H as (Htr & Hv & -> & e & now & Hm & Hdb) end.
  simpl in *. rewrite Hdb. constructor; simpl; try done; [eauto|].
  eexists _, _, e. split_and!; try done. by rewrite alter_alter.
Qed.

Lemma still_leased_ok o b w w' :
  still_leased o w = (Ok b, w') →
  w_db w' = w_db w ∧ (b = false → ∀ l, o = Some l → ∃ n, active_at (sql_at n) l = false).
Proof.
  destruct o as [l|]; simpl; intros Hrun; rinv; [|done].
  split; [done|]. intros Hb l' [= <-]. by exists (w_ticks w).
Qed.

(** What a successful claim from [w] to [w'] did. *)
Definition claim_effect (project : string) (vp : VerifiedPrincipal) (ttl : Z) (c : TaskClaim)
    (w w' : World) : Prop :=
  live_as (w_db w) vp R_WORKER ∧ 1 ≤ ttl ∧
  ∃ k t n, tasks (w_db w) !! k = Some t ∧ t_state t = T_READY ∧ t_project_id t = project ∧
    t_attempt_count t < ts_max_attempts (t_spec t) ∧ due (sql_at n) t = true ∧
    (∀ l, leases (w_db w) !! tc_resource_key c = Some l → ∃ n', active_at (sql_at n') l = false) ∧
    claimed (w_db w) (w_db w') project (vp_principal_id vp) ttl t c.

Lemma claim_facts project vp ttl c w w' :
  claim_next self project vp ttl w = (Ok (Some c), w') → claim_effect project vp ttl c w w'.
Proof.
  unfold claim_next, claim_effect. intros Hrun. schedinv. bsplit. rewrite <- Hdb in *. split; [done|]. split; [done|].
  destruct (head _) as [t|] eqn:Hh; [|by rinv]. schedinv.
  apply head_elem, list_elem_of_In, filter_In in Hh as [Hin Hcl].
  apply list_elem_of_In, elem_of_order_by, elem_of_select in Hin as [[k Hk] Hq].
  unfold queued, claimable in *. bsplit.
  match type of Hrun with (if ?b then _ else _) _ = _ => destruct b; rinv; [discriminate|] end.
  match goal with H : still_leased _ _ = _ |- _ => apply still_leased_ok in H as [Hdb2 Hfree] end.
  simplify_eq. simpl in *. rewrite <- Hdb2 in *.
  match goal with H : claim_row _ _ _ _ _ _ _ _ _ _ = _ |- _ =>
    pose proof (claim_row_ok _ _ _ _ _ _ _ _ _ _ H ltac:(done) eq_refl) as Hc end.
  exists k, t, (w_ticks x0). split_and!; try done.
  intros l. destruct (cl_claim _ _ _ _ _ _ _ Hc) as (_ & _ & _ & -> & _). by apply Hfree.
Qed.

(** A claim goes to a live worker, for a task of the project that is ready and
    due, whose run is executable and which has attempts left, and whose lease
    is not active.  It takes the next fence and the next attempt number, adds a
    running attempt and one event, and leaves the task leased. *)
Theorem claim_next_grants project vp ttl c w w' :
  claim_next self project vp ttl w = (Ok (Some c), w') → claim_effect project vp ttl c w w'.
Proof. apply claim_facts. Qed.
End effects.

(** ** The life of a task: specification

    What the scheduler promises, as a step relation on the tables of tasks and
    attempts. *)
Definition busy (s : TaskState) : Prop := s = T_LEASED ∨ s = T_RUNNING.
Definition same_task (t t' : TaskRow) : Prop :=
  t_id t' = t_id t ∧ t_goal_id t' = t_goal_id t ∧ t_run_id t' = t_run_id t ∧
  t_project_id t' = t_project_id t ∧ t_spec t' = t_spec t.
Definition max_attempts (t : TaskRow) : Z := ts_max_attempts (t_spec t).

(** No attempt appears or disappears, none changes its identity, and none that
    has ended is opened again. *)
Definition attempts_evolve (m m' : gmap string Attempt) : Prop :=
  (∀ k, m !! k = None → m' !! k = None) ∧
  (∀ k a, m !! k = Some a → ∃ a', m' !! k = Some a' ∧ a_id a' = a_id a ∧
     a_task_id a' = a_task_id a ∧ a_number a' = a_number a ∧ a_worker_id a' = a_worker_id a ∧
     (a_ended_at a ≠ None → a_ended_at a' ≠ None)).

(** How a running attempt may end. *)
Definition outcome (t t' : TaskRow) : Prop :=
  t_state t = T_RUNNING ∧ t_state t' = T_EVIDENCE_PENDING ∨
  busy (t_state t) ∧ t_state t' = T_RETRY_PENDING ∧ t_attempt_count t < max_attempts t ∨
  busy (t_state t) ∧ t_state t' = T_FAILED ∧ max_attempts t ≤ t_attempt_count t.

Record task_moves (d d' : DB) (id : string) (t t' : TaskRow) : Prop := {
  tm_from : tasks d !! id = Some t;
  tm_to : tasks d' = <[id := t']> (tasks d);
  tm_same : same_task t t' }.

Inductive sched_step (d d' : DB) : Prop :=
  | step_claim id t t' a :
      task_moves d d' id t t' → t_state t = T_READY → t_state t' = T_LEASED →
      t_attempt_count t < max_attempts t → t_attempt_count t' = t_attempt_count t + 1 →
      attempts d !! a_id a = None → attempts d' = <[a_id a := a]> (attempts d) →
      a_task_id a = id → a_number a = t_attempt_count t' → a_ended_at a = None → sched_step d d'
  | step_start id t t' :
      task_moves d d' id t t' → t_state t = T_LEASED → t_state t' = T_RUNNING →
      t_attempt_count t' = t_attempt_count t → attempts_evolve (attempts d) (attempts d') →
      sched_step d d'
  | step_promote id t t' :
      task_moves d d' id t t' → t_state t = T_RETRY_PENDING → t_state t' = T_READY →
      t_attempt_count t' = t_attempt_count t → attempts d' = attempts d → sched_step d d'
  | step_end id t t' :
      task_moves d d' id t t' → outcome t t' → t_attempt_count t' = t_attempt_count t →
      attempts_evolve (attempts d) (attempts d') →
      (∀ k a, attempts d' !! k = Some a → a_task_id a = id → a_ended_at a ≠ None) → sched_step d d'
  | step_other : tasks d' = tasks d → attempts d' = attempts d → sched_step d d'.

Record sched_inv (d : DB) : Prop := {
  si_tasks : ∀ k t, tasks d !! k = Some t → t_id t = k;
  si_attempts : ∀ k a, attempts d !! k = Some a → a_id a = k;
  si_count : ∀ k t, tasks d !! k = Some t → 0 ≤ t_attempt_count t ≤ max_attempts t;
  si_number : ∀ k a, attempts d !! k = Some a →
    ∃ t, tasks d !! a_task_id a = Some t ∧ 1 ≤ a_number a ≤ t_attempt_count t;
  si_unique : ∀ k k' a a', attempts d !! k = Some a → attempts d !! k' = Some a' →
    a_task_id a = a_task_id a' → a_number a = a_number a' → k = k';
  si_complete : ∀ k t n, tasks d !! k = Some t → 1 ≤ n ≤ t_attempt_count t →
    ∃ i a, attempts d !! i = Some a ∧ a_task_id a = k ∧ a_number a = n;
  si_open : ∀ k a, attempts d !! k = Some a → a_ended_at a = None →
    ∃ t, tasks d !! a_task_id a = Some t ∧ busy (t_state t) ∧ a_number a = t_attempt_count t }.

Section spec.
Implicit Types d : DB.

Lemma evolve_back m m' k a' :
  attempts_evolve m m' → m' !! k = Some a' → ∃ a, m !! k = Some a ∧ a_id a' = a_id a ∧
    a_task_id a' = a_task_id a ∧ a_number a' = a_number a ∧ (a_ended_at a' = None → a_ended_at a = None).
Proof.
  intros [Hn Hs] Ha'. destruct (m !! k) as [a|] eqn:Ha; [|by rewrite (Hn k Ha) in Ha'].
  destruct (Hs k a Ha) as (a1 & Ha1 & Hi & Ht & Hnum & _ & He). exists a.
  assert (a1 = a') as -> by congruence. split_and!; try done. intros Hend.
  destruct (a_ended_at a); [|done]. by destruct He.
Qed.

Lemma evolve_refl m : attempts_evolve m m.
Proof. split; [done|]. intros k a Ha. exists a. split_and!; done. Qed.

(** A move that keeps the attempt count. *)
Lemma move_keeps_inv d d' id t t' :
  sched_inv d → task_moves d d' id t t' → t_attempt_count t' = t_attempt_count t →
  attempts_evolve (attempts d) (attempts d') →
  (∀ k a, attempts d' !! k = Some a → a_task_id a = id → a_ended_at a = None → busy (t_state t')) →
  sched_inv d'.
Proof.
  intros [] [Hfrom Hto (Hid & _ & _ & _ & Hspec)] Hc Hev Hopen. constructor; try rewrite Hto.
  - intros k t0 [[<- <-]|[_ Ht]]%lookup_insert_Some; [rewrite Hid|]; auto.
  - intros k a' Ha'. destruct (evolve_back _ _ _ _ Hev Ha') as (a & Ha & -> & _). auto.
  - intros k t0 [[<- <-]|[_ Ht]]%lookup_insert_Some; [|eauto].
    unfold max_attempts. rewrite Hspec, Hc. eauto.
  - intros k a' Ha'. destruct (evolve_back _ _ _ _ Hev Ha') as (a & Ha & _ & -> & -> & _).
    destruct (si_number0 k a Ha) as (t0 & Ht0 & Hn). destruct (decide (id = a_task_id a)) as [->|].
    + exists t'. rewrite lookup_insert_eq, Hc. assert (t0 = t) as -> by congruence. done.
    + exists t0. by rewrite lookup_insert_ne.
  - intros k k' a a' Ha Ha' Ht Hn.
    destruct (evolve_back _ _ _ _ Hev Ha) as (b & Hb & _ & Hbt & Hbn & _).
    destruct (evolve_back _ _ _ _ Hev Ha') as (b' & Hb' & _ & Hbt' & Hbn' & _).
    eapply si_unique0; [exact Hb|exact Hb'|congruence..].
  - intros k t0 n Ht0 Hn. assert (∃ t1, tasks d !! k = Some t1 ∧ t_attempt_count t1 = t_attempt_count t0)
      as (t1 & Ht1 & He) by (apply lookup_insert_Some in Ht0 as [[<- <-]|[_ Ht0]]; eauto).
    rewrite <- He in Hn. destruct (si_complete0 k t1 n Ht1 Hn) as (i & a & Ha & Hat & Han).
    destruct (proj2 Hev i a Ha) as (a' & Ha' & _ & Hat' & Han' & _). exists i, a'. by rewrite Hat', Han'.
  - intros k a' Ha' He. destruct (evolve_back _ _ _ _ Hev Ha') as (a & Ha & _ & Hat & Han & Hae).
    destruct (si_open0 k a Ha (Hae He)) as (t0 & Ht0 & Hb & Hn). rewrite Hat, Han.
    destruct (decide (id = a_task_id a)) as [->|].
    + exists t'. rewrite lookup_insert_eq, Hc. assert (t0 = t) as -> by congruence.
      split_and!; [done| |done]. by eapply Hopen.
    + exists t0. by rewrite lookup_insert_ne.
Qed.

Lemma claim_keeps_inv d d' id t t' a :
  sched_inv d → task_moves d d' id t t' → t_state t = T_READY → t_state t' = T_LEASED →
  t_attempt_count t < max_attempts t → t_attempt_count t' = t_attempt_count t + 1 →
  attempts d !! a_id a = None → attempts d' = <[a_id a := a]> (attempts d) →
  a_task_id a = id → a_number a = t_attempt_count t' → a_ended_at a = None → sched_inv d'.
Proof.
  intros [] [Hfrom Hto (Hid & _ & _ & _ & Hspec)] Hr Hl Hlt Hc Hnew Hatt Hat Han Hae.
  assert (∀ k b, attempts d !! k = Some b → a_task_id b = id → a_number b ≤ t_attempt_count t) as Hmax.
  { intros k b Hb Hbt. destruct (si_number0 k b Hb) as (t0 & Ht0 & Hn). rewrite Hbt in Ht0.
    assert (t0 = t) as -> by congruence. lia. }
  constructor; rewrite ?Hto, ?Hatt.
  - intros k t0 [[<- <-]|[_ Ht]]%lookup_insert_Some; [rewrite Hid|]; auto.
  - intros k b [[<- <-]|[_ Hb]]%lookup_insert_Some; auto.
  - intros k t0 [[<- <-]|[_ Ht]]%lookup_insert_Some; [|eauto].
    pose proof (si_count0 id t Hfrom). unfold max_attempts in *. rewrite Hspec, Hc. lia.
  - intros k b [[<- <-]|[_ Hb]]%lookup_insert_Some.
    + exists t'. rewrite Hat, lookup_insert_eq, Han, Hc. pose proof (si_count0 id t Hfrom). split; [done|lia].
    + destruct (si_number0 k b Hb) as (t0 & Ht0 & Hn). destruct (decide (id = a_task_id b)) as [->|].
      * exists t'. rewrite lookup_insert_eq, Hc. assert (t0 = t) as -> by congruence. split; [done|lia].
      * exists t0. by rewrite lookup_insert_ne.
  - intros k k' b b' [[<- <-]|[_ Hb]]%lookup_insert_Some [[<- <-]|[_ Hb']]%lookup_insert_Some Ht Hn.
    + done.
    + exfalso. pose proof (Hmax k' b' Hb'). rewrite <- Ht in *. specialize (H Hat). lia.
    + exfalso. pose proof (Hmax k b Hb). rewrite Ht in *. specialize (H Hat). lia.
    + by eapply si_unique0.
  - intros k t0 n Ht0 Hn. apply lookup_insert_Some in Ht0 as [[<- <-]|[Hne Ht0]].
    + destruct (decide (n = t_attempt_count t')) as [->|].
      * exists (a_id a), a. by rewrite lookup_insert_eq.
      * destruct (si_complete0 id t n Hfrom) as (i & b & Hb & Hbt & Hbn); [lia|]. exists i, b.
        rewrite lookup_insert_ne; [done|]. intros He. congruence.
    + destruct (si_complete0 k t0 n Ht0 Hn) as (i & b & Hb & Hbt & Hbn). exists i, b.
      rewrite lookup_insert_ne; [done|]. intros He. congruence.
  - intros k b [[<- <-]|[_ Hb]]%lookup_insert_Some He.
    + exists t'. rewrite Hat, lookup_insert_eq. split_and!; [done|by left|done].
    + destruct (si_open0 k b Hb He) as (t0 & Ht0 & Hbusy & Hn).
      exists t0. rewrite lookup_insert_ne; [done|]. intros Hid'. rewrite <- Hid' in Ht0.
      assert (t0 = t) as -> by congruence. rewrite Hr in Hbusy. by destruct Hbusy.
Qed.

Lemma step_keeps_inv d d' : sched_step d d' → sched_inv d → sched_inv d'.
Proof.
  intros [] Hinv.
  - by eapply claim_keeps_inv.
  - eapply move_keeps_inv; eauto. intros. by right.
  - eapply move_keeps_inv; eauto; [rewrite H3; apply evolve_refl|].
    intros k a Ha Hat He. rewrite H3 in Ha. destruct (si_open _ Hinv k a Ha He) as (t0 & Ht0 & Hb & _).
    rewrite Hat, (tm_from _ _ _ _ _ H) in Ht0. injection Ht0 as <-. rewrite H0 in Hb. by destruct Hb.
  - eapply move_keeps_inv; eauto. intros k a Ha Hat He. by destruct (H3 k a Ha Hat).
  - destruct Hinv. constructor; rewrite ?H, ?H0; done.
Qed.

Lemma steps_keep_inv d d' : rtc sched_step d d' → sched_inv d → sched_inv d'.
Proof. induction 1; eauto using step_keeps_inv. Qed.
End spec.

(** ** The scheduler implements the specification *)

(** The state machine has no such transition. *)
Ltac no_route H := apply memb_true in H; vm_compute in H; discriminate H.

Section refinement.
Context `{ENV : Env} (self : TaskScheduler).

Lemma alter_known {A} (f : A → A) k (m : gmap string A) x :
  m !! k = Some x → alter f k m = <[k := f x]> m.
Proof.
  intros Hk. apply map_eq. intros j. destruct (decide (k = j)) as [<-|].
  - by rewrite lookup_alter_eq, Hk, lookup_insert_eq.
  - by rewrite lookup_alter_ne, lookup_insert_ne.
Qed.

(** A write to [attempts] that keeps the identities and reopens nothing. *)
Lemma update_where_evolves f g m :
  (∀ a, a_id (g a) = a_id a ∧ a_task_id (g a) = a_task_id a ∧ a_number (g a) = a_number a ∧
        a_worker_id (g a) = a_worker_id a ∧ (a_ended_at a ≠ None → a_ended_at (g a) ≠ None)) →
  attempts_evolve m (update_where f g m).
Proof.
  intros Hg. split; intros k; rewrite lookup_update_where; [by intros ->|].
  intros a Ha. rewrite Ha. simpl. destruct (f a); eexists; split; try done; apply Hg.
Qed.

Lemma attempt_with_evolves s now failure f m :
  attempts_evolve m (update_where f (attempt_with s (Some now) failure) m).
Proof. by apply update_where_evolves. Qed.
Lemma attempt_ends_evolves s now (failure : Attempt → option string) f m :
  attempts_evolve m (update_where f (λ a, attempt_with s (Some now) (failure a) a) m).
Proof. by apply update_where_evolves. Qed.

(** Ending the attempt that a claim holds ends the only open one of the task. *)
Lemma only_open d c now g :
  sched_inv d → holds d now c → (∀ a, a_ended_at (g a) ≠ None) → (∀ a, a_task_id (g a) = a_task_id a) →
  ∀ k a, update_where (is_attempt c) g (attempts d) !! k = Some a → a_task_id a = tc_task_id c →
  a_ended_at a ≠ None.
Proof.
  intros Hinv (_ & a0 & Ha0 & Hat0 & _ & Hae0) Hg Hgt k a Ha Hat. rewrite lookup_update_where in Ha.
  destruct (attempts d !! k) as [b|] eqn:Hb; [|done]. simpl in Ha. injection Ha as <-.
  unfold is_attempt in *. case_bool_decide as Hid; [apply Hg|]. intros He. apply Hid.
  rewrite (si_attempts _ Hinv k b Hb).
  destruct (si_open _ Hinv k b Hb He) as (t & Ht & _ & Hn).
  destruct (si_open _ Hinv _ a0 Ha0 Hae0) as (t0 & Ht0 & _ & Hn0).
  apply (si_unique _ Hinv _ _ b a0 Hb Ha0); [congruence|].
  rewrite Hat in Ht. rewrite Hat0 in Ht0. congruence.
Qed.

Lemma holds_busy d c now t :
  sched_inv d → holds d now c → tasks d !! tc_task_id c = Some t → busy (t_state t).
Proof.
  intros Hinv (_ & a & Ha & Hat & _ & Hae) Ht. destruct (si_open _ Hinv _ a Ha Hae) as (t' & Ht' & Hb & _).
  rewrite Hat in Ht'. congruence.
Qed.

(** The move of the task that a transition, and what follows it, makes. *)
Lemma moves_of d d' k t (f : TaskRow → TaskRow) :
  tasks d !! k = Some t → tasks d' = alter f k (tasks d) → same_task t (f t) →
  task_moves d d' k t (f t).
Proof. intros Ht Hd Hs. constructor; [done| |done]. by rewrite Hd, (alter_known _ _ _ t). Qed.

Lemma start_step c vp u w w' :
  start self c vp w = (Ok u, w') → sched_inv (w_db w) → sched_step (w_db w) (w_db w').
Proof.
  unfold start. intros Hrun Hinv. schedinv. simpl in *. rewrite <- Hdb in *.
  match goal with H : _transition _ _ _ _ _ _ _ = _ |- _ =>
    apply transition_ok in H as (Htr & Hv & -> & e & now & Hm & Hdb2) end.
  match goal with H : _require_executable_run _ _ = _ |- _ => unfold _require_executable_run in H; rinv end.
  simpl in *. rewrite Hdb2. pose proof (si_tasks _ Hinv _ _ Ht) as Hid. rewrite Hid in *.
  eapply (step_start _ _ (tc_task_id c)).
  - by eapply moves_of.
  - destruct (holds_busy _ _ _ _ Hinv Hholds Ht) as [->|Hs]; [done|]. rewrite Hs in Htr.
    no_route Htr.
  - done.
  - done.
  - by apply update_where_evolves.
Qed.

Lemma complete_step c vp u w w' :
  complete self c vp w = (Ok u, w') → sched_inv (w_db w) → sched_step (w_db w) (w_db w').
Proof.
  unfold complete. intros Hrun Hinv. schedinv. simpl in *. rewrite <- Hdb in *.
  match goal with H : _transition _ _ _ _ _ _ _ = _ |- _ =>
    apply transition_ok in H as (Htr & Hv & -> & e & now & Hm & Hdb2) end.
  simpl in *. rewrite Hdb2. pose proof (si_tasks _ Hinv _ _ Ht) as Hid. rewrite Hid in *.
  eapply (step_end _ _ (tc_task_id c)).
  - by eapply moves_of.
  - left. destruct (holds_busy _ _ _ _ Hinv Hholds Ht) as [Hs| ->]; [|done]. rewrite Hs in Htr.
    no_route Htr.
  - done.
  - by apply attempt_ends_evolves.
  - simpl. by eapply only_open.
Qed.

(** What a successful [fail] did to the tables. *)
Record failed (d d' : DB) (c : TaskClaim) (cls msg : string) (o : FailureOutcome) (t t' : TaskRow)
    : Prop := {
  fa_moves : task_moves d d' (tc_task_id c) t t';
  fa_states : t_state t = T_RUNNING ∧ t_state t' = fo_state o ∧ t_attempt_count t' = t_attempt_count t;
  fa_open : fo_circuit_open o = (max_attempts t <=? t_attempt_count t);
  fa_state : fo_state o = if fo_circuit_open o then T_FAILED else T_RETRY_PENDING;
  fa_due : t_due_at t' = fo_retry_due_at o ∧
    if fo_circuit_open o then fo_retry_due_at o = None
    else ∃ n, fo_retry_due_at o = expiry_at n (retry_seconds self (tc_attempt_number c));
  fa_error : t_last_error t' = Some (fo_fingerprint o) ∧
    fo_fingerprint o = content_hash (JObj [("failure_class", JStr cls); ("message", JStr msg)]);
  fa_ended : ∃ now failure, attempts d' = update_where (is_attempt c)
               (attempt_with A_failed (Some now) (Some failure)) (attempts d) ∧
    leases d' = alter (λ l, if l_fence l =? tc_fence c then lease_released now l else l)
                  (tc_resource_key c) (leases d) }.

Lemma fail_ok c vp cls msg sev route o w w' :
  fail self c vp cls msg sev route w = (Ok o, w') → sched_inv (w_db w) →
  (∃ n, holds (w_db w) (sql_at n) c) ∧ tc_worker_id c = vp_principal_id vp ∧
  live_as (w_db w) vp R_WORKER ∧ ∃ t t', failed (w_db w) (w_db w') c cls msg o t t'.
Proof.
  unfold fail. intros Hrun Hinv. schedinv. simpl in *. rewrite <- Hdb in *.
  match goal with H : _record_negative _ _ _ _ _ _ _ = _ |- _ => apply record_negative_ok in H as [g Hn] end.
  match goal with H : _transition _ _ _ _ _ _ _ = _ |- _ =>
    apply transition_ok in H as (Htr & Hv & -> & e & now & Hm & Hdb2) end.
  pose proof (si_tasks _ Hinv _ _ Ht) as Hid. rewrite Hn, Hid in *. simpl in *.
  split; [by eexists|]. split; [done|]. split; [done|].
  match type of Ht with _ = Some ?x => exists x; rename x into t end.
  assert (t_state t = T_RUNNING) as Hrunning.
  { destruct (holds_busy _ _ _ _ Hinv Hholds Ht) as [Hs|]; [|done]. rewrite Hs in Htr. no_route Htr. }
  destruct (ts_max_attempts (t_spec t) <=? t_attempt_count t) eqn:Hopen; schedinv.
  - eexists. constructor; [eapply moves_of; [exact Ht|simpl; rewrite Hdb2; simpl; by rewrite alter_alter|done]|..];
      simpl; try done. rewrite Hdb2. simpl. eauto.
  - unfold _retry_due in *.
    match goal with H : _expires _ _ = _ |- _ => apply expires_exact in H as [-> ->] end.
    match goal with H : _transition _ _ _ _ _ _ _ = _ |- _ =>
      apply transition_ok in H as (_ & _ & -> & e2 & now2 & _ & Hdb3) end.
    simpl in *. rewrite Hid in Hdb3.
    eexists. constructor; [eapply moves_of; [exact Ht|
      simpl; rewrite Hdb3, Hdb2; simpl; by rewrite !alter_alter|done]|..]; simpl; try done; [eauto|].
    rewrite Hdb3, Hdb2. simpl. eauto.
Qed.

Lemma fail_step c vp cls msg sev route o w w' :
  fail self c vp cls msg sev route w = (Ok o, w') → sched_inv (w_db w) →
  sched_step (w_db w) (w_db w').
Proof.
  intros Hrun Hinv. destruct (fail_ok _ _ _ _ _ _ _ _ _ Hrun Hinv) as ([n Hholds] & _ & _ & t & t' & Hf).
  destruct Hf as [Hm (Hr & Ht' & Hc) Ho Hs _ _ (now & failure & Ha & _)].
  eapply (step_end _ _ (tc_task_id c)); [exact Hm| |done|rewrite Ha; apply attempt_with_evolves|].
  - right. rewrite Ht', Hs, Ho. destruct (_ <=? _) eqn:Hle; bsplit; [right|left]; (split; [by right|done]).
  - rewrite Ha. by eapply only_open.
Qed.

Lemma claim_step d d' project worker ttl t c :
  sched_inv d → claimed d d' project worker ttl t c → tasks d !! t_id t = Some t →
  t_state t = T_READY → t_attempt_count t < max_attempts t → sched_step d d'.
Proof.
  intros Hinv [] Ht Hr Hlt. destruct cl_claim0 as (Hid & _ & _ & _ & Hn).
  destruct cl_new0 as (Hnew & _ & _). destruct cl_db0 as (issued & now & e & _ & _ & Ha & Htk & _).
  eapply (step_claim _ _ (t_id t) t _ (attempt_of c issued)); [by eapply moves_of|..];
    simpl; try done.
Qed.

(** A call on one row of a query, when the row is still as the query saw it;
    [R] says what becomes of the row. *)
Definition row_effect (R : TaskRow → TaskRow → Prop) (d d' : DB) (row : TaskRow) : Prop :=
  (∃ t', task_moves d d' (t_id row) row t' ∧ R row t') ∧ sched_step d d' ∧ leases d' = leases d.

Lemma row_effect_of (R : TaskRow → TaskRow → Prop) d d' row t' :
  task_moves d d' (t_id row) row t' → R row t' →
  (task_moves d d' (t_id row) row t' → sched_step d d') → leases d' = leases d →
  row_effect R d d' row.
Proof. intros Hm HR Hs Hl. split_and!; [by eexists|auto|done]. Qed.

Lemma rows_steps R (Q : TaskRow → Prop) (body : TaskRow → P unit) rows :
  (∀ row w u w', body row w = (Ok u, w') → tasks (w_db w) !! t_id row = Some row → Q row →
     sched_inv (w_db w) → row_effect R (w_db w) (w_db w') row) →
  ∀ w u w', forM rows body w = (Ok u, w') → NoDup (t_id <$> rows) → sched_inv (w_db w) →
  (∀ t, t ∈ rows → tasks (w_db w) !! t_id t = Some t ∧ Q t) →
  rtc sched_step (w_db w) (w_db w') ∧ leases (w_db w') = leases (w_db w) ∧
  (∀ k, k ∉ t_id <$> rows → tasks (w_db w') !! k = tasks (w_db w) !! k) ∧
  (∀ row, row ∈ rows → ∃ t', tasks (w_db w') !! t_id row = Some t' ∧ R row t').
Proof.
  intros Hbody. induction rows as [|row rows IH]; intros w u w' Hrun Hnd Hinv Hrows; simpl in Hrun.
  { rinv. split_and!; try done. by intros row []%not_elem_of_nil. }
  apply bind_ok in Hrun as (u1 & w1 & H1 & Hrun).
  destruct (Hrows row ltac:(by constructor)) as [Ht Hq]. apply NoDup_cons in Hnd as [Hnin Hnd].
  destruct (Hbody _ _ _ _ H1 Ht Hq Hinv) as ((t' & Hm & HR) & Hstep & Hl).
  destruct (IH w1 u w' Hrun Hnd (step_keeps_inv _ _ Hstep Hinv)) as (Hsteps & Hl' & Hothers & Heach).
  - intros t Hin. destruct (Hrows t ltac:(by constructor)) as [Ht' Hq']. split; [|done].
    rewrite (tm_to _ _ _ _ _ Hm), lookup_insert_ne; [done|]. intros He. apply Hnin. rewrite He.
    by apply list_elem_of_fmap_2.
  - split_and!; [by eapply rtc_l|congruence| |].
    + intros k [Hk Hks]%not_elem_of_cons. rewrite Hothers by done.
      by rewrite (tm_to _ _ _ _ _ Hm), lookup_insert_ne.
    + intros r [->|Hr]%elem_of_cons; [|auto]. exists t'. rewrite Hothers by done.
      by rewrite (tm_to _ _ _ _ _ Hm), lookup_insert_eq.
Qed.

Lemma query_rows le n (f : TaskRow → bool) d (Q : TaskRow → Prop) :
  sched_inv d → (∀ t, f t = true → Q t) → ∀ t, t ∈ limit n (order_by le (select f (tasks d))) →
  tasks d !! t_id t = Some t ∧ Q t.
Proof.
  intros Hinv Hf t Ht%limit_elem%elem_of_order_by%elem_of_select. destruct Ht as [[k Hk] Hft].
  rewrite (si_tasks _ Hinv k t Hk). auto.
Qed.

(** What a pass over the queue promises: a refinement of the specification that
    leaves the leases alone, and each selected task as [R] says. *)
Definition pass (R : TaskRow → TaskRow → Prop) (rows : list TaskRow) (n : Z) (d d' : DB) : Prop :=
  rtc sched_step d d' ∧ leases d' = leases d ∧ n = Z.of_nat (length rows) ∧
  (∀ row, row ∈ rows → ∃ t', tasks d' !! t_id row = Some t' ∧ R row t').

Definition due_retries (d : DB) (project : string) (lim : Z) (now : Instant) : list TaskRow :=
  limit lim (order_by (lex by_due by_id) (select (queued d project T_RETRY_PENDING now) (tasks d))).
Definition promoted (t t' : TaskRow) : Prop :=
  t_state t' = T_READY ∧ t_attempt_count t' = t_attempt_count t.

Lemma promote_pass project actor lim n w w' :
  promote_due_retries self project actor lim w = (Ok n, w') → sched_inv (w_db w) →
  live_as (w_db w) actor R_SYSTEM ∧
  ∃ now, pass promoted (due_retries (w_db w) project lim (sql_at now)) n (w_db w) (w_db w').
Proof.
  unfold promote_due_retries. intros Hrun Hinv. schedinv. rewrite <- Hdb in *. split; [done|].
  match goal with H : forM _ _ (tick ?w1) = _ |- _ => exists (w_ticks w1); rename H into Hloop end.
  eapply (rows_steps promoted (λ t, t_state t = T_RETRY_PENDING)) in Hloop; try done.
  - destruct Hloop as (? & ? & _ & ?). by split_and!.
  - intros row w0 u w1 H1 Ht Hs _. rinv.
    match goal with H : _transition _ _ _ _ _ _ _ = (_, ?w2) |- _ => rename w2 into w1;
      apply transition_ok in H as (_ & _ & _ & e & now & _ & Hdb1) end.
    eapply row_effect_of;
      [eapply (moves_of _ _ _ _ (task_with T_READY (t_version row + 1) now)); [done|by rewrite Hdb1|done]
      |done| |by rewrite Hdb1].
    intros Hm. eapply step_promote; [exact Hm|done..|by rewrite Hdb1].
  - apply query_NoDup, Hinv.
  - eapply query_rows; [done|]. intros t Hq. unfold queued in Hq. by bsplit.
Qed.

(** Ending every open attempt of a task leaves none open. *)
Lemma all_ended id now failure (m : gmap string Attempt) k a :
  update_where (λ a, bool_decide (a_task_id a = id) && bool_decide (a_ended_at a = None))
    (attempt_with A_abandoned (Some now) failure) m !! k = Some a →
  a_task_id a = id → a_ended_at a ≠ None.
Proof.
  rewrite lookup_update_where. destruct (m !! k) as [b|]; [|done]. simpl. intros [= <-].
  destruct (_ && _) eqn:Hb; [done|]. intros Hid He. rewrite Hid, He in Hb.
  by rewrite !bool_decide_eq_true_2 in Hb.
Qed.

(** Abandoned work is retried, or has failed when no attempt is left. *)
Definition reaped (t t' : TaskRow) : Prop :=
  t_attempt_count t' = t_attempt_count t ∧
  t_state t' = (if max_attempts t <=? t_attempt_count t then T_FAILED else T_RETRY_PENDING) ∧
  if max_attempts t <=? t_attempt_count t then t_due_at t' = None
  else ∃ n, t_due_at t' = expiry_at n (retry_seconds self (t_attempt_count t)).

Lemma reap_row_effect i actor now row w u w' :
  reap_row self i actor now row w = (Ok u, w') → tasks (w_db w) !! t_id row = Some row →
  busy (t_state row) → row_effect reaped (w_db w) (w_db w') row.
Proof.
  unfold reap_row. intros Hrun Ht Hb. schedinv.
  match goal with H : _record_negative _ _ _ _ _ _ _ = _ |- _ => apply record_negative_ok in H as [g Hn] end.
  match goal with H : _transition _ _ _ _ _ _ _ = _ |- _ =>
    apply transition_ok in H as (_ & _ & -> & e & now1 & _ & Hdb1) end.
  unfold _retry_due in *.
  match goal with H : _expires _ _ = _ |- _ => apply expires_exact in H as [-> ->] end.
  rewrite Hn in Hdb1. simpl in *.
  destruct (ts_max_attempts (t_spec row) <=? t_attempt_count row) eqn:Hopen; schedinv.
  - match goal with H : _transition _ _ _ _ _ _ _ = _ |- _ =>
      apply transition_ok in H as (_ & _ & -> & e2 & now2 & _ & Hdb2) end.
    simpl in *. rewrite Hdb1 in Hdb2. rewrite Hdb2.
    eapply row_effect_of; [eapply moves_of; [exact Ht|simpl; by rewrite !alter_alter|done]| | |done];
      [unfold reaped, max_attempts; simpl; rewrite Hopen; eauto|]. intros Hm.
    eapply step_end; [exact Hm| |done|simpl; apply attempt_with_evolves|simpl; apply all_ended].
    bsplit. right. right. done.
  - simpl. rewrite Hdb1.
    eapply row_effect_of; [eapply moves_of; [exact Ht|simpl; by rewrite !alter_alter|done]| | |done];
      [unfold reaped, max_attempts; simpl; rewrite Hopen; eauto|]. intros Hm.
    eapply step_end; [exact Hm| |done|simpl; apply attempt_with_evolves|simpl; apply all_ended].
    bsplit. right. left. done.
Qed.

Definition abandoned_rows (d : DB) (project : string) (lim : Z) (now : Instant) : list TaskRow :=
  limit lim (order_by by_updated (select (abandoned d project now) (tasks d))).

Lemma reap_pass project actor lim n w w' :
  reap_expired self project actor lim w = (Ok n, w') → sched_inv (w_db w) →
  live_as (w_db w) actor R_SYSTEM ∧
  ∃ now, pass reaped (abandoned_rows (w_db w) project lim (sql_at now)) n (w_db w) (w_db w').
Proof.
  unfold reap_expired. intros Hrun Hinv. schedinv. rewrite <- Hdb in *. split; [done|].
  match goal with H : forM _ _ (tick (tick ?w1)) = _ |- _ => exists (w_ticks w1); rename H into Hloop end.
  eapply (rows_steps reaped (λ t, busy (t_state t))) in Hloop; try done.
  - destruct Hloop as (? & ? & _ & ?). by split_and!.
  - intros row w0 u w1 H1 Ht Hs _. by eapply reap_row_effect.
  - apply query_NoDup, Hinv.
  - eapply query_rows; [done|]. intros t Hq. unfold abandoned in Hq. bsplit.
    match goal with H : memb _ _ = true |- _ => apply memb_true in H as Hin end.
    apply elem_of_cons in Hin as [?|[?|[]%not_elem_of_nil]%elem_of_cons]; [by left|by right].
Qed.

Lemma lease_op_tables pv op d0 :
  keeps (λ d, tasks d = tasks d0 ∧ attempts d = attempts d0) (run_lease_op pv op).
Proof.
  destruct op; [| | | |apply run_op_keeps; constructor; intros;
    first [by apply keeps_constraint_write | by apply keeps_write]];
  unfold run_lease_op, ignore, acquire, renew, release,
    require_current_fence, take, put_lease, _append_audit, _holder_id, verify_in_transaction,
    _require_match, _is_active, _assert_task_scope, _expires, _now; keeps_walk;
  first [ apply keeps_verify | by apply keeps_constraint_write
        | apply keeps_append_event; intros; by apply keeps_constraint_write ].
Qed.

Lemma claim_none project vp ttl w w' :
  claim_next self project vp ttl w = (Ok None, w') → w_db w' = w_db w.
Proof.
  unfold claim_next. intros Hrun. schedinv. destruct (head _) as [t|]; schedinv; [|done].
  match goal with H : still_leased _ _ = _ |- _ => apply still_leased_ok in H as [Hdb2 _] end.
  match type of Hrun with (if ?b then _ else _) _ = _ => destruct b; rinv; [|discriminate] end.
  by rewrite Hdb2.
Qed.

Lemma claim_next_ok project vp ttl o w w' :
  claim_next self project vp ttl w = (Ok o, w') → sched_inv (w_db w) →
  match o with
  | None => w_db w' = w_db w
  | Some c => ∃ t, tasks (w_db w) !! t_id t = Some t ∧ t_state t = T_READY ∧
      t_attempt_count t < max_attempts t ∧
      claimed (w_db w) (w_db w') project (vp_principal_id vp) ttl t c
  end.
Proof.
  intros Hrun Hinv. destruct o as [c|].
  - destruct (claim_facts _ _ _ _ _ _ _ Hrun) as (_ & _ & k & t & n & Hk & Hs & _ & Hlt & _ & _ & Hc).
    exists t. rewrite (si_tasks _ Hinv _ _ Hk). done.
  - by eapply claim_none.
Qed.

Lemma run_sched_op_steps op w :
  sched_inv (w_db w) → rtc sched_step (w_db w) (w_db (run_sched_op self op w).2).
Proof.
  intros Hinv. destruct (run_sched_op self op w) as [[u|x] w'] eqn:Hrun; simpl;
    [|by rewrite (run_sched_op_atomic _ _ _ _ _ Hrun)].
  destruct op; simpl in Hrun; unfold ignore in Hrun; rinv.
  - match goal with H : promote_due_retries _ _ _ _ _ = _ |- _ => apply promote_pass in H as (_ & now & [? _]) end; done.
  - match goal with H : claim_next _ _ _ _ _ = (Ok ?o, _) |- _ =>
      apply claim_next_ok in H; [|done]; destruct o as [c|] end; [|by rewrite H].
    destruct H as (t & Ht & Hs & Hlt & Hc). apply rtc_once. by eapply claim_step.
  - apply rtc_once. by eapply start_step.
  - apply rtc_once. by eapply complete_step.
  - apply rtc_once. by eapply fail_step.
  - match goal with H : reap_expired _ _ _ _ _ = _ |- _ => apply reap_pass in H as (_ & now & [? _]) end; done.
  - apply rtc_once. destruct (lease_op_tables _ _ (w_db w) _ _ _ Hrun) as [? ?]; [done|].
    by apply step_other.
Qed.

(** C30: refinement: every call of the scheduler, and every call of the lease and
    identity managers between them, is a sequence of steps of the
    specification, none when it raises. *)
Theorem scheduler_refines op w :
  sched_inv (w_db w) → rtc sched_step (w_db w) (w_db (run_sched_op self op w).2).
Proof. apply run_sched_op_steps. Qed.

(** Through any sequence of calls every task keeps its attempts numbered from
    one without gaps or repetitions, at most [max_attempts] of them, and an
    attempt that has not ended is the last one of a task that is leased or
    running. *)
Theorem attempts_stay_bounded ops w :
  sched_inv (w_db w) → sched_inv (w_db (run_sched_ops self ops w)).
Proof.
  apply run_sched_ops_keeps. intros op w0 r w' Hrun Hinv.
  pose proof (run_sched_op_steps op w0 Hinv) as Hsteps. rewrite Hrun in Hsteps.
  by eapply steps_keep_inv.
Qed.

(** ** Fences of claims *)
Lemma release_lease_le d0 k f now : keeps (lease_le d0) (release_lease k f now).
Proof.
  apply keeps_write. intros d Hle. etrans; [exact Hle|]. intros j l Hl. simpl.
  destruct (decide (k = j)) as [->|]; [rewrite lookup_alter_eq, Hl|rewrite lookup_alter_ne by done];
    simpl; eexists; split; try done; [|right; tauto].
  right. by destruct (l_fence l =? f).
Qed.

Lemma write_le d0 f : (∀ d, leases (f d) = leases d) → keeps (lease_le d0) (write f).
Proof. intros Hf. apply keeps_write. intros d Hle. etrans; [exact Hle|]. by apply lease_le_same. Qed.

Lemma transition_le d0 row target actor reason vp :
  keeps (lease_le d0) (_transition self row target actor reason vp).
Proof.
  unfold _transition, update_task. keeps_walk; [apply keeps_append_event; intros; by apply keeps_constraint_write|].
  by apply write_le.
Qed.

Lemma record_negative_le d0 row fp cls sev route now :
  keeps (lease_le d0) (_record_negative row fp cls sev route now).
Proof. unfold _record_negative. keeps_walk; first [by apply write_le|by apply keeps_constraint_write]. Qed.

Lemma run_sched_op_le op d0 : keeps (lease_le d0) (run_sched_op self op).
Proof.
  pose proof transition_le. pose proof record_negative_le. pose proof release_lease_le.
  assert (∀ vp, keeps (lease_le d0) (_worker_id vp)) by (intros; apply keeps_pure, pure_worker).
  assert (∀ vp, keeps (lease_le d0) (_system_id vp)) by (intros; apply keeps_pure, pure_system).
  assert (∀ c vp, keeps (lease_le d0) (owns c vp)) by (intros; apply keeps_pure, pure_owns).
  destruct op as [| | | | | |pv op];
    try (unfold run_sched_op, ignore, promote_due_retries,
    start, complete, fail, reap_expired, reap_row, task_row, _require_claim, _require_executable_run,
    _retry_due, _expires, _now, update_task, update_attempts; keeps_walk; auto; by apply write_le).
  - intros w r w' Hrun Hle. etrans; [exact Hle|]. simpl in Hrun. destruct r as [u|x].
    + unfold ignore in Hrun. rinv. match goal with H : claim_next _ _ _ _ _ = (Ok ?o, _) |- _ =>
        rename H into Hc; destruct o as [c|] end.
      * apply claim_facts in Hc as (_ & _ & k & t & n & _ & _ & _ & _ & _ & _ & Hcl).
        destruct (cl_db _ _ _ _ _ _ _ Hcl) as (issued & now & e & _ & Hl & _).
        eapply lease_le_insert; [exact Hl|]. intros l0 Hl0. left. simpl.
        rewrite (cl_fence _ _ _ _ _ _ _ Hcl), Hl0. simpl. lia.
      * apply lease_le_same. by rewrite (claim_none _ _ _ _ _ Hc).
    + by rewrite (run_sched_op_atomic self (SoClaim project worker ttl) _ _ _ Hrun).
  - intros w r w' Hrun Hle. etrans; [exact Hle|].
    pose proof (run_lease_op_le pv op w) as Hl. simpl in Hrun. by rewrite Hrun in Hl.
Qed.

Lemma run_sched_ops_le ops w : lease_le (w_db w) (w_db (run_sched_ops self ops w)).
Proof. apply run_sched_ops_keeps; [intros op; apply run_sched_op_le|done]. Qed.

(** A worker's calls on a claim. *)
Definition act_ok {A} (m : P A) (w : World) : Prop := ∃ a w', m w = (Ok a, w').

Lemma act_needs_lease c vp w :
  act_ok (start self c vp) w ∨ act_ok (complete self c vp) w ∨
  (∃ cls msg sev route, act_ok (fail self c vp cls msg sev route) w) →
  ∃ n, holds (w_db w) (sql_at n) c.
Proof.
  intros [(u & w' & Hrun)|[(u & w' & Hrun)|(cls & msg & sev & route & u & w' & Hrun)]];
    unfold start, complete, fail in Hrun; schedinv; rewrite <- Hdb; by eexists.
Qed.

Lemma over_not_held d now c : over d (tc_resource_key c) (tc_fence c) → holds d now c → False.
Proof.
  intros (l & Hl & Ho) [(l' & Hl' & _ & _ & Hf & Ha) _]. assert (l' = l) as -> by congruence.
  unfold active_at in Ha. bsplit. destruct Ho as [?|[_ ?]]; [lia|done].
Qed.

(** No call on the claim succeeds from [w] on, whatever calls come between. *)
Definition dead_claim (c : TaskClaim) (w : World) : Prop := ∀ ops vp,
  let w1 := run_sched_ops self ops w in
  ¬ act_ok (start self c vp) w1 ∧ ¬ act_ok (complete self c vp) w1 ∧
  ∀ cls msg sev route, ¬ act_ok (fail self c vp cls msg sev route) w1.

Lemma over_dead c w : over (w_db w) (tc_resource_key c) (tc_fence c) → dead_claim c w.
Proof.
  intros Ho ops vp w1. assert (over (w_db w1) (tc_resource_key c) (tc_fence c)) as Hov
    by (by eapply over_stays; [apply run_sched_ops_le|]).
  assert (∀ n, holds (w_db w1) (sql_at n) c → False) as Hno by (intros n; by apply over_not_held).
  split_and!; [intros Ha|intros Ha|intros cls msg sev route Ha];
    destruct (act_needs_lease c vp w1) as [n Hn]; eauto 10; by eapply Hno.
Qed.

Lemma released_over d d' c now n :
  holds d now c →
  leases d' = alter (λ l, if l_fence l =? tc_fence c then lease_released n l else l)
                (tc_resource_key c) (leases d) →
  over d' (tc_resource_key c) (tc_fence c).
Proof.
  intros [(l & Hl & _ & _ & Hf & _) _] He. exists (lease_released n l).
  rewrite He, lookup_alter_eq, Hl. simpl. rewrite Hf, Z.eqb_refl. split; [done|]. by right.
Qed.

(** A claim reports one result: after [complete] or [fail] succeeded, no
    [start], [complete] or [fail] on it ever succeeds again, whatever calls
    come in between. *)
Theorem claim_reports_once c vp w w' :
  sched_inv (w_db w) →
  (complete self c vp w = (Ok tt, w') ∨
   ∃ cls msg sev route o, fail self c vp cls msg sev route w = (Ok o, w')) →
  dead_claim c w'.
Proof.
  intros Hinv [Hrun|(cls & msg & sev & route & o & Hrun)]; apply over_dead.
  - unfold complete in Hrun. schedinv. rewrite <- Hdb in *.
    match goal with H : _transition _ _ _ _ _ _ _ = _ |- _ =>
      apply transition_ok in H as (_ & _ & _ & e & now & _ & Hdb2) end.
    eapply released_over; [exact Hholds|]. simpl. by rewrite Hdb2.
  - apply fail_ok in Hrun as ([n Hh] & _ & _ & t & t' & Hf); [|done].
    destruct (fa_ended _ _ _ _ _ _ _ _ Hf) as (now & failure & _ & Hl). by eapply released_over.
Qed.

(** A claim that was taken over is dead: when the lease of its task is granted
    to a later claim, no [start], [complete] or [fail] on it ever succeeds. *)
Theorem overtaken_claim_is_dead c c' project vp ttl w w' l :
  leases (w_db w) !! tc_resource_key c = Some l → tc_fence c ≤ l_fence l →
  claim_next self project vp ttl w = (Ok (Some c'), w') →
  tc_resource_key c' = tc_resource_key c → dead_claim c w'.
Proof.
  intros Hl Hf Hrun Hk. apply over_dead.
  apply claim_facts in Hrun as (_ & _ & k & t & n & _ & _ & _ & _ & _ & _ & Hcl).
  destruct (cl_db _ _ _ _ _ _ _ Hcl) as (issued & now & e & _ & Hl' & _).
  exists (lease_of c' project issued). rewrite Hl', Hk, lookup_insert_eq. split; [done|]. left. simpl.
  rewrite (cl_fence _ _ _ _ _ _ _ Hcl), Hk, Hl. simpl. lia.
Qed.

(** ** Retries *)
Definition bounds_ok : Prop := 1 ≤ sc_retry_base_seconds self ≤ sc_retry_max_seconds self.

Lemma retry_seconds_bounds n :
  bounds_ok → sc_retry_base_seconds self ≤ retry_seconds self n ≤ sc_retry_max_seconds self.
Proof.
  unfold bounds_ok, retry_seconds. intros Hb.
  pose proof (Z.pow_pos_nonneg 2 (Z.max (n - 1) 0) ltac:(lia) ltac:(lia)). nia.
Qed.

Lemma retry_seconds_mono n m : bounds_ok → n ≤ m → retry_seconds self n ≤ retry_seconds self m.
Proof.
  unfold bounds_ok, retry_seconds. intros Hb Hnm.
  pose proof (Z.pow_le_mono_r 2 (Z.max (n - 1) 0) (Z.max (m - 1) 0) ltac:(lia) ltac:(lia)). nia.
Qed.

(** [fail] ends the attempt of a held claim.  When the task has no attempt
    left the circuit opens: it has failed and gets no retry.  Otherwise it
    waits for a retry that is due between the base and the maximal backoff
    from now, unless that lies past the year 9999. *)
Theorem fail_decides_retry c vp cls msg sev route o w w' :
  bounds_ok → sched_inv (w_db w) → fail self c vp cls msg sev route w = (Ok o, w') →
  ∃ t t', failed (w_db w) (w_db w') c cls msg o t t' ∧
    (fo_circuit_open o = true ↔ t_attempt_count t = max_attempts t) ∧
    ∀ at_, t_due_at t' = Some at_ → ∃ n,
      sql_at n + sc_retry_base_seconds self * 1000000 ≤ at_
      ≤ sql_at n + sc_retry_max_seconds self * 1000000.
Proof.
  intros Hb Hinv Hrun. destruct (fail_ok _ _ _ _ _ _ _ _ _ Hrun Hinv) as (_ & _ & _ & t & t' & Hf).
  exists t, t'. split; [done|]. destruct Hf as [Hm _ Ho _ [Hdue Hd] _ _]. split.
  - pose proof (si_count _ Hinv _ _ (tm_from _ _ _ _ _ Hm)). rewrite Ho. rewrite Z.leb_le. lia.
  - intros at_ Hat. rewrite Hdue in Hat. destruct (fo_circuit_open o); [congruence|].
    destruct Hd as [n Hn]. rewrite Hat in Hn. unfold expiry_at in Hn. destruct (_ <=? _) in Hn; [|done].
    injection Hn as ->. exists n. pose proof (retry_seconds_bounds (tc_attempt_number c) Hb). lia.
Qed.

(** [promote_due_retries] makes exactly the selected retries that are due ready
    again, within the specification and without touching a lease. *)
Theorem promotion_pass project actor lim n w w' :
  promote_due_retries self project actor lim w = (Ok n, w') → sched_inv (w_db w) →
  live_as (w_db w) actor R_SYSTEM ∧
  ∃ now, pass promoted (due_retries (w_db w) project lim (sql_at now)) n (w_db w) (w_db w').
Proof. apply promote_pass. Qed.

(** [reap_expired] recovers each selected task whose worker lost its lease: it
    waits for a retry, or has failed when no attempt is left, within the
    specification and without touching a lease. *)
Theorem reaping_pass project actor lim n w w' :
  reap_expired self project actor lim w = (Ok n, w') → sched_inv (w_db w) →
  live_as (w_db w) actor R_SYSTEM ∧
  ∃ now, pass reaped (abandoned_rows (w_db w) project lim (sql_at now)) n (w_db w) (w_db w').
Proof. apply reap_pass. Qed.

End refinement.

(** ** Witnesses *)
Module Queue.
Import Toy Sample.

Definition sc : TaskScheduler := {|
  sc_command_authority := 1; sc_policy_version := "v1"; sc_retry_base_seconds := 5;
  sc_retry_max_seconds := 300 |}.
Definition task_in (state : TaskState) (count : Z) : TaskRow := {|
  t_id := "t1"; t_goal_id := "g1"; t_run_id := Some "r1"; t_project_id := "proj";
  t_state := state; t_spec := sample_task; t_version := 0; t_attempt_count := count;
  t_due_at := None; t_last_error := None; t_created_at := past; t_updated_at := past |}.
Definition claim1 : TaskClaim := {|
  tc_task_id := "t1"; tc_run_id := "r1"; tc_attempt_id := "a1"; tc_attempt_number := 1;
  tc_worker_id := "p-alice"; tc_resource_key := "task://t1"; tc_fence := 1; tc_expires_at := future |}.
Definition attempt1 : Attempt := attempt_of claim1 past.
Definition lease1 (expires : Instant) : Lease :=
  lease_row "task://t1" "proj" "t1" "p-alice" 1 past expires None.

(** The sample with the task in a state, its first attempt and its lease. *)
Definition with_task (t : TaskRow) (atts : gmap string Attempt) (expires : Instant) : World :=
  set_db (λ d, set_tasks (λ _, {["t1" := t]}) (set_attempts (λ _, atts)
    (set_leases <["task://t1" := lease1 expires]> d))) start.
Definition running : World := with_task (task_in T_RUNNING 1) {["a1" := attempt1]} future.
Definition lost : World := with_task (task_in T_RUNNING 1) {["a1" := attempt1]} (past + 1000).
Definition waiting : World := with_task (task_in T_RETRY_PENDING 0) ∅ (past + 1000).
Definition ready : World := with_task (task_in T_READY 0) ∅ (past + 1000).

Lemma with_task_tables t atts expires :
  tasks (w_db (with_task t atts expires)) = {["t1" := t]} ∧
  attempts (w_db (with_task t atts expires)) = atts.
Proof. split; reflexivity. Qed.

Lemma only_task (t t0 : TaskRow) (k : string) :
  ({["t1" := t]} : gmap string TaskRow) !! k = Some t0 → k = "t1" ∧ t0 = t.
Proof. rewrite lookup_singleton_Some. by intros [<- <-]. Qed.
Lemma only_attempt (a a0 : Attempt) (k : string) :
  ({["a1" := a]} : gmap string Attempt) !! k = Some a0 → k = "a1" ∧ a0 = a.
Proof. rewrite lookup_singleton_Some. by intros [<- <-]. Qed.

Lemma idle_inv s expires : sched_inv (w_db (with_task (task_in s 0) ∅ expires)).
Proof.
  destruct (with_task_tables (task_in s 0) ∅ expires) as [Ht Ha].
  constructor; rewrite ?Ht, ?Ha; try (intros *; rewrite lookup_empty; discriminate).
  - intros k t [-> ->]%only_task. done.
  - intros k t [-> ->]%only_task. by vm_compute.
  - intros k t n [-> ->]%only_task. simpl. lia.
Qed.

Lemma busy_inv expires :
  sched_inv (w_db (with_task (task_in T_RUNNING 1) {["a1" := attempt1]} expires)).
Proof.
  destruct (with_task_tables (task_in T_RUNNING 1) {["a1" := attempt1]} expires) as [Ht Ha].
  constructor; rewrite ?Ht, ?Ha.
  - intros k t [-> ->]%only_task. done.
  - intros k a [-> ->]%only_attempt. done.
  - intros k t [-> ->]%only_task. by vm_compute.
  - intros k a [-> ->]%only_attempt. exists (task_in T_RUNNING 1).
    split; [by apply lookup_singleton_Some|by vm_compute].
  - intros k k' a a' [-> ->]%only_attempt [-> ->]%only_attempt _ _. done.
  - intros k t n [-> ->]%only_task. simpl. intros Hn. exists "a1", attempt1.
    split_and!; [by apply lookup_singleton_Some|done|simpl; lia].
  - intros k a [-> ->]%only_attempt _. exists (task_in T_RUNNING 1).
    split_and!; [by apply lookup_singleton_Some|by right|done].
Qed.

Lemma start_versions : versions_agree (w_db ready).
Proof.
  intros k t. unfold ready. rewrite (proj1 (with_task_tables _ _ _)).
  intros [-> ->]%only_task. reflexivity.
Qed.

Lemma task_versions_follow_events_witness :
  versions_agree (w_db (run_sched_ops sc [SoClaim "proj" alice_vp 60; SoReap "proj" alice_vp 5] ready)).
Proof. exact (task_versions_follow_events sc _ ready start_versions). Defined.

Lemma claim_next_grants_witness :
  ∃ c w', claim_next sc "proj" alice_vp 60 ready = (Ok (Some c), w') ∧ live_as (w_db ready) alice_vp R_WORKER.
Proof.
  destruct (run_succeeds (claim_next sc "proj" alice_vp 60) ready ltac:(by_eval)) as (o & w' & Hr).
  pose proof (run_shows _ ready (λ o _, negb (bool_decide (tc_fence <$> o = None))) o w' ltac:(by_eval) Hr) as Hs.
  destruct o as [c|]; [|discriminate Hs].
  exists c, w'. split; [exact Hr|]. exact (proj1 (claim_next_grants sc "proj" alice_vp 60 c ready w' Hr)).
Defined.

Lemma scheduler_refines_witness :
  rtc sched_step (w_db ready) (w_db (run_sched_op sc (SoClaim "proj" alice_vp 60) ready).2).
Proof. exact (scheduler_refines sc _ ready (idle_inv _ _)). Defined.

Lemma attempts_stay_bounded_witness :
  sched_inv (w_db (run_sched_ops sc [SoFail claim1 alice_vp "Timeout" "slow" "error" "retry"] running)).
Proof. exact (attempts_stay_bounded sc _ running (busy_inv _)). Defined.

Lemma claim_reports_once_witness :
  ∃ w', complete sc claim1 alice_vp running = (Ok tt, w') ∧ dead_claim sc claim1 w'.
Proof.
  destruct (run_succeeds (complete sc claim1 alice_vp) running ltac:(by_eval)) as ([] & w' & Hr).
  exists w'. split; [exact Hr|].
  exact (claim_reports_once sc claim1 alice_vp running w' (busy_inv _) (or_introl Hr)).
Defined.

Lemma overtaken_claim_is_dead_witness :
  ∃ c w', claim_next sc "proj" alice_vp 60 ready = (Ok (Some c), w') ∧ dead_claim sc claim1 w'.
Proof.
  destruct (run_succeeds (claim_next sc "proj" alice_vp 60) ready ltac:(by_eval)) as (o & w' & Hr).
  pose proof (run_shows _ ready (λ o _, bool_decide (tc_resource_key <$> o = Some "task://t1")) o w'
    ltac:(by_eval) Hr) as Hs.
  apply bool_decide_eq_true in Hs. destruct o as [c|]; [|discriminate Hs]. injection Hs as Hk.
  exists c, w'. split; [exact Hr|].
  refine (overtaken_claim_is_dead sc claim1 c "proj" alice_vp 60 ready w' (lease1 (past + 1000)) eq_refl _ Hr Hk).
  vm_compute. discriminate.
Defined.

Lemma fail_decides_retry_witness :
  ∃ o w' t t', fail sc claim1 alice_vp "Timeout" "slow" "error" "retry" running = (Ok o, w') ∧
    failed sc (w_db running) (w_db w') claim1 "Timeout" "slow" o t t'.
Proof.
  destruct (run_succeeds (fail sc claim1 alice_vp "Timeout" "slow" "error" "retry") running
    ltac:(by_eval)) as (o & w' & Hr).
  destruct (fail_decides_retry sc claim1 alice_vp "Timeout" "slow" "error" "retry" o running w')
    as (t & t' & Hf & _); [vm_compute; split; discriminate|exact (busy_inv _)|exact Hr|].
  exists o, w', t, t'. split; [exact Hr|exact Hf].
Defined.

Lemma promotion_pass_witness :
  ∃ w', promote_due_retries sc "proj" alice_vp 100 waiting = (Ok 1, w') ∧
    leases (w_db w') = leases (w_db waiting).
Proof.
  destruct (run_succeeds (promote_due_retries sc "proj" alice_vp 100) waiting ltac:(by_eval)) as (n & w' & Hr).
  pose proof (run_shows _ waiting (λ n _, n =? 1) n w' ltac:(by_eval) Hr) as Hn.
  apply Z.eqb_eq in Hn. rewrite Hn in Hr. exists w'. split; [exact Hr|].
  destruct (promotion_pass sc "proj" alice_vp 100 1 waiting w' Hr (idle_inv _ _)) as (_ & now & _ & Hl & _).
  exact Hl.
Defined.

Lemma reaping_pass_witness :
  ∃ w', reap_expired sc "proj" alice_vp 100 lost = (Ok 1, w') ∧ leases (w_db w') = leases (w_db lost).
Proof.
  destruct (run_succeeds (reap_expired sc "proj" alice_vp 100) lost ltac:(by_eval)) as (n & w' & Hr).
  pose proof (run_shows _ lost (λ n _, n =? 1) n w' ltac:(by_eval) Hr) as Hn.
  apply Z.eqb_eq in Hn. rewrite Hn in Hr. exists w'. split; [exact Hr|].
  destruct (reaping_pass sc "proj" alice_vp 100 1 lost w' Hr (busy_inv _)) as (_ & now & _ & Hl & _).
  exact Hl.
Defined.
End Queue.
