(* ===== verification/Gates.v ===== *)
(** * Guards from persisted facts ([gates.py], the decision gates of [policy.py])

    The guards of a run transition are computed from the database; what a caller
    claims about them is never authority.  A guard reads goals, tasks, leases,
    evidence, integration items, observations, approvals, grants and the
    authority binding of a task.  The definitions here only read: they change
    nothing but the count of clock readings. *)

From stdpp Require Import pretty.
From S2P Require Import Prelude PyStr Json Enums StateMachine Contracts Scope Db Store Leases Authority.

Local Open Scope string_scope.
Local Open Scope list_scope.
Local Open Scope Z_scope.

Definition same_json (a b : json) : bool := bool_decide (canonical_json a = canonical_json b).

(** [except (<es>) as exc: raise AuthorizationError] *)
Definition as_authorization {A} (es : list Exn) (r : res A) : res A :=
  match r with
  | Ok a => Ok a
  | Raise e => Raise (if memb e es then AuthorizationError else e)
  end.
Definition malformed : list Exn := [ContractError; PyTypeError; PyValueError].

Definition find_event (d : DB) (event_id : string) : option Event :=
  List.find (λ e, bool_decide (ev_id e = event_id)) (events d).

Section gates.
Context `{ENV : Env}.

(** ** The authority binding of a task ([policy.py]) *)

(** The comparison with the event that recorded the binding. *)
Definition source_event_ok (d : DB) (task_id : string) (binding : TaskBinding)
    (authority : CompiledTaskAuthority) : bool :=
  let canonical := JObj (CompiledTaskAuthority_to_dict authority) in
  match find_event d (tb_source_event_id binding) with
  | Some e =>
    bool_decide (ev_aggregate_type e = "task_authority")
    && bool_decide (ev_aggregate_id e = task_id)
    && bool_decide (ev_project_id e = tb_project_id binding)
    && bool_decide (ev_task_id e = Some task_id)
    && bool_decide (ev_event_type e = "task_authority_bound")
    && same_json (ev_payload e) canonical
    && bool_decide (ev_payload_digest e = payload_digest_of canonical)
    && same_json (JObj (tb_authority binding)) canonical
  | None => false
  end.

(** The comparison of the binding with its authority and its task. *)
Definition binding_ok (task_id : string) (task : TaskRow) (binding : TaskBinding)
    (authority : CompiledTaskAuthority) : bool :=
  bool_decide (ts_task_id (ct_task_spec authority) = task_id)
  && bool_decide (ts_goal_id (ct_task_spec authority) = t_goal_id task)
  && bool_decide (ar_object_id (ct_project_ref authority) = t_project_id task)
  && bool_decide (ar_object_id (ct_goal_ref authority) = t_goal_id task)
  && bool_decide (content_hash (JObj (CompiledTaskAuthority_to_dict authority)) = tb_digest binding)
  && (tb_provider_budget_minor_units binding =? ct_provider_budget_minor_units authority)
  && (tb_provider_call_limit binding =? ct_provider_call_limit authority)
  && same_json (tb_required_decision_gates binding) (jgates (ct_decision_gate_contracts authority)).

Definition parents_ok (project : ProjectSpec) (program : ProgramSpec) (goal : CompiledGoalAuthority)
    (goal_digest : string) (authority : CompiledTaskAuthority) : bool :=
  bool_decide (ct_project_ref authority = ProjectSpec_reference project)
  && bool_decide (ct_program_ref authority = ProgramSpec_reference program)
  && bool_decide (ct_goal_ref authority = CompiledGoalAuthority_reference goal)
  && bool_decide (content_hash (JObj (CompiledGoalAuthority_to_dict goal)) = goal_digest).

Definition _validated_task_authority_binding (d : DB) (task_id : string) :
    res (option (CompiledTaskAuthority * TaskBinding)) :=
  task ← of_option (tasks d !! task_id) AuthorizationError;
  let adopted := adopted_projects (registry d) !! t_project_id task in
  match task_bindings (registry d) !! task_id with
  | None => _ ← require (bool_decide (adopted = None)) AuthorizationError; Ok None
  | Some binding =>
    authority ← as_authorization malformed (CompiledTaskAuthority_from_dict (tb_authority binding));
    _ ← require (source_event_ok d task_id binding authority) AuthorizationError;
    _ ← require (binding_ok task_id task binding authority) AuthorizationError;
    project_row ← of_option adopted AuthorizationError;
    program_row ← of_option
      (r ← adopted_programs (registry d) !! tb_program_id binding;
       if bool_decide (ag_project_id r = t_project_id task) then Some r else None) AuthorizationError;
    goal_row ← of_option
      (r ← goal_bindings (registry d) !! t_goal_id task;
       if bool_decide (gb_project_id r = t_project_id task) then Some r else None) AuthorizationError;
    parents ← as_authorization malformed (
      project ← ProjectSpec_from_dict (ad_spec project_row);
      program ← ProgramSpec_from_dict (ag_spec program_row);
      goal ← CompiledGoalAuthority_from_dict (gb_authority goal_row);
      Ok (project, program, goal));
    let '(project, program, goal) := parents in
    _ ← require (parents_ok project program goal (gb_digest goal_row) authority) AuthorizationError;
    Ok (Some (authority, binding))
  end.

(** What a decision gate asks an approval for. *)
Definition contract_request (c : DecisionGateContract) : string * string * string * string :=
  (value (dg_capability c), dg_action c, dg_resource c, dg_request_digest c).

Definition gate_approval (task_id : string) (binding : TaskBinding) (version : Z)
    (c : DecisionGateContract) (now : Instant) (a : Approval) : bool :=
  bool_decide (av_task_id a = task_id) && bool_decide (av_project_id a = tb_project_id binding)
  && bool_decide (av_decision_gate a = Some (dg_gate_id c))
  && bool_decide (av_binding_digest a = Some (tb_digest binding))
  && bool_decide (av_binding_version a = Some version)
  && bool_decide ((av_capability a, av_action a, av_resource a, av_request_digest a)
                  = contract_request c)
  && bool_decide (av_decision a = "approved")
  && match av_expires_at a with Some t => julianday now <? julianday t | None => false end.

(** [contracts[gate]]: the last contract of that name. *)
Definition contract_for (cs : list DecisionGateContract) (gate : string) : option DecisionGateContract :=
  List.find (λ c, bool_decide (dg_gate_id c = gate)) (rev cs).

(** The loop over the gates to check. *)
Fixpoint gates_approved (task_id : string) (authority : CompiledTaskAuthority) (binding : TaskBinding)
    (exact_request : option (string * string * string * string)) (gates : list string) : P bool :=
  match gates with
  | [] => mret true
  | gate :: gates =>
    c ← expect (contract_for (ct_decision_gate_contracts authority) gate) PyKeyError;
    if match exact_request with Some r => negb (bool_decide (r = contract_request c)) | None => false end
    then mret false
    else
      now ← sql_now;
      approved ← read (λ d, map_any
        (gate_approval task_id binding (ct_version authority) c now) (approvals (registry d)));
      if approved : bool then gates_approved task_id authority binding exact_request gates
      else mret false
  end.

Definition _required_decision_gates_satisfied (task_id : string) (required_gates : option (list string))
    (exact_request : option (string * string * string * string)) : P bool :=
  d ← read id;
  match _validated_task_authority_binding d task_id with
  | Raise AuthorizationError => mret false
  | Raise e => raise e
  | Ok None => mret true
  | Ok (Some (authority, binding)) =>
    let gates := fromkeys (dg_gate_id <$> ct_decision_gate_contracts authority) in
    let gates_to_check := default gates required_gates in
    if negb (forallb (λ g, memb g gates) gates_to_check) then mret false
    else gates_approved task_id authority binding exact_request gates_to_check
  end.

Definition _decision_gates_for_request (d : DB) (task_id capability action resource : string) :
    res (list string) :=
  match _validated_task_authority_binding d task_id with
  | Raise AuthorizationError => Ok []
  | Raise e => Raise e
  | Ok None => Ok []
  | Ok (Some (authority, _)) =>
    Ok (dg_gate_id <$> List.filter (λ c, bool_decide
      ((value (dg_capability c), dg_action c, dg_resource c) = (capability, action, resource)))
      (ct_decision_gate_contracts authority))
  end.

Definition _decision_gates_satisfied (task_id : string) : P bool :=
  _required_decision_gates_satisfied task_id None None.

(** ** The guards *)
Definition _PASSING_EVIDENCE : list EvaluatorVerdict := [V_NOT_REQUIRED; V_PASS; V_PASS_WITH_RISK].
Definition _PASSING_EVALUATOR : list EvaluatorVerdict := [V_PASS; V_PASS_WITH_RISK].
Definition _INTEGRATION_FINAL : list IntegrationState := [I_DELIVERED; I_SUPERSEDED].
Definition _HEALTHY : list string := ["healthy"; "ok"; "pass"].

Definition _goal (d : DB) (run : RunRow) : res GoalSpec :=
  row ← of_option
    (g ← goals d !! ru_goal_id run;
     if bool_decide (go_project_id g = ru_project_id run) then Some g else None) ContractError;
  Ok (go_spec row).

Definition run_tasks (d : DB) (run : RunRow) : list TaskRow :=
  order_by (λ a b, str_leb (t_id a) (t_id b))
    (select (λ t, bool_decide (t_run_id t = Some (ru_id run))
                  && bool_decide (t_project_id t = ru_project_id run)) (tasks d)).

Definition _task_rows (d : DB) (run : RunRow) (payload : dict) : list TaskRow :=
  match dget_or payload "task_id" JNull with
  | JNull => run_tasks d run
  | JStr task_id =>
    if bool_decide (task_id = "") then [] else
    List.filter (λ t, bool_decide (t_id t = task_id)) (run_tasks d run)
  | _ => []
  end.

Definition contract_checked (d : DB) (run : RunRow) : res bool :=
  goal ← _goal d run;
  _ ← validate_goal_scope goal;
  let tasks := _task_rows d run [] in
  if bool_decide (length tasks = 0%nat) then Ok false else
  _ ← foldR (λ _ row, validate_task_within_goal goal (t_spec row)) tt tasks;
  let task_targets := (λ row, ts_evidence_target (t_spec row)) <$> tasks in
  Ok (forallb (λ s, memb s task_targets) (gs_success_evidence_states goal)).

(** [except Exception: return False] *)
Definition _contract_valid (d : DB) (run : RunRow) : bool :=
  match contract_checked d run with Ok b => b | Raise _ => false end.

(** A parameter compared with a TEXT column, and with an INTEGER column (of the
    texts only the decimal form of a number). *)
Definition sql_text (j : json) : res (option string) :=
  match j with
  | JStr s => Ok (Some s)
  | JInt z =>
    _ ← require ((-2 ^ 63 <=? z) && (z <? 2 ^ 63)) PyOverflowError;
    Ok (Some (print_int z))
  | JBool b => Ok (Some (if b then "1" else "0"))
  | JNull => Ok None
  | JList _ | JObj _ => Raise SqliteProgrammingError
  end.
Definition sql_int_is (j : json) (z : Z) : bool :=
  match j with
  | JInt n => n =? z
  | JBool b => (if b then 1 else 0) =? z
  | JStr s => bool_decide (s = print_int z)
  | _ => false
  end.

Definition held_lease (d : DB) (run : RunRow) (task_id resource_key : option string) (holder : string)
    (fence : json) (now : Instant) (l : Lease) : bool :=
  bool_decide (Some (l_task_id l) = task_id) && bool_decide (l_project_id l = ru_project_id run)
  && bool_decide (Some (l_resource_key l) = resource_key) && bool_decide (l_holder l = holder)
  && sql_int_is fence (l_fence l) && active_at now l
  && match tasks d !! l_task_id l with
     | Some t => bool_decide (t_project_id t = ru_project_id run)
                 && bool_decide (t_run_id t = Some (ru_id run))
     | None => false
     end.

Definition _lease_valid (run : RunRow) (payload : dict) (command_actor : string) : P bool :=
  match dget payload "task_id", dget payload "resource_key", dget payload "holder", dget payload "fence" with
  | Some task_id, Some resource_key, Some holder, Some fence =>
    if negb (json_is holder command_actor) then mret false else
    task_id ← lift_res (sql_text task_id);
    resource_key ← lift_res (sql_text resource_key);
    _ ← lift_res (sql_text fence);
    now ← sql_now;
    read (λ d, map_any (held_lease d run task_id resource_key command_actor fence now) (leases d))
  | _, _, _, _ => mret false
  end.

Definition resume_approval (run : RunRow) (now : Instant) (a : Approval) : bool :=
  bool_decide (av_project_id a = ru_project_id run) && bool_decide (av_run_id a = ru_id run)
  && bool_decide (av_capability a = value C_CONTROL_RESUME)
  && bool_decide (av_action a = "resume_run")
  && bool_decide (av_resource a = "run:" +:+ ru_id run)
  && bool_decide (av_decision a = "approved")
  && match av_expires_at a with Some t => julianday now <? julianday t | None => false end.

(** A non-empty string of the payload. *)
Definition payload_text (payload : dict) (k : string) : option string :=
  match dget payload k with Some (JStr s) => Some s | _ => None end.

Definition _resume_approval_valid (run : RunRow) (payload : dict) : P bool :=
  match payload_text payload "approval_id" with
  | Some approval_id =>
    if bool_decide (approval_id = "") then mret false else
    now ← sql_now;
    read (λ d, match approvals (registry d) !! approval_id with
               | Some a => resume_approval run now a
               | None => false
               end)
  | None => mret false
  end.

(** The verdicts on the evidence of a task at its target state. *)
Definition target_verdicts (d : DB) (task : TaskRow) : list EvaluatorVerdict :=
  ec_evaluator_verdict <$> select (λ c, bool_decide (ec_task_id c = t_id task)
    && bool_decide (ec_evidence_state c = ts_evidence_target (t_spec task)))
    (evidence_claims (registry d)).
Definition passes (allowed verdicts : list EvaluatorVerdict) : bool :=
  existsb (λ v, memb v allowed) verdicts.

Definition _evidence_status (d : DB) (run : RunRow) : res (bool * bool) :=
  let tasks := _task_rows d run [] in
  if bool_decide (length tasks = 0%nat) then Ok (false, false) else
  goal ← _goal d run;
  let evidence_ok := forallb (λ t, passes _PASSING_EVIDENCE (target_verdicts d t)) tasks in
  let evaluator_ok := forallb (λ t, negb (ts_evaluator_required (t_spec t))
                         || passes _PASSING_EVALUATOR (target_verdicts d t)) tasks in
  let passing allowed := (λ t, ts_evidence_target (t_spec t)) <$>
    List.filter (λ t, passes allowed (target_verdicts d t)) tasks in
  let covered allowed := forallb (λ s, memb s (passing allowed)) (gs_success_evidence_states goal) in
  Ok (evidence_ok && covered _PASSING_EVIDENCE,
      if gs_evaluator_required goal then evaluator_ok && covered _PASSING_EVALUATOR
      else evaluator_ok).

(** [all(f(x) for x in xs)] *)
Fixpoint allP {A} (f : A → P bool) (l : list A) : P bool :=
  match l with
  | [] => mret true
  | x :: l => b ← f x; if b : bool then allP f l else mret false
  end.

Definition _tasks_terminal (run : RunRow) : P bool :=
  tasks ← read (λ d, _task_rows d run []);
  if bool_decide (length tasks = 0%nat) then mret false else
  allP (λ task, if bool_decide (t_state task = T_DELIVERED)
                then _decision_gates_satisfied (t_id task) else mret false) tasks.

(** [states and all(state in final)], of the items of a task. *)
Definition integrated (d : DB) (task_id : string) : bool :=
  let states := ii_state <$> select (λ i, bool_decide (ii_task_id i = task_id))
                  (integration_items (registry d)) in
  negb (bool_decide (states = [])) && forallb (λ s, memb s _INTEGRATION_FINAL) states.

Definition _integration_satisfied (run : RunRow) : P bool :=
  tasks ← read (λ d, _task_rows d run []);
  if bool_decide (length tasks = 0%nat) then mret false else
  allP (λ task,
    gates ← _decision_gates_satisfied (t_id task);
    if negb gates then mret false
    else if negb (ts_integration_required (t_spec task)) then mret true
    else read (λ d, integrated d (t_id task))) tasks.

(** [ORDER BY observed_at DESC, recorded_at DESC] *)
Definition newest (a b : Observation) : bool :=
  (ob_observed_at b <? ob_observed_at a)
  || ((ob_observed_at b =? ob_observed_at a) && (ob_recorded_at b <=? ob_recorded_at a)).
Definition surface_observations (d : DB) (run : RunRow) (surface : string) : list Observation :=
  order_by newest (select (λ o, bool_decide (ob_run_id o = ru_id run)
                                && bool_decide (ob_surface_key o = surface))
                     (observations (registry d))).

(** [CAST(strftime('%s', t) AS INTEGER)] *)
Definition unix_seconds (t : Instant) : Z := julianday t / 1000.

Definition observer_enabled (d : DB) (principal_id : string) : bool :=
  match principals d !! principal_id with
  | Some p => p_enabled p && present (principal_roles d) (principal_id, R_OBSERVER)
  | None => false
  end.

(** The checks of one required surface on its latest observation. *)
Definition surface_static (d : DB) (run : RunRow) (requirement : RuntimeSurfaceSpec)
    (latest : Observation) : bool :=
  memb (ob_status latest) _HEALTHY
  && bool_decide (ob_target_identity latest = rs_target_identity requirement)
  && memb (ob_probe_name latest) (rs_allowed_probes requirement)
  && negb (rs_trigger_event_required requirement && bool_decide (ob_trigger_event_id latest = None))
  && match ob_trigger_event_id latest with
     | Some e => existsb (λ f, bool_decide (ev_id f = e) && bool_decide (ev_run_id f = Some (ru_id run)))
                   (events d)
     | None => true
     end
  && observer_enabled d (ob_observer latest)
  && let ttl := unix_seconds (ob_expires_at latest) - unix_seconds (ob_observed_at latest) in
     (0 <=? ttl) && (ttl <=? rs_max_ttl_seconds requirement).

Definition signature (o : Observation) : string * string * string :=
  (ob_target_identity o, ob_status o, ob_value_digest o).

Definition surface_fresh (run : RunRow) (requirement : RuntimeSurfaceSpec) : P bool :=
  d ← read id;
  match surface_observations d run (rs_surface_key requirement) with
  | [] => mret false
  | (latest :: _) as rows =>
    if negb (surface_static d run requirement latest) then mret false else
    now ← sql_now;
    if negb ((julianday (ob_observed_at latest) <=? julianday now)
             && (julianday now <? julianday (ob_expires_at latest))) then mret false
    else mret (forallb (λ o, negb (ob_observed_at o =? ob_observed_at latest)
                             || bool_decide (signature o = signature latest)) rows)
  end.

Definition _freshness_satisfied (run : RunRow) : P bool :=
  d ← read id;
  goal ← lift_res (_goal d run);
  allP (surface_fresh run) (gs_required_runtime_surfaces goal).

Definition _ci_green (d : DB) (run : RunRow) (payload : dict) : bool :=
  match payload_text payload "integration_id" with
  | Some integration_id =>
    match integration_items (registry d) !! integration_id with
    | Some i => bool_decide (ii_run_id i = ru_id run)
                && memb (ii_state i) [I_MERGE_PENDING; I_DEPLOY_PENDING; I_DELIVERED]
    | None => false
    end
  | None => false
  end.

Definition _repair_route_selected (d : DB) (run : RunRow) (payload : dict) : bool :=
  match payload_text payload "task_id" with
  | Some task_id => map_any (λ n, bool_decide (n_task_id n = task_id)
      && bool_decide (n_run_id n = ru_id run) && negb (bool_decide (n_repair_route n = "")))
      (negatives d)
  | None => false
  end.

Definition usable_grant (run : RunRow) (now : Instant) (g : Grant) : bool :=
  bool_decide (gr_run_id g = ru_id run) && bool_decide (gr_revoked_at g = None)
  && (julianday (gr_not_before g) <=? julianday now) && (julianday now <? julianday (gr_expires_at g))
  && (gr_used_count g <? gr_max_uses g) && (gr_cost_used g <=? gr_cost_limit g).

Definition _capability_available (run : RunRow) (payload : dict) : P bool :=
  match payload_text payload "grant_id" with
  | Some grant_id =>
    now ← sql_now;
    read (λ d, match grants (registry d) !! grant_id with
               | Some g => usable_grant run now g
               | None => false
               end)
  | None => mret false
  end.

Definition _resolve_one (run : RunRow) (name : string) (payload : dict) (command_actor : string) : P bool :=
  if memb name ["contract_valid"; "readiness_gate_passed"] then read (λ d, _contract_valid d run)
  else if bool_decide (name = "lease_valid") then _lease_valid run payload command_actor
  else if memb name ["approval_valid"; "resume_authorized"; "owner_decision_recorded"]
    then _resume_approval_valid run payload
  else if bool_decide (name = "evidence_satisfied") then
    d ← read id; status ← lift_res (_evidence_status d run); mret status.1
  else if bool_decide (name = "evaluator_satisfied") then
    d ← read id; status ← lift_res (_evidence_status d run); mret status.2
  else if bool_decide (name = "integration_satisfied") then _integration_satisfied run
  else if bool_decide (name = "freshness_satisfied") then _freshness_satisfied run
  else if bool_decide (name = "tasks_terminal") then _tasks_terminal run
  else if bool_decide (name = "ci_green") then read (λ d, _ci_green d run payload)
  else if bool_decide (name = "repair_route_selected") then read (λ d, _repair_route_selected d run payload)
  else if bool_decide (name = "capability_available") then _capability_available run payload
  else if bool_decide (name = "improvement_routed") then
    read (λ d, map_any (λ p, bool_decide (ip_source_run_id p = ru_id run)) (proposals (registry d)))
  else raise ContractError.

(** The dictionary of guard results, in the order of the rule. *)
Fixpoint resolve_all (run : RunRow) (names : list string) (payload : dict) (command_actor : string)
    : P (list (string * bool)) :=
  match names with
  | [] => mret []
  | name :: names =>
    b ← _resolve_one run name payload command_actor;
    rest ← resolve_all run names payload command_actor;
    mret ((name, b) :: rest)
  end.

Definition resolve (run : RunRow) (event : LoopEvent) (payload : dict) (command_actor : string)
    : P (list (string * bool)) :=
  match LOOP_TRANSITIONS (ru_loop_state run) event with
  | None => mret []
  | Some r => resolve_all run (rule_guards r) payload command_actor
  end.
End gates.

(** Guards only read. *)
Section guards.
Context `{ENV : Env} (I : DB → Prop).

Lemma keeps_gates_approved task authority binding request gates :
  keeps I (gates_approved task authority binding request gates).
Proof. induction gates as [|g gates IH]; simpl; keeps_walk. Qed.
Lemma keeps_required_gates task gates request : keeps I (_required_decision_gates_satisfied task gates request).
Proof. unfold _required_decision_gates_satisfied. keeps_walk. apply keeps_gates_approved. Qed.
Lemma keeps_allP {A} (f : A → P bool) l : (∀ x, keeps I (f x)) → keeps I (allP f l).
Proof. intros Hf. induction l as [|x l IH]; simpl; keeps_walk. Qed.
Lemma keeps_freshness run : keeps I (_freshness_satisfied run).
Proof.
  unfold _freshness_satisfied. keeps_walk. apply keeps_allP. intros x. unfold surface_fresh. keeps_walk.
Qed.
Lemma keeps_resolve_one run name payload actor : keeps I (_resolve_one run name payload actor).
Proof.
  unfold _resolve_one, _lease_valid, _resume_approval_valid, _capability_available, _integration_satisfied,
    _tasks_terminal, _decision_gates_satisfied.
  keeps_walk; first [apply keeps_freshness | apply keeps_allP; intros ?; unfold _decision_gates_satisfied;
    keeps_walk; apply keeps_required_gates].
Qed.
Lemma keeps_resolve run event payload actor : keeps I (resolve run event payload actor).
Proof.
  unfold resolve. destruct (LOOP_TRANSITIONS _ _) as [r|]; [|apply keeps_ret].
  induction (rule_guards r) as [|n ns IH]; simpl; keeps_walk. apply keeps_resolve_one.
Qed.
End guards.
#[export] Hint Extern 1 (keeps _ (resolve _ _ _ _)) => apply keeps_resolve : keeps.
#[export] Hint Extern 1 (keeps _ (_required_decision_gates_satisfied _ _ _)) => apply keeps_required_gates : keeps.
#[export] Hint Extern 1 (keeps _ (_freshness_satisfied _)) => apply keeps_freshness : keeps.
