(* ===== verification/Registries.v ===== *)
(** * What the registries beside the core share

    Approvals and grants, the integration queue, evidence, observations and
    effects are kept by services of their own, beside the tables of goals, runs
    and tasks.  Their commands only write their own tables and log events of their
    own kinds; this file says so once ([kept_beside]), so that an invariant of the
    core is shown to survive all of them by three short arguments. *)

From S2P Require Import Prelude PyStr Json Enums Contracts Db Store.

Local Open Scope string_scope.
Local Open Scope list_scope.
Local Open Scope Z_scope.

(** The kinds of event that the registries log. *)
Definition beside_types : list string :=
  ["approval"; "grant"; "capability_use"; "integration"; "artifact"; "evidence"; "runtime_observation"; "effect";
   "context_item"; "context_assembly"; "memory_item"; "eval"; "improvement"; "sealed_custody"].

(** Everything but the tables of the registries and [negative_results]. *)
Definition core_part (d : DB) :=
  ((principals d, principal_roles d, sessions d), (events d, idempotency d), (goals d, runs d, tasks d),
   (attempts d, leases d), evidence_claims (registry d),
   (adopted_projects (registry d), adopted_programs (registry d)),
   (goal_bindings (registry d), task_bindings (registry d))).
Definition beside (f : DB → DB) : Prop := ∀ d, core_part (f d) = core_part d.

(** What such a write leaves alone, table by table. *)
Lemma beside_tables f d : beside f →
  events (f d) = events d ∧ idempotency (f d) = idempotency d ∧ goals (f d) = goals d ∧ runs (f d) = runs d ∧
  tasks (f d) = tasks d ∧ attempts (f d) = attempts d ∧ leases (f d) = leases d ∧
  evidence_claims (registry (f d)) = evidence_claims (registry d) ∧
  adopted_projects (registry (f d)) = adopted_projects (registry d) ∧
  adopted_programs (registry (f d)) = adopted_programs (registry d) ∧
  goal_bindings (registry (f d)) = goal_bindings (registry d) ∧
  task_bindings (registry (f d)) = task_bindings (registry d).
Proof. intros Hf. specialize (Hf d). unfold core_part in Hf. by simplify_eq. Qed.
Lemma types_apart (l types : list string) ty :
  forallb (λ t, negb (memb t types)) l = true → ty ∈ l → ty ∉ types.
Proof.
  intros Hl Hty Hin. rewrite forallb_In in Hl. specialize (Hl ty Hty).
  apply negb_true_iff, bool_decide_eq_false in Hl. done.
Qed.

Section registries.
Context `{ENV : Env}.

(** [x.strip()], which must not be empty. *)
Definition required_text (e : Exn) (v : string) : res string :=
  _ ← require (negb (blank v)) e; Ok (strip v).

(** [x or str(uuid.uuid4())] *)
Definition given_or_new (o : option string) : P string :=
  match o with
  | Some s => if bool_decide (s = "") then new_uuid else mret s
  | None => new_uuid
  end.

(** The event of a registry, with the defaults of [append_event]. *)
Definition registry_event (aggregate_type aggregate_id : string) (expected_version : Z)
    (project_id run_id : string) (task_id : option string) (event_type actor policy_version : string)
    (payload : dict) (authority owner : option nat) (key causation : option string) (auth_context : dict)
    (confidentiality : string) (command_id : string) : EventArgs := {|
  ea_aggregate_type := aggregate_type; ea_aggregate_id := aggregate_id;
  ea_expected_version := expected_version; ea_project_id := project_id; ea_event_type := event_type;
  ea_actor := actor; ea_command_id := command_id; ea_correlation_id := run_id;
  ea_policy_version := policy_version; ea_payload := payload; ea_auth_context := auth_context;
  ea_auth_session := None; ea_command_authority := authority; ea_command_owner := owner;
  ea_run_id := Some run_id; ea_task_id := task_id; ea_idempotency_key := key;
  ea_causation_id := causation; ea_confidentiality := confidentiality; ea_occurred_at := None |}.

Definition insert_evidence_claim (c : EvidenceClaim) : P unit :=
  _ ← constraint (λ d, absent (evidence_claims (registry d)) (ec_id c) && present (tasks d) (ec_task_id c)
        && present (principals d) (ec_verifier_principal_id c));
  write (set_evidence_claims <[ec_id c := c]>).

(** An invariant that everything the registries do keeps. *)
Record kept_beside (I : DB → Prop) : Prop := {
  kb_event a : ea_aggregate_type a ∈ beside_types → keeps I (append_event a);
  kb_write f : beside f → keeps I (write f);
  kb_evidence c : keeps I (insert_evidence_claim c) }.

(** What one registry does: it logs events of [types] and makes writes of [mine]. *)
Record footprint (types : list string) (mine : (DB → DB) → Prop) (I : DB → Prop) : Prop := {
  fp_event a : ea_aggregate_type a ∈ types → keeps I (append_event a);
  fp_write f : mine f → keeps I (write f) }.

Lemma footprint_beside types mine I :
  forallb (λ t, memb t beside_types) types = true → (∀ f, mine f → beside f) →
  kept_beside I → footprint types mine I.
Proof.
  intros Ht Hm HI. constructor.
  - intros a Ha. apply (kb_event I HI). rewrite forallb_In in Ht. by apply memb_true, Ht.
  - intros f Hf. by apply (kb_write I HI), Hm.
Qed.

Lemma keeps_given_or_new I o : keeps I (given_or_new o).
Proof. unfold given_or_new. keeps_walk. Qed.

Lemma pure_given_or_new o : pure_db (given_or_new o).
Proof. unfold given_or_new. repeat case_match; by intros ?. Qed.

Lemma pure_read {A} (f : DB → A) : pure_db (read f).
Proof. by intros ?. Qed.
Lemma pure_clock : pure_db utc_now.
Proof. by intros ?. Qed.
Lemma pure_lift {A} (r : res A) : pure_db (lift_res r).
Proof. intros ?. by destruct r. Qed.
Lemma pure_expect {A} (o : option A) e : pure_db (expect o e).
Proof. intros ?. by destruct o. Qed.
Lemma pure_mret {A} (a : A) : pure_db (mret a).
Proof. by intros ?. Qed.
End registries.
#[export] Hint Resolve keeps_given_or_new : keeps.
#[export] Hint Resolve pure_given_or_new pure_read pure_clock pure_lift pure_expect pure_mret : pure.
(** What only reads, call by call. *)
Ltac pure_walk := repeat first
  [ solve [auto with pure] | apply pure_bind; [|intros ?]
  | match goal with |- pure_db (match ?x with _ => _ end) => destruct x
                  | |- pure_db (let _ := _ in _) => progress cbv zeta end ].

(** A literal of [beside_types]. *)
Ltac listed := cbn; apply (bool_decide_unpack _); vm_compute; exact I.

(** A write of one table, or of one of several. *)
Definition only {A} (table : A → DB → DB) (f : DB → DB) : Prop := ∃ g, f = table g.

(** The goals that [keeps_walk] leaves of a registry command. *)
Ltac registry_walk HI := keeps_walk; first
  [ apply (fp_event _ _ _ HI); listed | apply (fp_write _ _ _ HI); unfold only; solve [eauto 8] ].
Ltac beside_writes := unfold only; intros f Hf d; destruct_or?; destruct Hf as [g ->]; done.
