(* ===== verification/Policy.v ===== *)
(** * Capability approvals, grants and their consumption ([policy.py])

    [PolicyEngine] turns an owner's approval into a grant for one task,
    principal, capability, action, resource and request digest, and spends the
    uses and the cost of a grant one request at a time.  A capability argument is
    its text; [Gates] models the decision gates of the module. *)

From S2P Require Import Prelude PyStr Json Enums StateMachine Contracts Scope Db Store Identity.
From S2P Require Import Leases Authority Gates Registries.

Local Open Scope string_scope.
Local Open Scope list_scope.
Local Open Scope Z_scope.

(** ** Tables of the module *)
Definition _TYPED_RESOURCE_SCHEMES (capability : string) : option string :=
  if bool_decide (capability = value C_PROVIDER_COST) then Some "provider://"
  else if bool_decide (capability = value C_REPO_REMOTE) then Some "repo://"
  else if bool_decide (capability = value C_PUBLIC_RELEASE) then Some "release://"
  else None.

(** The scope of the task contract that covers a capability; [NETWORK] has none. *)
Definition _CAPABILITY_SCOPE_KIND (c : Capability) : option string :=
  match c with
  | C_READ_LOCAL | C_EXTERNAL_DOWNLOAD | C_SERVER_READ => Some "read"
  | C_NETWORK => None
  | _ => Some "write"
  end.

Definition _CAPABILITY_ACTIONS (c : Capability) : option (list string) :=
  match c with
  | C_READ_LOCAL => Some ["exists"; "hash"; "inspect"; "list"; "read"; "stat"]
  | C_WRITE_LOCAL => Some ["copy"; "create"; "format"; "mkdir"; "patch"; "synthetic_write"; "update"; "write"]
  | C_NETWORK => None
  | C_EXTERNAL_DOWNLOAD => Some ["download"; "fetch"; "get"; "head"]
  | C_REPO_REMOTE => Some ["merge"; "open_pr"; "push"; "update_pr"]
  | C_SERVER_READ => Some ["inspect"; "list"; "logs"; "probe"; "query"; "read"; "status"]
  | C_SERVER_WRITE =>
      Some ["configure"; "deploy"; "reload"; "restart"; "start"; "stop"; "upload"; "write"]
  | C_PROVIDER_COST => Some ["call"; "embed"; "generate"; "invoke"; "synthesize"; "transcribe"]
  | C_PUBLIC_RELEASE => Some ["publish"; "release"]
  | C_DESTRUCTIVE => Some ["delete"; "drop"; "purge"; "remove"; "truncate"]
  | C_DURABLE_MEMORY_PROMOTION => Some ["promote_memory"]
  | C_ACTIVE_RULE_PROMOTION => Some ["promote_improvement:active"; "promote_improvement:limited"]
  | C_CONTROL_RESUME => Some ["resume"; "resume_run"; "resume_task"]
  end.

Definition _NETWORK_READ_ACTIONS : list string :=
  ["download"; "fetch"; "get"; "head"; "inspect"; "list"; "probe"; "query"; "read"].
Definition _NETWORK_WRITE_ACTIONS : list string :=
  ["call"; "connect"; "invoke"; "patch"; "post"; "publish"; "put"; "send"; "upload"; "write"].
Definition _EXECUTABLE_RUN_STATES : list LoopState := [L_READY; L_RUNNING].
Definition _EXECUTABLE_TASK_STATES : list TaskState := [T_READY; T_LEASED; T_RUNNING].
Definition _INTEGRATION_RUN_STATES : list LoopState :=
  [L_READY; L_RUNNING; L_EVIDENCE_PENDING; L_INTEGRATION_PENDING; L_CI_PENDING; L_DEPLOY_DIR_UPDATED;
   L_RUNTIME_STALE; L_RUNTIME_CHECK_PENDING; L_RUNTIME_FRESH].
Definition _INTEGRATION_TASK_STATES : list TaskState :=
  [T_READY; T_LEASED; T_RUNNING; T_EVIDENCE_PENDING; T_EVALUATOR_PENDING; T_INTEGRATION_PENDING].
Definition _INTEGRATION_CAPABILITIES : list Capability :=
  [C_REPO_REMOTE; C_SERVER_READ; C_SERVER_WRITE; C_PUBLIC_RELEASE; C_DESTRUCTIVE].
Definition _PROMOTION_CAPABILITIES : list Capability :=
  [C_DURABLE_MEMORY_PROMOTION; C_ACTIVE_RULE_PROMOTION].

(** Every capability has its roles, by default a worker and the system. *)
Definition _CAPABILITY_EXECUTION_ROLES (c : Capability) : list Role :=
  match c with
  | C_REPO_REMOTE | C_SERVER_WRITE => [R_WORKER; R_RELEASE; R_SYSTEM]
  | C_PUBLIC_RELEASE => [R_RELEASE; R_SYSTEM]
  | C_DESTRUCTIVE => [R_WORKER; R_OWNER; R_SYSTEM]
  | C_DURABLE_MEMORY_PROMOTION | C_ACTIVE_RULE_PROMOTION | C_CONTROL_RESUME => [R_OWNER; R_SYSTEM]
  | _ => [R_WORKER; R_SYSTEM]
  end.

(** ** What the engine returns *)
Record ApprovalRecord := {
  apr_approval_id : string; apr_project_id : string; apr_goal_id : string; apr_run_id : string;
  apr_task_id : string; apr_requester : string; apr_approver : option string;
  apr_capability : string; apr_action : string; apr_resource : string; apr_request_digest : string;
  apr_policy_version : string; apr_decision : string; apr_requested_at : Instant;
  apr_decided_at : option Instant; apr_expires_at : option Instant }.

Record CapabilityGrant := {
  cg_grant_id : string; cg_project_id : string; cg_goal_id : string; cg_run_id : string;
  cg_task_id : string; cg_approval_id : option string; cg_issuer : string; cg_principal : string;
  cg_capability : string; cg_action : string; cg_resource : string; cg_request_digest : string;
  cg_policy_version : string; cg_not_before : Instant; cg_expires_at : Instant; cg_max_uses : Z;
  cg_used_count : Z; cg_cost_limit : Z; cg_cost_used : Z; cg_required_fence : option Z;
  cg_revoked_at : option Instant }.

Record CapabilityUse := {
  cu_grant_id : string; cu_idempotency_key : string; cu_request_digest : string; cu_cost : Z;
  cu_used_at : Instant; cu_effect_id : option string; cu_used_count : Z; cu_cost_used : Z;
  cu_required_fence : option Z; cu_replayed : bool }.

Definition _approval_record (row : Approval) : ApprovalRecord := {|
  apr_approval_id := av_id row; apr_project_id := av_project_id row; apr_goal_id := av_goal_id row;
  apr_run_id := av_run_id row; apr_task_id := av_task_id row; apr_requester := av_requester row;
  apr_approver := av_approver row; apr_capability := av_capability row; apr_action := av_action row;
  apr_resource := av_resource row; apr_request_digest := av_request_digest row;
  apr_policy_version := av_policy_version row; apr_decision := av_decision row;
  apr_requested_at := av_requested_at row; apr_decided_at := av_decided_at row;
  apr_expires_at := av_expires_at row |}.

Definition _grant_record (row : Grant) : CapabilityGrant := {|
  cg_grant_id := gr_id row; cg_project_id := gr_project_id row; cg_goal_id := gr_goal_id row;
  cg_run_id := gr_run_id row; cg_task_id := gr_task_id row; cg_approval_id := gr_approval_id row;
  cg_issuer := gr_issuer row; cg_principal := gr_principal row; cg_capability := gr_capability row;
  cg_action := gr_action row; cg_resource := gr_resource row;
  cg_request_digest := gr_request_digest row; cg_policy_version := gr_policy_version row;
  cg_not_before := gr_not_before row; cg_expires_at := gr_expires_at row;
  cg_max_uses := gr_max_uses row; cg_used_count := gr_used_count row;
  cg_cost_limit := gr_cost_limit row; cg_cost_used := gr_cost_used row;
  cg_required_fence := gr_required_fence row; cg_revoked_at := gr_revoked_at row |}.

(** The engine: its identity and the protected command authority it holds. *)
Record PolicyEngine := { pe_self : nat; pe_command_authority : nat }.

(** SQLite's [INTEGER] has 64 bits; binding a larger number is refused. *)
Definition int64 (z : Z) : bool := (-2 ^ 63 <=? z) && (z <? 2 ^ 63).

Module Engine.

(** ** Arguments *)
Definition _required_text (v : string) : res string :=
  required_text AuthorizationError v.
Definition _digest (v : string) : res string :=
  v ← _required_text v;
  _ ← require (sha256_hex (lower v)) AuthorizationError; Ok (lower v).
Definition _positive_int (v : Z) : res Z := _ ← require (1 <=? v) AuthorizationError; Ok v.
Definition _cost (v : Z) : res Z := _ ← require (0 <=? v) AuthorizationError; Ok v.
Definition _fence (v : option Z) : res (option Z) :=
  match v with None => Ok None | Some v => v ← _positive_int v; Ok (Some v) end.

(** [Capability(value)], a [ValueError] turned into an [AuthorizationError]. *)
Definition member_of (v : string) : res Capability := as_authorization malformed (of_value v).
Definition _capability (v : string) : res string := c ← member_of v; Ok (value c).

Definition _scope_kind (capability action : string) : res string :=
  member ← of_value capability;
  _ ← require (bool_decide (action = casefold (strip action))) AuthorizationError;
  if bool_decide (member = C_NETWORK) then
    if memb action _NETWORK_READ_ACTIONS then Ok "read"
    else if memb action _NETWORK_WRITE_ACTIONS then Ok "write"
    else Raise AuthorizationError
  else
    scope_kind ← of_option (_CAPABILITY_SCOPE_KIND member) AuthorizationError;
    allowed_actions ← of_option (_CAPABILITY_ACTIONS member) AuthorizationError;
    _ ← require (memb action allowed_actions) AuthorizationError;
    Ok scope_kind.

Definition _assert_execution_role (roles : list Role) (capability : string) : res unit :=
  member ← of_value capability;
  require (existsb (λ r, memb r (_CAPABILITY_EXECUTION_ROLES member)) roles) AuthorizationError.

Section engine.
Context `{ENV : Env}.

(** ** What the operations check *)
Definition _now : P Instant := sql_now.

(** [strftime(..., 'now', '+N seconds')], which is NULL past the year 9999. *)
Definition _expires (ttl_seconds : Z) : P (option Instant) :=
  now ← sql_now;
  let t := now + ttl_seconds * 1000000 in
  mret (if t <=? max_instant then Some t else None).

(** The task with its goal and its run. *)
Definition _assert_task_scope (project_id goal_id run_id task_id : string) : P (TaskRow * GoalRow * RunRow) :=
  d ← read id;
  expect (
    t ← tasks d !! task_id;
    r ← runs d !! run_id;
    g ← goals d !! goal_id;
    if bool_decide (t_project_id t = project_id) && bool_decide (t_goal_id t = goal_id)
       && bool_decide (t_run_id t = Some run_id) && bool_decide (ru_project_id r = project_id)
       && bool_decide (ru_goal_id r = goal_id) && bool_decide (go_project_id g = project_id)
    then Some (t, g, r) else None) AuthorizationError.

Inductive Phase := Ph_approval | Ph_grant | Ph_consume.

Definition allowed_run_states (member : Capability) (phase : Phase) : list LoopState :=
  if memb member _INTEGRATION_CAPABILITIES then
    match phase with
    | Ph_consume => List.filter (λ s, negb (bool_decide (s = L_READY))) _INTEGRATION_RUN_STATES
    | _ => _INTEGRATION_RUN_STATES
    end
  else match phase with Ph_consume => [L_RUNNING] | _ => _EXECUTABLE_RUN_STATES end.
Definition allowed_task_states (member : Capability) (phase : Phase) : list TaskState :=
  if memb member _INTEGRATION_CAPABILITIES then
    match phase with
    | Ph_consume => List.filter (λ s, negb (memb s [T_READY; T_LEASED])) _INTEGRATION_TASK_STATES
    | _ => _INTEGRATION_TASK_STATES
    end
  else match phase with Ph_consume => [T_RUNNING] | _ => _EXECUTABLE_TASK_STATES end.

Definition _assert_task_lifecycle (task_state : TaskState) (run_state : LoopState) (capability : string)
    (phase : Phase) : res unit :=
  member ← member_of capability;
  if memb member _PROMOTION_CAPABILITIES then
    _ ← require (match phase with Ph_approval => true | _ => false end) AuthorizationError;
    require (negb (memb task_state [T_CANCELED; T_DELETED; T_RETIRED])) AuthorizationError
  else if bool_decide (member = C_CONTROL_RESUME) then
    _ ← require (memb run_state [L_SUSPENDED; L_BLOCKED_CAPABILITY; L_BLOCKED_DECISION; L_BLOCKED_MISSING_STATE])
          AuthorizationError;
    require (negb (memb task_state [T_DELIVERED; T_CANCELED; T_DELETED; T_RETIRED])) AuthorizationError
  else
    _ ← require (memb run_state (allowed_run_states member phase)) AuthorizationError;
    require (memb task_state (allowed_task_states member phase)) AuthorizationError.

Definition _assert_task_authority (spec : TaskSpec) (goal : GoalSpec) (capability action resource : string)
    : res unit :=
  as_authorization malformed (
    _ ← validate_task_within_goal goal spec;
    member ← of_value capability;
    _ ← require (memb member (ts_capabilities spec)) AuthorizationError;
    scope_kind ← _scope_kind capability action;
    _ ← require (match _TYPED_RESOURCE_SCHEMES capability with
                 | Some required_scheme => startswith (casefold resource) required_scheme
                 | None => true
                 end) AuthorizationError;
    forbidden ← anyR (scopes_overlap resource) (ts_forbidden_scope spec);
    _ ← require (negb forbidden) AuthorizationError;
    allowed ← scope_allowed (if bool_decide (scope_kind = "read") then ts_read_scope spec
                             else ts_write_scope spec) resource;
    require allowed AuthorizationError).

Definition current_lease (resource project_id task_id principal : string) (fence : option Z) (now : Instant)
    (d : DB) : bool :=
  match leases d !! resource with
  | Some l => bool_decide (l_project_id l = project_id) && bool_decide (l_task_id l = task_id)
              && bool_decide (l_holder l = principal)
              && match fence with Some f => l_fence l =? f | None => true end && active_at now l
  | None => false
  end.
Definition _assert_current_lease (resource project_id task_id principal : string) (fence : Z) : P unit :=
  _ ← ensure (int64 fence) PyOverflowError;
  now ← sql_now;
  b ← read (current_lease resource project_id task_id principal (Some fence) now);
  ensure b AuthorizationError.
Definition _assert_current_task_claim (project_id task_id principal : string) : P unit :=
  now ← sql_now;
  b ← read (current_lease ("task://" +:+ task_id) project_id task_id principal None now);
  ensure b AuthorizationError.

(** ** Insertions *)
Definition insert_approval (a : Approval) : P unit :=
  _ ← ensure (match av_binding_version a with Some v => int64 v | None => true end) PyOverflowError;
  _ ← constraint (λ d, absent (approvals (registry d)) (av_id a) && present (goals d) (av_goal_id a)
        && present (runs d) (av_run_id a) && present (tasks d) (av_task_id a));
  write (set_approvals <[av_id a := a]>).

Definition insert_grant (g : Grant) : P unit :=
  _ ← ensure (int64 (gr_max_uses g) && int64 (gr_cost_limit g)
              && match gr_required_fence g with Some f => int64 f | None => true end) PyOverflowError;
  _ ← constraint (λ d, absent (grants (registry d)) (gr_id g) && (0 <? gr_max_uses g)
        && (0 <=? gr_used_count g) && (0 <=? gr_cost_limit g) && (0 <=? gr_cost_used g)
        && (gr_not_before g <? gr_expires_at g)
        && match gr_approval_id g with Some a => present (approvals (registry d)) a | None => true end
        && present (tasks d) (gr_task_id g));
  write (set_grants <[gr_id g := g]>).

Definition insert_usage (u : Usage) : P unit :=
  _ ← constraint (λ d, absent (capability_usage (effects (registry d))) (us_grant_id u, us_idempotency_key u)
        && (0 <=? us_cost u) && present (grants (registry d)) (us_grant_id u));
  write (set_capability_usage <[(us_grant_id u, us_idempotency_key u) := u]>).

(** An event of the engine. *)
Definition policy_event (aggregate_type aggregate_id : string) (expected_version : Z)
    (project_id run_id task_id event_type actor policy_version : string) (payload : dict)
    (authority owner : option nat) (key : option string) : string → EventArgs :=
  registry_event aggregate_type aggregate_id expected_version project_id run_id (Some task_id) event_type
    actor policy_version payload authority owner key None [] "internal".

Definition jint (o : option Z) : json := match o with Some z => JInt z | None => JNull end.
Definition jtime (o : option Instant) : json := match o with Some t => JStr (iso_sql t) | None => JNull end.

(** [PolicyEngine.__init__] *)
Definition new_PolicyEngine (o : Obj) : P PolicyEngine :=
  token ← _bind_protected_command_authority o "policy_engine"
            (protected_authority_config_digest "policy_engine" []) [];
  mret {| pe_self := o_id o; pe_command_authority := token |}.

(** ** Operations *)
Context (self : PolicyEngine).

Record ApprovalArgs := {
  aa_project_id : string; aa_goal_id : string; aa_run_id : string; aa_task_id : string;
  aa_capability : string; aa_action : string; aa_resource : string; aa_request_digest : string;
  aa_policy_version : string; aa_decision : string; aa_ttl_seconds : Z }.

Definition approval_args (a : ApprovalArgs) : res ApprovalArgs :=
  project_id ← _required_text (aa_project_id a);
  goal_id ← _required_text (aa_goal_id a);
  run_id ← _required_text (aa_run_id a);
  task_id ← _required_text (aa_task_id a);
  capability_value ← _capability (aa_capability a);
  action ← _required_text (aa_action a);
  resource ← _required_text (aa_resource a);
  request_digest ← _digest (aa_request_digest a);
  policy_version ← _required_text (aa_policy_version a);
  _ ← require (memb (aa_decision a) ["approved"; "denied"]) AuthorizationError;
  ttl_seconds ← _positive_int (aa_ttl_seconds a);
  Ok {| aa_project_id := project_id; aa_goal_id := goal_id; aa_run_id := run_id; aa_task_id := task_id;
        aa_capability := capability_value; aa_action := action; aa_resource := resource;
        aa_request_digest := request_digest; aa_policy_version := policy_version;
        aa_decision := aa_decision a; aa_ttl_seconds := ttl_seconds |}.

(** The binding columns of an approval: digest, version and gate. *)
Definition approval_binding (a : ApprovalArgs) (b : option (CompiledTaskAuthority * TaskBinding)) :
    option string * option Z * option string :=
  match b with
  | Some (authority, binding) =>
    (Some (tb_digest binding), Some (ct_version authority),
     dg_gate_id <$> List.find (λ c, bool_decide (contract_request c =
       (aa_capability a, aa_action a, aa_resource a, aa_request_digest a)))
       (ct_decision_gate_contracts authority))
  | None => (None, None, None)
  end.

Definition approval_row (a : ApprovalArgs) (approval_id requester approver : string)
    (binding : option string * option Z * option string) (now : Instant) (expires_at : option Instant)
    : Approval := {|
  av_id := approval_id; av_project_id := aa_project_id a; av_goal_id := aa_goal_id a;
  av_run_id := aa_run_id a; av_task_id := aa_task_id a; av_requester := requester;
  av_approver := Some approver; av_capability := aa_capability a; av_action := aa_action a;
  av_resource := aa_resource a; av_request_digest := aa_request_digest a;
  av_binding_digest := binding.1.1; av_binding_version := binding.1.2; av_decision_gate := binding.2;
  av_policy_version := aa_policy_version a; av_decision := aa_decision a; av_requested_at := now;
  av_decided_at := Some now; av_expires_at := expires_at |}.

Definition approval_event (a : Approval) (approver : string) : string → EventArgs :=
  policy_event "approval" (av_id a) 0 (av_project_id a) (av_run_id a) (av_task_id a) "approval_decided"
    approver (av_policy_version a)
    [("requester", JStr (av_requester a)); ("capability", JStr (av_capability a));
     ("action", JStr (av_action a)); ("resource", JStr (av_resource a));
     ("request_digest", JStr (av_request_digest a)); ("decision", JStr (av_decision a));
     ("expires_at", jtime (av_expires_at a)); ("authority_binding_digest", jopt (av_binding_digest a));
     ("authority_binding_version", jint (av_binding_version a));
     ("decision_gate", jopt (av_decision_gate a))]
    (Some (pe_command_authority self)) (Some (pe_self self)) None.

Definition record_approval (requester approver : VerifiedPrincipal) (args : ApprovalArgs)
    (approval_id : option string) : P ApprovalRecord :=
  a ← lift_res (approval_args args);
  approval_id ← given_or_new approval_id;
  approval_id ← lift_res (_required_text approval_id);
  transaction (
    requester_record ← verify_in_transaction requester;
    approver_record ← require_role_in_transaction approver R_OWNER;
    let requester_id := pr_id requester_record in
    let approver_id := pr_id approver_record in
    _ ← ensure (negb (bool_decide (requester_id = approver_id))) AuthorizationError;
    scope ← _assert_task_scope (aa_project_id a) (aa_goal_id a) (aa_run_id a) (aa_task_id a);
    let '(task, goal, run) := scope in
    _ ← lift_res (_assert_task_authority (t_spec task) (go_spec goal) (aa_capability a) (aa_action a)
                    (aa_resource a));
    _ ← lift_res (_assert_task_lifecycle (t_state task) (ru_loop_state run) (aa_capability a) Ph_approval);
    now ← _now;
    expires_at ← _expires (aa_ttl_seconds a);
    d ← read id;
    validated_binding ← lift_res (_validated_task_authority_binding d (aa_task_id a));
    let row := approval_row a approval_id requester_id approver_id
                 (approval_binding a validated_binding) now expires_at in
    command_id ← new_uuid;
    _ ← append_event (approval_event row approver_id command_id);
    _ ← insert_approval row;
    mret (_approval_record row)).

(** *** Grants *)
Record GrantArgs := {
  ga_approval_id : string; ga_capability : string; ga_action : string; ga_resource : string;
  ga_request_digest : string; ga_policy_version : string; ga_ttl_seconds : Z; ga_max_uses : Z;
  ga_cost_limit : Z; ga_required_fence : option Z }.

Definition grant_args (a : GrantArgs) : res GrantArgs :=
  approval_id ← _required_text (ga_approval_id a);
  capability_value ← _capability (ga_capability a);
  action ← _required_text (ga_action a);
  resource ← _required_text (ga_resource a);
  request_digest ← _digest (ga_request_digest a);
  policy_version ← _required_text (ga_policy_version a);
  ttl_seconds ← _positive_int (ga_ttl_seconds a);
  max_uses ← _positive_int (ga_max_uses a);
  cost_limit ← _cost (ga_cost_limit a);
  required_fence ← _fence (ga_required_fence a);
  Ok {| ga_approval_id := approval_id; ga_capability := capability_value; ga_action := action;
        ga_resource := resource; ga_request_digest := request_digest;
        ga_policy_version := policy_version; ga_ttl_seconds := ttl_seconds; ga_max_uses := max_uses;
        ga_cost_limit := cost_limit; ga_required_fence := required_fence |}.

(** The five columns that a grant request repeats of its approval. *)
Definition approved_request (a : Approval) : string * string * string * string * string :=
  (av_capability a, av_action a, av_resource a, av_request_digest a, av_policy_version a).
Definition granted_request (a : GrantArgs) : string * string * string * string * string :=
  (ga_capability a, ga_action a, ga_resource a, ga_request_digest a, ga_policy_version a).

(** [julianday(t) > julianday('now')], which is not 1 for NULL. *)
Definition later_than (now : Instant) (t : option Instant) : bool :=
  match t with Some t => julianday now <? julianday t | None => false end.

(** [SUM] over integers, which SQLite refuses to let overflow. *)
Definition sql_sum {A} (f : A → Z) (l : list A) : P Z :=
  _ ← ensure (sum f l <? 2 ^ 63) SqliteOperationalError; mret (sum f l).

(** The provider grants that still hold a reservation. *)
Definition reserving (now : Instant) (g : Grant) : bool :=
  bool_decide (gr_capability g = value C_PROVIDER_COST) && bool_decide (gr_revoked_at g = None)
  && (julianday now <? julianday (gr_expires_at g)).
Definition run_reservations (d : DB) (run_id : string) (now : Instant) : list Grant :=
  select (λ g, bool_decide (gr_run_id g = run_id) && reserving now g) (grants (registry d)).
Definition task_reservations (d : DB) (task_id : string) (now : Instant) : list Grant :=
  select (λ g, bool_decide (gr_task_id g = task_id) && reserving now g) (grants (registry d)).

Definition within (reserved : list Grant) (a : GrantArgs) (budget calls : Z) : P unit :=
  cost ← sql_sum gr_cost_limit reserved;
  uses ← sql_sum gr_max_uses reserved;
  _ ← ensure (cost + ga_cost_limit a <=? budget) AuthorizationError;
  ensure (uses + ga_max_uses a <=? calls) AuthorizationError.

(** The reservation of a provider grant against the goal and the compiled task. *)
Definition reserve (approval : Approval) (a : GrantArgs) : P unit :=
  goal_row ← read (λ d, goals d !! av_goal_id approval);
  goal_row ← expect goal_row PyTypeError;
  let goal := go_spec goal_row in
  now ← sql_now;
  reserved ← read (λ d, run_reservations d (av_run_id approval) now);
  _ ← within reserved a (gs_provider_budget_minor_units goal) (gs_provider_call_limit goal);
  d ← read id;
  validated ← lift_res (_validated_task_authority_binding d (av_task_id approval));
  match validated with
  | None => mret tt
  | Some (task_authority, _) =>
    now ← sql_now;
    task_reserved ← read (λ d, task_reservations d (av_task_id approval) now);
    within task_reserved a (ct_provider_budget_minor_units task_authority)
      (ct_provider_call_limit task_authority)
  end.

Definition grant_row (a : GrantArgs) (grant_id issuer principal : string) (approval : Approval)
    (not_before expires_at : Instant) : Grant := {|
  gr_id := grant_id; gr_project_id := av_project_id approval; gr_goal_id := av_goal_id approval;
  gr_run_id := av_run_id approval; gr_task_id := av_task_id approval;
  gr_approval_id := Some (ga_approval_id a); gr_issuer := issuer; gr_principal := principal;
  gr_capability := ga_capability a; gr_action := ga_action a; gr_resource := ga_resource a;
  gr_request_digest := ga_request_digest a; gr_policy_version := ga_policy_version a;
  gr_not_before := not_before; gr_expires_at := expires_at; gr_max_uses := ga_max_uses a;
  gr_used_count := 0; gr_cost_limit := ga_cost_limit a; gr_cost_used := 0;
  gr_required_fence := ga_required_fence a; gr_revoked_at := None |}.

Definition grant_event (g : Grant) : string → EventArgs :=
  policy_event "grant" (gr_id g) 0 (gr_project_id g) (gr_run_id g) (gr_task_id g) "capability_grant_issued"
    (gr_issuer g) (gr_policy_version g)
    [("approval_id", jopt (gr_approval_id g)); ("principal", JStr (gr_principal g));
     ("capability", JStr (gr_capability g)); ("action", JStr (gr_action g));
     ("resource", JStr (gr_resource g)); ("request_digest", JStr (gr_request_digest g));
     ("not_before", JStr (iso_sql (gr_not_before g))); ("expires_at", JStr (iso_sql (gr_expires_at g)));
     ("max_uses", JInt (gr_max_uses g)); ("cost_limit", JInt (gr_cost_limit g));
     ("required_fence", jint (gr_required_fence g))] None None None.

(** The approval that a grant may be issued on. *)
Definition usable_approval (a : GrantArgs) (issuer_id principal_id : string) : P Approval :=
  approval ← read (λ d, approvals (registry d) !! ga_approval_id a);
  approval ← expect approval AuthorizationError;
  _ ← ensure (bool_decide (av_decision approval = "approved")) AuthorizationError;
  _ ← ensure (bool_decide (av_approver approval = Some issuer_id)
              && bool_decide (av_requester approval = principal_id)) AuthorizationError;
  _ ← ensure (bool_decide (approved_request approval = granted_request a)) AuthorizationError;
  now ← sql_now;
  _ ← ensure (later_than now (av_expires_at approval)) AuthorizationError;
  mret approval.

(** The decision gates of the compiled task that this request needs. *)
Definition assert_decision_gates (task_id capability action resource request_digest : string) : P unit :=
  d ← read id;
  required_gates ← lift_res (_decision_gates_for_request d task_id capability action resource);
  ok ← _required_decision_gates_satisfied task_id (Some required_gates)
         (Some (capability, action, resource, request_digest));
  ensure ok AuthorizationError.

Definition issue_grant (issuer principal : VerifiedPrincipal) (args : GrantArgs) (grant_id : option string)
    : P CapabilityGrant :=
  a ← lift_res (grant_args args);
  grant_id ← given_or_new grant_id;
  grant_id ← lift_res (_required_text grant_id);
  transaction (
    issuer_record ← require_role_in_transaction issuer R_OWNER;
    principal_record ← verify_in_transaction principal;
    let issuer_id := pr_id issuer_record in
    let principal_id := pr_id principal_record in
    _ ← lift_res (_assert_execution_role (pr_roles principal_record) (ga_capability a));
    approval ← usable_approval a issuer_id principal_id;
    _ ← assert_decision_gates (av_task_id approval) (ga_capability a) (ga_action a) (ga_resource a)
          (ga_request_digest a);
    scope ← _assert_task_scope (av_project_id approval) (av_goal_id approval) (av_run_id approval)
              (av_task_id approval);
    let '(task, goal, run) := scope in
    _ ← lift_res (_assert_task_authority (t_spec task) (go_spec goal) (ga_capability a) (ga_action a)
                    (ga_resource a));
    _ ← lift_res (_assert_task_lifecycle (t_state task) (ru_loop_state run) (ga_capability a) Ph_grant);
    _ ← (if bool_decide (ga_capability a = value C_PROVIDER_COST) then reserve approval a
         else ensure (ga_cost_limit a =? 0) AuthorizationError);
    _ ← (match ga_required_fence a with
         | Some fence => _assert_current_lease (ga_resource a) (av_project_id approval)
                           (av_task_id approval) principal_id fence
         | None => mret tt
         end);
    not_before ← _now;
    expires_at ← _expires (ga_ttl_seconds a);
    expires_at ← expect (match expires_at, av_expires_at approval with
                         | Some t, Some limit => if julianday t <=? julianday limit then Some t else None
                         | _, _ => None
                         end) AuthorizationError;
    let row := grant_row a grant_id issuer_id principal_id approval not_before expires_at in
    command_id ← new_uuid;
    _ ← append_event (grant_event row command_id);
    _ ← insert_grant row;
    mret (_grant_record row)).

Definition grant_revoked (now : Instant) (g : Grant) : Grant := {|
  gr_id := gr_id g; gr_project_id := gr_project_id g; gr_goal_id := gr_goal_id g;
  gr_run_id := gr_run_id g; gr_task_id := gr_task_id g; gr_approval_id := gr_approval_id g;
  gr_issuer := gr_issuer g; gr_principal := gr_principal g; gr_capability := gr_capability g;
  gr_action := gr_action g; gr_resource := gr_resource g; gr_request_digest := gr_request_digest g;
  gr_policy_version := gr_policy_version g; gr_not_before := gr_not_before g;
  gr_expires_at := gr_expires_at g; gr_max_uses := gr_max_uses g; gr_used_count := gr_used_count g;
  gr_cost_limit := gr_cost_limit g; gr_cost_used := gr_cost_used g;
  gr_required_fence := gr_required_fence g; gr_revoked_at := Some now |}.

Definition revoke_grant (grant_id : string) (actor : VerifiedPrincipal) : P CapabilityGrant :=
  grant_id ← lift_res (_required_text grant_id);
  transaction (
    actor ← require_role_in_transaction actor R_OWNER;
    row ← read (λ d, grants (registry d) !! grant_id);
    row ← expect row AuthorizationError;
    if negb (bool_decide (gr_revoked_at row = None)) then mret (_grant_record row) else
    version ← read (λ d, head_version d "grant" grant_id);
    command_id ← new_uuid;
    _ ← append_event (policy_event "grant" grant_id version (gr_project_id row) (gr_run_id row)
          (gr_task_id row) "capability_grant_revoked" (pr_id actor) (gr_policy_version row)
          [("grant_id", JStr grant_id)] None None None command_id);
    now ← _now;
    _ ← write (set_grants (alter (grant_revoked now) grant_id));
    mret (_grant_record (grant_revoked now row))).

(** *** Consumption *)
Record ConsumeArgs := {
  ca_grant_id : string; ca_project_id : string; ca_goal_id : string; ca_run_id : string;
  ca_task_id : string; ca_capability : string; ca_action : string; ca_resource : string;
  ca_request_digest : string; ca_idempotency_key : string; ca_cost : Z; ca_fence : option Z;
  ca_effect_id : option string }.

Definition consume_args (a : ConsumeArgs) : res ConsumeArgs :=
  grant_id ← _required_text (ca_grant_id a);
  project_id ← _required_text (ca_project_id a);
  goal_id ← _required_text (ca_goal_id a);
  run_id ← _required_text (ca_run_id a);
  task_id ← _required_text (ca_task_id a);
  capability_value ← _capability (ca_capability a);
  action ← _required_text (ca_action a);
  resource ← _required_text (ca_resource a);
  request_digest ← _digest (ca_request_digest a);
  idempotency_key ← _required_text (ca_idempotency_key a);
  cost ← _cost (ca_cost a);
  fence ← _fence (ca_fence a);
  effect_id ← match ca_effect_id a with
              | Some e => e ← _required_text e; Ok (Some e)
              | None => Ok None
              end;
  Ok {| ca_grant_id := grant_id; ca_project_id := project_id; ca_goal_id := goal_id;
        ca_run_id := run_id; ca_task_id := task_id; ca_capability := capability_value;
        ca_action := action; ca_resource := resource; ca_request_digest := request_digest;
        ca_idempotency_key := idempotency_key; ca_cost := cost; ca_fence := fence;
        ca_effect_id := effect_id |}.

(** Who consumes: a session, or the principal that a persisted effect names. *)
Inductive Consumer := BySession (session : VerifiedPrincipal) | ByRecord (principal : string).

(** The roles of an enabled principal. *)
Definition record_roles (d : DB) (principal : string) : list Role :=
  match principals d !! principal with
  | Some p => if p_enabled p then _role_set d principal else []
  | None => []
  end.

Definition consumer_roles (who : Consumer) (capability : string) : P (string * list Role) :=
  match who with
  | BySession session =>
    r ← verify_in_transaction session;
    _ ← lift_res (_assert_execution_role (pr_roles r) capability);
    mret (pr_id r, pr_roles r)
  | ByRecord principal =>
    roles ← read (λ d, record_roles d principal);
    _ ← ensure (negb (bool_decide (roles = []))) AuthorizationError;
    _ ← lift_res (_assert_execution_role roles capability);
    mret (principal, roles)
  end.

Definition exact_scope (g : Grant) :=
  (gr_project_id g, gr_goal_id g, gr_run_id g, gr_task_id g, gr_principal g, gr_capability g,
   gr_action g, gr_resource g, gr_request_digest g).
Definition request_scope (a : ConsumeArgs) (principal : string) :=
  (ca_project_id a, ca_goal_id a, ca_run_id a, ca_task_id a, principal, ca_capability a,
   ca_action a, ca_resource a, ca_request_digest a).

Definition same_use (a : ConsumeArgs) (u : Usage) : bool :=
  bool_decide (us_request_digest u = ca_request_digest a) && (us_cost u =? ca_cost a)
  && bool_decide (us_effect_id u = ca_effect_id a).

(** Not revoked, and between its first and its last instant. *)
Definition in_force (now : Instant) (g : Grant) : bool :=
  (julianday (gr_not_before g) <=? julianday now) && (julianday now <? julianday (gr_expires_at g)).

(** What the tables allow a request before the books of the grant are opened. *)
Definition assert_request (a : ConsumeArgs) (principal : string) (live_roles : list Role) (grant : Grant)
    : P unit :=
  _ ← ensure (bool_decide (exact_scope grant = request_scope a principal)) AuthorizationError;
  scope ← _assert_task_scope (ca_project_id a) (ca_goal_id a) (ca_run_id a) (ca_task_id a);
  let '(task, goal, run) := scope in
  _ ← lift_res (_assert_task_authority (t_spec task) (go_spec goal) (ca_capability a) (ca_action a)
                  (ca_resource a));
  _ ← lift_res (_assert_task_lifecycle (t_state task) (ru_loop_state run) (ca_capability a) Ph_consume);
  _ ← assert_decision_gates (ca_task_id a) (ca_capability a) (ca_action a) (ca_resource a)
        (ca_request_digest a);
  _ ← (if memb R_WORKER live_roles
       then _assert_current_task_claim (ca_project_id a) (ca_task_id a) principal else mret tt);
  ensure (bool_decide (gr_required_fence grant = ca_fence a)) AuthorizationError.

(** The uses of provider grants of a task, over all its grants. *)
Definition provider_use (d : DB) (task_id : string) (u : Usage) : bool :=
  match grants (registry d) !! us_grant_id u with
  | Some g => bool_decide (gr_task_id g = task_id) && bool_decide (gr_capability g = value C_PROVIDER_COST)
  | None => false
  end.
Definition provider_uses (d : DB) (task_id : string) : list Usage :=
  select (provider_use d task_id) (capability_usage (effects (registry d))).

Definition within_task_budget (a : ConsumeArgs) : P unit :=
  d ← read id;
  validated ← lift_res (_validated_task_authority_binding d (ca_task_id a));
  match validated with
  | None => mret tt
  | Some (task_authority, _) =>
    let consumed := provider_uses d (ca_task_id a) in
    cost ← sql_sum us_cost consumed;
    _ ← ensure (cost + ca_cost a <=? ct_provider_budget_minor_units task_authority) AuthorizationError;
    ensure (Z.of_nat (length consumed) + 1 <=? ct_provider_call_limit task_authority) AuthorizationError
  end.

Definition grant_used (cost : Z) (g : Grant) : Grant := {|
  gr_id := gr_id g; gr_project_id := gr_project_id g; gr_goal_id := gr_goal_id g;
  gr_run_id := gr_run_id g; gr_task_id := gr_task_id g; gr_approval_id := gr_approval_id g;
  gr_issuer := gr_issuer g; gr_principal := gr_principal g; gr_capability := gr_capability g;
  gr_action := gr_action g; gr_resource := gr_resource g; gr_request_digest := gr_request_digest g;
  gr_policy_version := gr_policy_version g; gr_not_before := gr_not_before g;
  gr_expires_at := gr_expires_at g; gr_max_uses := gr_max_uses g; gr_used_count := gr_used_count g + 1;
  gr_cost_limit := gr_cost_limit g; gr_cost_used := gr_cost_used g + cost;
  gr_required_fence := gr_required_fence g; gr_revoked_at := gr_revoked_at g |}.

(** The WHERE clause of the update that books a use. *)
Definition bookable (now : Instant) (cost : Z) (g : Grant) : bool :=
  bool_decide (gr_revoked_at g = None) && in_force now g && (gr_used_count g <? gr_max_uses g)
  && (gr_cost_used g + cost <=? gr_cost_limit g).

Definition use_of (a : ConsumeArgs) (used_at : Instant) (g : Grant) (replayed : bool) : CapabilityUse := {|
  cu_grant_id := ca_grant_id a; cu_idempotency_key := ca_idempotency_key a;
  cu_request_digest := ca_request_digest a; cu_cost := ca_cost a; cu_used_at := used_at;
  cu_effect_id := ca_effect_id a; cu_used_count := gr_used_count g; cu_cost_used := gr_cost_used g;
  cu_required_fence := gr_required_fence g; cu_replayed := replayed |}.

Definition use_id (a : ConsumeArgs) : string :=
  content_hash (JObj [("grant_id", JStr (ca_grant_id a)); ("idempotency_key", JStr (ca_idempotency_key a))]).
Definition use_event (a : ConsumeArgs) (principal policy_version : string) : string → EventArgs :=
  policy_event "capability_use" (use_id a) 0 (ca_project_id a) (ca_run_id a) (ca_task_id a)
    "capability_consumed" principal policy_version
    [("grant_id", JStr (ca_grant_id a)); ("capability", JStr (ca_capability a));
     ("action", JStr (ca_action a)); ("resource", JStr (ca_resource a));
     ("request_digest", JStr (ca_request_digest a)); ("cost", JInt (ca_cost a));
     ("effect_id", jopt (ca_effect_id a))] None None (Some (ca_idempotency_key a)).

(** A use that is not a replay. *)
Definition spend (a : ConsumeArgs) (principal : string) (grant : Grant) : P CapabilityUse :=
  _ ← ensure (gr_used_count grant <? gr_max_uses grant) AuthorizationError;
  _ ← ensure (gr_cost_used grant + ca_cost a <=? gr_cost_limit grant) AuthorizationError;
  _ ← (if bool_decide (ca_capability a = value C_PROVIDER_COST) then within_task_budget a else mret tt);
  used_at ← _now;
  _ ← insert_usage {| us_grant_id := ca_grant_id a; us_idempotency_key := ca_idempotency_key a;
        us_request_digest := ca_request_digest a; us_cost := ca_cost a; us_used_at := used_at;
        us_effect_id := ca_effect_id a |};
  now ← sql_now;
  changed ← read (λ d, match grants (registry d) !! ca_grant_id a with
                       | Some g => bookable now (ca_cost a) g
                       | None => false
                       end);
  _ ← ensure changed AuthorizationError;
  _ ← write (set_grants (alter (grant_used (ca_cost a)) (ca_grant_id a)));
  command_id ← new_uuid;
  _ ← append_event (use_event a principal (gr_policy_version grant) command_id);
  updated ← read (λ d, grants (registry d) !! ca_grant_id a);
  updated ← expect updated PyTypeError;
  mret (use_of a used_at updated false).

(** The transaction body of [_consume_as_principal]. *)
Definition consume_in_transaction (a : ConsumeArgs) (who : Consumer) : P CapabilityUse :=
  principal ← consumer_roles who (ca_capability a);
  let '(principal_value, live_roles) := principal in
  grant ← read (λ d, grants (registry d) !! ca_grant_id a);
  grant ← expect grant AuthorizationError;
  _ ← assert_request a principal_value live_roles grant;
  usage ← read (λ d, capability_usage (effects (registry d)) !! (ca_grant_id a, ca_idempotency_key a));
  _ ← ensure (match usage with Some u => same_use a u | None => true end) AuthorizationError;
  _ ← ensure (bool_decide (gr_revoked_at grant = None)) AuthorizationError;
  now ← sql_now;
  _ ← ensure (in_force now grant) AuthorizationError;
  _ ← (match gr_required_fence grant with
       | Some fence => _assert_current_lease (ca_resource a) (ca_project_id a) (ca_task_id a)
                         principal_value fence
       | None => mret tt
       end);
  match usage with
  | Some u => mret (use_of a (us_used_at u) grant true)
  | None => spend a principal_value grant
  end.

Definition consumer_ok (who : Consumer) : res Consumer :=
  match who with
  | BySession session => Ok (BySession session)
  | ByRecord principal => p ← _required_text principal; Ok (ByRecord p)
  end.

(** [consume], with a transaction of its own. *)
Definition consume (principal : VerifiedPrincipal) (args : ConsumeArgs) : P CapabilityUse :=
  a ← lift_res (consume_args args);
  transaction (consume_in_transaction a (BySession principal)).

(** A text, and an optional positive integer, of a JSON envelope. *)
Definition envelope_text (envelope : dict) (k : string) : res string :=
  match dget envelope k with Some (JStr s) => Ok s | _ => Raise AuthorizationError end.
Definition envelope_fence (envelope : dict) : res (option Z) :=
  match dget envelope "fence" with
  | Some JNull => Ok None
  | Some (JInt z) => Ok (Some z)
  | _ => Raise AuthorizationError
  end.

(** The request of one persisted effect. *)
Definition effect_request (effect_id : string) (effect : OutboxRow) (goal_id : string) : res (ConsumeArgs * Consumer) :=
  let envelope := ox_request effect in
  grant_id ← envelope_text envelope "grant_id";
  principal ← envelope_text envelope "principal";
  capability ← envelope_text envelope "capability";
  action ← envelope_text envelope "action";
  resource ← envelope_text envelope "resource";
  fence ← envelope_fence envelope;
  Ok ({| ca_grant_id := grant_id; ca_project_id := ox_project_id effect; ca_goal_id := goal_id;
         ca_run_id := ox_run_id effect; ca_task_id := ox_task_id effect; ca_capability := capability;
         ca_action := action; ca_resource := resource; ca_request_digest := ox_request_digest effect;
         ca_idempotency_key := "effect:" +:+ effect_id; ca_cost := 0; ca_fence := fence;
         ca_effect_id := Some effect_id |}, ByRecord principal).

Definition _consume_effect (effect_id : string) : P CapabilityUse :=
  effect_id ← lift_res (_required_text effect_id);
  transaction (
    effect ← read (λ d, o ← outbox (effects (registry d)) !! effect_id;
                        t ← tasks d !! ox_task_id o; Some (o, t_goal_id t));
    effect ← expect effect AuthorizationError;
    request ← lift_res (effect_request effect_id effect.1 effect.2);
    a ← lift_res (consume_args request.1);
    who ← lift_res (consumer_ok request.2);
    consume_in_transaction a who).

(** *** Preflight of an effect, inside the transaction of the caller *)
Record EffectArgs := {
  ef_grant_id : string; ef_project_id : string; ef_goal_id : string; ef_run_id : string;
  ef_task_id : string; ef_capability : string; ef_action : string; ef_resource : string;
  ef_request_digest : string; ef_policy_version : string; ef_fence : option Z }.

Definition effect_args (a : EffectArgs) : res EffectArgs :=
  grant_id ← _required_text (ef_grant_id a);
  capability_value ← _capability (ef_capability a);
  action ← _required_text (ef_action a);
  resource ← _required_text (ef_resource a);
  request_digest ← _digest (ef_request_digest a);
  policy_version ← _required_text (ef_policy_version a);
  fence ← _fence (ef_fence a);
  Ok {| ef_grant_id := grant_id; ef_project_id := ef_project_id a; ef_goal_id := ef_goal_id a;
        ef_run_id := ef_run_id a; ef_task_id := ef_task_id a; ef_capability := capability_value;
        ef_action := action; ef_resource := resource; ef_request_digest := request_digest;
        ef_policy_version := policy_version; ef_fence := fence |}.

Definition preflight_effect_authority (principal : VerifiedPrincipal) (args : EffectArgs) : P unit :=
  a ← lift_res (effect_args args);
  principal_record ← verify_in_transaction principal;
  let principal_id := pr_id principal_record in
  _ ← lift_res (_assert_execution_role (pr_roles principal_record) (ef_capability a));
  scope ← _assert_task_scope (ef_project_id a) (ef_goal_id a) (ef_run_id a) (ef_task_id a);
  let '(task, goal, run) := scope in
  _ ← lift_res (_assert_task_authority (t_spec task) (go_spec goal) (ef_capability a) (ef_action a)
                  (ef_resource a));
  _ ← lift_res (_assert_task_lifecycle (t_state task) (ru_loop_state run) (ef_capability a) Ph_consume);
  _ ← (if memb R_WORKER (pr_roles principal_record)
       then _assert_current_task_claim (ef_project_id a) (ef_task_id a) principal_id else mret tt);
  grant ← read (λ d, grants (registry d) !! ef_grant_id a);
  grant ← expect grant AuthorizationError;
  _ ← ensure (bool_decide ((exact_scope grant, gr_policy_version grant) =
        ((ef_project_id a, ef_goal_id a, ef_run_id a, ef_task_id a, principal_id, ef_capability a,
          ef_action a, ef_resource a, ef_request_digest a), ef_policy_version a))) AuthorizationError;
  _ ← ensure (bool_decide (gr_revoked_at grant = None)) AuthorizationError;
  now ← sql_now;
  _ ← ensure (in_force now grant) AuthorizationError;
  _ ← ensure (gr_used_count grant <? gr_max_uses grant) AuthorizationError;
  _ ← ensure (bool_decide (gr_required_fence grant = ef_fence a)) AuthorizationError;
  match gr_required_fence grant with
  | Some fence => _assert_current_lease (ef_resource a) (ef_project_id a) (ef_task_id a) principal_id fence
  | None => mret tt
  end.

(** ** Calls of an engine as data *)
Inductive PolicyOp :=
  | PoApprove (requester approver : VerifiedPrincipal) (args : ApprovalArgs) (approval_id : option string)
  | PoIssue (issuer principal : VerifiedPrincipal) (args : GrantArgs) (grant_id : option string)
  | PoRevoke (grant_id : string) (actor : VerifiedPrincipal)
  | PoConsume (principal : VerifiedPrincipal) (args : ConsumeArgs)
  | PoConsumeEffect (effect_id : string)
  | PoPreflight (principal : VerifiedPrincipal) (args : EffectArgs).

Definition run_policy_op (op : PolicyOp) : P unit :=
  match op with
  | PoApprove r a args i => ignore (record_approval r a args i)
  | PoIssue i p args g => ignore (issue_grant i p args g)
  | PoRevoke g a => ignore (revoke_grant g a)
  | PoConsume p args => ignore (consume p args)
  | PoConsumeEffect e => ignore (_consume_effect e)
  | PoPreflight p args => transaction (preflight_effect_authority p args)
  end.
End engine.


(** ** What the engine leaves alone *)
Section frames.
Context `{ENV : Env} (self : PolicyEngine).

Lemma keeps_consumer I who c : keeps I (consumer_roles who c).
Proof. unfold consumer_roles, verify_in_transaction. keeps_walk. Qed.
Lemma keeps_decision_gates I t c a r q : keeps I (assert_decision_gates t c a r q).
Proof. unfold assert_decision_gates. keeps_walk. Qed.
Lemma keeps_scope I p g r t : keeps I (_assert_task_scope p g r t).
Proof. unfold _assert_task_scope. keeps_walk. Qed.
Lemma keeps_current_lease I r p t n f : keeps I (_assert_current_lease r p t n f).
Proof. unfold _assert_current_lease. keeps_walk. Qed.
Lemma keeps_expires I n : keeps I (_expires n).
Proof. unfold _expires. keeps_walk. Qed.
Lemma keeps_current_claim I p t n : keeps I (_assert_current_task_claim p t n).
Proof. unfold _assert_current_task_claim. keeps_walk. Qed.
Hint Resolve keeps_consumer keeps_decision_gates keeps_scope keeps_current_lease keeps_current_claim : keeps.
Lemma keeps_assert_request I a p rs g : keeps I (assert_request a p rs g).
Proof. unfold assert_request. keeps_walk. Qed.
Lemma keeps_within_budget I a : keeps I (within_task_budget a).
Proof. unfold within_task_budget, sql_sum. keeps_walk. Qed.
Lemma keeps_reserve I p a : keeps I (reserve p a).
Proof. unfold reserve, within, sql_sum. keeps_walk. Qed.
Lemma keeps_usable_approval I a i p : keeps I (usable_approval a i p).
Proof. unfold usable_approval. keeps_walk. Qed.
Lemma keeps_preflight I p a : keeps I (preflight_effect_authority p a).
Proof. unfold preflight_effect_authority, verify_in_transaction. keeps_walk. Qed.
Hint Resolve keeps_assert_request keeps_within_budget keeps_reserve keeps_usable_approval : keeps.

(** The tables of the engine. *)
Definition policy_writes (f : DB → DB) : Prop :=
  only set_approvals f ∨ only set_grants f ∨ only set_capability_usage f.
Lemma consume_footprint I a who :
  footprint ["capability_use"] policy_writes I → keeps I (consume_in_transaction a who).
Proof.
  intros HI. unfold consume_in_transaction, spend, _now, insert_usage. unfold policy_writes in HI. registry_walk HI.
Qed.
Lemma consume_effect_footprint I e :
  footprint ["capability_use"] policy_writes I → keeps I (_consume_effect e).
Proof. intros HI. unfold _consume_effect. keeps_walk. by apply consume_footprint. Qed.
Lemma policy_op_footprint I op :
  footprint ["approval"; "grant"; "capability_use"] policy_writes I → keeps I (run_policy_op self op).
Proof.
  intros HI. assert (∀ a who, keeps I (consume_in_transaction a who)).
  { intros a who. apply consume_footprint. destruct HI as [He Hw]. constructor; [|exact Hw].
    intros x Hx. apply He. set_solver. }
  unfold policy_writes in HI. destruct op; unfold run_policy_op, ignore;
    [| | | | |apply keeps_transaction, keeps_preflight];
    unfold record_approval, issue_grant, revoke_grant, consume, _consume_effect, _expires, _now,
      verify_in_transaction, require_role_in_transaction, insert_approval, insert_grant; registry_walk HI.
Qed.
Lemma policy_op_keeps I op : kept_beside I → keeps I (run_policy_op self op).
Proof. intros HI. apply policy_op_footprint. by apply footprint_beside; [|unfold policy_writes; beside_writes|]. Qed.

Lemma policy_op_atomic op : atomic (run_policy_op self op).
Proof.
  destruct op; unfold run_policy_op, ignore; try apply (atomic_then _ (λ _, tt));
    unfold record_approval, issue_grant, revoke_grant, consume, _consume_effect; atomic_walk.
Qed.
End frames.
End Engine.
#[export] Hint Resolve Engine.keeps_consumer Engine.keeps_decision_gates Engine.keeps_scope
  Engine.keeps_current_lease Engine.keeps_current_claim Engine.keeps_assert_request Engine.keeps_within_budget
  Engine.keeps_reserve Engine.keeps_usable_approval Engine.keeps_preflight Engine.keeps_expires : keeps.
