(* ===== verification/Integration.v ===== *)
(** * The integration queue ([integration.py])

    An integration item carries the result of a task through review, merge,
    deployment and runtime check; its state moves along [_TRANSITIONS] only, and
    its final states need evidence.  A state argument is its text. *)

From S2P Require Import Prelude PyStr Json Enums Contracts Scope Db Store Identity.
From S2P Require Import Leases Authority Gates Registries.

Local Open Scope string_scope.
Local Open Scope list_scope.
Local Open Scope Z_scope.

Definition _FINAL : list IntegrationState := [I_DELIVERED; I_SUPERSEDED].

Definition _TRANSITIONS (s : IntegrationState) : list IntegrationState :=
  match s with
  | I_REVIEW_PENDING => [I_EVALUATOR_PENDING; I_PUSH_PR_PENDING; I_DEPLOY_PENDING; I_DELETE_PENDING;
      I_RETIRE_PENDING; I_DELIVERED; I_DEFER_WITH_OWNER; I_SUPERSEDED]
  | I_EVALUATOR_PENDING => [I_REVIEW_PENDING; I_PUSH_PR_PENDING; I_DEFER_WITH_OWNER; I_SUPERSEDED]
  | I_PUSH_PR_PENDING => [I_CI_PENDING; I_DEFER_WITH_OWNER; I_SUPERSEDED]
  | I_CI_PENDING => [I_MERGE_PENDING; I_CI_FAILED; I_DEFER_WITH_OWNER]
  | I_CI_FAILED => [I_PUSH_PR_PENDING; I_DEFER_WITH_OWNER; I_SUPERSEDED]
  | I_MERGE_PENDING => [I_DEPLOY_PENDING; I_DELIVERED; I_DEFER_WITH_OWNER]
  | I_DEPLOY_PENDING => [I_DEPLOY_DIR_UPDATED; I_DEFER_WITH_OWNER; I_SUPERSEDED]
  | I_DEPLOY_DIR_UPDATED => [I_SERVICE_RESTART_REQUIRED; I_RUNTIME_CHECK_PENDING; I_DEFER_WITH_OWNER]
  | I_SERVICE_RESTART_REQUIRED => [I_RUNTIME_CHECK_PENDING; I_DEFER_WITH_OWNER]
  | I_RUNTIME_CHECK_PENDING => [I_DELIVERED; I_RUNTIME_STALE; I_DEFER_WITH_OWNER]
  | I_RUNTIME_STALE => [I_SERVICE_RESTART_REQUIRED; I_DEPLOY_PENDING; I_DEFER_WITH_OWNER]
  | I_DELETE_PENDING => [I_DELIVERED; I_DEFER_WITH_OWNER]
  | I_RETIRE_PENDING => [I_DELIVERED; I_DEFER_WITH_OWNER]
  | I_DEFER_WITH_OWNER => [I_REVIEW_PENDING; I_DELETE_PENDING; I_RETIRE_PENDING; I_SUPERSEDED]
  | I_DELIVERED => []
  | I_SUPERSEDED => []
  end.

(** The queue: its configuration. *)
Record IntegrationQueue := { iq_policy_version : string }.

Module Items.

(** [_text] *)
Definition _text (v : string) : res string := required_text TransitionError v.

(** [tuple(dict.fromkeys(_text(ref) for ref in refs))] *)
Definition ref_tuple (refs : list string) : res (list string) :=
  refs ← mapR _text refs; Ok (fromkeys refs).

(** [IntegrationState(str(v))] *)
Definition state_of (v : string) : res IntegrationState :=
  match of_value v with Ok s => Ok s | Raise _ => Raise TransitionError end.

(** [tuple(json.loads(evidence_refs_json))], of a column that holds the list of
    texts that this module wrote. *)
Definition stored_refs (j : json) : res (list string) :=
  items ← iter_items j;
  mapR (λ x, match x with JStr s => Ok s | _ => Raise PyTypeError end) items.

(** [IntegrationItem] of the module: a row with its decoded references. *)
Record Item := { qi_row : IntegrationItem; qi_evidence_refs : list string }.
Definition _item (row : IntegrationItem) : res Item :=
  refs ← stored_refs (ii_evidence_refs row); Ok {| qi_row := row; qi_evidence_refs := refs |}.

Definition with_state (s : IntegrationState) (refs : list string) (now : Instant) (i : IntegrationItem)
    : IntegrationItem := {|
  ii_id := ii_id i; ii_project_id := ii_project_id i; ii_run_id := ii_run_id i; ii_task_id := ii_task_id i;
  ii_state := s; ii_source_ref := ii_source_ref i; ii_target_ref := ii_target_ref i; ii_owner := ii_owner i;
  ii_evidence_refs := jstrs refs; ii_updated_at := now |}.

Section queue.
Context `{ENV : Env}.

Definition _actor_id_in_transaction (actor : VerifiedPrincipal) (roles : list Role) : P string :=
  principal ← verify_in_transaction actor;
  _ ← ensure (existsb (λ r, memb r roles) (pr_roles principal)) TransitionError;
  mret (pr_id principal).

(** The task, which must have a run; with the run's identifier. *)
Definition _task (task_id : string) : P (TaskRow * string) :=
  row ← read (λ d, tasks d !! task_id);
  row ← expect row NotFoundError;
  run ← expect (t_run_id row) TransitionError;
  mret (row, run).

Definition found_claims (d : DB) (refs : list string) : list EvidenceClaim :=
  omap (λ r, evidence_claims (registry d) !! r) refs.
Definition evidence_valid (d : DB) (task_id : string) (refs : list string) : bool :=
  forallb (λ r, match evidence_claims (registry d) !! r with
                | Some c => bool_decide (ec_task_id c = task_id)
                | None => false
                end) refs.
Definition _validate_evidence (task_id : string) (refs : list string) : P unit :=
  d ← read id; ensure (evidence_valid d task_id refs) EvidenceError.

Definition insert_integration_item (i : IntegrationItem) : P unit :=
  _ ← constraint (λ d, absent (integration_items (registry d)) (ii_id i) && present (tasks d) (ii_task_id i));
  write (set_integration_items <[ii_id i := i]>).

Context (self : IntegrationQueue).

Definition queue_event (integration_id : string) (version : Z) (project_id run_id task_id event_type actor : string)
    (payload : dict) : string → EventArgs :=
  registry_event "integration" integration_id version project_id run_id (Some task_id) event_type actor
    (iq_policy_version self) payload None None None None [] "internal".

Definition created_payload (state : IntegrationState) (source_ref target_ref owner : string) (refs : list string)
    : dict :=
  [("state", JStr (value state)); ("source_ref", JStr source_ref); ("target_ref", JStr target_ref);
   ("owner", JStr owner); ("evidence_refs", jstrs refs)].
Definition moved_payload (current target : IntegrationState) (reason : string) (refs : list string) : dict :=
  [("from", JStr (value current)); ("to", JStr (value target)); ("reason", JStr reason);
   ("evidence_refs", jstrs refs)].

(** The answer to a repeated [create]. *)
Definition same_item (r : Item) (task_id source_ref target_ref owner_id : string) (state : IntegrationState)
    (refs : list string) : bool :=
  bool_decide ((ii_task_id (qi_row r), ii_source_ref (qi_row r), ii_target_ref (qi_row r), ii_owner (qi_row r),
                ii_state (qi_row r), qi_evidence_refs r)
               = (task_id, source_ref, target_ref, owner_id, state, refs)).

Definition create (task_id source_ref target_ref : string) (owner : VerifiedPrincipal) (initial_state : string)
    (evidence_refs : list string) (integration_id : option string) : P Item :=
  task_id ← lift_res (_text task_id);
  source_ref ← lift_res (_text source_ref);
  target_ref ← lift_res (_text target_ref);
  state ← lift_res (state_of initial_state);
  _ ← ensure (bool_decide (state = I_REVIEW_PENDING)) TransitionError;
  refs ← lift_res (ref_tuple evidence_refs);
  integration_id ← given_or_new integration_id;
  integration_id ← lift_res (_text integration_id);
  transaction (
    owner_id ← _actor_id_in_transaction owner [R_RELEASE; R_SYSTEM];
    existing ← read (λ d, integration_items (registry d) !! integration_id);
    match existing with
    | Some row =>
      record ← lift_res (_item row);
      _ ← ensure (same_item record task_id source_ref target_ref owner_id state refs) IntegrityError;
      mret record
    | None =>
      task_run ← _task task_id;
      let '(task, run_id) := task_run in
      _ ← ensure (negb (memb (t_state task) TERMINAL_TASK_STATES)) TransitionError;
      run ← read (λ d, runs d !! run_id);
      run ← expect (r ← run; if bool_decide (ru_project_id r = t_project_id task) then Some r else None)
              NotFoundError;
      _ ← ensure (negb (memb (ru_loop_state run) [L_DELIVERED; L_IMPROVEMENT_PENDING])) TransitionError;
      _ ← _validate_evidence task_id refs;
      now ← utc_now;
      let row := {| ii_id := integration_id; ii_project_id := t_project_id task; ii_run_id := run_id;
        ii_task_id := task_id; ii_state := state; ii_source_ref := source_ref; ii_target_ref := target_ref;
        ii_owner := owner_id; ii_evidence_refs := jstrs refs; ii_updated_at := now |} in
      command_id ← new_uuid;
      _ ← append_event (queue_event integration_id 0 (t_project_id task) run_id task_id
            "integration_item_created" owner_id (created_payload state source_ref target_ref owner_id refs)
            command_id);
      _ ← insert_integration_item row;
      lift_res (_item row)
    end).

(** The verdicts that close an item. *)
Definition accepted_verdicts (spec : TaskSpec) : list EvaluatorVerdict :=
  [V_PASS; V_PASS_WITH_RISK] ++ if ts_evaluator_required spec then [] else [V_NOT_REQUIRED].
Definition passing_claim (spec : TaskSpec) (task_id : string) (c : EvidenceClaim) : bool :=
  bool_decide (ec_task_id c = task_id) && bool_decide (ec_evidence_state c = ts_evidence_target spec)
  && memb (ec_evaluator_verdict c) (accepted_verdicts spec).

(** What a final state needs. *)
Definition assert_final (task : TaskRow) (task_id : string) (all_refs : list string) : P unit :=
  gates ← _required_decision_gates_satisfied task_id None None;
  _ ← ensure gates TransitionError;
  _ ← ensure (negb (bool_decide (all_refs = []))) EvidenceError;
  _ ← _validate_evidence task_id all_refs;
  passing ← read (λ d, existsb (passing_claim (t_spec task) task_id) (found_claims d all_refs));
  ensure passing EvidenceError.

Definition advance_roles (target : IntegrationState) : list Role :=
  [R_RELEASE; R_SYSTEM] ++ if memb target [I_DELETE_PENDING; I_RETIRE_PENDING] then [R_OWNER] else [].

Definition advance (integration_id target : string) (actor : VerifiedPrincipal) (evidence_refs : list string)
    (reason : string) : P Item :=
  integration_id ← lift_res (_text integration_id);
  reason ← lift_res (_text reason);
  target_state ← lift_res (state_of target);
  refs ← lift_res (ref_tuple evidence_refs);
  transaction (
    actor_id ← _actor_id_in_transaction actor (advance_roles target_state);
    row ← read (λ d, integration_items (registry d) !! integration_id);
    row ← expect row NotFoundError;
    task ← read (λ d, tasks d !! ii_task_id row);
    task ← expect task IntegrityError;
    _ ← ensure (negb (memb (t_state task) TERMINAL_TASK_STATES)) TransitionError;
    let current := ii_state row in
    _ ← ensure (memb target_state (_TRANSITIONS current)) TransitionError;
    _ ← _validate_evidence (ii_task_id row) refs;
    existing_refs ← lift_res (stored_refs (ii_evidence_refs row));
    let all_refs := fromkeys (existing_refs ++ refs) in
    _ ← (if memb target_state _FINAL then assert_final task (ii_task_id row) all_refs else mret tt);
    version ← read (λ d, head_version d "integration" integration_id);
    command_id ← new_uuid;
    _ ← append_event (queue_event integration_id version (ii_project_id row) (ii_run_id row) (ii_task_id row)
          "integration_state_changed" actor_id (moved_payload current target_state reason refs) command_id);
    now ← utc_now;
    _ ← write (set_integration_items (alter (with_state target_state all_refs now) integration_id));
    lift_res (_item (with_state target_state all_refs now row))).

(** [ORDER BY updated_at] *)
Definition task_items (d : DB) (task_id : string) : list IntegrationItem :=
  order_by (λ a b, ii_updated_at a <=? ii_updated_at b)
    (select (λ i, bool_decide (ii_task_id i = task_id)) (integration_items (registry d))).

Definition require_task_satisfied (task_id : string) (allow_no_items : bool) : P (list Item) :=
  rows ← read (λ d, task_items d task_id);
  _ ← ensure (negb (bool_decide (rows = []) && negb allow_no_items)) TransitionError;
  items ← lift_res (mapR _item rows);
  _ ← ensure (forallb (λ i, memb (ii_state (qi_row i)) _FINAL) items) TransitionError;
  mret items.

(** ** Calls of a queue as data *)
Inductive QueueOp :=
  | QoCreate (task_id source_ref target_ref : string) (owner : VerifiedPrincipal) (initial_state : string)
      (evidence_refs : list string) (integration_id : option string)
  | QoAdvance (integration_id target : string) (actor : VerifiedPrincipal) (evidence_refs : list string)
      (reason : string)
  | QoRequire (task_id : string) (allow_no_items : bool).

Definition run_queue_op (op : QueueOp) : P unit :=
  match op with
  | QoCreate t s g o i r n => ignore (create t s g o i r n)
  | QoAdvance i t a r why => ignore (advance i t a r why)
  | QoRequire t b => ignore (require_task_satisfied t b)
  end.

Lemma queue_op_footprint I op :
  footprint ["integration"] (only set_integration_items) I → keeps I (run_queue_op op).
Proof.
  intros HI. destruct op; unfold run_queue_op, ignore, create, advance, require_task_satisfied, assert_final,
    _actor_id_in_transaction, verify_in_transaction, _task, _validate_evidence, insert_integration_item;
    registry_walk HI.
Qed.
Lemma queue_op_keeps I op : kept_beside I → keeps I (run_queue_op op).
Proof. intros HI. apply queue_op_footprint. by apply footprint_beside; [|beside_writes|]. Qed.
Lemma queue_op_atomic op : atomic (run_queue_op op).
Proof.
  destruct op; unfold run_queue_op, ignore; apply (atomic_then _ (λ _, tt));
    unfold create, advance, require_task_satisfied; atomic_walk; try (by intros ?); apply atomic_pure; by intros ?.
Qed.
End queue.
End Items.
