(* ===== verification/Evidence.v ===== *)
(** * Artifacts and evidence claims ([evidence.py])

    [EvidenceRegistry] records what was produced for a task (artifacts) and what
    it proves (claims), and refuses claims that their provenance cannot support.
    [classify_promotion_provenance] is the stricter classification, of artifact
    URIs too, behind which rules are promoted. *)

From Stdlib Require Import Ascii.
From S2P Require Import Prelude PyStr Json Enums Contracts Db Store Identity Registries.

Local Open Scope string_scope.
Local Open Scope list_scope.
Local Open Scope Z_scope.

(** ** Tables of the module *)
Definition _CLASSIFICATIONS : list string := ["public"; "publicable"; "internal"; "confidential"; "secret"].
Definition _NON_REAL_ENVIRONMENTS : list string :=
  ["demo"; "fake"; "fixture"; "mock"; "offline-sim"; "offline-simulation"; "sandbox"; "simulated";
   "simulation"; "synthetic"; "test"; "test-double"; "testdouble"].
Definition _REAL_ENVIRONMENTS : list string :=
  ["ci"; "controlled-live"; "development"; "local"; "on-device"; "production"; "staging"].
Definition _NON_REAL_ARTIFACT_KINDS : list string :=
  ["demo"; "dummy"; "example"; "fake"; "fixture"; "mock"; "placeholder"; "sample"; "simulated-output";
   "simulation"; "synthetic"; "test-double"].
Definition _REAL_PROMOTION_ARTIFACT_KINDS : list string :=
  ["artifact"; "audit-report"; "benchmark-report"; "build-report"; "diff"; "execution-trace";
   "failure-report"; "lint-report"; "log"; "patch"; "provider-receipt"; "quality-report"; "runtime-log";
   "runtime-report"; "screenshot"; "test-report"; "trace"; "typecheck-report"; "verification-report"].
Definition _NON_REAL_URI_SCHEMES : list string :=
  ["data"; "demo"; "example"; "fake"; "fixture"; "memory"; "mock"; "synthetic"; "test"].
Definition _REAL_PROMOTION_URI_SCHEMES : list string :=
  ["artifact"; "evidence"; "file"; "git"; "gs"; "https"; "repo"; "s3"].
Definition _ARTIFACT_PRODUCER_ROLES : list Role :=
  [R_WORKER; R_SYSTEM; R_PROVIDER_ATTESTOR; R_HUMAN_ACCEPTOR; R_BUSINESS_REVIEWER].
Definition _ARTIFACT_KIND_ROLES (kind : string) : list Role :=
  if bool_decide (kind = "provider_receipt") then [R_PROVIDER_ATTESTOR]
  else if bool_decide (kind = "human_acceptance") then [R_HUMAN_ACCEPTOR]
  else if bool_decide (kind = "business_validation") then [R_BUSINESS_REVIEWER]
  else if bool_decide (kind = "heldout_eval") then [R_EVALUATOR]
  else if bool_decide (kind = "owner_approval") then [R_OWNER]
  else if bool_decide (kind = "rule_promotion_record") then [R_SYSTEM]
  else [].
Definition _EVALUATOR_VERDICTS : list EvaluatorVerdict := [V_PASS; V_PASS_WITH_RISK].
Definition _STATE_VERIFIER_ROLES (s : EvidenceState) : option Role :=
  match s with
  | ES_PROVIDER_SMOKE => Some R_PROVIDER_ATTESTOR
  | ES_HUMAN_ACCEPTANCE => Some R_HUMAN_ACCEPTOR
  | ES_BUSINESS_VALIDATION => Some R_BUSINESS_REVIEWER
  | ES_DURABLE_MEMORY_PROMOTION | ES_ACTIVE_RULE_PROMOTION => Some R_EVALUATOR
  | ES_STRUCTURE | ES_RUNTIME => None
  end.

(** ** Origins *)
Inductive ProvenanceReality := Real | Non_real | Unknown.
#[export] Instance ProvenanceReality_eq_dec : EqDecision ProvenanceReality.
Proof. solve_decision. Defined.

Record ProvenanceClassification := {
  pc_dimension : string; pc_raw_value : string; pc_canonical_value : string;
  pc_reality : ProvenanceReality }.

(** [re.sub(r"[\s_]", "-", text)] *)
Fixpoint dash_ws (l : list ascii) : list ascii :=
  match l with
  | [] => []
  | a :: l1 =>
    if ws1 a || bool_decide (a = "_"%char) then "-"%char :: dash_ws l1 else
    match l1 with
    | [] => [a]
    | b :: l2 =>
      if ws2 a b then "-"%char :: dash_ws l2 else
      match l2 with
      | c :: l3 => if ws3 a b c then "-"%char :: dash_ws l3 else a :: dash_ws l1
      | [] => a :: dash_ws l1
      end
    end
  end.
(** [re.sub(r"-+", "-", text)] *)
Fixpoint one_dash (l : list ascii) : list ascii :=
  match l with
  | [] => []
  | a :: l1 =>
    match l1 with
    | b :: _ => if bool_decide (a = "-"%char) && bool_decide (b = "-"%char) then one_dash l1 else a :: one_dash l1
    | [] => [a]
    end
  end.
Definition strip_dash (s : string) : string := rstrip_char "-" (lstrip_char "-" s).

(** ** URLs ([urllib.parse.urlsplit], of a text without spaces and controls) *)
Record SplitUrl := { su_scheme : string; su_netloc : string; su_path : string }.

Definition scheme_char (c : ascii) : bool := is_alpha c || is_digit c || memb c ["+"; "-"; "."]%char.
(** The scheme and what follows it. *)
Definition split_scheme (url : string) : string * string :=
  match partition_at ":" url with
  | Some (s, rest) =>
    if match chars s with c :: _ => is_alpha c && forallb scheme_char (chars s) | [] => false end
    then (lower s, rest) else ("", url)
  | None => ("", url)
  end.
(** The text up to the first of some characters, and the rest from there. *)
Fixpoint span_until (stops : list ascii) (l : list ascii) : list ascii * list ascii :=
  match l with
  | [] => ([], [])
  | c :: l' => if memb c stops then ([], l) else let '(x, y) := span_until stops l' in (c :: x, y)
  end.
Definition before_char (c : ascii) (s : string) : string := of_chars (span_until [c] (chars s)).1.

Module Evidence.
Section origins.
Context `{ENV : Env}.

Definition _text (v : string) : res string := required_text EvidenceError v.

(** At most [n] rounds of percent decoding; [None] when none was the last. *)
Fixpoint decode_rounds (n : nat) (decoded : string) : option string :=
  match n with
  | O => None
  | S n =>
    let candidate := nfkc (unquote decoded) in
    if bool_decide (candidate = decoded) then Some decoded else decode_rounds n candidate
  end.

Definition _decode_origin_value (v : string) : res string :=
  v ← _text v;
  decoded ← of_option (decode_rounds 20 (nfkc v)) EvidenceError;
  _ ← require (negb (existsb (λ c, code c <? 32) (chars decoded))) EvidenceError;
  Ok decoded.

Definition _canonical_origin_token (v : string) : res string :=
  decoded ← _decode_origin_value v;
  Ok (strip_dash (of_chars (one_dash (dash_ws (chars (casefold decoded)))))).

Definition classify (dimension : string) (non_real real : list string) (v : string) :
    res ProvenanceClassification :=
  canonical ← _canonical_origin_token v;
  Ok {| pc_dimension := dimension; pc_raw_value := v; pc_canonical_value := canonical;
        pc_reality := if memb canonical non_real then Non_real
                      else if memb canonical real then Real else Unknown |}.
Definition classify_evidence_environment (v : string) : res ProvenanceClassification :=
  classify "environment" _NON_REAL_ENVIRONMENTS _REAL_ENVIRONMENTS v.
Definition classify_artifact_kind (v : string) : res ProvenanceClassification :=
  classify "artifact_kind" _NON_REAL_ARTIFACT_KINDS _REAL_PROMOTION_ARTIFACT_KINDS v.

(** [any(c.isspace() for c in text)] *)
Fixpoint has_space (l : list ascii) : bool :=
  match l with [] => false | _ :: l' => ws_head ws2 ws3 l || has_space l' end.

(** [_checknetloc] *)
Definition netloc_ok (netloc : string) : bool :=
  let n := of_chars (List.filter (λ c, negb (memb c ["@"; ":"; "#"; "?"]%char)) (chars netloc)) in
  forallb ascii7 (chars netloc) || bool_decide (nfkc n = n)
  || negb (existsb (λ c, memb c ["/"; "?"; "#"; "@"; ":"]%char) (chars (nfkc n))).

(** [None] where it raises a [ValueError]. *)
Definition urlsplit (decoded : string) : option SplitUrl :=
  let '(scheme, url) := split_scheme decoded in
  let '(netloc, url) :=
    if startswith url "//"
    then let '(n, u) := span_until ["/"; "?"; "#"]%char (drop 2 (chars url)) in (of_chars n, of_chars u)
    else ("", url) in
  let opening := contains_char "[" netloc in
  let closing := contains_char "]" netloc in
  if negb (Bool.eqb opening closing) || (opening && negb (bracketed_host netloc)) || negb (netloc_ok netloc)
  then None
  else Some {| su_scheme := scheme; su_netloc := netloc;
               su_path := before_char "?" (before_char "#" url) |}.

(** The username or the password of a URL is not [None]. *)
Definition credentialed (u : SplitUrl) : bool := contains_char "@" (su_netloc u).

Definition classify_artifact_uri (v : string) : res ProvenanceClassification :=
  decoded ← _decode_origin_value v;
  let answer canonical reality := {| pc_dimension := "artifact_uri"; pc_raw_value := v;
                                     pc_canonical_value := canonical; pc_reality := reality |} in
  if has_space (chars decoded) then Ok (answer (casefold decoded) Unknown) else
  match urlsplit decoded with
  | None => Ok (answer "<malformed-uri>" Unknown)
  | Some parsed =>
    if bool_decide (su_scheme parsed = "") then Ok (answer "<missing-scheme>" Unknown) else
    scheme ← _canonical_origin_token (su_scheme parsed);
    if memb scheme _NON_REAL_URI_SCHEMES then Ok (answer scheme Non_real)
    else if negb (memb scheme _REAL_PROMOTION_URI_SCHEMES) then Ok (answer scheme Unknown)
    else if (bool_decide (su_netloc parsed = "") && bool_decide (su_path parsed = ""))
            || (memb scheme ["gs"; "https"; "s3"] && bool_decide (su_netloc parsed = ""))
            || credentialed parsed
    then Ok (answer (scheme +:+ ":malformed-or-credentialed") Unknown)
    else Ok (answer scheme Real)
  end.

Record PromotionProvenanceAssessment := {
  pp_environment : ProvenanceClassification; pp_artifact_kinds : list ProvenanceClassification;
  pp_artifact_uris : list ProvenanceClassification }.
Definition real_task_eligible (p : PromotionProvenanceAssessment) : bool :=
  forallb (λ c, bool_decide (pc_reality c = Real)) (pp_environment p :: pp_artifact_kinds p ++ pp_artifact_uris p).
Definition classify_promotion_provenance (environment : string) (rows : list Artifact) :
    res PromotionProvenanceAssessment :=
  environment ← classify_evidence_environment environment;
  kinds ← mapR (λ a, classify_artifact_kind (at_kind a)) rows;
  uris ← mapR (λ a, classify_artifact_uri (at_uri a)) rows;
  Ok {| pp_environment := environment; pp_artifact_kinds := kinds; pp_artifact_uris := uris |}.

(** ** Arguments and guards *)
Definition _digest (v : string) : res string :=
  v ← _text v; _ ← require (sha256_hex (lower v)) EvidenceError; Ok (lower v).

(** The task, which must have a run and not be over; with the run's identifier. *)
Definition _task_scope (task_id : string) : P (TaskRow * string) :=
  row ← read (λ d, tasks d !! task_id);
  row ← expect row NotFoundError;
  run ← expect (t_run_id row) EvidenceError;
  _ ← ensure (negb (memb (t_state row) TERMINAL_TASK_STATES)) EvidenceError;
  mret (row, run).

Definition _require_roles (principal : PrincipalRecord) (required : list Role) : res unit :=
  require (forallb (λ r, memb r (pr_roles principal)) required) AuthorizationError.

Definition _authorize_artifact_producer (principal : PrincipalRecord) (kind : string) : res unit :=
  _ ← require (existsb (λ r, memb r _ARTIFACT_PRODUCER_ROLES) (pr_roles principal)) AuthorizationError;
  _require_roles principal (_ARTIFACT_KIND_ROLES kind).

Definition insert_artifact (a : Artifact) : P unit :=
  _ ← constraint (λ d, absent (artifacts (effects (registry d))) (at_id a) && present (tasks d) (at_task_id a)
        && present (principals d) (at_producer_principal_id a));
  write (set_artifacts <[at_id a := a]>).

(** What the artifacts of a claim can prove. *)
Definition kinds_suffice (state : EvidenceState) (kinds : list string) : bool :=
  match state with
  | ES_PROVIDER_SMOKE => memb "provider_receipt" kinds
  | ES_HUMAN_ACCEPTANCE => memb "human_acceptance" kinds
  | ES_BUSINESS_VALIDATION => memb "business_validation" kinds
  | ES_ACTIVE_RULE_PROMOTION =>
      forallb (λ k, memb k kinds) ["heldout_eval"; "owner_approval"; "rule_promotion_record"]
  | _ => true
  end.

Definition _enforce_provenance (state : EvidenceState) (environment : string) (verdict : EvaluatorVerdict)
    (verifier : PrincipalRecord) (rows : list Artifact) : res unit :=
  origin ← classify_evidence_environment environment;
  _ ← require (negb (bool_decide (pc_reality origin = Non_real) && negb (memb state [ES_STRUCTURE; ES_RUNTIME])))
        EvidenceError;
  _ ← (match _STATE_VERIFIER_ROLES state with Some role => _require_roles verifier [role] | None => Ok tt end);
  let judged := memb verdict _EVALUATOR_VERDICTS in
  let independent := judged || memb state [ES_DURABLE_MEMORY_PROMOTION; ES_ACTIVE_RULE_PROMOTION] in
  _ ← (if judged then _require_roles verifier [R_EVALUATOR] else Ok tt);
  _ ← require (negb (independent && memb (pr_id verifier) (at_producer_principal_id <$> rows))) AuthorizationError;
  require (kinds_suffice state (at_kind <$> rows)) EvidenceError.
End origins.
End Evidence.

(** The registry: its identity, its protected command authority, its configuration. *)
Record EvidenceRegistry := { er_self : nat; er_command_authority : nat; er_policy_version : string }.

Module EvidenceOps.
Import Evidence.
Section registry.
Context `{ENV : Env}.

(** [EvidenceRegistry.__init__] *)
Definition new_EvidenceRegistry (o : Obj) (policy_version : string) : P EvidenceRegistry :=
  token ← _bind_protected_command_authority o "evidence_registry"
            (protected_authority_config_digest "evidence_registry" [("policy_version", JStr policy_version)]) [];
  mret {| er_self := o_id o; er_command_authority := token; er_policy_version := policy_version |}.

Context (self : EvidenceRegistry).

Definition evidence_event (aggregate_type aggregate_id : string) (task : TaskRow) (task_id run_id event_type actor : string)
    (payload : dict) (confidentiality : string) : string → EventArgs :=
  registry_event aggregate_type aggregate_id 0 (t_project_id task) run_id (Some task_id) event_type actor
    (er_policy_version self) payload (Some (er_command_authority self)) (Some (er_self self)) None None []
    confidentiality.

Record ArtifactArgs := {
  xa_task_id : string; xa_kind : string; xa_uri : string; xa_content_digest : string;
  xa_confidentiality : string }.
Definition artifact_args (a : ArtifactArgs) : res ArtifactArgs :=
  task_id ← _text (xa_task_id a);
  kind ← _text (xa_kind a);
  uri ← _text (xa_uri a);
  content_digest ← _digest (xa_content_digest a);
  confidentiality ← _text (xa_confidentiality a);
  _ ← require (memb (lower confidentiality) _CLASSIFICATIONS) EvidenceError;
  Ok {| xa_task_id := task_id; xa_kind := kind; xa_uri := uri; xa_content_digest := content_digest;
        xa_confidentiality := lower confidentiality |}.

Definition artifact_row (a : ArtifactArgs) (artifact_id : string) (task : TaskRow) (run_id producer : string)
    (now : Instant) : Artifact := {|
  at_id := artifact_id; at_project_id := t_project_id task; at_run_id := run_id; at_task_id := xa_task_id a;
  at_producer_principal_id := producer; at_kind := xa_kind a; at_uri := xa_uri a;
  at_content_digest := xa_content_digest a; at_confidentiality := xa_confidentiality a; at_created_at := now |}.
Definition artifact_payload (a : Artifact) : dict :=
  [("kind", JStr (at_kind a)); ("uri", JStr (at_uri a)); ("content_digest", JStr (at_content_digest a));
   ("confidentiality", JStr (at_confidentiality a));
   ("producer_principal_id", JStr (at_producer_principal_id a))].

(** The answer to a repeated registration. *)
Definition same_artifact (r : Artifact) (a : ArtifactArgs) (producer : string) : bool :=
  bool_decide ((at_task_id r, at_producer_principal_id r, at_kind r, at_uri r, at_content_digest r,
                at_confidentiality r)
               = (xa_task_id a, producer, xa_kind a, xa_uri a, xa_content_digest a, xa_confidentiality a)).

Definition register_artifact (args : ArtifactArgs) (producer_session : VerifiedPrincipal)
    (artifact_id : option string) : P Artifact :=
  a ← lift_res (artifact_args args);
  artifact_id ← given_or_new artifact_id;
  artifact_id ← lift_res (_text artifact_id);
  transaction (
    producer ← verify_in_transaction producer_session;
    _ ← lift_res (_authorize_artifact_producer producer (xa_kind a));
    existing ← read (λ d, artifacts (effects (registry d)) !! artifact_id);
    match existing with
    | Some record =>
      _ ← ensure (same_artifact record a (pr_id producer)) IntegrityError;
      mret record
    | None =>
      task_run ← _task_scope (xa_task_id a);
      let '(task, run_id) := task_run in
      now ← utc_now;
      let row := artifact_row a artifact_id task run_id (pr_id producer) now in
      command_id ← new_uuid;
      _ ← append_event (evidence_event "artifact" artifact_id task (xa_task_id a) run_id "artifact_registered" (pr_id producer)
            (artifact_payload row) (xa_confidentiality a) command_id);
      _ ← insert_artifact row;
      mret row
    end).

Record ClaimArgs := {
  xc_task_id : string; xc_claim : string; xc_evidence_state : string; xc_artifact_refs : list string;
  xc_verifier_version : string; xc_environment : string; xc_evaluator_verdict : string;
  xc_non_claims : list string }.
(** The arguments of [record_claim] after its checks. *)
Record Claim := {
  cl_task_id : string; cl_claim : string; cl_state : EvidenceState; cl_verdict : EvaluatorVerdict;
  cl_refs : list string; cl_verifier_version : string; cl_environment : string; cl_non_claims : list string }.
Definition claim_args (a : ClaimArgs) : res Claim :=
  task_id ← _text (xc_task_id a);
  claim ← _text (xc_claim a);
  state ← evidenceState_parse (JStr (xc_evidence_state a));
  verdict ← match of_value (xc_evaluator_verdict a) with Ok v => Ok v | Raise _ => Raise EvidenceError end;
  refs ← mapR _text (xc_artifact_refs a);
  let refs := fromkeys refs in
  _ ← require (negb (bool_decide (refs = []))) EvidenceError;
  verifier_version ← _text (xc_verifier_version a);
  environment ← _text (xc_environment a);
  non_claims ← mapR _text (xc_non_claims a);
  Ok {| cl_task_id := task_id; cl_claim := claim; cl_state := state; cl_verdict := verdict; cl_refs := refs;
        cl_verifier_version := verifier_version; cl_environment := str_lower environment;
        cl_non_claims := non_claims |}.

Definition claim_row (c : Claim) (evidence_id : string) (task : TaskRow) (run_id verifier : string)
    (now : Instant) : EvidenceClaim := {|
  ec_id := evidence_id; ec_project_id := t_project_id task; ec_run_id := run_id; ec_task_id := cl_task_id c;
  ec_claim := cl_claim c; ec_evidence_state := cl_state c; ec_artifact_refs := jstrs (cl_refs c);
  ec_verifier_principal_id := verifier; ec_verifier_version := cl_verifier_version c;
  ec_environment := cl_environment c; ec_evaluator_verdict := cl_verdict c;
  ec_non_claims := jstrs (cl_non_claims c); ec_created_at := now |}.
Definition claim_payload (c : EvidenceClaim) : dict :=
  [("claim", JStr (ec_claim c)); ("evidence_state", JStr (value (ec_evidence_state c)));
   ("artifact_refs", ec_artifact_refs c); ("verifier_principal_id", JStr (ec_verifier_principal_id c));
   ("verifier_version", JStr (ec_verifier_version c)); ("environment", JStr (ec_environment c));
   ("evaluator_verdict", JStr (value (ec_evaluator_verdict c))); ("non_claims", ec_non_claims c)].

(** The artifacts that exist under some references. *)
Definition found_artifacts (d : DB) (refs : list string) : list Artifact :=
  omap (λ r, artifacts (effects (registry d)) !! r) refs.

Definition record_claim (args : ClaimArgs) (verifier_session : VerifiedPrincipal) (evidence_id : option string)
    : P EvidenceClaim :=
  c ← lift_res (claim_args args);
  evidence_id ← given_or_new evidence_id;
  evidence_id ← lift_res (_text evidence_id);
  transaction (
    verifier ← verify_in_transaction verifier_session;
    task_run ← _task_scope (cl_task_id c);
    let '(task, run_id) := task_run in
    rows ← read (λ d, found_artifacts d (cl_refs c));
    _ ← ensure (bool_decide (length rows = length (cl_refs c))) EvidenceError;
    _ ← ensure (forallb (λ a, bool_decide (at_task_id a = cl_task_id c)) rows) EvidenceError;
    _ ← lift_res (_enforce_provenance (cl_state c) (cl_environment c) (cl_verdict c) verifier rows);
    now ← utc_now;
    let row := claim_row c evidence_id task run_id (pr_id verifier) now in
    command_id ← new_uuid;
    _ ← append_event (evidence_event "evidence" evidence_id task (cl_task_id c) run_id "evidence_claim_recorded"
          (pr_id verifier) (claim_payload row) "internal" command_id);
    _ ← insert_evidence_claim row;
    mret row).

(** ** Assessment *)
Record EvidenceAssessment := {
  eva_task_id : string; eva_required_state : EvidenceState; eva_evaluator_required : bool;
  eva_matching_claim_ids : list string; eva_satisfied : bool; eva_reasons : list string }.

(** [ORDER BY created_at] *)
Definition target_claims (d : DB) (task_id : string) (spec : TaskSpec) : list EvidenceClaim :=
  order_by (λ a b, ec_created_at a <=? ec_created_at b)
    (select (λ c, bool_decide (ec_task_id c = task_id)
                  && bool_decide (ec_evidence_state c = ts_evidence_target spec))
       (evidence_claims (registry d))).

Definition assess (d : DB) (task_id : string) (spec : TaskSpec) : EvidenceAssessment :=
  let claims := target_claims d task_id spec in
  let passing := ec_id <$> List.filter (λ c, memb (ec_evaluator_verdict c) [V_PASS; V_PASS_WITH_RISK; V_NOT_REQUIRED])
                             claims in
  let judged := existsb (λ c, memb (ec_evaluator_verdict c) [V_PASS; V_PASS_WITH_RISK]) claims in
  let reasons :=
    (if bool_decide (passing = []) then ["no passing " +:+ value (ts_evidence_target spec) +:+ " claim"] else [])
    ++ (if ts_evaluator_required spec && negb judged then ["independent evaluator verdict is required"] else []) in
  {| eva_task_id := task_id; eva_required_state := ts_evidence_target spec;
     eva_evaluator_required := ts_evaluator_required spec; eva_matching_claim_ids := passing;
     eva_satisfied := bool_decide (reasons = []); eva_reasons := reasons |}.

Definition assess_task (task_id : string) : P EvidenceAssessment :=
  d ← read id;
  task ← expect (tasks d !! task_id) NotFoundError;
  mret (assess d task_id (t_spec task)).
Definition require_task_evidence (task_id : string) : P EvidenceAssessment :=
  assessment ← assess_task task_id;
  _ ← ensure (eva_satisfied assessment) EvidenceError;
  mret assessment.

(** ** Calls of a registry as data *)
Inductive EvidenceOp :=
  | EoArtifact (args : ArtifactArgs) (producer : VerifiedPrincipal) (artifact_id : option string)
  | EoClaim (args : ClaimArgs) (verifier : VerifiedPrincipal) (evidence_id : option string)
  | EoRequire (task_id : string).
Definition run_evidence_op (op : EvidenceOp) : P unit :=
  match op with
  | EoArtifact a p i => ignore (register_artifact a p i)
  | EoClaim a v i => ignore (record_claim a v i)
  | EoRequire t => ignore (require_task_evidence t)
  end.

Lemma evidence_op_footprint I op :
  footprint ["artifact"; "evidence"] (only set_artifacts) I → (∀ c, keeps I (insert_evidence_claim c)) →
  keeps I (run_evidence_op op).
Proof.
  intros HI Hc. destruct op; unfold run_evidence_op, ignore, register_artifact, record_claim, require_task_evidence,
    assess_task, verify_in_transaction, _task_scope, insert_artifact; registry_walk HI.
Qed.
Lemma evidence_op_keeps I op : kept_beside I → keeps I (run_evidence_op op).
Proof.
  intros HI. apply evidence_op_footprint; [by apply footprint_beside; [|beside_writes|]|apply (kb_evidence I HI)].
Qed.
Lemma pure_assess task : pure_db (assess_task task).
Proof. intros w. unfold assess_task, mbind, M_bind, read, gets, expect, lift_res. simpl. by case_match. Qed.
Lemma evidence_op_atomic op : atomic (run_evidence_op op).
Proof.
  pose proof pure_assess.
  destruct op; unfold run_evidence_op, ignore; apply (atomic_then _ (λ _, tt));
    unfold register_artifact, record_claim, require_task_evidence; atomic_walk.
  apply atomic_pure. by intros ?.
Qed.
End registry.
End EvidenceOps.
