(* ===== verification/Observations.v ===== *)
(** * Observations of runtime surfaces ([observations.py])

    A probe of a surface that the goal declares is recorded with its time to live;
    [require_fresh] decides at one instant whether the newest observation of every
    required surface is healthy and not stale.  A time argument is an instant, as
    [_instant] yields it. *)

From Stdlib Require Import Ascii.
From S2P Require Import Prelude PyStr Json Enums Contracts Scope Db Store Identity.
From S2P Require Import Leases Authority Gates Registries.

Local Open Scope string_scope.
Local Open Scope list_scope.
Local Open Scope Z_scope.

Definition _VALID_STATUSES : list string := _HEALTHY ++ ["degraded"; "unhealthy"; "failed"; "unknown"].
Definition _NON_PROBES : list string := ["documentation"; "readme"; "static_doc"; "declared_state"].
Definition _DOCUMENT_SUFFIXES : list string := [".md"; ".markdown"; ".rst"; ".adoc"; ".txt"].

(** The last instant of a [datetime]. *)
Definition max_datetime : Instant := 253402300799999999.

(** The registry: its configuration. *)
Record ObservationRegistry := { ob_policy_version : string }.

Module Observe.
Section observations.
Context `{ENV : Env}.

Definition _text (v : string) : res string := required_text FreshnessError v.

(** [_instant(value, default_now=True)] *)
Definition _instant (v : option Instant) : P Instant :=
  match v with Some t => mret t | None => utc_now end.

(** Documentation or declared state, which proves nothing about a runtime. *)
Definition document_probe (probe_name : string) : bool :=
  let normalized := replace_char "\" "/" (lower probe_name) in
  memb normalized _NON_PROBES || existsb (endswith normalized) _DOCUMENT_SUFFIXES
  || startswith (default "" (last (split "/" normalized))) "readme.".

(** [observed + timedelta(seconds=ttl)] *)
Definition later (t : Instant) (seconds : Z) : res Instant :=
  _ ← require (t + seconds * 1000000 <=? max_datetime) PyOverflowError; Ok (t + seconds * 1000000).

Definition insert_observation (o : Observation) : P unit :=
  _ ← constraint (λ d, absent (observations (registry d)) (ob_id o) && (ob_observed_at o <? ob_expires_at o)
        && match ob_trigger_event_id o with
           | None => true
           | Some e => existsb (λ f, bool_decide (ev_id f = e)) (events d)
           end);
  write (set_observations <[ob_id o := o]>).

Record ObserveArgs := {
  oa_project_id : string; oa_run_id : string; oa_surface_key : string; oa_target_identity : string;
  oa_probe_name : string; oa_probe_version : string; oa_status : string; oa_value : dict;
  oa_ttl_seconds : Z; oa_trigger_event_id : option string }.
Definition observe_args (a : ObserveArgs) : res ObserveArgs :=
  project_id ← _text (oa_project_id a);
  run_id ← _text (oa_run_id a);
  surface_key ← _text (oa_surface_key a);
  target_identity ← _text (oa_target_identity a);
  probe_name ← _text (oa_probe_name a);
  probe_version ← _text (oa_probe_version a);
  status ← _text (oa_status a);
  _ ← require (memb (lower status) _VALID_STATUSES) FreshnessError;
  _ ← require (negb (document_probe probe_name)) FreshnessError;
  _ ← require (1 <=? oa_ttl_seconds a) FreshnessError;
  Ok {| oa_project_id := project_id; oa_run_id := run_id; oa_surface_key := surface_key;
        oa_target_identity := target_identity; oa_probe_name := probe_name; oa_probe_version := probe_version;
        oa_status := lower status; oa_value := oa_value a; oa_ttl_seconds := oa_ttl_seconds a;
        oa_trigger_event_id := oa_trigger_event_id a |}.

(** The contract of the goal on one surface. *)
Definition conforms (requirement : RuntimeSurfaceSpec) (a : ObserveArgs) : bool :=
  bool_decide (oa_target_identity a = rs_target_identity requirement)
  && memb (oa_probe_name a) (rs_allowed_probes requirement)
  && (oa_ttl_seconds a <=? rs_max_ttl_seconds requirement)
  && negb (rs_trigger_event_required requirement && bool_decide (oa_trigger_event_id a = None)).

(** The trigger, an event of the same run. *)
Definition trigger_known (d : DB) (a : ObserveArgs) : bool :=
  match oa_trigger_event_id a with
  | Some e => existsb (λ f, bool_decide (ev_id f = e) && bool_decide (ev_run_id f = Some (oa_run_id a))) (events d)
  | None => true
  end.

Definition observation_row (a : ObserveArgs) (observation_id observer : string) (observed recorded expires : Instant)
    : Observation := {|
  ob_id := observation_id; ob_project_id := oa_project_id a; ob_run_id := oa_run_id a;
  ob_surface_key := oa_surface_key a; ob_target_identity := oa_target_identity a; ob_observer := observer;
  ob_probe_name := oa_probe_name a; ob_probe_version := oa_probe_version a;
  ob_trigger_event_id := oa_trigger_event_id a; ob_status := oa_status a; ob_value := JObj (oa_value a);
  ob_value_digest := content_hash (JObj (oa_value a)); ob_observed_at := observed; ob_recorded_at := recorded;
  ob_expires_at := expires |}.
Definition observation_payload (o : Observation) : dict :=
  [("surface_key", JStr (ob_surface_key o)); ("target_identity", JStr (ob_target_identity o));
   ("observer", JStr (ob_observer o)); ("probe_name", JStr (ob_probe_name o));
   ("probe_version", JStr (ob_probe_version o)); ("status", JStr (ob_status o));
   ("value_digest", JStr (ob_value_digest o)); ("observed_at", JStr (iso (ob_observed_at o)));
   ("expires_at", JStr (iso (ob_expires_at o)))].

Context (self : ObservationRegistry).

Definition record (args : ObserveArgs) (observer : VerifiedPrincipal) (observed_at : option Instant)
    (observation_id : option string) : P Observation :=
  a ← lift_res (observe_args args);
  observed ← _instant observed_at;
  now ← utc_now;
  _ ← ensure (observed <=? now + 300 * 1000000) FreshnessError;
  expires ← lift_res (later observed (oa_ttl_seconds a));
  _ ← ensure (now <? expires) FreshnessError;
  observation_id ← given_or_new observation_id;
  observation_id ← lift_res (_text observation_id);
  recorded ← utc_now;
  transaction (
    observer_record ← require_role_in_transaction observer R_OBSERVER;
    let observer_id := pr_id observer_record in
    run ← read (λ d, runs d !! oa_run_id a);
    run ← expect (r ← run; if bool_decide (ru_project_id r = oa_project_id a) then Some r else None) NotFoundError;
    goal ← read (λ d, goals d !! ru_goal_id run);
    goal ← expect (g ← goal; if bool_decide (go_project_id g = oa_project_id a) then Some g else None) FreshnessError;
    requirement ← expect (surface_for (gs_required_runtime_surfaces (go_spec goal)) (oa_surface_key a))
                    FreshnessError;
    _ ← ensure (conforms requirement a) FreshnessError;
    known ← read (λ d, trigger_known d a);
    _ ← ensure known FreshnessError;
    let row := observation_row a observation_id observer_id observed recorded expires in
    command_id ← new_uuid;
    _ ← append_event (registry_event "runtime_observation" observation_id 0 (oa_project_id a) (oa_run_id a) None
          "runtime_observation_recorded" observer_id (ob_policy_version self) (observation_payload row)
          None None None (oa_trigger_event_id a) [] "internal" command_id);
    _ ← insert_observation row;
    mret row).

(** ** The freshness gate *)

(** Why the newest observation of a surface does not satisfy its requirement at
    [decision_time]; [None] when it does. *)
Definition surface_failure (d : DB) (requirement : RuntimeSurfaceSpec) (decision_time : Instant)
    (rows : list Observation) (latest : Observation) : option string :=
  if decision_time <? ob_observed_at latest then Some "newest observation is future-dated"
  else if ob_expires_at latest <=? decision_time then Some "stale"
  else if negb (memb (ob_status latest) _HEALTHY) then Some "status"
  else if negb (bool_decide (ob_target_identity latest = rs_target_identity requirement)) then Some "target identity"
  else if negb (memb (ob_probe_name latest) (rs_allowed_probes requirement)) then Some "untrusted probe"
  else if rs_max_ttl_seconds requirement * 1000000 <? ob_expires_at latest - ob_observed_at latest
       then Some "TTL exceeds contract"
  else if rs_trigger_event_required requirement && bool_decide (ob_trigger_event_id latest = None)
       then Some "missing causal trigger event"
  else if negb (observer_enabled d (ob_observer latest)) then Some "observer is not currently trusted"
  else if negb (forallb (λ o, negb (ob_observed_at o =? ob_observed_at latest)
                              || bool_decide (signature o = signature latest)) rows)
       then Some "contradictory observations"
  else None.

(** [ORDER BY observed_at DESC, recorded_at DESC] *)
Definition observed_rows (d : DB) (run_id surface_key : string) : list Observation :=
  order_by newest (select (λ o, bool_decide (ob_run_id o = run_id) && bool_decide (ob_surface_key o = surface_key))
                     (observations (registry d))).

(** One round of the loop over the requirements: the answers and the failures so far. *)
Definition check_surface (d : DB) (run_id : string) (decision_time : Instant)
    (acc : gmap string Observation * list string) (requirement : RuntimeSurfaceSpec) :
    gmap string Observation * list string :=
  let key := rs_surface_key requirement in
  match observed_rows d run_id key with
  | [] => (acc.1, acc.2 ++ [key +:+ ": missing"])
  | (latest :: _) as rows =>
    match surface_failure d requirement decision_time rows latest with
    | Some why => (acc.1, acc.2 ++ [key +:+ ": " +:+ why])
    | None => (<[key := latest]> acc.1, acc.2)
    end
  end.

(** The queries of one call are taken to read one snapshot of the database. *)
Definition require_fresh (run_id : string) (required_surfaces : list RuntimeSurfaceSpec) (as_of : option Instant)
    : P (gmap string Observation) :=
  run_id ← lift_res (_text run_id);
  decision_time ← _instant as_of;
  d ← read id;
  let '(result, failures) := foldl (check_surface d run_id decision_time) (∅, []) required_surfaces in
  _ ← ensure (bool_decide (failures = [])) FreshnessError;
  mret result.

(** ** Calls of a registry as data *)
Inductive ObserveOp :=
  | OoRecord (args : ObserveArgs) (observer : VerifiedPrincipal) (observed_at : option Instant)
      (observation_id : option string)
  | OoRequire (run_id : string) (required_surfaces : list RuntimeSurfaceSpec) (as_of : option Instant).
Definition run_observe_op (op : ObserveOp) : P unit :=
  match op with
  | OoRecord a o t i => ignore (record a o t i)
  | OoRequire r s t => ignore (require_fresh r s t)
  end.

Lemma keeps_instant I v : keeps I (_instant v).
Proof. unfold _instant. keeps_walk. Qed.
Lemma pure_instant v : pure_db (_instant v).
Proof. by destruct v; intros ?. Qed.

Lemma observe_op_footprint I op :
  footprint ["runtime_observation"] (only set_observations) I → keeps I (run_observe_op op).
Proof.
  intros HI. pose proof (keeps_instant I). destruct op; unfold run_observe_op, ignore, record, require_fresh,
    require_role_in_transaction, insert_observation; registry_walk HI.
Qed.
Lemma observe_op_keeps I op : kept_beside I → keeps I (run_observe_op op).
Proof. intros HI. apply observe_op_footprint. by apply footprint_beside; [|beside_writes|]. Qed.
Lemma observe_op_atomic op : atomic (run_observe_op op).
Proof.
  pose proof pure_instant.
  destruct op; unfold run_observe_op, ignore; apply (atomic_then _ (λ _, tt)); unfold record, require_fresh;
    atomic_walk; apply atomic_pure; by intros ?.
Qed.
End observations.
End Observe.
