(* ===== verification/Context.v ===== *)
(** * Context items and assemblies ([context.py])

    Context is registered as authoring material, which instructs nobody, or
    imported as active or limited instructions, which a verifier of trusted sources
    must vouch for; [assemble] selects for a task, within a budget of tokens, the
    instructions that are eligible at one instant, and says why it rejects the
    rest.  A time argument is an instant, as [_instant] yields it; the fields of an
    attestation are texts. *)

From S2P Require Import Prelude PyStr Json Enums Contracts Scope Db Store Identity.
From S2P Require Import Leases Authority Gates Registries Policy Observations.

Local Open Scope string_scope.
Local Open Scope list_scope.
Local Open Scope Z_scope.

Definition KNOWN_CLASSIFICATIONS : list string :=
  ["public"; "publicable"; "internal"; "private"; "confidential"; "secret"].
Definition ACTIVE_INSTRUCTION_CLASSIFICATIONS : list string := ["public"; "publicable"; "internal"].
Definition INSTRUCTION_STATUSES : list string := ["active"; "limited"].
Definition AUTHORING_STATUSES : list string := ["candidate"; "draft"].
Definition KNOWN_NORMATIVE_STATUSES : list string :=
  ["active"; "limited"; "candidate"; "draft"; "historical_draft"; "rejected"; "retired"].

Record TrustedSourceAttestation := {
  ta_attestation_id : string; ta_proof : string; ta_context_id : string; ta_project_id : string;
  ta_scope : string; ta_source_ref : string; ta_source_digest : string; ta_classification : string;
  ta_normative_status : string; ta_priority : Z; ta_token_estimate : Z; ta_observed_at : string;
  ta_effective_at : string; ta_expires_at : option string; ta_supersedes : option string;
  ta_policy_version : string }.

(** What an attestation says of the record. *)
Record Bound := {
  bd_context_id : string; bd_project_id : string; bd_scope : string; bd_source_ref : string;
  bd_source_digest : string; bd_classification : string; bd_normative_status : string; bd_priority : Z;
  bd_token_estimate : Z; bd_observed_at : string; bd_effective_at : string; bd_expires_at : option string;
  bd_supersedes : option string }.
#[export] Instance Bound_eq_dec : EqDecision Bound.
Proof. solve_decision. Defined.

(** [TrustedSourceVerifier.verify]: whether it returned [None], or what it raised. *)
Definition TrustedSourceVerifier : Type := TrustedSourceAttestation → res bool.
(** [DenyAllTrustedSourceVerifier.verify] *)
Definition deny_all : TrustedSourceVerifier := λ _, Raise AuthorizationError.

(** The registry: its verifier. *)
Record ContextRegistry := { cr_trusted_source_verifier : TrustedSourceVerifier }.

Module Context.
Section context.
Context `{ENV : Env}.

Definition _text (v : string) : res string := required_text ContractError v.
(** [x = None if x is None else _text(x)] *)
Definition optional_text (v : option string) : res (option string) :=
  match v with Some s => s ← _text s; Ok (Some s) | None => Ok None end.

Definition _is_current (row : ContextItem) (at_ : Instant) : bool :=
  (cx_effective_at row <=? at_)
  && match cx_expires_at row with Some t => at_ <? t | None => true end.

(** ** Records *)
Record ItemArgs := {
  ia_context_id : string; ia_project_id : string; ia_scope : string; ia_source_ref : string;
  ia_content : string; ia_classification : string; ia_normative_status : string; ia_priority : Z;
  ia_token_estimate : option Z; ia_observed_at : option Instant; ia_effective_at : option Instant;
  ia_expires_at : option Instant; ia_supersedes : option string }.

Definition source_digest (source_ref content : string) : string :=
  content_hash (JObj [("source_ref", JStr source_ref); ("content", JStr content)]).

Definition item_args (a : ItemArgs) : res ItemArgs :=
  context_id ← _text (ia_context_id a);
  project_id ← _text (ia_project_id a);
  scope ← _text (ia_scope a);
  scope ← normalize_scope scope;
  source_ref ← _text (ia_source_ref a);
  content ← _text (ia_content a);
  classification ← _text (ia_classification a);
  normative_status ← _text (ia_normative_status a);
  _ ← require (memb (lower classification) KNOWN_CLASSIFICATIONS) ContractError;
  _ ← require (memb (lower normative_status) KNOWN_NORMATIVE_STATUSES) ContractError;
  let token_estimate := default (Z.max 1 ((str_len content + 3) / 4)) (ia_token_estimate a) in
  _ ← require (1 <=? token_estimate) ContractError;
  Ok {| ia_context_id := context_id; ia_project_id := project_id; ia_scope := scope;
        ia_source_ref := source_ref; ia_content := content; ia_classification := lower classification;
        ia_normative_status := lower normative_status; ia_priority := ia_priority a;
        ia_token_estimate := Some token_estimate; ia_observed_at := ia_observed_at a;
        ia_effective_at := ia_effective_at a; ia_expires_at := ia_expires_at a;
        ia_supersedes := ia_supersedes a |}.

Definition item_row (a : ItemArgs) (observed effective now : Instant) (supersedes : option string) : ContextItem := {|
  cx_id := ia_context_id a; cx_project_id := ia_project_id a; cx_scope := ia_scope a;
  cx_source_ref := ia_source_ref a; cx_source_digest := source_digest (ia_source_ref a) (ia_content a);
  cx_content := ia_content a; cx_classification := ia_classification a;
  cx_normative_status := ia_normative_status a; cx_priority := ia_priority a;
  cx_token_estimate := default 1 (ia_token_estimate a); cx_observed_at := observed;
  cx_effective_at := effective; cx_expires_at := ia_expires_at a; cx_supersedes := supersedes;
  cx_created_at := now |}.

Definition _prepare_record (args : ItemArgs) : P ContextItem :=
  a ← lift_res (item_args args);
  now ← utc_now;
  let observed := default now (ia_observed_at a) in
  let effective := default observed (ia_effective_at a) in
  _ ← ensure (match ia_expires_at a with Some expiry => effective <? expiry | None => true end) ContractError;
  supersedes ← lift_res (optional_text (ia_supersedes a));
  _ ← ensure (negb (bool_decide (supersedes = Some (ia_context_id a)))) ContractError;
  mret (item_row a observed effective now supersedes).

(** The fields that an attestation binds exactly, of a record and of an attestation. *)
Definition bound_of (r : ContextItem) : Bound := {|
  bd_context_id := cx_id r; bd_project_id := cx_project_id r; bd_scope := cx_scope r;
  bd_source_ref := cx_source_ref r; bd_source_digest := cx_source_digest r;
  bd_classification := cx_classification r; bd_normative_status := cx_normative_status r;
  bd_priority := cx_priority r; bd_token_estimate := cx_token_estimate r;
  bd_observed_at := iso (cx_observed_at r); bd_effective_at := iso (cx_effective_at r);
  bd_expires_at := iso <$> cx_expires_at r; bd_supersedes := cx_supersedes r |}.
Definition bound_by (a : TrustedSourceAttestation) : Bound := {|
  bd_context_id := ta_context_id a; bd_project_id := ta_project_id a; bd_scope := ta_scope a;
  bd_source_ref := ta_source_ref a; bd_source_digest := ta_source_digest a;
  bd_classification := ta_classification a; bd_normative_status := ta_normative_status a;
  bd_priority := ta_priority a; bd_token_estimate := ta_token_estimate a;
  bd_observed_at := ta_observed_at a; bd_effective_at := ta_effective_at a;
  bd_expires_at := ta_expires_at a; bd_supersedes := ta_supersedes a |}.
Definition attested_fields (b : Bound) : dict :=
  [("context_id", JStr (bd_context_id b)); ("project_id", JStr (bd_project_id b)); ("scope", JStr (bd_scope b));
   ("source_ref", JStr (bd_source_ref b)); ("source_digest", JStr (bd_source_digest b));
   ("classification", JStr (bd_classification b)); ("normative_status", JStr (bd_normative_status b));
   ("priority", JInt (bd_priority b)); ("token_estimate", JInt (bd_token_estimate b));
   ("observed_at", JStr (bd_observed_at b)); ("effective_at", JStr (bd_effective_at b));
   ("expires_at", jopt (bd_expires_at b)); ("supersedes", jopt (bd_supersedes b))].
(** The envelope whose hash an import puts on record. *)
Definition envelope_digest (attestation_id policy_version : string) (b : Bound) : string :=
  content_hash (JObj (("attestation_id", JStr attestation_id) :: attested_fields b ++ [("policy_version", JStr policy_version)])).
Definition _attestation_fingerprint (a : TrustedSourceAttestation) : string :=
  envelope_digest (ta_attestation_id a) (ta_policy_version a) (bound_by a).

(** [_text(v) == v] *)
Definition canonical_text (v : string) : res unit := s ← _text v; require (bool_decide (s = v)) ContractError.

Definition _validate_trusted_attestation (verify : TrustedSourceVerifier) (record : ContextItem)
    (policy_version : string) (attestation : TrustedSourceAttestation) : res unit :=
  _ ← canonical_text (ta_attestation_id attestation);
  _ ← canonical_text (ta_proof attestation);
  _ ← require (bool_decide (bound_by attestation = bound_of record)
               && bool_decide (ta_policy_version attestation = policy_version)) AuthorizationError;
  verified ← verify attestation;
  require verified AuthorizationError.

(** The record without its content. *)
Definition item_payload (r : ContextItem) : dict := attested_fields (bound_of r) ++ [("created_at", JStr (iso (cx_created_at r)))].
Definition trusted_payload (a : TrustedSourceAttestation) : dict :=
  [("trusted_attestation_id", JStr (ta_attestation_id a));
   ("trusted_attestation_digest", JStr (_attestation_fingerprint a));
   ("trusted_policy_version", JStr (ta_policy_version a))].

(** Equal in every column but [created_at]. *)
Definition same_record (a b : ContextItem) : bool :=
  bool_decide (bound_of a = bound_of b) && bool_decide (cx_content a = cx_content b).

Definition insert_context_item (r : ContextItem) : P unit :=
  _ ← ensure (int64 (cx_priority r) && int64 (cx_token_estimate r)) PyOverflowError;
  _ ← constraint (λ d, absent (context_items (knowledge (effects (registry d)))) (cx_id r)
        && (0 <=? cx_token_estimate r)
        && match cx_supersedes r with
           | Some i => present (context_items (knowledge (effects (registry d)))) i
           | None => true
           end);
  write (set_context_items <[cx_id r := r]>).

(** The event of an item or of an assembly. *)
Definition context_event (aggregate_type aggregate_id project_id : string) (run_id task_id : option string)
    (event_type actor policy_version correlation_id confidentiality : string) (payload : dict)
    (command_id : string) : EventArgs := {|
  ea_aggregate_type := aggregate_type; ea_aggregate_id := aggregate_id; ea_expected_version := 0;
  ea_project_id := project_id; ea_event_type := event_type; ea_actor := actor; ea_command_id := command_id;
  ea_correlation_id := correlation_id; ea_policy_version := policy_version; ea_payload := payload;
  ea_auth_context := []; ea_auth_session := None; ea_command_authority := None; ea_command_owner := None;
  ea_run_id := run_id; ea_task_id := task_id; ea_idempotency_key := None; ea_causation_id := None;
  ea_confidentiality := confidentiality; ea_occurred_at := None |}.

(** The superseded item, of the same project and scope. *)
Definition supersedes_ok (d : DB) (record : ContextItem) : res unit :=
  match cx_supersedes record with
  | None => Ok tt
  | Some i =>
    previous ← of_option (context_items (knowledge (effects (registry d))) !! i) NotFoundError;
    require (bool_decide (cx_project_id previous = cx_project_id record)
             && bool_decide (cx_scope previous = cx_scope record)) ContractError
  end.
Definition imported (d : DB) (context_id : string) : bool :=
  existsb (λ e, bool_decide ((ev_aggregate_type e, ev_aggregate_id e, ev_event_type e)
                             = ("context_item", context_id, "trusted_context_imported"))) (events d).

(** [x or y] of a text. *)
Definition text_or (o : option string) (s : string) : string :=
  match o with Some t => if bool_decide (t = "") then s else t | None => s end.

Record Caller := { who_actor : string; who_policy : string; who_command_id : option string; who_correlation_id : option string }.

(** The answer tells whether the item is new. *)
Definition _persist (record : ContextItem) (c : Caller) (event_type : string)
    (attestation : option TrustedSourceAttestation) : P (ContextItem * bool) :=
  policy_version ← lift_res (_text (who_policy c));
  transaction (
    existing ← read (λ d, context_items (knowledge (effects (registry d))) !! cx_id record);
    match existing with
    | Some current =>
      _ ← ensure (same_record current record) IntegrityError;
      trusted ← read (λ d, imported d (cx_id record));
      _ ← ensure (match attestation with Some _ => trusted | None => true end) IntegrityError;
      mret (current, false)
    | None =>
      d ← read id;
      _ ← lift_res (supersedes_ok d record);
      actor ← lift_res (_text (who_actor c));
      command_id ← given_or_new (who_command_id c);
      _ ← append_event (context_event "context_item" (cx_id record) (cx_project_id record) None None event_type actor
            policy_version (text_or (who_correlation_id c) (cx_id record)) (cx_classification record)
            (item_payload record ++ match attestation with Some a => trusted_payload a | None => [] end) command_id);
      _ ← insert_context_item record;
      mret (record, true)
    end).

Definition register (args : ItemArgs) (c : Caller) : P (ContextItem * bool) :=
  record ← _prepare_record args;
  _ ← ensure (memb (cx_normative_status record) AUTHORING_STATUSES) AuthorizationError;
  _persist record c "context_item_registered" None.

Definition import_trusted (self : ContextRegistry) (args : ItemArgs) (attestation : TrustedSourceAttestation)
    (c : Caller) : P (ContextItem * bool) :=
  policy_version ← lift_res (_text (who_policy c));
  record ← _prepare_record args;
  _ ← ensure (memb (cx_normative_status record) INSTRUCTION_STATUSES) AuthorizationError;
  _ ← lift_res (_validate_trusted_attestation (cr_trusted_source_verifier self) record policy_version attestation);
  _persist record c "trusted_context_imported" (Some attestation).

(** ** Assembly *)
Record AssembleArgs := {
  ab_assembly_id : string; ab_project_id : string; ab_run_id : string; ab_task_id : string;
  ab_scopes : list string; ab_token_budget : Z; ab_allowed_classifications : option (list string) }.

(** The arguments after their checks: the scopes are normalised and without
    repetition, the classifications are those that instructions may have. *)
Definition assemble_args (a : AssembleArgs) : res AssembleArgs :=
  assembly_id ← _text (ab_assembly_id a);
  project_id ← _text (ab_project_id a);
  run_id ← _text (ab_run_id a);
  task_id ← _text (ab_task_id a);
  scopes ← mapR (λ s, s ← _text s; normalize_scope s) (ab_scopes a);
  _ ← require (negb (bool_decide (scopes = []))) ContractError;
  _ ← require (1 <=? ab_token_budget a) ContractError;
  allowed ← mapR _text (default ACTIVE_INSTRUCTION_CLASSIFICATIONS (ab_allowed_classifications a));
  let allowed := fromkeys (lower <$> allowed) in
  _ ← require (forallb (λ c, memb c KNOWN_CLASSIFICATIONS) allowed) ContractError;
  Ok {| ab_assembly_id := assembly_id; ab_project_id := project_id; ab_run_id := run_id; ab_task_id := task_id;
        ab_scopes := fromkeys scopes; ab_token_budget := ab_token_budget a;
        ab_allowed_classifications :=
          Some (List.filter (λ c, memb c ACTIVE_INSTRUCTION_CLASSIFICATIONS) allowed) |}.
Definition classifications (a : AssembleArgs) : list string := default [] (ab_allowed_classifications a).

(** [ORDER BY priority DESC, effective_at DESC, context_id ASC] *)
Definition ranked (a b : ContextItem) : bool :=
  if cx_priority a =? cx_priority b then
    if cx_effective_at a =? cx_effective_at b then str_leb (cx_id a) (cx_id b)
    else cx_effective_at b <? cx_effective_at a
  else cx_priority b <? cx_priority a.
Definition project_items (d : DB) (project_id : string) : list ContextItem :=
  order_by ranked (select (λ r, bool_decide (cx_project_id r = project_id))
                     (context_items (knowledge (effects (registry d))))).

(** Whether an import event vouches for an item as it is in the table. *)
Definition vouches (e : Event) (row : ContextItem) : bool :=
  bool_decide (ev_aggregate_id e = cx_id row)
  && match ev_payload e with
     | JObj payload =>
       match dget payload "trusted_attestation_id", dget payload "trusted_attestation_digest",
             dget payload "trusted_policy_version" with
       | Some (JStr attestation_id), Some (JStr attestation_digest), Some (JStr policy_version) =>
         negb (blank attestation_id)
         && bool_decide (ev_policy_version e = policy_version)
         && forallb (λ kv, same_json (dget_or payload kv.1 JNull) kv.2) (attested_fields (bound_of row))
         && bool_decide (envelope_digest attestation_id policy_version (bound_of row) = attestation_digest)
       | _, _, _ => false
       end
     | _ => false
     end.
Definition trusted (d : DB) (project_id : string) (row : ContextItem) : bool :=
  existsb (λ e, bool_decide ((ev_project_id e, ev_aggregate_type e, ev_event_type e)
                             = (project_id, "context_item", "trusted_context_imported"))
                && vouches e row) (events d).

(** The first current and trusted instruction that supersedes an item. *)
Definition superseded_by (d : DB) (project_id : string) (at_ : Instant) (rows : list ContextItem)
    (row : ContextItem) : option ContextItem :=
  List.find (λ successor, bool_decide (cx_supersedes successor = Some (cx_id row))
    && bool_decide (cx_scope row = cx_scope successor)
    && memb (cx_normative_status successor) INSTRUCTION_STATUSES
    && trusted d project_id successor && _is_current successor at_) rows.

(** Why an item is not selected, apart from the budget; the checks in their order. *)
Definition ineligible (d : DB) (a : AssembleArgs) (at_ : Instant) (rows : list ContextItem) (row : ContextItem)
    : res (option string) :=
  if negb (bool_decide (source_digest (cx_source_ref row) (cx_content row) = cx_source_digest row))
  then Ok (Some "source_digest_mismatch")
  else if memb (cx_normative_status row) INSTRUCTION_STATUSES && negb (trusted d (ab_project_id a) row)
  then Ok (Some "untrusted_normative_source")
  else
    overlap ← anyR (scopes_overlap (cx_scope row)) (ab_scopes a);
    Ok (if negb overlap then Some "out_of_scope"
        else if negb (memb (cx_normative_status row) INSTRUCTION_STATUSES)
        then Some ("normative_status:" +:+ cx_normative_status row)
        else if at_ <? cx_effective_at row then Some "not_effective"
        else if match cx_expires_at row with Some t => t <=? at_ | None => false end then Some "expired"
        else match superseded_by d (ab_project_id a) at_ rows row with
             | Some successor => Some ("superseded_by:" +:+ cx_id successor)
             | None =>
               if negb (memb (cx_classification row) (classifications a))
               then Some (if memb (cx_classification row) ["private"; "confidential"; "secret"]
                          then "private_classification" else "classification_not_allowed")
               else None
             end).

(** The loop over the rows: what is selected, what is rejected and why, and the
    tokens in use. *)
Record Selection := {
  sl_selected : list ContextItem; sl_rejected : list (ContextItem * string); sl_used : Z }.
Definition select_row (why : ContextItem → res (option string)) (budget : Z) (s : Selection) (row : ContextItem)
    : res Selection :=
  reason ← why row;
  let reason := match reason with
                | None => if budget <? sl_used s + cx_token_estimate row then Some "token_budget" else None
                | r => r
                end in
  Ok (match reason with
      | Some r => {| sl_selected := sl_selected s; sl_rejected := sl_rejected s ++ [(row, r)]; sl_used := sl_used s |}
      | None => {| sl_selected := sl_selected s ++ [row]; sl_rejected := sl_rejected s;
                   sl_used := sl_used s + cx_token_estimate row |}
      end).
Fixpoint select_rows (why : ContextItem → res (option string)) (budget : Z) (s : Selection) (rows : list ContextItem)
    : res Selection :=
  match rows with
  | [] => Ok s
  | row :: rows => s ← select_row why budget s row; select_rows why budget s rows
  end.
Definition nothing_selected : Selection := {| sl_selected := []; sl_rejected := []; sl_used := 0 |}.

Definition trace_item (r : ContextItem) : dict :=
  [("context_id", JStr (cx_id r)); ("scope", JStr (cx_scope r)); ("source_ref", JStr (cx_source_ref r));
   ("source_digest", JStr (cx_source_digest r)); ("classification", JStr (cx_classification r));
   ("normative_status", JStr (cx_normative_status r)); ("priority", JInt (cx_priority r));
   ("token_estimate", JInt (cx_token_estimate r))].
Definition selected_json (s : Selection) : json :=
  JList ((λ r, JObj (trace_item r ++ [("content", JStr (cx_content r))])) <$> sl_selected s).
Definition rejected_json (s : Selection) : json :=
  JList ((λ r, JObj (trace_item r.1 ++ [("reason", JStr r.2)])) <$> sl_rejected s).
Definition assembly_trace (a : AssembleArgs) (at_ : Instant) (s : Selection) : dict :=
  [("assembly_id", JStr (ab_assembly_id a)); ("project_id", JStr (ab_project_id a)); ("run_id", JStr (ab_run_id a));
   ("task_id", JStr (ab_task_id a)); ("as_of", JStr (iso at_)); ("scopes", jstrs (sort_by id (ab_scopes a)));
   ("allowed_classifications", jstrs (sort_by id (classifications a))); ("token_budget", JInt (ab_token_budget a));
   ("used_tokens", JInt (sl_used s)); ("selected", selected_json s); ("rejected", rejected_json s)].
Definition assembly_payload (digest : string) (s : Selection) : dict :=
  [("assembly_digest", JStr digest); ("selected_ids", jstrs (cx_id <$> sl_selected s));
   ("rejected", JList ((λ r, JObj [("context_id", JStr (cx_id r.1)); ("reason", JStr r.2)]) <$> sl_rejected s))].

Definition insert_assembly (r : Assembly) : P unit :=
  _ ← ensure (int64 (as_token_budget r)) PyOverflowError;
  _ ← constraint (λ d, absent (context_assemblies (knowledge (effects (registry d)))) (as_id r)
        && present (tasks d) (as_task_id r));
  write (set_context_assemblies <[as_id r := r]>).

(** The task, which must belong to the run and the project and allow the scopes. *)
Definition assert_execution (a : AssembleArgs) : P TaskRow :=
  task ← read (λ d, tasks d !! ab_task_id a);
  run ← read (λ d, runs d !! ab_run_id a);
  task ← expect task NotFoundError;
  run ← expect run NotFoundError;
  _ ← ensure (bool_decide (t_project_id task = ab_project_id a) && bool_decide (ru_project_id run = ab_project_id a)
              && bool_decide (t_run_id task = Some (ab_run_id a))) ContractError;
  allowed ← lift_res (mapR (scope_allowed (ts_read_scope (t_spec task))) (ab_scopes a));
  _ ← ensure (forallb id allowed) ContractError;
  mret task.

Definition assemble (args : AssembleArgs) (as_of : option Instant) (actor policy_version : string)
    : P (Selection * string) :=
  a ← lift_res (assemble_args args);
  now ← utc_now;
  let at_ := default now as_of in
  transaction (
    _ ← assert_execution a;
    d ← read id;
    let rows := project_items d (ab_project_id a) in
    s ← lift_res (select_rows (ineligible d a at_ rows) (ab_token_budget a) nothing_selected rows);
    let digest := content_hash (JObj (assembly_trace a at_ s)) in
    match context_assemblies (knowledge (effects (registry d))) !! ab_assembly_id a with
    | Some existing =>
      _ ← ensure (bool_decide (as_digest existing = digest)) IntegrityError;
      mret (s, digest)
    | None =>
      actor ← lift_res (_text actor);
      command_id ← new_uuid;
      policy_version ← lift_res (_text policy_version);
      _ ← append_event (context_event "context_assembly" (ab_assembly_id a) (ab_project_id a) (Some (ab_run_id a))
            (Some (ab_task_id a)) "context_assembled" actor policy_version (ab_run_id a) "internal"
            (assembly_payload digest s) command_id);
      created ← utc_now;
      _ ← insert_assembly {| as_id := ab_assembly_id a; as_project_id := ab_project_id a; as_run_id := ab_run_id a;
            as_task_id := ab_task_id a; as_token_budget := ab_token_budget a; as_selected := selected_json s;
            as_rejected := rejected_json s; as_digest := digest; as_created_at := created |};
      mret (s, digest)
    end).

Definition get_assembly (assembly_id : string) : P Assembly :=
  assembly_id ← lift_res (_text assembly_id);
  row ← read (λ d, context_assemblies (knowledge (effects (registry d))) !! assembly_id);
  expect row NotFoundError.

(** ** Calls of a registry as data *)
Inductive ContextOp :=
  | CoRegister (args : ItemArgs) (c : Caller)
  | CoImport (args : ItemArgs) (attestation : TrustedSourceAttestation) (c : Caller)
  | CoAssemble (args : AssembleArgs) (as_of : option Instant) (actor policy_version : string).
Definition run_context_op (self : ContextRegistry) (op : ContextOp) : P unit :=
  match op with
  | CoRegister a c => ignore (register a c)
  | CoImport a t c => ignore (import_trusted self a t c)
  | CoAssemble a t n p => ignore (assemble a t n p)
  end.

Definition context_writes (f : DB → DB) : Prop := only set_context_items f ∨ only set_context_assemblies f.

Lemma keeps_prepare I a : keeps I (_prepare_record a).
Proof. unfold _prepare_record. keeps_walk. Qed.
Lemma pure_prepare a : pure_db (_prepare_record a).
Proof.
  unfold _prepare_record. pure_walk.
Qed.
Lemma keeps_execution I a : keeps I (assert_execution a).
Proof. unfold assert_execution. keeps_walk. Qed.

Lemma context_op_footprint I self op :
  footprint ["context_item"; "context_assembly"] context_writes I → keeps I (run_context_op self op).
Proof.
  intros HI. pose proof (keeps_prepare I). pose proof (keeps_execution I). unfold context_writes in HI.
  destruct op; unfold run_context_op, ignore, register, import_trusted, assemble, _persist, insert_context_item,
    insert_assembly; registry_walk HI.
Qed.
Lemma context_op_keeps I self op : kept_beside I → keeps I (run_context_op self op).
Proof. intros HI. apply context_op_footprint. by apply footprint_beside; [|unfold context_writes; beside_writes|]. Qed.
Lemma context_op_atomic self op : atomic (run_context_op self op).
Proof.
  pose proof pure_prepare.
  destruct op; unfold run_context_op, ignore; apply (atomic_then _ (λ _, tt));
    unfold register, import_trusted, assemble, _persist; atomic_walk.
Qed.
End context.
End Context.
