(* ===== verification/Memory.v ===== *)
(** * Memory candidates and their promotion ([memory.py])

    A memory is created as a candidate from passing evidence, at most as public as
    that evidence's artifacts, and moves to limited and then to active only behind an
    owner's approval of this very step and a passing held-out evaluation of this very
    candidate.  A time argument is an instant, as [_datetime] yields it. *)

From S2P Require Import Prelude PyStr Json Enums Contracts Scope Db Store Identity.
From S2P Require Import Leases Authority Gates Registries Policy Evidence Observations Context.

Local Open Scope string_scope.
Local Open Scope list_scope.
Local Open Scope Z_scope.

Definition MEMORY_PROMOTION_CAPABILITY : string := "durable_memory_promotion".
Definition MEMORY_PROMOTION_ACTION : string := "promote_memory".
Definition MEMORY_TRANSITIONS (status : string) : option string :=
  if bool_decide (status = "candidate") then Some "limited"
  else if bool_decide (status = "limited") then Some "active" else None.
(** [CLASSIFICATION_RANK.get(classification)] *)
Definition CLASSIFICATION_RANK (classification : string) : option Z :=
  if memb classification ["public"; "publicable"] then Some 0
  else if bool_decide (classification = "internal") then Some 1
  else if memb classification ["private"; "confidential"] then Some 2
  else if bool_decide (classification = "secret") then Some 3 else None.

Definition DEFAULT_MEMORY_TTL_SECONDS : Z := 30 * 24 * 60 * 60.
Definition SEEDING_VERDICTS : list EvaluatorVerdict := [V_NOT_REQUIRED; V_PASS; V_PASS_WITH_RISK].
Definition CANDIDATE_ROLES : list Role := [R_WORKER; R_EVALUATOR; R_SYSTEM].

Module Memory.
Section memory.
Context `{ENV : Env}.

Definition _text (v : string) : res string := required_text ContractError v.

(** The columns that no promotion changes. *)
Definition immutable_fields (m : MemoryItem) : dict :=
  [("memory_id", JStr (mi_id m)); ("project_id", JStr (mi_project_id m));
   ("source_evidence_id", JStr (mi_source_evidence_id m)); ("source_digest", JStr (mi_source_digest m));
   ("scope", JStr (mi_scope m)); ("classification", JStr (mi_classification m)); ("content", JStr (mi_content m));
   ("effective_at", JStr (iso (mi_effective_at m))); ("expires_at", jopt (iso <$> mi_expires_at m));
   ("supersedes", jopt (mi_supersedes m)); ("created_at", JStr (iso (mi_created_at m)))].
Definition _candidate_digest (m : MemoryItem) : string := content_hash (JObj (immutable_fields m)).

(** ** The provenance of a memory *)

(** The identifiers that the evidence refers to, not empty and not repeated. *)
Definition artifact_ids (refs : json) : res (list string) :=
  match refs with
  | JList l =>
    ids ← mapR (λ j, match j with
                     | JStr s => if bool_decide (s = "") then Raise EvidenceError else Ok s
                     | _ => Raise EvidenceError
                     end) l;
    _ ← require (negb (bool_decide (ids = [])) && no_dups ids) EvidenceError;
    Ok ids
  | _ => Raise EvidenceError
  end.
Definition artifact_provenance (a : Artifact) : json := JObj
  [("artifact_id", JStr (at_id a)); ("kind", JStr (at_kind a)); ("uri", JStr (at_uri a));
   ("content_digest", JStr (at_content_digest a)); ("confidentiality", JStr (at_confidentiality a));
   ("producer_principal_id", JStr (at_producer_principal_id a))].
Definition evidence_payload (e : EvidenceClaim) (rows : list Artifact) : dict :=
  [("evidence_id", JStr (ec_id e)); ("project_id", JStr (ec_project_id e)); ("run_id", JStr (ec_run_id e));
   ("task_id", JStr (ec_task_id e)); ("claim", JStr (ec_claim e));
   ("evidence_state", JStr (value (ec_evidence_state e)));
   ("artifact_refs_json", JStr (canonical_json (ec_artifact_refs e)));
   ("verifier_principal_id", JStr (ec_verifier_principal_id e));
   ("verifier_version", JStr (ec_verifier_version e)); ("environment", JStr (ec_environment e));
   ("evaluator_verdict", JStr (value (ec_evaluator_verdict e)));
   ("non_claims_json", JStr (canonical_json (ec_non_claims e))); ("created_at", JStr (iso (ec_created_at e)));
   ("artifacts", JList (artifact_provenance <$> rows))].
Definition _evidence_provenance (d : DB) (evidence : EvidenceClaim) : res (string * list Artifact) :=
  refs ← artifact_ids (ec_artifact_refs evidence);
  let rows := EvidenceOps.found_artifacts d refs in
  _ ← require (forallb (λ r, present (artifacts (effects (registry d))) r) refs) EvidenceError;
  let rows := order_by (λ a b, str_leb (at_id a) (at_id b)) rows in
  Ok (content_hash (JObj (evidence_payload evidence rows)), rows).

(** [max((CLASSIFICATION_RANK.get(c, 3) for …), default=0)] *)
Definition required_rank (rows : list Artifact) : Z :=
  match (λ a, default 3 (CLASSIFICATION_RANK (at_confidentiality a))) <$> rows with
  | [] => 0
  | r :: rs => foldl Z.max r rs
  end.

(** The evidence joined with its task. *)
Definition evidence_of (d : DB) (evidence_id : string) : option (EvidenceClaim * TaskRow) :=
  e ← evidence_claims (registry d) !! evidence_id;
  t ← tasks d !! ec_task_id e;
  Some (e, t).

(** ** The request of a promotion *)
Record PromotionRequest := {
  rq_memory_id : string; rq_candidate_digest : string; rq_from_status : string; rq_target_status : string }.
Definition memory_resource (memory_id : string) : string := "memory://" +:+ memory_id.
Definition request_fields (r : PromotionRequest) : dict :=
  [("memory_id", JStr (rq_memory_id r)); ("candidate_digest", JStr (rq_candidate_digest r));
   ("from_status", JStr (rq_from_status r)); ("target_status", JStr (rq_target_status r));
   ("capability", JStr MEMORY_PROMOTION_CAPABILITY); ("action", JStr MEMORY_PROMOTION_ACTION);
   ("resource", JStr (memory_resource (rq_memory_id r)))].
Definition request_digest (r : PromotionRequest) : string := content_hash (JObj (request_fields r)).

Definition _promotion_request (m : MemoryItem) (target_status : string) : res PromotionRequest :=
  target_status ← _text target_status;
  _ ← require (bool_decide (MEMORY_TRANSITIONS (mi_status m) = Some (lower target_status))) ContractError;
  Ok {| rq_memory_id := mi_id m; rq_candidate_digest := _candidate_digest m; rq_from_status := mi_status m;
        rq_target_status := lower target_status |}.

(** ** Creating a candidate *)
Record CandidateArgs := {
  ma_memory_id : string; ma_project_id : string; ma_source_evidence_id : string; ma_scope : string;
  ma_classification : string; ma_content : string; ma_ttl_seconds : Z; ma_effective_at : option Instant;
  ma_expires_at : option Instant; ma_supersedes : option string }.
Definition candidate_args (a : CandidateArgs) : res CandidateArgs :=
  memory_id ← _text (ma_memory_id a);
  project_id ← _text (ma_project_id a);
  source_evidence_id ← _text (ma_source_evidence_id a);
  scope ← _text (ma_scope a);
  scope ← normalize_scope scope;
  classification ← _text (ma_classification a);
  content ← _text (ma_content a);
  _ ← require (memb (lower classification) KNOWN_CLASSIFICATIONS) ContractError;
  supersedes ← Context.optional_text (ma_supersedes a);
  _ ← require (negb (bool_decide (supersedes = Some memory_id))) ContractError;
  _ ← require (1 <=? ma_ttl_seconds a) ContractError;
  _ ← require (match ma_expires_at a with
               | Some _ => ma_ttl_seconds a =? DEFAULT_MEMORY_TTL_SECONDS
               | None => true
               end) ContractError;
  Ok {| ma_memory_id := memory_id; ma_project_id := project_id; ma_source_evidence_id := source_evidence_id;
        ma_scope := scope; ma_classification := lower classification; ma_content := content;
        ma_ttl_seconds := ma_ttl_seconds a; ma_effective_at := ma_effective_at a;
        ma_expires_at := ma_expires_at a; ma_supersedes := supersedes |}.

Definition same_candidate (m : MemoryItem) (a : CandidateArgs) : bool :=
  bool_decide ((mi_project_id m, mi_source_evidence_id m, mi_scope m, mi_classification m, mi_content m, mi_supersedes m)
    = (ma_project_id a, ma_source_evidence_id a, ma_scope a, ma_classification a, ma_content a, ma_supersedes a)).

Definition candidate_row (a : CandidateArgs) (source_digest : string) (effective expiry created : Instant) : MemoryItem := {|
  mi_id := ma_memory_id a; mi_project_id := ma_project_id a; mi_source_evidence_id := ma_source_evidence_id a;
  mi_source_digest := source_digest; mi_scope := ma_scope a; mi_classification := ma_classification a;
  mi_content := ma_content a; mi_status := "candidate"; mi_effective_at := effective; mi_expires_at := Some expiry;
  mi_supersedes := ma_supersedes a; mi_promotion_approval_id := None; mi_heldout_eval_id := None;
  mi_created_at := created |}.
(** The record without its content. *)
Definition candidate_payload (m : MemoryItem) : dict :=
  [("memory_id", JStr (mi_id m)); ("project_id", JStr (mi_project_id m));
   ("source_evidence_id", JStr (mi_source_evidence_id m)); ("source_digest", JStr (mi_source_digest m));
   ("scope", JStr (mi_scope m)); ("classification", JStr (mi_classification m)); ("status", JStr (mi_status m));
   ("effective_at", JStr (iso (mi_effective_at m))); ("expires_at", jopt (iso <$> mi_expires_at m));
   ("supersedes", jopt (mi_supersedes m)); ("promotion_approval_id", jopt (mi_promotion_approval_id m));
   ("heldout_eval_id", jopt (mi_heldout_eval_id m)); ("created_at", JStr (iso (mi_created_at m)))].

Definition memory_event (memory_id : string) (expected_version : Z) (project_id run_id task_id event_type actor
    policy_version confidentiality : string) (payload : dict) (command_id : string) : EventArgs := {|
  ea_aggregate_type := "memory_item"; ea_aggregate_id := memory_id; ea_expected_version := expected_version;
  ea_project_id := project_id; ea_event_type := event_type; ea_actor := actor; ea_command_id := command_id;
  ea_correlation_id := run_id; ea_policy_version := policy_version; ea_payload := payload;
  ea_auth_context := []; ea_auth_session := None; ea_command_authority := None; ea_command_owner := None;
  ea_run_id := Some run_id; ea_task_id := Some task_id; ea_idempotency_key := None; ea_causation_id := None;
  ea_confidentiality := confidentiality; ea_occurred_at := None |}.

Definition insert_memory (m : MemoryItem) : P unit :=
  _ ← constraint (λ d, absent (memory_items (knowledge (effects (registry d)))) (mi_id m)
        && present (evidence_claims (registry d)) (mi_source_evidence_id m)
        && match mi_supersedes m with
           | Some i => present (memory_items (knowledge (effects (registry d)))) i
           | None => true
           end);
  write (set_memory_items <[mi_id m := m]>).

(** The superseded memory, of the same project and scope. *)
Definition memory_supersedes_ok (d : DB) (a : CandidateArgs) : res unit :=
  match ma_supersedes a with
  | None => Ok tt
  | Some i =>
    previous ← of_option (memory_items (knowledge (effects (registry d))) !! i) NotFoundError;
    require (bool_decide (mi_project_id previous = ma_project_id a)
             && bool_decide (mi_scope previous = ma_scope a)) ContractError
  end.

(** The evidence seeds the candidate: of the project, passing, of a task that may
    write the scope, with artifacts that are no more confidential; its digest. *)
Definition seeded (d : DB) (a : CandidateArgs) (evidence : EvidenceClaim) (task : TaskRow) : res string :=
  _ ← require (bool_decide (ec_project_id evidence = ma_project_id a)) ContractError;
  allowed ← scope_allowed (ts_write_scope (t_spec task)) (ma_scope a);
  _ ← require allowed AuthorizationError;
  _ ← require (memb (ec_evaluator_verdict evidence) SEEDING_VERDICTS) EvidenceError;
  provenance ← _evidence_provenance d evidence;
  _ ← require (required_rank provenance.2 <=? default 3 (CLASSIFICATION_RANK (ma_classification a))) ContractError;
  _ ← memory_supersedes_ok d a;
  Ok provenance.1.

(** The answer: the row, the digest of the candidate and, of a new one, its event. *)
Definition create_candidate (args : CandidateArgs) (actor : VerifiedPrincipal) (policy_version : string)
    : P (MemoryItem * string * option string) :=
  a ← lift_res (candidate_args args);
  created ← utc_now;
  let effective := default created (ma_effective_at a) in
  expiry ← match ma_expires_at a with
           | Some t => mret t
           | None => lift_res (Observe.later effective (ma_ttl_seconds a))
           end;
  _ ← ensure (effective <? expiry) ContractError;
  transaction (
    actor_record ← verify_in_transaction actor;
    _ ← ensure (existsb (λ r, memb r CANDIDATE_ROLES) (pr_roles actor_record)) AuthorizationError;
    existing ← read (λ d, memory_items (knowledge (effects (registry d))) !! ma_memory_id a);
    match existing with
    | Some current =>
      _ ← ensure (same_candidate current a) IntegrityError;
      mret (current, _candidate_digest current, None)
    | None =>
      d ← read id;
      found ← expect (evidence_of d (ma_source_evidence_id a)) NotFoundError;
      let '(evidence, task) := found in
      source_digest ← lift_res (seeded d a evidence task);
      let record := candidate_row a source_digest effective expiry created in
      command_id ← new_uuid;
      policy_version ← lift_res (_text policy_version);
      event ← append_event (memory_event (mi_id record) 0 (mi_project_id record) (ec_run_id evidence)
                (ec_task_id evidence) "memory_candidate_created" (pr_id actor_record) policy_version
                (mi_classification record) (candidate_payload record) command_id);
      _ ← insert_memory record;
      mret (record, _candidate_digest record, Some (ev_id event))
    end).

Definition get_row (memory_id : string) : P MemoryItem :=
  memory_id ← lift_res (_text memory_id);
  row ← read (λ d, memory_items (knowledge (effects (registry d))) !! memory_id);
  expect row NotFoundError.
Definition promotion_request (memory_id target_status : string) : P (PromotionRequest * string) :=
  row ← get_row memory_id;
  request ← lift_res (_promotion_request row target_status);
  mret (request, request_digest request).
Definition get (memory_id : string) : P (MemoryItem * string) :=
  row ← get_row memory_id;
  mret (row, _candidate_digest row).

(** ** Promotion *)

(** The approval is of this very promotion, by this owner, and decided. *)
Definition exact_approval (approval : Approval) (m : MemoryItem) (evidence : EvidenceClaim) (task : TaskRow)
    (request : PromotionRequest) (approver : string) : bool :=
  bool_decide (av_project_id approval = mi_project_id m)
  && bool_decide (av_goal_id approval = t_goal_id task)
  && bool_decide (av_run_id approval = ec_run_id evidence)
  && bool_decide (av_task_id approval = ec_task_id evidence)
  && bool_decide (av_capability approval = MEMORY_PROMOTION_CAPABILITY)
  && bool_decide (av_action approval = MEMORY_PROMOTION_ACTION)
  && bool_decide (av_resource approval = memory_resource (rq_memory_id request))
  && bool_decide (av_request_digest approval = request_digest request)
  && bool_decide (av_decision approval = "approved")
  && bool_decide (av_approver approval = Some approver).

(** A passing held-out evaluation of this candidate, without safety failures. *)
Definition heldout_pass (e : EvalRow) (m : MemoryItem) (request : PromotionRequest) : bool :=
  bool_decide (el_project_id e = mi_project_id m)
  && bool_decide (el_candidate_digest e = rq_candidate_digest request)
  && bool_decide (el_dataset_split e = "held_out") && bool_decide (el_status e = "pass")
  && match el_safety_failures e with JList [] => true | _ => false end.

(** When the memory was last promoted: [ORDER BY aggregate_version DESC LIMIT 1]. *)
Definition last_promoted (d : DB) (memory_id : string) : option Instant :=
  ev_occurred_at <$> head (order_by (λ e f, ev_aggregate_version f <=? ev_aggregate_version e)
    (List.filter (λ e, bool_decide ((ev_aggregate_type e, ev_aggregate_id e, ev_event_type e)
                                    = ("memory_item", memory_id, "memory_promoted"))) (events d))).

(** What the second promotion asks of its evaluation: another one, on another
    dataset, after the first promotion. *)
Definition fresh_evaluation (d : DB) (m : MemoryItem) (e : EvalRow) : bool :=
  negb (bool_decide (mi_heldout_eval_id m = Some (el_id e)))
  && match (i ← mi_heldout_eval_id m; eval_runs (knowledge (effects (registry d))) !! i) with
     | Some prior => negb (bool_decide (el_dataset_digest prior = el_dataset_digest e))
     | None => true
     end
  && match last_promoted d (mi_id m) with Some t => t <? el_created_at e | None => false end.

Definition promoted (m : MemoryItem) (target_status approval_id heldout_eval_id : string) : MemoryItem := {|
  mi_id := mi_id m; mi_project_id := mi_project_id m; mi_source_evidence_id := mi_source_evidence_id m;
  mi_source_digest := mi_source_digest m; mi_scope := mi_scope m; mi_classification := mi_classification m;
  mi_content := mi_content m; mi_status := target_status; mi_effective_at := mi_effective_at m;
  mi_expires_at := mi_expires_at m; mi_supersedes := mi_supersedes m;
  mi_promotion_approval_id := Some approval_id; mi_heldout_eval_id := Some heldout_eval_id;
  mi_created_at := mi_created_at m |}.
Definition promoted_payload (r : PromotionRequest) (approval_id heldout_eval_id : string) : dict :=
  [("memory_id", JStr (rq_memory_id r)); ("from_status", JStr (rq_from_status r));
   ("target_status", JStr (rq_target_status r)); ("candidate_digest", JStr (rq_candidate_digest r));
   ("approval_id", JStr approval_id); ("heldout_eval_id", JStr heldout_eval_id)].

(** The guards of a promotion, in their order; the request and the evidence. *)
Definition promotable (d : DB) (now : Instant) (m : MemoryItem) (target_status approval_id heldout_eval_id approver : string)
    : res (PromotionRequest * EvidenceClaim) :=
  expires ← of_option (mi_expires_at m) ContractError;
  _ ← require (now <? expires) EvidenceError;
  request ← _promotion_request m target_status;
  found ← of_option (evidence_of d (mi_source_evidence_id m)) EvidenceError;
  let '(evidence, task) := found in
  _ ← require (memb (ec_evaluator_verdict evidence) SEEDING_VERDICTS) EvidenceError;
  provenance ← _evidence_provenance d evidence;
  _ ← require (bool_decide (provenance.1 = mi_source_digest m)) EvidenceError;
  approval ← of_option (approvals (registry d) !! approval_id) AuthorizationError;
  _ ← require (exact_approval approval m evidence task request approver) AuthorizationError;
  decided_at ← of_option (av_decided_at approval) AuthorizationError;
  approval_expiry ← of_option (av_expires_at approval) AuthorizationError;
  _ ← require (now <? approval_expiry) AuthorizationError;
  evaluation ← of_option (eval_runs (knowledge (effects (registry d))) !! heldout_eval_id) EvidenceError;
  _ ← require (heldout_pass evaluation m request) EvidenceError;
  _ ← require (if bool_decide (mi_status m = "limited") then fresh_evaluation d m evaluation else true) EvidenceError;
  _ ← require (el_created_at evaluation <=? decided_at) AuthorizationError;
  Ok (request, evidence).

Definition update_memory (memory_id target_status approval_id heldout_eval_id : string) : P unit :=
  _ ← constraint (λ d, present (approvals (registry d)) approval_id);
  write (set_memory_items (alter (λ m, promoted m target_status approval_id heldout_eval_id) memory_id)).

Definition promote (memory_id target_status approval_id heldout_eval_id : string) (human_approver : VerifiedPrincipal)
    (policy_version : string) : P (MemoryItem * string * string) :=
  memory_id ← lift_res (_text memory_id);
  approval_id ← lift_res (_text approval_id);
  heldout_eval_id ← lift_res (_text heldout_eval_id);
  now ← utc_now;
  transaction (
    approver ← require_role_in_transaction human_approver R_OWNER;
    row ← read (λ d, memory_items (knowledge (effects (registry d))) !! memory_id);
    m ← expect row NotFoundError;
    d ← read id;
    checked ← lift_res (promotable d now m target_status approval_id heldout_eval_id (pr_id approver));
    let '(request, evidence) := checked in
    _ ← update_memory memory_id (rq_target_status request) approval_id heldout_eval_id;
    version ← read (λ d, head_version d "memory_item" memory_id);
    command_id ← new_uuid;
    policy_version ← lift_res (_text policy_version);
    event ← append_event (memory_event memory_id version (mi_project_id m) (ec_run_id evidence)
              (ec_task_id evidence) "memory_promoted" (pr_id approver) policy_version (mi_classification m)
              (promoted_payload request approval_id heldout_eval_id) command_id);
    mret (promoted m (rq_target_status request) approval_id heldout_eval_id, rq_candidate_digest request, ev_id event)).

(** ** Calls of a registry as data *)
Inductive MemoryOp :=
  | MoCreate (args : CandidateArgs) (actor : VerifiedPrincipal) (policy_version : string)
  | MoPromote (memory_id target_status approval_id heldout_eval_id : string) (human_approver : VerifiedPrincipal)
      (policy_version : string).
Definition run_memory_op (op : MemoryOp) : P unit :=
  match op with
  | MoCreate a v p => ignore (create_candidate a v p)
  | MoPromote m t a e v p => ignore (promote m t a e v p)
  end.

Lemma memory_op_footprint I op :
  footprint ["memory_item"] (only set_memory_items) I → keeps I (run_memory_op op).
Proof.
  intros HI. destruct op; unfold run_memory_op, ignore, create_candidate, promote, require_role_in_transaction,
    verify_in_transaction, insert_memory, update_memory; registry_walk HI.
Qed.
Lemma memory_op_keeps I op : kept_beside I → keeps I (run_memory_op op).
Proof. intros HI. apply memory_op_footprint. by apply footprint_beside; [|beside_writes|]. Qed.
Lemma memory_op_atomic op : atomic (run_memory_op op).
Proof.
  destruct op; unfold run_memory_op, ignore; apply (atomic_then _ (λ _, tt)); unfold create_candidate, promote;
    atomic_walk.
  apply atomic_bind; [pure_walk|atomic_walk].
Qed.
End memory.
End Memory.
