(* ===== verification/Promotions.v ===== *)
(** * The records of rule promotions ([evaluation.py])

    What an owner approves and what a promotion leaves in the event log: the request
    of a limited promotion, its record, and the record of an active one.  Each is
    validated when it is made, written with [to_dict] and read with [from_dict]. *)

From Stdlib Require Import Ascii.
From S2P Require Import Prelude PyStr Json Enums Contracts Scope Db Store Identity.
From S2P Require Import Leases Authority Gates Registries Policy Evidence Observations Context.

Local Open Scope string_scope.
Local Open Scope list_scope.
Local Open Scope Z_scope.

Definition _ACTUAL_OUTCOME_KINDS : list string := ["benefit"; "friction_reduction"; "failure_found"; "failure_prevented"].
Definition _VERIFICATION_STATES : list EvidenceState := [ES_STRUCTURE; ES_RUNTIME].
Definition _ACTIVE_RULE_NON_CLAIM : string :=
  "structure-verified single-host promotion record with a verifier-accepted external-custody envelope only; no human acceptance, business validation, legal conclusion, public release, production autonomy, or real external custody service claim".

(** ** Times read from text

    [datetime.fromisoformat] of an aware time in the extended form, with seconds and
    a fraction of three or six digits or none; the other forms that it reads are
    those that nothing here writes, and are refused. *)
Fixpoint digits (n : nat) (acc : Z) (l : list ascii) : option (Z * list ascii) :=
  match n, l with
  | O, _ => Some (acc, l)
  | S n, c :: l => if is_digit c then digits n (10 * acc + (code c - 48)) l else None
  | S _, [] => None
  end.
Definition skip (c : ascii) (l : list ascii) : option (list ascii) :=
  match l with a :: l => if bool_decide (a = c) then Some l else None | [] => None end.
(** [.ffffff] or [.fff], or nothing. *)
Definition fraction (l : list ascii) : option (Z * list ascii) :=
  match skip "." l with
  | None => Some (0, l)
  | Some l =>
    match digits 6 0 l with
    | Some r => Some r
    | None => '(x, l) ← digits 3 0 l; Some (x * 1000, l)
    end
  end.
(** [+HH:MM] or [-HH:MM], in seconds. *)
Definition offset (l : list ascii) : option Z :=
  let signed (sign : Z) (l : list ascii) :=
    '(h, l) ← digits 2 0 l; l ← skip ":" l; '(m, l) ← digits 2 0 l;
    if bool_decide (l = []) && (h <? 24) && (m <? 60) then Some (sign * (h * 3600 + m * 60)) else None in
  match skip "+" l with
  | Some l => signed 1 l
  | None => l ← skip "-" l; signed (-1) l
  end.
Definition days_of_civil (y m d : Z) : Z :=
  let y' := if m <=? 2 then y - 1 else y in
  let era := y' / 400 in
  let yoe := y' - era * 400 in
  let doy := (153 * ((m + 9) mod 12) + 2) / 5 + d - 1 in
  era * 146097 + (yoe * 365 + yoe / 4 - yoe / 100 + doy) - 719468.
Definition fromisoformat (s : string) : option Instant :=
  '(y, l) ← digits 4 0 (chars s); l ← skip "-" l;
  '(mo, l) ← digits 2 0 l; l ← skip "-" l;
  '(d, l) ← digits 2 0 l; l ← skip "T" l;
  '(h, l) ← digits 2 0 l; l ← skip ":" l;
  '(mi, l) ← digits 2 0 l; l ← skip ":" l;
  '(sec, l) ← digits 2 0 l;
  '(us, l) ← fraction l;
  off ← offset l;
  let days := days_of_civil y mo d in
  if (1 <=? y) && bool_decide (civil days = (y, mo, d)) && (h <? 24) && (mi <? 60) && (sec <? 60)
  then Some ((days * 86400 + h * 3600 + mi * 60 + sec - off) * 1000000 + us) else None.

(** [text.replace("Z", "+00:00")] *)
Definition zulu (s : string) : string :=
  of_chars (chars s ≫= λ c, if bool_decide (c = "Z"%char) then chars "+00:00" else [c]).

Module Promotions.
Section records.
Context `{ENV : Env}.

Definition _text (v : string) : res string := required_text ContractError v.
Definition _digest (v : string) : res string :=
  v ← _text v; _ ← require (sha256_hex (lower v)) ContractError; Ok (lower v).
Definition canonical_digest (v : string) : res unit := d ← _digest v; require (bool_decide (d = v)) ContractError.
Definition _instant (v : string) : res Instant :=
  v ← _text v; of_option (fromisoformat (zulu v)) ContractError.
Definition _strings (v : list string) : res (list string) :=
  result ← mapR _text v;
  _ ← require (negb (bool_decide (result = [])) && no_dups result) ContractError;
  Ok result.

Definition project_prefix : string := "project://".
Definition _bounded_scope (v project_id : string) : res string :=
  scope ← _text v;
  normalized ← normalize_scope scope;
  project_id ← _text project_id;
  let expected_prefix := project_prefix +:+ project_id +:+ "/" in
  _ ← require (bool_decide (normalized = scope) && startswith scope expected_prefix
               && negb (bool_decide (scope = expected_prefix)) && negb (contains_char "*" scope)
               && negb (memb ".." (split "/" scope))) ContractError;
  Ok scope.

(** [d[k]] of a JSON object, which must be a text, a number, a truth value or an array of texts. *)
Definition text_at (d : dict) (k : string) : res string :=
  match dget d k with Some (JStr s) => Ok s | _ => Raise ContractError end.
Definition int_at (d : dict) (k : string) : res Z :=
  match dget d k with Some (JInt z) => Ok z | _ => Raise ContractError end.
Definition bool_at (d : dict) (k : string) : res bool :=
  match dget d k with Some (JBool b) => Ok b | _ => Raise ContractError end.
Definition texts_at (d : dict) (k : string) : res (list string) :=
  match dget d k with
  | Some (JList l) => mapR (λ j, match j with JStr s => Ok s | _ => Raise ContractError end) l
  | _ => Raise ContractError
  end.

(** ** The request of a limited promotion *)
Record LimitedRulePromotionRequest := {
  lr_candidate_id : string; lr_candidate_digest : string; lr_policy_version : string; lr_target_state : string;
  lr_source_run_id : string; lr_source_task_id : string; lr_verification_evidence_id : string;
  lr_verification_evidence_digest : string; lr_verification_evidence_state : string;
  lr_verification_evaluator_verdict : string; lr_promotion_validation_eval_id : string;
  lr_promotion_validation_dataset_digest : string; lr_promotion_validation_attestation_digest : string;
  lr_promotion_validation_query_count : Z; lr_promotion_validation_status : string; lr_scope : string;
  lr_actual_outcome_kind : string; lr_actual_outcome : string; lr_risk : string; lr_non_goals : list string;
  lr_review_condition : string; lr_rollback_or_retirement_path : string; lr_non_claim_boundary : string }.
#[export] Instance LimitedRulePromotionRequest_eq_dec : EqDecision LimitedRulePromotionRequest.
Proof. solve_decision. Defined.

Definition scope_project_id (r : LimitedRulePromotionRequest) : string :=
  before_char "/" (of_chars (drop 10 (chars (lr_scope r)))).

(** [LimitedRulePromotionRequest.__post_init__] *)
Definition limited_request_ok (r : LimitedRulePromotionRequest) : res unit :=
  _ ← mapR Context.canonical_text
        [lr_candidate_id r; lr_policy_version r; lr_target_state r; lr_source_run_id r; lr_source_task_id r;
         lr_verification_evidence_id r; lr_verification_evidence_state r; lr_verification_evaluator_verdict r;
         lr_promotion_validation_eval_id r; lr_promotion_validation_status r; lr_scope r; lr_actual_outcome_kind r;
         lr_actual_outcome r; lr_risk r; lr_review_condition r; lr_rollback_or_retirement_path r;
         lr_non_claim_boundary r];
  _ ← mapR canonical_digest
        [lr_candidate_digest r; lr_verification_evidence_digest r; lr_promotion_validation_dataset_digest r;
         lr_promotion_validation_attestation_digest r];
  _ ← require (bool_decide (lr_target_state r = value P_LIMITED)) ContractError;
  _ ← require (memb (lr_verification_evidence_state r) (value <$> _VERIFICATION_STATES)) ContractError;
  _ ← require (memb (lr_verification_evaluator_verdict r) (value <$> _PASSING_EVALUATOR)) ContractError;
  _ ← require (bool_decide (lr_promotion_validation_status r = "pass")) ContractError;
  _ ← require (1 <=? lr_promotion_validation_query_count r) ContractError;
  _ ← _bounded_scope (lr_scope r) (scope_project_id r);
  _ ← require (memb (lr_actual_outcome_kind r) _ACTUAL_OUTCOME_KINDS) ContractError;
  normalized_non_goals ← _strings (lr_non_goals r);
  require (bool_decide (normalized_non_goals = lr_non_goals r)) ContractError.

Definition LimitedRulePromotionRequest_to_dict (r : LimitedRulePromotionRequest) : dict :=
  [("candidate_id", JStr (lr_candidate_id r)); ("candidate_digest", JStr (lr_candidate_digest r));
   ("policy_version", JStr (lr_policy_version r)); ("target_state", JStr (lr_target_state r));
   ("source_run_id", JStr (lr_source_run_id r)); ("source_task_id", JStr (lr_source_task_id r));
   ("verification_evidence_id", JStr (lr_verification_evidence_id r));
   ("verification_evidence_digest", JStr (lr_verification_evidence_digest r));
   ("verification_evidence_state", JStr (lr_verification_evidence_state r));
   ("verification_evaluator_verdict", JStr (lr_verification_evaluator_verdict r));
   ("promotion_validation_eval_id", JStr (lr_promotion_validation_eval_id r));
   ("promotion_validation_dataset_digest", JStr (lr_promotion_validation_dataset_digest r));
   ("promotion_validation_attestation_digest", JStr (lr_promotion_validation_attestation_digest r));
   ("promotion_validation_query_count", JInt (lr_promotion_validation_query_count r));
   ("promotion_validation_status", JStr (lr_promotion_validation_status r)); ("scope", JStr (lr_scope r));
   ("actual_outcome_kind", JStr (lr_actual_outcome_kind r)); ("actual_outcome", JStr (lr_actual_outcome r));
   ("risk", JStr (lr_risk r)); ("non_goals", jstrs (lr_non_goals r));
   ("review_condition", JStr (lr_review_condition r));
   ("rollback_or_retirement_path", JStr (lr_rollback_or_retirement_path r));
   ("non_claim_boundary", JStr (lr_non_claim_boundary r))].
Definition limited_request_digest (r : LimitedRulePromotionRequest) : string :=
  content_hash (JObj (LimitedRulePromotionRequest_to_dict r)).

Definition limited_request_fields : list string :=
  ["candidate_id"; "candidate_digest"; "policy_version"; "target_state"; "source_run_id"; "source_task_id";
   "verification_evidence_id"; "verification_evidence_digest"; "verification_evidence_state";
   "verification_evaluator_verdict"; "promotion_validation_eval_id"; "promotion_validation_dataset_digest";
   "promotion_validation_attestation_digest"; "promotion_validation_query_count"; "promotion_validation_status";
   "scope"; "actual_outcome_kind"; "actual_outcome"; "risk"; "non_goals"; "review_condition";
   "rollback_or_retirement_path"; "non_claim_boundary"].
Definition LimitedRulePromotionRequest_from_dict (d : dict) : res LimitedRulePromotionRequest :=
  _ ← require (same_keys limited_request_fields d) ContractError;
  candidate_id ← text_at d "candidate_id";
  candidate_digest ← text_at d "candidate_digest";
  policy_version ← text_at d "policy_version";
  target_state ← text_at d "target_state";
  source_run_id ← text_at d "source_run_id";
  source_task_id ← text_at d "source_task_id";
  verification_evidence_id ← text_at d "verification_evidence_id";
  verification_evidence_digest ← text_at d "verification_evidence_digest";
  verification_evidence_state ← text_at d "verification_evidence_state";
  verification_evaluator_verdict ← text_at d "verification_evaluator_verdict";
  promotion_validation_eval_id ← text_at d "promotion_validation_eval_id";
  promotion_validation_dataset_digest ← text_at d "promotion_validation_dataset_digest";
  promotion_validation_attestation_digest ← text_at d "promotion_validation_attestation_digest";
  promotion_validation_query_count ← int_at d "promotion_validation_query_count";
  promotion_validation_status ← text_at d "promotion_validation_status";
  scope ← text_at d "scope";
  actual_outcome_kind ← text_at d "actual_outcome_kind";
  actual_outcome ← text_at d "actual_outcome";
  risk ← text_at d "risk";
  non_goals ← texts_at d "non_goals";
  review_condition ← text_at d "review_condition";
  rollback_or_retirement_path ← text_at d "rollback_or_retirement_path";
  non_claim_boundary ← text_at d "non_claim_boundary";
  let r := {|
    lr_candidate_id := candidate_id; lr_candidate_digest := candidate_digest; lr_policy_version := policy_version;
    lr_target_state := target_state; lr_source_run_id := source_run_id; lr_source_task_id := source_task_id;
    lr_verification_evidence_id := verification_evidence_id;
    lr_verification_evidence_digest := verification_evidence_digest;
    lr_verification_evidence_state := verification_evidence_state;
    lr_verification_evaluator_verdict := verification_evaluator_verdict;
    lr_promotion_validation_eval_id := promotion_validation_eval_id;
    lr_promotion_validation_dataset_digest := promotion_validation_dataset_digest;
    lr_promotion_validation_attestation_digest := promotion_validation_attestation_digest;
    lr_promotion_validation_query_count := promotion_validation_query_count;
    lr_promotion_validation_status := promotion_validation_status; lr_scope := scope;
    lr_actual_outcome_kind := actual_outcome_kind; lr_actual_outcome := actual_outcome; lr_risk := risk;
    lr_non_goals := non_goals; lr_review_condition := review_condition;
    lr_rollback_or_retirement_path := rollback_or_retirement_path; lr_non_claim_boundary := non_claim_boundary |} in
  _ ← limited_request_ok r;
  Ok r.

(** ** The record of a limited promotion *)
Record LimitedRulePromotionRecord := {
  lm_promotion_record_id : string; lm_request : LimitedRulePromotionRequest; lm_from_state : string;
  lm_owner_approval_id : string; lm_owner_principal_id : string; lm_approved_at : string }.
#[export] Instance LimitedRulePromotionRecord_eq_dec : EqDecision LimitedRulePromotionRecord.
Proof. solve_decision. Defined.

(** [LimitedRulePromotionRecord.__post_init__] *)
Definition limited_record_ok (r : LimitedRulePromotionRecord) : res unit :=
  _ ← mapR Context.canonical_text [lm_promotion_record_id r; lm_from_state r; lm_owner_approval_id r;
                                   lm_owner_principal_id r; lm_approved_at r];
  _ ← require (bool_decide (lm_from_state r = value P_OWNER_REVIEW)) ContractError;
  _ ← _instant (lm_approved_at r);
  Ok tt.
Definition LimitedRulePromotionRecord_to_dict (r : LimitedRulePromotionRecord) : dict :=
  [("promotion_record_id", JStr (lm_promotion_record_id r));
   ("request", JObj (LimitedRulePromotionRequest_to_dict (lm_request r)));
   ("from_state", JStr (lm_from_state r)); ("owner_approval_id", JStr (lm_owner_approval_id r));
   ("owner_principal_id", JStr (lm_owner_principal_id r)); ("approved_at", JStr (lm_approved_at r))].
Definition limited_record_digest (r : LimitedRulePromotionRecord) : string :=
  content_hash (JObj (LimitedRulePromotionRecord_to_dict r)).
Definition limited_record_fields : list string :=
  ["promotion_record_id"; "request"; "from_state"; "owner_approval_id"; "owner_principal_id"; "approved_at"].
Definition LimitedRulePromotionRecord_from_dict (d : dict) : res LimitedRulePromotionRecord :=
  _ ← require (same_keys limited_record_fields d) ContractError;
  request ← match dget d "request" with
            | Some (JObj r) => LimitedRulePromotionRequest_from_dict r
            | _ => Raise ContractError
            end;
  promotion_record_id ← text_at d "promotion_record_id";
  from_state ← text_at d "from_state";
  owner_approval_id ← text_at d "owner_approval_id";
  owner_principal_id ← text_at d "owner_principal_id";
  approved_at ← text_at d "approved_at";
  let r := {| lm_promotion_record_id := promotion_record_id; lm_request := request; lm_from_state := from_state;
              lm_owner_approval_id := owner_approval_id; lm_owner_principal_id := owner_principal_id;
              lm_approved_at := approved_at |} in
  _ ← limited_record_ok r;
  Ok r.
(** ** The record of an active promotion *)
Record ActiveRulePromotionRecord := {
  ar_promotion_record_id : string; ar_candidate_id : string; ar_candidate_digest : string;
  ar_policy_version : string; ar_promotion_validation_eval_id : string;
  ar_promotion_validation_dataset_digest : string; ar_promotion_validation_attestation_digest : string;
  ar_promotion_validation_query_count : Z; ar_promotion_validation_status : string;
  ar_limited_promotion_record_id : string; ar_limited_promotion_record_digest : string; ar_source_task_id : string;
  ar_verification_evidence_id : string; ar_verification_evidence_digest : string; ar_actual_outcome_kind : string;
  ar_actual_outcome : string; ar_from_state : string; ar_target_state : string;
  ar_proposal_maker_principal_id : string; ar_evaluator_principal_id : string; ar_evaluator_digest : string;
  ar_sealed_eval_id : string; ar_sealed_dataset_digest : string; ar_sealed_dataset_use_count : Z;
  ar_sealed_result_influenced_edits : bool; ar_sealed_attestation_digest : string;
  ar_sealed_custody_attestation_id : string; ar_sealed_custody_provider : string; ar_sealed_custodian_id : string;
  ar_sealed_custody_attestation_digest : string; ar_sealed_custody_verified_at : string;
  ar_safety_hard_failures : Z; ar_eval_status : string; ar_evaluated_at : string; ar_owner_approval_id : string;
  ar_owner_principal_id : string; ar_approved_at : string; ar_scope : string; ar_review_condition : string;
  ar_non_goals : list string; ar_rollback_or_retirement_path : string; ar_non_claim_boundary : string }.
#[export] Instance ActiveRulePromotionRecord_eq_dec : EqDecision ActiveRulePromotionRecord.
Proof. solve_decision. Defined.

(** [ActiveRulePromotionRecord.__post_init__] *)
Definition active_record_ok (r : ActiveRulePromotionRecord) : res unit :=
  _ ← mapR Context.canonical_text
        [ar_promotion_record_id r; ar_candidate_id r; ar_policy_version r; ar_promotion_validation_eval_id r;
        ar_promotion_validation_status r; ar_limited_promotion_record_id r; ar_source_task_id r;
        ar_verification_evidence_id r; ar_actual_outcome_kind r; ar_actual_outcome r; ar_from_state r;
        ar_target_state r; ar_proposal_maker_principal_id r; ar_evaluator_principal_id r; ar_sealed_eval_id r;
        ar_sealed_custody_attestation_id r; ar_sealed_custody_provider r; ar_sealed_custodian_id r;
        ar_sealed_custody_verified_at r; ar_eval_status r; ar_owner_approval_id r; ar_owner_principal_id r;
        ar_scope r; ar_review_condition r; ar_rollback_or_retirement_path r; ar_non_claim_boundary r];
  _ ← mapR canonical_digest
        [ar_candidate_digest r; ar_promotion_validation_dataset_digest r;
        ar_promotion_validation_attestation_digest r; ar_limited_promotion_record_digest r;
        ar_verification_evidence_digest r; ar_evaluator_digest r; ar_sealed_dataset_digest r;
        ar_sealed_attestation_digest r; ar_sealed_custody_attestation_digest r];
  _ ← require (1 <=? ar_promotion_validation_query_count r) ContractError;
  _ ← require (bool_decide (ar_promotion_validation_status r = "pass")) ContractError;
  _ ← require (bool_decide (ar_from_state r = value P_LIMITED)) ContractError;
  _ ← require (bool_decide (ar_target_state r = value P_ACTIVE)) ContractError;
  _ ← require (ar_sealed_dataset_use_count r =? 1) ContractError;
  _ ← require (negb (ar_sealed_result_influenced_edits r)) ContractError;
  _ ← require (ar_safety_hard_failures r =? 0) ContractError;
  _ ← require (bool_decide (ar_eval_status r = "pass")) ContractError;
  _ ← require (memb (ar_actual_outcome_kind r) _ACTUAL_OUTCOME_KINDS) ContractError;
  _ ← require (negb (bool_decide (ar_promotion_validation_dataset_digest r = ar_sealed_dataset_digest r))) ContractError;
  _ ← require (no_dups [ar_proposal_maker_principal_id r; ar_evaluator_principal_id r; ar_owner_principal_id r;
                        ar_sealed_custodian_id r]) ContractError;
  evaluated ← _instant (ar_evaluated_at r);
  custody_verified ← _instant (ar_sealed_custody_verified_at r);
  approved ← _instant (ar_approved_at r);
  _ ← require (evaluated <=? custody_verified) ContractError;
  _ ← require (evaluated <? approved) ContractError;
  _ ← require (custody_verified <? approved) ContractError;
  _ ← require (negb (bool_decide (ar_non_goals r = []))) ContractError;
  normalized_non_goals ← mapR _text (ar_non_goals r);
  require (bool_decide (normalized_non_goals = ar_non_goals r) && no_dups (ar_non_goals r)) ContractError.

Definition ActiveRulePromotionRecord_to_dict (r : ActiveRulePromotionRecord) : dict :=
   [("promotion_record_id", JStr (ar_promotion_record_id r)); ("candidate_id", JStr (ar_candidate_id r));
   ("candidate_digest", JStr (ar_candidate_digest r)); ("policy_version", JStr (ar_policy_version r));
   ("promotion_validation_eval_id", JStr (ar_promotion_validation_eval_id r));
   ("promotion_validation_dataset_digest", JStr (ar_promotion_validation_dataset_digest r));
   ("promotion_validation_attestation_digest", JStr (ar_promotion_validation_attestation_digest r));
   ("promotion_validation_query_count", JInt (ar_promotion_validation_query_count r));
   ("promotion_validation_status", JStr (ar_promotion_validation_status r));
   ("limited_promotion_record_id", JStr (ar_limited_promotion_record_id r));
   ("limited_promotion_record_digest", JStr (ar_limited_promotion_record_digest r));
   ("source_task_id", JStr (ar_source_task_id r));
   ("verification_evidence_id", JStr (ar_verification_evidence_id r));
   ("verification_evidence_digest", JStr (ar_verification_evidence_digest r));
   ("actual_outcome_kind", JStr (ar_actual_outcome_kind r)); ("actual_outcome", JStr (ar_actual_outcome r));
   ("from_state", JStr (ar_from_state r)); ("target_state", JStr (ar_target_state r));
   ("proposal_maker_principal_id", JStr (ar_proposal_maker_principal_id r));
   ("evaluator_principal_id", JStr (ar_evaluator_principal_id r));
   ("evaluator_digest", JStr (ar_evaluator_digest r)); ("sealed_eval_id", JStr (ar_sealed_eval_id r));
   ("sealed_dataset_digest", JStr (ar_sealed_dataset_digest r));
   ("sealed_dataset_use_count", JInt (ar_sealed_dataset_use_count r));
   ("sealed_result_influenced_edits", JBool (ar_sealed_result_influenced_edits r));
   ("sealed_attestation_digest", JStr (ar_sealed_attestation_digest r));
   ("sealed_custody_attestation_id", JStr (ar_sealed_custody_attestation_id r));
   ("sealed_custody_provider", JStr (ar_sealed_custody_provider r));
   ("sealed_custodian_id", JStr (ar_sealed_custodian_id r));
   ("sealed_custody_attestation_digest", JStr (ar_sealed_custody_attestation_digest r));
   ("sealed_custody_verified_at", JStr (ar_sealed_custody_verified_at r));
   ("safety_hard_failures", JInt (ar_safety_hard_failures r)); ("eval_status", JStr (ar_eval_status r));
   ("evaluated_at", JStr (ar_evaluated_at r)); ("owner_approval_id", JStr (ar_owner_approval_id r));
   ("owner_principal_id", JStr (ar_owner_principal_id r)); ("approved_at", JStr (ar_approved_at r));
   ("scope", JStr (ar_scope r)); ("review_condition", JStr (ar_review_condition r));
   ("non_goals", jstrs (ar_non_goals r)); ("rollback_or_retirement_path", JStr (ar_rollback_or_retirement_path r));
   ("non_claim_boundary", JStr (ar_non_claim_boundary r))].

Definition active_record_fields : list string :=
   ["promotion_record_id"; "candidate_id"; "candidate_digest"; "policy_version"; "promotion_validation_eval_id";
   "promotion_validation_dataset_digest"; "promotion_validation_attestation_digest";
   "promotion_validation_query_count"; "promotion_validation_status"; "limited_promotion_record_id";
   "limited_promotion_record_digest"; "source_task_id"; "verification_evidence_id"; "verification_evidence_digest";
   "actual_outcome_kind"; "actual_outcome"; "from_state"; "target_state"; "proposal_maker_principal_id";
   "evaluator_principal_id"; "evaluator_digest"; "sealed_eval_id"; "sealed_dataset_digest";
   "sealed_dataset_use_count"; "sealed_result_influenced_edits"; "sealed_attestation_digest";
   "sealed_custody_attestation_id"; "sealed_custody_provider"; "sealed_custodian_id";
   "sealed_custody_attestation_digest"; "sealed_custody_verified_at"; "safety_hard_failures"; "eval_status";
   "evaluated_at"; "owner_approval_id"; "owner_principal_id"; "approved_at"; "scope"; "review_condition";
   "non_goals"; "rollback_or_retirement_path"; "non_claim_boundary"].
Definition ActiveRulePromotionRecord_from_dict (d : dict) : res ActiveRulePromotionRecord :=
  _ ← require (same_keys active_record_fields d) ContractError;
  promotion_record_id ← text_at d "promotion_record_id";
  candidate_id ← text_at d "candidate_id";
  candidate_digest ← text_at d "candidate_digest";
  policy_version ← text_at d "policy_version";
  promotion_validation_eval_id ← text_at d "promotion_validation_eval_id";
  promotion_validation_dataset_digest ← text_at d "promotion_validation_dataset_digest";
  promotion_validation_attestation_digest ← text_at d "promotion_validation_attestation_digest";
  promotion_validation_query_count ← int_at d "promotion_validation_query_count";
  promotion_validation_status ← text_at d "promotion_validation_status";
  limited_promotion_record_id ← text_at d "limited_promotion_record_id";
  limited_promotion_record_digest ← text_at d "limited_promotion_record_digest";
  source_task_id ← text_at d "source_task_id";
  verification_evidence_id ← text_at d "verification_evidence_id";
  verification_evidence_digest ← text_at d "verification_evidence_digest";
  actual_outcome_kind ← text_at d "actual_outcome_kind";
  actual_outcome ← text_at d "actual_outcome";
  from_state ← text_at d "from_state";
  target_state ← text_at d "target_state";
  proposal_maker_principal_id ← text_at d "proposal_maker_principal_id";
  evaluator_principal_id ← text_at d "evaluator_principal_id";
  evaluator_digest ← text_at d "evaluator_digest";
  sealed_eval_id ← text_at d "sealed_eval_id";
  sealed_dataset_digest ← text_at d "sealed_dataset_digest";
  sealed_dataset_use_count ← int_at d "sealed_dataset_use_count";
  sealed_result_influenced_edits ← bool_at d "sealed_result_influenced_edits";
  sealed_attestation_digest ← text_at d "sealed_attestation_digest";
  sealed_custody_attestation_id ← text_at d "sealed_custody_attestation_id";
  sealed_custody_provider ← text_at d "sealed_custody_provider";
  sealed_custodian_id ← text_at d "sealed_custodian_id";
  sealed_custody_attestation_digest ← text_at d "sealed_custody_attestation_digest";
  sealed_custody_verified_at ← text_at d "sealed_custody_verified_at";
  safety_hard_failures ← int_at d "safety_hard_failures";
  eval_status ← text_at d "eval_status";
  evaluated_at ← text_at d "evaluated_at";
  owner_approval_id ← text_at d "owner_approval_id";
  owner_principal_id ← text_at d "owner_principal_id";
  approved_at ← text_at d "approved_at";
  scope ← text_at d "scope";
  review_condition ← text_at d "review_condition";
  non_goals ← texts_at d "non_goals";
  rollback_or_retirement_path ← text_at d "rollback_or_retirement_path";
  non_claim_boundary ← text_at d "non_claim_boundary";
  let r := {|
    ar_promotion_record_id := promotion_record_id; ar_candidate_id := candidate_id;
    ar_candidate_digest := candidate_digest; ar_policy_version := policy_version;
    ar_promotion_validation_eval_id := promotion_validation_eval_id;
    ar_promotion_validation_dataset_digest := promotion_validation_dataset_digest;
    ar_promotion_validation_attestation_digest := promotion_validation_attestation_digest;
    ar_promotion_validation_query_count := promotion_validation_query_count;
    ar_promotion_validation_status := promotion_validation_status;
    ar_limited_promotion_record_id := limited_promotion_record_id;
    ar_limited_promotion_record_digest := limited_promotion_record_digest; ar_source_task_id := source_task_id;
    ar_verification_evidence_id := verification_evidence_id;
    ar_verification_evidence_digest := verification_evidence_digest; ar_actual_outcome_kind := actual_outcome_kind;
    ar_actual_outcome := actual_outcome; ar_from_state := from_state; ar_target_state := target_state;
    ar_proposal_maker_principal_id := proposal_maker_principal_id;
    ar_evaluator_principal_id := evaluator_principal_id; ar_evaluator_digest := evaluator_digest;
    ar_sealed_eval_id := sealed_eval_id; ar_sealed_dataset_digest := sealed_dataset_digest;
    ar_sealed_dataset_use_count := sealed_dataset_use_count;
    ar_sealed_result_influenced_edits := sealed_result_influenced_edits;
    ar_sealed_attestation_digest := sealed_attestation_digest;
    ar_sealed_custody_attestation_id := sealed_custody_attestation_id;
    ar_sealed_custody_provider := sealed_custody_provider; ar_sealed_custodian_id := sealed_custodian_id;
    ar_sealed_custody_attestation_digest := sealed_custody_attestation_digest;
    ar_sealed_custody_verified_at := sealed_custody_verified_at; ar_safety_hard_failures := safety_hard_failures;
    ar_eval_status := eval_status; ar_evaluated_at := evaluated_at; ar_owner_approval_id := owner_approval_id;
    ar_owner_principal_id := owner_principal_id; ar_approved_at := approved_at; ar_scope := scope;
    ar_review_condition := review_condition; ar_non_goals := non_goals;
    ar_rollback_or_retirement_path := rollback_or_retirement_path; ar_non_claim_boundary := non_claim_boundary |} in
  _ ← active_record_ok r;
  Ok r.
(** ** Reading what was written *)
Lemma texts_written l : mapR (λ j, match j with JStr s => Ok s | _ => Raise ContractError end) (JStr <$> l) = Ok l.
Proof. induction l as [|s l IH]; [done|]. cbn in *. by rewrite IH. Qed.

Lemma limited_request_rt r :
  limited_request_ok r = Ok tt →
  LimitedRulePromotionRequest_from_dict (LimitedRulePromotionRequest_to_dict r) = Ok r.
Proof.
  intros Hok. unfold LimitedRulePromotionRequest_from_dict.
  assert (same_keys limited_request_fields (LimitedRulePromotionRequest_to_dict r) = true) as -> by reflexivity.
  cbn -[limited_request_ok mapR]. unfold texts_at, jstrs. cbn -[limited_request_ok mapR]. rewrite texts_written. cbn -[limited_request_ok].
  destruct r; cbn -[limited_request_ok] in *. by rewrite Hok.
Qed.
Lemma limited_record_rt r :
  limited_request_ok (lm_request r) = Ok tt → limited_record_ok r = Ok tt →
  LimitedRulePromotionRecord_from_dict (LimitedRulePromotionRecord_to_dict r) = Ok r.
Proof.
  intros Hreq Hok. unfold LimitedRulePromotionRecord_from_dict.
  assert (same_keys limited_record_fields (LimitedRulePromotionRecord_to_dict r) = true) as -> by reflexivity.
  cbn -[limited_record_ok LimitedRulePromotionRequest_from_dict LimitedRulePromotionRequest_to_dict].
  rewrite (limited_request_rt _ Hreq).
  destruct r; cbn -[limited_record_ok] in *. by rewrite Hok.
Qed.
Lemma active_record_rt r :
  active_record_ok r = Ok tt → ActiveRulePromotionRecord_from_dict (ActiveRulePromotionRecord_to_dict r) = Ok r.
Proof.
  intros Hok. unfold ActiveRulePromotionRecord_from_dict.
  assert (same_keys active_record_fields (ActiveRulePromotionRecord_to_dict r) = true) as -> by reflexivity.
  cbn -[active_record_ok mapR]. unfold texts_at, jstrs. cbn -[active_record_ok mapR]. rewrite texts_written. cbn -[active_record_ok].
  destruct r; cbn -[active_record_ok] in *. by rewrite Hok.
Qed.
(** Conversely, what is read is valid and says what the object says. *)
Lemma text_at_ok d k s : text_at d k = Ok s ↔ dget d k = Some (JStr s).
Proof. unfold text_at. split; [|by intros ->]. destruct (dget d k) as [[]|]; intros Hd; by simplify_eq. Qed.
Lemma int_at_ok d k z : int_at d k = Ok z ↔ dget d k = Some (JInt z).
Proof. unfold int_at. split; [|by intros ->]. destruct (dget d k) as [[]|]; intros Hd; by simplify_eq. Qed.
Lemma bool_at_ok d k b : bool_at d k = Ok b ↔ dget d k = Some (JBool b).
Proof. unfold bool_at. split; [|by intros ->]. destruct (dget d k) as [[]|]; intros Hd; by simplify_eq. Qed.
Lemma texts_at_ok d k l : texts_at d k = Ok l ↔ dget d k = Some (jstrs l).
Proof.
  unfold texts_at. split; [|intros ->; apply texts_written].
  destruct (dget d k) as [[| | | |js|]|]; try done. rewrite mapR_ok. intros Hl. unfold jstrs. do 2 f_equal.
  induction Hl as [|j s js l Hj Hl IH]; [done|]. rewrite fmap_cons, <- IH. by destruct j; simplify_eq.
Qed.

Lemma same_keys_beside fields d k : same_keys fields d = true → k ∉ fields → dget d k = None.
Proof.
  unfold same_keys. intros [_ Hd]%andb_true_iff Hk. rewrite dget_keys. intros Hin.
  rewrite forallb_In in Hd. by apply Hk, memb_true, Hd.
Qed.

(** [from_dict d = Ok r]: the record is valid, and writes back the fields of [d]. *)
Ltac read_dict Hr fields :=
  rinv; repeat match goal with
    | u : unit |- _ => destruct u
    | H : text_at _ _ = Ok _ |- _ => apply text_at_ok in H
    | H : int_at _ _ = Ok _ |- _ => apply int_at_ok in H
    | H : bool_at _ _ = Ok _ |- _ => apply bool_at_ok in H
    | H : texts_at _ _ = Ok _ |- _ => apply texts_at_ok in H
    end; split; [done|]; intros k;
  destruct (decide (k ∈ fields)) as [Hk|Hk];
  [ unfold fields in Hk;
    repeat (apply elem_of_cons in Hk as [->|Hk];
      [match goal with H : dget ?o ?k = _ |- _ = dget ?o ?k => rewrite H; reflexivity end|]);
    by apply not_elem_of_nil in Hk
  | match goal with H : same_keys _ _ = true |- _ => rewrite (same_keys_beside _ _ _ H Hk) end;
    eapply same_keys_beside; [|exact Hk]; reflexivity ].

Lemma limited_request_read d r :
  LimitedRulePromotionRequest_from_dict d = Ok r →
  limited_request_ok r = Ok tt ∧ ∀ k, dget (LimitedRulePromotionRequest_to_dict r) k = dget d k.
Proof.
  unfold LimitedRulePromotionRequest_from_dict. intros Hr. read_dict Hr limited_request_fields.
Qed.
Lemma active_record_read d r :
  ActiveRulePromotionRecord_from_dict d = Ok r →
  active_record_ok r = Ok tt ∧ ∀ k, dget (ActiveRulePromotionRecord_to_dict r) k = dget d k.
Proof.
  unfold ActiveRulePromotionRecord_from_dict. intros Hr. read_dict Hr active_record_fields.
Qed.

(** What the record of a limited promotion says is what the object says, and the
    request in it what the object under its key says. *)
Record record_says (d : dict) (r : LimitedRulePromotionRecord) : Prop := {
  rs_record_id : dget d "promotion_record_id" = Some (JStr (lm_promotion_record_id r));
  rs_from_state : dget d "from_state" = Some (JStr (lm_from_state r));
  rs_approval_id : dget d "owner_approval_id" = Some (JStr (lm_owner_approval_id r));
  rs_principal_id : dget d "owner_principal_id" = Some (JStr (lm_owner_principal_id r));
  rs_approved_at : dget d "approved_at" = Some (JStr (lm_approved_at r));
  rs_request : ∃ q, dget d "request" = Some (JObj q) ∧
    ∀ k, dget (LimitedRulePromotionRequest_to_dict (lm_request r)) k = dget q k;
  rs_others k : k ≠ "request" → dget (LimitedRulePromotionRecord_to_dict r) k = dget d k }.

Lemma limited_record_read d r :
  LimitedRulePromotionRecord_from_dict d = Ok r →
  limited_request_ok (lm_request r) = Ok tt ∧ limited_record_ok r = Ok tt ∧ record_says d r.
Proof.
  unfold LimitedRulePromotionRecord_from_dict. intros Hr. apply res_bind_ok in Hr as ([] & Hkeys%require_ok & Hr).
  apply res_bind_ok in Hr as (q & Hq & Hr). rinv.
  repeat match goal with u : unit |- _ => destruct u | H : text_at _ _ = Ok _ |- _ => apply text_at_ok in H end.
  destruct (dget d "request") as [[]|] eqn:Hd; try discriminate Hq. apply limited_request_read in Hq as [Hok Hq].
  split_and!; [done..|]. constructor; try done; [by eexists|]. intros k Hne.
  destruct (decide (k ∈ limited_record_fields)) as [Hk|Hk].
  - unfold limited_record_fields in Hk. repeat (apply elem_of_cons in Hk as [->|Hk];
      [first [done|match goal with H : dget d ?k = _ |- _ = dget d ?k => by rewrite H end]|]).
    by apply not_elem_of_nil in Hk.
  - rewrite (same_keys_beside _ _ _ Hkeys Hk). eapply same_keys_beside; [|exact Hk]. reflexivity.
Qed.

(** C37: what [from_dict] reads of a request or a record of a promotion says field by
    field what the object says (the record of a limited promotion with the request that
    the object holds under its key), and is read back from what [to_dict] writes;
    and every valid record is read back, so nothing that a promotion logs is lost. *)
Theorem promotion_records_roundtrip :
  (∀ d r, LimitedRulePromotionRequest_from_dict d = Ok r →
     (∀ k, dget (LimitedRulePromotionRequest_to_dict r) k = dget d k) ∧
     LimitedRulePromotionRequest_from_dict (LimitedRulePromotionRequest_to_dict r) = Ok r) ∧
  (∀ d r, ActiveRulePromotionRecord_from_dict d = Ok r →
     (∀ k, dget (ActiveRulePromotionRecord_to_dict r) k = dget d k) ∧
     ActiveRulePromotionRecord_from_dict (ActiveRulePromotionRecord_to_dict r) = Ok r) ∧
  (∀ d r, LimitedRulePromotionRecord_from_dict d = Ok r → record_says d r ∧
     LimitedRulePromotionRecord_from_dict (LimitedRulePromotionRecord_to_dict r) = Ok r) ∧
  (∀ r, active_record_ok r = Ok tt → ActiveRulePromotionRecord_from_dict (ActiveRulePromotionRecord_to_dict r) = Ok r) ∧
  (∀ r, limited_request_ok (lm_request r) = Ok tt → limited_record_ok r = Ok tt →
     LimitedRulePromotionRecord_from_dict (LimitedRulePromotionRecord_to_dict r) = Ok r).
Proof.
  split_and!.
  - intros d r [Hok Hd]%limited_request_read. split; [done|by apply limited_request_rt].
  - intros d r [Hok Hd]%active_record_read. split; [done|by apply active_record_rt].
  - intros d r (Hreq & Hok & Hsays)%limited_record_read. split; [done|by apply limited_record_rt].
  - apply active_record_rt.
  - apply limited_record_rt.
Qed.
End records.

(** ** Witnesses: the promotion of a prompt *)
Module Examples.
Import Toy.

Definition limited : LimitedRulePromotionRecord := {|
  lm_promotion_record_id := "pr1";
  lm_request := {|
    lr_candidate_id := "im1"; lr_candidate_digest := sha "candidate"; lr_policy_version := "v1";
    lr_target_state := "limited"; lr_source_run_id := "r1"; lr_source_task_id := "t1";
    lr_verification_evidence_id := "ev1"; lr_verification_evidence_digest := sha "evidence";
    lr_verification_evidence_state := "runtime_verification"; lr_verification_evaluator_verdict := "pass";
    lr_promotion_validation_eval_id := "e2"; lr_promotion_validation_dataset_digest := sha "held out";
    lr_promotion_validation_attestation_digest := sha "attested"; lr_promotion_validation_query_count := 1;
    lr_promotion_validation_status := "pass"; lr_scope := "project://proj/prompts";
    lr_actual_outcome_kind := "benefit"; lr_actual_outcome := "it is faster"; lr_risk := "low";
    lr_non_goals := ["quality"]; lr_review_condition := "monthly";
    lr_rollback_or_retirement_path := "restore the prompt"; lr_non_claim_boundary := "one prompt" |};
  lm_from_state := "owner_review"; lm_owner_approval_id := "ap1"; lm_owner_principal_id := "p-olga";
  lm_approved_at := iso_sql 1700000000099000 |}.
Definition active : ActiveRulePromotionRecord := {|
  ar_promotion_record_id := "pr2"; ar_candidate_id := "im1"; ar_candidate_digest := sha "candidate";
  ar_policy_version := "v1"; ar_promotion_validation_eval_id := "e2";
  ar_promotion_validation_dataset_digest := sha "held out"; ar_promotion_validation_attestation_digest := sha "attested";
  ar_promotion_validation_query_count := 1; ar_promotion_validation_status := "pass";
  ar_limited_promotion_record_id := "pr1"; ar_limited_promotion_record_digest := limited_record_digest limited;
  ar_source_task_id := "t1"; ar_verification_evidence_id := "ev1"; ar_verification_evidence_digest := sha "evidence";
  ar_actual_outcome_kind := "benefit"; ar_actual_outcome := "it is faster"; ar_from_state := "limited";
  ar_target_state := "active"; ar_proposal_maker_principal_id := "p-alice"; ar_evaluator_principal_id := "p-eve";
  ar_evaluator_digest := sha "evaluator"; ar_sealed_eval_id := "e3"; ar_sealed_dataset_digest := sha "sealed";
  ar_sealed_dataset_use_count := 1; ar_sealed_result_influenced_edits := false;
  ar_sealed_attestation_digest := sha "sealed, attested"; ar_sealed_custody_attestation_id := "cu1";
  ar_sealed_custody_provider := "vault"; ar_sealed_custodian_id := "vault-7";
  ar_sealed_custody_attestation_digest := sha "custody"; ar_sealed_custody_verified_at := iso 1700000000113000;
  ar_safety_hard_failures := 0; ar_eval_status := "pass"; ar_evaluated_at := iso 1700000000107000;
  ar_owner_approval_id := "ap2"; ar_owner_principal_id := "p-olga"; ar_approved_at := iso_sql 1700000000117000;
  ar_scope := "project://proj/prompts"; ar_review_condition := "monthly"; ar_non_goals := ["quality"];
  ar_rollback_or_retirement_path := "restore the prompt"; ar_non_claim_boundary := _ACTIVE_RULE_NON_CLAIM |}.

Lemma promotion_records_roundtrip_witness :
  ActiveRulePromotionRecord_from_dict (ActiveRulePromotionRecord_to_dict active) = Ok active ∧
  LimitedRulePromotionRecord_from_dict (LimitedRulePromotionRecord_to_dict limited) = Ok limited.
Proof.
  destruct promotion_records_roundtrip as (_ & _ & _ & Ha & Hl).
  split; [apply Ha|apply Hl]; vm_compute; reflexivity.
Defined.
End Examples.
End Promotions.
