(* ===== verification/Times.v ===== *)
(** * Times as texts

    The code keeps times as texts of the form [2024-02-29T12:34:56.789012+00:00] and
    compares the texts; the development keeps the instants.  This file shows that
    nothing is lost: a text that the code writes reads back as its instant, and two
    such texts compare as their instants do. *)

From Stdlib Require Import Ascii.
From stdpp Require Import pretty.
From S2P Require Import Prelude PyStr Json Enums Contracts Scope Db Store Identity.
From S2P Require Import Leases Authority Gates Registries Policy Evidence Observations Context Promotions.

Local Open Scope string_scope.
Local Open Scope list_scope.
Local Open Scope Z_scope.

(** The times of Python's [datetime]: the years 1 to 9999. *)
Definition in_datetime (t : Instant) : Prop := -62135596800000000 ≤ t < 253402300800000000.

(** ** The calendar *)

(** The days before the year [y], counted from March and from the year 0. *)
Definition year_start (y : Z) : Z := 365 * y + y / 4 - y / 100 + y / 400.
Lemma year_start_step y : 365 ≤ year_start (y + 1) - year_start y ≤ 366.
Proof. unfold year_start. Z.to_euclidean_division_equations. lia. Qed.
Lemma year_start_mono y y' : y ≤ y' → year_start y ≤ year_start y'.
Proof. unfold year_start. intros H. Z.to_euclidean_division_equations. lia. Qed.

(** A day by its year and the months and days since March. *)
Record marched (z y mp d : Z) : Prop := {
  mc_month : 0 ≤ mp ≤ 11;
  mc_day : 1 ≤ d ≤ 31;
  mc_of_month : let doy := (153 * mp + 2) / 5 + d - 1 in
    z = year_start y + doy ∧ 0 ≤ doy ∧ z < year_start (y + 1) ∧ mp = (5 * doy + 2) / 153 }.
Definition month_of (mp : Z) : Z := if mp <? 10 then mp + 3 else mp - 9.
Definition civil_year (y mp : Z) : Z := y + (if month_of mp <=? 2 then 1 else 0).

Lemma civil_marched days : ∃ y mp d, marched (days + 719468) y mp d ∧ civil days = (civil_year y mp, month_of mp, d).
Proof.
  unfold civil. set (z := days + 719468). set (era := z / 146097). set (doe := z - era * 146097).
  set (yoe := (doe - doe / 1460 + doe / 36524 - doe / 146096) / 365).
  set (doy := doe - (365 * yoe + yoe / 4 - yoe / 100)). set (mp := (5 * doy + 2) / 153).
  exists (yoe + era * 400), mp, (doy - (153 * mp + 2) / 5 + 1).
  assert (0 ≤ doe < 146097) as Hdoe by (unfold doe, era; Z.to_euclidean_division_equations; lia).
  assert (0 ≤ yoe < 400) as Hyoe by (unfold yoe; Z.to_euclidean_division_equations; lia).
  assert (0 ≤ doy) as Hdoy0 by (unfold doy, yoe in *; Z.to_euclidean_division_equations; lia).
  assert (doe < 365 * (yoe + 1) + (yoe + 1) / 4 - (yoe + 1) / 100 + (yoe + 1) / 400) as Hnext
    by (unfold yoe in *; Z.to_euclidean_division_equations; lia).
  assert (∀ y, year_start (y + era * 400) = era * 146097 + year_start y) as Hera.
  { intros y. unfold year_start. assert ((y + era * 400) / 4 = y / 4 + era * 100) as -> by (rewrite <- Z.div_add by done; f_equal; lia).
    assert ((y + era * 400) / 100 = y / 100 + era * 4) as -> by (rewrite <- Z.div_add by done; f_equal; lia).
    rewrite Z.div_add by done. lia. }
  assert (year_start yoe = 365 * yoe + yoe / 4 - yoe / 100) as Hyear by (unfold year_start; rewrite (Z.div_small yoe 400) by done; apply Z.add_0_r).
  assert (doy < 366) as Hdoy.
  { pose proof (year_start_step yoe). fold (year_start (yoe + 1)) in Hnext. unfold doy. lia. }
  assert (0 ≤ mp ≤ 11) as Hmp by (unfold mp; Z.to_euclidean_division_equations; lia).
  assert (1 ≤ doy - (153 * mp + 2) / 5 + 1 ≤ 31) as Hd by (unfold mp; Z.to_euclidean_division_equations; lia).
  split.
  - constructor; [done..|]. replace ((153 * mp + 2) / 5 + (doy - (153 * mp + 2) / 5 + 1) - 1) with doy by lia.
    replace (yoe + era * 400 + 1) with (yoe + 1 + era * 400) by lia. rewrite !Hera, Hyear. cbv zeta.
    split_and!; [unfold doy, doe; lia|done| |done]. unfold year_start. unfold doe in Hnext. lia.
  - unfold civil_year, month_of. done.
Qed.

Lemma days_of_marched z y mp d : marched z y mp d → days_of_civil (civil_year y mp) (month_of mp) d = z - 719468.
Proof.
  intros [Hmp Hd (Hz & _)]. unfold days_of_civil. 
  assert (civil_year y mp - (if month_of mp <=? 2 then 1 else 0) = y) as Hy by (unfold civil_year; lia).
  assert ((if month_of mp <=? 2 then civil_year y mp - 1 else civil_year y mp) = y) as -> by (unfold civil_year; destruct (_ <=? 2); lia).
  assert ((month_of mp + 9) mod 12 = mp) as ->.
  { unfold month_of. destruct (mp <? 10) eqn:Hlt.
    - replace (mp + 3 + 9) with (mp + 1 * 12) by lia. rewrite Z.mod_add by done. apply Z.mod_small. lia.
    - rewrite Z.sub_add. apply Z.mod_small. lia. }
  cbv zeta. rewrite Hz. unfold year_start. Z.to_euclidean_division_equations. lia.
Qed.
Lemma civil_days days y m d : civil days = (y, m, d) → days_of_civil y m d = days.
Proof.
  intros Hc. destruct (civil_marched days) as (y0 & mp & d0 & Hm & Hc'). rewrite Hc in Hc'. injection Hc' as -> -> ->.
  rewrite (days_of_marched _ _ _ _ Hm). lia.
Qed.

(** Later days have later dates. *)
Lemma marched_lt z y mp d z' y' mp' d' :
  marched z y mp d → marched z' y' mp' d' → z < z' → 12 * y + mp < 12 * y' + mp' ∨ 12 * y + mp = 12 * y' + mp' ∧ d < d'.
Proof.
  intros [Hmp Hd (Hz & H0 & Hn & Hm)] [Hmp' Hd' (Hz' & H0' & Hn' & Hm')] Hlt.
  destruct (Z.lt_trichotomy y y') as [Hy|[<-|Hy]]; [left; lia| |].
  - assert (mp ≤ mp') as Hle by (rewrite Hm, Hm'; apply Z.div_le_mono; lia).
    destruct (Z.eq_dec mp mp') as [<-|]; [right|left]; lia.
  - exfalso. pose proof (year_start_mono (y' + 1) y ltac:(lia)). lia.
Qed.
Lemma civil_month y mp : 0 ≤ mp ≤ 11 → 12 * civil_year y mp + month_of mp = 12 * y + mp + 3 ∧ 1 ≤ month_of mp ≤ 12.
Proof. unfold civil_year, month_of. intros H. destruct (mp <? 10) eqn:?; destruct (_ <=? 2) eqn:?; lia. Qed.
Lemma civil_lt days days' y m d y' m' d' :
  civil days = (y, m, d) → civil days' = (y', m', d') → days < days' →
  y < y' ∨ y = y' ∧ (m < m' ∨ m = m' ∧ d < d').
Proof.
  intros Hc Hc' Hlt. destruct (civil_marched days) as (y0 & mp & d0 & Hm & Hq), (civil_marched days') as (y1 & mp' & d1 & Hm' & Hq').
  rewrite Hc in Hq. rewrite Hc' in Hq'. injection Hq as -> -> ->. injection Hq' as -> -> ->.
  pose proof (marched_lt _ _ _ _ _ _ _ _ Hm Hm' ltac:(lia)) as Hl.
  destruct (civil_month y0 mp (mc_month _ _ _ _ Hm)), (civil_month y1 mp' (mc_month _ _ _ _ Hm')). lia.
Qed.
Lemma civil_bounds days y m d :
  civil days = (y, m, d) → -719162 ≤ days < 2932897 → 1 ≤ y ≤ 9999 ∧ 1 ≤ m ≤ 12 ∧ 1 ≤ d ≤ 31.
Proof.
  intros Hc Hr. destruct (civil_marched days) as (y0 & mp & d0 & Hm & Hq). rewrite Hc in Hq. injection Hq as -> -> ->.
  pose proof (civil_month y0 mp (mc_month _ _ _ _ Hm)) as [Hy Hmo]. split; [|by split; [|apply Hm]].
  assert (civil (-719163) = (0, 12, 31)) as Hlo by reflexivity. assert (civil 2932897 = (10000, 1, 1)) as Hhi by reflexivity.
  pose proof (civil_lt _ _ _ _ _ _ _ _ Hlo Hc ltac:(lia)). pose proof (civil_lt _ _ _ _ _ _ _ _ Hc Hhi ltac:(lia)).
  destruct (Hm). lia.
Qed.

(** ** Padded numbers *)
Definition dig (z : Z) : ascii := chr (48 + z).
(** The last [n] digits of [z]. *)
Fixpoint fixed (n : nat) (z : Z) : list ascii :=
  match n with O => [] | S n => fixed n (z / 10) ++ [dig (z mod 10)] end.

Lemma fixed_length n z : length (fixed n z) = n.
Proof. revert z. induction n as [|n IH]; intros z; [done|]. cbn [fixed]. rewrite length_app, IH. simpl. lia. Qed.
Lemma fixed_zero n : fixed n 0 = replicate n "0"%char.
Proof.
  induction n as [|n IH]; [done|]. cbn [fixed]. rewrite Z.div_0_l, IH by done.
  rewrite <- replicate_cons_app. done.
Qed.
Lemma ten_cases (P : Z → bool) z : 0 ≤ z < 10 → forallb P (seqZ 0 10) = true → P z = true.
Proof. intros Hz HP. rewrite forallb_In in HP. apply HP, elem_of_seqZ. lia. Qed.
Lemma fixed_all (P : ascii → bool) n z : forallb (λ z, P (dig z)) (seqZ 0 10) = true → forallb P (fixed n z) = true.
Proof.
  intros HP. revert z. induction n as [|n IH]; intros z; [done|]. cbn [fixed]. rewrite forallb_app, IH. simpl.
  by rewrite (ten_cases (λ z, P (dig z))) by (try done; apply Z.mod_pos_bound; lia).
Qed.
Lemma dig_code z : 0 ≤ z < 10 → code (dig z) = 48 + z.
Proof. intros Hz. apply Z.eqb_eq. by apply (ten_cases (λ z, code (dig z) =? 48 + z)). Qed.
Lemma dig_digit z : 0 ≤ z < 10 → is_digit (dig z) = true.
Proof. intros Hz. by apply (ten_cases (λ z, is_digit (dig z))). Qed.
Lemma pretty_char x : pretty_N_char (x mod 10) = dig (Z.of_N x mod 10).
Proof.
  assert (0 ≤ Z.of_N x mod 10 < 10) as Hz by (apply Z.mod_pos_bound; lia).
  replace (x mod 10)%N with (Z.to_N (Z.of_N x mod 10)) by (rewrite Z2N.inj_mod, N2Z.id by lia; done).
  pose proof (ten_cases (λ z, bool_decide (pretty_N_char (Z.to_N z) = dig z)) _ Hz eq_refl) as Hb.
  by apply bool_decide_eq_true in Hb.
Qed.

Lemma pretty_go_fixed n (x : N) : (x < 10 ^ N.of_nat n)%N →
  ∃ k, ∀ s, replicate k "0"%char ++ chars (pretty_N_go x s) = fixed n (Z.of_N x) ++ chars s.
Proof.
  revert x. induction n as [|n IH]; intros x Hx.
  - exists 0%nat. intros s. simpl in Hx. assert (x = 0%N) as -> by lia. by rewrite pretty_N_go_0.
  - destruct (N.eq_dec x 0%N) as [->|Hne].
    + exists (S n). intros s. by rewrite pretty_N_go_0, fixed_zero.
    + destruct (IH (x `div` 10)%N) as [k Hk].
      { apply N.Div0.div_lt_upper_bound. rewrite Nat2N.inj_succ, N.pow_succ_r' in Hx. lia. }
      exists k. intros s. rewrite pretty_N_go_step by lia. rewrite Hk, pretty_char, N2Z.inj_div. cbn [fixed chars String.list_ascii_of_string].
      by rewrite <- app_assoc.
Qed.
Lemma pad_fixed n z : (0 < n)%nat → 0 ≤ z < 10 ^ Z.of_nat n → chars (pad n z) = fixed n z.
Proof.
  intros Hn Hz. unfold pad. rewrite chars_app, chars_of_chars. destruct (decide (z = 0)) as [->|Hne].
  - rewrite fixed_zero. destruct n as [|n]; [lia|]. change (pretty 0) with "0". simpl.
    by rewrite Nat.sub_0_r, <- replicate_cons_app.
  - assert (pretty z = pretty_N_go (Z.to_N z) "") as ->.
    { destruct z as [|p|p]; [done| |lia]. done. }
    destruct (pretty_go_fixed n (Z.to_N z)) as [k Hk].
    { apply N2Z.inj_lt. rewrite N2Z.inj_pow, nat_N_Z, Z2N.id by lia. apply Hz. }
    specialize (Hk ""). rewrite Z2N.id, app_nil_r in Hk by lia. rewrite <- Hk. do 2 f_equal.
    assert (length (replicate k "0"%char ++ chars (pretty_N_go (Z.to_N z) "")) = n) as Hlen by (by rewrite Hk, fixed_length).
    rewrite length_app, length_replicate in Hlen.
    assert (∀ s, String.length s = length (chars s)) as -> by (intros s; induction s; simpl; congruence). lia.
Qed.

(** ** Reading digits *)
Lemma digits_split n m acc l : digits (n + m) acc l = '(x, l') ← digits n acc l; digits m x l'.
Proof.
  revert acc l. induction n as [|n IH]; intros acc l; [done|]. simpl. destruct l as [|c l]; [done|]. destruct (is_digit c); [apply IH|done].
Qed.
Lemma digits_fixed n z acc l :
  0 ≤ z < 10 ^ Z.of_nat n → digits n acc (fixed n z ++ l) = Some (10 ^ Z.of_nat n * acc + z, l).
Proof.
  revert z acc l. induction n as [|n IH]; intros z acc l Hz.
  - simpl. do 2 f_equal. simpl in Hz. lia.
  - rewrite Nat2Z.inj_succ, Z.pow_succ_r in Hz |- * by lia.
    replace (S n) with (n + 1)%nat at 1 by lia. rewrite digits_split. cbn [fixed]. rewrite <- app_assoc.
    rewrite IH by (split; [apply Z.div_pos; lia|apply Z.div_lt_upper_bound; lia]). simpl.
    pose proof (Z.mod_pos_bound z 10 ltac:(lia)) as Hm. rewrite dig_digit, dig_code by done. do 2 f_equal.
    rewrite (Z.div_mod z 10) at 3 by lia. lia.
Qed.

(** ** Comparing digits *)
Lemma compare_app p q l r : length p = length q →
  String.compare (of_chars (p ++ l)) (of_chars (q ++ r)) =
  match String.compare (of_chars p) (of_chars q) with Eq => String.compare (of_chars l) (of_chars r) | c => c end.
Proof.
  revert q. induction p as [|a p IH]; intros [|b q]; simpl; try done. intros [= Hl].
  rewrite (IH q Hl). by destruct (Ascii.compare a b).
Qed.
Lemma compare_div x y k : 0 < k →
  (x ?= y) = match x / k ?= y / k with Eq => x mod k ?= y mod k | c => c end.
Proof.
  intros Hk. pose proof (Z.div_mod x k). pose proof (Z.div_mod y k).
  pose proof (Z.mod_pos_bound x k Hk). pose proof (Z.mod_pos_bound y k Hk).
  destruct (Z.compare_spec (x / k) (y / k)) as [He|He|He].
  - destruct (Z.compare_spec (x mod k) (y mod k)); [apply Z.compare_eq_iff|apply Z.compare_lt_iff|apply Z.compare_gt_iff]; nia.
  - apply Z.compare_lt_iff. nia.
  - apply Z.compare_gt_iff. nia.
Qed.
Lemma compare_dig x y : 0 ≤ x < 10 → 0 ≤ y < 10 → Ascii.compare (dig x) (dig y) = (x ?= y).
Proof.
  intros Hx Hy. unfold Ascii.compare. pose proof (dig_code x Hx) as Hcx. pose proof (dig_code y Hy) as Hcy. unfold code in *.
  rewrite <- N2Z.inj_compare, Hcx, Hcy. destruct (Z.compare_spec x y);
    [apply Z.compare_eq_iff|apply Z.compare_lt_iff|apply Z.compare_gt_iff]; lia.
Qed.
Lemma compare_fixed n x y : 0 ≤ x < 10 ^ Z.of_nat n → 0 ≤ y < 10 ^ Z.of_nat n →
  String.compare (of_chars (fixed n x)) (of_chars (fixed n y)) = (x ?= y).
Proof.
  revert x y. induction n as [|n IH]; intros x y Hx Hy.
  - simpl in *. symmetry. apply Z.compare_eq_iff. lia.
  - rewrite Nat2Z.inj_succ, Z.pow_succ_r in Hx, Hy by lia. cbn [fixed]. rewrite compare_app by by rewrite !fixed_length.
    rewrite IH by (split; [apply Z.div_pos; lia|apply Z.div_lt_upper_bound; lia]). rewrite (compare_div x y 10) by lia.
    destruct (_ ?= _); try done. simpl. rewrite compare_dig by (apply Z.mod_pos_bound; lia). by destruct (_ ?= _).
Qed.

(** ** The texts of times *)
Definition stamp (y m d h mi s : Z) : list ascii :=
  fixed 4 y ++ ["-"%char] ++ fixed 2 m ++ ["-"%char] ++ fixed 2 d ++ ["T"%char] ++
  fixed 2 h ++ [":"%char] ++ fixed 2 mi ++ [":"%char] ++ fixed 2 s.

(** The parts of a time. *)
Record parts (t : Instant) (y m d h mi s us : Z) : Prop := {
  pt_day : civil (t / 86400000000) = (y, m, d);
  pt_hour : h = t / 1000000 mod 86400 / 3600;
  pt_minute : mi = t / 1000000 mod 3600 / 60;
  pt_second : s = t / 1000000 mod 60;
  pt_micro : us = t mod 1000000;
  pt_ranges : 1 ≤ y ≤ 9999 ∧ 1 ≤ m ≤ 12 ∧ 1 ≤ d ≤ 31 ∧ 0 ≤ h < 24 ∧ 0 ≤ mi < 60 ∧ 0 ≤ s < 60 ∧ 0 ≤ us < 1000000 }.

Lemma parts_of t : in_datetime t → ∃ y m d h mi s us, parts t y m d h mi s us.
Proof.
  unfold in_datetime. intros Ht. destruct (civil (t / 86400000000)) as [[y m] d] eqn:Hc. do 7 eexists. constructor; try done.
  pose proof (civil_bounds _ _ _ _ Hc) as Hb. destruct Hb as (? & ? & ?); [Z.to_euclidean_division_equations; lia|].
  split_and!; try lia; Z.to_euclidean_division_equations; lia.
Qed.
Lemma parts_add t y m d h mi s us : parts t y m d h mi s us →
  ((t / 86400000000) * 86400 + h * 3600 + mi * 60 + s) * 1000000 + us = t.
Proof. intros [_ -> -> -> -> _]. Z.to_euclidean_division_equations. lia. Qed.

Lemma iso_seconds_chars t y m d h mi s us : parts t y m d h mi s us → chars (iso_seconds t) = stamp y m d h mi s.
Proof.
  intros [Hc -> -> -> _ Hr]. unfold iso_seconds. cbv zeta.
  assert (t / 1000000 / 86400 = t / 86400000000) as -> by (by rewrite Z.div_div). rewrite Hc.
  rewrite !chars_app, !pad_fixed by lia. done.
Qed.

(** ** Reading a time *)
Lemma digits_at n z l : 0 ≤ z < 10 ^ Z.of_nat n → digits n 0 (fixed n z ++ l) = Some (z, l).
Proof. intros Hz. rewrite digits_fixed by done. do 2 f_equal. lia. Qed.

Lemma skip_same c l : skip c (c :: l) = Some l.
Proof. simpl. by rewrite bool_decide_eq_true_2. Qed.

(** A time with any fraction and offset. *)
Lemma read_stamp t y m d h mi s us us' tail tail' off : parts t y m d h mi s us →
  fraction tail = Some (us', tail') → offset tail' = Some off →
  fromisoformat (of_chars (stamp y m d h mi s ++ tail)) = Some (t - us + us' - off * 1000000).
Proof.
  intros Hp Hf Ho. pose proof (parts_add _ _ _ _ _ _ _ _ Hp) as Hsum. destruct Hp as [Hc _ _ _ _ Hr].
  unfold fromisoformat, stamp. rewrite chars_of_chars, <- !app_assoc. cbn [app].
  rewrite (digits_at 4) by lia. cbn [mbind option_bind].
  do 5 (rewrite skip_same; cbn [mbind option_bind]; rewrite (digits_at 2) by lia; cbn [mbind option_bind]).
  rewrite Hf. cbn [mbind option_bind]. rewrite Ho. cbn [mbind option_bind]. rewrite (civil_days _ _ _ _ Hc), Hc, bool_decide_eq_true_2 by done.
  rewrite !(proj2 (Z.ltb_lt _ _)) by lia. rewrite (proj2 (Z.leb_le _ _)) by lia. simpl. f_equal. lia.
Qed.

(** No [Z] but the one at the end. *)
Lemma zulu_app a b : zulu (a +:+ b) = zulu a +:+ zulu b.
Proof. unfold zulu. apply chars_inj. by rewrite !chars_app, !chars_of_chars, bind_app. Qed.
Definition not_z (c : ascii) : bool := negb (bool_decide (c = "Z"%char)).
Lemma zulu_same s : forallb not_z (chars s) = true → zulu s = s.
Proof.
  unfold zulu. intros H. rewrite <- (of_chars_chars s) at 2. f_equal. revert H. generalize (chars s). intros l.
  induction l as [|c l IH]; [done|]. simpl. intros [Hc Hl]%andb_true_iff. unfold not_z in Hc. apply negb_true_iff, bool_decide_eq_false in Hc.
  rewrite bool_decide_eq_false_2 by done. simpl. f_equal. by apply IH.
Qed.
Lemma stamp_all (P : ascii → bool) y m d h mi s :
  forallb (λ z, P (dig z)) (seqZ 0 10) = true → forallb P ["-"; "T"; ":"]%char = true → forallb P (stamp y m d h mi s) = true.
Proof.
  intros HP Hs. simpl in Hs. bsplit. unfold stamp. rewrite !forallb_app, !(fixed_all P) by done. simpl.
  by repeat match goal with H : P _ = true |- _ => rewrite H; clear H end.
Qed.

(** A printed text is its own [strip]. *)
Definition printed (c : ascii) : bool := (33 <=? code c) && (code c <=? 126).
Lemma ws_head_printed w2 w3 l :
  (∀ a b, printed a = true → printed b = true → w2 a b = false) →
  (∀ a b c, printed a = true → printed b = true → printed c = true → w3 a b c = false) →
  forallb printed l = true → ws_head w2 w3 l = false.
Proof.
  assert (∀ a, printed a = true → ws1 a = false) as H1 by (unfold printed, ws1; intros a Ha; lia).
  intros H2 H3 Hl. destruct l as [|a [|b [|c l]]]; simpl in *; try done; bsplit; rewrite ?H1, ?H2, ?H3 by done; done.
Qed.
Lemma strip_all_printed s : forallb printed (chars s) = true → strip s = s.
Proof.
  intros Hs. unfold strip, lstrip_l, rstrip_l.
  assert (∀ a b, printed a = true → printed b = true → ws2 a b = false) as H2 by (unfold printed, ws2; intros; lia).
  assert (∀ a b c, printed a = true → printed b = true → printed c = true → ws3 a b c = false) as H3
    by (unfold printed, ws3; intros; lia).
  rewrite (drop_ws_id ws2 ws3) by (apply ws_head_printed; auto).
  rewrite drop_ws_id; [by rewrite rev_involutive, of_chars_chars|].
  apply ws_head_printed; auto. apply forallb_In. intros c Hc.
  apply (proj1 (forallb_In printed _) Hs). apply list_elem_of_In, in_rev, list_elem_of_In, Hc.
Qed.

Lemma instant_ok s t : s ≠ "" → forallb printed (chars s) = true → fromisoformat (zulu s) = Some t → Promotions._instant s = Ok t.
Proof.
  intros Hne Hs Hf. unfold Promotions._instant, Promotions._text, required_text, blank. rewrite strip_all_printed by done.
  rewrite bool_decide_eq_false_2 by done. simpl. by rewrite Hf.
Qed.

Lemma iso_chars t y m d h mi s us : parts t y m d h mi s us →
  iso t = of_chars (stamp y m d h mi s ++ ["."%char] ++ fixed 6 us ++ chars "+00:00").
Proof.
  intros Hp. apply chars_inj. unfold iso. rewrite !chars_app, (iso_seconds_chars _ _ _ _ _ _ _ _ Hp), chars_of_chars.
  destruct Hp as [_ _ _ _ -> Hr]. by rewrite pad_fixed by lia.
Qed.
Lemma iso_sql_chars t y m d h mi s us : parts t y m d h mi s us →
  iso_sql t = of_chars (stamp y m d h mi s ++ ["."%char] ++ fixed 3 (us / 1000) ++ ["Z"%char]).
Proof.
  intros Hp. apply chars_inj. unfold iso_sql. rewrite !chars_app, (iso_seconds_chars _ _ _ _ _ _ _ _ Hp), chars_of_chars.
  destruct Hp as [_ _ _ _ -> Hr]. rewrite pad_fixed; [done|lia|Z.to_euclidean_division_equations; lia].
Qed.

Lemma iso_reads t : in_datetime t → Promotions._instant (iso t) = Ok t.
Proof.
  intros Ht. destruct (parts_of t Ht) as (y & m & d & h & mi & s & us & Hp). rewrite (iso_chars _ _ _ _ _ _ _ _ Hp).
  pose proof (pt_ranges _ _ _ _ _ _ _ _ Hp) as Hr.
  apply instant_ok; [done| |].
  - rewrite chars_of_chars, !forallb_app, stamp_all, fixed_all by done. done.
  - rewrite zulu_same; [|by rewrite chars_of_chars, !forallb_app, stamp_all, fixed_all by done].
    rewrite (read_stamp _ _ _ _ _ _ _ _ us (["."%char] ++ fixed 6 us ++ chars "+00:00") (chars "+00:00") 0 Hp);
      [f_equal; lia| |done].
    unfold fraction. cbn [app]. rewrite skip_same. rewrite (digits_at 6) by lia. done.
Qed.
Lemma iso_sql_reads t : in_datetime t → Promotions._instant (iso_sql t) = Ok (t / 1000 * 1000).
Proof.
  intros Ht. destruct (parts_of t Ht) as (y & m & d & h & mi & s & us & Hp). rewrite (iso_sql_chars _ _ _ _ _ _ _ _ Hp).
  pose proof (pt_ranges _ _ _ _ _ _ _ _ Hp) as Hr.
  assert (0 ≤ us / 1000 < 10 ^ Z.of_nat 3) as Hms by (simpl; Z.to_euclidean_division_equations; lia).
  apply instant_ok; [done|by rewrite chars_of_chars, !forallb_app, stamp_all, fixed_all by done|].
  replace (of_chars (stamp y m d h mi s ++ ["."%char] ++ fixed 3 (us / 1000) ++ ["Z"%char]))
    with (of_chars (stamp y m d h mi s ++ ["."%char] ++ fixed 3 (us / 1000)) +:+ "Z")
    by (apply chars_inj; by rewrite chars_app, !chars_of_chars, <- !app_assoc).
  rewrite zulu_app, zulu_same; [|by rewrite chars_of_chars, !forallb_app, stamp_all, fixed_all by done].
  change (zulu "Z") with "+00:00".
  replace (of_chars (stamp y m d h mi s ++ ["."%char] ++ fixed 3 (us / 1000)) +:+ "+00:00")
    with (of_chars (stamp y m d h mi s ++ ["."%char] ++ fixed 3 (us / 1000) ++ chars "+00:00"))
    by (apply chars_inj; by rewrite chars_app, !chars_of_chars, <- !app_assoc).
  rewrite (read_stamp _ _ _ _ _ _ _ _ (us / 1000 * 1000) (["."%char] ++ fixed 3 (us / 1000) ++ chars "+00:00") (chars "+00:00") 0 Hp).
  - f_equal. rewrite (pt_micro _ _ _ _ _ _ _ _ Hp). Z.to_euclidean_division_equations. lia.
  - unfold fraction. cbn [app]. rewrite skip_same.
    rewrite (digits_split 3 3), !(digits_at 3) by done. done.
  - done.
Qed.

(** ** The order of times *)
Lemma compare_stamp p q l r y m d h mi s y' m' d' h' mi' s' :
  length p = length q →
  0 ≤ y < 10000 → 0 ≤ y' < 10000 → 0 ≤ m < 100 → 0 ≤ m' < 100 → 0 ≤ d < 100 → 0 ≤ d' < 100 → 0 ≤ h < 100 → 0 ≤ h' < 100 →
  0 ≤ mi < 100 → 0 ≤ mi' < 100 → 0 ≤ s < 100 → 0 ≤ s' < 100 →
  String.compare (of_chars (stamp y m d h mi s ++ p ++ l)) (of_chars (stamp y' m' d' h' mi' s' ++ q ++ r)) =
  match y ?= y' with Eq => match m ?= m' with Eq => match d ?= d' with Eq => match h ?= h' with Eq =>
  match mi ?= mi' with Eq => match s ?= s' with Eq => match String.compare (of_chars p) (of_chars q) with
    Eq => String.compare (of_chars l) (of_chars r)
  | c => c end | c => c end | c => c end | c => c end | c => c end | c => c end | c => c end.
Proof.
  intros Hpq. intros. unfold stamp. rewrite <- !app_assoc.
  repeat first [rewrite (compare_app (fixed _ _) (fixed _ _)) by (by rewrite !fixed_length)
               |rewrite (compare_app [_] [_]) by done|rewrite (compare_app p q) by done].
  rewrite (compare_fixed 4), !(compare_fixed 2) by (simpl; lia). done.
Qed.

Lemma compare_parts a b ya ma da ha mia sa ua yb mb db hb mib sb ub :
  parts a ya ma da ha mia sa ua → parts b yb mb db hb mib sb ub →
  (a ?= b) = match ya ?= yb with Eq => match ma ?= mb with Eq => match da ?= db with Eq => match ha ?= hb with Eq =>
    match mia ?= mib with Eq => match sa ?= sb with Eq => ua ?= ub
    | c => c end | c => c end | c => c end | c => c end | c => c end | c => c end.
Proof.
  intros Ha Hb. pose proof (parts_add _ _ _ _ _ _ _ _ Ha) as Hsa. pose proof (parts_add _ _ _ _ _ _ _ _ Hb) as Hsb.
  destruct Ha as [Hca _ _ _ _ Hra], Hb as [Hcb _ _ _ _ Hrb].
  set (da_ := a / 86400000000) in *. set (db_ := b / 86400000000) in *. clearbody da_ db_.
  assert (da_ < db_ → ya < yb ∨ ya = yb ∧ (ma < mb ∨ ma = mb ∧ da < db)) as Hlt by by apply civil_lt.
  assert (db_ < da_ → yb < ya ∨ yb = ya ∧ (mb < ma ∨ mb = ma ∧ db < da)) as Hgt by by apply civil_lt.
  assert (da_ = db_ → ya = yb ∧ ma = mb ∧ da = db) as Heq by (intros ->; rewrite Hca in Hcb; by injection Hcb as -> -> ->).
  clear Hca Hcb.
  assert (∀ c, (c = Eq → a = b) → (c = Lt → a < b) → (c = Gt → b < a) → (a ?= b) = c) as Hgoal.
  { intros [] H1 H2 H3; [apply Z.compare_eq_iff|apply Z.compare_lt_iff|apply Z.compare_gt_iff]; auto. }
  apply Hgoal; repeat (match goal with |- context [?x ?= ?y] => destruct (Z.compare_spec x y) end; try (intros ?; (discriminate || lia))).
Qed.

Lemma iso_compare a b : in_datetime a → in_datetime b → String.compare (iso a) (iso b) = (a ?= b).
Proof.
  intros Ha Hb. destruct (parts_of a Ha) as (ya & ma & da & ha & mia & sa & ua & Hpa).
  destruct (parts_of b Hb) as (yb & mb & db & hb & mib & sb & ub & Hpb).
  rewrite (iso_chars _ _ _ _ _ _ _ _ Hpa), (iso_chars _ _ _ _ _ _ _ _ Hpb), (compare_parts _ _ _ _ _ _ _ _ _ _ _ _ _ _ _ _ Hpa Hpb).
  pose proof (pt_ranges _ _ _ _ _ _ _ _ Hpa). pose proof (pt_ranges _ _ _ _ _ _ _ _ Hpb).
  rewrite compare_stamp by (done || lia). rewrite (compare_app (fixed _ _) (fixed _ _)) by (by rewrite !fixed_length).
  rewrite (compare_fixed 6) by (simpl; lia). change (String.compare (of_chars ["."%char]) (of_chars ["."%char])) with Eq. cbv iota.
  change (String.compare (of_chars (chars "+00:00")) (of_chars (chars "+00:00"))) with Eq. by destruct (ua ?= ub).
Qed.

(** A time of Python's [datetime] (the years 1 to 9999) is what its text says: the
    text that the code writes reads back as the same time, the text that SQLite writes
    as the time to the millisecond, and two texts of the code compare as strings
    exactly as their times do, so a comparison of texts is one of times. *)
Theorem times_are_their_texts a b :
  in_datetime a → in_datetime b →
  Promotions._instant (iso a) = Ok a ∧ Promotions._instant (iso_sql a) = Ok (a / 1000 * 1000) ∧
  str_leb (iso a) (iso b) = (a <=? b) ∧ (iso a = iso b → a = b).
Proof.
  intros Ha Hb. pose proof (iso_compare a b Ha Hb) as Hc. pose proof (iso_reads a Ha) as Hra. split_and!.
  - exact Hra.
  - by apply iso_sql_reads.
  - unfold str_leb, String.leb. rewrite Hc. unfold Z.leb. by destruct (a ?= b).
  - intros He. rewrite He, (iso_reads b Hb) in Hra. by injection Hra.
Qed.

Lemma times_are_their_texts_witness :
  Promotions._instant (iso 1709210096789012) = Ok 1709210096789012 ∧
  str_leb (iso 1709210096789012) (iso (-62135596800000000)) = false.
Proof.
  assert (in_datetime 1709210096789012 ∧ in_datetime (-62135596800000000)) as [Ha Hb] by (unfold in_datetime; lia).
  destruct (times_are_their_texts _ _ Ha Hb) as (Hr & _ & Hc & _). split; [exact Hr|]. rewrite Hc. reflexivity.
Defined.
