(* ===== verification/Evaluation.v ===== *)
(** * Evaluations and improvement proposals ([evaluation.py], the first half)

    An evaluator records the result of a run on a dataset, which a verifier of
    results must attest; a proposal of an improvement gathers a held-in, a held-out
    and a sealed evaluation in this order.  The verifiers are functions of the
    attestation, a floating-point number is a [spec_float], and where the code hashes
    or logs a number the JSON value holds its [repr]. *)

From Stdlib Require Import Ascii.
From Stdlib Require SpecFloat.
From S2P Require Import Prelude PyStr Json Enums Contracts Scope Db Store Identity.
From S2P Require Import Leases Authority Gates Registries Policy Evidence Observations Context Promotions.

Local Open Scope string_scope.
Local Open Scope list_scope.
Local Open Scope Z_scope.

Definition _SPLITS : list string := ["held_in"; "held_out"; "sealed"].
Definition _EVAL_STATUSES : list string := ["pass"; "fail"; "error"].
Definition _EDITABLE_SURFACES : list string :=
  ["prompt_candidate"; "context_selection"; "workflow_parameter"; "evaluator_threshold"; "memory_candidate";
   "routing_candidate"].
Definition _PROTECTED_SURFACES : list string :=
  ["authority_order"; "capability_policy"; "event_store"; "event_integrity"; "heldout_dataset"; "evaluator_code";
   "security_policy"; "secrets"].

(** ** Metrics *)
Notation pyfloat := SpecFloat.spec_float.
Notation Metrics := (list (string * pyfloat)).

(** A value of the mapping: a truth value, a whole number, a float, or neither. *)
Inductive Number := N_bool (b : bool) | N_int (z : Z) | N_float (f : pyfloat) | N_other.

Definition isfinite (f : pyfloat) : bool :=
  match f with SpecFloat.S754_zero _ | SpecFloat.S754_finite _ _ _ => true | _ => false end.
(** [float(z)], to the nearest *)
Definition float_of_int (z : Z) : res pyfloat :=
  let f := SpecFloat.binary_normalize 53 1024 z 0 false in
  _ ← require (isfinite f) PyOverflowError; Ok f.
(** [result[name] = number] *)
Fixpoint set_metric (name : string) (f : pyfloat) (m : Metrics) : Metrics :=
  match m with
  | [] => [(name, f)]
  | (k, v) :: m => if bool_decide (k = name) then (k, f) :: m else (k, v) :: set_metric name f m
  end.
Fixpoint _metrics (result : Metrics) (v : list (string * Number)) : res Metrics :=
  match v with
  | [] => Ok result
  | (key, item) :: v =>
    name ← Promotions._text key;
    number ← match item with
             | N_int z => float_of_int z
             | N_float f => Ok f
             | N_bool _ | N_other => Raise ContractError
             end;
    _ ← require (isfinite number) ContractError;
    _metrics (set_metric name number result) v
  end.
(** Equality of dictionaries of floats. *)
Definition same_metrics (a b : Metrics) : bool :=
  bool_decide (length a = length b)
  && forallb (λ kv, match List.find (λ kv', bool_decide (kv'.1 = kv.1)) b with
                    | Some kv' => SpecFloat.SFeqb kv.2 kv'.2
                    | None => false
                    end) a.

(** ** Attestations and their verifiers *)
Record EvalResultAttestation := {
  ra_attestation_id : string; ra_proof : string; ra_eval_id : string; ra_project_id : string;
  ra_candidate_digest : string; ra_dataset_name : string; ra_dataset_split : string; ra_dataset_digest : string;
  ra_evaluator_principal_id : string; ra_evaluator_version : string; ra_status : string; ra_metrics : Metrics;
  ra_safety_failures : list string; ra_policy_version : string }.
Record SealedCustodyAttestation := {
  ca_attestation_id : string; ca_proof : string; ca_proposal_id : string; ca_eval_id : string;
  ca_project_id : string; ca_candidate_digest : string; ca_dataset_digest : string;
  ca_eval_attestation_digest : string; ca_evaluator_principal_id : string; ca_custody_provider : string;
  ca_custodian_id : string; ca_policy_version : string }.
#[export] Instance SealedCustodyAttestation_eq_dec : EqDecision SealedCustodyAttestation.
Proof. solve_decision. Defined.

(** A verifier: its type, its [authority_id] where it has one, and whether [verify]
    returns [None], or what it raises. *)
Record Verifier (A : Type) := {
  vf_module : string; vf_qualname : string; vf_authority_id : option string; vf_verify : A → res bool }.
Arguments vf_module {A}. Arguments vf_qualname {A}. Arguments vf_authority_id {A}. Arguments vf_verify {A}.

Definition DenyAllEvalResultVerifier : Verifier EvalResultAttestation := {|
  vf_module := "companyos_runtime.evaluation"; vf_qualname := "DenyAllEvalResultVerifier";
  vf_authority_id := Some "companyos.eval-result.deny-all.v1"; vf_verify := λ _, Raise AuthorizationError |}.
Definition DenyAllSealedCustodyVerifier : Verifier SealedCustodyAttestation := {|
  vf_module := "companyos_runtime.evaluation"; vf_qualname := "DenyAllSealedCustodyVerifier";
  vf_authority_id := Some "companyos.sealed-custody.deny-all.v1"; vf_verify := λ _, Raise AuthorizationError |}.

(** The registry: its identity, its command authority, its configuration. *)
Record EvaluationRegistry := {
  eg_self : nat; eg_command_authority : nat; eg_policy_version : string; eg_config_digest : string;
  eg_result_verifier : Verifier EvalResultAttestation;
  eg_sealed_custody_verifier : Verifier SealedCustodyAttestation }.

Module Evaluation.
Section registry.
Context `{ENV : Env}.
Import Promotions.

Definition _verifier_authority_id {A} (v : Verifier A) : res string :=
  explicit ← of_option (vf_authority_id v) AuthorizationError;
  _ ← require (negb (blank explicit)) AuthorizationError;
  Ok (content_hash (JObj
    [("authority_contract", JStr "verifier-implementation-v2"); ("implementation_module", JStr (vf_module v));
     ("implementation_qualname", JStr (vf_qualname v)); ("declared_authority_id", JStr (strip explicit))])).

(** The type of a verifier, as the domain pins it. *)
Definition type_name {A} (v : Verifier A) : string := vf_module v +:+ "." +:+ vf_qualname v.

(** [EvaluationRegistry.__init__], with the verifiers given or left to deny. *)
Definition new_EvaluationRegistry (o : Obj) (policy_version : string)
    (result_verifier : option (Verifier EvalResultAttestation))
    (sealed_custody_verifier : option (Verifier SealedCustodyAttestation)) : P EvaluationRegistry :=
  let result_verifier := default DenyAllEvalResultVerifier result_verifier in
  let sealed_custody_verifier := default DenyAllSealedCustodyVerifier sealed_custody_verifier in
  result_id ← lift_res (_verifier_authority_id result_verifier);
  custody_id ← lift_res (_verifier_authority_id sealed_custody_verifier);
  let config_digest := protected_authority_config_digest "evaluation_registry"
    [("policy_version", JStr policy_version); ("result_verifier", JStr result_id);
     ("sealed_custody_verifier", JStr custody_id)] in
  token ← _bind_protected_command_authority o "evaluation_registry" config_digest
            [type_name result_verifier; type_name sealed_custody_verifier];
  mret {| eg_self := o_id o; eg_command_authority := token; eg_policy_version := policy_version;
          eg_config_digest := config_digest; eg_result_verifier := result_verifier;
          eg_sealed_custody_verifier := sealed_custody_verifier |}.

Context (self : EvaluationRegistry).

(** An event of the registry. *)
Definition evaluation_event (aggregate_type aggregate_id : string) (expected_version : Z) (project_id : string)
    (run_id task_id : option string) (event_type actor correlation_id : string) (payload : dict) (command_id : string) :
    EventArgs := {|
  ea_aggregate_type := aggregate_type; ea_aggregate_id := aggregate_id; ea_expected_version := expected_version;
  ea_project_id := project_id; ea_event_type := event_type; ea_actor := actor; ea_command_id := command_id;
  ea_correlation_id := correlation_id; ea_policy_version := eg_policy_version self; ea_payload := payload;
  ea_auth_context := []; ea_auth_session := None; ea_command_authority := Some (eg_command_authority self);
  ea_command_owner := Some (eg_self self); ea_run_id := run_id; ea_task_id := task_id; ea_idempotency_key := None;
  ea_causation_id := None; ea_confidentiality := "internal"; ea_occurred_at := None |}.

(** ** Recording an evaluation *)
Definition clean_pass (e : EvalRow) : bool :=
  bool_decide (el_status e = "pass") && match el_safety_failures e with JList [] => true | _ => false end.

Definition metrics_json (m : Metrics) : json := JObj ((λ kv, (kv.1, JStr (float_repr kv.2))) <$> m).

Record EvalArgs := {
  rv_project_id : string; rv_candidate_digest : string; rv_dataset_name : string; rv_dataset_split : string;
  rv_dataset_digest : string; rv_evaluator_version : string; rv_status : string;
  rv_metrics : list (string * Number); rv_safety_failures : list string; rv_eval_id : option string }.

(** What is checked before the evaluator is asked for a role: project, candidate,
    and the dataset's name, split and digest. *)
Definition dataset_args (a : EvalArgs) : res (string * string * string * string * string) :=
  project_id ← _text (rv_project_id a);
  candidate_digest ← _digest (rv_candidate_digest a);
  dataset_name ← _text (rv_dataset_name a);
  dataset_split ← _text (rv_dataset_split a);
  _ ← require (memb (lower dataset_split) _SPLITS) ContractError;
  dataset_digest ← _digest (rv_dataset_digest a);
  Ok (project_id, candidate_digest, dataset_name, lower dataset_split, dataset_digest).
(** And after: the evaluator's version, the status, the metrics and the failures. *)
Definition result_args (a : EvalArgs) : res (string * string * Metrics * list string) :=
  evaluator_version ← _text (rv_evaluator_version a);
  status ← _text (rv_status a);
  _ ← require (memb (lower status) _EVAL_STATUSES) ContractError;
  metrics ← _metrics [] (rv_metrics a);
  failures ← mapR _text (rv_safety_failures a);
  Ok (evaluator_version, lower status, metrics, failures).

Definition same_attestation (a b : EvalResultAttestation) : bool :=
  bool_decide
    ((ra_attestation_id a, ra_proof a, ra_eval_id a, ra_project_id a, ra_candidate_digest a, ra_dataset_name a,
      ra_dataset_split a, ra_dataset_digest a, ra_evaluator_principal_id a, ra_evaluator_version a, ra_status a,
      ra_safety_failures a, ra_policy_version a)
     = (ra_attestation_id b, ra_proof b, ra_eval_id b, ra_project_id b, ra_candidate_digest b, ra_dataset_name b,
        ra_dataset_split b, ra_dataset_digest b, ra_evaluator_principal_id b, ra_evaluator_version b, ra_status b,
        ra_safety_failures b, ra_policy_version b))
  && same_metrics (ra_metrics a) (ra_metrics b).
(** The attestation without its proof. *)
Definition result_envelope (a : EvalResultAttestation) : dict :=
  [("attestation_id", JStr (ra_attestation_id a)); ("eval_id", JStr (ra_eval_id a));
   ("project_id", JStr (ra_project_id a)); ("candidate_digest", JStr (ra_candidate_digest a));
   ("dataset_name", JStr (ra_dataset_name a)); ("dataset_split", JStr (ra_dataset_split a));
   ("dataset_digest", JStr (ra_dataset_digest a)); ("evaluator_principal_id", JStr (ra_evaluator_principal_id a));
   ("evaluator_version", JStr (ra_evaluator_version a)); ("status", JStr (ra_status a));
   ("metrics", metrics_json (ra_metrics a)); ("safety_failures", jstrs (ra_safety_failures a));
   ("policy_version", JStr (ra_policy_version a))].

(** The row of an attested result. *)
Definition eval_row (a : EvalResultAttestation) (metrics : Metrics) (attestation_digest : string) (now : Instant) : EvalRow := {|
  el_id := ra_eval_id a; el_project_id := ra_project_id a; el_candidate_digest := ra_candidate_digest a;
  el_dataset_name := ra_dataset_name a; el_dataset_split := ra_dataset_split a;
  el_dataset_digest := ra_dataset_digest a; el_evaluator := ra_evaluator_principal_id a;
  el_evaluator_version := ra_evaluator_version a; el_status := ra_status a; el_metrics := metrics;
  el_safety_failures := jstrs (ra_safety_failures a); el_attestation_id := ra_attestation_id a;
  el_attestation_digest := attestation_digest; el_created_at := now |}.
(** Equal in every column but [created_at]. *)
Definition same_eval (a b : EvalRow) : bool :=
  bool_decide
    ((el_project_id a, el_candidate_digest a, el_dataset_name a, el_dataset_split a, el_dataset_digest a,
      el_evaluator a, el_evaluator_version a, el_status a, el_attestation_id a, el_attestation_digest a)
     = (el_project_id b, el_candidate_digest b, el_dataset_name b, el_dataset_split b, el_dataset_digest b,
        el_evaluator b, el_evaluator_version b, el_status b, el_attestation_id b, el_attestation_digest b))
  && same_metrics (el_metrics a) (el_metrics b)
  && same_json (el_safety_failures a) (el_safety_failures b).

(** A sealed dataset that some evaluation has used. *)
Definition burned (d : DB) (dataset_digest : string) : bool :=
  existsb (λ e, bool_decide (el_dataset_split e = "sealed") && bool_decide (el_dataset_digest e = dataset_digest))
    (rows (eval_runs (knowledge (effects (registry d))))).

Definition eval_payload (e : EvalRow) : dict :=
  [("candidate_digest", JStr (el_candidate_digest e)); ("dataset_name", JStr (el_dataset_name e));
   ("dataset_split", JStr (el_dataset_split e)); ("dataset_digest", JStr (el_dataset_digest e));
   ("evaluator", JStr (el_evaluator e)); ("evaluator_version", JStr (el_evaluator_version e));
   ("status", JStr (el_status e)); ("metrics", metrics_json (el_metrics e));
   ("safety_failures", el_safety_failures e); ("attestation_id", JStr (el_attestation_id e));
   ("attestation_digest", JStr (el_attestation_digest e)); ("result_influenced_edits", JBool false)].

Definition insert_eval (e : EvalRow) : P unit :=
  _ ← constraint (λ d, absent (eval_runs (knowledge (effects (registry d)))) (el_id e)
        && negb (existsb (λ f, bool_decide (el_attestation_id f = el_attestation_id e))
                   (rows (eval_runs (knowledge (effects (registry d)))))));
  write (set_eval_runs <[el_id e := e]>).

Definition record_eval (a : EvalArgs) (evaluator : VerifiedPrincipal) (attestation : EvalResultAttestation) : P EvalRow :=
  dataset ← lift_res (dataset_args a);
  let '(project_id, candidate_digest, dataset_name, dataset_split, dataset_digest) := dataset in
  evaluator_record ← require_role evaluator R_EVALUATOR;
  let evaluator_id := pr_id evaluator_record in
  result ← lift_res (result_args a);
  let '(evaluator_version, status, metrics, failures) := result in
  eval_id ← given_or_new (rv_eval_id a);
  eval_id ← lift_res (_text eval_id);
  attestation_id ← lift_res (_text (ra_attestation_id attestation));
  let expected := {| ra_attestation_id := attestation_id; ra_proof := ra_proof attestation; ra_eval_id := eval_id;
    ra_project_id := project_id; ra_candidate_digest := candidate_digest; ra_dataset_name := dataset_name;
    ra_dataset_split := dataset_split; ra_dataset_digest := dataset_digest;
    ra_evaluator_principal_id := evaluator_id; ra_evaluator_version := evaluator_version; ra_status := status;
    ra_metrics := metrics; ra_safety_failures := failures; ra_policy_version := eg_policy_version self |} in
  _ ← ensure (same_attestation attestation expected) AuthorizationError;
  verified ← lift_res (vf_verify (eg_result_verifier self) attestation);
  _ ← ensure verified AuthorizationError;
  now ← utc_now;
  let row := eval_row expected metrics (content_hash (JObj (result_envelope attestation))) now in
  transaction (
    live ← require_role_in_transaction evaluator R_EVALUATOR;
    _ ← ensure (bool_decide (pr_id live = evaluator_id)) AuthorizationError;
    existing ← read (λ d, eval_runs (knowledge (effects (registry d))) !! eval_id);
    match existing with
    | Some prior => _ ← ensure (same_eval prior row) ContractError; mret prior
    | None =>
      used ← read (λ d, burned d dataset_digest);
      _ ← ensure (negb (bool_decide (dataset_split = "sealed") && used)) AuthorizationError;
      command_id ← new_uuid;
      _ ← append_event (evaluation_event "eval" eval_id 0 project_id None None "eval_recorded" evaluator_id eval_id
            (eval_payload row) command_id);
      _ ← insert_eval row;
      mret row
    end).

(** ** Proposals *)
Record ProposeArgs := {
  pa_project_id : string; pa_source_run_id : string; pa_hypothesis : string; pa_candidate_digest : string;
  pa_editable_surface : string; pa_expected_benefit : string; pa_risk : string; pa_rollback_route : string }.
Definition propose_args (a : ProposeArgs) : res ProposeArgs :=
  project_id ← _text (pa_project_id a);
  source_run_id ← _text (pa_source_run_id a);
  hypothesis ← _text (pa_hypothesis a);
  candidate_digest ← _digest (pa_candidate_digest a);
  editable_surface ← _text (pa_editable_surface a);
  _ ← require (negb (memb editable_surface _PROTECTED_SURFACES) && memb editable_surface _EDITABLE_SURFACES)
        AuthorizationError;
  expected_benefit ← _text (pa_expected_benefit a);
  risk ← _text (pa_risk a);
  rollback_route ← _text (pa_rollback_route a);
  Ok {| pa_project_id := project_id; pa_source_run_id := source_run_id; pa_hypothesis := hypothesis;
        pa_candidate_digest := candidate_digest; pa_editable_surface := editable_surface;
        pa_expected_benefit := expected_benefit; pa_risk := risk; pa_rollback_route := rollback_route |}.

Definition proposal_row (a : ProposeArgs) (proposal_id : string) (now : Instant) : Proposal := {|
  ip_id := proposal_id; ip_project_id := pa_project_id a; ip_source_run_id := pa_source_run_id a;
  ip_hypothesis := pa_hypothesis a; ip_candidate_digest := pa_candidate_digest a;
  ip_editable_surface := pa_editable_surface a; ip_expected_benefit := pa_expected_benefit a; ip_risk := pa_risk a;
  ip_rollback_route := pa_rollback_route a; ip_held_in_eval_id := None; ip_held_out_eval_id := None;
  ip_sealed_eval_id := None; ip_state := P_CANDIDATE; ip_owner_approval_id := None; ip_created_at := now;
  ip_updated_at := now |}.
Definition proposal_payload (p : Proposal) : dict :=
  [("hypothesis", JStr (ip_hypothesis p)); ("candidate_digest", JStr (ip_candidate_digest p));
   ("editable_surface", JStr (ip_editable_surface p)); ("expected_benefit", JStr (ip_expected_benefit p));
   ("risk", JStr (ip_risk p)); ("rollback_route", JStr (ip_rollback_route p))].

Definition insert_proposal (p : Proposal) : P unit :=
  _ ← constraint (λ d, absent (proposals (registry d)) (ip_id p));
  write (set_proposals <[ip_id p := p]>).

Definition propose (args : ProposeArgs) (proposer : VerifiedPrincipal) (proposal_id : option string) : P Proposal :=
  a ← lift_res (propose_args args);
  proposal_id ← given_or_new proposal_id;
  proposal_id ← lift_res (_text proposal_id);
  now ← utc_now;
  transaction (
    proposer_record ← verify_in_transaction proposer;
    _ ← ensure (existsb (λ r, memb r [R_WORKER; R_SYSTEM]) (pr_roles proposer_record)) AuthorizationError;
    run ← read (λ d, runs d !! pa_source_run_id a);
    _ ← expect (r ← run; if bool_decide (ru_project_id r = pa_project_id a) then Some r else None) NotFoundError;
    let row := proposal_row a proposal_id now in
    command_id ← new_uuid;
    _ ← append_event (evaluation_event "improvement" proposal_id 0 (ip_project_id row) (Some (ip_source_run_id row)) None
          "improvement_proposed" (pr_id proposer_record) (ip_source_run_id row) (proposal_payload row) command_id);
    _ ← insert_proposal row;
    mret row).

(** ** Attaching an evaluation to a proposal *)

(** The rows of a query of the log, with their sequence numbers. *)
Definition log (d : DB) : list (Z * Event) := imap (λ i e, (Z.of_nat (S i), e)) (events d).
Definition events_of (d : DB) (aggregate_type aggregate_id event_type : string) : list (Z * Event) :=
  List.filter (λ se, bool_decide ((ev_aggregate_type se.2, ev_aggregate_id se.2, ev_event_type se.2)
                                  = (aggregate_type, aggregate_id, event_type))) (log d).

(** Who proposed, where the log says so. *)
Definition proposer_of (d : DB) (proposal_id : string) : option string :=
  (λ se, ev_actor se.2) <$> head (events_of d "improvement" proposal_id "improvement_proposed").

Definition promoted_to (state : ProposalState) (se : Z * Event) : bool :=
  match dget (payload_dict (ev_payload se.2)) "to" with
  | Some (JStr s) => bool_decide (s = value state)
  | _ => false
  end.
(** When the proposal last became limited. *)
Definition limited_at (d : DB) (proposal_id : string) : option Instant :=
  (λ se, ev_recorded_at se.2)
    <$> last (List.filter (promoted_to P_LIMITED) (events_of d "improvement" proposal_id "improvement_promoted")).

Definition eval_of (d : DB) (o : option string) : option EvalRow :=
  i ← o; eval_runs (knowledge (effects (registry d))) !! i.

(** The state that attaching an evaluation takes the proposal to. *)
Definition attach_target (d : DB) (p : Proposal) (e : EvalRow) : res ProposalState :=
  if negb (clean_pass e) then Ok P_REJECTED
  else if bool_decide (el_dataset_split e = "held_in") then
    _ ← require (bool_decide (ip_held_in_eval_id p = None)) TransitionError; Ok P_HELDOUT_PENDING
  else if bool_decide (el_dataset_split e = "held_out") then
    _ ← require (bool_decide (ip_state p = P_HELDOUT_PENDING)
                 && negb (bool_decide (ip_held_in_eval_id p = None))) TransitionError;
    held_in ← of_option (eval_of d (ip_held_in_eval_id p)) PyTypeError;
    _ ← require (negb (bool_decide (el_dataset_digest held_in = el_dataset_digest e))) ContractError;
    Ok P_OWNER_REVIEW
  else
    _ ← require (bool_decide (ip_state p = P_LIMITED)
                 && negb (bool_decide (ip_held_out_eval_id p = None))) TransitionError;
    _ ← require (bool_decide (ip_sealed_eval_id p = None)) TransitionError;
    _ ← require (match limited_at d (ip_id p) with Some t => t <? el_created_at e | None => false end) TransitionError;
    let prior := omap (eval_of d) [ip_held_in_eval_id p; ip_held_out_eval_id p] in
    _ ← require (negb (memb (el_dataset_digest e) (el_dataset_digest <$> prior))) ContractError;
    Ok P_LIMITED.

(** [UPDATE improvement_proposals SET {column} = ?, state = ?, updated_at = ?] *)
Definition attached (split eval_id : string) (state : ProposalState) (now : Instant) (p : Proposal) : Proposal := {|
  ip_id := ip_id p; ip_project_id := ip_project_id p; ip_source_run_id := ip_source_run_id p;
  ip_hypothesis := ip_hypothesis p; ip_candidate_digest := ip_candidate_digest p;
  ip_editable_surface := ip_editable_surface p; ip_expected_benefit := ip_expected_benefit p; ip_risk := ip_risk p;
  ip_rollback_route := ip_rollback_route p;
  ip_held_in_eval_id := if bool_decide (split = "held_in") then Some eval_id else ip_held_in_eval_id p;
  ip_held_out_eval_id := if bool_decide (split = "held_out") then Some eval_id else ip_held_out_eval_id p;
  ip_sealed_eval_id := if bool_decide (split = "sealed") then Some eval_id else ip_sealed_eval_id p;
  ip_state := state; ip_owner_approval_id := ip_owner_approval_id p; ip_created_at := ip_created_at p;
  ip_updated_at := now |}.

Definition attach_payload (e : EvalRow) (state : ProposalState) : dict :=
  [("eval_id", JStr (el_id e)); ("dataset_split", JStr (el_dataset_split e)); ("clean_pass", JBool (clean_pass e));
   ("state", JStr (value state))].

Definition attach_eval (proposal_id eval_id : string) (actor : VerifiedPrincipal) : P Proposal :=
  proposal_id ← lift_res (_text proposal_id);
  eval_id ← lift_res (_text eval_id);
  transaction (
    actor_record ← require_role_in_transaction actor R_SYSTEM;
    d ← read id;
    p ← expect (proposals (registry d) !! proposal_id) NotFoundError;
    e ← expect (eval_of d (Some eval_id)) NotFoundError;
    _ ← ensure (match proposer_of d proposal_id with
                | Some proposer => negb (bool_decide (proposer = el_evaluator e))
                | None => false
                end) AuthorizationError;
    _ ← ensure (bool_decide (el_project_id e = ip_project_id p)
                && bool_decide (el_candidate_digest e = ip_candidate_digest p)) ContractError;
    target_state ← lift_res (attach_target d p e);
    let version := head_version d "improvement" proposal_id in
    command_id ← new_uuid;
    _ ← append_event (evaluation_event "improvement" proposal_id version (ip_project_id p) (Some (ip_source_run_id p)) None
          "improvement_eval_attached" (pr_id actor_record) (ip_source_run_id p) (attach_payload e target_state) command_id);
    now ← utc_now;
    _ ← write (set_proposals (alter (attached (el_dataset_split e) eval_id target_state now) proposal_id));
    mret (attached (el_dataset_split e) eval_id target_state now p)).
End registry.
End Evaluation.
