(* ===== verification/Rules.v ===== *)
(** * Promotion of rules ([evaluation.py], the second half)

    A proposal becomes limited and then active behind an owner's exact approval.
    Before that, and whenever a record of promotion is read back, the tables are
    checked against the append-only log: every row that the promotion rests on must
    be what one event of the right authority says, and the events must come in the
    right order.  These checks read one snapshot, and are functions of it. *)

From Stdlib Require Import Ascii.
From S2P Require Import Prelude PyStr Json Enums StateMachine Contracts Scope Db Store Identity.
From S2P Require Import Leases Scheduler Authority Gates Registries Policy Evidence Observations Context Promotions.
From S2P Require Import Evaluation.

Local Open Scope string_scope.
Local Open Scope list_scope.
Local Open Scope Z_scope.

Module Rules.
Section rules.
Context `{ENV : Env}.
Import Promotions Evaluation.
Context (self : EvaluationRegistry).

(** A row of the log with its sequence number. *)
Notation Logged := (Z * Event)%type.
Definition MAX_SEQ : Z := 2 ^ 63 - 1.
(** [upper_bound]: [before_seq], or the largest sequence number. *)
Definition upper_bound (before_seq : option Z) : Z := default MAX_SEQ before_seq.

(** The one event of a kind, which must be unique. *)
Definition the_event (es : list Logged) : res Logged :=
  match es with [e] => Ok e | _ => Raise IntegrityError end.
(** The event is of the proposal: project, run, task, correlation and policy. *)
Definition of_proposal (p : Proposal) (task_id : option string) (e : Event) : bool :=
  bool_decide (ev_project_id e = ip_project_id p) && bool_decide (ev_run_id e = Some (ip_source_run_id p))
  && bool_decide (ev_task_id e = task_id) && bool_decide (ev_correlation_id e = ip_source_run_id p)
  && bool_decide (ev_policy_version e = eg_policy_version self).
(** [_verify_protected_event_authority] with this registry's own authority. *)
Definition own_authority (e : Event) : res string :=
  _verify_protected_event_authority e "evaluation_registry" (eg_config_digest self).

(** ** The sources of a promotion *)

(** [_verified_eval_event] *)
Definition _verified_eval_event (d : DB) (e : EvalRow) : res Logged :=
  event ← the_event (events_of d "eval" (el_id e) "eval_recorded");
  _ ← own_authority event.2;
  _ ← require (same_json (ev_payload event.2) (JObj (eval_payload e))
        && bool_decide (ev_project_id event.2 = el_project_id e) && (ev_aggregate_version event.2 =? 1)
        && bool_decide (ev_run_id event.2 = None) && bool_decide (ev_task_id event.2 = None)
        && bool_decide (ev_actor event.2 = el_evaluator e) && bool_decide (ev_correlation_id event.2 = el_id e)
        && bool_decide (ev_policy_version event.2 = eg_policy_version self)
        && (el_created_at e <=? ev_occurred_at event.2)) IntegrityError;
  Ok event.

(** The state that the attachment of a passing evaluation leads to. *)
Definition split_target (split : string) : ProposalState :=
  if bool_decide (split = "held_in") then P_HELDOUT_PENDING
  else if bool_decide (split = "held_out") then P_OWNER_REVIEW else P_LIMITED.
Definition attaches (eval_id : string) (se : Logged) : bool :=
  match dget (payload_dict (ev_payload se.2)) "eval_id" with
  | Some (JStr s) => bool_decide (s = eval_id)
  | _ => false
  end.
(** [_verified_eval_attachment_event] *)
Definition _verified_eval_attachment_event (d : DB) (p : Proposal) (e : EvalRow) (evaluation_event : Logged)
    (before_seq : option Z) : res Logged :=
  event ← the_event (List.filter (attaches (el_id e)) (events_of d "improvement" (ip_id p) "improvement_eval_attached"));
  _ ← own_authority event.2;
  _ ← require (same_json (ev_payload event.2) (JObj (attach_payload e (split_target (el_dataset_split e))))
        && of_proposal p None event.2
        && (evaluation_event.1 <? event.1) && (event.1 <? upper_bound before_seq)) IntegrityError;
  Ok event.

(** [_verified_proposal_event] *)
Definition _verified_proposal_event (d : DB) (p : Proposal) : res Logged :=
  event ← the_event (events_of d "improvement" (ip_id p) "improvement_proposed");
  _ ← own_authority event.2;
  _ ← require (same_json (ev_payload event.2) (JObj (proposal_payload p)) && (ev_aggregate_version event.2 =? 1)
        && of_proposal p None event.2 && (ip_created_at p <=? ev_occurred_at event.2)) IntegrityError;
  Ok event.

(** [promotion_resource] *)
Definition promotion_resource (proposal_id : string) : res string :=
  proposal_id ← _text proposal_id; Ok ("improvement://proposals/" +:+ proposal_id).
Definition promotion_action (target : ProposalState) : string := "promote_improvement:" +:+ value target.

(** The payload of the event that decided an approval. *)
Definition approval_payload (a : Approval) : dict :=
  [("requester", JStr (av_requester a)); ("capability", JStr (av_capability a)); ("action", JStr (av_action a));
   ("resource", JStr (av_resource a)); ("request_digest", JStr (av_request_digest a));
   ("decision", JStr (av_decision a)); ("expires_at", Engine.jtime (av_expires_at a));
   ("authority_binding_digest", jopt (av_binding_digest a));
   ("authority_binding_version", Engine.jint (av_binding_version a)); ("decision_gate", jopt (av_decision_gate a))].

(** What the row of the approval says: this promotion of this proposal, requested
    by its maker, decided after the evaluation that it rests on. *)
Definition approval_row_ok (d : DB) (a : Approval) (p : Proposal) (maker_id : string) (target : ProposalState)
    (gate_eval : EvalRow) (resource request_digest expected_task_id : string) (decided_at expires_at : Instant) : bool :=
  match runs d !! ip_source_run_id p, tasks d !! av_task_id a with
  | Some run, Some task =>
    bool_decide (ru_project_id run = ip_project_id p) && bool_decide (av_project_id a = ip_project_id p)
    && bool_decide (av_goal_id a = ru_goal_id run) && bool_decide (av_run_id a = ip_source_run_id p)
    && bool_decide (t_project_id task = ip_project_id p) && bool_decide (t_goal_id task = ru_goal_id run)
    && bool_decide (t_run_id task = Some (ip_source_run_id p)) && bool_decide (av_task_id a = expected_task_id)
    && bool_decide (av_requester a = maker_id)
    && match av_approver a with Some approver => negb (bool_decide (approver = "")) | None => false end
    && bool_decide (av_capability a = value C_ACTIVE_RULE_PROMOTION) && bool_decide (av_action a = promotion_action target)
    && bool_decide (av_resource a = resource) && bool_decide (av_request_digest a = request_digest)
    && bool_decide (av_policy_version a = eg_policy_version self) && bool_decide (av_decision a = "approved")
    && (av_requested_at a =? decided_at) && (el_created_at gate_eval <? decided_at) && (decided_at <? expires_at)
  | _, _ => false
  end.
(** The promotion that the approval served, when there is one already. *)
Definition served_ok (d : DB) (p : Proposal) (expected_task_id : string) (approval_seq : Z)
    (occurred_at expires_at : Instant) (before_seq : option Z) : bool :=
  match before_seq with
  | None => true
  | Some seq =>
    match List.find (λ se, se.1 =? seq) (log d) with
    | Some promotion =>
      (approval_seq <? seq) && bool_decide (ev_project_id promotion.2 = ip_project_id p)
      && bool_decide (ev_run_id promotion.2 = Some (ip_source_run_id p))
      && bool_decide (ev_task_id promotion.2 = Some expected_task_id)
      && (occurred_at <=? ev_occurred_at promotion.2) && (ev_occurred_at promotion.2 <? expires_at)
    | None => false
    end
  end.
(** [_verified_approval_authority] *)
Definition _verified_approval_authority (d : DB) (a : Approval) (p : Proposal) (maker_id : string)
    (target : ProposalState) (gate_eval : EvalRow) (gate_eval_event : Logged)
    (expected_request_digest expected_task_id : string) (before_seq : option Z) : res Logged :=
  resource ← promotion_resource (ip_id p);
  request_digest ← _digest expected_request_digest;
  decided_at ← of_option (av_decided_at a) ContractError;
  expires_at ← of_option (av_expires_at a) ContractError;
  _ ← require (approval_row_ok d a p maker_id target gate_eval resource request_digest expected_task_id
                 decided_at expires_at) IntegrityError;
  event ← the_event (events_of d "approval" (av_id a) "approval_decided");
  _ ← _verify_protected_event_authority event.2 "policy_engine" (protected_authority_config_digest "policy_engine" []);
  let occurred_at := ev_occurred_at event.2 in
  _ ← require (same_json (ev_payload event.2) (JObj (approval_payload a)) && (ev_aggregate_version event.2 =? 1)
        && bool_decide (ev_project_id event.2 = av_project_id a) && bool_decide (ev_run_id event.2 = Some (av_run_id a))
        && bool_decide (ev_task_id event.2 = Some (av_task_id a)) && bool_decide (Some (ev_actor event.2) = av_approver a)
        && bool_decide (ev_correlation_id event.2 = av_run_id a)
        && bool_decide (ev_policy_version event.2 = av_policy_version a)
        && (decided_at <=? occurred_at) && (occurred_at <? expires_at) && (gate_eval_event.1 <? event.1)) IntegrityError;
  _ ← require (served_ok d p expected_task_id event.1 occurred_at expires_at before_seq) IntegrityError;
  Ok event.

(** [_eval_dataset_use_count] *)
Definition uses_dataset (split digest : string) (se : Logged) : bool :=
  let payload := payload_dict (ev_payload se.2) in
  match dget payload "dataset_split", dget payload "dataset_digest" with
  | Some (JStr s), Some (JStr g) => bool_decide (s = split) && bool_decide (g = digest)
  | _, _ => false
  end.
Definition _eval_dataset_use_count (d : DB) (split digest : string) (before_seq : option Z) : res Z :=
  let es := List.filter (λ se,
    bool_decide ((ev_aggregate_type se.2, ev_event_type se.2) = ("eval", "eval_recorded"))
    && match before_seq with Some b => se.1 <? b | None => true end) (log d) in
  _ ← require (forallb (λ se, match ev_payload se.2 with JObj _ => true | _ => false end) es) IntegrityError;
  Ok (Z.of_nat (length (List.filter (uses_dataset split digest) es))).

(** ** The evidence of the source task *)

(** The row: a passing verification of the task, by the target of its specification. *)
Definition source_evidence (d : DB) (p : Proposal) (source_task_id evidence_id : string) : res (TaskRow * EvidenceClaim) :=
  found ← of_option (run ← runs d !! ip_source_run_id p; task ← tasks d !! source_task_id; Some (run, task))
            TransitionError;
  let '(run, task) := found in
  _ ← require (bool_decide (ru_project_id run = ip_project_id p) && bool_decide (t_project_id task = ip_project_id p)
        && bool_decide (t_run_id task = Some (ip_source_run_id p)) && bool_decide (t_goal_id task = ru_goal_id run)
        && bool_decide (ru_loop_state run = L_DELIVERED) && bool_decide (t_state task = T_DELIVERED)) TransitionError;
  evidence ← of_option (e ← evidence_claims (registry d) !! evidence_id;
                        if bool_decide (ec_task_id e = source_task_id) then Some e else None) TransitionError;
  _ ← require (bool_decide (ec_project_id evidence = ip_project_id p)
        && bool_decide (ec_run_id evidence = ip_source_run_id p)
        && bool_decide (ec_evidence_state evidence = ts_evidence_target (t_spec task))
        && memb (ec_evidence_state evidence) _VERIFICATION_STATES
        && memb (ec_evaluator_verdict evidence) _PASSING_EVALUATOR) TransitionError;
  Ok (task, evidence).

(** Its artifacts, all of the task. *)
Definition source_artifacts (d : DB) (evidence : EvidenceClaim) (source_task_id : string) : res (list Artifact) :=
  refs ← match ec_artifact_refs evidence, ec_non_claims evidence with
         | JList l, JList _ => mapR (λ j, match j with
                                         | JStr s => if bool_decide (s = "") then Raise IntegrityError else Ok s
                                         | _ => Raise IntegrityError
                                         end) l
         | _, _ => Raise IntegrityError
         end;
  _ ← require (negb (bool_decide (refs = []))) IntegrityError;
  let found := order_by (λ a b, str_leb (at_id a) (at_id b)) (EvidenceOps.found_artifacts d (fromkeys refs)) in
  _ ← require (bool_decide (length found = length (fromkeys refs))
               && forallb (λ a, bool_decide (at_task_id a = source_task_id)) found) IntegrityError;
  Ok found.

Definition evidence_authority_digest : string :=
  protected_authority_config_digest "evidence_registry" [("policy_version", JStr (eg_policy_version self))].
(** The sequence number of the event that registered an artifact, once it matches the row. *)
Definition artifact_seq (d : DB) (p : Proposal) (source_task_id : string) (a : Artifact) : res Z :=
  event ← the_event (events_of d "artifact" (at_id a) "artifact_registered");
  _ ← _verify_protected_event_authority event.2 "evidence_registry" evidence_authority_digest;
  _ ← require (same_json (ev_payload event.2) (JObj (EvidenceOps.artifact_payload a))
        && (ev_aggregate_version event.2 =? 1) && of_proposal p (Some source_task_id) event.2
        && bool_decide (ev_actor event.2 = at_producer_principal_id a)
        && bool_decide (ev_confidentiality event.2 = at_confidentiality a)
        && (at_created_at a <=? ev_occurred_at event.2)) IntegrityError;
  Ok event.1.
Definition artifact_envelope (a : Artifact) (seq : Z) : json := JObj
  (EvidenceOps.artifact_payload a ++ [("artifact_id", JStr (at_id a)); ("event_seq", JInt seq)]).

Definition payload_has (k v : string) (se : Logged) : bool :=
  match dget (payload_dict (ev_payload se.2)) k with Some (JStr s) => bool_decide (s = v) | _ => false end.
Definition payload_in (k : string) (vs : list string) (se : Logged) : bool := existsb (λ v, payload_has k v se) vs.
Definition accepting_states : list string := [value T_EVIDENCE_PENDING; value T_EVALUATOR_PENDING].
Definition accepted_states : list string := [value T_EVALUATOR_PENDING; value T_INTEGRATION_PENDING].
(** The event that accepted the evidence. *)
Definition acceptance_ok (evidence_id : string) (se : Logged) : bool :=
  same_keys ["from"; "target"; "reason"; "accepted_evidence_id"] (payload_dict (ev_payload se.2))
  && payload_has "accepted_evidence_id" evidence_id se && payload_in "from" accepting_states se
  && payload_in "target" accepted_states se
  && match dget (payload_dict (ev_payload se.2)) "reason" with Some (JStr s) => negb (blank s) | _ => false end.
(** The events that delivered the task and the run. *)
Definition task_delivery_ok (se : Logged) : bool :=
  same_keys ["from"; "target"; "reason"] (payload_dict (ev_payload se.2))
  && payload_has "from" (value T_INTEGRATION_PENDING) se && payload_has "target" (value T_DELIVERED) se.
Definition run_delivery_ok (se : Logged) : bool :=
  payload_has "event" "delivery_confirmed" se
  && match dget (payload_dict (ev_payload se.2)) "payload" with Some (JObj []) => true | _ => false end
  && match dget (payload_dict (ev_payload se.2)) "guards" with
     | Some (JObj (g :: gs)) => forallb (λ kv, match kv.2 with JBool true => true | _ => false end) (g :: gs)
     | _ => false
     end.

(** [provenance.real_task_eligible] of what is persisted. *)
Definition real_provenance (evidence : EvidenceClaim) (found : list Artifact) : res unit :=
  match Evidence.classify_promotion_provenance (ec_environment evidence) found with
  | Raise EvidenceError => Raise TransitionError
  | Raise e => Raise e
  | Ok provenance => require (Evidence.real_task_eligible provenance) TransitionError
  end.

Definition source_envelope (evidence : EvidenceClaim) (found : list Artifact) (seqs : list Z)
    (recorded accepted delivered run_delivered : Z) : dict :=
  EvidenceOps.claim_payload evidence ++
  [("evidence_id", JStr (ec_id evidence)); ("project_id", JStr (ec_project_id evidence));
   ("run_id", JStr (ec_run_id evidence)); ("task_id", JStr (ec_task_id evidence));
   ("artifacts", JList (zip_with artifact_envelope found seqs)); ("evidence_event_seq", JInt recorded);
   ("acceptance_event_seq", JInt accepted); ("task_delivery_event_seq", JInt delivered);
   ("run_delivery_event_seq", JInt run_delivered)].

(** The event that recorded the evidence, once it matches the row. *)
Definition evidence_event_of (d : DB) (p : Proposal) (source_task_id : string) (evidence : EvidenceClaim) : res Logged :=
  event ← the_event (events_of d "evidence" (ec_id evidence) "evidence_claim_recorded");
  _ ← _verify_protected_event_authority event.2 "evidence_registry" evidence_authority_digest;
  _ ← require (same_json (ev_payload event.2) (JObj (EvidenceOps.claim_payload evidence))
        && (ev_aggregate_version event.2 =? 1) && of_proposal p (Some source_task_id) event.2
        && bool_decide (ev_actor event.2 = ec_verifier_principal_id evidence)) IntegrityError;
  Ok event.

(** [_verified_limited_source_evidence]: the evidence, the digest of its envelope
    and the sequence number of the delivery of the run. *)
Definition _verified_limited_source_evidence (d : DB) (p : Proposal) (source_task_id evidence_id : string)
    (before_seq : option Z) : res (EvidenceClaim * string * Z) :=
  source ← source_evidence d p source_task_id evidence_id;
  let evidence := source.2 in
  found ← source_artifacts d evidence source_task_id;
  seqs ← mapR (artifact_seq d p source_task_id) found;
  recorded ← evidence_event_of d p source_task_id evidence;
  _ ← real_provenance evidence found;
  let changes := events_of d "task" source_task_id "task_state_changed" in
  let accepted := List.filter (payload_has "accepted_evidence_id" evidence_id) changes in
  let delivered := List.filter (payload_has "target" (value T_DELIVERED)) changes in
  accepted ← the_event accepted;
  delivered ← the_event delivered;
  run_delivered ← the_event (events_of d "run" (ip_source_run_id p) "delivery_confirmed");
  _ ← require (acceptance_ok evidence_id accepted) IntegrityError;
  _ ← require (of_proposal p (Some source_task_id) accepted.2
        && task_delivery_ok delivered && of_proposal p (Some source_task_id) delivered.2
        && run_delivery_ok run_delivered && of_proposal p None run_delivered.2
        && forallb (λ seq, seq <? recorded.1) seqs
        && (recorded.1 <? accepted.1) && (accepted.1 <? delivered.1) && (delivered.1 <? run_delivered.1)
        && (run_delivered.1 <? upper_bound before_seq)) IntegrityError;
  Ok (evidence,
      content_hash (JObj (source_envelope evidence found seqs recorded.1 accepted.1 delivered.1 run_delivered.1)),
      run_delivered.1).
(** ** The limited promotion *)
Record LimitedArgs := {
  la_source_task_id : string; la_verification_evidence_id : string; la_scope : string; la_actual_outcome_kind : string;
  la_actual_outcome : string; la_non_goals : list string; la_review_condition : string;
  la_rollback_or_retirement_path : string; la_non_claim_boundary : string }.
Definition args_of (r : LimitedRulePromotionRequest) : LimitedArgs := {|
  la_source_task_id := lr_source_task_id r; la_verification_evidence_id := lr_verification_evidence_id r;
  la_scope := lr_scope r; la_actual_outcome_kind := lr_actual_outcome_kind r;
  la_actual_outcome := lr_actual_outcome r; la_non_goals := lr_non_goals r;
  la_review_condition := lr_review_condition r;
  la_rollback_or_retirement_path := lr_rollback_or_retirement_path r;
  la_non_claim_boundary := lr_non_claim_boundary r |}.

(** The held-out evaluation of the proposal, which passed cleanly. *)
Definition heldout_of (d : DB) (p : Proposal) : res EvalRow :=
  heldout ← of_option (eval_of d (ip_held_out_eval_id p)) TransitionError;
  _ ← require (clean_pass heldout && bool_decide (el_dataset_split heldout = "held_out")
        && bool_decide (el_project_id heldout = ip_project_id p)
        && bool_decide (el_candidate_digest heldout = ip_candidate_digest p)) TransitionError;
  Ok heldout.

(** [_build_limited_request] *)
Definition _build_limited_request (d : DB) (p : Proposal) (a : LimitedArgs) (before_seq : option Z) :
    res LimitedRulePromotionRequest :=
  _ ← require (memb (ip_state p) [P_OWNER_REVIEW; P_LIMITED; P_ACTIVE]) TransitionError;
  heldout ← heldout_of d p;
  heldout_event ← _verified_eval_event d heldout;
  _ ← _verified_eval_attachment_event d p heldout heldout_event before_seq;
  source_task_id ← _text (la_source_task_id a);
  evidence_id ← _text (la_verification_evidence_id a);
  verified ← _verified_limited_source_evidence d p source_task_id evidence_id before_seq;
  let '(evidence, evidence_digest, _) := verified in
  outcome ← _text (la_actual_outcome a);
  _ ← require (bool_decide (outcome = ec_claim evidence)) ContractError;
  rollback ← _text (la_rollback_or_retirement_path a);
  _ ← require (bool_decide (rollback = ip_rollback_route p)) ContractError;
  query_count ← _eval_dataset_use_count d "held_out" (el_dataset_digest heldout) before_seq;
  scope ← _bounded_scope (la_scope a) (ip_project_id p);
  kind ← _text (la_actual_outcome_kind a);
  non_goals ← _strings (la_non_goals a);
  review_condition ← _text (la_review_condition a);
  non_claim_boundary ← _text (la_non_claim_boundary a);
  let r := {|
    lr_candidate_id := ip_id p; lr_candidate_digest := ip_candidate_digest p;
    lr_policy_version := eg_policy_version self; lr_target_state := value P_LIMITED;
    lr_source_run_id := ip_source_run_id p; lr_source_task_id := la_source_task_id a;
    lr_verification_evidence_id := la_verification_evidence_id a; lr_verification_evidence_digest := evidence_digest;
    lr_verification_evidence_state := value (ec_evidence_state evidence);
    lr_verification_evaluator_verdict := value (ec_evaluator_verdict evidence);
    lr_promotion_validation_eval_id := el_id heldout;
    lr_promotion_validation_dataset_digest := el_dataset_digest heldout;
    lr_promotion_validation_attestation_digest := el_attestation_digest heldout;
    lr_promotion_validation_query_count := query_count; lr_promotion_validation_status := el_status heldout;
    lr_scope := scope; lr_actual_outcome_kind := lower kind; lr_actual_outcome := outcome; lr_risk := ip_risk p;
    lr_non_goals := non_goals; lr_review_condition := review_condition;
    lr_rollback_or_retirement_path := rollback; lr_non_claim_boundary := non_claim_boundary |} in
  _ ← limited_request_ok r;
  Ok r.

(** [_limited_promotion_event] *)
Definition _limited_promotion_event (d : DB) (proposal_id : string) (before_seq : option Z) : res Logged :=
  the_event (List.filter (λ se, promoted_to P_LIMITED se && match before_seq with Some b => se.1 <? b | None => true end)
    (events_of d "improvement" proposal_id "improvement_promoted")).

(** What a read-back makes of a record that does not parse. *)
Definition as_integrity {A} (r : res A) : res A :=
  match r with Raise ContractError => Raise IntegrityError | r => r end.
Definition record_in (k : string) (se : Logged) : res dict :=
  match dget (payload_dict (ev_payload se.2)) k with Some (JObj d) => Ok d | _ => Raise IntegrityError end.

Definition limited_payload (approval_id : string) (r : LimitedRulePromotionRecord) : dict :=
  [("from", JStr (value P_OWNER_REVIEW)); ("to", JStr (value P_LIMITED)); ("approval_id", JStr approval_id);
   ("limited_rule_promotion_record", JObj (LimitedRulePromotionRecord_to_dict r))].

(** [_verified_limited_record]: the record, its event and the event of its approval. *)
Definition _verified_limited_record (d : DB) (p : Proposal) (before_seq : option Z) :
    res (LimitedRulePromotionRecord * Logged * Logged) :=
  limited_event ← _limited_promotion_event d (ip_id p) before_seq;
  _ ← own_authority limited_event.2;
  raw ← record_in "limited_rule_promotion_record" limited_event;
  record ← as_integrity (LimitedRulePromotionRecord_from_dict raw);
  let request := lm_request record in
  _ ← require (bool_decide (lr_candidate_id request = ip_id p)
        && bool_decide (lr_candidate_digest request = ip_candidate_digest p)
        && bool_decide (lr_policy_version request = eg_policy_version self)
        && bool_decide (lr_source_run_id request = ip_source_run_id p)) IntegrityError;
  let before := Some limited_event.1 in
  expected_request ← _build_limited_request d p (args_of request) before;
  approval ← of_option (approvals (registry d) !! lm_owner_approval_id record) IntegrityError;
  heldout ← of_option (eval_of d (Some (lr_promotion_validation_eval_id request))) IntegrityError;
  heldout_event ← _verified_eval_event d heldout;
  proposer_event ← _verified_proposal_event d p;
  approval_event ← _verified_approval_authority d approval p (ev_actor proposer_event.2) P_LIMITED heldout heldout_event
                     (limited_request_digest expected_request) (lr_source_task_id request) before;
  verified ← _verified_limited_source_evidence d p (lr_source_task_id request) (lr_verification_evidence_id request) before;
  let '(evidence, _, run_delivery_seq) := verified in
  decided_at ← of_option (av_decided_at approval) ContractError;
  approver ← of_option (av_approver approval) ContractError;
  let expected_record := {|
    lm_promotion_record_id := lm_promotion_record_id record; lm_request := expected_request;
    lm_from_state := value P_OWNER_REVIEW; lm_owner_approval_id := av_id approval;
    lm_owner_principal_id := approver; lm_approved_at := iso_sql decided_at |} in
  _ ← limited_record_ok expected_record;
  _ ← require (bool_decide (expected_record = record)
        && same_json (ev_payload limited_event.2) (JObj (limited_payload (av_id approval) record))
        && bool_decide (ec_claim evidence = lr_actual_outcome request)
        && of_proposal p (Some (lr_source_task_id request)) limited_event.2
        && bool_decide (ev_actor limited_event.2 = lm_owner_principal_id record)
        && (run_delivery_seq <? approval_event.1) && (approval_event.1 <? limited_event.1)) IntegrityError;
  Ok (record, limited_event, approval_event).

(** ** Custody of the sealed dataset *)
Definition custody_envelope (c : Custody) : dict :=
  [("attestation_id", JStr (sa_attestation_id c)); ("proposal_id", JStr (sa_proposal_id c));
   ("eval_id", JStr (sa_eval_id c)); ("project_id", JStr (sa_project_id c));
   ("candidate_digest", JStr (sa_candidate_digest c)); ("dataset_digest", JStr (sa_dataset_digest c));
   ("eval_attestation_digest", JStr (sa_eval_attestation_digest c));
   ("evaluator_principal_id", JStr (sa_evaluator_principal_id c)); ("custody_provider", JStr (sa_custody_provider c));
   ("custodian_id", JStr (sa_custodian_id c)); ("policy_version", JStr (sa_policy_version c))].
Definition custody_payload (c : Custody) (attestation_digest : string) : dict :=
  custody_envelope c ++ [("attestation_digest", JStr attestation_digest); ("verified_at", JStr (iso (sa_verified_at c)))].
(** [SELECT * FROM sealed_custody_attestations WHERE proposal_id = ?], which is UNIQUE. *)
Definition custody_of (d : DB) (proposal_id : string) : option Custody :=
  List.find (λ c, bool_decide (sa_proposal_id c = proposal_id)) (rows (custody (knowledge (effects (registry d))))).

(** [_verified_sealed_custody] *)
Definition _verified_sealed_custody (d : DB) (p : Proposal) (sealed : EvalRow) (sealed_event : Logged)
    (before_seq : option Z) : res (Custody * Logged) :=
  row ← of_option (custody_of d (ip_id p)) AuthorizationError;
  event ← the_event (events_of d "sealed_custody" (sa_attestation_id row) "sealed_custody_attested");
  _ ← own_authority event.2;
  let attestation_digest := content_hash (JObj (custody_envelope row)) in
  _ ← require (same_json (ev_payload event.2) (JObj (custody_payload row attestation_digest))
        && bool_decide (sa_attestation_digest row = attestation_digest) && bool_decide (sa_eval_id row = el_id sealed)
        && bool_decide (sa_project_id row = ip_project_id p)
        && bool_decide (sa_candidate_digest row = ip_candidate_digest p)
        && bool_decide (sa_dataset_digest row = el_dataset_digest sealed)
        && bool_decide (sa_eval_attestation_digest row = el_attestation_digest sealed)
        && bool_decide (sa_evaluator_principal_id row = el_evaluator sealed)
        && bool_decide (sa_policy_version row = eg_policy_version self)
        && (sa_verified_at row <=? ev_occurred_at event.2) && (ev_aggregate_version event.2 =? 1)
        && of_proposal p None event.2 && bool_decide (ev_actor event.2 = sa_custodian_id row)
        && (sealed_event.1 <? event.1) && (event.1 <? upper_bound before_seq)) IntegrityError;
  Ok (row, event).

(** ** The active promotion *)

(** [_active_request_digest] *)
Definition _active_request_digest (p : Proposal) (limited : LimitedRulePromotionRecord) (sealed : EvalRow) (c : Custody) :
    string :=
  content_hash (JObj
    [("proposal_id", JStr (ip_id p)); ("candidate_digest", JStr (ip_candidate_digest p));
     ("policy_version", JStr (eg_policy_version self)); ("target", JStr (value P_ACTIVE));
     ("limited_rule_promotion_record", JObj (LimitedRulePromotionRecord_to_dict limited));
     ("sealed_eval_id", JStr (el_id sealed)); ("sealed_dataset_digest", JStr (el_dataset_digest sealed));
     ("sealed_attestation_digest", JStr (el_attestation_digest sealed));
     ("sealed_evaluator_principal_id", JStr (el_evaluator sealed));
     ("sealed_custody_attestation_id", JStr (sa_attestation_id c));
     ("sealed_custody_provider", JStr (sa_custody_provider c)); ("sealed_custodian_id", JStr (sa_custodian_id c));
     ("sealed_custody_attestation_digest", JStr (sa_attestation_digest c));
     ("sealed_custody_verified_at", JStr (iso (sa_verified_at c)))]).

(** The sealed evaluation of the proposal, which passed cleanly. *)
Definition sealed_of (d : DB) (p : Proposal) : res EvalRow :=
  sealed ← of_option (eval_of d (ip_sealed_eval_id p)) IntegrityError;
  _ ← require (clean_pass sealed && bool_decide (el_dataset_split sealed = "sealed")
        && bool_decide (el_project_id sealed = ip_project_id p)
        && bool_decide (el_candidate_digest sealed = ip_candidate_digest p)) IntegrityError;
  Ok sealed.
Definition failures_count (e : EvalRow) : Z :=
  match el_safety_failures e with JList l => Z.of_nat (length l) | _ => 0 end.

Definition active_record (p : Proposal) (limited : LimitedRulePromotionRecord) (sealed : EvalRow) (c : Custody)
    (promotion_record_id maker_id owner_id approval_id : string) (use_count : Z) (decided_at : Instant) :
    ActiveRulePromotionRecord :=
  let request := lm_request limited in {|
  ar_promotion_record_id := promotion_record_id; ar_candidate_id := ip_id p;
  ar_candidate_digest := ip_candidate_digest p; ar_policy_version := eg_policy_version self;
  ar_promotion_validation_eval_id := lr_promotion_validation_eval_id request;
  ar_promotion_validation_dataset_digest := lr_promotion_validation_dataset_digest request;
  ar_promotion_validation_attestation_digest := lr_promotion_validation_attestation_digest request;
  ar_promotion_validation_query_count := lr_promotion_validation_query_count request;
  ar_promotion_validation_status := lr_promotion_validation_status request;
  ar_limited_promotion_record_id := lm_promotion_record_id limited;
  ar_limited_promotion_record_digest := limited_record_digest limited;
  ar_source_task_id := lr_source_task_id request; ar_verification_evidence_id := lr_verification_evidence_id request;
  ar_verification_evidence_digest := lr_verification_evidence_digest request;
  ar_actual_outcome_kind := lr_actual_outcome_kind request; ar_actual_outcome := lr_actual_outcome request;
  ar_from_state := value P_LIMITED; ar_target_state := value P_ACTIVE; ar_proposal_maker_principal_id := maker_id;
  ar_evaluator_principal_id := el_evaluator sealed;
  ar_evaluator_digest := content_hash (JObj [("evaluator_principal_id", JStr (el_evaluator sealed));
                                             ("evaluator_version", JStr (el_evaluator_version sealed))]);
  ar_sealed_eval_id := el_id sealed; ar_sealed_dataset_digest := el_dataset_digest sealed;
  ar_sealed_dataset_use_count := use_count; ar_sealed_result_influenced_edits := false;
  ar_sealed_attestation_digest := el_attestation_digest sealed;
  ar_sealed_custody_attestation_id := sa_attestation_id c; ar_sealed_custody_provider := sa_custody_provider c;
  ar_sealed_custodian_id := sa_custodian_id c; ar_sealed_custody_attestation_digest := sa_attestation_digest c;
  ar_sealed_custody_verified_at := iso (sa_verified_at c); ar_safety_hard_failures := failures_count sealed;
  ar_eval_status := el_status sealed; ar_evaluated_at := iso (el_created_at sealed);
  ar_owner_approval_id := approval_id; ar_owner_principal_id := owner_id; ar_approved_at := iso_sql decided_at;
  ar_scope := lr_scope request; ar_review_condition := lr_review_condition request;
  ar_non_goals := lr_non_goals request;
  ar_rollback_or_retirement_path := lr_rollback_or_retirement_path request;
  ar_non_claim_boundary := _ACTIVE_RULE_NON_CLAIM |}.

(** [_assemble_active_rule_promotion_record] *)
Definition _assemble_active_rule_promotion_record (d : DB) (p : Proposal) (approval : Approval)
    (promotion_record_id : string) (before_seq : option Z) : res ActiveRulePromotionRecord :=
  sealed ← sealed_of d p;
  sealed_event ← _verified_eval_event d sealed;
  _ ← _verified_eval_attachment_event d p sealed sealed_event before_seq;
  _ ← require (match dget (payload_dict (ev_payload sealed_event.2)) "result_influenced_edits" with
               | Some (JBool false) => true
               | _ => false
               end) AuthorizationError;
  proposer_event ← _verified_proposal_event d p;
  limited ← _verified_limited_record d p before_seq;
  let '(limited_record, limited_event, _) := limited in
  custody ← _verified_sealed_custody d p sealed sealed_event before_seq;
  let '(row, custody_event) := custody in
  let maker_id := ev_actor proposer_event.2 in
  active_approval_event ← _verified_approval_authority d approval p maker_id P_ACTIVE sealed sealed_event
    (_active_request_digest p limited_record sealed row) (lr_source_task_id (lm_request limited_record)) before_seq;
  owner_id ← of_option (av_approver approval) IntegrityError;
  _ ← require (no_dups [maker_id; el_evaluator sealed; sa_custodian_id row; owner_id]) AuthorizationError;
  _ ← require ((limited_event.1 <? sealed_event.1) && (sealed_event.1 <? custody_event.1)
               && (custody_event.1 <? active_approval_event.1)) IntegrityError;
  promotion_record_id ← _text promotion_record_id;
  use_count ← _eval_dataset_use_count d "sealed" (el_dataset_digest sealed) before_seq;
  decided_at ← of_option (av_decided_at approval) ContractError;
  let r := active_record p limited_record sealed row promotion_record_id maker_id owner_id (av_id approval) use_count
             decided_at in
  _ ← active_record_ok r;
  Ok r.

Definition active_payload (approval_id : string) (r : ActiveRulePromotionRecord) : dict :=
  [("from", JStr (value P_LIMITED)); ("to", JStr (value P_ACTIVE)); ("approval_id", JStr approval_id);
   ("active_rule_promotion_record", JObj (ActiveRulePromotionRecord_to_dict r))].
(** ** Operations *)

(** A snapshot whose log verifies, with the proposal. *)
Definition verified_snapshot (proposal_id : string) : P (DB * Proposal) :=
  _ ← verify_event_chain;
  d ← read id;
  p ← expect (proposals (registry d) !! proposal_id) NotFoundError;
  mret (d, p).

Definition build_limited_promotion_request (proposal_id : string) (a : LimitedArgs) : P LimitedRulePromotionRequest :=
  proposal_id ← lift_res (_text proposal_id);
  transaction (
    snapshot ← verified_snapshot proposal_id;
    let '(d, p) := snapshot in
    _ ← ensure (bool_decide (ip_state p = P_OWNER_REVIEW)) TransitionError;
    _ ← lift_res (_verified_proposal_event d p);
    lift_res (_build_limited_request d p a None)).

(** The attestation that the frozen evaluation calls for. *)
Definition expected_custody (p : Proposal) (sealed : EvalRow) (a : SealedCustodyAttestation) : res SealedCustodyAttestation :=
  attestation_id ← _text (ca_attestation_id a);
  custody_provider ← _text (ca_custody_provider a);
  custodian_id ← _text (ca_custodian_id a);
  Ok {| ca_attestation_id := attestation_id; ca_proof := ca_proof a; ca_proposal_id := ip_id p; ca_eval_id := el_id sealed;
        ca_project_id := ip_project_id p; ca_candidate_digest := ip_candidate_digest p;
        ca_dataset_digest := el_dataset_digest sealed; ca_eval_attestation_digest := el_attestation_digest sealed;
        ca_evaluator_principal_id := el_evaluator sealed; ca_custody_provider := custody_provider;
        ca_custodian_id := custodian_id; ca_policy_version := eg_policy_version self |}.
Definition custody_row (a : SealedCustodyAttestation) (attestation_digest : string) (now : Instant) : Custody := {|
  sa_attestation_id := ca_attestation_id a; sa_proposal_id := ca_proposal_id a; sa_eval_id := ca_eval_id a;
  sa_project_id := ca_project_id a; sa_candidate_digest := ca_candidate_digest a;
  sa_dataset_digest := ca_dataset_digest a; sa_eval_attestation_digest := ca_eval_attestation_digest a;
  sa_evaluator_principal_id := ca_evaluator_principal_id a; sa_custody_provider := ca_custody_provider a;
  sa_custodian_id := ca_custodian_id a; sa_policy_version := ca_policy_version a;
  sa_attestation_digest := attestation_digest; sa_verified_at := now |}.
(** Its envelope is that of the row, which carries no proof. *)
Definition custody_digest (a : SealedCustodyAttestation) : string :=
  content_hash (JObj (custody_envelope (custody_row a "" 0))).

Definition insert_custody (c : Custody) : P unit :=
  _ ← constraint (λ d,
        let table := custody (knowledge (effects (registry d))) in
        absent table (sa_attestation_id c)
        && negb (existsb (λ r, bool_decide (sa_proposal_id r = sa_proposal_id c) || bool_decide (sa_eval_id r = sa_eval_id c)
                               || bool_decide (sa_attestation_digest r = sa_attestation_digest c)) (rows table))
        && present (proposals (registry d)) (sa_proposal_id c)
        && present (eval_runs (knowledge (effects (registry d)))) (sa_eval_id c));
  write (set_custody <[sa_attestation_id c := c]>).

Definition record_sealed_custody_attestation (proposal_id : string) (attestation : SealedCustodyAttestation) : P string :=
  proposal_id ← lift_res (_text proposal_id);
  transaction (
    snapshot ← verified_snapshot proposal_id;
    let '(d, p) := snapshot in
    _ ← ensure (bool_decide (ip_state p = P_LIMITED)) TransitionError;
    sealed ← expect (eval_of d (ip_sealed_eval_id p)) TransitionError;
    expected ← lift_res (expected_custody p sealed attestation);
    _ ← ensure (bool_decide (attestation = expected)) AuthorizationError;
    _ ← ensure (negb (bool_decide (ca_custodian_id attestation = el_evaluator sealed))) AuthorizationError;
    verified ← lift_res (vf_verify (eg_sealed_custody_verifier self) attestation);
    _ ← ensure verified AuthorizationError;
    _ ← lift_res (_verified_proposal_event d p);
    sealed_event ← lift_res (_verified_eval_event d sealed);
    _ ← lift_res (_verified_eval_attachment_event d p sealed sealed_event None);
    let attestation_digest := custody_digest attestation in
    match custody (knowledge (effects (registry d))) !! ca_attestation_id attestation with
    | Some existing =>
      _ ← ensure (bool_decide (sa_proposal_id existing = proposal_id) && bool_decide (sa_eval_id existing = el_id sealed)
                  && bool_decide (sa_attestation_digest existing = attestation_digest)) ContractError;
      _ ← lift_res (_verified_sealed_custody d p sealed sealed_event None);
      mret attestation_digest
    | None =>
      now ← utc_now;
      let row := custody_row attestation attestation_digest now in
      command_id ← new_uuid;
      _ ← append_event (evaluation_event self "sealed_custody" (sa_attestation_id row) 0 (ip_project_id p)
            (Some (ip_source_run_id p)) None "sealed_custody_attested" (sa_custodian_id row) (ip_source_run_id p)
            (custody_payload row attestation_digest) command_id);
      _ ← insert_custody row;
      mret attestation_digest
    end).

Definition get_limited_rule_promotion_record (proposal_id : string) : P LimitedRulePromotionRecord :=
  proposal_id ← lift_res (_text proposal_id);
  transaction (
    snapshot ← verified_snapshot proposal_id;
    let '(d, p) := snapshot in
    _ ← ensure (memb (ip_state p) [P_LIMITED; P_ACTIVE]) NotFoundError;
    limited ← lift_res (_verified_limited_record d p None);
    let record := limited.1.1 in
    _ ← ensure (negb (bool_decide (ip_state p = P_LIMITED))
                || bool_decide (ip_owner_approval_id p = Some (lm_owner_approval_id record))) IntegrityError;
    mret record).

(** The read-back of the active promotion, from a snapshot. *)
Definition active_record_of (d : DB) (p : Proposal) : res ActiveRulePromotionRecord :=
  let candidates := List.filter (promoted_to P_ACTIVE) (events_of d "improvement" (ip_id p) "improvement_promoted") in
  _ ← require (negb (bool_decide (length candidates = 0%nat))) NotFoundError;
  event ← the_event candidates;
  _ ← own_authority event.2;
  raw ← record_in "active_rule_promotion_record" event;
  record ← as_integrity (ActiveRulePromotionRecord_from_dict raw);
  approval ← of_option (approvals (registry d) !! ar_owner_approval_id record) IntegrityError;
  expected ← _assemble_active_rule_promotion_record d p approval (ar_promotion_record_id record) (Some event.1);
  _ ← require (bool_decide (expected = record)
        && same_json (ev_payload event.2) (JObj (active_payload (ar_owner_approval_id record) record))
        && bool_decide (ev_project_id event.2 = ip_project_id p)
        && bool_decide (ev_run_id event.2 = Some (ip_source_run_id p))
        && bool_decide (ev_task_id event.2 = Some (ar_source_task_id record))
        && bool_decide (ev_actor event.2 = ar_owner_principal_id record)
        && bool_decide (ev_correlation_id event.2 = ip_source_run_id p)
        && bool_decide (ev_policy_version event.2 = ar_policy_version record)
        && bool_decide (ip_state p = P_ACTIVE)
        && bool_decide (ip_owner_approval_id p = Some (ar_owner_approval_id record))) IntegrityError;
  Ok record.
Definition get_active_rule_promotion_record (proposal_id : string) : P ActiveRulePromotionRecord :=
  proposal_id ← lift_res (_text proposal_id);
  transaction (
    snapshot ← verified_snapshot proposal_id;
    lift_res (active_record_of snapshot.1 snapshot.2)).

(** The sealed evaluation, the limited record and the custody that an active
    promotion rests on, and the digest that its owner approves. *)
Definition active_request (d : DB) (p : Proposal) (sealed : EvalRow) : res (LimitedRulePromotionRecord * string) :=
  sealed_event ← _verified_eval_event d sealed;
  _ ← _verified_eval_attachment_event d p sealed sealed_event None;
  limited ← _verified_limited_record d p None;
  custody ← _verified_sealed_custody d p sealed sealed_event None;
  Ok (limited.1.1, _active_request_digest p limited.1.1 sealed custody.1).
(** The same for the digest alone, which reads the limited record first. *)
Definition active_request_digest_of (d : DB) (p : Proposal) : res string :=
  limited ← _verified_limited_record d p None;
  sealed ← of_option (eval_of d (ip_sealed_eval_id p)) TransitionError;
  request ← active_request d p sealed;
  Ok request.2.

Definition promotion_request_digest (proposal_id candidate_digest target : string)
    (limited_request : option LimitedRulePromotionRequest) : P string :=
  state ← lift_res (of_value target);
  proposal_id ← lift_res (_text proposal_id);
  candidate_digest ← lift_res (_digest candidate_digest);
  if bool_decide (state = P_LIMITED) then
    request ← expect limited_request ContractError;
    _ ← ensure (bool_decide (lr_candidate_id request = proposal_id)
                && bool_decide (lr_candidate_digest request = candidate_digest)
                && bool_decide (lr_policy_version request = eg_policy_version self)
                && bool_decide (lr_target_state request = value state)) ContractError;
    mret (limited_request_digest request)
  else
    _ ← ensure (bool_decide (state = P_ACTIVE)) TransitionError;
    _ ← ensure (bool_decide (limited_request = None)) ContractError;
    transaction (
      _ ← verify_event_chain;
      d ← read id;
      p ← expect (proposals (registry d) !! proposal_id) TransitionError;
      _ ← ensure (bool_decide (ip_candidate_digest p = candidate_digest) && bool_decide (ip_state p = P_LIMITED))
            TransitionError;
      lift_res (active_request_digest_of d p)).

(** *** [promote] *)

(** What the target asks for, before any approval is looked at: the evaluation that
    the promotion rests on, the digest to approve, and the source task. *)
Record Gate := { gt_eval : EvalRow; gt_request_digest : string; gt_source_task_id : string; gt_run_delivery_seq : Z }.
Definition limited_gate (d : DB) (p : Proposal) (heldout : EvalRow) (limited_request : option LimitedRulePromotionRequest) :
    res Gate :=
  request ← of_option limited_request ContractError;
  expected ← _build_limited_request d p (args_of request) None;
  _ ← require (bool_decide (expected = request)) IntegrityError;
  _ ← _verified_eval_event d heldout;
  verified ← _verified_limited_source_evidence d p (lr_source_task_id request) (lr_verification_evidence_id request) None;
  Ok {| gt_eval := heldout; gt_request_digest := limited_request_digest request;
        gt_source_task_id := lr_source_task_id request; gt_run_delivery_seq := verified.2 |}.
Definition active_gate (d : DB) (p : Proposal) (limited_request : option LimitedRulePromotionRequest) : res Gate :=
  _ ← require (bool_decide (limited_request = None)) ContractError;
  sealed ← of_option (eval_of d (ip_sealed_eval_id p)) TransitionError;
  _ ← require (clean_pass sealed) TransitionError;
  request ← active_request d p sealed;
  Ok {| gt_eval := sealed; gt_request_digest := request.2;
        gt_source_task_id := lr_source_task_id (lm_request request.1); gt_run_delivery_seq := 0 |}.

(** The query for the approval, at the time of SQLite. *)
Definition live_approval (d : DB) (p : Proposal) (target : ProposalState) (g : Gate)
    (approval_id actor_id resource : string) (now : Instant) : option Approval :=
  a ← approvals (registry d) !! approval_id;
  if bool_decide ((av_project_id a, av_run_id a, av_task_id a, av_approver a, av_capability a, av_action a, av_resource a)
       = (ip_project_id p, ip_source_run_id p, gt_source_task_id g, Some actor_id, value C_ACTIVE_RULE_PROMOTION,
          promotion_action target, resource))
     && bool_decide ((av_request_digest a, av_policy_version a, av_decision a)
       = (gt_request_digest g, eg_policy_version self, "approved"))
     && match av_expires_at a with Some t => julianday now <? julianday t | None => false end
     && match av_decided_at a with Some t => julianday (el_created_at (gt_eval g)) <? julianday t | None => false end
  then Some a else None.

(** The payload of the event that promotes. *)
Definition limited_promotion (d : DB) (p : Proposal) (g : Gate) (approval : Approval)
    (approval_id maker_id actor_id record_id : string)
    (request : option LimitedRulePromotionRequest) : res dict :=
  request ← of_option request PyTypeError;
  gate_event ← _verified_eval_event d (gt_eval g);
  approval_event ← _verified_approval_authority d approval p maker_id P_LIMITED (gt_eval g) gate_event
                     (gt_request_digest g) (gt_source_task_id g) None;
  _ ← require (gt_run_delivery_seq g <? approval_event.1) AuthorizationError;
  decided_at ← of_option (av_decided_at approval) ContractError;
  let record := {| lm_promotion_record_id := record_id; lm_request := request; lm_from_state := value P_OWNER_REVIEW;
                   lm_owner_approval_id := approval_id; lm_owner_principal_id := actor_id;
                   lm_approved_at := iso_sql decided_at |} in
  _ ← limited_record_ok record;
  Ok (limited_payload approval_id record).
Definition active_promotion (d : DB) (p : Proposal) (approval : Approval) (approval_id record_id : string) : res dict :=
  record ← _assemble_active_rule_promotion_record d p approval record_id None;
  Ok (active_payload approval_id record).

Definition with_promotion (state : ProposalState) (approval_id : string) (now : Instant) (p : Proposal) : Proposal := {|
  ip_id := ip_id p; ip_project_id := ip_project_id p; ip_source_run_id := ip_source_run_id p;
  ip_hypothesis := ip_hypothesis p; ip_candidate_digest := ip_candidate_digest p;
  ip_editable_surface := ip_editable_surface p; ip_expected_benefit := ip_expected_benefit p; ip_risk := ip_risk p;
  ip_rollback_route := ip_rollback_route p; ip_held_in_eval_id := ip_held_in_eval_id p;
  ip_held_out_eval_id := ip_held_out_eval_id p; ip_sealed_eval_id := ip_sealed_eval_id p; ip_state := state;
  ip_owner_approval_id := Some approval_id; ip_created_at := ip_created_at p; ip_updated_at := now |}.

(** The targets: [ProposalState(str(target))], limited or active. *)
Definition promotion_target (target : string) : res ProposalState :=
  match of_value target with
  | Ok state => _ ← require (memb state [P_LIMITED; P_ACTIVE]) TransitionError; Ok state
  | Raise _ => Raise TransitionError
  end.
Definition promotion_source (target : ProposalState) : ProposalState :=
  if bool_decide (target = P_LIMITED) then P_OWNER_REVIEW else P_LIMITED.

Definition promote (proposal_id target approval_id : string) (actor : VerifiedPrincipal)
    (limited_request : option LimitedRulePromotionRequest) : P Proposal :=
  proposal_id ← lift_res (_text proposal_id);
  approval_id ← lift_res (_text approval_id);
  target_state ← lift_res (promotion_target target);
  transaction (
    _ ← verify_event_chain;
    actor_record ← require_role_in_transaction actor R_OWNER;
    d ← read id;
    p ← expect (proposals (registry d) !! proposal_id) NotFoundError;
    _ ← ensure (bool_decide (ip_state p = promotion_source target_state)) TransitionError;
    heldout ← expect (eval_of d (ip_held_out_eval_id p)) TransitionError;
    _ ← ensure (clean_pass heldout) TransitionError;
    proposer_event ← lift_res (_verified_proposal_event d p);
    g ← lift_res (if bool_decide (target_state = P_LIMITED) then limited_gate d p heldout limited_request
                  else active_gate d p limited_request);
    resource ← lift_res (promotion_resource proposal_id);
    now ← sql_now;
    approval ← expect (live_approval d p target_state g approval_id (pr_id actor_record) resource now) AuthorizationError;
    let version := head_version d "improvement" proposal_id in
    record_id ← new_uuid;
    payload ← lift_res (if bool_decide (target_state = P_LIMITED)
                        then limited_promotion d p g approval approval_id (ev_actor proposer_event.2) (pr_id actor_record)
                               record_id limited_request
                        else active_promotion d p approval approval_id record_id);
    command_id ← new_uuid;
    _ ← append_event (evaluation_event self "improvement" proposal_id version (ip_project_id p) (Some (ip_source_run_id p))
          (Some (gt_source_task_id g)) "improvement_promoted" (pr_id actor_record) (ip_source_run_id p) payload command_id);
    updated ← utc_now;
    _ ← write (set_proposals (alter (with_promotion target_state approval_id updated) proposal_id));
    mret (with_promotion target_state approval_id updated p)).

(** ** Calls of a registry as data *)
Inductive EvalOp :=
  | RoRecord (args : EvalArgs) (evaluator : VerifiedPrincipal) (attestation : EvalResultAttestation)
  | RoPropose (args : ProposeArgs) (proposer : VerifiedPrincipal) (proposal_id : option string)
  | RoAttach (proposal_id eval_id : string) (actor : VerifiedPrincipal)
  | RoCustody (proposal_id : string) (attestation : SealedCustodyAttestation)
  | RoPromote (proposal_id target approval_id : string) (actor : VerifiedPrincipal)
      (limited_request : option LimitedRulePromotionRequest).
Definition run_eval_op (op : EvalOp) : P unit :=
  match op with
  | RoRecord a v t => ignore (record_eval self a v t)
  | RoPropose a v i => ignore (propose self a v i)
  | RoAttach i e v => ignore (attach_eval self i e v)
  | RoCustody i t => ignore (record_sealed_custody_attestation i t)
  | RoPromote i t a v r => ignore (promote i t a v r)
  end.

Definition eval_writes (f : DB → DB) : Prop := only set_eval_runs f ∨ only set_proposals f ∨ only set_custody f.

Lemma keeps_chain I : keeps I verify_event_chain.
Proof. unfold verify_event_chain. keeps_walk. Qed.
Lemma eval_op_footprint I op :
  footprint ["eval"; "improvement"; "sealed_custody"] eval_writes I → keeps I (run_eval_op op).
Proof.
  intros HI. pose proof (keeps_chain I). unfold eval_writes in HI.
  destruct op; unfold run_eval_op, ignore, record_eval, propose, attach_eval, record_sealed_custody_attestation, promote,
    verified_snapshot, insert_eval, insert_proposal, insert_custody, require_role, require_role_in_transaction,
    verify_in_transaction; registry_walk HI.
Qed.
Lemma eval_op_keeps I op : kept_beside I → keeps I (run_eval_op op).
Proof. intros HI. apply eval_op_footprint. by apply footprint_beside; [|unfold eval_writes; beside_writes|]. Qed.
Lemma eval_op_atomic op : atomic (run_eval_op op).
Proof.
  pose proof pure_require_role.
  destruct op; unfold run_eval_op, ignore; apply (atomic_then _ (λ _, tt));
    unfold record_eval, propose, attach_eval, record_sealed_custody_attestation, promote; atomic_walk.
Qed.
End rules.
End Rules.
