(* ===== verification/Adapters.v ===== *)
(** * Side-effect adapters and the provider double ([adapters.py], [fake_provider.py])

    [WorkflowAdapter] is what the durable workflow asks of an external service:
    to execute an effect under an idempotency key and to look up what it has
    committed.  Its laws ([AdapterLaws]) are stated over the ledger of committed
    receipts; [FakeProvider] is shown to satisfy them, and the workflow is
    verified against the laws alone. *)

From Stdlib Require Import Ascii.
From S2P Require Import Prelude PyStr Json Enums Contracts Db Store.

Local Open Scope string_scope.
Local Open Scope list_scope.
Local Open Scope Z_scope.

Record AdapterReceipt := {
  rp_adapter_id : string; rp_project_id : string; rp_idempotency_key : string; rp_effect_id : string;
  rp_request_digest : string; rp_provider_receipt : option string; rp_status : string; rp_closed : bool;
  rp_result : dict; rp_replayed : bool }.

(** What identifies an effect at a provider. *)
Record EffectKey := {
  ek_project_id : string; ek_idempotency_key : string; ek_effect_id : string; ek_request_digest : string }.
#[export] Instance EffectKey_eq_dec : EqDecision EffectKey.
Proof. solve_decision. Defined.

Definition receipt_key (r : AdapterReceipt) : EffectKey := {|
  ek_project_id := rp_project_id r; ek_idempotency_key := rp_idempotency_key r;
  ek_effect_id := rp_effect_id r; ek_request_digest := rp_request_digest r |}.

(** The protocol, over the state [S] of the external service. *)
Class WorkflowAdapter (S : Type) := {
  adapter_id : string;
  execute : EffectKey → dict → M S AdapterReceipt;
  lookup_effect : EffectKey → M S (option AdapterReceipt) }.

(** What a receipt says of the effect, whichever call returned it. *)
Definition outcome (r : AdapterReceipt) : EffectKey * option string * string * bool * json :=
  (receipt_key r, rp_provider_receipt r, rp_status r, rp_closed r, JObj (rp_result r)).

(** [committed s p k] is the receipt that the service has committed for the
    idempotency key [k] of the project [p].  A receipt that a call returns agrees
    with the ledger; the ledger never forgets or changes an entry, and an
    execution adds at most the entry of the effect that it was asked for, under its
    key as the service reads it, [service_key]; a lookup adds none, and finds what
    is committed. *)
Class AdapterLaws (S : Type) `{WorkflowAdapter S} := {
  committed : S → string → string → option AdapterReceipt;
  service_key : EffectKey → EffectKey;
  lookup_reads k s r s' : lookup_effect k s = (r, s') → s' = s;
  lookup_agrees k s x s' : lookup_effect k s = (Ok (Some x), s') →
    ∃ x0, committed s (rp_project_id x) (rp_idempotency_key x) = Some x0 ∧ outcome x = outcome x0;
  execute_agrees k q s x s' : execute k q s = (Ok x, s') →
    ∃ x0, committed s' (rp_project_id x) (rp_idempotency_key x) = Some x0 ∧ outcome x = outcome x0;
  execute_keeps k q s r s' p key x : execute k q s = (r, s') →
    committed s p key = Some x → committed s' p key = Some x;
  execute_adds k q s r s' p key x : execute k q s = (r, s') →
    committed s p key = None → committed s' p key = Some x →
    receipt_key x = service_key k ∧ rp_project_id x = p ∧ rp_idempotency_key x = key ∧
    ∃ y, r = Ok y ∧ outcome y = outcome x;
  lookup_finds k s r s' x : lookup_effect k s = (r, s') →
    committed s (ek_project_id (service_key k)) (ek_idempotency_key (service_key k)) = Some x → r ≠ Ok None }.

(** ** The conformance harness *)

(** Whether an exception is a [RuntimeKernelError]. *)
Definition kernel_error (e : Exn) : bool :=
  match e with
  | ContractError | NotFoundError | TransitionError | LeaseError | AuthorizationError | EvidenceError
  | FreshnessError | IntegrityError | SimulatedCrash => true
  | _ => false
  end.

Definition _expect_rejected {S A} (action : M S A) : M S unit := λ s,
  match action s with
  | (Raise e, s') => if kernel_error e then (Ok tt, s') else (Raise IntegrityError, s')
  | (Ok _, s') => (Raise IntegrityError, s')
  end.

Section conformance.
Context `{ENV : Env} {S : Type} `{WorkflowAdapter S}.

Definition same_outcome (a b : AdapterReceipt) : bool :=
  bool_decide (rp_adapter_id a = rp_adapter_id b) && bool_decide (receipt_key a = receipt_key b)
  && bool_decide (rp_provider_receipt a = rp_provider_receipt b) && bool_decide (rp_status a = rp_status b)
  && Bool.eqb (rp_closed a) (rp_closed b)
  && bool_decide (canonical_json (JObj (rp_result a)) = canonical_json (JObj (rp_result b))).

Definition probe (run_id : string) : dict :=
  [("operation", JStr "conformance_probe"); ("nonce", JStr run_id)].
Definition probe_key (project run_id : string) : EffectKey := {|
  ek_project_id := project; ek_idempotency_key := "conformance-" +:+ run_id;
  ek_effect_id := "effect-" +:+ run_id; ek_request_digest := content_hash (JObj (probe run_id)) |}.
Definition with_effect (e : string) (k : EffectKey) : EffectKey := {|
  ek_project_id := ek_project_id k; ek_idempotency_key := ek_idempotency_key k; ek_effect_id := e;
  ek_request_digest := ek_request_digest k |}.
Definition with_digest (g : string) (k : EffectKey) : EffectKey := {|
  ek_project_id := ek_project_id k; ek_idempotency_key := ek_idempotency_key k;
  ek_effect_id := ek_effect_id k; ek_request_digest := g |}.
Definition with_project (p : string) (k : EffectKey) : EffectKey := {|
  ek_project_id := p; ek_idempotency_key := ek_idempotency_key k; ek_effect_id := ek_effect_id k;
  ek_request_digest := ek_request_digest k |}.
Definition zero_digest : string := of_chars (replicate 64 "0"%char).

Definition first_ok (adapter_name : string) (k : EffectKey) (r : AdapterReceipt) : bool :=
  negb (rp_replayed r) && bool_decide (rp_status r = "succeeded") && rp_closed r
  && bool_decide (rp_adapter_id r = adapter_name) && bool_decide (receipt_key r = k).

(** [run_id] is the fresh [uuid.uuid4().hex] of the call. *)
Definition run_adapter_conformance (adapter_name : string) (project_id : option string) (run_id : string)
    : M S unit :=
  _ ← ensure (negb (blank adapter_name)) IntegrityError;
  let adapter_name := strip adapter_name in
  _ ← ensure (bool_decide (adapter_id = adapter_name)) IntegrityError;
  let project := match project_id with
                 | Some p => if bool_decide (p = "") then "companyos-conformance-" +:+ run_id else p
                 | None => "companyos-conformance-" +:+ run_id
                 end in
  let request := probe run_id in
  let k := probe_key project run_id in
  missing ← lookup_effect k;
  _ ← ensure (match missing with None => true | Some _ => false end) IntegrityError;
  first ← execute k request;
  _ ← ensure (first_ok adapter_name k first) IntegrityError;
  looked_up ← lookup_effect k;
  looked_up ← expect looked_up IntegrityError;
  _ ← ensure (rp_replayed looked_up) IntegrityError;
  replayed ← execute k request;
  _ ← ensure (forallb (λ r, rp_replayed r && same_outcome r first) [looked_up; replayed]) IntegrityError;
  _ ← _expect_rejected (execute k (request ++ [("changed", JBool true)]));
  _ ← _expect_rejected (lookup_effect (with_effect (ek_effect_id k +:+ "-other") k));
  _ ← _expect_rejected (lookup_effect (with_digest zero_digest k));
  cross_project ← lookup_effect (with_project (project +:+ "-isolated") k);
  ensure (match cross_project with None => true | Some _ => false end) IntegrityError.
End conformance.

(** ** The provider double *)
Record ProviderEffect := {
  pf_project_id : string; pf_idempotency_key : string; pf_effect_id : string; pf_request_digest : string;
  pf_request : dict; pf_provider_receipt : string; pf_status : string; pf_result : dict;
  pf_created_at : Instant }.

(** Its database, and the identifiers and clock readings that its process has used. *)
Record FakeProvider := {
  fp_effects : gmap (string * string) ProviderEffect; fp_drawn : nat; fp_ticks : nat }.

(** [str(value)] of a JSON value, of which only the case of a text matters here. *)
Class PyText := { py_str : json → string; py_str_text s : py_str (JStr s) = s }.

Module Fake.
Section fake.
Context `{ENV : Env} `{PyText}.

Definition _ADAPTER_ID : string := "fake-provider".

Definition _find_prior (s : FakeProvider) (project_id idempotency_key : string) : option ProviderEffect :=
  fp_effects s !! (project_id, idempotency_key).

Definition _receipt (row : ProviderEffect) (k : EffectKey) (replayed : bool) : res AdapterReceipt :=
  _ ← require (bool_decide (
        {| ek_project_id := pf_project_id row; ek_idempotency_key := pf_idempotency_key row;
           ek_effect_id := pf_effect_id row; ek_request_digest := pf_request_digest row |} = k)) IntegrityError;
  Ok {| rp_adapter_id := _ADAPTER_ID; rp_project_id := ek_project_id k;
        rp_idempotency_key := ek_idempotency_key k; rp_effect_id := ek_effect_id k;
        rp_request_digest := ek_request_digest k; rp_provider_receipt := Some (pf_provider_receipt row);
        rp_status := pf_status row; rp_closed := true; rp_result := pf_result row; rp_replayed := replayed |}.

(** [project_id.strip()], which must not be empty. *)
Definition provider_key (k : EffectKey) : res EffectKey :=
  _ ← require (negb (blank (ek_project_id k))) IntegrityError;
  Ok (with_project (strip (ek_project_id k)) k).

(** The status and the result of a new effect. *)
Definition perform (k : EffectKey) (request : dict) : string * dict :=
  let operation := dget_or request "operation" (JStr "write") in
  match operation with
  | JStr "fail" =>
    ("failed",
     [("error_class", JStr (py_str (dget_or request "error_class" (JStr "SyntheticFailure"))));
      ("message", JStr (py_str (dget_or request "message" (JStr "deterministic fake-provider failure"))))])
  | _ =>
    ("succeeded",
     [("accepted", JBool true); ("operation", operation);
      ("output_digest", JStr (content_hash (JObj [("effect_id", JStr (ek_effect_id k)); ("request", JObj request)])))])
  end.

Definition new_row (k : EffectKey) (request : dict) (s : FakeProvider) : ProviderEffect := {|
  pf_project_id := ek_project_id k; pf_idempotency_key := ek_idempotency_key k;
  pf_effect_id := ek_effect_id k; pf_request_digest := ek_request_digest k; pf_request := request;
  pf_provider_receipt := "fake-" +:+ uuid4 (fp_drawn s); pf_status := (perform k request).1;
  pf_result := (perform k request).2; pf_created_at := clock (fp_ticks s) |}.

(** UNIQUE(provider_receipt), UNIQUE(project_id, effect_id) and the primary key. *)
Definition row_unique (row : ProviderEffect) (s : FakeProvider) : bool :=
  absent (fp_effects s) (pf_project_id row, pf_idempotency_key row)
  && negb (map_any (λ r, bool_decide (pf_provider_receipt r = pf_provider_receipt row)
       || bool_decide ((pf_project_id r, pf_effect_id r) = (pf_project_id row, pf_effect_id row))) (fp_effects s)).

Definition fake_execute (k : EffectKey) (request : dict) : M FakeProvider AdapterReceipt := λ s,
  match (k ← provider_key k;
         _ ← require (bool_decide (content_hash (JObj request) = ek_request_digest k)) IntegrityError;
         Ok k) with
  | Raise e => (Raise e, s)
  | Ok k =>
    match _find_prior s (ek_project_id k) (ek_idempotency_key k) with
    | Some prior => (_receipt prior k true, s)
    | None =>
      let row := new_row k request s in
      if row_unique row s then
        (_receipt row k false,
         {| fp_effects := <[(ek_project_id k, ek_idempotency_key k) := row]> (fp_effects s);
            fp_drawn := Datatypes.S (fp_drawn s); fp_ticks := Datatypes.S (fp_ticks s) |})
      else (Raise SqliteIntegrityError,
            {| fp_effects := fp_effects s; fp_drawn := Datatypes.S (fp_drawn s);
               fp_ticks := Datatypes.S (fp_ticks s) |})
    end
  end.

Definition fake_lookup (k : EffectKey) : M FakeProvider (option AdapterReceipt) := λ s,
  match provider_key k with
  | Raise e => (Raise e, s)
  | Ok k =>
    match _find_prior s (ek_project_id k) (ek_idempotency_key k) with
    | None => (Ok None, s)
    | Some prior => (r ← _receipt prior k true; Ok (Some r), s)
    end
  end.

Definition effect_count (project_id : option string) (s : FakeProvider) : Z :=
  Z.of_nat (length (select (λ r, match project_id with
                                 | Some p => bool_decide (pf_project_id r = p)
                                 | None => true
                                 end) (fp_effects s))).
End fake.
End Fake.

#[export] Instance fake_adapter `{ENV : Env} `{PyText} : WorkflowAdapter FakeProvider := {|
  adapter_id := Fake._ADAPTER_ID; execute := Fake.fake_execute; lookup_effect := Fake.fake_lookup |}.

Section fake_laws.
Context `{ENV : Env} `{PyText}.
Import Fake.

(** The ledger of the double: its rows, as receipts. *)
Definition row_receipt (row : ProviderEffect) : AdapterReceipt := {|
  rp_adapter_id := _ADAPTER_ID; rp_project_id := pf_project_id row; rp_idempotency_key := pf_idempotency_key row;
  rp_effect_id := pf_effect_id row; rp_request_digest := pf_request_digest row;
  rp_provider_receipt := Some (pf_provider_receipt row); rp_status := pf_status row; rp_closed := true;
  rp_result := pf_result row; rp_replayed := true |}.
Definition fake_committed (s : FakeProvider) (p k : string) : option AdapterReceipt :=
  row_receipt <$> fp_effects s !! (p, k).

Lemma receipt_ok row k b x :
  _receipt row k b = Ok x → outcome x = outcome (row_receipt row) ∧ rp_replayed x = b ∧
  receipt_key x = k ∧ pf_project_id row = ek_project_id k ∧ pf_idempotency_key row = ek_idempotency_key k.
Proof.
  unfold _receipt. intros H1. apply res_bind_ok in H1 as (u & Hr & [= <-]). apply require_ok in Hr.
  apply bool_decide_eq_true in Hr. subst k. by destruct row.
Qed.

Lemma provider_key_ok k k1 : provider_key k = Ok k1 → k1 = with_project (strip (ek_project_id k)) k.
Proof. unfold provider_key. intros Hk. by rinv. Qed.

(** What [execute] does to the rows. *)
Lemma execute_rows k q s r s' :
  fake_execute k q s = (r, s') →
  (fp_effects s' = fp_effects s ∧ ∀ x, r = Ok x → rp_replayed x = true ∧
     ∃ row, fp_effects s !! (rp_project_id x, rp_idempotency_key x) = Some row ∧ outcome x = outcome (row_receipt row)) ∨
  (∃ x row, r = Ok x ∧ rp_replayed x = false ∧ fp_effects s !! (rp_project_id x, rp_idempotency_key x) = None ∧
     fp_effects s' = <[(rp_project_id x, rp_idempotency_key x) := row]> (fp_effects s) ∧
     outcome x = outcome (row_receipt row) ∧
     row = new_row (receipt_key x) q s ∧ content_hash (JObj q) = rp_request_digest x ∧
     receipt_key x = with_project (strip (ek_project_id k)) k).
Proof.
  unfold fake_execute. intros Hrun.
  destruct (provider_key k) as [k1|e] eqn:Hk; simpl in Hrun; [|injection Hrun as <- <-; left; by split].
  apply provider_key_ok in Hk.
  unfold require in Hrun at 1. case_bool_decide as Hq; simpl in Hrun; [|injection Hrun as <- <-; left; by split].
  unfold mbind, res_bind in Hrun. unfold _find_prior in Hrun.
  destruct (fp_effects s !! (ek_project_id k1, ek_idempotency_key k1)) as [prior|] eqn:Hp.
  - injection Hrun as <- <-. left. split; [done|]. intros x Hx. apply receipt_ok in Hx as (Ho & Hrep & <- & _ & _).
    split; [done|]. exists prior. split; [exact Hp|done].
  - destruct (row_unique (new_row k1 q s) s); [|injection Hrun as <- <-; left; by split].
    injection Hrun as <- <-. right. unfold _receipt, require.
    rewrite bool_decide_eq_true_2 by (by destruct k1). simpl. eexists _, (new_row k1 q s).
    split_and!; try done; destruct k1; done || (simpl; congruence).
Qed.

Lemma lookup_rows k s r s' :
  fake_lookup k s = (r, s') →
  s' = s ∧ ∀ x, r = Ok (Some x) → rp_replayed x = true ∧
    ∃ row, fp_effects s !! (rp_project_id x, rp_idempotency_key x) = Some row ∧ outcome x = outcome (row_receipt row).
Proof.
  unfold fake_lookup, _find_prior. intros Hrun.
  destruct (provider_key k) as [k1|e]; [|by injection Hrun as <- <-].
  destruct (fp_effects s !! _) as [prior|] eqn:Hp; injection Hrun as <- <-; (split; [done|]); [|done].
  intros x Hx. apply res_bind_ok in Hx as (y & Hy & [= ->]). apply receipt_ok in Hy as (Ho & Hrep & <- & _ & _).
  split; [done|]. exists prior. split; [exact Hp|done].
Qed.

#[export] Instance fake_adapter_laws : AdapterLaws FakeProvider.
Proof.
  refine {| committed := fake_committed; service_key := λ k, with_project (strip (ek_project_id k)) k |}.
  - intros k s r s' Hrun. by apply lookup_rows in Hrun as [-> _].
  - intros k s x s' Hrun. apply lookup_rows in Hrun as [_ Hx]. destruct (Hx x eq_refl) as (_ & row & Hr & Ho).
    exists (row_receipt row). unfold fake_committed. by rewrite Hr.
  - intros k q s x s' Hrun. unfold fake_committed. apply execute_rows in Hrun as [[-> Hx]|(y & row & [= <-] & _ & _ & -> & Ho & _)].
    + destruct (Hx x eq_refl) as (_ & row & -> & Ho). by exists (row_receipt row).
    + rewrite lookup_insert_eq. by exists (row_receipt row).
  - intros k q s r s' p key x Hrun. unfold fake_committed.
    apply execute_rows in Hrun as [[-> _]|(y & row & _ & _ & Hn & -> & _)]; [done|].
    destruct (decide ((rp_project_id y, rp_idempotency_key y) = (p, key))) as [He|Hne].
    + rewrite <- He, Hn. done.
    + by rewrite lookup_insert_ne.
  - intros k q s r s' p key x Hrun. unfold fake_committed.
    apply execute_rows in Hrun as [[-> _]|(y & row & -> & _ & Hn & -> & Ho & Hrow & _ & Hk)]; [congruence|].
    intros Hnone Hsome. destruct (decide ((rp_project_id y, rp_idempotency_key y) = (p, key))) as [[= <- <-]|Hne].
    + rewrite lookup_insert_eq in Hsome. injection Hsome as <-. rewrite <- Hk. subst row.
      split_and!; try done. by exists y.
    + rewrite lookup_insert_ne in Hsome by done. congruence.
  - intros k s r s' x Hrun Hc ->. unfold fake_committed in Hc. simpl in Hc, Hrun. unfold fake_lookup in Hrun.
    destruct (provider_key k) as [k1|] eqn:Hk; [|done]. apply provider_key_ok in Hk as ->. unfold _find_prior in Hrun.
    simpl in Hrun. destruct (fp_effects s !! _); [|done]. injection Hrun as Hr _.
    by apply res_bind_ok in Hr as (y & _ & ?).
Defined.
End fake_laws.
