(* ===== verification/Workflow.v ===== *)
(** * The durable outbox workflow ([workflow.py])

    An effect is enqueued together with its step in one transaction; [dispatch]
    consumes its authority, asks the adapter, and checkpoints the receipt.  These
    are separate transactions with calls of the external service in between, so a
    crash can fall between any two of them.  The state is the runtime's world
    paired with the state of the service; the workflow is written against
    [WorkflowAdapter] only. *)

From S2P Require Import Prelude PyStr Json Enums Contracts Scope Db Store Identity.
From S2P Require Import Leases Scheduler Authority Gates Registries Policy Adapters.

Local Open Scope string_scope.
Local Open Scope list_scope.
Local Open Scope Z_scope.

Definition _FAULTS : list (option string) :=
  [None; Some "before_effect"; Some "after_effect_before_checkpoint"; Some "after_checkpoint"].
Definition _ENVELOPE_FIELDS : list string :=
  ["request"; "grant_id"; "principal"; "capability"; "action"; "resource"; "fence"].

(** The workflow: the adapter identity it was built with, its policy engine and
    its configuration. *)
Record DurableWorkflow := {
  dw_adapter_id : string; dw_policy : PolicyEngine; dw_policy_version : string }.

Record DispatchResult := {
  dr_effect_id : string; dr_status : string; dr_provider_receipt : option string; dr_result : json;
  dr_provider_replayed : bool; dr_checkpoint_replayed : bool }.

Module Outbox.

Definition _text (v : string) : res string := required_text ContractError v.

(** ** Steps and envelopes *)
Definition _declared_step (spec : TaskSpec) (step_id : string) : res WorkflowStep :=
  match List.filter (λ s, bool_decide (ws_step_id s = step_id)) (ts_workflow_steps spec) with
  | [step] =>
    _ ← mapR _text [ws_step_id step; ws_adapter step; ws_action step; ws_resource step; ws_request_digest step];
    Ok step
  | _ => Raise ContractError
  end.
Definition _assert_step_binding (spec : TaskSpec) (actual : WorkflowStep) : res unit :=
  declared ← _declared_step spec (ws_step_id actual);
  require (bool_decide (declared = actual)) ContractError.

Section outbox.
Context `{ENV : Env}.

(** The envelope's request and fields, checked against the digest of the row. *)
Definition _effect_envelope (effect : OutboxRow) : res dict :=
  let envelope := ox_request effect in
  _ ← require (forallb (λ k, memb k _ENVELOPE_FIELDS) (dkeys envelope)
               && forallb (λ k, memb k (dkeys envelope)) _ENVELOPE_FIELDS) IntegrityError;
  request ← match dget envelope "request" with Some (JObj r) => Ok r | _ => Raise IntegrityError end;
  _ ← require (bool_decide (content_hash (JObj request) = ox_request_digest effect)) IntegrityError;
  Ok request.

Definition _assert_effect_lifecycle (d : DB) (task : TaskRow) : res unit :=
  run ← of_option (r ← t_run_id task; runs d !! r) AuthorizationError;
  _ ← require (bool_decide (ru_project_id run = t_project_id task) && bool_decide (ru_goal_id run = t_goal_id task)
               && bool_decide (ru_loop_state run = L_RUNNING)) AuthorizationError;
  require (bool_decide (t_state task = T_RUNNING)) AuthorizationError.

(** ** Insertions *)
Definition insert_outbox (o : OutboxRow) : P unit :=
  _ ← constraint (λ d, absent (outbox (effects (registry d))) (ox_effect_id o)
        && negb (map_any (λ p, bool_decide ((ox_project_id p, ox_idempotency_key p)
                                            = (ox_project_id o, ox_idempotency_key o)))
                   (outbox (effects (registry d))))
        && present (tasks d) (ox_task_id o));
  write (set_outbox <[ox_effect_id o := o]>).
(** [INSERT OR IGNORE] *)
Definition insert_or_ignore_step (s : StepRow) : P unit :=
  d ← read id;
  if present (workflow_steps (registry d)) (st_task_id s, st_step_id s) then mret tt
  else
    _ ← constraint (λ d, present (tasks d) (st_task_id s));
    write (set_workflow_steps <[(st_task_id s, st_step_id s) := s]>).
Definition insert_receipt (r : Receipt) : P unit :=
  _ ← constraint (λ d, absent (effect_receipts (effects (registry d))) (rc_receipt_id r)
        && negb (map_any (λ p, bool_decide (rc_effect_id p = rc_effect_id r)) (effect_receipts (effects (registry d))))
        && present (outbox (effects (registry d))) (rc_effect_id r));
  write (set_effect_receipts <[rc_receipt_id r := r]>).

Definition receipt_of (d : DB) (effect_id : string) : option Receipt :=
  head (select (λ r, bool_decide (rc_effect_id r = effect_id)) (effect_receipts (effects (registry d)))).

(** ** Enqueue *)
Context (self : DurableWorkflow).

Record EnqueueArgs := {
  qa_task_id : string; qa_step_id : string; qa_adapter : string; qa_idempotency_key : string;
  qa_request : dict; qa_grant_id : string; qa_capability : string; qa_action : string;
  qa_resource : string; qa_fence : option Z }.
Definition enqueue_args (a : EnqueueArgs) : res EnqueueArgs :=
  task_id ← _text (qa_task_id a);
  step_id ← _text (qa_step_id a);
  adapter ← _text (qa_adapter a);
  _ ← require (bool_decide (adapter = dw_adapter_id self)) ContractError;
  idempotency_key ← _text (qa_idempotency_key a);
  grant_id ← _text (qa_grant_id a);
  action ← _text (qa_action a);
  resource ← _text (qa_resource a);
  capability_value ← match (of_value (qa_capability a) : res Capability) with
                     | Ok c => Ok (value c) | Raise _ => Raise ContractError end;
  _ ← require (match qa_fence a with Some f => 1 <=? f | None => true end) ContractError;
  Ok {| qa_task_id := task_id; qa_step_id := step_id; qa_adapter := adapter;
        qa_idempotency_key := idempotency_key; qa_request := qa_request a; qa_grant_id := grant_id;
        qa_capability := capability_value; qa_action := action; qa_resource := resource;
        qa_fence := qa_fence a |}.

Definition envelope_of (a : EnqueueArgs) (principal : string) : dict :=
  [("request", JObj (qa_request a)); ("grant_id", JStr (qa_grant_id a)); ("principal", JStr principal);
   ("capability", JStr (qa_capability a)); ("action", JStr (qa_action a)); ("resource", JStr (qa_resource a));
   ("fence", Engine.jint (qa_fence a))].
Definition bound_step (a : EnqueueArgs) (digest : string) : WorkflowStep := {|
  ws_step_id := qa_step_id a; ws_adapter := qa_adapter a; ws_action := qa_action a;
  ws_resource := qa_resource a; ws_request_digest := digest |}.
Definition effect_args_of (a : EnqueueArgs) (task : TaskRow) (run_id digest : string) : Engine.EffectArgs := {|
  Engine.ef_grant_id := qa_grant_id a; Engine.ef_project_id := t_project_id task;
  Engine.ef_goal_id := t_goal_id task; Engine.ef_run_id := run_id; Engine.ef_task_id := qa_task_id a;
  Engine.ef_capability := qa_capability a; Engine.ef_action := qa_action a;
  Engine.ef_resource := qa_resource a; Engine.ef_request_digest := digest;
  Engine.ef_policy_version := dw_policy_version self; Engine.ef_fence := qa_fence a |}.
Definition outbox_row (a : EnqueueArgs) (effect_id principal digest : string) (task : TaskRow) (run_id : string)
    (now : Instant) : OutboxRow := {|
  ox_effect_id := effect_id; ox_project_id := t_project_id task; ox_run_id := run_id;
  ox_task_id := qa_task_id a; ox_step_id := qa_step_id a; ox_adapter := qa_adapter a;
  ox_idempotency_key := qa_idempotency_key a; ox_request_digest := digest;
  ox_request := envelope_of a principal; ox_status := "authorization_pending"; ox_created_at := now;
  ox_dispatched_at := None; ox_reconciled_at := None; ox_last_error := None |}.
(** The row of an earlier enqueue under the same key. *)
Definition prior_effect (d : DB) (project_id key : string) : option OutboxRow :=
  head (select (λ o, bool_decide (ox_project_id o = project_id) && bool_decide (ox_idempotency_key o = key))
          (outbox (effects (registry d)))).
Definition same_effect (o : OutboxRow) (a : EnqueueArgs) (principal digest : string) : bool :=
  bool_decide ((ox_task_id o, ox_step_id o, ox_adapter o, ox_request_digest o)
               = (qa_task_id a, qa_step_id a, qa_adapter a, digest))
  && same_json (JObj (ox_request o)) (JObj (envelope_of a principal)).

(** The first role in the order of the texts. *)
Definition first_role (roles : list Role) : json :=
  match sort_by role_value roles with r :: _ => JStr (role_value r) | [] => JNull end.

(** The result is the row and whether it was there before. *)
Definition enqueue (principal : VerifiedPrincipal) (args : EnqueueArgs) (effect_id : option string)
    : P (OutboxRow * bool) :=
  a ← lift_res (enqueue_args args);
  effect_id ← given_or_new effect_id;
  effect_id ← lift_res (_text effect_id);
  let digest := content_hash (JObj (qa_request a)) in
  transaction (
    principal_record ← verify_in_transaction principal;
    _ ← ensure (existsb (λ r, memb r [R_WORKER; R_SYSTEM]) (pr_roles principal_record)) ContractError;
    let principal_id := pr_id principal_record in
    d ← read id;
    task ← expect (tasks d !! qa_task_id a) NotFoundError;
    run_id ← expect (t_run_id task) NotFoundError;
    _ ← lift_res (_assert_effect_lifecycle d task);
    _ ← ensure (existsb (λ c, bool_decide (value c = qa_capability a)) (ts_capabilities (t_spec task))) ContractError;
    _ ← lift_res (_assert_step_binding (t_spec task) (bound_step a digest));
    match prior_effect d (t_project_id task) (qa_idempotency_key a) with
    | Some prior =>
      _ ← ensure (same_effect prior a principal_id digest) IntegrityError;
      mret (prior, true)
    | None =>
      _ ← Engine.preflight_effect_authority principal (effect_args_of a task run_id digest);
      step ← read (λ d, workflow_steps (registry d) !! (qa_task_id a, qa_step_id a));
      _ ← ensure (bool_decide (step = None)) IntegrityError;
      command_id ← new_uuid;
      _ ← append_event (registry_event "effect" effect_id 0 (t_project_id task) run_id (Some (qa_task_id a))
            "effect_enqueued" principal_id (dw_policy_version self)
            [("step_id", JStr (qa_step_id a)); ("adapter", JStr (qa_adapter a)); ("request_digest", JStr digest);
             ("capability", JStr (qa_capability a)); ("resource", JStr (qa_resource a))]
            None None (Some (qa_idempotency_key a)) None
            [("session_id", JStr (vp_session_id principal));
             ("authenticated_role", first_role (pr_roles principal_record))] "internal" command_id);
      now ← utc_now;
      let row := outbox_row a effect_id principal_id digest task run_id now in
      _ ← insert_outbox row;
      _ ← insert_or_ignore_step {| st_task_id := qa_task_id a; st_step_id := qa_step_id a; st_status := "queued";
            st_input_digest := digest; st_result := None; st_effect_id := Some effect_id; st_started_at := now;
            st_completed_at := None |};
      mret (row, false)
    end).

Definition get_effect (effect_id : string) : P OutboxRow :=
  effect_id ← lift_res (_text effect_id);
  row ← read (λ d, outbox (effects (registry d)) !! effect_id);
  expect row NotFoundError.
Definition get_receipt (effect_id : string) : P (option Receipt) :=
  effect_id ← lift_res (_text effect_id);
  read (λ d, receipt_of d effect_id).


(** ** The database transactions of a dispatch *)
Definition envelope_text (effect : OutboxRow) (k : string) : option string :=
  match dget (ox_request effect) k with Some (JStr s) => Some s | _ => None end.

(** The join of the task with its step, and the declared step of the contract. *)
Definition _assert_persisted_step_binding (effect : OutboxRow) : P unit :=
  row ← read (λ d, t ← tasks d !! ox_task_id effect;
                   w ← workflow_steps (registry d) !! (ox_task_id effect, ox_step_id effect); Some (t, w));
  row ← expect row IntegrityError;
  let '(task, step) := row in
  _ ← ensure (bool_decide (t_project_id task = ox_project_id effect)
              && bool_decide (t_run_id task = Some (ox_run_id effect))
              && bool_decide (st_effect_id step = Some (ox_effect_id effect))
              && bool_decide (st_input_digest step = ox_request_digest effect)
              && bool_decide (st_status step = "queued")) IntegrityError;
  action ← expect (envelope_text effect "action") ContractError;
  resource ← expect (envelope_text effect "resource") ContractError;
  lift_res (_assert_step_binding (t_spec task) {|
    ws_step_id := ox_step_id effect; ws_adapter := ox_adapter effect; ws_action := action;
    ws_resource := resource; ws_request_digest := ox_request_digest effect |}).

(** [UPDATE outbox SET status = 'ready' ...] *)
Definition with_status (status : string) (dispatched reconciled : option Instant) (last_error : option string)
    (o : OutboxRow) : OutboxRow := {|
  ox_effect_id := ox_effect_id o; ox_project_id := ox_project_id o; ox_run_id := ox_run_id o;
  ox_task_id := ox_task_id o; ox_step_id := ox_step_id o; ox_adapter := ox_adapter o;
  ox_idempotency_key := ox_idempotency_key o; ox_request_digest := ox_request_digest o;
  ox_request := ox_request o; ox_status := status; ox_created_at := ox_created_at o;
  ox_dispatched_at := dispatched; ox_reconciled_at := reconciled; ox_last_error := last_error |}.
Definition made_ready (o : OutboxRow) : OutboxRow :=
  if bool_decide (ox_status o = "authorization_pending")
  then with_status "ready" (ox_dispatched_at o) (ox_reconciled_at o) (ox_last_error o) o else o.
Definition mark_ready (effect_id : string) : P unit :=
  transaction (write (set_outbox (alter made_ready effect_id))).

Definition step_done (status : string) (result : json) (now : Instant) (s : StepRow) : StepRow := {|
  st_task_id := st_task_id s; st_step_id := st_step_id s; st_status := status;
  st_input_digest := st_input_digest s; st_result := Some result; st_effect_id := st_effect_id s;
  st_started_at := st_started_at s; st_completed_at := Some now |}.

Definition negative_fingerprint (effect : OutboxRow) (result : dict) : string :=
  content_hash (JObj [("adapter", JStr (ox_adapter effect));
                      ("error_class", dget_or result "error_class" (JStr "UnknownFailure"));
                      ("message", dget_or result "message" (JStr ""))]).
Definition repair_route (result : dict) : string :=
  if same_json (dget_or result "authorization_outcome" JNull) (JStr "denied")
  then "inspect_effect_authorization_failure" else "inspect_fake_provider_failure".
Definition _retain_negative (effect : OutboxRow) (result : dict) (now : Instant) : P unit :=
  let fingerprint := negative_fingerprint effect result in
  prior ← read (λ d, head (select (λ n, bool_decide
             ((n_project_id n, n_task_id n, n_fingerprint n)
              = (ox_project_id effect, ox_task_id effect, fingerprint))) (negatives d)));
  match prior with
  | None =>
    failure_id ← new_uuid;
    failure_class ← lift_res (sql_text (dget_or result "error_class" (JStr "UnknownFailure")));
    failure_class ← expect failure_class SqliteIntegrityError;
    insert_negative {| n_id := failure_id; n_project_id := ox_project_id effect; n_run_id := ox_run_id effect;
      n_task_id := ox_task_id effect; n_fingerprint := fingerprint; n_failure_class := failure_class;
      n_severity := "error"; n_repair_route := repair_route result; n_first_seen := now; n_last_seen := now;
      n_recurrence := 1 |}
  | Some n => write (set_negatives (alter (seen_again now) (n_id n)))
  end.

(** The answer that the receipt of an earlier dispatch gives. *)
Definition recorded (effect_id : string) (r : Receipt) (provider_replayed : bool) : DispatchResult := {|
  dr_effect_id := effect_id; dr_status := rc_status r; dr_provider_receipt := rc_provider_receipt r;
  dr_result := rc_result r; dr_provider_replayed := provider_replayed; dr_checkpoint_replayed := true |}.
Definition from_provider (r : Receipt) : bool := negb (bool_decide (rc_provider_receipt r = None)).

Definition effect_event (effect : OutboxRow) (version : Z) (event_type actor : string) (payload : dict)
    : string → EventArgs :=
  registry_event "effect" (ox_effect_id effect) version (ox_project_id effect) (ox_run_id effect)
    (Some (ox_task_id effect)) event_type actor (dw_policy_version self) payload None None None None [] "internal".

(** Insert the receipt, close the row of the outbox and the step. *)
Definition close_effect (effect : OutboxRow) (status : string) (provider_receipt : option string) (result : dict)
    (now : Instant) (dispatched : OutboxRow → option Instant) (last_error : json) : P unit :=
  receipt_id ← new_uuid;
  _ ← insert_receipt {| rc_receipt_id := receipt_id; rc_effect_id := ox_effect_id effect; rc_status := status;
        rc_provider_receipt := provider_receipt; rc_result := JObj result;
        rc_result_digest := content_hash (JObj result); rc_recorded_at := now |};
  last_error ← lift_res (sql_text last_error);
  _ ← write (set_outbox (alter (λ o, with_status status (dispatched o) (Some now) last_error o)
                           (ox_effect_id effect)));
  write (set_workflow_steps (alter (step_done status (JObj result) now)
                               (ox_task_id effect, ox_step_id effect))).

Definition _checkpoint (effect : OutboxRow) (receipt : AdapterReceipt) : P DispatchResult :=
  let effect_id := ox_effect_id effect in
  let result := rp_result receipt in
  let result_digest := content_hash (JObj result) in
  let failed := negb (bool_decide (rp_status receipt = "succeeded")) in
  transaction (
    prior ← read (λ d, receipt_of d effect_id);
    match prior with
    | Some prior =>
      _ ← ensure (bool_decide (rc_result_digest prior = result_digest)
                  && bool_decide (rc_provider_receipt prior = rp_provider_receipt receipt)) IntegrityError;
      mret (recorded effect_id prior (rp_replayed receipt))
    | None =>
      version ← read (λ d, head_version d "effect" effect_id);
      command_id ← new_uuid;
      _ ← append_event (effect_event effect version "effect_reconciled" ("adapter:" +:+ ox_adapter effect)
            [("status", JStr (rp_status receipt)); ("provider_receipt", jopt (rp_provider_receipt receipt));
             ("result_digest", JStr result_digest)] command_id);
      now ← utc_now;
      _ ← close_effect effect (rp_status receipt) (rp_provider_receipt receipt) result now (λ _, Some now)
            (if failed then dget_or result "message" JNull else JNull);
      _ ← (if failed then _retain_negative effect result now else mret tt);
      mret {| dr_effect_id := effect_id; dr_status := rp_status receipt;
              dr_provider_receipt := rp_provider_receipt receipt; dr_result := JObj result;
              dr_provider_replayed := rp_replayed receipt; dr_checkpoint_replayed := false |}
    end).

(** [message] is the text of the [AuthorizationError]. *)
Definition denial (message : string) : dict :=
  let message := if blank message then "effect authorization denied" else strip message in
  [("authorization_outcome", JStr "denied"); ("error_class", JStr "AuthorizationError");
   ("message", JStr message); ("retryable", JBool false);
   ("error_digest", JStr (content_hash (JObj [("error_class", JStr "AuthorizationError");
                                              ("message", JStr message)])))].
Definition _checkpoint_authorization_failure (effect : OutboxRow) (message : string) : P DispatchResult :=
  let effect_id := ox_effect_id effect in
  let result := denial message in
  transaction (
    prior ← read (λ d, receipt_of d effect_id);
    match prior with
    | Some prior => mret (recorded effect_id prior (from_provider prior))
    | None =>
      version ← read (λ d, head_version d "effect" effect_id);
      command_id ← new_uuid;
      _ ← append_event (effect_event effect version "effect_authorization_failed" "policy-engine"
            [("status", JStr "failed"); ("result_digest", JStr (content_hash (JObj result)));
             ("authorization_outcome", JStr "denied")] command_id);
      now ← utc_now;
      _ ← close_effect effect "failed" None result now ox_dispatched_at (dget_or result "message" JNull);
      _ ← _retain_negative effect result now;
      mret {| dr_effect_id := effect_id; dr_status := "failed"; dr_provider_receipt := None;
              dr_result := JObj result; dr_provider_replayed := false; dr_checkpoint_replayed := false |}
    end).

Definition recoverable (o : OutboxRow) : bool := memb (ox_status o) ["authorization_pending"; "ready"].
Definition earlier (a b : OutboxRow) : bool :=
  if ox_created_at a =? ox_created_at b then str_leb (ox_effect_id a) (ox_effect_id b)
  else ox_created_at a <? ox_created_at b.
Definition pending_effects (lim : Z) (d : DB) : list OutboxRow :=
  limit lim (order_by earlier (select recoverable (outbox (effects (registry d))))).
End outbox.

(** ** Dispatch, over the database and the service *)
Section dispatch.
Context `{ENV : Env} {S : Type} `{WorkflowAdapter S}.
Context (self : DurableWorkflow).

Definition on_db {A} (m : P A) : M (World * S) A := zoom fst (λ w ws, (w, ws.2)) m.
Definition on_service {A} (m : M S A) : M (World * S) A := zoom snd (λ s ws, (ws.1, s)) m.

Definition effect_key (effect : OutboxRow) : EffectKey := {|
  ek_project_id := ox_project_id effect; ek_idempotency_key := ox_idempotency_key effect;
  ek_effect_id := ox_effect_id effect; ek_request_digest := ox_request_digest effect |}.

Definition _assert_adapter_binding (effect : OutboxRow) : res unit :=
  current_adapter_id ← _text adapter_id;
  _ ← require (bool_decide (current_adapter_id = dw_adapter_id self)) IntegrityError;
  require (bool_decide (ox_adapter effect = dw_adapter_id self)) IntegrityError.

Definition _assert_receipt_binding (effect : OutboxRow) (receipt : AdapterReceipt) : res unit :=
  _ ← require (bool_decide ((rp_adapter_id receipt, receipt_key receipt) = (dw_adapter_id self, effect_key effect)))
        IntegrityError;
  require (rp_closed receipt && memb (rp_status receipt) ["succeeded"; "failed"]) IntegrityError.

Definition crash_at (fault_at : option string) (point : string) : M (World * S) unit :=
  ensure (negb (bool_decide (fault_at = Some point))) SimulatedCrash.

(** What follows the consumption of the authority. *)
Definition perform_effect (effect : OutboxRow) (request : dict) (fault_at : option string)
    : M (World * S) DispatchResult :=
  provider_receipt ← on_service (lookup_effect (effect_key effect));
  match provider_receipt with
  | Some receipt =>
    _ ← lift_res (_assert_receipt_binding effect receipt);
    on_db (_checkpoint self effect receipt)
  | None =>
    _ ← on_db (mark_ready (ox_effect_id effect));
    _ ← crash_at fault_at "before_effect";
    receipt ← on_service (execute (effect_key effect) request);
    _ ← lift_res (_assert_receipt_binding effect receipt);
    _ ← crash_at fault_at "after_effect_before_checkpoint";
    result ← on_db (_checkpoint self effect receipt);
    _ ← crash_at fault_at "after_checkpoint";
    mret result
  end.

Definition dispatch (effect_id : string) (fault_at : option string) : M (World * S) DispatchResult :=
  effect_id ← lift_res (_text effect_id);
  _ ← ensure (memb fault_at _FAULTS) ContractError;
  effect ← on_db (read (λ d, outbox (effects (registry d)) !! effect_id));
  effect ← expect effect NotFoundError;
  existing ← on_db (read (λ d, receipt_of d effect_id));
  match existing with
  | Some receipt => mret (recorded effect_id receipt (from_provider receipt))
  | None =>
    request ← lift_res (_effect_envelope effect);
    _ ← lift_res (_assert_adapter_binding effect);
    _ ← on_db (_assert_persisted_step_binding effect);
    _ ← on_db (Engine._consume_effect effect_id);
    perform_effect effect request fault_at
  end.

(** [except AuthorizationError] *)
Definition or_denied {A} (m handler : M (World * S) A) : M (World * S) A := λ ws,
  match m ws with
  | (Raise AuthorizationError, ws') => handler ws'
  | r => r
  end.

(** [message] gives the text of the error that the dispatch of an effect raised. *)
Definition recover_pending (lim : Z) (message : string → string) : M (World * S) (list DispatchResult) :=
  _ ← ensure (1 <=? lim) ContractError;
  _ ← ensure (int64 lim) PyOverflowError;
  rows ← on_db (read (pending_effects lim));
  mapM (λ row, or_denied (dispatch (ox_effect_id row) None)
                 (on_db (_checkpoint_authorization_failure self row (message (ox_effect_id row))))) rows.
End dispatch.

(** ** The transactions of a workflow as data

    [OoCheckpoint] and [OoDenied] are the closing transactions, whatever the
    service answered. *)
Inductive OutboxOp :=
  | OoEnqueue (principal : VerifiedPrincipal) (args : EnqueueArgs) (effect_id : option string)
  | OoConsume (effect_id : string)
  | OoReady (effect_id : string)
  | OoCheckpoint (effect : OutboxRow) (receipt : AdapterReceipt)
  | OoDenied (effect : OutboxRow) (message : string).

Section frames.
Context `{ENV : Env} (self : DurableWorkflow).

Definition run_outbox_op (op : OutboxOp) : P unit :=
  match op with
  | OoEnqueue p a e => ignore (enqueue self p a e)
  | OoConsume e => ignore (Engine._consume_effect e)
  | OoReady e => mark_ready e
  | OoCheckpoint e r => ignore (_checkpoint self e r)
  | OoDenied e m => ignore (_checkpoint_authorization_failure self e m)
  end.

Definition outbox_writes (f : DB → DB) : Prop :=
  only set_outbox f ∨ only set_workflow_steps f ∨ only set_effect_receipts f ∨ only set_negatives f.
Lemma outbox_op_footprint I op :
  footprint ["effect"] outbox_writes I → (∀ e, op = OoConsume e → keeps I (Engine._consume_effect e)) →
  keeps I (run_outbox_op op).
Proof.
  intros HI Hc. assert (∀ p a, keeps I (Engine.preflight_effect_authority p a)) by apply Engine.keeps_preflight.
  unfold outbox_writes in HI.
  destruct op as [p a i|e|e|o rc|o m]; [|unfold run_outbox_op, ignore; pose proof (Hc e eq_refl); keeps_walk|..];
    unfold run_outbox_op, ignore, enqueue, mark_ready, _checkpoint, _checkpoint_authorization_failure,
    close_effect, _retain_negative, verify_in_transaction, insert_outbox, insert_or_ignore_step, insert_receipt,
    insert_negative; registry_walk HI.
Qed.
Lemma outbox_op_keeps I op : kept_beside I → keeps I (run_outbox_op op).
Proof.
  intros HI. apply outbox_op_footprint; [by apply footprint_beside; [|unfold outbox_writes; beside_writes|]|].
  intros e _. apply Engine.consume_effect_footprint.
  by apply footprint_beside; [|unfold Engine.policy_writes; beside_writes|].
Qed.
Lemma outbox_op_atomic op : atomic (run_outbox_op op).
Proof.
  destruct op; unfold run_outbox_op, ignore; try apply (atomic_then _ (λ _, tt));
    unfold enqueue, Engine._consume_effect, mark_ready, _checkpoint, _checkpoint_authorization_failure; atomic_walk.
Qed.
End frames.
End Outbox.
