(* ===== verification/Services.v ===== *)
(** * The services beside the kernel, together

    One call of any policy engine, integration queue, evidence, observation,
    context, memory or evaluation registry, or one transaction of any durable
    workflow. *)

From S2P Require Import Prelude PyStr Json Enums Contracts Scope Db Store Identity.
From S2P Require Import Leases Scheduler Authority Gates Registries Policy Integration Evidence Observations Context Memory.
From S2P Require Import Evaluation Rules Workflow.

Inductive ServiceOp :=
  | SvPolicy (engine : PolicyEngine) (op : Engine.PolicyOp)
  | SvQueue (queue : IntegrationQueue) (op : Items.QueueOp)
  | SvEvidence (registry : EvidenceRegistry) (op : EvidenceOps.EvidenceOp)
  | SvObserve (registry : ObservationRegistry) (op : Observe.ObserveOp)
  | SvContext (registry : ContextRegistry) (op : Context.ContextOp)
  | SvMemory (op : Memory.MemoryOp)
  | SvEvaluate (registry : EvaluationRegistry) (op : Rules.EvalOp)
  | SvOutbox (workflow : DurableWorkflow) (op : Outbox.OutboxOp).

Section services.
Context `{ENV : Env}.

Definition run_service_op (op : ServiceOp) : P unit :=
  match op with
  | SvPolicy s op => Engine.run_policy_op s op
  | SvQueue s op => Items.run_queue_op s op
  | SvEvidence s op => EvidenceOps.run_evidence_op s op
  | SvObserve s op => Observe.run_observe_op s op
  | SvContext s op => Context.run_context_op s op
  | SvMemory op => Memory.run_memory_op op
  | SvEvaluate s op => Rules.run_eval_op s op
  | SvOutbox s op => Outbox.run_outbox_op s op
  end.

Lemma service_op_keeps I op : kept_beside I → keeps I (run_service_op op).
Proof.
  intros HI. destruct op; simpl.
  - by apply Engine.policy_op_keeps.
  - by apply Items.queue_op_keeps.
  - by apply EvidenceOps.evidence_op_keeps.
  - by apply Observe.observe_op_keeps.
  - by apply Context.context_op_keeps.
  - by apply Memory.memory_op_keeps.
  - by apply Rules.eval_op_keeps.
  - by apply Outbox.outbox_op_keeps.
Qed.
Lemma service_op_atomic op : atomic (run_service_op op).
Proof.
  destruct op; simpl.
  - apply Engine.policy_op_atomic.
  - apply Items.queue_op_atomic.
  - apply EvidenceOps.evidence_op_atomic.
  - apply Observe.observe_op_atomic.
  - apply Context.context_op_atomic.
  - apply Memory.memory_op_atomic.
  - apply Rules.eval_op_atomic.
  - apply Outbox.outbox_op_atomic.
Qed.
End services.
