(* ===== verification/Kernel.v ===== *)
(** * The runtime kernel ([kernel.py])

    The application boundary for goal, run and task commands.  A [RuntimeKernel]
    is its command authority and its configuration; the table of goal authority
    bindings that the object keeps in memory is passed in and out of the two
    commands that touch it.  Every command validates its arguments, checks the
    session of its actor, and then, in one transaction, answers a replayed
    command from its record, or checks the state, appends one event, updates
    the projection and records the result. *)

From S2P Require Import Prelude PyStr Json Enums StateMachine Contracts Scope Db Store Identity.
From S2P Require Import Leases Scheduler Authority Gates.

Local Open Scope string_scope.
Local Open Scope list_scope.
Local Open Scope Z_scope.

Definition Spine : Type := ProjectSpec * ProgramSpec * list ProgramSpec.
(** [_authority_goal_bindings] *)
Definition Bindings : Type := gmap string CompiledGoalAuthority.

Record RuntimeKernel := {
  rk_self : nat; rk_command_authority : nat; rk_policy_version : string;
  rk_authority_spines : list (string * Spine) }.

Definition _TASK_CONTROL_TARGETS (action : string) : option TaskState :=
  if bool_decide (action = "block") then Some T_BLOCKED
  else if bool_decide (action = "cancel") then Some T_CANCELED
  else if bool_decide (action = "delete") then Some T_DELETED
  else if bool_decide (action = "retire") then Some T_RETIRED
  else if bool_decide (action = "suspend") then Some T_SUSPENDED
  else None.

Definition _command_text (s : string) : res string :=
  _ ← require (negb (bool_decide (s = ""))) ContractError;
  _ ← require (bool_decide (s = strip s)) ContractError;
  Ok s.

Definition _canonical_goal_spec (spec : GoalSpec) : res GoalSpec :=
  canonical ← match GoalSpec_from_dict (GoalSpec_to_dict spec) with
              | Ok g => Ok g
              | Raise _ => Raise ContractError
              end;
  _ ← validate_goal_scope canonical;
  Ok canonical.

Definition _canonical_task_spec (spec : TaskSpec) : res TaskSpec :=
  match TaskSpec_from_dict (TaskSpec_to_dict spec) with
  | Ok t => Ok t
  | Raise _ => Raise ContractError
  end.

(** The roles that may send an event. *)
Definition loop_roles (event : LoopEvent) : list Role :=
  match event with
  | E_GOAL_COMPILED => [R_SYSTEM]
  | E_RUN_READY => [R_SYSTEM]
  | E_TASK_STARTED => [R_WORKER; R_SYSTEM]
  | E_HUMAN_APPROVAL_REQUESTED => [R_WORKER; R_SYSTEM]
  | E_HUMAN_APPROVAL_RECEIVED => [R_OWNER; R_SYSTEM]
  | E_EVIDENCE_SUBMITTED => [R_WORKER; R_SYSTEM]
  | E_EVALUATOR_VERDICT_RECEIVED => [R_EVALUATOR]
  | E_CI_CHECK_STARTED => [R_RELEASE; R_SYSTEM]
  | E_CI_CHECK_COMPLETED => [R_RELEASE; R_SYSTEM]
  | E_DEPLOY_DIRECTORY_UPDATED => [R_RELEASE]
  | E_SERVICE_RESTART_ATTEMPTED => [R_RELEASE]
  | E_RUNTIME_FRESHNESS_VERIFIED => [R_OBSERVER]
  | E_RUNTIME_DRIFT_DETECTED => [R_OBSERVER; R_SYSTEM]
  | E_DELIVERY_CONFIRMED => [R_RELEASE]
  | E_IMPROVEMENT_REQUESTED => [R_OWNER; R_SYSTEM]
  | E_RESUME_REQUESTED => [R_OWNER; R_SYSTEM]
  | _ => [R_SYSTEM]
  end.

Definition jguards (gs : list (string * bool)) : json := JObj ((λ g, (g.1, JBool g.2)) <$> gs).

(** [x or y] on an optional text *)
Definition or_text (o : option string) (d : string) : string :=
  match o with Some s => if bool_decide (s = "") then d else s | None => d end.

Definition run_moved (state : LoopState) (version : Z) (now : Instant) (r : RunRow) : RunRow := {|
  ru_id := ru_id r; ru_goal_id := ru_goal_id r; ru_project_id := ru_project_id r;
  ru_loop_state := state; ru_policy_version := ru_policy_version r; ru_version := version;
  ru_created_at := ru_created_at r; ru_updated_at := now |}.

(** [TaskState] written to [attempts.state]. *)
Definition ended_state (target : TaskState) : AttemptState :=
  match target with
  | T_CANCELED => A_canceled | T_DELETED => A_deleted | T_RETIRED => A_retired | _ => A_blocked
  end.

(** ** The adopted authority *)

(** The order of [graph_refs]. *)
Definition by_wave (a b : ProgramSpec) : bool :=
  (pg_wave a <? pg_wave b)
  || ((pg_wave a =? pg_wave b) && str_leb (pg_program_id a) (pg_program_id b)).

(** Python's [next(x for x in l if f(x))]. *)
Definition next_where {A} (f : A → bool) (l : list A) : res A := of_option (List.find f l) PyStopIteration.

Section kernel.
Context `{ENV : Env}.

Definition graph_refs (graph : list ProgramSpec) : json :=
  JList ((λ p, jref (ProgramSpec_reference p)) <$> order_by by_wave graph).

Definition configure_spine (provider : option StateProvider)
    (entry : string * (ProjectSpec * ProgramSpec * option (list ProgramSpec))) : res (string * Spine) :=
  let '(project_id, (raw_project, raw_program, raw_graph)) := entry in
  project ← ProjectSpec_from_dict (ProjectSpec_to_dict raw_project);
  _ ← require (bool_decide (project_id = pj_project_id project)) ContractError;
  graph ← mapR (λ item, ProgramSpec_from_dict (ProgramSpec_to_dict item))
            (default [raw_program] raw_graph);
  _ ← validate_program_graph project graph;
  program ← compile_program (ProgramSpec_to_dict raw_program) project
              (if bool_decide (pg_dependency_refs raw_program = []) then None else Some graph) provider;
  _ ← require (memb (ProgramSpec_reference program) (ProgramSpec_reference <$> graph)) ContractError;
  Ok (project_id, (project, program, graph)).

(** [RuntimeKernel.__init__] *)
Definition new_RuntimeKernel (o : Obj) (policy_version : string)
    (authority_spines : list (string * (ProjectSpec * ProgramSpec * option (list ProgramSpec))))
    (provider : option StateProvider) : P RuntimeKernel :=
  token ← _bind_core_command_authority o "runtime_kernel";
  spines ← lift_res (mapR (configure_spine provider) authority_spines);
  mret {| rk_self := o_id o; rk_command_authority := token; rk_policy_version := policy_version;
          rk_authority_spines := spines |}.

Context (self : RuntimeKernel).

Definition _actor_id (actor : VerifiedPrincipal) (allowed_roles : list Role) : P string :=
  principal ← verify actor;
  _ ← ensure (existsb (λ r, memb r allowed_roles) (pr_roles principal)) TransitionError;
  mret (pr_id principal).

Definition _loop_actor_id (actor : VerifiedPrincipal) (event : LoopEvent) : P string :=
  _actor_id actor (loop_roles event).

(** The event of a command of this kernel, with the defaults of [append_event]. *)
Definition kernel_event (aggregate_type aggregate_id : string) (expected_version : Z)
    (project_id event_type actor correlation_id policy_version : string) (payload : dict)
    (session : option VerifiedPrincipal) (run_id task_id key causation : option string)
    (command_id : string) : EventArgs := {|
  ea_aggregate_type := aggregate_type; ea_aggregate_id := aggregate_id;
  ea_expected_version := expected_version; ea_project_id := project_id; ea_event_type := event_type;
  ea_actor := actor; ea_command_id := command_id; ea_correlation_id := correlation_id;
  ea_policy_version := policy_version; ea_payload := payload; ea_auth_context := [];
  ea_auth_session := session; ea_command_authority := Some (rk_command_authority self);
  ea_command_owner := None; ea_run_id := run_id; ea_task_id := task_id;
  ea_idempotency_key := key; ea_causation_id := causation; ea_confidentiality := "internal";
  ea_occurred_at := None |}.

(** Two kinds of event are sent with other controls than the command authority
    alone: adoptions name the kernel as the owner too, bindings send nothing. *)
Definition with_control (authority owner : option nat) (a : EventArgs) : EventArgs := {|
  ea_aggregate_type := ea_aggregate_type a; ea_aggregate_id := ea_aggregate_id a;
  ea_expected_version := ea_expected_version a; ea_project_id := ea_project_id a;
  ea_event_type := ea_event_type a; ea_actor := ea_actor a; ea_command_id := ea_command_id a;
  ea_correlation_id := ea_correlation_id a; ea_policy_version := ea_policy_version a;
  ea_payload := ea_payload a; ea_auth_context := ea_auth_context a;
  ea_auth_session := ea_auth_session a; ea_command_authority := authority;
  ea_command_owner := owner; ea_run_id := ea_run_id a; ea_task_id := ea_task_id a;
  ea_idempotency_key := ea_idempotency_key a; ea_causation_id := ea_causation_id a;
  ea_confidentiality := ea_confidentiality a; ea_occurred_at := ea_occurred_at a |}.
Definition adoption_event (aggregate_type aggregate_id project_id event_type : string) (payload : dict)
    (command_id : string) : EventArgs :=
  with_control (Some (rk_command_authority self)) (Some (rk_self self))
    (kernel_event aggregate_type aggregate_id 0 project_id event_type "system" project_id
       (rk_policy_version self) payload None None None None None command_id).
Definition binding_event (aggregate_type aggregate_id project_id event_type actor_id correlation_id : string)
    (payload : dict) (task_id : option string) (command_id : string) : EventArgs :=
  with_control None None
    (kernel_event aggregate_type aggregate_id 0 project_id event_type actor_id correlation_id
       (rk_policy_version self) payload None None task_id None None command_id).

Definition append (f : string → EventArgs) : P Event :=
  command_id ← new_uuid; append_event (f command_id).

(** One adoption event: appended once, compared afterwards. *)
Definition adopt_event (project_id : string) (e : string * string * string * dict) : P unit :=
  let '(aggregate_type, aggregate_id, event_type, payload) := e in
  event ← read (λ d, List.find (λ e, bool_decide (ev_aggregate_type e = aggregate_type)
            && bool_decide (ev_aggregate_id e = aggregate_id) && (ev_aggregate_version e =? 1)) (events d));
  match event with
  | None =>
    _ ← append (adoption_event aggregate_type aggregate_id project_id event_type payload);
    mret tt
  | Some e => ensure (same_json (ev_payload e) (JObj payload)) ContractError
  end.

(** What [initialize] compares of an adopted program. *)
Definition program_columns (graph_digest : string) (p : ProgramSpec)
    : string * (Z * string * string * string * string) :=
  (pg_program_id p, (pg_version p, ar_digest (ProgramSpec_reference p), value (pg_state p),
                     graph_digest, canonical_json (JObj (ProgramSpec_to_dict p)))).
Definition row_columns (r : AdoptedProgram) : string * (Z * string * string * string * string) :=
  (ag_program_id r, (ag_version r, ag_digest r, ag_state r, ag_graph_digest r,
                     canonical_json (JObj (ag_spec r)))).

Definition adopt (entry : string * Spine) : P unit :=
  let '(project_id, (project, program, graph)) := entry in
  existing ← read (λ d, adopted_projects (registry d) !! project_id);
  let refs := graph_refs graph in
  let graph_digest := content_hash refs in
  _ ← forM (("project_authority", pj_project_id project, "project_authority_adopted",
             [("project_spec", JObj (ProjectSpec_to_dict project));
              ("current_program_id", JStr (pg_program_id program))])
            :: ((λ item, ("program_authority", pg_program_id item, "program_authority_adopted",
                  [("program_spec", JObj (ProgramSpec_to_dict item)); ("graph_refs", refs);
                   ("graph_digest", JStr graph_digest)])) <$> graph))
        (adopt_event project_id);
  match existing with
  | Some row =>
    _ ← ensure ((ad_version row =? pj_version project)
          && bool_decide (ad_digest row = ar_digest (ProjectSpec_reference project))
          && bool_decide (ad_current_program_id row = pg_program_id program)) ContractError;
    current_rows ← read (λ d, select (λ r, bool_decide (ag_project_id r = project_id))
                                (adopted_programs (registry d)));
    let expected := list_to_map (rev (program_columns graph_digest <$> graph)) in
    let actual := list_to_map (row_columns <$> current_rows) in
    ensure (bool_decide (actual = (expected : gmap string _))) ContractError
  | None =>
    now ← utc_now;
    _ ← insert_adopted_project {| ad_project_id := project_id; ad_version := pj_version project;
          ad_digest := ar_digest (ProjectSpec_reference project);
          ad_spec := ProjectSpec_to_dict project; ad_current_program_id := pg_program_id program;
          ad_adopted_at := now |};
    forM graph (λ item, insert_adopted_program {| ag_program_id := pg_program_id item;
      ag_project_id := project_id; ag_version := pg_version item;
      ag_digest := ar_digest (ProgramSpec_reference item); ag_state := value (pg_state item);
      ag_graph_digest := graph_digest; ag_spec := ProgramSpec_to_dict item; ag_adopted_at := now |})
  end.

(** [initialize], after the schema is in place. *)
Definition initialize : P unit := transaction (forM (rk_authority_spines self) adopt).

(** The comparison of the stored columns with the parsed specifications. *)
Definition program_row_ok (graph_digest : string) (row : AdoptedProgram) (item : ProgramSpec) : bool :=
  (ag_version row =? pg_version item)
  && bool_decide (ag_digest row = ar_digest (ProgramSpec_reference item))
  && bool_decide (ag_state row = value (pg_state item))
  && bool_decide (ag_graph_digest row = graph_digest).

Definition persisted_spine (d : DB) (project_id : string) : res (option Spine) :=
  match adopted_projects (registry d) !! project_id with
  | None => Ok None
  | Some project_row =>
    let program_rows := order_by (λ a b, str_leb (ag_program_id a) (ag_program_id b))
          (select (λ r, bool_decide (ag_project_id r = project_id)) (adopted_programs (registry d))) in
    program_row ← of_option
      (List.find (λ r, bool_decide (ag_program_id r = ad_current_program_id project_row)) program_rows)
      ContractError;
    project ← ProjectSpec_from_dict (ad_spec project_row);
    graph ← mapR (λ r, ProgramSpec_from_dict (ag_spec r)) program_rows;
    program ← next_where (λ item, bool_decide (pg_program_id item = ag_program_id program_row)) graph;
    let expected_graph_digest := content_hash (graph_refs graph) in
    _ ← validate_program_graph project graph;
    _ ← require ((ad_version project_row =? pj_version project)
          && bool_decide (ad_digest project_row = ar_digest (ProjectSpec_reference project))
          && program_row_ok expected_graph_digest program_row program
          && bool_decide (pg_project_ref program = ProjectSpec_reference project)
          && forallb (λ ri, program_row_ok expected_graph_digest ri.1 ri.2)
               (combine program_rows graph)) ContractError;
    _ ← require (negb (terminal (pg_state program))) ContractError;
    Ok (Some (project, program, graph))
  end.

Definition _persisted_authority_spine (project_id : string) : P (option Spine) :=
  transaction (d ← read id; lift_res (persisted_spine d project_id)).

(** ** Goals *)
Definition check_goal_authority (project_id : string) (spec : GoalSpec)
    (compiled_authority : option CompiledGoalAuthority) (spine : option Spine) :
    res (option CompiledGoalAuthority) :=
  match spine, compiled_authority with
  | Some (project, program, graph), Some authority =>
    canonical ← validate_goal_authority authority project program
                  (if bool_decide (pg_dependency_refs program = []) then None else Some graph) None;
    _ ← require (bool_decide (cg_goal_spec canonical = spec)) ContractError;
    Ok (Some canonical)
  | Some _, None => Raise ContractError
  | None, Some _ => Raise ContractError
  | None, None => Ok None
  end.

Definition bind_goal (project_id goal_id actor_id : string) (authority : CompiledGoalAuthority) : P unit :=
  let payload := CompiledGoalAuthority_to_dict authority in
  bound ← append (binding_event "goal_authority" goal_id project_id "goal_authority_bound" actor_id
                    goal_id payload None);
  insert_goal_binding {| gb_goal_id := goal_id; gb_project_id := project_id;
    gb_program_id := ar_object_id (cg_program_ref authority);
    gb_digest := content_hash (JObj payload); gb_authority := payload;
    gb_source_event_id := ev_id bound |}.

Definition remember (bindings : Bindings) (goal_id : string) (authority : option CompiledGoalAuthority)
    : Bindings :=
  match authority with Some a => <[goal_id := a]> bindings | None => bindings end.

Definition create_goal (bindings : Bindings) (project_id : string) (spec : GoalSpec)
    (actor : VerifiedPrincipal) (idempotency_key : string)
    (compiled_authority : option CompiledGoalAuthority) : P (json * Bindings) :=
  project_id ← lift_res (_command_text project_id);
  idempotency_key ← lift_res (_command_text idempotency_key);
  actor_id ← _actor_id actor [R_OWNER];
  spec ← lift_res (_canonical_goal_spec spec);
  spine ← _persisted_authority_spine project_id;
  canonical_authority ← lift_res (check_goal_authority project_id spec compiled_authority spine);
  let payload := GoalSpec_to_dict spec in
  let digest := content_hash (JObj payload) in
  let goal_id := gs_goal_id spec in
  transaction (
    prior ← get_idempotent_result project_id "goal.create" idempotency_key digest;
    match prior with
    | Some result => mret (result, remember bindings goal_id canonical_authority)
    | None =>
      _ ← constraint (λ d, absent (goals d) goal_id);
      event ← append (kernel_event "goal" goal_id 0 project_id "goal_created" actor_id goal_id
                        (rk_policy_version self) payload (Some actor) None None
                        (Some idempotency_key) None);
      now ← utc_now;
      _ ← insert_goal {| go_id := goal_id; go_project_id := project_id; go_state := G_COMPILED;
            go_spec := spec; go_version := 1; go_created_at := now; go_updated_at := now |};
      let result := [("goal_id", JStr goal_id); ("state", JStr (value G_COMPILED));
                     ("event_id", JStr (ev_id event))] in
      _ ← save_idempotent_result project_id "goal.create" idempotency_key digest result (ev_id event);
      _ ← match canonical_authority with
          | Some authority => bind_goal project_id goal_id actor_id authority
          | None => mret tt
          end;
      mret (JObj result, remember bindings goal_id canonical_authority)
    end).

(** ** Runs *)
Definition create_run (project_id goal_id run_id : string) (actor : VerifiedPrincipal)
    (idempotency_key : string) : P json :=
  project_id ← lift_res (_command_text project_id);
  goal_id ← lift_res (_command_text goal_id);
  run_id ← lift_res (_command_text run_id);
  idempotency_key ← lift_res (_command_text idempotency_key);
  actor_id ← _actor_id actor [R_OWNER; R_SYSTEM];
  let policy_version := rk_policy_version self in
  let payload := [("goal_id", JStr goal_id); ("run_id", JStr run_id);
                  ("policy_version", JStr policy_version)] in
  let digest := content_hash (JObj payload) in
  transaction (
    prior ← get_idempotent_result project_id "run.create" idempotency_key digest;
    match prior with
    | Some result => mret result
    | None =>
      goal ← read (λ d, goals d !! goal_id);
      _ ← ensure (match goal with
                  | Some g => bool_decide (go_project_id g = project_id)
                  | None => false
                  end) NotFoundError;
      event ← append (kernel_event "run" run_id 0 project_id (value E_OWNER_INTENT_RECEIVED) actor_id
                        run_id policy_version payload (Some actor) (Some run_id) None
                        (Some idempotency_key) None);
      now ← utc_now;
      _ ← insert_run {| ru_id := run_id; ru_goal_id := goal_id; ru_project_id := project_id;
            ru_loop_state := L_INTAKE; ru_policy_version := policy_version; ru_version := 1;
            ru_created_at := now; ru_updated_at := now |};
      let result := [("run_id", JStr run_id); ("goal_id", JStr goal_id);
                     ("loop_state", JStr (value L_INTAKE)); ("event_id", JStr (ev_id event))] in
      _ ← save_idempotent_result project_id "run.create" idempotency_key digest result (ev_id event);
      mret (JObj result)
    end).

(** ** Tasks *)

(** The goal authority that [add_task] checks a task against: the binding in
    memory, or else the persisted one. *)
Definition goal_authority_of (bindings : Bindings) (project_id goal_id : string) :
    P (option CompiledGoalAuthority) :=
  match bindings !! goal_id with
  | Some a => mret (Some a)
  | None =>
    row ← transaction (read (λ d, r ← goal_bindings (registry d) !! goal_id;
            if bool_decide (gb_project_id r = project_id) then Some r else None));
    match row with
    | Some r =>
      a ← lift_res (CompiledGoalAuthority_from_dict (gb_authority r));
      _ ← ensure (bool_decide (content_hash (JObj (CompiledGoalAuthority_to_dict a)) = gb_digest r))
            ContractError;
      mret (Some a)
    | None => mret None
    end
  end.

Definition check_task_authority (bindings : Bindings) (project_id : string) (spec : TaskSpec)
    (compiled_authority : option CompiledTaskAuthority) (spine : option Spine) :
    P (option CompiledTaskAuthority) :=
  match spine with
  | Some (project, program, graph) =>
    goal_authority ← goal_authority_of bindings project_id (ts_goal_id spec);
    goal_authority ← expect goal_authority ContractError;
    authority ← expect compiled_authority ContractError;
    canonical ← lift_res (validate_task_authority authority project program goal_authority
                  (if bool_decide (pg_dependency_refs program = []) then None else Some graph) None);
    _ ← ensure (bool_decide (ct_task_spec canonical = spec)) ContractError;
    mret (Some canonical)
  | None => _ ← ensure (bool_decide (compiled_authority = None)) ContractError; mret None
  end.

Definition sealed_states : list LoopState := [L_DELIVERED; L_IMPROVEMENT_PENDING].

(** The run that a task is added to: of the goal and the project, not sealed. *)
Definition open_run (project_id goal_id : string) (run_id : option string) : P unit :=
  match run_id with
  | None => mret tt
  | Some r =>
    run ← read (λ d, runs d !! r);
    run ← expect run NotFoundError;
    _ ← ensure (bool_decide (ru_project_id run = project_id) && bool_decide (ru_goal_id run = goal_id))
          NotFoundError;
    ensure (negb (memb (ru_loop_state run) sealed_states)) TransitionError
  end.

Definition bind_task (project_id actor_id correlation_id : string) (spec : TaskSpec)
    (authority : CompiledTaskAuthority) : P unit :=
  let payload := CompiledTaskAuthority_to_dict authority in
  bound ← append (binding_event "task_authority" (ts_task_id spec) project_id "task_authority_bound"
                    actor_id correlation_id payload (Some (ts_task_id spec)));
  insert_task_binding {| tb_task_id := ts_task_id spec; tb_project_id := project_id;
    tb_program_id := ar_object_id (ct_program_ref authority); tb_goal_id := ts_goal_id spec;
    tb_digest := content_hash (JObj payload); tb_authority := payload;
    tb_provider_budget_minor_units := ct_provider_budget_minor_units authority;
    tb_provider_call_limit := ct_provider_call_limit authority;
    tb_required_decision_gates := jgates (ct_decision_gate_contracts authority);
    tb_source_event_id := ev_id bound |}.

Definition add_task (bindings : Bindings) (project_id : string) (spec : TaskSpec)
    (actor : VerifiedPrincipal) (idempotency_key : string) (run_id : option string)
    (compiled_authority : option CompiledTaskAuthority) : P json :=
  project_id ← lift_res (_command_text project_id);
  idempotency_key ← lift_res (_command_text idempotency_key);
  run_id ← match run_id with
           | Some r => r ← lift_res (_command_text r); mret (Some r)
           | None => mret None
           end;
  actor_id ← _actor_id actor [R_OWNER; R_SYSTEM];
  spec ← lift_res (_canonical_task_spec spec);
  spine ← _persisted_authority_spine project_id;
  canonical_task_authority ← check_task_authority bindings project_id spec compiled_authority spine;
  let payload := TaskSpec_to_dict spec ++ [("run_id", jopt run_id)] in
  let digest := content_hash (JObj payload) in
  let task_id := ts_task_id spec in
  let goal_id := ts_goal_id spec in
  let correlation_id := or_text run_id goal_id in
  transaction (
    prior ← get_idempotent_result project_id "task.add" idempotency_key digest;
    match prior with
    | Some result => mret result
    | None =>
      goal ← read (λ d, goals d !! goal_id);
      goal ← expect goal NotFoundError;
      _ ← ensure (bool_decide (go_project_id goal = project_id)) NotFoundError;
      _ ← lift_res (validate_task_within_goal (go_spec goal) spec);
      _ ← open_run project_id goal_id run_id;
      event ← append (kernel_event "task" task_id 0 project_id "task_added" actor_id correlation_id
                        (rk_policy_version self) payload (Some actor) run_id (Some task_id)
                        (Some idempotency_key) None);
      now ← utc_now;
      _ ← insert_task {| t_id := task_id; t_goal_id := goal_id; t_run_id := run_id;
            t_project_id := project_id; t_state := T_READY; t_spec := spec; t_version := 1;
            t_attempt_count := 0; t_due_at := None; t_last_error := None; t_created_at := now;
            t_updated_at := now |};
      let result := [("task_id", JStr task_id); ("state", JStr (value T_READY));
                     ("event_id", JStr (ev_id event))] in
      _ ← save_idempotent_result project_id "task.add" idempotency_key digest result (ev_id event);
      _ ← match canonical_task_authority with
          | Some authority => bind_task project_id actor_id correlation_id spec authority
          | None => mret tt
          end;
      mret (JObj result)
    end).

(** ** Run events *)

(** [MAX(created_at)] of the evidence of a run. *)
Definition last_evidence (d : DB) (run_id : string) : option Instant :=
  foldr (λ c m, Some (match m with Some t => Z.max (ec_created_at c) t | None => ec_created_at c end))
    None (select (λ c, bool_decide (ec_run_id c = run_id)) (evidence_claims (registry d))).

(** The starts of a run after its last evidence. *)
Definition fruitless_starts (d : DB) (run_id : string) : Z :=
  Z.of_nat (length (List.filter (λ e,
    bool_decide (ev_aggregate_type e = "run") && bool_decide (ev_aggregate_id e = run_id)
    && bool_decide (ev_event_type e = value E_TASK_STARTED)
    && match last_evidence d run_id with
       | Some t => julianday t <? julianday (ev_occurred_at e)
       | None => true
       end) (events d))).

Definition circuit_breaker (run : RunRow) (event : LoopEvent) : P unit :=
  if bool_decide (event = E_TASK_STARTED) then
    goal ← read (λ d, goals d !! ru_goal_id run);
    goal ← expect goal PyTypeError;
    n ← read (λ d, fruitless_starts d (ru_id run));
    ensure (n <? gs_max_iterations_without_evidence (go_spec goal)) TransitionError
  else mret tt.

(** What the caller says about guards must not contradict the facts. *)
Definition contradicts (authoritative : list (string * bool)) (supplied : string * bool) : bool :=
  match List.find (λ g, bool_decide (g.1 = supplied.1)) authoritative with
  | Some g => negb (Bool.eqb supplied.2 g.2)
  | None => false
  end.

Definition advance_loop (run_id : string) (event : LoopEvent) (actor : VerifiedPrincipal)
    (idempotency_key : string) (guard_results : list (string * bool)) (payload : dict)
    (causation_id : option string) : P json :=
  run_id ← lift_res (_command_text run_id);
  idempotency_key ← lift_res (_command_text idempotency_key);
  causation_id ← match causation_id with
                 | Some c => c ← lift_res (_command_text c); mret (Some c)
                 | None => mret None
                 end;
  actor_id ← _loop_actor_id actor event;
  let scope := "run.event." +:+ run_id in
  transaction (
    row ← read (λ d, runs d !! run_id);
    row ← expect row NotFoundError;
    let project_id := ru_project_id row in
    _ ← circuit_breaker row event;
    let request_digest := content_hash (JObj [("event", JStr (value event)); ("payload", JObj payload)]) in
    prior ← get_idempotent_result project_id scope idempotency_key request_digest;
    match prior with
    | Some result => mret result
    | None =>
      authoritative_guards ← resolve row event payload actor_id;
      _ ← ensure (negb (existsb (contradicts authoritative_guards) guard_results)) TransitionError;
      let command_payload := [("event", JStr (value event)); ("guards", jguards authoritative_guards);
                              ("payload", JObj payload)] in
      let current := ru_loop_state row in
      target ← lift_res (apply_loop_event current event (list_to_map authoritative_guards));
      let version := ru_version row in
      appended ← append (kernel_event "run" run_id version project_id (value event) actor_id run_id
                           (ru_policy_version row) command_payload (Some actor) (Some run_id) None
                           (Some idempotency_key) causation_id);
      now ← utc_now;
      _ ← write (set_runs (alter (run_moved target (version + 1) now) run_id));
      let result := [("run_id", JStr run_id); ("previous_state", JStr (value current));
                     ("loop_state", JStr (value target)); ("event_id", JStr (ev_id appended))] in
      _ ← save_idempotent_result project_id scope idempotency_key request_digest result (ev_id appended);
      mret (JObj result)
    end).


(** ** Task projections *)
Definition _task_evidence_status (d : DB) (row : TaskRow) : bool * bool :=
  let claims := target_verdicts d row in
  (passes _PASSING_EVIDENCE claims,
   negb (ts_evaluator_required (t_spec row)) || passes _PASSING_EVALUATOR claims).

Definition move_payload (current target : TaskState) (reason : string) : dict :=
  [("from", JStr (value current)); ("target", JStr (value target)); ("reason", JStr reason)].

(** What a task command returns. *)
Record TaskResult := {
  tr_task_id : string; tr_previous_state : TaskState; tr_state : TaskState; tr_event_id : string }.
Definition task_result (r : TaskResult) : dict :=
  [("task_id", JStr (tr_task_id r)); ("previous_state", JStr (value (tr_previous_state r)));
   ("state", JStr (value (tr_state r))); ("event_id", JStr (tr_event_id r))].

Definition _transition_task_projection (row : TaskRow) (target : TaskState) (actor reason : string)
    (idempotency_key : string) (auth_session : VerifiedPrincipal) (event_fields : dict) : P TaskResult :=
  let current := t_state row in
  _ ← lift_res (require_task_transition current target);
  let version := t_version row in
  let event_payload := move_payload current target reason in
  _ ← ensure (forallb (λ k, negb (memb k (dkeys event_payload))) (dkeys event_fields)) ContractError;
  appended ← append (kernel_event "task" (t_id row) version (t_project_id row) "task_state_changed" actor
                       (or_text (t_run_id row) (t_goal_id row)) (rk_policy_version self)
                       (event_payload ++ event_fields) (Some auth_session) (t_run_id row)
                       (Some (t_id row)) (Some idempotency_key) None);
  now ← utc_now;
  _ ← write (set_tasks (alter (task_with target (version + 1) now) (t_id row)));
  mret {| tr_task_id := t_id row; tr_previous_state := current; tr_state := target;
          tr_event_id := ev_id appended |}.

(** The frame of a task command: the row, the replayed answer, the command, the
    record of its answer. *)
Definition task_command (task_id scope_name idempotency_key : string) (payload : dict)
    (body : TaskRow → P TaskResult) : P json :=
  let scope := scope_name +:+ task_id in
  let digest := content_hash (JObj payload) in
  transaction (
    row ← read (λ d, tasks d !! task_id);
    row ← expect row NotFoundError;
    let project_id := t_project_id row in
    prior ← get_idempotent_result project_id scope idempotency_key digest;
    match prior with
    | Some result => mret result
    | None =>
      result ← body row;
      _ ← save_idempotent_result project_id scope idempotency_key digest (task_result result)
            (tr_event_id result);
      mret (JObj (task_result result))
    end).

Definition accepted_verdicts (spec : TaskSpec) : list EvaluatorVerdict :=
  [V_PASS; V_PASS_WITH_RISK] ++ (if ts_evaluator_required spec then [] else [V_NOT_REQUIRED]).

(** The supplied claim itself passes the target of the task. *)
Definition claim_passes (row : TaskRow) (claim : EvidenceClaim) : bool :=
  bool_decide (ec_evidence_state claim = ts_evidence_target (t_spec row))
  && memb (ec_evaluator_verdict claim) (accepted_verdicts (t_spec row)).

Definition evidence_step (current : TaskState) (evaluator_ok : bool) : res TaskState :=
  match current, evaluator_ok with
  | T_EVIDENCE_PENDING, false => Ok T_EVALUATOR_PENDING
  | T_EVIDENCE_PENDING, true | T_EVALUATOR_PENDING, true => Ok T_INTEGRATION_PENDING
  | _, _ => Raise TransitionError
  end.

Definition accept_evidence (actor_id evidence_id idempotency_key : string) (actor : VerifiedPrincipal)
    (row : TaskRow) : P TaskResult :=
  claim ← read (λ d, c ← evidence_claims (registry d) !! evidence_id;
                  if bool_decide (ec_task_id c = t_id row) then Some c else None);
  claim ← expect claim TransitionError;
  _ ← ensure (claim_passes row claim) TransitionError;
  status ← read (λ d, _task_evidence_status d row);
  _ ← ensure status.1 TransitionError;
  target ← lift_res (evidence_step (t_state row) status.2);
  _transition_task_projection row target actor_id
    ("authoritative evidence accepted: " +:+ evidence_id) idempotency_key actor
    [("accepted_evidence_id", JStr evidence_id)].

Definition accept_task_evidence (task_id : string) (actor : VerifiedPrincipal)
    (idempotency_key evidence_id : string) : P json :=
  task_id ← lift_res (_command_text task_id);
  idempotency_key ← lift_res (_command_text idempotency_key);
  evidence_id ← lift_res (_command_text evidence_id);
  actor_id ← _actor_id actor [R_EVALUATOR; R_SYSTEM];
  task_command task_id "task.evidence." idempotency_key [("evidence_id", JStr evidence_id)]
    (accept_evidence actor_id evidence_id idempotency_key actor).

(** The declared workflow steps are exactly the recorded ones, all succeeded. *)
Definition steps_done (d : DB) (row : TaskRow) : bool :=
  let declared_steps := ws_step_id <$> ts_workflow_steps (t_spec row) in
  bool_decide (declared_steps = [])
  || let step_rows := select (λ s, bool_decide (st_task_id s = t_id row))
                        (workflow_steps (registry d)) in
     let actual_steps := st_step_id <$> step_rows in
     forallb (λ s, memb s declared_steps) actual_steps
     && forallb (λ s, memb s actual_steps) declared_steps
     && forallb (λ s, bool_decide (st_status s = "succeeded")) step_rows.

Definition deliver (actor_id idempotency_key : string) (actor : VerifiedPrincipal) (row : TaskRow)
    : P TaskResult :=
  _ ← ensure (bool_decide (t_state row = T_INTEGRATION_PENDING)) TransitionError;
  status ← read (λ d, _task_evidence_status d row);
  _ ← ensure (status.1 && status.2) TransitionError;
  gates ← _required_decision_gates_satisfied (t_id row) None None;
  _ ← ensure gates TransitionError;
  steps ← read (λ d, steps_done d row);
  _ ← ensure steps TransitionError;
  integration ← read (λ d, negb (ts_integration_required (t_spec row)) || integrated d (t_id row));
  _ ← ensure integration TransitionError;
  run ← read (λ d, r ← t_run_id row; runs d !! r);
  run ← expect run TransitionError;
  fresh ← _freshness_satisfied run;
  _ ← ensure fresh TransitionError;
  _transition_task_projection row T_DELIVERED actor_id
    "persisted evidence, evaluator, integration and freshness satisfied" idempotency_key actor [].

Definition confirm_task_delivery (task_id : string) (actor : VerifiedPrincipal)
    (idempotency_key : string) : P json :=
  task_id ← lift_res (_command_text task_id);
  idempotency_key ← lift_res (_command_text idempotency_key);
  actor_id ← _actor_id actor [R_RELEASE];
  task_command task_id "task.delivery." idempotency_key [("command", JStr "confirm_task_delivery")]
    (deliver actor_id idempotency_key actor).

(** The worker claim that a suspended task needs in order to resume. *)
Definition live_claim (row : TaskRow) (now : Instant) (l : Lease) : bool :=
  bool_decide (l_resource_key l = _task_resource (t_id row))
  && bool_decide (l_project_id l = t_project_id row) && bool_decide (l_task_id l = t_id row)
  && active_at now l.

Definition resume_target (row : TaskRow) : P TaskState :=
  match t_state row with
  | T_BLOCKED => mret T_READY
  | T_SUSPENDED =>
    now ← sql_now;
    live ← read (λ d, map_any (live_claim row now) (leases d));
    _ ← ensure live TransitionError;
    mret T_LEASED
  | _ => raise TransitionError
  end.

Definition control_target (action : string) (row : TaskRow) : P TaskState :=
  if bool_decide (action = "resume") then resume_target row
  else expect (_TASK_CONTROL_TARGETS action) PyKeyError.

(** The targets at which the work of a task is closed. *)
Definition closing : list TaskState := [T_BLOCKED; T_CANCELED; T_DELETED; T_RETIRED].

Definition close_work (task_id : string) (target : TaskState) : P unit :=
  ended_at ← utc_now;
  _ ← write (set_leases (update_where
        (λ l, bool_decide (l_task_id l = task_id) && bool_decide (l_released_at l = None))
        (lease_released ended_at)));
  write (set_attempts (update_where
    (λ a, bool_decide (a_task_id a = task_id) && bool_decide (a_ended_at a = None))
    (λ a, attempt_with (ended_state target) (Some ended_at) (a_failure_id a) a))).

Definition control (actor_id action reason idempotency_key : string) (actor : VerifiedPrincipal)
    (row : TaskRow) : P TaskResult :=
  target ← control_target action row;
  result ← _transition_task_projection row target actor_id
             ("control:" +:+ action +:+ ": " +:+ reason) idempotency_key actor [];
  _ ← (if memb target closing then close_work (t_id row) target else mret tt);
  mret result.

Definition control_task (task_id action reason : string) (actor : VerifiedPrincipal)
    (idempotency_key : string) : P json :=
  task_id ← lift_res (_command_text task_id);
  idempotency_key ← lift_res (_command_text idempotency_key);
  actor_id ← _actor_id actor [R_OWNER; R_SYSTEM];
  let normalized_action := lower (strip action) in
  _ ← ensure (negb (bool_decide (strip action = ""))) ContractError;
  _ ← ensure (bool_decide (normalized_action = "resume")
              || negb (bool_decide (_TASK_CONTROL_TARGETS normalized_action = None))) ContractError;
  let normalized_reason := strip reason in
  _ ← ensure (negb (bool_decide (normalized_reason = ""))) ContractError;
  task_command task_id "task.control." idempotency_key
    [("action", JStr normalized_action); ("reason", JStr normalized_reason)]
    (control actor_id normalized_action normalized_reason idempotency_key actor).

(** ** Reading projections *)
Definition _get_projection {A} (table : DB → gmap string A) (object_id : string) : P A :=
  row ← read (λ d, table d !! object_id); expect row NotFoundError.

Definition get_goal (goal_id : string) : P GoalRow :=
  goal_id ← lift_res (_command_text goal_id); _get_projection goals goal_id.
Definition get_run (run_id : string) : P RunRow :=
  run_id ← lift_res (_command_text run_id); _get_projection runs run_id.
Definition get_task (task_id : string) : P TaskRow :=
  task_id ← lift_res (_command_text task_id); _get_projection tasks task_id.
End kernel.
