(* ===== verification/Replay.v ===== *)
(** * Replay and repair of the projections ([replay.py])

    [ProjectionReplayer] rebuilds the tables of adopted projects and programs,
    goal and task authority bindings, goals, runs and tasks from the event log
    alone, compares them with the stored tables, and repairs goals, runs and
    tasks from it.  The replayed goals, runs and tasks are kept as rows; the
    columns of a task that events do not determine hold what [repair] inserts
    for a missing row. *)

From S2P Require Import Prelude PyStr Json Enums StateMachine Contracts Db Store Identity Leases.
From S2P Require Import Scheduler Authority Gates Kernel.

Local Open Scope string_scope.
Local Open Scope list_scope.
Local Open Scope Z_scope.

Definition _EXECUTION_TASK_STATES : list TaskState :=
  [T_LEASED; T_RUNNING; T_SUSPENDED; T_EVIDENCE_PENDING; T_EVALUATOR_PENDING;
   T_INTEGRATION_PENDING; T_RETRY_PENDING; T_FAILED; T_DELIVERED].
Definition _DUE_MUST_BE_NULL_STATES : list TaskState :=
  [T_LEASED; T_RUNNING; T_SUSPENDED; T_EVIDENCE_PENDING; T_EVALUATOR_PENDING;
   T_INTEGRATION_PENDING; T_DELIVERED; T_FAILED].
Definition _FAILURE_ATTEMPT_STATES : list AttemptState := [A_failed; A_abandoned].

(** ** What replay rebuilds *)
Record RProject := {
  rp_project_id : string; rp_version : Z; rp_digest : string; rp_current_program_id : json;
  rp_spec : ProjectSpec }.
Record RProgram := {
  rg_program_id : string; rg_project_id : string; rg_version : Z; rg_digest : string;
  rg_state : string; rg_graph_digest : string; rg_spec : ProgramSpec; rg_graph_refs : list json }.
Record RGoalAuthority := {
  rga_project_id : string; rga_program_id : string; rga_digest : string;
  rga_authority : CompiledGoalAuthority; rga_source_event_id : string }.
Record RTaskAuthority := {
  rta_project_id : string; rta_program_id : string; rta_goal_id : string; rta_digest : string;
  rta_authority : CompiledTaskAuthority; rta_source_event_id : string }.
(** A run, whose policy version is whatever the event says. *)
Record RRun := { rr_row : RunRow; rr_policy_version : json }.

(** The goals, runs and tasks. *)
Record Core := { c_goals : gmap string GoalRow; c_runs : gmap string RRun; c_tasks : gmap string TaskRow }.
(** The authority registries. *)
Record Adopted := {
  r_projects : gmap string RProject; r_programs : gmap string RProgram;
  r_goal_authorities : gmap string RGoalAuthority; r_task_authorities : gmap string RTaskAuthority }.
Record ReplayResult := {
  rr_versions : gmap (string * string) Z; rr_adopted : Adopted; rr_core : Core }.

Definition empty_core : Core := Build_Core ∅ ∅ ∅.
Definition empty_adopted : Adopted := Build_Adopted ∅ ∅ ∅ ∅.
Definition empty_replay : ReplayResult := Build_ReplayResult ∅ empty_adopted empty_core.

(** Every payload in the log is an object. *)
Definition payload_of (e : Event) : res dict :=
  match ev_payload e with JObj d => Ok d | _ => Raise PyTypeError end.

Definition drop_key (k : string) (d : dict) : dict := List.filter (λ kv, negb (bool_decide (kv.1 = k))) d.

(** [set(d) == keys] *)
Definition keys_are (d : dict) (keys : list string) : bool :=
  forallb (λ k, memb k keys) (dkeys d) && forallb (λ k, memb k (dkeys d)) keys.

(** ** Goals, runs and tasks *)
Definition put_goals f c := Build_Core (f (c_goals c)) (c_runs c) (c_tasks c).
Definition put_runs f c := Build_Core (c_goals c) (f (c_runs c)) (c_tasks c).
Definition put_tasks f c := Build_Core (c_goals c) (c_runs c) (f (c_tasks c)).

Definition _apply_goal (c : Core) (e : Event) (payload : dict) : res Core :=
  let goal_id := ev_aggregate_id e in
  _ ← require (bool_decide (ev_event_type e = "goal_created") && absent (c_goals c) goal_id) IntegrityError;
  spec ← GoalSpec_from_dict payload;
  _ ← require (bool_decide (gs_goal_id spec = goal_id)) IntegrityError;
  Ok (put_goals <[goal_id := {| go_id := goal_id; go_project_id := ev_project_id e;
        go_state := G_COMPILED; go_spec := spec; go_version := ev_aggregate_version e;
        go_created_at := ev_recorded_at e; go_updated_at := ev_recorded_at e |}]> c).

(** A JSON value as a key of a dictionary: lists and objects do not hash. *)
Definition json_key (j : json) : res (option string) :=
  match j with JStr s => Ok (Some s) | JList _ | JObj _ => Raise PyTypeError | _ => Ok None end.

Definition start_run (c : Core) (e : Event) (payload : dict) : res Core :=
  let run_id := ev_aggregate_id e in
  _ ← require (bool_decide (ev_event_type e = value E_OWNER_INTENT_RECEIVED)) IntegrityError;
  key ← json_key (dget_or payload "goal_id" JNull);
  goal_id ← of_option key IntegrityError;
  goal ← of_option (c_goals c !! goal_id) IntegrityError;
  _ ← require (bool_decide (go_project_id goal = ev_project_id e)) IntegrityError;
  policy_version ← dindex payload "policy_version";
  Ok (put_runs <[run_id := {| rr_policy_version := policy_version;
        rr_row := {| ru_id := run_id; ru_goal_id := goal_id; ru_project_id := ev_project_id e;
          ru_loop_state := L_INTAKE; ru_policy_version := ""; ru_version := 1;
          ru_created_at := ev_recorded_at e; ru_updated_at := ev_recorded_at e |} |}]> c).

(** [guards.get(name) is True], of an object. *)
Definition guards_of (j : json) : res Guards :=
  match j with
  | JObj d => Ok (list_to_map (omap (λ kv, match kv.2 with JBool b => Some (kv.1, b) | _ => None end) d))
  | JNull | JBool false | JInt 0 | JStr "" | JList [] => Ok ∅
  | _ => Raise PyTypeError
  end.

Definition _apply_run (c : Core) (e : Event) (payload : dict) : res Core :=
  let run_id := ev_aggregate_id e in
  match c_runs c !! run_id with
  | None => start_run c e payload
  | Some run =>
    target ← match (event ← of_value (ev_event_type e);
                    guards ← guards_of (dget_or payload "guards" (JObj []));
                    apply_loop_event (ru_loop_state (rr_row run)) event guards) with
             | Ok t => Ok t
             | Raise _ => Raise IntegrityError
             end;
    Ok (put_runs <[run_id := {| rr_policy_version := rr_policy_version run;
          rr_row := run_moved target (ev_aggregate_version e) (ev_recorded_at e) (rr_row run) |}]> c)
  end.

Definition run_of_goal (c : Core) (run_id : option string) (goal_id : string) : bool :=
  match run_id with
  | None => true
  | Some r => match c_runs c !! r with
              | Some run => bool_decide (ru_goal_id (rr_row run) = goal_id)
              | None => false
              end
  end.

Definition start_task (c : Core) (e : Event) (payload : dict) : res Core :=
  let task_id := ev_aggregate_id e in
  _ ← require (bool_decide (ev_event_type e = "task_added")) IntegrityError;
  let raw_run := dget_or payload "run_id" JNull in
  spec ← TaskSpec_from_dict (drop_key "run_id" payload);
  _ ← require (bool_decide (ts_task_id spec = task_id) && present (c_goals c) (ts_goal_id spec))
        IntegrityError;
  run_id ← match raw_run with
           | JNull => Ok None
           | j => key ← json_key j; r ← of_option key IntegrityError; Ok (Some r)
           end;
  _ ← require (run_of_goal c run_id (ts_goal_id spec)) IntegrityError;
  Ok (put_tasks <[task_id := {| t_id := task_id; t_goal_id := ts_goal_id spec; t_run_id := run_id;
        t_project_id := ev_project_id e; t_state := T_READY; t_spec := spec; t_version := 1;
        t_attempt_count := 0; t_due_at := None; t_last_error := None;
        t_created_at := ev_recorded_at e; t_updated_at := ev_recorded_at e |}]> c).

(** A text with something other than white space. *)
Definition json_text (j : json) : bool :=
  match j with JStr s => negb (bool_decide (strip s = "")) | _ => false end.

Definition move_fields_ok (current : TaskState) (payload : dict) : bool :=
  forallb (λ k, memb k (dkeys payload)) ["from"; "target"; "reason"]
  && forallb (λ k, memb k ["from"; "target"; "reason"; "accepted_evidence_id"]) (dkeys payload)
  && json_is (dget_or payload "from" JNull) (value current)
  && json_text (dget_or payload "reason" JNull).

Definition evidence_link_ok (current target : TaskState) (payload : dict) : bool :=
  match dget_or payload "accepted_evidence_id" JNull with
  | JNull => true
  | j => json_text j && memb current [T_EVIDENCE_PENDING; T_EVALUATOR_PENDING]
         && memb target [T_EVALUATOR_PENDING; T_INTEGRATION_PENDING]
  end.

Definition _apply_task (c : Core) (e : Event) (payload : dict) : res Core :=
  let task_id := ev_aggregate_id e in
  match c_tasks c !! task_id with
  | None => start_task c e payload
  | Some task =>
    _ ← require (bool_decide (ev_event_type e = "task_state_changed")) IntegrityError;
    let current := t_state task in
    _ ← require (move_fields_ok current payload) IntegrityError;
    target ← match dget_or payload "target" JNull with
             | JStr s => of_value s
             | _ => Raise PyValueError
             end;
    _ ← require (evidence_link_ok current target payload) IntegrityError;
    _ ← match require_task_transition current target with
        | Ok _ => Ok tt
        | Raise _ => Raise IntegrityError
        end;
    Ok (put_tasks <[task_id := task_with target (ev_aggregate_version e) (ev_recorded_at e) task]> c)
  end.

(** ** Adopted projects and programs, bindings of goals and tasks *)
Definition put_projects f a :=
  Build_Adopted (f (r_projects a)) (r_programs a) (r_goal_authorities a) (r_task_authorities a).
Definition put_programs f a :=
  Build_Adopted (r_projects a) (f (r_programs a)) (r_goal_authorities a) (r_task_authorities a).
Definition put_goal_authorities f a :=
  Build_Adopted (r_projects a) (r_programs a) (f (r_goal_authorities a)) (r_task_authorities a).
Definition put_task_authorities f a :=
  Build_Adopted (r_projects a) (r_programs a) (r_goal_authorities a) (f (r_task_authorities a)).

(** The references that the rebuilt rows stand for. *)
Definition project_ref (p : RProject) : AuthorityRef :=
  {| ar_kind := "project"; ar_object_id := rp_project_id p; ar_version := rp_version p;
     ar_digest := rp_digest p |}.
Definition program_ref (p : RProgram) : AuthorityRef :=
  {| ar_kind := "program"; ar_object_id := rg_program_id p; ar_version := rg_version p;
     ar_digest := rg_digest p |}.

Section replay.
Context `{ENV : Env}.

Definition _apply_project_authority (a : Adopted) (e : Event) (payload : dict) : res Adopted :=
  let project_id := ev_aggregate_id e in
  _ ← require (bool_decide (ev_event_type e = "project_authority_adopted")
               && absent (r_projects a) project_id) IntegrityError;
  _ ← require (keys_are payload ["project_spec"; "current_program_id"]) IntegrityError;
  raw ← mapping (dget_or payload "project_spec" JNull);
  project ← ProjectSpec_from_dict raw;
  _ ← require (bool_decide (pj_project_id project = project_id)) IntegrityError;
  Ok (put_projects <[project_id := {| rp_project_id := project_id; rp_version := pj_version project;
        rp_digest := ar_digest (ProjectSpec_reference project);
        rp_current_program_id := dget_or payload "current_program_id" JNull;
        rp_spec := project |}]> a).

Definition _apply_program_authority (a : Adopted) (e : Event) (payload : dict) : res Adopted :=
  let program_id := ev_aggregate_id e in
  _ ← require (bool_decide (ev_event_type e = "program_authority_adopted")
               && absent (r_programs a) program_id) IntegrityError;
  _ ← require (keys_are payload ["program_spec"; "graph_refs"; "graph_digest"]) IntegrityError;
  raw ← mapping (dget_or payload "program_spec" JNull);
  program ← ProgramSpec_from_dict raw;
  project ← of_option (r_projects a !! ar_object_id (pg_project_ref program)) IntegrityError;
  _ ← require (bool_decide (pg_program_id program = program_id)
               && bool_decide (pg_project_ref program = project_ref project)) IntegrityError;
  graph ← match dget_or payload "graph_refs" JNull with
          | JList l => Ok l
          | _ => Raise IntegrityError
          end;
  let digest := content_hash (JList graph) in
  _ ← require (json_is (dget_or payload "graph_digest" JNull) digest) IntegrityError;
  _ ← require (existsb (same_json (jref (ProgramSpec_reference program))) graph) IntegrityError;
  Ok (put_programs <[program_id := {| rg_program_id := program_id;
        rg_project_id := ar_object_id (pg_project_ref program); rg_version := pg_version program;
        rg_digest := ar_digest (ProgramSpec_reference program); rg_state := value (pg_state program);
        rg_graph_digest := digest; rg_spec := program; rg_graph_refs := graph |}]> a).

(** The parents that an authority names are the adopted ones. *)
Definition parents_match (project : RProject) (program : RProgram) (pref gref : AuthorityRef) : bool :=
  bool_decide (pref = project_ref project) && bool_decide (gref = program_ref program).

Definition _apply_goal_authority (a : Adopted) (e : Event) (payload : dict) : res Adopted :=
  let goal_id := ev_aggregate_id e in
  _ ← require (bool_decide (ev_event_type e = "goal_authority_bound")
               && absent (r_goal_authorities a) goal_id) IntegrityError;
  authority ← CompiledGoalAuthority_from_dict payload;
  project ← of_option (r_projects a !! ar_object_id (cg_project_ref authority)) IntegrityError;
  program ← of_option (r_programs a !! ar_object_id (cg_program_ref authority)) IntegrityError;
  _ ← require (bool_decide (gs_goal_id (cg_goal_spec authority) = goal_id)
               && parents_match project program (cg_project_ref authority) (cg_program_ref authority)
               && bool_decide (rg_project_id program = rp_project_id project)) IntegrityError;
  Ok (put_goal_authorities <[goal_id := {|
        rga_project_id := ar_object_id (cg_project_ref authority);
        rga_program_id := ar_object_id (cg_program_ref authority);
        rga_digest := content_hash (JObj (CompiledGoalAuthority_to_dict authority));
        rga_authority := authority; rga_source_event_id := ev_id e |}]> a).

(** [except (ContractError, TypeError, ValueError) as exc: raise IntegrityError] *)
Definition as_integrity {A} (es : list Exn) (r : res A) : res A :=
  match r with
  | Ok a => Ok a
  | Raise e => Raise (if memb e es then IntegrityError else e)
  end.

Definition _apply_task_authority (a : Adopted) (e : Event) (payload : dict) : res Adopted :=
  let task_id := ev_aggregate_id e in
  _ ← require (bool_decide (ev_event_type e = "task_authority_bound")
               && absent (r_task_authorities a) task_id) IntegrityError;
  authority ← as_integrity malformed (CompiledTaskAuthority_from_dict payload);
  goal ← of_option (r_goal_authorities a !! ar_object_id (ct_goal_ref authority)) IntegrityError;
  project ← of_option (r_projects a !! ar_object_id (ct_project_ref authority)) IntegrityError;
  program ← of_option (r_programs a !! ar_object_id (ct_program_ref authority)) IntegrityError;
  _ ← require (bool_decide (ts_task_id (ct_task_spec authority) = task_id)
               && bool_decide (ct_goal_ref authority = CompiledGoalAuthority_reference (rga_authority goal))
               && parents_match project program (ct_project_ref authority) (ct_program_ref authority)
               && bool_decide (rga_project_id goal = rp_project_id project)
               && bool_decide (rga_program_id goal = rg_program_id program)) IntegrityError;
  Ok (put_task_authorities <[task_id := {|
        rta_project_id := ar_object_id (ct_project_ref authority);
        rta_program_id := ar_object_id (ct_program_ref authority);
        rta_goal_id := ar_object_id (ct_goal_ref authority);
        rta_digest := content_hash (JObj (CompiledTaskAuthority_to_dict authority));
        rta_authority := authority; rta_source_event_id := ev_id e |}]> a).

(** The checks of one project after the last event. *)
Definition program_graph_ok (expected : list json) (program : RProgram) : res unit :=
  refs ← as_integrity [ContractError; PyTypeError]
           (mapR (λ j, mapping j ≫= AuthorityRef_from_dict) (rg_graph_refs program));
  require (no_dups refs && forallb (λ r, bool_decide (ar_kind r = "program")) refs
           && same_json (JList (rg_graph_refs program)) (JList expected)
           && bool_decide (rg_graph_digest program = content_hash (JList expected))) IntegrityError.

Definition project_graph_ok (programs : gmap string RProgram) (project : RProject) : res unit :=
  let project_programs := select (λ p, bool_decide (rg_project_id p = rp_project_id project)) programs in
  current ← of_option (List.find (λ p, json_is (rp_current_program_id project) (rg_program_id p))
                         project_programs) IntegrityError;
  let specs := rg_spec <$> project_programs in
  let expected := (λ p, jref (ProgramSpec_reference p)) <$> order_by by_wave specs in
  _ ← foldR (λ _, program_graph_ok expected) tt project_programs;
  _ ← as_integrity [ContractError] (validate_program_graph (rp_spec project) specs);
  require (negb (terminal (pg_state (rg_spec current)))) IntegrityError.

Definition _validate_authority_graph (a : Adopted) : res unit :=
  foldR (λ _, project_graph_ok (r_programs a)) tt (rows (r_projects a)).

(** ** The fold over the log *)
Definition apply_adopted (aggregate_type : string) (a : Adopted) (e : Event) (payload : dict) :
    option (res Adopted) :=
  if bool_decide (aggregate_type = "project_authority") then Some (_apply_project_authority a e payload)
  else if bool_decide (aggregate_type = "program_authority") then Some (_apply_program_authority a e payload)
  else if bool_decide (aggregate_type = "goal_authority") then Some (_apply_goal_authority a e payload)
  else if bool_decide (aggregate_type = "task_authority") then Some (_apply_task_authority a e payload)
  else None.

Definition apply_core (aggregate_type : string) (c : Core) (e : Event) (payload : dict) :
    option (res Core) :=
  if bool_decide (aggregate_type = "goal") then Some (_apply_goal c e payload)
  else if bool_decide (aggregate_type = "run") then Some (_apply_run c e payload)
  else if bool_decide (aggregate_type = "task") then Some (_apply_task c e payload)
  else None.

Definition replayed_types : list string :=
  ["goal"; "run"; "task"; "project_authority"; "program_authority"; "goal_authority"; "task_authority"].

Definition next_version (versions : gmap (string * string) Z) (e : Event) :
    res (gmap (string * string) Z) :=
  let key := (ev_aggregate_type e, ev_aggregate_id e) in
  let expected := default 0 (versions !! key) + 1 in
  _ ← require (ev_aggregate_version e =? expected) IntegrityError;
  Ok (<[key := expected]> versions).

Definition apply_row (r : ReplayResult) (e : Event) : res ReplayResult :=
  let ty := ev_aggregate_type e in
  if negb (memb ty replayed_types) then Ok r else
  versions ← next_version (rr_versions r) e;
  payload ← payload_of e;
  match apply_adopted ty (rr_adopted r) e payload, apply_core ty (rr_core r) e payload with
  | Some m, _ => a ← m; Ok (Build_ReplayResult versions a (rr_core r))
  | None, Some m => c ← m; Ok (Build_ReplayResult versions (rr_adopted r) c)
  | None, None => Ok r
  end.

Definition replay_events (es : list Event) : res ReplayResult :=
  r ← foldR apply_row empty_replay es;
  _ ← _validate_authority_graph (rr_adopted r);
  Ok r.

Definition _replay_in_transaction : P ReplayResult :=
  _ ← verify_event_chain;
  d ← read id;
  lift_res (replay_events (events d)).

Definition replay : P ReplayResult := transaction _replay_in_transaction.

(** ** Comparison with the tables

    [columns_match] compares the compared columns of a table with the rebuilt
    rows, under the same keys. *)
Definition columns_match {A B C} `{EqDecision C} (actual : A → C) (expected : B → C)
    (table : gmap string A) (rebuilt : gmap string B) : bool :=
  bool_decide (actual <$> table = expected <$> rebuilt).

Definition spec_text (d : dict) : string := canonical_json (JObj d).

Definition project_columns (r : AdoptedProject) : Z * string * string * string :=
  (ad_version r, ad_digest r, spec_text (ad_spec r), canonical_json (JStr (ad_current_program_id r))).
Definition rproject_columns (p : RProject) : Z * string * string * string :=
  (rp_version p, rp_digest p, spec_text (ProjectSpec_to_dict (rp_spec p)),
   canonical_json (rp_current_program_id p)).

Definition program_row_columns (r : AdoptedProgram) : string * Z * string * string * string * string :=
  (ag_project_id r, ag_version r, ag_digest r, ag_state r, ag_graph_digest r, spec_text (ag_spec r)).
Definition rprogram_columns (p : RProgram) : string * Z * string * string * string * string :=
  (rg_project_id p, rg_version p, rg_digest p, rg_state p, rg_graph_digest p,
   spec_text (ProgramSpec_to_dict (rg_spec p))).

Definition goal_binding_columns (b : GoalBinding) : string * string * string * string * string :=
  (gb_project_id b, gb_program_id b, gb_digest b, spec_text (gb_authority b), gb_source_event_id b).
Definition rgoal_columns (a : RGoalAuthority) : string * string * string * string * string :=
  (rga_project_id a, rga_program_id a, rga_digest a,
   spec_text (CompiledGoalAuthority_to_dict (rga_authority a)), rga_source_event_id a).

Definition task_binding_columns (b : TaskBinding)
    : string * string * string * string * string * Z * Z * string * string :=
  (tb_project_id b, tb_program_id b, tb_goal_id b, tb_digest b, spec_text (tb_authority b),
   tb_provider_budget_minor_units b, tb_provider_call_limit b,
   canonical_json (tb_required_decision_gates b), tb_source_event_id b).
Definition rtask_columns (a : RTaskAuthority)
    : string * string * string * string * string * Z * Z * string * string :=
  (rta_project_id a, rta_program_id a, rta_goal_id a, rta_digest a,
   spec_text (CompiledTaskAuthority_to_dict (rta_authority a)),
   ct_provider_budget_minor_units (rta_authority a), ct_provider_call_limit (rta_authority a),
   canonical_json (jgates (ct_decision_gate_contracts (rta_authority a))), rta_source_event_id a).

Definition goal_columns (g : GoalRow) : string * GoalState * string * Z :=
  (go_project_id g, go_state g, spec_text (GoalSpec_to_dict (go_spec g)), go_version g).
Definition run_columns (r : RunRow) : string * string * LoopState * string * Z :=
  (ru_goal_id r, ru_project_id r, ru_loop_state r, canonical_json (JStr (ru_policy_version r)),
   ru_version r).
Definition rrun_columns (r : RRun) : string * string * LoopState * string * Z :=
  (ru_goal_id (rr_row r), ru_project_id (rr_row r), ru_loop_state (rr_row r),
   canonical_json (rr_policy_version r),
   ru_version (rr_row r)).
Definition task_columns (t : TaskRow) : string * option string * string * TaskState * string * Z :=
  (t_goal_id t, t_run_id t, t_project_id t, t_state t, spec_text (TaskSpec_to_dict (t_spec t)), t_version t).

Definition core_tables_match (d : DB) (c : Core) : bool :=
  columns_match goal_columns goal_columns (goals d) (c_goals c)
  && columns_match run_columns rrun_columns (runs d) (c_runs c)
  && columns_match task_columns task_columns (tasks d) (c_tasks c).

Definition adopted_tables_match (d : DB) (a : Adopted) : bool :=
  columns_match project_columns rproject_columns (adopted_projects (registry d)) (r_projects a)
  && columns_match program_row_columns rprogram_columns (adopted_programs (registry d)) (r_programs a)
  && columns_match goal_binding_columns rgoal_columns (goal_bindings (registry d)) (r_goal_authorities a)
  && columns_match task_binding_columns rtask_columns (task_bindings (registry d)) (r_task_authorities a).

(** ** The operational columns of tasks *)
Definition task_attempts (d : DB) (task_id : string) : list Attempt :=
  order_by (λ a b, a_number a <=? a_number b)
    (select (λ a, bool_decide (a_task_id a = task_id)) (attempts d)).

(** The negative result of a failed attempt, of the same task, project and run. *)
Definition failure_of (d : DB) (t : TaskRow) (a : Attempt) : option NegativeResult :=
  i ← a_failure_id a; negatives d !! i.
Definition owned_failure (t : TaskRow) (n : NegativeResult) : bool :=
  bool_decide (n_task_id n = t_id t) && bool_decide (n_project_id n = t_project_id t)
  && bool_decide (Some (n_run_id n) = t_run_id t).

Definition attempt_ok (d : DB) (t : TaskRow) (a : Attempt) : bool :=
  bool_decide (Some (a_run_id a) = t_run_id t)
  && match a_failure_id a with
     | None => negb (memb (a_state a) _FAILURE_ATTEMPT_STATES)
     | Some _ =>
       memb (a_state a) _FAILURE_ATTEMPT_STATES
       && match failure_of d t a with Some n => owned_failure t n | None => false end
       && negb (bool_decide (a_ended_at a = None))
     end.

(** The last failed attempt with its negative result. *)
Definition latest_failure (d : DB) (t : TaskRow) : option (Attempt * NegativeResult) :=
  last (omap (λ a, n ← failure_of d t a; Some (a, n)) (task_attempts d (t_id t))).

Definition _verify_due_at (t : TaskRow) (attempt_count : Z) (due_at : option Instant)
    (latest : option (Attempt * NegativeResult)) : bool :=
  let at_latest := match latest with Some (a, _) => a_number a =? attempt_count | None => false end in
  let supported := at_latest && negb (attempt_count =? 0) in
  (negb (bool_decide (t_state t = T_RETRY_PENDING))
   || negb (bool_decide (due_at = None)) && supported && (attempt_count <? ts_max_attempts (t_spec t)))
  && (negb (bool_decide (t_state t = T_FAILED))
      || supported && (ts_max_attempts (t_spec t) <=? attempt_count))
  && match due_at with
     | None => true
     | Some due =>
       negb (memb (t_state t) _DUE_MUST_BE_NULL_STATES) && at_latest
       && match latest with
          | Some (a, _) => match a_ended_at a with
                           | Some ended => julianday ended <? julianday due
                           | None => false
                           end
          | None => false
          end
     end.

Definition task_operational_ok (d : DB) (t : TaskRow) : bool :=
  match tasks d !! t_id t with
  | None => false
  | Some actual =>
    let attempts := task_attempts d (t_id t) in
    let expected_count := Z.of_nat (length attempts) in
    bool_decide (a_number <$> attempts = seqZ 1 expected_count)
    && (t_attempt_count actual =? expected_count)
    && forallb (λ n, bool_decide (n_project_id n = t_project_id t) && bool_decide (Some (n_run_id n) = t_run_id t))
         (select (λ n, bool_decide (n_task_id n = t_id t)) (negatives d))
    && forallb (attempt_ok d t) attempts
    && bool_decide (t_last_error actual = n_fingerprint ∘ snd <$> latest_failure d t)
    && _verify_due_at t expected_count (t_due_at actual) (latest_failure d t)
  end.

Definition _verify_task_operational_projections (d : DB) (c : Core) : bool :=
  forallb (λ a, present (c_tasks c) (a_task_id a)) (rows (attempts d))
  && forallb (λ n, present (c_tasks c) (n_task_id n)) (rows (negatives d))
  && forallb (task_operational_ok d) (rows (c_tasks c)).

Definition projections_ok (d : DB) (r : ReplayResult) : bool :=
  adopted_tables_match d (rr_adopted r) && core_tables_match d (rr_core r)
  && _verify_task_operational_projections d (rr_core r).

Definition _verify_projections_in_transaction (r : ReplayResult) : P unit :=
  d ← read id; ensure (projections_ok d r) IntegrityError.

Definition verify_projections : P ReplayResult :=
  transaction (
    replayed ← _replay_in_transaction;
    _ ← _verify_projections_in_transaction replayed;
    mret replayed).

(** ** Repair *)
Definition secondary_rows (d : DB) (task_id : string) : bool :=
  let of_task {A} (f : A → string) (x : A) := bool_decide (f x = task_id) in
  map_any (of_task a_task_id) (attempts d)
  || map_any (of_task st_task_id) (workflow_steps (registry d))
  || map_any (of_task l_task_id) (leases d)
  || map_any (of_task av_task_id) (approvals (registry d))
  || map_any (of_task gr_task_id) (grants (registry d))
  || map_any (of_task ox_task_id) (outbox (effects (registry d)))
  || map_any (of_task at_task_id) (artifacts (effects (registry d)))
  || map_any (of_task ec_task_id) (evidence_claims (registry d))
  || map_any (of_task as_task_id) (context_assemblies (knowledge (effects (registry d))))
  || map_any (of_task n_task_id) (negatives d)
  || map_any (of_task ii_task_id) (integration_items (registry d)).

Definition executed (e : Event) : res bool :=
  payload ← payload_of e;
  match dget_or payload "target" JNull with
  | JStr s => Ok (memb s (value <$> _EXECUTION_TASK_STATES))
  | JList _ | JObj _ => Raise PyTypeError
  | _ => Ok false
  end.

Definition _require_safe_missing_task_rebuild (d : DB) (task_id : string) : res unit :=
  _ ← require (negb (secondary_rows d task_id)) IntegrityError;
  foldR (λ _ e, b ← executed e; require (negb b) IntegrityError) tt
    (List.filter (λ e, of_aggregate "task" task_id e && bool_decide (ev_event_type e = "task_state_changed"))
       (events d)).

(** [INSERT ... ON CONFLICT DO UPDATE], which keeps [created_at]. *)
Definition upsert_goal (g : GoalRow) : P unit :=
  existing ← read (λ d, goals d !! go_id g);
  match existing with
  | None => insert_goal g
  | Some old => write (set_goals <[go_id g := {| go_id := go_id g; go_project_id := go_project_id g;
      go_state := go_state g; go_spec := go_spec g; go_version := go_version g;
      go_created_at := go_created_at old; go_updated_at := go_updated_at g |}]>)
  end.

(** A TEXT column takes the text of a number; other values cannot be bound. *)
Definition bound_text (j : json) : res string :=
  o ← sql_text j; of_option o SqliteIntegrityError.

Definition upsert_run (r : RRun) : P unit :=
  policy_version ← lift_res (bound_text (rr_policy_version r));
  let row := rr_row r in
  let with_created created := {| ru_id := ru_id row; ru_goal_id := ru_goal_id row;
    ru_project_id := ru_project_id row; ru_loop_state := ru_loop_state row;
    ru_policy_version := policy_version; ru_version := ru_version row; ru_created_at := created;
    ru_updated_at := ru_updated_at row |} in
  existing ← read (λ d, runs d !! ru_id row);
  match existing with
  | None => insert_run (with_created (ru_created_at row))
  | Some old =>
    _ ← constraint (λ d, present (goals d) (ru_goal_id row));
    write (set_runs <[ru_id row := with_created (ru_created_at old)]>)
  end.

Definition upsert_task (t : TaskRow) : P unit :=
  existing ← read (λ d, tasks d !! t_id t);
  match existing with
  | None => insert_task t
  | Some old =>
    _ ← constraint (λ d, present (goals d) (t_goal_id t)
          && match t_run_id t with None => true | Some r => present (runs d) r end);
    write (set_tasks <[t_id t := {| t_id := t_id t; t_goal_id := t_goal_id t; t_run_id := t_run_id t;
      t_project_id := t_project_id t; t_state := t_state t; t_spec := t_spec t; t_version := t_version t;
      t_attempt_count := t_attempt_count old; t_due_at := t_due_at old; t_last_error := t_last_error old;
      t_created_at := t_created_at old; t_updated_at := t_updated_at t |}]>)
  end.

Definition no_extras {A B} (table : gmap string A) (rebuilt : gmap string B) : bool :=
  forallb (present rebuilt) (map_to_list table).*1.

Definition repair (actor : VerifiedPrincipal) : P ReplayResult :=
  transaction (
    _ ← require_role_in_transaction actor R_SYSTEM;
    replayed ← _replay_in_transaction;
    d ← read id;
    let c := rr_core replayed in
    _ ← ensure (no_extras (goals d) (c_goals c) && no_extras (runs d) (c_runs c)
                && no_extras (tasks d) (c_tasks c)) IntegrityError;
    _ ← lift_res (foldR (λ _ task_id, _require_safe_missing_task_rebuild d task_id) tt
          (List.filter (absent (tasks d)) (map_to_list (c_tasks c)).*1));
    _ ← forM (rows (c_goals c)) upsert_goal;
    _ ← forM (rows (c_runs c)) upsert_run;
    _ ← forM (rows (c_tasks c)) upsert_task;
    _ ← _verify_projections_in_transaction replayed;
    mret replayed).
End replay.
