(* ===== verification/System.v ===== *)
(** * The components together

    Commands of the kernel, the scheduler, the lease and the identity managers
    run against one database, in any order and from any process.  The goals,
    runs and tasks that they leave are the ones that the log says: replay
    rebuilds them. *)

From S2P Require Import Prelude PyStr Json Enums StateMachine Contracts Db Store Identity Leases.
From S2P Require Import Scheduler Authority Gates Registries Services Kernel Replay.

Local Open Scope string_scope.
Local Open Scope list_scope.
Local Open Scope Z_scope.

Arguments content_hash : simpl never.
Arguments GoalSpec_to_dict : simpl never.
Arguments TaskSpec_to_dict : simpl never.
Arguments GoalSpec_from_dict : simpl never.
Arguments TaskSpec_from_dict : simpl never.

(** Decide that a literal is not in a list of literals. *)
Ltac not_listed := cbn -[elem_of]; apply (bool_decide_unpack _); vm_compute; exact I.

(** ** The part of replay that rebuilds goals, runs and tasks *)
Definition core_types : list string := ["goal"; "run"; "task"].

Definition core_row (c : Core) (e : Event) : res Core :=
  if memb (ev_aggregate_type e) core_types then
    payload ← payload_of e;
    default (Ok c) (apply_core (ev_aggregate_type e) c e payload)
  else Ok c.
Definition core_log (es : list Event) : res Core := foldR core_row empty_core es.

Lemma foldR_app {S A} (f : S → A → res S) st l l' :
  foldR f st (l ++ l') = (st' ← foldR f st l; foldR f st' l').
Proof.
  revert st. induction l as [|x l IH]; intros st; simpl; [done|].
  destruct (f st x) as [st'|e]; simpl; [apply IH|done].
Qed.

(** ** Tables and rebuilt rows *)

(** Two maps with the same keys and related rows. *)
Definition rel_map {A B} (R : string → A → B → Prop) (m : gmap string A) (n : gmap string B) : Prop :=
  ∀ k, match m !! k, n !! k with
       | Some x, Some y => R k x y
       | None, None => True
       | _, _ => False
       end.

Lemma rel_map_insert {A B} (R : string → A → B → Prop) m n k x y :
  rel_map R m n → R k x y → rel_map R (<[k := x]> m) (<[k := y]> n).
Proof.
  intros Hm HR j. destruct (decide (k = j)) as [<-|Hne]; [by rewrite !lookup_insert_eq|].
  rewrite !lookup_insert_ne by done. apply Hm.
Qed.
Lemma rel_map_some {A B} (R : string → A → B → Prop) m n k x :
  rel_map R m n → m !! k = Some x → ∃ y, n !! k = Some y ∧ R k x y.
Proof. intros Hm Hk. specialize (Hm k). rewrite Hk in Hm. destruct (n !! k); [eauto|done]. Qed.
Lemma rel_map_none {A B} (R : string → A → B → Prop) m n k :
  rel_map R m n → m !! k = None → n !! k = None.
Proof. intros Hm Hk. specialize (Hm k). rewrite Hk in Hm. by destruct (n !! k). Qed.
Lemma rel_map_columns {A B C} (R : string → A → B → Prop) (f : A → C) (g : B → C) m n :
  rel_map R m n → (∀ k x y, R k x y → f x = g y) → f <$> m = g <$> n.
Proof.
  intros Hm Hf. apply map_eq. intros k. rewrite !lookup_fmap. specialize (Hm k).
  destruct (m !! k), (n !! k); simpl; try done. f_equal. by eapply Hf.
Qed.

Definition goal_rel (k : string) (g h : GoalRow) : Prop :=
  go_id g = k ∧ go_id h = k ∧ go_project_id g = go_project_id h ∧ go_state g = go_state h ∧
  go_spec g = go_spec h ∧ go_version g = go_version h.
Definition run_rel (k : string) (r : RunRow) (s : RRun) : Prop :=
  ru_id r = k ∧ ru_id (rr_row s) = k ∧ ru_goal_id r = ru_goal_id (rr_row s) ∧
  ru_project_id r = ru_project_id (rr_row s) ∧ ru_loop_state r = ru_loop_state (rr_row s) ∧
  ru_version r = ru_version (rr_row s) ∧ rr_policy_version s = JStr (ru_policy_version r).
Definition task_rel (k : string) (t u : TaskRow) : Prop :=
  t_id t = k ∧ t_id u = k ∧ t_goal_id t = t_goal_id u ∧ t_run_id t = t_run_id u ∧
  t_project_id t = t_project_id u ∧ t_state t = t_state u ∧ t_spec t = t_spec u ∧
  t_version t = t_version u.

Record matches (d : DB) (c : Core) : Prop := {
  mt_goals : rel_map goal_rel (goals d) (c_goals c);
  mt_runs : rel_map run_rel (runs d) (c_runs c);
  mt_tasks : rel_map task_rel (tasks d) (c_tasks c) }.

(** Every event that the log holds rebuilds, and what it rebuilds are the tables. *)
Definition core_inv (d : DB) : Prop := ∃ c, core_log (events d) = Ok c ∧ matches d c.

Lemma core_log_snoc es e c : core_log es = Ok c → core_log (es ++ [e]) = core_row c e.
Proof. intros Hc. unfold core_log in *. rewrite foldR_app, Hc. simpl. by destruct (core_row c e). Qed.

(** The row is the current one of its task, up to its operational columns. *)
Definition current (d : DB) (row : TaskRow) : Prop :=
  ∃ t, tasks d !! t_id row = Some t ∧ task_rel (t_id row) t row.

(** The invariant, with rows that a query has read and that are still current. *)
Definition CI (held : list TaskRow) (d : DB) : Prop := core_inv d ∧ Forall (current d) held.

Lemma CI_same held d d' :
  goals d' = goals d → runs d' = runs d → tasks d' = tasks d → events d' = events d →
  CI held d → CI held d'.
Proof.
  intros Hg Hr Ht He [(c & Hc & []) Hh]. split.
  - exists c. rewrite He. split; [done|]. by constructor; rewrite ?Hg, ?Hr, ?Ht.
  - eapply Forall_impl; [exact Hh|]. intros row. unfold current. by rewrite Ht.
Qed.

(** Writes to the other columns of tasks. *)
Definition operational (f : TaskRow → TaskRow) : Prop :=
  ∀ t, t_id (f t) = t_id t ∧ t_goal_id (f t) = t_goal_id t ∧ t_run_id (f t) = t_run_id t ∧
    t_project_id (f t) = t_project_id t ∧ t_state (f t) = t_state t ∧ t_spec (f t) = t_spec t ∧
    t_version (f t) = t_version t.

Lemma task_rel_operational f k t u : operational f → task_rel k t u → task_rel k (f t) u.
Proof. intros Hf (? & ? & ? & ? & ? & ? & ? & ?). destruct (Hf t) as (? & ? & ? & ? & ? & ? & ?).
  repeat split; congruence. Qed.

Lemma CI_operational held d f id : operational f → CI held d → CI held (set_tasks (alter f id) d).
Proof.
  intros Hf [(c & Hc & [Hg Hr Ht]) Hh]. split.
  - exists c. split; [done|]. constructor; [done..|]. intros k. simpl. specialize (Ht k).
    destruct (decide (id = k)) as [<-|]; [rewrite lookup_alter_eq|by rewrite lookup_alter_ne].
    destruct (tasks d !! id), (c_tasks c !! id); simpl; try done. by apply task_rel_operational.
  - eapply Forall_impl; [exact Hh|]. intros row (t & Htr & Hrel). unfold current. simpl.
    destruct (decide (id = t_id row)) as [->|];
      [rewrite lookup_alter_eq, Htr|rewrite lookup_alter_ne by done; by exists t].
    exists (f t). split; [done|]. by apply task_rel_operational.
Qed.

(** ** Events *)

(** An event of another aggregate. *)
Lemma CI_logged_other held d e :
  ev_aggregate_type e ∉ core_types → CI held d → CI held (logged [e] d).
Proof.
  intros Hty [(c & Hc & [Hg Hr Ht]) Hh]. split; [|done]. exists c. split; [|done]. simpl.
  rewrite (core_log_snoc _ _ c Hc). unfold core_row, memb. by rewrite bool_decide_eq_false_2.
Qed.

(** *** A move of a task *)
Record move_event (row : TaskRow) (target : TaskState) (e : Event) : Prop := {
  me_type : ev_aggregate_type e = "task"; me_id : ev_aggregate_id e = t_id row;
  me_event : ev_event_type e = "task_state_changed";
  me_version : ev_aggregate_version e = t_version row + 1;
  me_route : target ∈ TASK_TRANSITIONS (t_state row);
  me_payload : ∃ reason fields,
    ev_payload e = JObj (move_payload (t_state row) target reason ++ fields) ∧ strip reason ≠ "" ∧
    (fields = [] ∨ ∃ i, fields = [("accepted_evidence_id", JStr i)] ∧ strip i ≠ "" ∧
       t_state row ∈ [T_EVIDENCE_PENDING; T_EVALUATOR_PENDING] ∧
       target ∈ [T_EVALUATOR_PENDING; T_INTEGRATION_PENDING]) }.

Lemma json_text_true s : strip s ≠ "" → json_text (JStr s) = true.
Proof. intros Hs. unfold json_text. by rewrite bool_decide_eq_false_2. Qed.

Lemma move_fields_plain current target reason fields :
  strip reason ≠ "" → fields = [] ∨ (∃ i, fields = [("accepted_evidence_id", JStr i)]) →
  move_fields_ok current (move_payload current target reason ++ fields) = true.
Proof.
  intros Hr Hf. unfold move_fields_ok.
  assert (json_is (dget_or (move_payload current target reason ++ fields) "from" JNull) (value current) = true)
    as -> by (by apply bool_decide_eq_true).
  change (dget_or _ "reason" JNull) with (JStr reason). rewrite json_text_true by done.
  by destruct Hf as [-> | (i & ->)].
Qed.

Lemma move_row c row target e u :
  move_event row target e → c_tasks c !! t_id row = Some u → t_state u = t_state row →
  core_row c e = Ok (put_tasks <[t_id row := task_with target (t_version row + 1) (ev_recorded_at e) u]> c).
Proof.
  intros [Hty Hid Hev Hver Hroute (reason & fields & Hpay & Hr & Hf)] Hu Hs.
  assert (require_task_transition (t_state row) target = Ok tt) as Htr
    by (by apply require_task_transition_ok).
  assert (move_fields_ok (t_state row) (move_payload (t_state row) target reason ++ fields) = true) as Hfields
    by (apply move_fields_plain; [done|]; destruct Hf as [->|(i & -> & _)]; eauto).
  assert (evidence_link_ok (t_state row) target (move_payload (t_state row) target reason ++ fields) = true)
    as Hlink.
  { destruct Hf as [->|(i & -> & Hi & Hc & Ht)]; [done|]. unfold evidence_link_ok.
    change (dget_or _ "accepted_evidence_id" JNull) with (JStr i). cbv beta iota.
    rewrite json_text_true by done. by rewrite !(proj2 (memb_true _ _)). }
  assert (dget_or (move_payload (t_state row) target reason ++ fields) "target" JNull = JStr (value target))
    as Htarget by done.
  unfold core_row, payload_of, apply_core, _apply_task. rewrite Hty, Hpay.
  revert Hfields Hlink Htarget. generalize (move_payload (t_state row) target reason ++ fields).
  intros payload Hfields Hlink Htarget. simpl. rewrite Htarget, Hid, Hu, Hev, Hs, Hfields. simpl. rewrite of_value_value. simpl. rewrite Hlink. simpl.
  rewrite Htr. simpl. by rewrite Hver.
Qed.

Lemma task_rel_move k t u target v now now' :
  task_rel k t u → task_rel k (task_with target v now t) (task_with target v now' u).
Proof. by intros (? & ? & ? & ? & ? & ? & ? & ?). Qed.

Lemma CI_move held d row target e now updated :
  CI (row :: held) d → t_id row ∉ t_id <$> held → move_event row target e →
  CI (task_with target (t_version row + 1) updated row :: held)
    (changed (t_id row) (task_with target (t_version row + 1) now) (logged [e] d)).
Proof.
  intros [(c & Hc & [Hg Hr Ht]) Hh] Hnin Hm. inversion Hh as [|? ? (t & Htr & Hrel) Hheld]; subst.
  destruct (rel_map_some _ _ _ _ _ Ht Htr) as (u & Hu & Hru).
  assert (t_state u = t_state row ∧ t_version u = t_version row) as [Hsu Hvu]
    by (destruct Hru as (? & ? & ? & ? & ? & ? & ? & ?), Hrel as (? & ? & ? & ? & ? & ? & ? & ?); split; congruence).
  split.
  - eexists. split; [simpl; rewrite (core_log_snoc _ _ c Hc); by eapply move_row|].
    constructor; [done..|]. simpl. rewrite (alter_known _ _ _ t Htr).
    apply rel_map_insert; [done|]. by apply task_rel_move.
  - constructor.
    + exists (task_with target (t_version row + 1) now t). simpl. rewrite lookup_alter_eq, Htr.
      split; [done|]. by apply task_rel_move.
    + apply Forall_forall. intros r Hin. destruct (proj1 (Forall_forall _ _) Hheld r Hin) as (t' & Ht' & Hr').
      exists t'. split; [|done].
      simpl. rewrite lookup_alter_ne; [done|]. intros He. apply Hnin. rewrite He. by apply list_elem_of_fmap_2.
Qed.

(** *** Creations, and moves of a run *)
Section events.
Context `{ENV : Env}.

Lemma CI_goal d a auth now e spec g :
  CI [] d → appended d a auth now e → goals d !! gs_goal_id spec = None →
  GoalSpec_from_dict (GoalSpec_to_dict spec) = Ok spec →
  ea_aggregate_type a = "goal" → ea_aggregate_id a = gs_goal_id spec → ea_event_type a = "goal_created" →
  ea_expected_version a = 0 → ea_payload a = GoalSpec_to_dict spec →
  (go_id g, go_project_id g, go_state g, go_spec g, go_version g)
    = (gs_goal_id spec, ea_project_id a, G_COMPILED, spec, 1) →
  CI [] (set_goals <[gs_goal_id spec := g]> (logged [e] d)).
Proof.
  intros [(c & Hc & [Hg Hr Ht]) _] [] Hnone Hrt Hty Hid Hev Hver Hpay Hrow. injection Hrow; clear Hrow; intros.
  split; [|constructor]. eexists. split.
  - simpl. rewrite (core_log_snoc _ _ c Hc). unfold core_row, payload_of, apply_core, _apply_goal.
    rewrite ap_type, ap_payload, Hty, Hpay. simpl. rewrite ap_event, ap_id, Hev, Hid.
    unfold absent. rewrite (rel_map_none _ _ _ _ Hg Hnone), Hrt. simpl.
    rewrite bool_decide_eq_true_2 by done. simpl. reflexivity.
  - constructor; simpl; [|done..]. apply rel_map_insert; [done|]. repeat split; simpl; try congruence.
    + by destruct (go_state g).
    + rewrite ap_version, ap_expected, Hver. lia.
Qed.

Lemma CI_run d a auth now e g r :
  CI [] d → appended d a auth now e → runs d !! ea_aggregate_id a = None →
  goals d !! ru_goal_id r = Some g → go_project_id g = ea_project_id a →
  ea_aggregate_type a = "run" → ea_event_type a = value E_OWNER_INTENT_RECEIVED →
  dget (ea_payload a) "goal_id" = Some (JStr (ru_goal_id r)) →
  dget (ea_payload a) "policy_version" = Some (JStr (ru_policy_version r)) →
  (ru_id r, ru_project_id r, ru_loop_state r, ru_version r)
    = (ea_aggregate_id a, ea_project_id a, L_INTAKE, 1) →
  CI [] (set_runs <[ea_aggregate_id a := r]> (logged [e] d)).
Proof.
  intros [(c & Hc & [Hg Hr Ht]) _] [] Hnone Hgoal Hproj Hty Hev Hgid Hpol Hrow. injection Hrow; clear Hrow; intros.
  destruct (rel_map_some _ _ _ _ _ Hg Hgoal) as (h & Hh & _ & _ & Hhp & _).
  split; [|constructor]. eexists. split.
  - simpl. rewrite (core_log_snoc _ _ c Hc). unfold core_row, payload_of, apply_core, _apply_run, start_run, dget_or, dindex.
    rewrite ap_type, ap_payload, Hty. simpl. rewrite ap_event, ap_id, Hev.
    rewrite (rel_map_none _ _ _ _ Hr Hnone), Hgid, Hpol. simpl. rewrite Hh. simpl.
    rewrite bool_decide_eq_true_2 by congruence. simpl. reflexivity.
  - constructor; simpl; [done| |done]. apply rel_map_insert; [done|]. by repeat split; simpl; congruence.
Qed.

Lemma guards_of_jguards gs : guards_of (jguards gs) = Ok (list_to_map gs).
Proof.
  unfold guards_of, jguards. do 2 f_equal. induction gs as [|[k b] gs IH]; [done|].
  simpl. f_equal. exact IH.
Qed.

Lemma CI_run_moved d a auth now e r event gs target t :
  CI [] d → appended d a auth now e → runs d !! ea_aggregate_id a = Some r →
  ea_aggregate_type a = "run" → ea_event_type a = value event → ea_expected_version a = ru_version r →
  dget (ea_payload a) "guards" = Some (jguards gs) →
  apply_loop_event (ru_loop_state r) event (list_to_map gs) = Ok target →
  CI [] (set_runs (alter (run_moved target (ru_version r + 1) t) (ea_aggregate_id a)) (logged [e] d)).
Proof.
  intros [(c & Hc & [Hg Hr Ht]) _] [] Hrun Hty Hev Hver Hgs Happly.
  destruct (rel_map_some _ _ _ _ _ Hr Hrun) as (s & Hs & Hid & Hid' & Hgo & Hpr & Hst & Hv & Hpol).
  split; [|constructor]. eexists. split.
  - simpl. rewrite (core_log_snoc _ _ c Hc). unfold core_row, payload_of, apply_core, _apply_run, dget_or.
    rewrite ap_type, ap_payload, Hty. simpl. rewrite ap_id, ap_event, Hs, Hgs, Hev. simpl default.
    rewrite guards_of_jguards, of_value_value. simpl. rewrite <- Hst, Happly. simpl. reflexivity.
  - constructor; simpl; [done| |done]. rewrite (alter_known _ _ _ r Hrun).
    apply rel_map_insert; [done|]. repeat split; simpl; try congruence.
Qed.

Lemma drop_run_id spec j :
  drop_key "run_id" (TaskSpec_to_dict spec ++ [("run_id", j)]) = TaskSpec_to_dict spec.
Proof. reflexivity. Qed.
Lemma get_run_id spec j : dget_or (TaskSpec_to_dict spec ++ [("run_id", j)]) "run_id" JNull = j.
Proof. reflexivity. Qed.

Lemma CI_task d a auth now e spec run t :
  CI [] d → appended d a auth now e → tasks d !! ts_task_id spec = None →
  TaskSpec_from_dict (TaskSpec_to_dict spec) = Ok spec → is_Some (goals d !! ts_goal_id spec) →
  match run with
  | None => True
  | Some r => ∃ row, runs d !! r = Some row ∧ ru_goal_id row = ts_goal_id spec
  end →
  ea_aggregate_type a = "task" → ea_aggregate_id a = ts_task_id spec → ea_event_type a = "task_added" →
  ea_payload a = TaskSpec_to_dict spec ++ [("run_id", jopt run)] →
  (t_id t, t_goal_id t, t_run_id t, t_project_id t, t_state t, t_spec t, t_version t)
    = (ts_task_id spec, ts_goal_id spec, run, ea_project_id a, T_READY, spec, 1) →
  CI [] (set_tasks <[ts_task_id spec := t]> (logged [e] d)).
Proof.
  intros [(c & Hc & [Hg Hr Ht]) _] [] Hnone Hrt [g Hgoal] Hrun Hty Hid Hev Hpay Hrow.
  injection Hrow; clear Hrow; intros. destruct (rel_map_some _ _ _ _ _ Hg Hgoal) as (h & Hh & _).
  assert (run_of_goal c run (ts_goal_id spec) = true) as Hof.
  { destruct run as [r|]; [|done]. destruct Hrun as (row & Hrow & Hgo).
    destruct (rel_map_some _ _ _ _ _ Hr Hrow) as (s & Hs & _ & _ & Hsg & _).
    unfold run_of_goal. rewrite Hs. apply bool_decide_eq_true. congruence. }
  split; [|constructor]. eexists. split.
  - simpl. rewrite (core_log_snoc _ _ c Hc). unfold core_row, payload_of, apply_core, _apply_task, start_task.
    rewrite ap_type, ap_payload, Hty, Hpay.
    pose proof (drop_run_id spec (jopt run)) as Hdrop. pose proof (get_run_id spec (jopt run)) as Hget.
    revert Hdrop Hget. generalize (TaskSpec_to_dict spec ++ [("run_id", jopt run)]). intros p Hdrop Hget.
    simpl. rewrite ap_id, Hid, (rel_map_none _ _ _ _ Ht Hnone), Hdrop, Hget, ap_event, Hev, Hrt.
    simpl. unfold present, absent. rewrite Hh. simpl. rewrite bool_decide_eq_true_2 by done. simpl.
    destruct run as [r|]; simpl; [simpl in Hof; rewrite Hof|]; reflexivity.
  - constructor; simpl; [done..|]. apply rel_map_insert; [done|].
    destruct run; repeat split; simpl; congruence.
Qed.

(** *** Frames *)
Lemma keeps_CI_append held a : ea_aggregate_type a ∉ core_types → keeps (CI held) (append_event a).
Proof.
  intros Hty. apply keeps_of_atomic; [apply append_event_atomic|]. intros w e w' Hrun Hi.
  apply append_event_ok in Hrun as (auth & wa & _ & Ha & ->).
  apply CI_logged_other; [|done]. by rewrite (ap_type _ _ _ _ _ Ha).
Qed.

Lemma CI_held held held' d : Forall (current d) held' → CI held d → CI held' d.
Proof. intros Hh [? _]. by split. Qed.
Lemma CI_tail row held d : CI (row :: held) d → CI held d.
Proof. intros [? Hh]. split; [done|]. by inversion Hh. Qed.
End events.

Section frames.
Context `{ENV : Env}.

Lemma keeps_CI_write held (f : DB → DB) :
  (∀ d, goals (f d) = goals d ∧ runs (f d) = runs d ∧ tasks (f d) = tasks d ∧ events (f d) = events d) →
  keeps (CI held) (write f).
Proof. intros Hf. apply keeps_write. intros d. destruct (Hf d) as (? & ? & ? & ?). by apply CI_same. Qed.
Lemma keeps_CI_insert held c (f : DB → DB) :
  (∀ d, goals (f d) = goals d ∧ runs (f d) = runs d ∧ tasks (f d) = tasks d ∧ events (f d) = events d) →
  keeps (CI held) (_ ← constraint c; write f).
Proof.
  intros Hf. apply keeps_constraint_write. intros d _. destruct (Hf d) as (? & ? & ? & ?). by apply CI_same.
Qed.

Lemma identity_CI held op : keeps (CI held) (run_op op).
Proof.
  apply run_op_keeps. constructor; intros; first [by apply keeps_CI_write | by apply keeps_CI_insert].
Qed.
Lemma verify_CI held vp r : keeps (CI held) (_verify_session vp r).
Proof. apply keeps_verify. Qed.

Lemma lease_op_CI held pv op : keeps (CI held) (run_lease_op pv op).
Proof.
  destruct op; [| | | |apply identity_CI]; unfold run_lease_op, ignore, acquire, renew, release,
    require_current_fence, take, put_lease, _append_audit, _holder_id, verify_in_transaction,
    _require_match, _is_active, _assert_task_scope, _expires, _now; keeps_walk;
  first [ apply verify_CI | by apply keeps_CI_insert | by apply keeps_CI_write
        | apply keeps_CI_append; not_listed ].
Qed.

Lemma record_negative_CI held row fp cls sev route now :
  keeps (CI held) (_record_negative row fp cls sev route now).
Proof.
  unfold _record_negative. keeps_walk; first [by apply keeps_CI_write|by apply keeps_CI_insert].
Qed.
Lemma update_task_CI held f id : operational f → keeps (CI held) (update_task f id).
Proof. intros Hf. apply keeps_write. intros d. by apply CI_operational. Qed.
Lemma update_attempts_CI held f g : keeps (CI held) (update_attempts f g).
Proof. by apply keeps_CI_write. Qed.
Lemma release_lease_CI held k n now : keeps (CI held) (release_lease k n now).
Proof. by apply keeps_CI_write. Qed.
Lemma insert_attempt_CI held a : keeps (CI held) (insert_attempt a).
Proof. by apply keeps_CI_insert. Qed.
Lemma save_CI held p s k g r i : keeps (CI held) (save_idempotent_result p s k g r i).
Proof. unfold save_idempotent_result. keeps_walk. by apply keeps_CI_insert. Qed.
Lemma prior_CI held p s k g : keeps (CI held) (get_idempotent_result p s k g).
Proof. unfold get_idempotent_result. keeps_walk. Qed.
End frames.
#[export] Hint Resolve verify_CI record_negative_CI update_attempts_CI release_lease_CI insert_attempt_CI
  save_CI prior_CI : keeps.

(** ** The scheduler *)
Section scheduler.
Context `{ENV : Env} (self : TaskScheduler).

Lemma transition_CI held row target actor reason vp :
  strip reason ≠ "" → t_id row ∉ t_id <$> held →
  post (CI (row :: held)) (_transition self row target actor reason vp)
    (λ row', CI (row' :: held)).
Proof.
  intros Hr Hnin w row' w' Hrun Hi. unfold _transition, update_task in Hrun. rinv.
  match goal with H : require_task_transition _ _ = _ |- _ => apply require_task_transition_ok in H as Hroute end.
  match goal with H : append_event _ _ = _ |- _ =>
    apply append_event_ok in H as (auth & wa & _ & Ha & ->) end.
  apply CI_move; [done|done|]. destruct Ha. simpl in *. constructor; try done; [congruence|].
  exists reason, []. rewrite app_nil_r. by split_and!; [|done|left].
Qed.

(** A transition on the only row that is held. *)
Lemma transition_CI1 row target actor reason vp :
  strip reason ≠ "" →
  post (CI [row]) (_transition self row target actor reason vp) (λ row', CI [row']).
Proof. intros Hr. apply transition_CI; [done|]. apply not_elem_of_nil. Qed.

(** Letting go of the held rows. *)
Lemma post_drop {A} held (m : P A) Q : post (CI []) m Q → post (CI held) m Q.
Proof. intros Hm. eapply post_weaken; [exact Hm| |done]. intros d. by apply CI_held. Qed.

(** The row of a task, as it is fetched, is current. *)
Lemma current_row d k t : CI [] d → tasks d !! k = Some t → current d t ∧ t_id t = k.
Proof.
  intros [(c & _ & [_ _ Ht]) _] Hk. destruct (rel_map_some _ _ _ _ _ Ht Hk) as (u & _ & Hid & _).
  split; [|done]. exists t. by rewrite Hid.
Qed.

Lemma task_row_CI id : post (CI []) (task_row id) (λ row, CI [row]).
Proof.
  intros w t w' Hrun Hi. apply task_row_ok in Hrun as [-> Ht].
  destruct (current_row _ _ _ Hi Ht). split; [by destruct Hi|by repeat constructor].
Qed.

Lemma require_claim_CI held c : keeps (CI held) (_require_claim c).
Proof. unfold _require_claim. keeps_walk. Qed.
Lemma executable_CI held row : keeps (CI held) (_require_executable_run row).
Proof. unfold _require_executable_run. keeps_walk. Qed.
Lemma worker_CI held vp : keeps (CI held) (_worker_id vp).
Proof. apply keeps_pure, pure_worker. Qed.
Lemma system_CI held vp : keeps (CI held) (_system_id vp).
Proof. apply keeps_pure, pure_system. Qed.
Lemma owns_CI held c vp : keeps (CI held) (owns c vp).
Proof. apply keeps_pure, pure_owns. Qed.
Lemma now_CI held : keeps (CI held) _now.
Proof. apply keeps_sql_now. Qed.
Lemma retry_due_CI held n : keeps (CI held) (_retry_due self n).
Proof. unfold _retry_due, _expires. keeps_walk. Qed.
Lemma put_lease_CI held o l : keeps (CI held) (put_lease o l).
Proof. unfold put_lease. keeps_walk; by apply keeps_CI_insert. Qed.
Hint Resolve require_claim_CI executable_CI worker_CI system_CI owns_CI now_CI retry_due_CI put_lease_CI : keeps.

Lemma still_leased_CI held o : keeps (CI held) (still_leased o).
Proof. unfold still_leased. keeps_walk. Qed.
Hint Resolve still_leased_CI : keeps.

(** The rest of a handler keeps the invariant and lets go of the rows. *)
Lemma post_done {A} held (m : P A) : keeps (CI held) m → post (CI held) m (λ _, CI []).
Proof.
  intros Hm. eapply post_weaken; [by apply post_keeps|done|]. intros ? d. by apply CI_held.
Qed.

(** Walk through a handler that fetches a row and moves it. *)
Ltac reason := first [ vm_compute; discriminate | by apply strip_printed | assumption ].
Ltac ci_keeps := keeps_walk; first [ by apply update_task_CI | by apply keeps_CI_write | by apply keeps_CI_insert ].
Ltac ci_walk := repeat first
  [ apply post_transaction
  | eapply post_bind; [apply task_row_CI|intros ?]
  | eapply post_bind; [apply transition_CI1; reason|intros ?; cbv beta]
  | apply post_seq; [solve [ci_keeps]|intros ?]
  | apply post_done; solve [ci_keeps]
  | apply post_if
  | match goal with |- post _ (match ?x with _ => _ end) _ => destruct x end ].

Lemma start_CI c vp : post (CI []) (start self c vp) (λ _, CI []).
Proof. unfold start. ci_walk. Qed.
Lemma complete_CI c vp : post (CI []) (complete self c vp) (λ _, CI []).
Proof. unfold complete. ci_walk. Qed.

Lemma fail_CI c vp cls msg sev route :
  strip cls ≠ "" → post (CI []) (fail self c vp cls msg sev route) (λ _, CI []).
Proof.
  intros Hcls. unfold fail. ci_walk.
  eapply post_bind with (R := λ rr, CI [rr.1]); [|intros [row due]; ci_walk].
  apply post_if; [by apply post_ret|]. ci_walk. by apply post_ret.
Qed.

(** Selected rows are current, each of another task. *)
Lemma selected_current d le n f t :
  CI [] d → t ∈ limit n (order_by le (select f (tasks d))) → current d t.
Proof.
  intros Hi Ht%limit_elem%elem_of_order_by%elem_of_select. destruct Ht as [[k Hk] _].
  by destruct (current_row _ _ _ Hi Hk).
Qed.
Lemma selected_held d le n f :
  CI [] d → CI (limit n (order_by le (select f (tasks d)))) d ∧
            NoDup (t_id <$> limit n (order_by le (select f (tasks d)))).
Proof.
  intros Hi. split.
  - split; [by destruct Hi|]. apply Forall_forall. intros t. by apply selected_current.
  - apply query_NoDup. intros k t Hk. by destruct (current_row _ _ _ Hi Hk).
Qed.

Lemma claim_row_CI t run project worker resource existing vp ttl :
  post (CI [t]) (claim_row self t run project worker resource existing vp ttl) (λ _, CI []).
Proof. unfold claim_row, _expires. ci_walk. Qed.

Lemma claim_next_CI project vp ttl : post (CI []) (claim_next self project vp ttl) (λ _, CI []).
Proof.
  unfold claim_next. do 2 (apply post_seq; [auto with keeps|intros ?]).
  apply post_transaction, post_seq; [auto with keeps|intros now]. apply post_read. intros rows.
  destruct (head (List.filter claimable rows)) as [t|] eqn:Hhead.
  - eapply post_weaken with (J := CI [t]) (R := λ _, CI []); [| |done].
    + ci_walk. eapply post_bind; [apply claim_row_CI|]. intros c. by apply post_ret.
    + intros d [Hi ->]. split; [by destruct Hi|]. constructor; [|constructor].
      apply head_elem, list_elem_of_In, filter_In in Hhead as [Hin _].
      apply list_elem_of_In, elem_of_order_by, elem_of_select in Hin as [[k Hk] _].
      by destruct (current_row _ _ _ Hi Hk).
  - apply post_ret. by intros d [? _].
Qed.

(** A loop that moves each of the held rows in turn. *)
Lemma forM_rows_CI (body : TaskRow → P unit) rows :
  (∀ row held, t_id row ∉ t_id <$> held → post (CI (row :: held)) (body row) (λ _, CI held)) →
  NoDup (t_id <$> rows) → post (CI rows) (forM rows body) (λ _, CI []).
Proof.
  intros Hbody. induction rows as [|row rows IH]; intros Hnd; [by apply post_ret|].
  apply NoDup_cons in Hnd as [Hnin Hnd]. simpl. eapply post_bind; [by apply Hbody|]. intros ?. by apply IH.
Qed.

Lemma post_rows {A} le n f (k : list TaskRow → P A) :
  (∀ rows, NoDup (t_id <$> rows) → post (CI rows) (k rows) (λ _, CI [])) →
  post (CI []) (rows ← read (λ d, limit n (order_by le (select (f d) (tasks d)))); k rows) (λ _, CI []).
Proof.
  intros Hk. apply post_read. intros rows w a w' Hrun [Hi Hrows].
  destruct (selected_held (w_db w) le n (f (w_db w)) Hi) as [Hheld Hnd]. rewrite <- Hrows in *.
  by eapply Hk.
Qed.

Lemma promote_CI project vp lim : post (CI []) (promote_due_retries self project vp lim) (λ _, CI []).
Proof.
  unfold promote_due_retries. apply post_seq; [auto with keeps|intros ?].
  apply post_transaction, post_seq; [auto with keeps|intros now]. apply post_rows. intros rows Hnd.
  eapply post_bind; [apply forM_rows_CI; [|done]|intros ?; by apply post_ret].
  intros row held Hnin. eapply post_bind; [apply transition_CI; [reason|done]|].
  intros row'. apply post_ret. intros d. apply CI_tail.
Qed.

Lemma reap_row_CI i actor now row held :
  t_id row ∉ t_id <$> held → post (CI (row :: held)) (reap_row self i actor now row) (λ _, CI held).
Proof.
  intros Hnin. unfold reap_row.
  apply post_seq; [auto with keeps|intros failure].
  eapply post_bind with (R := λ row' d, CI (row' :: held) d ∧ t_id row' = t_id row).
  { intros w row' w' Hrun Hi. split.
    - eapply transition_CI; [|done|exact Hrun|done]. destruct (bool_decide _); reason.
    - by apply transition_ok in Hrun as (_ & _ & -> & _). }
  intros row'. apply post_pre with (I := CI (row' :: held)). intros Hid.
  apply post_seq; [auto with keeps|intros due].
  eapply post_bind with (R := λ rr d, CI (rr.1 :: held) d).
  { apply post_if; [|by apply post_ret].
    eapply post_bind; [apply transition_CI; [reason|by rewrite Hid]|]. intros r. by apply post_ret. }
  intros [r due']. eapply post_weaken; [apply post_keeps| |intros ? d; apply CI_tail]; [|done].
  keeps_walk. by apply update_task_CI.
Qed.

Lemma reap_CI project vp lim : post (CI []) (reap_expired self project vp lim) (λ _, CI []).
Proof.
  unfold reap_expired. apply post_seq; [auto with keeps|intros ?].
  apply post_transaction, post_seq; [auto with keeps|intros now]. apply post_rows. intros rows Hnd. ci_walk.
  eapply post_bind; [apply forM_rows_CI; [|done]|intros ?; by apply post_ret].
  intros row held Hnin. by apply reap_row_CI.
Qed.

(** A worker that reports a failure names its class. *)
Definition sched_op_ok (op : SchedOp) : Prop :=
  match op with SoFail _ _ cls _ _ _ => strip cls ≠ "" | _ => True end.

Lemma run_sched_op_CI op : sched_op_ok op → keeps (CI []) (run_sched_op self op).
Proof.
  intros Hop. apply keeps_of_post; [apply run_sched_op_atomic|].
  assert (∀ A (m : P A), post (CI []) m (λ _, CI []) → post (CI []) (ignore m) (λ _, CI [])) as Hig.
  { intros A m Hm. eapply post_bind; [exact Hm|]. intros ?. by apply post_ret. }
  destruct op; simpl in Hop; unfold run_sched_op.
  - apply Hig, promote_CI.
  - apply Hig, claim_next_CI.
  - apply start_CI.
  - apply complete_CI.
  - by apply Hig, fail_CI.
  - apply Hig, reap_CI.
  - apply post_keeps, lease_op_CI.
Qed.
End scheduler.

(** ** The kernel *)
Section kernel.
Context `{ENV : Env} (self : RuntimeKernel).

Lemma append_ok f e w w' :
  append f w = (Ok e, w') → ∃ id auth now, appended (w_db w) (f id) auth now e ∧ w_db w' = logged [e] (w_db w).
Proof.
  unfold append. intros Hrun. rinv.
  match goal with H : append_event _ _ = _ |- _ => apply append_event_ok in H as (auth & wa & _ & Ha & ->) end.
  by eexists _, auth, _.
Qed.

Lemma append_CI held f :
  (∀ id, ea_aggregate_type (f id) ∉ core_types) → keeps (CI held) (append f).
Proof. intros Hty. unfold append. keeps_walk. by apply keeps_CI_append. Qed.

Lemma actor_id_pure vp roles : pure_db (_actor_id vp roles).
Proof.
  unfold _actor_id, verify. apply pure_bind; [apply pure_transaction|intros ?].
  - unfold _verify_session.
    repeat first [apply pure_ensure | by intros w | apply pure_bind; [|intros ?] | case_match].
  - apply pure_bind; [apply pure_ensure|]. by intros ? w.
Qed.
Lemma spine_pure project : pure_db (_persisted_authority_spine project).
Proof. apply pure_transaction. apply pure_bind; [by intros w|]. by intros ? w. Qed.

Lemma bind_goal_CI held project goal actor authority :
  keeps (CI held) (bind_goal self project goal actor authority).
Proof.
  unfold bind_goal. apply keeps_bind; [|intros e; by apply keeps_CI_insert].
  apply append_CI. intros id. not_listed.
Qed.
Lemma bind_task_CI held project actor correlation spec authority :
  keeps (CI held) (bind_task self project actor correlation spec authority).
Proof.
  unfold bind_task. apply keeps_bind; [|intros e; by apply keeps_CI_insert].
  apply append_CI. intros id. not_listed.
Qed.

Lemma canonical_goal spec g : _canonical_goal_spec spec = Ok g → GoalSpec_from_dict (GoalSpec_to_dict g) = Ok g.
Proof.
  unfold _canonical_goal_spec. intros H. rinv.
  destruct (GoalSpec_from_dict (GoalSpec_to_dict spec)) as [g0|] eqn:Hg; [|done]. simplify_eq.
  by eapply goal_rt, goal_ok.
Qed.
Lemma canonical_task spec t : _canonical_task_spec spec = Ok t → TaskSpec_from_dict (TaskSpec_to_dict t) = Ok t.
Proof.
  unfold _canonical_task_spec. intros H.
  destruct (TaskSpec_from_dict (TaskSpec_to_dict spec)) as [g0|] eqn:Hg; [|done]. simplify_eq.
  by eapply task_rt, task_ok.
Qed.

(** The core of a command: log the event, read the clock, put the row. *)
Lemma post_commit {B} I (J : DB → Prop) f (put : Event → Instant → P unit) (k : Event → P B) :
  (∀ d id auth now e t, I d → appended d (f id) auth now e →
     ∀ w u w', put e t w = (Ok u, w') → w_db w = logged [e] d → J (w_db w')) →
  (∀ e, keeps J (k e)) →
  post I (e ← append f; t ← utc_now; _ ← put e t; k e) (λ _, J).
Proof.
  intros Hput Hk w b w' Hrun Hi. apply bind_ok in Hrun as (e & w1 & H1 & Hrun).
  apply append_ok in H1 as (id & auth & now & Ha & Hdb).
  apply bind_ok in Hrun as (t & w2 & [-> ->]%utc_now_ok & Hrun).
  apply bind_ok in Hrun as (u & w3 & H3 & Hrun). eapply Hk; [exact Hrun|]. by eapply Hput.
Qed.

(** The answer of a replayed command. *)
Lemma keeps_prior I p s k g : keeps I (get_idempotent_result p s k g).
Proof. unfold get_idempotent_result. keeps_walk. Qed.
Lemma post_prior {B} (I J : DB → Prop) p s k g (answer : json → B) (m : P B) :
  (∀ d, I d → J d) → post I m (λ _, J) →
  post I (prior ← get_idempotent_result p s k g;
          match prior with Some r => mret (answer r) | None => m end) (λ _, J).
Proof.
  intros HI Hm. apply post_seq; [apply keeps_prior|intros [r|]; [by apply post_ret|done]].
Qed.

Lemma create_goal_CI bindings project spec actor key authority :
  post (CI []) (create_goal self bindings project spec actor key authority) (λ _, CI []).
Proof.
  unfold create_goal. do 2 (apply post_lift; intros ? _).
  apply post_seq; [apply keeps_pure, actor_id_pure|intros actor_id].
  apply post_lift; intros g Hg%canonical_goal.
  apply post_seq; [apply keeps_pure, spine_pure|intros spine]. apply post_lift; intros canonical _.
  cbv zeta. apply post_transaction, (post_prior _ _ _ _ _ _ _ _ (λ d H, H)).
  apply post_constraint, post_commit.
  - intros d id auth now e t [Hi Hc%absent_true] Ha w u w' Hrun Hdb. unfold insert_goal in Hrun. rinv.
    unfold set_db. simpl. rewrite Hdb. by eapply CI_goal.
  - intros e. apply keeps_bind; [apply save_CI|intros _]. destruct canonical; keeps_walk. apply bind_goal_CI.
Qed.

Lemma create_run_CI project goal run actor key :
  post (CI []) (create_run self project goal run actor key) (λ _, CI []).
Proof.
  unfold create_run. do 4 (apply post_lift; intros ? _).
  apply post_seq; [apply keeps_pure, actor_id_pure|intros actor_id]. cbv zeta.
  apply post_transaction, (post_prior _ _ _ _ _ _ _ _ (λ d H, H)).
  apply post_read. intros o. apply post_guard. intros Hgoal. apply post_commit.
  - intros d id auth now e t [Hi ->] Ha w u w' Hrun Hdb. unfold insert_run in Hrun. rinv. bsplit.
    destruct (goals d !! _) as [g|] eqn:Hg; [|done]. bsplit. unfold set_db. simpl.
    match goal with H : absent _ _ = true |- _ => apply absent_true in H; rename H into Hnone end.
    rewrite Hdb in *. by apply (CI_run _ _ _ _ _ g _ Hi Ha).
  - intros e. apply keeps_bind; [apply save_CI|intros _; apply keeps_ret].
Qed.

Lemma check_task_pure bindings project spec authority spine :
  pure_db (check_task_authority bindings project spec authority spine).
Proof.
  unfold check_task_authority, goal_authority_of.
  repeat first [apply pure_ensure | by intros w | apply pure_transaction
               | apply pure_bind; [|intros ?] | case_match].
Qed.

(** The run of a new task. *)
Lemma post_open_run {B} I project goal run (k : unit → P B) Q :
  post (λ d, I d ∧ match run with
                   | None => True
                   | Some r => ∃ row, runs d !! r = Some row ∧ ru_goal_id row = goal ∧
                                      ru_loop_state row ∉ sealed_states
                   end) (k tt) Q →
  post I (open_run project goal run ≫= k) Q.
Proof.
  intros Hk w b w' Hrun Hi. apply bind_ok in Hrun as ([] & w1 & H1 & Hrun).
  assert (w1 = w ∧ match run with
                   | None => True
                   | Some r => ∃ row, runs (w_db w) !! r = Some row ∧ ru_goal_id row = goal ∧
                                      ru_loop_state row ∉ sealed_states
                   end) as [-> Hrow].
  { unfold open_run in H1. destruct run as [r|]; rinv; [|done]. bsplit. split; [done|].
    eexists. split; [done|]. split; [done|]. intros Hin.
    by rewrite (proj2 (memb_true _ _) Hin) in *. }
  by eapply Hk; [exact Hrun|].
Qed.

Lemma add_task_CI bindings project spec actor key run authority :
  post (CI []) (add_task self bindings project spec actor key run authority) (λ _, CI []).
Proof.
  unfold add_task. do 2 (apply post_lift; intros ? _). apply post_seq; [destruct run; keeps_walk|intros r].
  apply post_seq; [apply keeps_pure, actor_id_pure|intros actor_id].
  apply post_lift; intros t Ht%canonical_task.
  apply post_seq; [apply keeps_pure, spine_pure|intros spine].
  apply post_seq; [apply keeps_pure, check_task_pure|intros canonical].
  cbv zeta. apply post_transaction, (post_prior _ _ _ _ _ _ _ _ (λ d H, H)).
  apply post_read. intros o. apply post_expect. intros g ->. apply post_guard. intros Hproj.
  apply post_lift; intros _ _. apply post_open_run, post_commit.
  - intros d id auth now e at_ [[Hi Hg] Hrun] Ha w u w' Hput Hdb. unfold insert_task in Hput. rinv. bsplit.
    unfold set_db. simpl.
    match goal with H : absent _ _ = true |- _ => apply absent_true in H; rename H into Hnone end.
    rewrite Hdb in *. eapply CI_task; try done.
    destruct r as [r|]; [|done]. destruct Hrun as (row & ? & ? & _). eauto.
  - intros e. apply keeps_bind; [apply save_CI|intros _]. destruct canonical; keeps_walk. apply bind_task_CI.
Qed.

Lemma keeps_circuit_breaker I run event : keeps I (circuit_breaker run event).
Proof. unfold circuit_breaker. keeps_walk. Qed.

Lemma advance_loop_CI run event actor key guards payload causation :
  post (CI []) (advance_loop self run event actor key guards payload causation) (λ _, CI []).
Proof.
  unfold advance_loop. do 2 (apply post_lift; intros ? _).
  apply post_seq; [destruct causation; keeps_walk|intros cause].
  apply post_seq; [apply keeps_pure, actor_id_pure|intros actor_id].
  apply post_transaction, post_read. intros o. apply post_expect. intros r ->. cbv zeta.
  apply post_seq; [apply keeps_circuit_breaker|intros _].
  apply (post_prior _ _ _ _ _ _ _ _ (λ d H, proj1 H)).
  apply post_seq; [apply keeps_resolve|intros gs]. apply post_guard. intros _.
  apply post_lift. intros target Htarget. apply post_commit.
  - intros d id auth now e t [Hi Hr] Ha w u w' Hput Hdb. rinv. unfold set_db. simpl. rewrite Hdb.
    by apply (CI_run_moved _ _ _ _ _ r event gs target t Hi Ha).
  - intros e. apply keeps_bind; [apply save_CI|intros _; apply keeps_ret].
Qed.

(** *** Commands on tasks *)
Lemma move_projection row target actor reason key vp fields r w w' :
  _transition_task_projection self row target actor reason key vp fields w = (Ok r, w') →
  ∃ e now, target ∈ TASK_TRANSITIONS (t_state row) ∧ ev_aggregate_type e = "task" ∧
    ev_aggregate_id e = t_id row ∧ ev_event_type e = "task_state_changed" ∧
    ev_aggregate_version e = t_version row + 1 ∧ ev_actor e = actor ∧
    ev_payload e = JObj (move_payload (t_state row) target reason ++ fields) ∧
    r = {| tr_task_id := t_id row; tr_previous_state := t_state row; tr_state := target;
           tr_event_id := ev_id e |} ∧
    w_db w' = changed (t_id row) (task_with target (t_version row + 1) now) (logged [e] (w_db w)).
Proof.
  unfold _transition_task_projection. intros Hrun. apply bind_ok in Hrun as (u & w0 & [Ht ->]%lift_res_ok & Hrun).
  apply require_task_transition_ok in Ht. apply bind_ok in Hrun as (u1 & w1 & [_ ->]%ensure_ok & Hrun).
  apply bind_ok in Hrun as (e & w2 & Ha & Hrun). apply append_ok in Ha as (id & auth & now & Ha & Hdb). rinv.
  destruct Ha. simpl in *. exists e. eexists. split_and!; try done; [congruence|]. by rewrite Hdb.
Qed.

Lemma move_projection_CI row target actor reason key vp fields :
  strip reason ≠ "" →
  (fields = [] ∨ ∃ i, fields = [("accepted_evidence_id", JStr i)] ∧ strip i ≠ "" ∧
     t_state row ∈ [T_EVIDENCE_PENDING; T_EVALUATOR_PENDING] ∧
     target ∈ [T_EVALUATOR_PENDING; T_INTEGRATION_PENDING]) →
  post (CI [row]) (_transition_task_projection self row target actor reason key vp fields) (λ _, CI []).
Proof.
  intros Hr Hf w r w' Hrun Hi. apply move_projection in Hrun as (e & now & ? & ? & ? & ? & ? & _ & Hp & _ & ->).
  eapply CI_tail, (CI_move [] _ row target e now now); [done|apply not_elem_of_nil|].
  constructor; try done. by exists reason, fields.
Qed.

Lemma task_command_CI id scope key payload body :
  (∀ row, post (CI [row]) (body row) (λ _, CI [])) →
  post (CI []) (task_command id scope key payload body) (λ _, CI []).
Proof.
  intros Hbody. unfold task_command. cbv zeta. apply post_transaction, post_read. intros o.
  apply post_expect. intros row ->.
  apply post_weaken with (J := CI [row]) (R := λ _, CI []); [| |done].
  - apply (post_prior (CI [row]) (CI [])); [intros d; apply CI_held; constructor|].
    eapply post_bind; [apply Hbody|]. intros r. apply post_keeps.
    apply keeps_bind; [apply save_CI|intros _; apply keeps_ret].
  - intros d [Hi Hrow]. destruct (current_row _ _ _ Hi (eq_sym Hrow)). split; [by destruct Hi|by repeat constructor].
Qed.

Lemma command_text_ok s t : _command_text s = Ok t → t = s ∧ strip t ≠ "".
Proof.
  unfold _command_text. intros H. rinv. bsplit. split; [done|]. congruence.
Qed.

Lemma accept_CI task actor key evidence :
  post (CI []) (accept_task_evidence self task actor key evidence) (λ _, CI []).
Proof.
  unfold accept_task_evidence. do 2 (apply post_lift; intros ? _).
  apply post_lift. intros i [_ Hi]%command_text_ok.
  apply post_seq; [apply keeps_pure, actor_id_pure|intros actor_id].
  apply task_command_CI. intros row. unfold accept_evidence.
  apply post_seq; [keeps_walk|intros o]. apply post_seq; [keeps_walk|intros claim].
  apply post_guard; intros _. apply post_seq; [keeps_walk|intros [evidence_ok evaluator_ok]].
  apply post_guard; intros _. apply post_lift. intros target Ht.
  apply move_projection_CI; [by apply strip_printed|]. right. exists i. split_and!; [done..| |];
    unfold evidence_step in Ht; destruct (t_state row), evaluator_ok; simplify_eq/=; set_solver.
Qed.

Lemma confirm_CI task actor key : post (CI []) (confirm_task_delivery self task actor key) (λ _, CI []).
Proof.
  unfold confirm_task_delivery. do 2 (apply post_lift; intros ? _).
  apply post_seq; [apply keeps_pure, actor_id_pure|intros actor_id].
  apply task_command_CI. intros row. unfold deliver.
  do 13 (apply post_seq; [solve [keeps_walk; first [apply keeps_required_gates|apply keeps_freshness]]|intros ?]).
  apply move_projection_CI; [vm_compute; discriminate|by left].
Qed.

Lemma close_work_CI held id target : keeps (CI held) (close_work id target).
Proof. unfold close_work. keeps_walk; by apply keeps_CI_write. Qed.

Lemma control_CI task action reason actor key :
  post (CI []) (control_task self task action reason actor key) (λ _, CI []).
Proof.
  unfold control_task. do 2 (apply post_lift; intros ? _).
  apply post_seq; [apply keeps_pure, actor_id_pure|intros actor_id]. cbv zeta.
  do 3 (apply post_guard; intros _).
  apply task_command_CI. intros row. unfold control.
  apply post_seq; [unfold control_target, resume_target; keeps_walk|intros target].
  eapply post_bind; [apply move_projection_CI; [by apply strip_printed|by left]|].
  intros r. apply post_keeps. keeps_walk. apply close_work_CI.
Qed.

(** *** Adoption *)
Lemma keeps_forM_In {A} I (l : list A) f : (∀ x, x ∈ l → keeps I (f x)) → keeps I (forM l f).
Proof.
  intros Hf. induction l as [|x l IH]; simpl; [apply keeps_ret|].
  apply keeps_bind; [apply Hf; by constructor|intros _]. apply IH. intros y Hy. apply Hf. by constructor.
Qed.

Lemma adopt_CI held entry : keeps (CI held) (adopt self entry).
Proof.
  destruct entry as [project [[spec program] graph]]. unfold adopt. cbv zeta.
  apply keeps_bind; [apply keeps_read|intros existing]. apply keeps_bind.
  - apply keeps_forM_In. intros [[[ty id] et] payload] Hin. unfold adopt_event.
    apply keeps_bind; [apply keeps_read|intros [e|]]; [apply keeps_ensure|].
    apply keeps_bind; [|intros; apply keeps_ret]. apply append_CI. intros cid. simpl.
    apply elem_of_cons in Hin as [Hin|Hin]; [injection Hin as -> _ _ _; not_listed|].
    apply list_elem_of_fmap in Hin as (p & Hin & _). injection Hin as -> _ _ _. not_listed.
  - intros _. destruct existing; keeps_walk; by apply keeps_CI_insert.
Qed.
Lemma initialize_CI : keeps (CI []) (initialize self).
Proof. apply keeps_transaction, keeps_forM. intros entry. apply adopt_CI. Qed.
End kernel.

(** ** Any sequence of commands *)
Inductive KernelOp :=
  | KoInitialize
  | KoCreateGoal (bindings : Bindings) (project : string) (spec : GoalSpec) (actor : VerifiedPrincipal)
      (key : string) (authority : option CompiledGoalAuthority)
  | KoCreateRun (project goal run : string) (actor : VerifiedPrincipal) (key : string)
  | KoAddTask (bindings : Bindings) (project : string) (spec : TaskSpec) (actor : VerifiedPrincipal)
      (key : string) (run : option string) (authority : option CompiledTaskAuthority)
  | KoAdvance (run : string) (event : LoopEvent) (actor : VerifiedPrincipal) (key : string)
      (guards : list (string * bool)) (payload : dict) (causation : option string)
  | KoAccept (task : string) (actor : VerifiedPrincipal) (key evidence : string)
  | KoConfirm (task : string) (actor : VerifiedPrincipal) (key : string)
  | KoControl (task action reason : string) (actor : VerifiedPrincipal) (key : string).

(** A command of some kernel, a call of some scheduler, lease or identity manager,
    or a call of a service: each may belong to another process. *)
Inductive SysOp :=
  | SysKernel (kernel : RuntimeKernel) (op : KernelOp)
  | SysSched (scheduler : TaskScheduler) (op : SchedOp)
  | SysService (op : ServiceOp).

Definition sys_op_ok (op : SysOp) : Prop :=
  match op with SysSched _ op => sched_op_ok op | _ => True end.

Section system.
Context `{ENV : Env}.

Definition run_kernel_op (k : RuntimeKernel) (op : KernelOp) : P unit :=
  match op with
  | KoInitialize => initialize k
  | KoCreateGoal b p s a key au => ignore (create_goal k b p s a key au)
  | KoCreateRun p g r a key => ignore (create_run k p g r a key)
  | KoAddTask b p s a key r au => ignore (add_task k b p s a key r au)
  | KoAdvance r e a key gs pl c => ignore (advance_loop k r e a key gs pl c)
  | KoAccept t a key e => ignore (accept_task_evidence k t a key e)
  | KoConfirm t a key => ignore (confirm_task_delivery k t a key)
  | KoControl t x r a key => ignore (control_task k t x r a key)
  end.
Definition run_sys_op (op : SysOp) : P unit :=
  match op with
  | SysKernel k op => run_kernel_op k op
  | SysSched s op => run_sched_op s op
  | SysService op => run_service_op op
  end.
Fixpoint run_sys_ops (ops : list SysOp) (w : World) : World :=
  match ops with [] => w | op :: ops => run_sys_ops ops (run_sys_op op w).2 end.

Lemma option_text_pure (o : option string) :
  pure_db (match o with
           | Some r => r ← lift_res (_command_text r); mret (Some r)
           | None => mret None
           end : P (option string)).
Proof. destruct o; [|by intros w]. apply pure_bind; by intros ?. Qed.

(** A command that raises changes no table. *)
Lemma run_kernel_op_atomic k op : atomic (run_kernel_op k op).
Proof.
  pose proof actor_id_pure. pose proof spine_pure. pose proof check_task_pure.
  destruct op; unfold run_kernel_op, ignore; try apply (atomic_then _ (λ _, tt));
    unfold initialize, create_goal, create_run, add_task, advance_loop, _loop_actor_id, accept_task_evidence,
      confirm_task_delivery, control_task, task_command;
    repeat first
      [ apply atomic_transaction
      | progress cbv zeta
      | apply atomic_bind; [first [solve [auto] | by intros w | apply pure_ensure
                                  | apply option_text_pure]|intros ?] ].
Qed.

Lemma services_CI : kept_beside (CI []).
Proof.
  constructor.
  - intros a Ha. apply keeps_CI_append. revert Ha. by apply types_apart.
  - intros f Hf. apply keeps_write. intros d. destruct (beside_tables f d Hf) as (? & _ & ? & ? & ? & _). by apply CI_same.
  - intros c. by apply keeps_CI_insert.
Qed.

Lemma run_sys_op_CI op : sys_op_ok op → keeps (CI []) (run_sys_op op).
Proof.
  destruct op as [k op|s op|op]; intros Hop; simpl;
    [|by apply run_sched_op_CI|by apply service_op_keeps, services_CI].
  apply keeps_of_post; [apply run_kernel_op_atomic|].
  assert (∀ A (m : P A), post (CI []) m (λ _, CI []) → post (CI []) (ignore m) (λ _, CI [])) as Hig.
  { intros A m Hm. eapply post_bind; [exact Hm|]. intros ?. by apply post_ret. }
  destruct op; unfold run_kernel_op; try apply Hig.
  - apply post_keeps, initialize_CI.
  - apply create_goal_CI.
  - apply create_run_CI.
  - apply add_task_CI.
  - apply advance_loop_CI.
  - apply accept_CI.
  - apply confirm_CI.
  - apply control_CI.
Qed.
End system.

(** ** Logs without adopted authority

    A runtime in which no kernel is configured with a project adopts nothing,
    so that goals and tasks have no authority bindings. *)
Definition adopted_types : list string :=
  ["project_authority"; "program_authority"; "goal_authority"; "task_authority"].

Record plain (d : DB) : Prop := {
  pl_gapless : gapless d;
  pl_events : Forall (λ e, ev_aggregate_type e ∉ adopted_types) (events d);
  pl_projects : adopted_projects (registry d) = ∅; pl_programs : adopted_programs (registry d) = ∅;
  pl_goals : goal_bindings (registry d) = ∅; pl_tasks : task_bindings (registry d) = ∅ }.

Section plain.
Context `{ENV : Env}.

Lemma plain_append a : ea_aggregate_type a ∉ adopted_types → keeps plain (append_event a).
Proof.
  intros Hty. apply keeps_of_atomic; [apply append_event_atomic|]. intros w e w' Hrun [].
  apply append_event_ok in Hrun as (auth & wa & _ & Ha & ->). constructor; try done.
  - by eapply append_gapless.
  - simpl. apply Forall_app. split; [done|]. constructor; [|constructor]. by rewrite (ap_type _ _ _ _ _ Ha).
Qed.

Lemma gapless_events d d' : events d' = events d → gapless d → gapless d'.
Proof. intros He Hg ty id. unfold versions. rewrite He. apply Hg. Qed.

Lemma plain_write (f : DB → DB) :
  (∀ d, events (f d) = events d ∧ registry (f d) = registry d) → keeps plain (write f).
Proof.
  intros Hf. apply keeps_write. intros d []. destruct (Hf d) as [He Hr].
  constructor; rewrite ?He, ?Hr; try done. by eapply gapless_events.
Qed.
Lemma plain_insert c (f : DB → DB) :
  (∀ d, events (f d) = events d ∧ registry (f d) = registry d) → keeps plain (_ ← constraint c; write f).
Proof.
  intros Hf. apply keeps_bind; [apply keeps_constraint|intros _]. by apply plain_write.
Qed.

Ltac plain_walk := keeps_walk; first
  [ by apply plain_write | by apply plain_insert | apply plain_append; not_listed
  | apply keeps_verify ].

Lemma identity_plain op : keeps plain (run_op op).
Proof.
  apply run_op_keeps. constructor; intros; first [by apply plain_write | by apply plain_insert].
Qed.
Lemma lease_op_plain pv op : keeps plain (run_lease_op pv op).
Proof.
  destruct op; [| | | |apply identity_plain]; unfold run_lease_op, ignore, acquire, renew, release,
    require_current_fence, take, put_lease, _append_audit, _holder_id, verify_in_transaction,
    _require_match, _is_active, _assert_task_scope, _expires, _now; plain_walk.
Qed.
Lemma sched_op_plain self op : keeps plain (run_sched_op self op).
Proof.
  assert (∀ vp, keeps plain (_worker_id vp)) by (intros; apply keeps_pure, pure_worker).
  assert (∀ vp, keeps plain (_system_id vp)) by (intros; apply keeps_pure, pure_system).
  assert (∀ c vp, keeps plain (owns c vp)) by (intros; apply keeps_pure, pure_owns).
  pose proof lease_op_plain.
  destruct op; unfold run_sched_op, ignore, promote_due_retries, claim_next, still_leased, claim_row, put_lease,
    start, complete, fail, reap_expired, reap_row, task_row, _require_claim, _require_executable_run,
    _retry_due, _expires, _now, _transition, _record_negative, update_task, update_attempts, release_lease,
    insert_attempt; plain_walk.
Qed.

Lemma append_plain f : (∀ id, ea_aggregate_type (f id) ∉ adopted_types) → keeps plain (append f).
Proof. intros Hty. unfold append. keeps_walk. by apply plain_append. Qed.
Lemma save_plain p s k g r i : keeps plain (save_idempotent_result p s k g r i).
Proof. unfold save_idempotent_result. plain_walk. Qed.

(** Without an adopted project there is no spine, and nothing to bind. *)
Lemma spine_plain project o w w' :
  _persisted_authority_spine project w = (Ok o, w') → plain (w_db w) → o = None.
Proof.
  unfold _persisted_authority_spine. intros Hrun Hp. rinv. unfold persisted_spine in *.
  rewrite (pl_projects _ Hp), lookup_empty in *. by simplify_eq.
Qed.

Lemma post_spine {B} project (k : option Spine → P B) Q :
  post plain (k None) Q → post plain (_persisted_authority_spine project ≫= k) Q.
Proof.
  intros Hk w b w' Hrun Hp. apply bind_ok in Hrun as (o & w1 & H1 & Hrun).
  pose proof (spine_pure project w) as Hw. rewrite H1 in Hw. simpl in Hw.
  rewrite (spine_plain _ _ _ _ H1 Hp) in Hrun. eapply Hk; [exact Hrun|]. by rewrite Hw.
Qed.

Lemma projection_plain self row target actor reason key vp fields :
  keeps plain (_transition_task_projection self row target actor reason key vp fields).
Proof. unfold _transition_task_projection. keeps_walk; [|by apply plain_write]. apply append_plain.
  intros id. not_listed. Qed.

Lemma goal_plain self b p s a key au :
  post plain (create_goal self b p s a key au) (λ _, plain).
Proof.
  unfold create_goal. do 2 (apply post_lift; intros ? _).
  apply post_seq; [apply keeps_pure, actor_id_pure|intros actor_id]. apply post_lift; intros g _.
  apply post_spine, post_lift. unfold check_goal_authority. intros canonical Hc.
  assert (canonical = None) as -> by (by destruct au; simplify_eq). apply post_keeps. cbv zeta.
  keeps_walk; first [apply save_plain | apply keeps_prior | by apply plain_insert
                    | apply append_plain; intros id; not_listed].
Qed.
Lemma task_plain self b p s a key r au :
  post plain (add_task self b p s a key r au) (λ _, plain).
Proof.
  unfold add_task. do 2 (apply post_lift; intros ? _).
  apply post_seq; [apply keeps_pure, option_text_pure|intros run].
  apply post_seq; [apply keeps_pure, actor_id_pure|intros actor_id]. apply post_lift; intros t _.
  apply post_spine. simpl check_task_authority.
  eapply post_bind with (R := λ o d, plain d ∧ o = None); [|intros o; apply post_pre; intros ->].
  { intros w o w' Hrun Hp. rinv. done. }
  apply post_keeps. cbv zeta. unfold open_run.
  keeps_walk; first [apply save_plain | apply keeps_prior | by apply plain_insert
                    | apply append_plain; intros id; not_listed].
Qed.

Definition no_spines (op : SysOp) : Prop :=
  match op with SysKernel k _ => rk_authority_spines k = [] | _ => True end.

Lemma services_plain : kept_beside plain.
Proof.
  constructor.
  - intros a Ha. apply plain_append. revert Ha. by apply types_apart.
  - intros f Hf. apply keeps_write. intros d []. destruct (beside_tables f d Hf) as (He & _ & _ & _ & _ & _ & _ & _ & ? & ? & ? & ?).
    constructor; rewrite ?He; try congruence. by eapply gapless_events.
  - intros c. apply keeps_constraint_write. intros d _ []. by constructor.
Qed.

Lemma run_sys_op_plain op : no_spines op → keeps plain (run_sys_op op).
Proof.
  destruct op as [k op|s op|op]; intros Hop; [|apply sched_op_plain|apply service_op_keeps, services_plain]. simpl in *.
  apply keeps_of_post; [apply run_kernel_op_atomic|].
  assert (∀ A (m : P A), post plain m (λ _, plain) → post plain (ignore m) (λ _, plain)) as Hig.
  { intros A m Hm. eapply post_bind; [exact Hm|]. intros ?. by apply post_ret. }
  assert (∀ vp roles, keeps plain (_actor_id vp roles)) by (intros; apply keeps_pure, actor_id_pure).
  pose proof projection_plain. pose proof save_plain. pose proof (keeps_prior plain).
  destruct op; unfold run_kernel_op.
  - unfold initialize. rewrite Hop. apply post_transaction. by apply post_ret.
  - apply Hig, goal_plain.
  - apply Hig, post_keeps. unfold create_run. keeps_walk.
    + apply append_plain. intros id. not_listed.
    + by apply plain_insert.
  - apply Hig, task_plain.
  - apply Hig, post_keeps. unfold advance_loop, _loop_actor_id. keeps_walk.
    + apply keeps_circuit_breaker.
    + apply append_plain. intros id. not_listed.
    + by apply plain_write.
  - apply Hig, post_keeps. unfold accept_task_evidence, task_command, accept_evidence. keeps_walk.
  - apply Hig, post_keeps. unfold confirm_task_delivery, task_command, deliver. keeps_walk.
  - apply Hig, post_keeps. unfold control_task, task_command, control, control_target, resume_target, close_work.
    keeps_walk; by apply plain_write.
Qed.
End plain.

(** ** Replay of a log without adopted authority *)
Section replaying.
Context `{ENV : Env}.

Definition count (ty id : string) (es : list Event) : Z :=
  Z.of_nat (length (List.filter (of_aggregate ty id) es)).
Definition numbered (es : list Event) : Prop :=
  ∀ ty id, ev_aggregate_version <$> List.filter (of_aggregate ty id) es = seqZ 1 (count ty id es).

Lemma count_snoc ty id es e :
  count ty id (es ++ [e]) = count ty id es + (if of_aggregate ty id e then 1 else 0).
Proof.
  unfold count. rewrite List.filter_app, length_app. simpl. destruct (of_aggregate ty id e); simpl; lia.
Qed.

Lemma numbered_snoc es e :
  numbered (es ++ [e]) → numbered es ∧
  ev_aggregate_version e = count (ev_aggregate_type e) (ev_aggregate_id e) es + 1.
Proof.
  intros Hn. assert (∀ ty id, if of_aggregate ty id e then
      ev_aggregate_version <$> List.filter (of_aggregate ty id) es = seqZ 1 (count ty id es) ∧
      ev_aggregate_version e = count ty id es + 1
    else ev_aggregate_version <$> List.filter (of_aggregate ty id) es = seqZ 1 (count ty id es)) as Hall.
  { intros ty id. specialize (Hn ty id). rewrite count_snoc, List.filter_app, fmap_app in Hn. simpl in Hn.
    destruct (of_aggregate ty id e); simpl in Hn; [|by rewrite app_nil_r, Z.add_0_r in Hn].
    unfold count in *. rewrite Z.add_1_r, <- Nat2Z.inj_succ, seqZ_snoc in Hn.
    apply app_inj_tail in Hn as [? ?]. done. }
  split.
  - intros ty id. specialize (Hall ty id). by destruct (of_aggregate ty id e); [apply Hall|].
  - specialize (Hall (ev_aggregate_type e) (ev_aggregate_id e)). unfold of_aggregate in Hall at 1.
    rewrite !bool_decide_eq_true_2 in Hall by done. apply Hall.
Qed.

Lemma not_adopted_row ty a e payload : ty ∉ adopted_types → apply_adopted ty a e payload = None.
Proof.
  intros Hty. unfold apply_adopted.
  do 4 (rewrite bool_decide_eq_false_2 by (intros ->; apply Hty; unfold adopted_types; set_solver)). done.
Qed.
Lemma not_core_row ty c e payload : ty ∉ core_types → apply_core ty c e payload = None.
Proof.
  intros Hty. unfold apply_core.
  do 3 (rewrite bool_decide_eq_false_2 by (intros ->; apply Hty; unfold core_types; set_solver)). done.
Qed.
Lemma core_not_adopted ty : ty ∈ core_types → ty ∉ adopted_types.
Proof.
  intros Hty. assert (Forall (λ ty, ty ∉ adopted_types) core_types) as Hall
    by (repeat constructor; not_listed). by apply (proj1 (Forall_forall _ _) Hall).
Qed.
Lemma core_applies ty c e payload : ty ∈ core_types → ∃ m, apply_core ty c e payload = Some m.
Proof.
  intros Hty. unfold core_types in Hty. apply elem_of_cons in Hty as [->|Hty]; [by eexists|].
  apply elem_of_cons in Hty as [->|Hty]; [by eexists|]. apply elem_of_cons in Hty as [->|[]%not_elem_of_nil].
  by eexists.
Qed.

Lemma replay_plain_rows es c :
  core_log es = Ok c → Forall (λ e, ev_aggregate_type e ∉ adopted_types) es → numbered es →
  ∃ vs, foldR apply_row empty_replay es = Ok (Build_ReplayResult vs empty_adopted c) ∧
    ∀ ty id, ty ∈ replayed_types → default 0 (vs !! (ty, id)) = count ty id es.
Proof.
  revert c. induction es as [|e es IH] using rev_ind; intros c Hc Hty Hn.
  { injection Hc as <-. exists ∅. split; [done|]. intros ty id _. by rewrite lookup_empty. }
  apply Forall_app in Hty as [Hty He]. inversion He as [|? ? Hety _]; subst.
  apply numbered_snoc in Hn as [Hn Hver]. unfold core_log in Hc. rewrite foldR_app in Hc.
  apply res_bind_ok in Hc as (c0 & Hc0 & Hc). simpl in Hc. apply res_bind_ok in Hc as (c1 & Hc & [= ->]).
  destruct (IH _ Hc0 Hty Hn) as (vs & Hfold & Hvs). rewrite foldR_app, Hfold. simpl.
  unfold apply_row, core_row in *. destruct (memb (ev_aggregate_type e) core_types) eqn:Hcore.
  - assert (ev_aggregate_type e ∈ replayed_types) as Hrep
      by (apply memb_true in Hcore; revert Hcore; unfold core_types, replayed_types; set_solver).
    rewrite (proj2 (memb_true _ _) Hrep). simpl. unfold next_version. rewrite Hvs, Hver, Z.eqb_refl by done. simpl.
    destruct (payload_of e) as [payload|]; simpl in *; [|done].
    rewrite (not_adopted_row _ _ _ _ Hety).
    destruct (core_applies (ev_aggregate_type e) c0 e payload) as [m Hm]; [by apply memb_true|].
    rewrite Hm in *. simpl in Hc. rewrite Hc. simpl. eexists. split; [done|].
    intros ty id Hin. rewrite count_snoc. unfold of_aggregate. destruct (bool_decide _) eqn:Ht; bsplit.
    + subst ty. destruct (bool_decide (ev_aggregate_id e = id)) eqn:Hi; bsplit; simpl.
      * subst id. by rewrite lookup_insert_eq.
      * rewrite lookup_insert_ne by congruence. rewrite Hvs by done. lia.
    + simpl. rewrite lookup_insert_ne by congruence. rewrite Hvs by done. lia.
  - injection Hc as <-.
    assert (memb (ev_aggregate_type e) replayed_types = false) as Hrep.
    { apply bool_decide_eq_false. intros Hin. assert (ev_aggregate_type e ∈ core_types) as Hin'
        by (revert Hin Hety; unfold replayed_types, adopted_types, core_types; set_solver).
      by rewrite (proj2 (memb_true _ _) Hin') in Hcore. }
    rewrite Hrep. simpl. eexists. split; [done|]. intros ty id Hin. rewrite count_snoc.
    unfold of_aggregate. rewrite bool_decide_eq_false_2; [simpl; rewrite Hvs by done; lia|].
    intros He'. rewrite He', (proj2 (memb_true _ _) Hin) in Hrep. done.
Qed.

Lemma replay_plain d c :
  plain d → core_log (events d) = Ok c →
  ∃ r, replay_events (events d) = Ok r ∧ rr_core r = c ∧ rr_adopted r = empty_adopted.
Proof.
  intros [Hg Hty _ _ _ _] Hc. destruct (replay_plain_rows (events d) c Hc Hty) as (vs & Hfold & _).
  { intros ty id. pose proof (Hg ty id) as Hv. unfold versions in Hv. by rewrite length_fmap in Hv. }
  unfold replay_events. rewrite Hfold. simpl. by eexists.
Qed.

(** Whatever replay returns, its goals, runs and tasks are the rebuilt ones. *)
Lemma replay_core es r0 r c0 :
  rr_core r0 = c0 → foldR apply_row r0 es = Ok r → foldR core_row c0 es = Ok (rr_core r).
Proof.
  intros <-. revert r0. induction es as [|e es IH]; intros r0 H; simpl in *; [by injection H as ->|].
  apply res_bind_ok in H as (r1 & H1 & H). apply IH in H.
  assert (core_row (rr_core r0) e = Ok (rr_core r1)) as ->; [|done].
  unfold apply_row in H1. unfold core_row. destruct (memb (ev_aggregate_type e) replayed_types) eqn:Hrep; simpl in H1.
  - apply res_bind_ok in H1 as (vs & _ & H1). apply res_bind_ok in H1 as (payload & Hp & H1). rewrite Hp. simpl.
    destruct (memb (ev_aggregate_type e) core_types) eqn:Hcore.
    + assert (ev_aggregate_type e ∉ adopted_types) as Hna
        by (by apply core_not_adopted, memb_true).
      rewrite (not_adopted_row _ _ _ _ Hna) in H1.
      destruct (apply_core _ _ _ _) as [m|] eqn:Hm; simpl in *; [|by injection H1 as ->].
      destruct m as [c|]; simpl in *; [|done]. by injection H1 as <-.
    + assert (apply_core (ev_aggregate_type e) (rr_core r0) e payload = None) as Hm
        by (by apply not_core_row; intros Hin%(memb_true _ _); rewrite Hin in Hcore).
      rewrite Hm in H1. destruct (apply_adopted _ _ _ _) as [m|]; [|by injection H1 as ->].
      destruct m; simpl in H1; [|done]. by injection H1 as <-.
  - injection H1 as <-. assert (memb (ev_aggregate_type e) core_types = false) as ->; [|done].
    apply bool_decide_eq_false. intros Hin. assert (ev_aggregate_type e ∈ replayed_types) as Hin'
      by (revert Hin; unfold core_types, replayed_types; set_solver).
    by rewrite (proj2 (memb_true _ _) Hin') in Hrep.
Qed.
End replaying.

(** ** Replay and repair rebuild what the commands did *)

(** A database in which at most the identities have been set up. *)
Record fresh (d : DB) : Prop := {
  fr_events : events d = []; fr_goals : goals d = ∅; fr_runs : runs d = ∅; fr_tasks : tasks d = ∅;
  fr_projects : adopted_projects (registry d) = ∅; fr_programs : adopted_programs (registry d) = ∅;
  fr_goal_bindings : goal_bindings (registry d) = ∅; fr_task_bindings : task_bindings (registry d) = ∅ }.

Section theorems.
Context `{ENV : Env}.

Lemma fresh_CI d : fresh d → CI [] d.
Proof.
  intros []. split; [|constructor]. exists empty_core. rewrite fr_events0. split; [done|].
  constructor; rewrite ?fr_goals0, ?fr_runs0, ?fr_tasks0; intros k; by rewrite !lookup_empty.
Qed.
Lemma fresh_plain d : fresh d → plain d.
Proof.
  intros []. constructor; try done; rewrite ?fr_events0; [|constructor].
  intros ty id. unfold versions. by rewrite fr_events0.
Qed.

Lemma run_sys_ops_keeps (ok : SysOp → Prop) I ops w :
  (∀ op, ok op → keeps I (run_sys_op op)) → Forall ok ops → I (w_db w) → I (w_db (run_sys_ops ops w)).
Proof.
  intros HI Hops. revert w. induction Hops as [|op ops Hop _ IH]; intros w Hw; [done|]. simpl. apply IH.
  destruct (run_sys_op op w) as [r w'] eqn:Hrun. by eapply HI.
Qed.

Lemma run_sys_ops_app ops ops' w : run_sys_ops (ops ++ ops') w = run_sys_ops ops' (run_sys_ops ops w).
Proof. revert w. induction ops as [|op ops IH]; intros w; [done|]. simpl. apply IH. Qed.

(** Among the commands is one that brings [Q] about, and it runs while [R] holds. *)
Definition brought_about (ops : list SysOp) (w : World) (Q R : DB → Prop) : Prop :=
  ∃ pre op post, ops = pre ++ op :: post ∧
    let before := run_sys_ops pre w in
    ¬ Q (w_db before) ∧ Q (w_db (run_sys_op op before).2) ∧ R (w_db before).

Lemma brought_about_by (Q R : DB → Prop) `{∀ d, Decision (Q d)} ops w :
  ¬ Q (w_db w) → Q (w_db (run_sys_ops ops w)) →
  (∀ pre op post, ops = pre ++ op :: post → let before := run_sys_ops pre w in
     ¬ Q (w_db before) → Q (w_db (run_sys_op op before).2) → R (w_db before)) →
  brought_about ops w Q R.
Proof.
  intros Hno. induction ops as [|op ops IH] using rev_ind; intros Hyes HR; [done|].
  destruct (decide (Q (w_db (run_sys_ops ops w)))) as [Hq|Hq].
  - destruct IH as (pre & op0 & post & -> & Hrest); [done| |].
    + intros pre op0 post ->. apply (HR pre op0 (post ++ [op])). by rewrite <- app_assoc.
    + exists pre, op0, (post ++ [op]). split; [by rewrite <- app_assoc|done].
  - rewrite run_sys_ops_app in Hyes. simpl in Hyes. exists ops, op, []. split; [done|].
    split_and!; [done..|]. by apply (HR ops op []).
Qed.

(** The principal has a live session with the owner role. *)
Definition live_owner (d : DB) (who : string) : Prop :=
  ∃ session, vp_principal_id session = who ∧ live_as d session R_OWNER.

Lemma matches_columns d c : matches d c → core_tables_match d c = true.
Proof.
  intros [Hg Hr Ht]. unfold core_tables_match, columns_match.
  rewrite !bool_decide_eq_true_2; [done|..].
  - apply (rel_map_columns _ _ _ _ _ Ht). intros k t u (? & ? & Ha & Hb & Hc & Hd & He & Hf).
    unfold task_columns. by rewrite Ha, Hb, Hc, Hd, He, Hf.
  - apply (rel_map_columns _ _ _ _ _ Hr). intros k x y (? & ? & Ha & Hb & Hc & Hd & He).
    unfold run_columns, rrun_columns. by rewrite Ha, Hb, Hc, Hd, He.
  - apply (rel_map_columns _ _ _ _ _ Hg). intros k x y (? & ? & Ha & Hb & Hc & Hd).
    unfold goal_columns. by rewrite Ha, Hb, Hc, Hd.
Qed.

Lemma sys_core ops w :
  fresh (w_db w) → Forall sys_op_ok ops → core_inv (w_db (run_sys_ops ops w)).
Proof.
  intros Hf Hops. apply (run_sys_ops_keeps sys_op_ok (CI []) ops w); [apply run_sys_op_CI|done|].
  by apply fresh_CI.
Qed.

Lemma replay_events_core es r : replay_events es = Ok r → core_log es = Ok (rr_core r).
Proof.
  unfold replay_events. intros H. apply res_bind_ok in H as (r1 & Hr & H).
  apply res_bind_ok in H as (u & _ & [= ->]). by apply (replay_core es empty_replay r empty_core).
Qed.

Lemma chain_pure n w w1 : verify_event_chain w = (Ok n, w1) → w1 = w.
Proof. unfold verify_event_chain. intros H. rinv. done. Qed.

Lemma replay_ok r w w' :
  replay w = (Ok r, w') → w' = w ∧ replay_events (events (w_db w)) = Ok r.
Proof.
  unfold replay, _replay_in_transaction. intros H. rinv.
  match goal with H : verify_event_chain _ = _ |- _ => apply chain_pure in H as -> end. done.
Qed.

(** C1: through any sequence of commands of kernels, schedulers and services
    in which no worker reports a failure with a blank class, in any order and from
    any number of processes, whichever of them raise, the goals, runs and tasks in the tables are the ones that the
    log says: whatever [replay] returns agrees with the tables in every column
    that [verify] compares.  When no kernel is configured with a project and the
    log verifies, [replay] does return.  A blank failure class does break replay:
    see [blank_failure_breaks_replay]. *)
Theorem projections_follow_log ops w :
  fresh (w_db w) → Forall sys_op_ok ops →
  let w' := run_sys_ops ops w in
  (∀ r w1, replay w' = (Ok r, w1) → core_tables_match (w_db w') (rr_core r) = true) ∧
  (Forall no_spines ops → ∀ n w1, verify_event_chain w' = (Ok n, w1) →
     ∃ r, replay w' = (Ok r, w1) ∧ core_tables_match (w_db w') (rr_core r) = true ∧
          adopted_tables_match (w_db w') (rr_adopted r) = true).
Proof.
  intros Hf Hops w'. destruct (sys_core ops w Hf Hops) as (c & Hc & Hm). fold w' in Hc, Hm. split.
  - intros r w1 [_ Hr]%replay_ok. apply replay_events_core in Hr.
    assert (rr_core r = c) as -> by congruence. by apply matches_columns.
  - intros Hno n w1 Hchain.
    assert (plain (w_db w')) as Hplain
      by (apply (run_sys_ops_keeps no_spines plain ops w); [apply run_sys_op_plain|done|by apply fresh_plain]).
    destruct (replay_plain _ _ Hplain Hc) as (r & Hr & Hcore & Had). exists r. split_and!.
    + unfold replay, _replay_in_transaction, transaction, mbind, M_bind, read, gets, lift_res. rewrite Hchain.
      simpl. rewrite (chain_pure _ _ _ Hchain), Hr. done.
    + rewrite Hcore. by apply matches_columns.
    + destruct Hplain. unfold adopted_tables_match, columns_match.
      by rewrite pl_projects0, pl_programs0, pl_goals0, pl_tasks0, Had.
Qed.

(** [d] with other goals, runs and tasks. *)
Definition with_core (g : gmap string GoalRow) (r : gmap string RunRow) (t : gmap string TaskRow) (d : DB) : DB :=
  set_tasks (λ _, t) (set_runs (λ _, r) (set_goals (λ _, g) d)).
Definition core_damage (d0 d : DB) : Prop := ∃ g r t, d = with_core g r t d0.

Lemma damage_trans d0 d1 d2 : core_damage d0 d1 → core_damage d1 d2 → core_damage d0 d2.
Proof. intros (g & r & t & ->) (g' & r' & t' & ->). by exists g', r', t'. Qed.
Lemma damage_write d0 (f : DB → DB) : (∀ d, core_damage d (f d)) → keeps (core_damage d0) (write f).
Proof. intros Hf. apply keeps_write. intros d Hd. by eapply damage_trans. Qed.
Lemma damage_insert d0 c (f : DB → DB) :
  (∀ d, core_damage d (f d)) → keeps (core_damage d0) (_ ← constraint c; write f).
Proof. intros Hf. apply keeps_bind; [apply keeps_constraint|intros _; by apply damage_write]. Qed.
Lemma damaged_goals d f : core_damage d (set_goals f d).
Proof. exists (f (goals d)), (runs d), (tasks d). by destruct d. Qed.
Lemma damaged_runs d f : core_damage d (set_runs f d).
Proof. exists (goals d), (f (runs d)), (tasks d). by destruct d. Qed.
Lemma damaged_tasks d f : core_damage d (set_tasks f d).
Proof. exists (goals d), (runs d), (f (tasks d)). by destruct d. Qed.
Hint Resolve damage_write damage_insert damaged_goals damaged_runs damaged_tasks : core.

Lemma upsert_goal_damage d0 g : keeps (core_damage d0) (upsert_goal g).
Proof. unfold upsert_goal. keeps_walk; auto. by apply damage_insert. Qed.
Lemma upsert_run_damage d0 r : keeps (core_damage d0) (upsert_run r).
Proof. unfold upsert_run. keeps_walk; auto. by apply damage_insert. Qed.
Lemma upsert_task_damage d0 t : keeps (core_damage d0) (upsert_task t).
Proof. unfold upsert_task. keeps_walk; auto. by apply damage_insert. Qed.

Lemma repair_ok actor r w w' :
  repair actor w = (Ok r, w') →
  live_as (w_db w) actor R_SYSTEM ∧ core_damage (w_db w) (w_db w') ∧
  replay_events (events (w_db w)) = Ok r ∧ projections_ok (w_db w') r = true.
Proof.
  unfold repair, _replay_in_transaction, _verify_projections_in_transaction. intros Hrun.
  apply (proj1 (transaction_ok _ _ _ _)) in Hrun.
  apply bind_ok in Hrun as (p & w1 & H1 & Hrun). pose proof H1 as Hlive. unfold require_role_in_transaction in *.
  apply verify_live in Hlive. pose proof (keeps_verify (core_damage (w_db w)) actor (Some R_SYSTEM)) as Hk.
  assert (w_db w1 = w_db w) as Hdb by (by apply verify_ok in H1 as (-> & _)).
  apply bind_ok in Hrun as (r0 & w2 & H2 & Hrun). rinv.
  match goal with H : verify_event_chain _ = _ |- _ => apply chain_pure in H as -> end. rewrite Hdb in *.
  split_and!; try done.
  assert (core_damage (w_db w) (w_db w)) as Hrefl
    by (exists (goals (w_db w)), (runs (w_db w)), (tasks (w_db w)); by destruct (w_db w)).
  rewrite <- Hdb in Hrefl at 2.
  repeat match goal with H : forM _ _ _ = _ |- _ =>
    apply (keeps_forM (core_damage (w_db w))) in H;
      [|intros ?; first [apply upsert_goal_damage|apply upsert_run_damage|apply upsert_task_damage]] end.
  auto.
Qed.

(** C19: replay undoes damage.  Let any sequence of commands have run, and let
    the goals, runs and tasks then be overwritten in any way.  When [repair]
    returns, by a live system session, it has put back every goal, run and task
    with the columns that [verify] compares, created no others, and changed no
    other table. *)
Theorem repair_restores ops w actor r wd w' :
  fresh (w_db w) → Forall sys_op_ok ops →
  core_damage (w_db (run_sys_ops ops w)) (w_db wd) → repair actor wd = (Ok r, w') →
  let d := w_db (run_sys_ops ops w) in
  live_as (w_db wd) actor R_SYSTEM ∧ core_damage d (w_db w') ∧
  goal_columns <$> goals (w_db w') = goal_columns <$> goals d ∧
  run_columns <$> runs (w_db w') = run_columns <$> runs d ∧
  task_columns <$> tasks (w_db w') = task_columns <$> tasks d.
Proof.
  intros Hf Hops Hdmg (Hlive & Hd & Hr & Hok)%repair_ok d.
  destruct (sys_core ops w Hf Hops) as (c & Hc & Hm). fold d in Hc, Hm, Hdmg.
  assert (events (w_db wd) = events d) as He by (by destruct Hdmg as (? & ? & ? & ->)).
  rewrite He in Hr. apply replay_events_core in Hr. assert (rr_core r = c) as Hrc by congruence.
  apply matches_columns in Hm. unfold projections_ok in Hok. rewrite Hrc in Hok.
  unfold core_tables_match, columns_match in *. bsplit. split; [done|]. split; [by eapply damage_trans|].
  split_and!; congruence.
Qed.
End theorems.

(** ** The history of a run and of a task *)
Section history.
Context `{ENV : Env}.

(** What one event does to what is rebuilt. *)
Inductive core_step (c : Core) (e : Event) : Core → Prop :=
  | cs_other : ev_aggregate_type e ∉ core_types → core_step c e c
  | cs_goal f : ev_aggregate_type e = "goal" → core_step c e (put_goals f c)
  | cs_start_run s : ev_aggregate_type e = "run" → c_runs c !! ev_aggregate_id e = None →
      ru_loop_state (rr_row s) = L_INTAKE → core_step c e (put_runs <[ev_aggregate_id e := s]> c)
  | cs_run s event payload guards target now :
      ev_aggregate_type e = "run" → c_runs c !! ev_aggregate_id e = Some s →
      ev_event_type e = value event → ev_payload e = JObj payload →
      guards_of (dget_or payload "guards" (JObj [])) = Ok guards →
      apply_loop_event (ru_loop_state (rr_row s)) event guards = Ok target →
      core_step c e (put_runs <[ev_aggregate_id e := {| rr_policy_version := rr_policy_version s;
        rr_row := run_moved target (ev_aggregate_version e) now (rr_row s) |}]> c)
  | cs_start_task t : ev_aggregate_type e = "task" → c_tasks c !! ev_aggregate_id e = None →
      ev_event_type e = "task_added" → t_state t = T_READY →
      core_step c e (put_tasks <[ev_aggregate_id e := t]> c)
  | cs_task t payload target now :
      ev_aggregate_type e = "task" → c_tasks c !! ev_aggregate_id e = Some t →
      ev_event_type e = "task_state_changed" → ev_payload e = JObj payload →
      dget_or payload "target" JNull = JStr (value target) →
      require_task_transition (t_state t) target = Ok tt →
      core_step c e (put_tasks <[ev_aggregate_id e := task_with target (ev_aggregate_version e) now t]> c).

Lemma core_row_step c e c' : core_row c e = Ok c' → core_step c e c'.
Proof.
  unfold core_row. destruct (memb _ core_types) eqn:Hty; [|intros [= <-]; apply cs_other; by intros Hin%(memb_true _ _); rewrite Hin in Hty].
  apply memb_true in Hty. intros H. apply res_bind_ok in H as (p & Hp & H).
  assert (ev_payload e = JObj p) as Hpay by (unfold payload_of in Hp; by destruct (ev_payload e); simplify_eq).
  clear Hp. unfold core_types in Hty.
  apply elem_of_cons in Hty as [Hty|Hty]; [|apply elem_of_cons in Hty as [Hty|Hty];
    [|apply elem_of_cons in Hty as [Hty|[]%not_elem_of_nil]]]; rewrite Hty in H.
  - change (_apply_goal c e p = Ok c') in H. unfold _apply_goal in H. rinv. by apply cs_goal.
  - change (_apply_run c e p = Ok c') in H. unfold _apply_run in H. destruct (c_runs c !! _) as [s|] eqn:Hs.
    + destruct (of_value (ev_event_type e)) as [event|] eqn:Hev; [|done]. simpl in H.
      destruct (guards_of _) as [gs|] eqn:Hgs; [|done]. simpl in H.
      destruct (apply_loop_event _ _ _) as [target|] eqn:Happly; [|done]. simpl in H. injection H as <-.
      eapply cs_run; try done. symmetry. by apply of_value_ok.
    + unfold start_run in H. rinv. by apply cs_start_run.
  - change (_apply_task c e p = Ok c') in H. unfold _apply_task in H. destruct (c_tasks c !! _) as [t|] eqn:Ht.
    + rinv. bsplit. destruct (dget_or p "target" JNull) as [| | |s| |] eqn:Htarget; try done.
      match goal with H : of_value s = Ok ?x |- _ => rename x into target; apply of_value_ok in H as Hval end.
      destruct (require_task_transition (t_state t) target) as [[]|] eqn:Htr; [|done].
      eapply cs_task; try done. congruence.
    + unfold start_task in H. rinv. bsplit. by apply cs_start_task.
Qed.

(** An accepted event of a run, as the log records it. *)
Definition logged_move (es : list Event) (run_id : string) (m : LoopMove) : Prop :=
  ∃ e payload, e ∈ es ∧ of_aggregate "run" run_id e = true ∧ ev_event_type e = value m.1 ∧
    ev_payload e = JObj payload ∧ guards_of (dget_or payload "guards" (JObj [])) = Ok m.2.

(** The states to which the log moves a task. *)
Definition move_target (task_id : string) (e : Event) : option TaskState :=
  if of_aggregate "task" task_id e && bool_decide (ev_event_type e = "task_state_changed") then
    match ev_payload e with
    | JObj p => match dget_or p "target" JNull with
                | JStr s => match of_value s with Ok t => Some t | Raise _ => None end
                | _ => None
                end
    | _ => None
    end
  else None.
Definition task_moves_of (es : list Event) (task_id : string) : list TaskState := omap (move_target task_id) es.

Lemma run_loop_snoc s ms e g t u :
  run_loop s ms = Ok t → apply_loop_event t e g = Ok u → run_loop s (ms ++ [(e, g)]) = Ok u.
Proof.
  revert s. induction ms as [|[e' g'] ms IH]; intros s; simpl; [intros [= ->] ->; done|].
  destruct (apply_loop_event s e' g'); simpl; [apply IH|done].
Qed.

Lemma run_history es c id s :
  core_log es = Ok c → c_runs c !! id = Some s →
  ∃ ms, run_loop L_INTAKE ms = Ok (ru_loop_state (rr_row s)) ∧ Forall (logged_move es id) ms.
Proof.
  revert c s. induction es as [|e es IH] using rev_ind; intros c s Hc Hs.
  { injection Hc as <-. simpl in Hs. by rewrite lookup_empty in Hs. }
  unfold core_log in Hc. rewrite foldR_app in Hc. apply res_bind_ok in Hc as (c0 & Hc0 & Hc). simpl in Hc.
  apply res_bind_ok in Hc as (c1 & Hc1%core_row_step & [= ->]).
  assert (∀ ms, Forall (logged_move es id) ms → Forall (logged_move (es ++ [e]) id) ms) as Hmore.
  { intros ms Hms. eapply Forall_impl; [exact Hms|]. intros m (e' & p & Hin & ?). exists e', p.
    split; [set_solver|done]. }
  assert (c_runs c0 !! id = Some s → ∃ ms, run_loop L_INTAKE ms = Ok (ru_loop_state (rr_row s)) ∧
            Forall (logged_move (es ++ [e]) id) ms) as Hold.
  { intros Hs0. destruct (IH _ _ Hc0 Hs0) as (ms & ? & ?). eauto. }
  destruct Hc1 as [ | |s' Hty Hnone Hst|s' event payload gs target now Hty Hs0 Hev Hpay Hgs Happly| | ];
    simpl in Hs; auto; apply lookup_insert_Some in Hs as [[Hid <-]|[_ Hs]]; auto.
  - exists []. rewrite Hst. by split.
  - rewrite Hid in Hs0. destruct (IH _ _ Hc0 Hs0) as (ms & Hms & Hall). exists (ms ++ [(event, gs)]).
    split; [by eapply run_loop_snoc|]. apply Forall_app. split; [auto|]. constructor; [|constructor].
    exists e, payload. split_and!; try done; [set_solver|]. unfold of_aggregate.
    by rewrite !bool_decide_eq_true_2.
Qed.

Lemma task_path_snoc s p t u :
  task_path s p → last (s :: p) = Some t → require_task_transition t u = Ok tt → task_path s (p ++ [u]).
Proof.
  revert s. induction p as [|v p IH]; intros s; simpl; [intros _ [= ->]; by split|].
  intros [? Hp] Hl Htu. split; [done|]. by apply IH.
Qed.

Lemma unmoved es e id :
  move_target id e = None → task_moves_of (es ++ [e]) id = task_moves_of es id.
Proof. intros He. unfold task_moves_of. rewrite omap_app. simpl. by rewrite He, app_nil_r. Qed.

Lemma move_of_other id e :
  ¬ (ev_aggregate_type e = "task" ∧ ev_aggregate_id e = id ∧ ev_event_type e = "task_state_changed") →
  move_target id e = None.
Proof.
  intros Hne. unfold move_target, of_aggregate. do 3 case_bool_decide; try done.
  exfalso. tauto.
Qed.

(** The tasks of the log: each one started [ready] and is where its moves led,
    and a task that has not been added has no moves. *)
Lemma task_history es c id :
  core_log es = Ok c →
  match c_tasks c !! id with
  | Some t => task_path T_READY (task_moves_of es id) ∧ last (T_READY :: task_moves_of es id) = Some (t_state t)
  | None => task_moves_of es id = []
  end.
Proof.
  revert c. induction es as [|e es IH] using rev_ind; intros c Hc.
  { injection Hc as <-. simpl. by rewrite lookup_empty. }
  unfold core_log in Hc. rewrite foldR_app in Hc. apply res_bind_ok in Hc as (c0 & Hc0 & Hc). simpl in Hc.
  apply res_bind_ok in Hc as (c1 & Hc1%core_row_step & [= ->]). specialize (IH _ Hc0).
  assert (ev_aggregate_type e ≠ "task" → c_tasks c = c_tasks c0 → match c_tasks c !! id with
    | Some t => task_path T_READY (task_moves_of (es ++ [e]) id) ∧
                last (T_READY :: task_moves_of (es ++ [e]) id) = Some (t_state t)
    | None => task_moves_of (es ++ [e]) id = [] end) as Hold.
  { intros Hty ->. by rewrite unmoved by (apply move_of_other; tauto). }
  destruct Hc1 as [Hty|f Hty|s' Hty Hnone Hst|s' event payload gs target now Hty Hs0 Hev Hpay Hgs Happly
                  |t Hty Hnone Hev Hst|t payload target now Hty Ht Hev Hpay Htarget Htr]; simpl.
  1: apply Hold; [|done]; intros Ht; apply Hty; rewrite Ht; unfold core_types; set_solver.
  1-3: apply Hold; [rewrite Hty; discriminate|done].
  - rewrite unmoved by (apply move_of_other; rewrite Hev; naive_solver).
    destruct (decide (ev_aggregate_id e = id)) as [<-|Hne]; [|by rewrite lookup_insert_ne].
    rewrite lookup_insert_eq. rewrite Hnone in IH. rewrite IH. split; [done|]. simpl. by rewrite Hst.
  - destruct (decide (ev_aggregate_id e = id)) as [<-|Hne].
    + rewrite lookup_insert_eq. rewrite Ht in IH. destruct IH as [Hp Hl].
      assert (task_moves_of (es ++ [e]) (ev_aggregate_id e) = task_moves_of es (ev_aggregate_id e) ++ [target]) as ->.
      { unfold task_moves_of. rewrite omap_app. simpl. unfold move_target, of_aggregate.
        rewrite !bool_decide_eq_true_2 by done. simpl. by rewrite Hpay, Htarget, of_value_value. }
      split; [by eapply task_path_snoc|]. by rewrite app_comm_cons, last_snoc.
    + rewrite lookup_insert_ne by done. by rewrite unmoved by (apply move_of_other; tauto).
Qed.

(** Deliveries are in the log.  Through any sequence of commands from a fresh
    database, a run that the tables show delivered (or awaiting improvement) has
    among its logged events an evaluator verdict recorded with satisfied evidence
    and evaluator, and one recorded with all five delivery guards; a task that they
    show delivered has among its logged moves, in this order, those to leased,
    running, evidence-pending, integration-pending and delivered. *)
Theorem delivery_in_log ops w :
  fresh (w_db w) → Forall sys_op_ok ops →
  let d := w_db (run_sys_ops ops w) in
  (∀ id r, runs d !! id = Some r → ru_loop_state r = L_DELIVERED ∨ ru_loop_state r = L_IMPROVEMENT_PENDING →
     (∃ g, logged_move (events d) id (E_EVALUATOR_VERDICT_RECEIVED, g) ∧
           all_true g ["evidence_satisfied"; "evaluator_satisfied"]%string) ∧
     (∃ e g, logged_move (events d) id (e, g) ∧ all_true g delivery_guards)) ∧
  (∀ id t, tasks d !! id = Some t → t_state t = T_DELIVERED →
     sublist delivery_route (task_moves_of (events d) id)).
Proof.
  intros Hf Hops d. destruct (sys_core ops w Hf Hops) as (c & Hc & [_ Hruns Htasks]). fold d in Hc, Hruns, Htasks.
  split.
  - intros id r Hr Hst. destruct (rel_map_some _ _ _ _ _ Hruns Hr) as (s & Hs & _ & _ & _ & _ & Hl & _).
    rewrite Hl in Hst. destruct (run_history _ _ _ _ Hc Hs) as (ms & Hms & Hall).
    rewrite Forall_forall in Hall. split.
    + destruct (run_loop_verdict _ _ _ Hms) as (g & Hin & Hg); [done|by destruct Hst as [-> | ->]|eauto].
    + destruct (run_loop_guards _ _ _ Hms) as (e & g & Hin & Hg); [done..|eauto].
  - intros id t Ht Hst. destruct (rel_map_some _ _ _ _ _ Htasks Ht) as (u & Hu & _ & _ & _ & _ & _ & Hs & _).
    pose proof (task_history _ _ id Hc) as Hh. rewrite Hu in Hh. destruct Hh as [Hp Hl]. rewrite <- Hs, Hst in Hl.
    by apply (followed_path [] T_READY (task_moves_of (events d) id) T_DELIVERED); [constructor|..].
Qed.
End history.

(** ** Witnesses: a goal from its creation to its delivery *)
Module Story.
Import Toy Sample Queue.

(** The facts that other components record: passing evidence, a healthy
    observation, the finished workflow step and the delivered integration item. *)
Definition evidence : EvidenceClaim := {|
  ec_id := "ev1"; ec_project_id := "proj"; ec_run_id := "r1"; ec_task_id := "t1"; ec_claim := "it serves";
  ec_evidence_state := ES_RUNTIME; ec_artifact_refs := JList []; ec_verifier_principal_id := "p-alice";
  ec_verifier_version := "1"; ec_environment := "test"; ec_evaluator_verdict := V_PASS; ec_non_claims := JList [];
  ec_created_at := past |}.
Definition observed : Observation := {|
  ob_id := "o1"; ob_project_id := "proj"; ob_run_id := "r1"; ob_surface_key := "api"; ob_target_identity := "svc";
  ob_observer := "p-alice"; ob_probe_name := "http"; ob_probe_version := "1"; ob_trigger_event_id := Some "uuid-3";
  ob_status := "healthy"; ob_value := JNull; ob_value_digest := "d"; ob_observed_at := 1700000000000000;
  ob_recorded_at := 1700000000000000; ob_expires_at := 1700000060000000 |}.
Definition step1 : StepRow := {| st_task_id := "t1"; st_step_id := "s1"; st_status := "succeeded";
  st_input_digest := "d"; st_result := None; st_effect_id := None; st_started_at := past; st_completed_at := Some past |}.
Definition item1 : IntegrationItem := {| ii_id := "i1"; ii_project_id := "proj"; ii_run_id := "r1"; ii_task_id := "t1";
  ii_state := I_DELIVERED; ii_source_ref := "a"; ii_target_ref := "b"; ii_owner := "p-alice";
  ii_evidence_refs := JList []; ii_updated_at := past |}.
Definition facts : Registry :=
  Build_Registry {["ev1" := evidence]} {["o1" := observed]} {["i1" := item1]} {[("t1", "s1") := step1]}
    ∅ ∅ ∅ ∅ ∅ ∅ ∅ empty_effects.
Definition new_db : DB := {|
  principals := {["p-alice" := alice]};
  principal_roles := list_to_map ((λ r, (("p-alice", r), past)) <$> role_all);
  sessions := {["sess" := alice_session future]};
  events := []; idempotency := ∅; goals := ∅; runs := ∅; tasks := ∅;
  attempts := ∅; leases := ∅; negatives := ∅; registry := facts |}.
Definition opened : World := world new_db domain.
Definition k : RuntimeKernel := {| rk_self := 1; rk_command_authority := 0; rk_policy_version := "v1";
  rk_authority_spines := [] |}.
Definition begin_ops : list SysOp := [
  SysKernel k (KoCreateGoal ∅ "proj" sample_goal alice_vp "k1" None);
  SysKernel k (KoCreateRun "proj" "g1" "r1" alice_vp "k2");
  SysKernel k (KoAddTask ∅ "proj" sample_task alice_vp "k3" (Some "r1") None);
  SysKernel k (KoAdvance "r1" E_GOAL_COMPILED alice_vp "k4" [] [] None);
  SysKernel k (KoAdvance "r1" E_RUN_READY alice_vp "k5" [] [] None)].
Definition grant : TaskClaim := {| tc_task_id := "t1"; tc_run_id := "r1"; tc_attempt_id := "uuid-10"; tc_attempt_number := 1;
  tc_worker_id := "p-alice"; tc_resource_key := "task://t1"; tc_fence := 1; tc_expires_at := 1700000600028000 |}.
Definition lease_facts : dict :=
  [("task_id", JStr "t1"); ("resource_key", JStr "task://t1"); ("holder", JStr "p-alice"); ("fence", JInt 1)].
Definition work_ops : list SysOp := [
  SysSched sc (SoClaim "proj" alice_vp 600);
  SysKernel k (KoAdvance "r1" E_TASK_STARTED alice_vp "k6" [] lease_facts None);
  SysSched sc (SoStart grant alice_vp);
  SysSched sc (SoComplete grant alice_vp);
  SysKernel k (KoAdvance "r1" E_EVIDENCE_SUBMITTED alice_vp "k7" [] [] None);
  SysKernel k (KoAccept "t1" alice_vp "k8" "ev1")].
Definition finish_ops : list SysOp := [
  SysKernel k (KoAdvance "r1" E_EVALUATOR_VERDICT_RECEIVED alice_vp "k9" [] [] None);
  SysKernel k (KoConfirm "t1" alice_vp "k10");
  SysKernel k (KoAdvance "r1" E_DELIVERY_CONFIRMED alice_vp "k11" [] [] None)].
Definition story : list SysOp := begin_ops ++ work_ops ++ finish_ops.

Lemma opened_fresh : fresh (w_db opened).
Proof. by constructor. Qed.
Lemma story_ok : Forall sys_op_ok story.
Proof. repeat constructor. Qed.
Lemma begin_ok : Forall sys_op_ok begin_ops.
Proof. repeat constructor. Qed.

Lemma projections_follow_log_witness :
  ∃ r, (replay (run_sys_ops story opened)).1 = Ok r ∧
    core_tables_match (w_db (run_sys_ops story opened)) (rr_core r) = true.
Proof.
  destruct (run_succeeds verify_event_chain (run_sys_ops story opened) ltac:(by_eval)) as (n & w1 & Hn).
  destruct (proj2 (projections_follow_log story opened opened_fresh story_ok) ltac:(repeat constructor) n w1 Hn)
    as (r & Hr & Hm & _).
  exists r. split; [by rewrite Hr|exact Hm].
Defined.

(** The goal and the run are lost and the task is shown failed at another version. *)
Definition damage (d : DB) : DB := with_core ∅ ∅ (alter (task_with T_FAILED 77 past) "t1" (tasks d)) d.
Lemma damage_is w : core_damage (w_db w) (w_db (set_db damage w)).
Proof. by eexists _, _, _. Qed.
Definition damaged : World := set_db damage (run_sys_ops begin_ops opened).

Lemma repair_restores_witness :
  ∃ r w', repair alice_vp damaged = (Ok r, w') ∧
    task_columns <$> tasks (w_db w') = task_columns <$> tasks (w_db (run_sys_ops begin_ops opened)).
Proof.
  destruct (run_succeeds (repair alice_vp) damaged ltac:(by_eval)) as (r & w' & Hr).
  exists r, w'. split; [exact Hr|].
  destruct (repair_restores begin_ops opened alice_vp r damaged w' opened_fresh begin_ok (damage_is _) Hr)
    as (_ & _ & _ & _ & Htasks). exact Htasks.
Defined.

Lemma delivered_row :
  match runs (w_db (run_sys_ops story opened)) !! "r1", tasks (w_db (run_sys_ops story opened)) !! "t1" with
  | Some r, Some t => bool_decide (ru_loop_state r = L_DELIVERED) && bool_decide (t_state t = T_DELIVERED)
  | _, _ => false
  end = true.
Proof. by_eval. Qed.

Lemma delivery_in_log_witness :
  ∃ e g, logged_move (events (w_db (run_sys_ops story opened))) "r1" (e, g) ∧ all_true g delivery_guards ∧
    sublist delivery_route (task_moves_of (events (w_db (run_sys_ops story opened))) "t1").
Proof.
  pose proof delivered_row as Hrow.
  destruct (runs _ !! "r1") as [r|] eqn:Hr; [|discriminate Hrow].
  destruct (tasks _ !! "t1") as [t|] eqn:Ht; [|discriminate Hrow]. bsplit.
  destruct (delivery_in_log story opened opened_fresh story_ok) as [Hruns Htasks].
  destruct (Hruns "r1" r Hr) as (_ & e & g & Hm & Hg); [by left|].
  exists e, g. split_and!; [exact Hm|exact Hg|by apply (Htasks "t1" t)].
Defined.
End Story.
