(* ===== verification/Operator.v ===== *)
(** * The operator snapshot ([operator.py])

    One read transaction verifies the hash chain and the projections of a database
    and answers with counts, digests and times.  The theorems show what the source
    promises of the answer: taking it changes nothing, it tells nothing of the
    contents of the rows, and its numbers add up.

    The file is a parameter: its resolved path, whether it exists, the tables that
    [sqlite_master] lists and the last row of [schema_migrations]. *)

From S2P Require Import Prelude PyStr Json Enums Contracts Db Store Replay System.

Local Open Scope string_scope.
Local Open Scope Z_scope.

Definition OPERATOR_SNAPSHOT_VERSION : Z := 1.
Definition SCHEMA_VERSION : Z := 6.
Definition _REQUIRED_TABLES : list string :=
  ["schema_migrations"; "events"; "principals"; "authenticated_sessions"; "runs"; "tasks"; "attempts";
   "workflow_steps"; "leases"; "approvals"; "capability_grants"; "outbox"; "effect_receipts"; "evidence_claims";
   "runtime_observations"; "negative_results"; "eval_runs"; "improvement_proposals"; "sealed_custody_attestations";
   "integration_items"].

Record Migration := { mg_version : Z; mg_checksum : string; mg_applied_at : string }.
Record DatabaseFile := {
  df_path : string; df_is_file : bool; df_tables : list string; df_migration : option Migration }.

(** ** Queries *)
Section queries.
Context `{Countable K} {A : Type}.

Definition _count (f : A → bool) (m : gmap K A) : Z := Z.of_nat (length (select f m)).
Definition _sum (f : A → Z) (m : gmap K A) : Z := sum f (rows m).
(** [GROUP BY]: the texts of a column in order, each with the number of its rows. *)
Definition _group (column : A → string) (m : gmap K A) : list (string * Z) :=
  (λ text, (text, _count (λ x, bool_decide (column x = text)) m)) <$> sort_by id (fromkeys (column <$> rows m)).
End queries.

Definition any {A} (_ : A) : bool := true.
Definition jcounts (l : list (string * Z)) : json := JObj ((λ kv, (kv.1, JInt kv.2)) <$> l).

Definition attempt_text (s : AttemptState) : string :=
  match s with
  | A_leased => "leased" | A_running => "running" | A_succeeded => "succeeded" | A_failed => "failed"
  | A_abandoned => "abandoned" | A_blocked => "blocked" | A_canceled => "canceled" | A_deleted => "deleted"
  | A_retired => "retired"
  end.

(** [julianday(t) > julianday(captured_at)] *)
Definition after (now t : Instant) : bool := julianday now <? julianday t.
Definition live (now : Instant) (released : option Instant) (expires : Instant) : bool :=
  bool_decide (released = None) && after now expires.

(** ** The sections of the snapshot *)
Section snapshot.
Context `{ENV : Env}.

Definition event_log (d : DB) (event_count : Z) : dict :=
  let head := last (events d) in
  [("chain_verified", JBool true); ("core_projection_replay_verified", JBool true); ("count", JInt event_count);
   ("head_seq", match head with Some _ => JInt (Z.of_nat (length (events d))) | None => JNull end);
   ("head_hash", jopt (ev_hash <$> head));
   ("head_recorded_at", jopt ((λ e, iso (ev_recorded_at e)) <$> head))].

Definition work_section (d : DB) : dict :=
  [("runs", JObj [("total", JInt (_count any (runs d)));
      ("by_state", jcounts (_group (λ r, value (ru_loop_state r)) (runs d)));
      ("unresolved", JInt (_count (λ r, negb (bool_decide (value (ru_loop_state r) = "delivered"))) (runs d)));
      ("blocked_for_decision_or_state", JInt (_count (λ r, memb (value (ru_loop_state r))
         ["blocked_with_decision"; "blocked_with_missing_state"; "blocked_with_capability_gap"]) (runs d)))]);
   ("tasks", JObj [("total", JInt (_count any (tasks d)));
      ("by_state", jcounts (_group (λ t, value (t_state t)) (tasks d)));
      ("non_terminal", JInt (_count (λ t, negb (memb (value (t_state t))
         ["delivered"; "failed"; "canceled"; "deleted"; "retired"])) (tasks d)))]);
   ("attempts", JObj [("total", JInt (_count any (attempts d)));
      ("by_state", jcounts (_group (λ a, attempt_text (a_state a)) (attempts d)));
      ("open", JInt (_count (λ a, bool_decide (a_ended_at a = None)) (attempts d)))]);
   ("workflow_steps", JObj [("total", JInt (_count any (workflow_steps (registry d))));
      ("by_status", jcounts (_group st_status (workflow_steps (registry d))))])].

Definition lease_section (d : DB) (now : Instant) : dict :=
  [("total", JInt (_count any (leases d)));
   ("active", JInt (_count (λ l, live now (l_released_at l) (l_expires_at l)) (leases d)));
   ("expired_unreleased", JInt (_count (λ l, bool_decide (l_released_at l = None)
      && (julianday (l_expires_at l) <=? julianday now)) (leases d)));
   ("released", JInt (_count (λ l, negb (bool_decide (l_released_at l = None))) (leases d)))].

Definition outbox_section (d : DB) : dict :=
  let table := outbox (effects (registry d)) in
  [("total", JInt (_count any table)); ("by_status", jcounts (_group ox_status table));
   ("pending_recovery", JInt (_count (λ o, memb (ox_status o) ["authorization_pending"; "ready"]) table));
   ("receipts", JInt (_count any (effect_receipts (effects (registry d)))))].

Definition integration_section (d : DB) : dict :=
  let table := integration_items (registry d) in
  [("total", JInt (_count any table)); ("by_state", jcounts (_group (λ i, value (ii_state i)) table));
   ("unresolved", JInt (_count (λ i, negb (memb (value (ii_state i)) ["delivered"; "superseded"])) table))].

Definition evaluation_section (d : DB) : dict :=
  let table := eval_runs (knowledge (effects (registry d))) in
  [("eval_runs", JInt (_count any table)); ("eval_by_status", jcounts (_group el_status table));
   ("eval_by_split", jcounts (_group el_dataset_split table));
   ("improvements", JInt (_count any (proposals (registry d))));
   ("improvements_by_state", jcounts (_group (λ p, value (ip_state p)) (proposals (registry d))));
   ("sealed_custody_attestations", JInt (_count any (custody (knowledge (effects (registry d))))))].

Definition approval_section (d : DB) (now : Instant) : dict :=
  [("approvals", JInt (_count any (approvals (registry d))));
   ("approvals_by_decision", jcounts (_group av_decision (approvals (registry d))));
   ("pending_approvals", JInt (_count (λ a, bool_decide (av_decision a = "pending")) (approvals (registry d))));
   ("grants", JInt (_count any (grants (registry d))));
   ("live_unexhausted_grants", JInt (_count (λ g, bool_decide (gr_revoked_at g = None)
      && (gr_used_count g <? gr_max_uses g) && after now (gr_expires_at g)) (grants (registry d))))].

Definition evidence_section (d : DB) : dict :=
  let table := evidence_claims (registry d) in
  [("total", JInt (_count any table)); ("by_state", jcounts (_group (λ e, value (ec_evidence_state e)) table));
   ("by_verdict", jcounts (_group (λ e, value (ec_evaluator_verdict e)) table))].

Definition observation_section (d : DB) (now : Instant) : dict :=
  let table := observations (registry d) in
  [("total", JInt (_count any table)); ("by_status", jcounts (_group ob_status table));
   ("fresh", JInt (_count (λ o, after now (ob_expires_at o)) table));
   ("expired", JInt (_count (λ o, julianday (ob_expires_at o) <=? julianday now) table))].

Definition negative_section (d : DB) : dict :=
  [("unique", JInt (_count any (negatives d))); ("recurrences", JInt (_sum n_recurrence (negatives d)));
   ("by_severity", jcounts (_group n_severity (negatives d)))].

Definition identity_section (d : DB) (now : Instant) : dict :=
  [("principals", JInt (_count any (principals d)));
   ("enabled_principals", JInt (_count p_enabled (principals d)));
   ("live_sessions", JInt (_count (λ s, live now (s_revoked_at s) (s_expires_at s)) (sessions d)))].

Definition claim_boundary : dict :=
  [("evidence_state", JStr "runtime_verification"); ("redaction", JStr "counts_digests_freshness_only");
   ("non_claims", jstrs ["runtime_process_health"; "provider_health"; "provider_smoke"; "human_acceptance";
                         "business_validation"; "production_readiness"])].

Definition snapshot_of (path : string) (migration : Migration) (event_count : Z) (now : Instant) (d : DB) : dict :=
  [("snapshot_version", JInt OPERATOR_SNAPSHOT_VERSION); ("captured_at", JStr (iso now));
   ("database_identity_digest", JStr (content_hash (JStr path))); ("mode", JStr "single_host_read_only_snapshot");
   ("schema", JObj [("version", JInt (mg_version migration)); ("checksum", JStr (mg_checksum migration));
                    ("applied_at", JStr (mg_applied_at migration))]);
   ("event_log", JObj (event_log d event_count)); ("work", JObj (work_section d)); ("leases", JObj (lease_section d now));
   ("outbox", JObj (outbox_section d)); ("integration", JObj (integration_section d));
   ("evaluation", JObj (evaluation_section d)); ("approvals_and_grants", JObj (approval_section d now));
   ("evidence", JObj (evidence_section d)); ("runtime_observations", JObj (observation_section d now));
   ("negative_results", JObj (negative_section d)); ("identity", JObj (identity_section d now));
   ("claim_boundary", JObj claim_boundary)].

Definition operator_snapshot (file : DatabaseFile) : P dict :=
  _ ← ensure (df_is_file file) IntegrityError;
  _ ← ensure (negb (startswith (df_path file) "\\" || startswith (df_path file) "//")) PyValueError;
  captured_at ← utc_now;
  transaction (
    _ ← ensure (forallb (λ table, memb table (df_tables file)) _REQUIRED_TABLES) IntegrityError;
    migration ← expect (df_migration file) IntegrityError;
    _ ← ensure (mg_version migration =? SCHEMA_VERSION) IntegrityError;
    event_count ← verify_event_chain;
    replayed ← _replay_in_transaction;
    _ ← _verify_projections_in_transaction replayed;
    d ← read id;
    mret (snapshot_of (df_path file) migration event_count captured_at d)).
End snapshot.

(** ** The public columns

    What the snapshot may tell of a database: the states, decisions, verdicts,
    counters and times of its rows, and the number and the last hash and time of its
    events. *)
Record same_public (d d' : DB) : Prop := {
  pub_length : length (events d) = length (events d');
  pub_head : (λ e, (ev_hash e, ev_recorded_at e)) <$> last (events d)
             = (λ e, (ev_hash e, ev_recorded_at e)) <$> last (events d');
  pub_runs : ru_loop_state <$> runs d = ru_loop_state <$> runs d';
  pub_tasks : t_state <$> tasks d = t_state <$> tasks d';
  pub_attempts : (λ a, (a_state a, a_ended_at a)) <$> attempts d = (λ a, (a_state a, a_ended_at a)) <$> attempts d';
  pub_steps : st_status <$> workflow_steps (registry d) = st_status <$> workflow_steps (registry d');
  pub_leases : (λ l, (l_released_at l, l_expires_at l)) <$> leases d
               = (λ l, (l_released_at l, l_expires_at l)) <$> leases d';
  pub_outbox : ox_status <$> outbox (effects (registry d)) = ox_status <$> outbox (effects (registry d'));
  pub_receipts : (λ _, tt) <$> effect_receipts (effects (registry d))
                 = (λ _, tt) <$> effect_receipts (effects (registry d'));
  pub_items : ii_state <$> integration_items (registry d) = ii_state <$> integration_items (registry d');
  pub_evals : (λ e, (el_status e, el_dataset_split e)) <$> eval_runs (knowledge (effects (registry d)))
              = (λ e, (el_status e, el_dataset_split e)) <$> eval_runs (knowledge (effects (registry d')));
  pub_proposals : ip_state <$> proposals (registry d) = ip_state <$> proposals (registry d');
  pub_custody : (λ _, tt) <$> custody (knowledge (effects (registry d)))
                = (λ _, tt) <$> custody (knowledge (effects (registry d')));
  pub_approvals : av_decision <$> approvals (registry d) = av_decision <$> approvals (registry d');
  pub_grants : (λ g, (gr_revoked_at g, gr_used_count g, gr_max_uses g, gr_expires_at g)) <$> grants (registry d)
               = (λ g, (gr_revoked_at g, gr_used_count g, gr_max_uses g, gr_expires_at g)) <$> grants (registry d');
  pub_claims : (λ e, (ec_evidence_state e, ec_evaluator_verdict e)) <$> evidence_claims (registry d)
               = (λ e, (ec_evidence_state e, ec_evaluator_verdict e)) <$> evidence_claims (registry d');
  pub_observations : (λ o, (ob_status o, ob_expires_at o)) <$> observations (registry d)
                     = (λ o, (ob_status o, ob_expires_at o)) <$> observations (registry d');
  pub_negatives : (λ n, (n_recurrence n, n_severity n)) <$> negatives d
                  = (λ n, (n_recurrence n, n_severity n)) <$> negatives d';
  pub_principals : p_enabled <$> principals d = p_enabled <$> principals d';
  pub_sessions : (λ s, (s_revoked_at s, s_expires_at s)) <$> sessions d
                 = (λ s, (s_revoked_at s, s_expires_at s)) <$> sessions d' }.

Lemma fmap_eq_Forall2 {A B} (f : A → B) l l' : f <$> l = f <$> l' → Forall2 (λ x y, f x = f y) l l'.
Proof.
  revert l'. induction l as [|x l IH]; intros [|y l'] H; try done. injection H as Hx Hl. constructor; [done|by apply IH].
Qed.

Section columns.
Context `{Countable K} {A B : Type} (f : A → B) (m m' : gmap K A) (Hm : f <$> m = f <$> m').

Lemma rows_public : Forall2 (λ x y, f x = f y) (rows m) (rows m').
Proof using Hm.
  apply fmap_eq_Forall2. unfold rows.
  assert (∀ n : gmap K A, f <$> (snd <$> map_to_list n) = snd <$> map_to_list (f <$> n)) as Hf.
  { intros n. rewrite map_to_list_fmap, <- !list_fmap_compose. by apply list_fmap_ext. }
  by rewrite !Hf, Hm.
Qed.

Lemma count_public p : (∀ x y, f x = f y → p x = p y) → _count p m = _count p m'.
Proof using Hm.
  intros Hp. unfold _count, select. f_equal. induction rows_public as [|x y l l' Hxy _ IH]; [done|].
  cbn [List.filter]. rewrite (Hp x y Hxy). destruct (p y); cbn [length]; by rewrite IH.
Qed.

Lemma sum_public c : (∀ x y, f x = f y → c x = c y) → _sum c m = _sum c m'.
Proof using Hm.
  intros Hc. unfold _sum. induction rows_public as [|x y l l' Hxy _ IH]; [done|].
  unfold sum in *. cbn [foldr]. by rewrite (Hc x y Hxy), IH.
Qed.

Lemma group_public c : (∀ x y, f x = f y → c x = c y) → _group c m = _group c m'.
Proof using Hm.
  intros Hc. unfold _group.
  assert (c <$> rows m = c <$> rows m') as ->.
  { induction rows_public as [|x y l l' Hxy _ IH]; [done|]. by rewrite !fmap_cons, (Hc x y Hxy), IH. }
  apply list_fmap_ext. intros _ text _. f_equal. apply count_public. intros x y Hxy. by rewrite (Hc x y Hxy).
Qed.
End columns.

(** [public Hd]: every query of the goal reads public columns only. *)
Ltac same_columns :=
  let x := fresh "x" in let y := fresh "y" in let E := fresh "E" in
  intros x y E; cbn in E; cbn beta; unfold any, live, after;
  repeat match type of E with
  | (_, _) = (_, _) => let E' := fresh "E" in apply pair_eq in E as [E E']; try rewrite E'
  end; try rewrite E; reflexivity.
Ltac public_table H :=
  repeat (rewrite (count_public _ _ _ H); [|same_columns]);
  repeat (rewrite (group_public _ _ _ H); [|same_columns]);
  repeat (rewrite (sum_public _ _ _ H); [|same_columns]).

Section theorems.
Context `{ENV : Env}.

Lemma work_public d d' : same_public d d' → work_section d = work_section d'.
Proof.
  intros Hd. unfold work_section. public_table (pub_runs _ _ Hd). public_table (pub_tasks _ _ Hd).
  public_table (pub_attempts _ _ Hd). public_table (pub_steps _ _ Hd). reflexivity.
Qed.
Lemma lease_public d d' now : same_public d d' → lease_section d now = lease_section d' now.
Proof. intros Hd. unfold lease_section. public_table (pub_leases _ _ Hd). reflexivity. Qed.
Lemma outbox_public d d' : same_public d d' → outbox_section d = outbox_section d'.
Proof.
  intros Hd. unfold outbox_section. cbv zeta. public_table (pub_outbox _ _ Hd). public_table (pub_receipts _ _ Hd).
  reflexivity.
Qed.
Lemma evaluation_public d d' : same_public d d' → evaluation_section d = evaluation_section d'.
Proof.
  intros Hd. unfold evaluation_section. cbv zeta. public_table (pub_evals _ _ Hd).
  public_table (pub_proposals _ _ Hd). public_table (pub_custody _ _ Hd). reflexivity.
Qed.
Lemma approval_public d d' now : same_public d d' → approval_section d now = approval_section d' now.
Proof.
  intros Hd. unfold approval_section. public_table (pub_approvals _ _ Hd). public_table (pub_grants _ _ Hd). reflexivity.
Qed.
Lemma registry_public d d' now :
  same_public d d' →
  integration_section d = integration_section d' ∧ evidence_section d = evidence_section d' ∧
  observation_section d now = observation_section d' now.
Proof.
  intros Hd. unfold integration_section, evidence_section, observation_section. cbv zeta.
  public_table (pub_items _ _ Hd). public_table (pub_claims _ _ Hd). public_table (pub_observations _ _ Hd). done.
Qed.
Lemma people_public d d' now :
  same_public d d' → negative_section d = negative_section d' ∧ identity_section d now = identity_section d' now.
Proof.
  intros Hd. unfold negative_section, identity_section. public_table (pub_negatives _ _ Hd).
  public_table (pub_principals _ _ Hd). public_table (pub_sessions _ _ Hd). done.
Qed.
Lemma log_public d d' n : same_public d d' → event_log d n = event_log d' n.
Proof.
  intros Hd. unfold event_log. cbv zeta. rewrite (pub_length _ _ Hd). pose proof (pub_head _ _ Hd) as Hh.
  destruct (last (events d)) as [e|], (last (events d')) as [e'|]; try done.
  injection Hh as Hh Ht. cbn. by rewrite Hh, Ht.
Qed.
Lemma snapshot_public path migration n now d d' :
  same_public d d' → snapshot_of path migration n now d = snapshot_of path migration n now d'.
Proof.
  intros Hd. unfold snapshot_of.
  destruct (registry_public d d' now Hd) as (-> & -> & ->), (people_public d d' now Hd) as [-> ->].
  by rewrite (log_public _ _ _ Hd), (work_public _ _ Hd), (lease_public _ _ _ Hd), (outbox_public _ _ Hd),
    (evaluation_public _ _ Hd), (approval_public _ _ _ Hd).
Qed.

Lemma operator_ok file w s w' :
  operator_snapshot file w = (Ok s, w') →
  ∃ migration, df_migration file = Some migration ∧
    s = snapshot_of (df_path file) migration (Z.of_nat (length (events (w_db w)))) (clock (w_ticks w)) (w_db w) ∧
    w_db w' = w_db w.
Proof.
  unfold operator_snapshot, _replay_in_transaction, _verify_projections_in_transaction. intros H. rinv.
  repeat match goal with H : verify_event_chain _ = (Ok _, _) |- _ => apply verify_event_chain_ok in H as (_ & ? & ?) end.
  subst. by eexists.
Qed.

(** A number of the snapshot under a path of keys, and the sum of a group. *)
Fixpoint number (j : json) (path : list string) : option Z :=
  match path, j with
  | [], JInt z => Some z
  | k :: path, JObj d => v ← dget d k; number v path
  | _, _ => None
  end.
Fixpoint group_total (j : json) (path : list string) : option Z :=
  match path, j with
  | [], JObj d => Some (sum (λ kv, default 0 (number kv.2 [])) d)
  | k :: path, JObj d => v ← dget d k; group_total v path
  | _, _ => None
  end.

(** The groups of the snapshot, each with the total that it splits. *)
Definition groups : list (list string * list string) :=
  [(["work"; "runs"; "by_state"], ["work"; "runs"; "total"]); (["work"; "tasks"; "by_state"], ["work"; "tasks"; "total"]);
   (["work"; "attempts"; "by_state"], ["work"; "attempts"; "total"]);
   (["work"; "workflow_steps"; "by_status"], ["work"; "workflow_steps"; "total"]);
   (["outbox"; "by_status"], ["outbox"; "total"]); (["integration"; "by_state"], ["integration"; "total"]);
   (["evaluation"; "eval_by_status"], ["evaluation"; "eval_runs"]);
   (["evaluation"; "eval_by_split"], ["evaluation"; "eval_runs"]);
   (["evaluation"; "improvements_by_state"], ["evaluation"; "improvements"]);
   (["approvals_and_grants"; "approvals_by_decision"], ["approvals_and_grants"; "approvals"]);
   (["evidence"; "by_state"], ["evidence"; "total"]); (["evidence"; "by_verdict"], ["evidence"; "total"]);
   (["runtime_observations"; "by_status"], ["runtime_observations"; "total"]);
   (["negative_results"; "by_severity"], ["negative_results"; "unique"])].

Lemma count_split {K A} `{Countable K} (p q : A → bool) (m : gmap K A) :
  _count p m = _count (λ x, p x && q x) m + _count (λ x, p x && negb (q x)) m.
Proof.
  unfold _count, select. induction (rows m) as [|x l IH]; [done|]. cbn [List.filter].
  destruct (p x), (q x); cbn [andb negb length]; lia.
Qed.
Lemma count_ext {K A} `{Countable K} (p q : A → bool) (m : gmap K A) : (∀ x, p x = q x) → _count p m = _count q m.
Proof.
  intros Hpq. unfold _count, select. do 2 f_equal. apply filter_ext. exact Hpq.
Qed.

Lemma insert_by_perm {A} (key : A → string) x l : insert_by key x l ≡ₚ x :: l.
Proof.
  induction l as [|y l IH]; [done|]. cbn. destruct (str_leb _ _); [done|]. rewrite IH. apply perm_swap.
Qed.
Lemma sort_by_perm {A} (key : A → string) l : sort_by key l ≡ₚ l.
Proof. induction l as [|x l IH]; [done|]. cbn. by rewrite insert_by_perm; apply perm_skip. Qed.

Lemma sum_single (k : string) ts : NoDup ts → sum (λ t, if bool_decide (k = t) then 1 else 0) ts = if memb k ts then 1 else 0.
Proof.
  unfold memb. induction 1 as [|t ts Ht Hnd IH]; [done|]. unfold sum in *. cbn [foldr]. rewrite IH.
  destruct (decide (k = t)) as [->|Hk].
  - rewrite (bool_decide_eq_true_2 (t = t)), (bool_decide_eq_false_2 (t ∈ ts)), bool_decide_eq_true_2 by (done || by left).
    lia.
  - rewrite (bool_decide_eq_false_2 (k = t)) by done.
    rewrite (bool_decide_ext (k ∈ t :: ts) (k ∈ ts)); [lia|]. rewrite elem_of_cons. naive_solver.
Qed.
Lemma group_sums {A} (c : A → string) (l : list A) ts :
  NoDup ts → (∀ x, x ∈ l → c x ∈ ts) →
  sum (λ t, Z.of_nat (length (List.filter (λ x, bool_decide (c x = t)) l))) ts = Z.of_nat (length l).
Proof.
  intros Hnd. induction l as [|x l IH]; intros Hin; [clear; induction ts as [|t ts IH]; [done|exact IH]|].
  trans (sum (λ t, if bool_decide (c x = t) then 1 else 0) ts
         + sum (λ t, Z.of_nat (length (List.filter (λ x, bool_decide (c x = t)) l))) ts).
  - clear. unfold sum. induction ts as [|t ts IH]; [done|]. cbn [foldr]. rewrite IH. cbn [List.filter].
    destruct (bool_decide (c x = t)); cbn [length]; lia.
  - rewrite sum_single, IH by (try done; intros; apply Hin; by right).
    unfold memb. rewrite bool_decide_true by (apply Hin; by left). cbn [length]. lia.
Qed.
Lemma count_any {K A} `{Countable K} (m : gmap K A) : _count any m = Z.of_nat (length (rows m)).
Proof. unfold _count, select. f_equal. by induction (rows m) as [|x l IH]; [|cbn; f_equal]. Qed.
Lemma group_counts {K A} `{Countable K} (c : A → string) (m : gmap K A) :
  sum (λ kv, default 0 (number kv.2 [])) ((λ kv, (kv.1, JInt kv.2)) <$> _group c m) = _count any m.
Proof.
  rewrite count_any. unfold _group.
  rewrite <- (group_sums c (rows m) (sort_by id (fromkeys (c <$> rows m)))).
  - unfold sum. induction (sort_by id _) as [|t ts IH]; [done|]. cbn. f_equal. exact IH.
  - rewrite sort_by_perm. apply fromkeys_NoDup.
  - intros x Hx. rewrite sort_by_perm. apply fromkeys_elem. by apply list_elem_of_fmap_2.
Qed.

(** Leases and observations are split by their times. *)
Lemma leases_split d now :
  _count any (leases d) = _count (λ l, live now (l_released_at l) (l_expires_at l)) (leases d)
    + _count (λ l, bool_decide (l_released_at l = None) && (julianday (l_expires_at l) <=? julianday now)) (leases d)
    + _count (λ l, negb (bool_decide (l_released_at l = None))) (leases d).
Proof.
  rewrite (count_split any (λ l, bool_decide (l_released_at l = None))). f_equal.
  rewrite (count_split _ (λ l, after now (l_expires_at l))). f_equal. apply count_ext. intros l.
  unfold any, after. by rewrite Z.leb_antisym.
Qed.
Lemma observations_split d now :
  _count any (observations (registry d)) = _count (λ o, after now (ob_expires_at o)) (observations (registry d))
    + _count (λ o, julianday (ob_expires_at o) <=? julianday now) (observations (registry d)).
Proof.
  rewrite (count_split any (λ o, after now (ob_expires_at o))). f_equal. apply count_ext. intros o.
  unfold any, after. by rewrite Z.leb_antisym.
Qed.

Lemma snapshot_pure file : pure_db (operator_snapshot file).
Proof.
  intros w. destruct (operator_snapshot file w) as [r w'] eqn:H. cbn. revert H. apply reads_only. intros I.
  unfold operator_snapshot, verify_event_chain, _replay_in_transaction, verify_event_chain,
    _verify_projections_in_transaction.
  keeps_walk.
Qed.

(** C35: the operator snapshot only looks, and tells nothing of what the rows contain:
    whatever comes of it, no table changes; and two databases that agree on the
    public columns (states, decisions, verdicts, counters and times of the rows, and
    the number and the head of the events), whatever else they contain, give the same
    snapshot at the same time. *)
Theorem snapshot_is_redacted file :
  (∀ w r w', operator_snapshot file w = (r, w') → w_db w' = w_db w) ∧
  ∀ w1 w2 s1 s2 w1' w2',
    same_public (w_db w1) (w_db w2) → clock (w_ticks w1) = clock (w_ticks w2) →
    operator_snapshot file w1 = (Ok s1, w1') → operator_snapshot file w2 = (Ok s2, w2') → s1 = s2.
Proof.
  split.
  - intros w r w' H. pose proof (snapshot_pure file w) as Hw. by rewrite H in Hw.
  - intros w1 w2 s1 s2 w1' w2' Hpub Ht (m1 & Hm1 & -> & _)%operator_ok (m2 & Hm2 & -> & _)%operator_ok.
    assert (m1 = m2) as -> by congruence. rewrite (pub_length _ _ Hpub), Ht. by apply snapshot_public.
Qed.

(** The numbers of a snapshot add up: every group sums to its total, every lease
    is active, expired or released, and every observation is fresh or expired. *)
Theorem snapshot_adds_up file w s w' :
  operator_snapshot file w = (Ok s, w') →
  (∀ by_ total, (by_, total) ∈ groups →
     ∃ n, number (JObj s) total = Some n ∧ group_total (JObj s) by_ = Some n) ∧
  (∃ active expired released,
     number (JObj s) ["leases"; "active"] = Some active ∧
     number (JObj s) ["leases"; "expired_unreleased"] = Some expired ∧
     number (JObj s) ["leases"; "released"] = Some released ∧
     number (JObj s) ["leases"; "total"] = Some (active + expired + released)) ∧
  ∃ fresh expired,
    number (JObj s) ["runtime_observations"; "fresh"] = Some fresh ∧
    number (JObj s) ["runtime_observations"; "expired"] = Some expired ∧
    number (JObj s) ["runtime_observations"; "total"] = Some (fresh + expired).
Proof.
  intros (m & _ & -> & _)%operator_ok. split_and!.
  - intros by_ total Hin. unfold groups in Hin.
    repeat (apply elem_of_cons in Hin as [[= -> ->]|Hin]; [eexists; split; [reflexivity|];
      cbn -[_group _count]; f_equal; apply group_counts|]).
    by apply not_elem_of_nil in Hin.
  - eexists _, _, _. split_and!; [reflexivity..|]. cbn -[_count]. f_equal. apply leases_split.
  - eexists _, _. split_and!; [reflexivity..|]. cbn -[_count]. f_equal. apply observations_split.
Qed.
End theorems.

(** ** Two databases with the same snapshot *)
Module Examples.
Import Db.Toy System.Story.

Definition file : DatabaseFile := {|
  df_path := "/var/lib/runtime.db"; df_is_file := true; df_tables := _REQUIRED_TABLES;
  df_migration := Some {| mg_version := 6; mg_checksum := sha "schema"; mg_applied_at := iso past |} |}.

(** Everybody is renamed. *)
Definition renamed (p : Principal) : Principal := {|
  p_id := p_id p; p_key := p_key p; p_display_name := "somebody"; p_salt := p_salt p; p_hash := p_hash p;
  p_iterations := p_iterations p; p_credential_version := p_credential_version p; p_enabled := p_enabled p;
  p_created_at := p_created_at p; p_updated_at := p_updated_at p; p_disabled_at := p_disabled_at p |}.
Definition rename_all (d : DB) : DB := set_principals (fmap renamed) d.

Local Notation world1 := (run_sys_ops story opened).
Local Notation world2 := (set_db rename_all (run_sys_ops story opened)).

Lemma renamed_public d : same_public d (rename_all d).
Proof. constructor; try reflexivity. cbn. rewrite <- map_fmap_compose. reflexivity. Qed.
Lemma renamed_world w :
  same_public (w_db w) (w_db (set_db rename_all w)) ∧ clock (w_ticks w) = clock (w_ticks (set_db rename_all w)).
Proof. split; [apply renamed_public|reflexivity]. Qed.

Lemma snapshot1_ok : is_ok (operator_snapshot file world1).1 = true.
Proof. by_eval. Qed.
Lemma snapshot2_ok : is_ok (operator_snapshot file world2).1 = true.
Proof. by_eval. Qed.

Lemma snapshot_is_redacted_witness :
  ∃ s w1 w2, operator_snapshot file world1 = (Ok s, w1) ∧ operator_snapshot file world2 = (Ok s, w2).
Proof.
  destruct (run_succeeds _ _ snapshot1_ok) as (s1 & w1 & H1).
  destruct (run_succeeds _ _ snapshot2_ok) as (s2 & w2 & H2).
  exists s1, w1, w2. split; [exact H1|].
  destruct (renamed_world world1) as [Hpub Ht].
  rewrite (proj2 (snapshot_is_redacted file) world1 world2 s1 s2 w1 w2 Hpub Ht H1 H2). exact H2.
Defined.

Lemma snapshot_adds_up_witness :
  ∃ s, ∃ n, number (JObj s) ["work"; "tasks"; "total"] = Some n ∧ group_total (JObj s) ["work"; "tasks"; "by_state"] = Some n.
Proof.
  destruct (run_succeeds _ _ snapshot1_ok) as (s1 & w1 & H1). exists s1.
  apply (proj1 (snapshot_adds_up _ _ _ _ H1)). right. left.
Defined.
End Examples.
