(* ===== verification/Bench.v ===== *)
(** * A concrete organisation for the witnesses

    A project adopted from its spine, one goal and one run of it, and one task
    that may spend on a provider, from a database in which only the identities are
    set up: [alice] works, [olga] owns. *)

From S2P Require Import Prelude PyStr Json Enums StateMachine Contracts Scope Db Store Identity.
From S2P Require Import Leases Scheduler Authority Gates Registries Policy Integration Evidence Observations.
From S2P Require Import Adapters Workflow Services Kernel Replay System.
Import Engine.

Local Open Scope string_scope.
Local Open Scope list_scope.
Local Open Scope Z_scope.

Module Bench.
Import Toy Sample.

Definition olga : Principal := {|
  p_id := "p-olga"; p_key := "olga"; p_display_name := "Olga"; p_salt := "salt";
  p_hash := pbkdf2 "correct horse staple" "salt" 600000; p_iterations := 600000;
  p_credential_version := 1; p_enabled := true; p_created_at := past; p_updated_at := past;
  p_disabled_at := None |}.
Definition olga_session : Session := {|
  s_id := "sess2"; s_principal_id := "p-olga"; s_token_hash := sha256 "secret2";
  s_credential_version := 1; s_issued_at := past; s_expires_at := future; s_revoked_at := None |}.
Definition olga_vp : VerifiedPrincipal := {|
  vp_principal_id := "p-olga"; vp_display_name := "Olga"; vp_session_id := "sess2";
  vp_session_secret := "secret2"; vp_issued_at := past; vp_expires_at := future |}.

Definition staff : DB := {|
  principals := {["p-alice" := alice; "p-olga" := olga]};
  principal_roles := <[("p-olga", R_OWNER) := past]> (<[("p-olga", R_EVALUATOR) := past]>
    (list_to_map ((λ r, (("p-alice", r), past)) <$> role_all)));
  sessions := {["sess" := alice_session future; "sess2" := olga_session]};
  events := []; idempotency := ∅; goals := ∅; runs := ∅; tasks := ∅;
  attempts := ∅; leases := ∅; negatives := ∅; registry := empty_registry |}.

Definition protected_binding (o : nat) (h : string) : Binding := {|
  b_handler := h; b_owner := o; b_kind := K_protected; b_binding_id := "b"; b_config_digest := "c" |}.
Definition house : Domain := {|
  d_authorities := <[2%nat := protected_binding 3 "policy_engine"]>
    (<[3%nat := protected_binding 4 "evidence_registry"]> (d_authorities domain));
  d_configs := ∅; d_types := ∅; d_live := {[1%nat; 2%nat; 3%nat; 4%nat]} |}.
Definition genesis : World := world staff house.

Definition k : RuntimeKernel := {| rk_self := 1; rk_command_authority := 0; rk_policy_version := "v1";
  rk_authority_spines := [("proj", (Spine.project, Spine.program, Spine.graph))] |}.
Definition sc : TaskScheduler := {|
  sc_command_authority := 1; sc_policy_version := "v1"; sc_retry_base_seconds := 5; sc_retry_max_seconds := 300 |}.
Definition engine : PolicyEngine := {| pe_self := 3; pe_command_authority := 2 |}.

Definition adopt_ops : list SysOp := [
  SysKernel k KoInitialize;
  SysKernel k (KoCreateGoal ∅ "proj" (cg_goal_spec Spine.goal) alice_vp "k1" (Some Spine.goal));
  SysKernel k (KoCreateRun "proj" "g1" "r1" alice_vp "k2");
  SysKernel k (KoAddTask {["g1" := Spine.goal]} "proj" Spine.task_spec alice_vp "k3" (Some "r1") (Some Spine.task));
  SysKernel k (KoAdvance "r1" E_GOAL_COMPILED alice_vp "k4" [] [] None);
  SysKernel k (KoAdvance "r1" E_RUN_READY alice_vp "k5" [] [] None)].
Definition claim : TaskClaim := {| tc_task_id := "t1"; tc_run_id := "r1"; tc_attempt_id := "uuid-20"; tc_attempt_number := 1;
  tc_worker_id := "p-alice"; tc_resource_key := "task://t1"; tc_fence := 1; tc_expires_at := future |}.
Definition facts : dict :=
  [("task_id", JStr "t1"); ("resource_key", JStr "task://t1"); ("holder", JStr "p-alice"); ("fence", JInt 1)].
Definition work_ops : list SysOp := [
  SysSched sc (SoClaim "proj" alice_vp 600);
  SysKernel k (KoAdvance "r1" E_TASK_STARTED alice_vp "k6" [] facts None);
  SysSched sc (SoStart claim alice_vp)].
Definition spend_request : ApprovalArgs := {|
  aa_project_id := "proj"; aa_goal_id := "g1"; aa_run_id := "r1"; aa_task_id := "t1";
  aa_capability := "provider_cost"; aa_action := "generate"; aa_resource := "provider://images";
  aa_request_digest := Spine.digest; aa_policy_version := "v1"; aa_decision := "approved"; aa_ttl_seconds := 3600 |}.
Definition grant_request : GrantArgs := {|
  ga_approval_id := "ap1"; ga_capability := "provider_cost"; ga_action := "generate"; ga_resource := "provider://images";
  ga_request_digest := Spine.digest; ga_policy_version := "v1"; ga_ttl_seconds := 600; ga_max_uses := 1;
  ga_cost_limit := 100; ga_required_fence := None |}.
Definition use_request : ConsumeArgs := {|
  ca_grant_id := "gr1"; ca_project_id := "proj"; ca_goal_id := "g1"; ca_run_id := "r1"; ca_task_id := "t1";
  ca_capability := "provider_cost"; ca_action := "generate"; ca_resource := "provider://images";
  ca_request_digest := Spine.digest; ca_idempotency_key := "use1"; ca_cost := 60; ca_fence := None; ca_effect_id := None |}.
Definition approve := SysService (SvPolicy engine (PoApprove alice_vp olga_vp spend_request (Some "ap1"))).
Definition issue := SysService (SvPolicy engine (PoIssue olga_vp alice_vp grant_request (Some "gr1"))).
Definition use1 := SysService (SvPolicy engine (PoConsume alice_vp use_request)).
Definition revoke1 := SysService (SvPolicy engine (PoRevoke "gr1" olga_vp)).

Definition granted_ops : list SysOp := adopt_ops ++ work_ops ++ [approve; issue].

(** The task performs its step, is judged, integrated and delivered. *)
Definition workflow : DurableWorkflow := {|
  dw_adapter_id := "fake-provider"; dw_policy := engine; dw_policy_version := "v1" |}.
Definition evidence_registry : EvidenceRegistry := {|
  er_self := 4; er_command_authority := 3; er_policy_version := "v1" |}.
Definition queue : IntegrationQueue := {| iq_policy_version := "v1" |}.
Definition enqueue_request : Outbox.EnqueueArgs := {|
  Outbox.qa_task_id := "t1"; Outbox.qa_step_id := "s1"; Outbox.qa_adapter := "fake-provider";
  Outbox.qa_idempotency_key := "gen1"; Outbox.qa_request := Spine.request; Outbox.qa_grant_id := "gr1";
  Outbox.qa_capability := "provider_cost"; Outbox.qa_action := "generate";
  Outbox.qa_resource := "provider://images"; Outbox.qa_fence := None |}.
Definition enqueue1 := SysService (SvOutbox workflow (Outbox.OoEnqueue alice_vp enqueue_request (Some "ef1"))).
Definition effect_row : OutboxRow := {|
  ox_effect_id := "ef1"; ox_project_id := "proj"; ox_run_id := "r1"; ox_task_id := "t1"; ox_step_id := "s1";
  ox_adapter := "fake-provider"; ox_idempotency_key := "gen1"; ox_request_digest := Spine.digest; ox_request := [];
  ox_status := "ready"; ox_created_at := past; ox_dispatched_at := None; ox_reconciled_at := None;
  ox_last_error := None |}.
Definition effect_receipt : AdapterReceipt := {|
  Adapters.rp_adapter_id := "fake-provider"; Adapters.rp_project_id := "proj"; Adapters.rp_idempotency_key := "gen1"; Adapters.rp_effect_id := "ef1";
  Adapters.rp_request_digest := Spine.digest; Adapters.rp_provider_receipt := Some "fake-uuid-0"; Adapters.rp_status := "succeeded";
  Adapters.rp_closed := true; Adapters.rp_result := [("accepted", JBool true)]; Adapters.rp_replayed := false |}.
Definition effect_ops : list SysOp := [enqueue1;
  SysService (SvOutbox workflow (Outbox.OoConsume "ef1"));
  SysService (SvOutbox workflow (Outbox.OoReady "ef1"));
  SysService (SvOutbox workflow (Outbox.OoCheckpoint effect_row effect_receipt))].
Definition artifact_request : EvidenceOps.ArtifactArgs := {|
  EvidenceOps.xa_task_id := "t1"; EvidenceOps.xa_kind := "test_output"; EvidenceOps.xa_uri := "file://out.log";
  EvidenceOps.xa_content_digest := Spine.digest; EvidenceOps.xa_confidentiality := "internal" |}.
Definition claim_request : EvidenceOps.ClaimArgs := {|
  EvidenceOps.xc_task_id := "t1"; EvidenceOps.xc_claim := "it draws";
  EvidenceOps.xc_evidence_state := "runtime_verification"; EvidenceOps.xc_artifact_refs := ["a1"];
  EvidenceOps.xc_verifier_version := "1"; EvidenceOps.xc_environment := "test";
  EvidenceOps.xc_evaluator_verdict := "pass"; EvidenceOps.xc_non_claims := [] |}.
Definition judge_ops : list SysOp := [
  SysSched sc (SoComplete claim alice_vp);
  SysService (SvEvidence evidence_registry (EvidenceOps.EoArtifact artifact_request alice_vp (Some "a1")));
  SysService (SvEvidence evidence_registry (EvidenceOps.EoClaim claim_request olga_vp (Some "ev1")));
  SysKernel k (KoAdvance "r1" E_EVIDENCE_SUBMITTED alice_vp "k7" [] [] None);
  SysKernel k (KoAccept "t1" olga_vp "k8" "ev1")].
Definition integrate_ops : list SysOp := [
  SysService (SvQueue queue (Items.QoCreate "t1" "branch" "main" alice_vp "review_pending" [] (Some "i1")));
  SysService (SvQueue queue (Items.QoAdvance "i1" "delivered" alice_vp ["ev1"] "merged"))].
Definition delivery_ops : list SysOp := granted_ops ++ effect_ops ++ judge_ops ++ integrate_ops.

Lemma genesis_fresh : fresh (w_db genesis).
Proof. by constructor. Qed.
End Bench.
