(* ===== verification/Commands.v ===== *)
(** * What kernel commands guarantee ([kernel.py])

    Theorems about the commands of [Kernel.v] in the middle of any other
    commands ([System.v]): the record of the past only grows; a command and its
    retries, from whatever process and after whatever other commands, happen
    once; closing a task kills the claims of its workers; deliveries are backed
    by the recorded facts; starts without evidence are bounded. *)

From S2P Require Import Prelude PyStr Json Enums StateMachine Contracts Db Store Identity Leases.
From S2P Require Import Scheduler Authority Gates Registries Services Kernel Replay System.

Local Open Scope string_scope.
Local Open Scope list_scope.
Local Open Scope Z_scope.

(** ** What the commands of a kernel write *)
#[export] Hint Extern 1 (keeps _ (get_idempotent_result _ _ _ _)) => apply keeps_prior : keeps.
#[export] Hint Extern 1 (keeps _ (_actor_id _ _)) => apply keeps_pure, actor_id_pure : keeps.
#[export] Hint Extern 1 (keeps _ (_loop_actor_id _ _)) => apply keeps_pure, actor_id_pure : keeps.
#[export] Hint Extern 1 (keeps _ (_persisted_authority_spine _)) => apply keeps_pure, spine_pure : keeps.
#[export] Hint Extern 1 (keeps _ (check_task_authority _ _ _ _ _)) => apply keeps_pure, check_task_pure : keeps.
#[export] Hint Extern 1 (keeps _ (_worker_id _)) => apply keeps_pure, pure_worker : keeps.
#[export] Hint Extern 1 (keeps _ (_system_id _)) => apply keeps_pure, pure_system : keeps.
#[export] Hint Extern 1 (keeps _ (owns _ _)) => apply keeps_pure, pure_owns : keeps.
#[export] Hint Extern 1 (keeps _ (circuit_breaker _ _)) => apply keeps_circuit_breaker : keeps.

Section writes.
Context `{ENV : Env}.

(** The columns of a run and of a task that are set for good. *)
Definition run_origin (r : RunRow) : string * string * string * string * Instant :=
  (ru_id r, ru_goal_id r, ru_project_id r, ru_policy_version r, ru_created_at r).
Definition task_origin (t : TaskRow) : string * string * option string * string * TaskSpec * Instant :=
  (t_id t, t_goal_id t, t_run_id t, t_project_id t, t_spec t, t_created_at t).

(** A write that leaves the log, the records, the core tables and the registries alone. *)
Definition elsewhere (f : DB → DB) : Prop := ∀ d,
  events (f d) = events d ∧ idempotency (f d) = idempotency d ∧ goals (f d) = goals d ∧
  runs (f d) = runs d ∧ tasks (f d) = tasks d ∧ registry (f d) = registry d.

(** The kinds of event that a kernel logs, and those of schedulers, lease and
    identity managers. *)
Definition kernel_types : list string :=
  ["goal"; "run"; "task"; "project_authority"; "program_authority"; "goal_authority"; "task_authority"].
Definition sched_types : list string := ["task"; "lease"].

(** An invariant that every write of a kernel keeps. *)
Record kept_by_kernel (I : DB → Prop) : Prop := {
  kk_event f : (∀ id, ea_aggregate_type (f id) ∈ kernel_types) → keeps I (append f);
  kk_save p s k g r i : keeps I (save_idempotent_result p s k g r i);
  kk_goal g : keeps I (insert_goal g);
  kk_run r : keeps I (insert_run r);
  kk_task t : keeps I (insert_task t);
  kk_project a : keeps I (insert_adopted_project a);
  kk_program a : keeps I (insert_adopted_program a);
  kk_goal_binding b : keeps I (insert_goal_binding b);
  kk_task_binding b : keeps I (insert_task_binding b);
  kk_move_run s v n id : keeps I (write (set_runs (alter (run_moved s v n) id)));
  kk_move_task s v n id : keeps I (write (set_tasks (alter (task_with s v n) id)));
  kk_release f n : keeps I (write (set_leases (update_where f (lease_released n))));
  kk_end f g : keeps I (write (set_attempts (update_where f g))) }.


(** The same but for the bindings of tasks, which only [add_task] writes. *)
Record kept_but_bindings (I : DB → Prop) : Prop := {
  kb_append f : (∀ id, ea_aggregate_type (f id) ∈ kernel_types) → keeps I (append f);
  kb_save p s k g r i : keeps I (save_idempotent_result p s k g r i);
  kb_goal g : keeps I (insert_goal g);
  kb_run r : keeps I (insert_run r);
  kb_project a : keeps I (insert_adopted_project a);
  kb_program a : keeps I (insert_adopted_program a);
  kb_goal_binding b : keeps I (insert_goal_binding b);
  kb_move_run s v n id : keeps I (write (set_runs (alter (run_moved s v n) id)));
  kb_move_task s v n id : keeps I (write (set_tasks (alter (task_with s v n) id)));
  kb_release f n : keeps I (write (set_leases (update_where f (lease_released n))));
  kb_end f g : keeps I (write (set_attempts (update_where f g))) }.

Lemma adopt_keeps I self entry : kept_but_bindings I → keeps I (adopt self entry).
Proof.
  intros HI. destruct entry as [project [[spec program] graph]]. unfold adopt. cbv zeta.
  apply keeps_bind; [apply keeps_read|intros existing]. apply keeps_bind.
  - apply keeps_forM_In. intros [[[ty id] et] payload] Hin. unfold adopt_event.
    apply keeps_bind; [apply keeps_read|intros [e|]]; [apply keeps_ensure|].
    apply keeps_bind; [|intros; apply keeps_ret]. apply (kb_append I HI). intros cid. simpl.
    apply elem_of_cons in Hin as [Hin|Hin]; [injection Hin as -> _ _ _; listed|].
    apply list_elem_of_fmap in Hin as (p & Hin & _). injection Hin as -> _ _ _. listed.
  - intros _. pose proof (kb_project I HI). pose proof (kb_program I HI). destruct existing; keeps_walk.
Qed.

Lemma kernel_op_keeps_but I :
  kept_but_bindings I → (∀ self b p s a key r au, keeps I (run_kernel_op self (KoAddTask b p s a key r au))) →
  ∀ self op, keeps I (run_kernel_op self op).
Proof.
  intros HI Hadd self op. pose proof (λ e, adopt_keeps I self e HI). destruct HI.
  destruct op; [| | |apply Hadd|..]; unfold run_kernel_op, ignore; [by apply keeps_transaction, keeps_forM|..];
    unfold create_goal, bind_goal, create_run, open_run, advance_loop,
      accept_task_evidence, accept_evidence, confirm_task_delivery, deliver, control_task, control, task_command,
      control_target, resume_target, close_work, _transition_task_projection; keeps_walk;
    apply kb_append0; intros id; listed.
Qed.
Lemma kernel_op_keeps I : kept_by_kernel I → ∀ self op, keeps I (run_kernel_op self op).
Proof.
  intros []. apply kernel_op_keeps_but; [by constructor|]. intros.
  unfold run_kernel_op, ignore, add_task, bind_task, open_run. keeps_walk; apply kk_event0; intros id; listed.
Qed.
(** An invariant that every write of a scheduler, lease or identity manager keeps:
    besides tables of their own these only log events and move tasks. *)
Record kept_by_sched (I : DB → Prop) : Prop := {
  ks_event a : ea_aggregate_type a ∈ sched_types → keeps I (append_event a);
  ks_write f : elsewhere f → keeps I (write f);
  ks_insert c f : elsewhere f → keeps I (_ ← constraint c; write f);
  ks_task f id : (∀ t, task_origin (f t) = task_origin t) → keeps I (write (set_tasks (alter f id))) }.

Lemma sched_op_keeps I : kept_by_sched I → ∀ self op, keeps I (run_sched_op self op).
Proof.
  intros [He Hw Hi Ht] self op.
  assert (∀ op, keeps I (run_op op)) as Hid
    by (intros o; apply run_op_keeps; constructor; intros; first [by apply Hw | by apply Hi]).
  assert (∀ pv op, keeps I (run_lease_op pv op)) as Hl.
  { intros pv o. destruct o; [| | | |apply Hid]; unfold run_lease_op, ignore, acquire, renew, release,
      require_current_fence, take, put_lease, _append_audit, _holder_id, verify_in_transaction,
      _require_match, _is_active, _assert_task_scope, _expires, _now;
      keeps_walk; first [by apply Hw | by apply Hi | apply He; listed]. }
  destruct op; unfold run_sched_op, ignore, promote_due_retries, claim_next, still_leased, claim_row, put_lease,
    start, complete, fail, reap_expired, reap_row, task_row, _require_claim, _require_executable_run,
    _retry_due, _expires, _now, _transition, _record_negative, update_task, update_attempts, release_lease,
    insert_attempt; keeps_walk; first [by apply Hw | by apply Hi | by apply Ht | apply He; listed].
Qed.
End writes.

(** ** What is recorded stays recorded *)

Record grows (d0 d : DB) : Prop := {
  gw_events : events d0 `prefix_of` events d;
  gw_records : idempotency d0 ⊆ idempotency d;
  gw_goals : goals d0 ⊆ goals d;
  gw_runs : run_origin <$> runs d0 ⊆ run_origin <$> runs d;
  gw_tasks : task_origin <$> tasks d0 ⊆ task_origin <$> tasks d;
  gw_adopted : adopted_projects (registry d0) ⊆ adopted_projects (registry d) ∧
    adopted_programs (registry d0) ⊆ adopted_programs (registry d) ∧
    goal_bindings (registry d0) ⊆ goal_bindings (registry d) ∧
    task_bindings (registry d0) ⊆ task_bindings (registry d) }.

#[export] Instance grows_preorder : PreOrder grows.
Proof.
  split.
  - intros d. by constructor.
  - intros d1 d2 d3 [] []. constructor; [by etrans..|]. destruct_and!. split_and!; by etrans.
Qed.

Lemma fmap_alter_same {A B} (f : A → B) (g : A → A) (m : gmap string A) k :
  (∀ x, f (g x) = f x) → f <$> alter g k m = f <$> m.
Proof.
  intros Hfg. apply map_eq. intros j. rewrite !lookup_fmap.
  destruct (decide (j = k)) as [->|]; [rewrite lookup_alter_eq|by rewrite lookup_alter_ne].
  destruct (m !! k); simpl; [by rewrite Hfg|done].
Qed.
Lemma fmap_insert_grows {A B} (f : A → B) (m : gmap string A) k x :
  m !! k = None → f <$> m ⊆ f <$> <[k := x]> m.
Proof. intros Hk. by apply map_fmap_mono, insert_subseteq. Qed.

Section grows.
Context `{ENV : Env} (d0 : DB).

Lemma grows_elsewhere f d : elsewhere f → grows d0 d → grows d0 (f d).
Proof.
  intros Hf Hg. etrans; [exact Hg|]. destruct (Hf d) as (He & Hi & Hgo & Hr & Ht & Hre).
  constructor; by rewrite ?He, ?Hi, ?Hgo, ?Hr, ?Ht, ?Hre.
Qed.
Lemma keeps_elsewhere f : elsewhere f → keeps (grows d0) (write f).
Proof. intros Hf. apply keeps_write. intros d. by apply grows_elsewhere. Qed.
Lemma keeps_insert_elsewhere c f : elsewhere f → keeps (grows d0) (_ ← constraint c; write f).
Proof. intros Hf. apply keeps_constraint_write. intros d _. by apply grows_elsewhere. Qed.

Lemma grows_logged es d : grows d0 d → grows d0 (logged es d).
Proof. intros Hg. etrans; [exact Hg|]. constructor; try done. simpl. by apply prefix_app_r. Qed.
Lemma grows_event e : keeps (grows d0) (insert_event e).
Proof. apply keeps_constraint_write. intros d _. apply grows_logged. Qed.
Lemma grows_append a : keeps (grows d0) (append_event a).
Proof. apply keeps_append_event, grows_event. Qed.
Lemma grows_record p s k r : keeps (grows d0) (insert_idempotency p s k r).
Proof.
  apply keeps_constraint_write. intros d Hc Hg. bsplit.
  match goal with H : absent _ _ = true |- _ => apply absent_true in H end.
  etrans; [exact Hg|]. constructor; try done. simpl. by apply insert_subseteq.
Qed.
Lemma grows_goal g : keeps (grows d0) (insert_goal g).
Proof.
  apply keeps_constraint_write. intros d Hc Hg. apply absent_true in Hc.
  etrans; [exact Hg|]. constructor; try done. simpl. by apply insert_subseteq.
Qed.
Lemma grows_run r : keeps (grows d0) (insert_run r).
Proof.
  apply keeps_constraint_write. intros d Hc Hg. bsplit.
  match goal with H : absent _ _ = true |- _ => apply absent_true in H end.
  etrans; [exact Hg|]. constructor; try done. simpl. by apply fmap_insert_grows.
Qed.
Lemma grows_task t : keeps (grows d0) (insert_task t).
Proof.
  apply keeps_constraint_write. intros d Hc Hg. bsplit.
  match goal with H : absent _ _ = true |- _ => apply absent_true in H end.
  etrans; [exact Hg|]. constructor; try done. simpl. by apply fmap_insert_grows.
Qed.
Lemma grows_task_update f id :
  (∀ t, task_origin (f t) = task_origin t) → keeps (grows d0) (write (set_tasks (alter f id))).
Proof.
  intros Hf. apply keeps_write. intros d Hg. etrans; [exact Hg|]. constructor; try done. simpl.
  by rewrite fmap_alter_same.
Qed.
Lemma grows_run_update f id :
  (∀ r, run_origin (f r) = run_origin r) → keeps (grows d0) (write (set_runs (alter f id))).
Proof.
  intros Hf. apply keeps_write. intros d Hg. etrans; [exact Hg|]. constructor; try done. simpl.
  by rewrite fmap_alter_same.
Qed.
Lemma grows_registry c f :
  (∀ d, c d = true → adopted_projects (registry d) ⊆ adopted_projects (registry (f d)) ∧
    adopted_programs (registry d) ⊆ adopted_programs (registry (f d)) ∧
    goal_bindings (registry d) ⊆ goal_bindings (registry (f d)) ∧
    task_bindings (registry d) ⊆ task_bindings (registry (f d)) ∧
    events (f d) = events d ∧ idempotency (f d) = idempotency d ∧ goals (f d) = goals d ∧
    runs (f d) = runs d ∧ tasks (f d) = tasks d) →
  keeps (grows d0) (_ ← constraint c; write f).
Proof.
  intros Hf. apply keeps_constraint_write. intros d Hc Hg. etrans; [exact Hg|].
  destruct (Hf d Hc) as (? & ? & ? & ? & He & Hi & Hgo & Hr & Ht).
  constructor; [by rewrite ?He, ?Hi, ?Hgo, ?Hr, ?Ht..|by split_and!].
Qed.
End grows.

Section commands_grow.
Context `{ENV : Env} (d0 : DB).

Ltac present_bindings := apply grows_registry; intros d Hc; bsplit;
  repeat match goal with H : absent _ _ = true |- _ => apply absent_true in H end;
  split_and!; try done; simpl; by apply insert_subseteq.
Lemma grows_adopted_project a : keeps (grows d0) (insert_adopted_project a).
Proof. present_bindings. Qed.
Lemma grows_adopted_program a : keeps (grows d0) (insert_adopted_program a).
Proof. present_bindings. Qed.
Lemma grows_goal_binding b : keeps (grows d0) (insert_goal_binding b).
Proof. present_bindings. Qed.
Lemma grows_task_binding b : keeps (grows d0) (insert_task_binding b).
Proof. present_bindings. Qed.

Lemma grows_command_event f : keeps (grows d0) (append f).
Proof. unfold append. keeps_walk. apply grows_append. Qed.
Lemma grows_save p s k g r i : keeps (grows d0) (save_idempotent_result p s k g r i).
Proof. unfold save_idempotent_result. keeps_walk. apply grows_record. Qed.
Hint Resolve grows_append : keeps.

Lemma sched_writes_grow : kept_by_sched (grows d0).
Proof.
  constructor; intros; first [ apply grows_append | by apply grows_task_update
    | by apply keeps_elsewhere | by apply keeps_insert_elsewhere ].
Qed.
Lemma kernel_writes_grow : kept_by_kernel (grows d0).
Proof.
  constructor; intros; first
    [ apply grows_command_event | apply grows_save | apply grows_goal | apply grows_run | apply grows_task
    | apply grows_adopted_project | apply grows_adopted_program | apply grows_goal_binding
    | apply grows_task_binding | by apply grows_run_update | by apply grows_task_update
    | by apply keeps_elsewhere ].
Qed.
Lemma service_writes_grow : kept_beside (grows d0).
Proof.
  constructor.
  - intros a _. apply grows_append.
  - intros f Hf. apply keeps_write. intros d Hg. etrans; [exact Hg|].
    destruct (beside_tables f d Hf) as (He & Hi & Hgo & Hr & Ht & _ & _ & _ & Hp & Hq & Hgb & Htb).
    constructor; by rewrite ?He, ?Hi, ?Hgo, ?Hr, ?Ht, ?Hp, ?Hq, ?Hgb, ?Htb.
  - intros c. apply keeps_constraint_write. intros d _ Hg. etrans; [exact Hg|]. by constructor.
Qed.
Lemma sys_op_grows op : keeps (grows d0) (run_sys_op op).
Proof.
  destruct op; [apply kernel_op_keeps, kernel_writes_grow|apply sched_op_keeps, sched_writes_grow
    |apply service_op_keeps, service_writes_grow].
Qed.
End commands_grow.

Section growth.
Context `{ENV : Env}.

Lemma run_sys_ops_grow ops w : grows (w_db w) (w_db (run_sys_ops ops w)).
Proof.
  apply (run_sys_ops_keeps (λ _, True) (grows (w_db w)) ops w); [intros op _; apply sys_op_grows| |done].
  by apply Forall_true.
Qed.
End growth.

(** ** Commands happen once

    A logic for two runs: [once ans m m'] says that when [m] has succeeded, [m']
    in any database that has grown since can only give the same answer, and
    changes nothing. *)
Section once.
Context `{ENV : Env}.

Definition once {A} (ans : A → json) (m m' : P A) : Prop := ∀ w a w1 w2 a' w3,
  m w = (Ok a, w1) → grows (w_db w) (w_db w2) → grows (w_db w1) (w_db w2) → m' w2 = (Ok a', w3) →
  ans a' = ans a ∧ w_db w3 = w_db w2.

Lemma once_transaction {A} (ans : A → json) m m' :
  once ans m m' → once ans (transaction m) (transaction m').
Proof.
  intros Hm w a w1 w2 a' w3 H1 Hg Hg1 H2. apply (proj1 (transaction_ok _ _ _ _)) in H1.
  apply (proj1 (transaction_ok _ _ _ _)) in H2. by eapply (Hm w _ w1).
Qed.

(** The two runs agree on what does not depend on the database. *)
Lemma once_lift {A B} (ans : B → json) (r : res A) k k' :
  (∀ a, r = Ok a → once ans (k a) (k' a)) → once ans (lift_res r ≫= k) (lift_res r ≫= k').
Proof.
  intros Hk w a w1 w2 a' w3 H1 Hg Hg1 H2. apply bind_ok in H1 as (x & ? & [Hx ->]%lift_res_ok & H1).
  apply bind_ok in H2 as (y & ? & [Hy ->]%lift_res_ok & H2). assert (y = x) as -> by congruence.
  by eapply (Hk _ Hx w _ w1).
Qed.

(** They need not agree on what the answer does not depend on. *)
Lemma once_pure {A B A'} (ans : B → json) (m : P A) (m' : P A') k k' :
  pure_db m → pure_db m' → (∀ x y, once ans (k x) (k' y)) → once ans (m ≫= k) (m' ≫= k').
Proof.
  intros Hm Hm' Hk w a w1 w2 a' w3 H1 Hg Hg1 H2. apply bind_ok in H1 as (x & wx & Hx & H1).
  apply bind_ok in H2 as (y & wy & Hy & H2). specialize (Hm w). rewrite Hx in Hm.
  specialize (Hm' w2). rewrite Hy in Hm'. simpl in *. rewrite <- Hm' in *. rewrite <- Hm in Hg.
  by eapply (Hk x y wx _ w1).
Qed.
Lemma once_guard {B} (ans : B → json) b e k k' :
  once ans k k' → once ans (_ ← ensure b e; k) (_ ← ensure b e; k').
Proof. intros Hk. by apply once_pure; [apply pure_ensure..|]. Qed.

(** A row keeps what was set for good. *)
Lemma once_row {A B C} (ans : B → json) (table : DB → gmap string A) (origin : A → C) key e e' k k' :
  (∀ d d', grows d d' → origin <$> table d ⊆ origin <$> table d') →
  (∀ x y, origin x = origin y → once ans (k x) (k' y)) →
  once ans (o ← read (λ d, table d !! key); x ← expect o e; k x)
           (o ← read (λ d, table d !! key); x ← expect o e'; k' x).
Proof.
  intros Ho Hk w a w1 w2 a' w3 H1 Hg Hg1 H2.
  apply bind_ok in H1 as (o & ? & [-> ->]%read_ok & H1). apply bind_ok in H1 as (x & ? & [Hx ->]%expect_ok & H1).
  apply bind_ok in H2 as (o' & ? & [-> ->]%read_ok & H2). apply bind_ok in H2 as (y & ? & [Hy ->]%expect_ok & H2).
  eapply (Hk x y); [|exact H1|exact Hg|exact Hg1|exact H2].
  assert ((origin <$> table (w_db w)) !! key = Some (origin x)) as Hox by (by rewrite lookup_fmap, Hx).
  pose proof (lookup_weaken _ _ _ _ Hox (Ho _ _ Hg)) as Hoy. rewrite lookup_fmap, Hy in Hoy. by injection Hoy.
Qed.

(** A saved answer. *)
Definition has_record (p s k g : string) (r : json) (d : DB) : Prop :=
  ∃ rec, idempotency d !! (p, s, k) = Some rec ∧ ir_payload_digest rec = g ∧ ir_result rec = r.

Lemma has_record_grows p s k g r d d' : grows d d' → has_record p s k g r d → has_record p s k g r d'.
Proof.
  intros Hg (rec & Hr & ? & ?). exists rec. split; [|done]. by eapply lookup_weaken; [|apply gw_records].
Qed.
Lemma keeps_has_record {A} p s k g r (m : P A) :
  (∀ d0, keeps (grows d0) m) → keeps (has_record p s k g r) m.
Proof. intros Hm w a w' Hrun. apply has_record_grows. by eapply Hm. Qed.
Lemma post_save {B} I p s k g r i (m : P B) (ans : B → json) :
  (∀ d0, keeps (grows d0) m) → (∀ w b w', m w = (Ok b, w') → ans b = JObj r) →
  post I (_ ← save_idempotent_result p s k g r i; m) (λ b, has_record p s k g (ans b)).
Proof.
  intros Hm Hans w b w' Hrun _. unfold save_idempotent_result, insert_idempotency in Hrun. rinv.
  match goal with H : m _ = _ |- _ => rename H into Hb end.
  rewrite (Hans _ _ _ Hb). eapply keeps_has_record; [exact Hm|exact Hb|].
  eexists. simpl. by rewrite lookup_insert_eq.
Qed.

Lemma once_prior {A} (ans : A → json) p s k g (answer answer' : json → A) m m' :
  (∀ r, ans (answer r) = r) → (∀ r, ans (answer' r) = r) →
  post (λ _, True) m (λ a, has_record p s k g (ans a)) →
  once ans
    (prior ← get_idempotent_result p s k g; match prior with Some r => mret (answer r) | None => m end)
    (prior ← get_idempotent_result p s k g; match prior with Some r => mret (answer' r) | None => m' end).
Proof.
  intros Ha Ha' Hm w a w1 w2 a' w3 H1 Hg Hg1 H2.
  assert (has_record p s k g (ans a) (w_db w1)) as Hrec.
  { apply bind_ok in H1 as (o & wx & Hprior & H1). destruct o as [r|].
    - injection H1 as <- <-. rewrite Ha. unfold get_idempotent_result in Hprior. rinv.
      destruct (idempotency (w_db w) !! _) as [rec|] eqn:Hrec; rinv; bsplit; simplify_eq. by exists rec.
    - by eapply Hm. }
  apply (has_record_grows _ _ _ _ _ _ _ Hg1) in Hrec as (rec & Hrec & Hd & Hr).
  unfold get_idempotent_result in H2. apply bind_ok in H2 as (o & wx & H2p & H2). rinv.
  rewrite Hrec in *. rinv. simplify_eq. by rewrite Ha'.
Qed.
End once.

Section retries.
Context `{ENV : Env} (k k' : RuntimeKernel).

Lemma anything {A} (m : P A) : keeps (λ _, True) m.
Proof. by intros ? ? ?. Qed.
Lemma post_skip {A B} (m : P A) (f : A → P B) Q :
  (∀ a, post (λ _, True) (f a) Q) → post (λ _, True) (m ≫= f) Q.
Proof. apply post_seq, anything. Qed.

Lemma bind_goal_grows self project goal actor authority d0 :
  keeps (grows d0) (bind_goal self project goal actor authority).
Proof. unfold bind_goal. keeps_walk; [apply grows_command_event|apply grows_goal_binding]. Qed.
Lemma bind_task_grows self project actor correlation spec authority d0 :
  keeps (grows d0) (bind_task self project actor correlation spec authority).
Proof. unfold bind_task. keeps_walk; [apply grows_command_event|apply grows_task_binding]. Qed.

Lemma create_goal_once b b' p s a a' key au au' :
  once fst (create_goal k b p s a key au) (create_goal k' b' p s a' key au').
Proof.
  unfold create_goal. do 2 (apply once_lift; intros ? _).
  apply once_pure; [apply actor_id_pure..|intros actor actor']. apply once_lift; intros g _.
  apply once_pure; [apply spine_pure..|intros o o']. apply once_pure; [by intros w|by intros w|intros c c']. cbv zeta.
  apply once_transaction, (once_prior fst _ _ _ _ (λ r, (r, remember b (gs_goal_id g) c))
    (λ r, (r, remember b' (gs_goal_id g) c'))); [done..|]. do 4 (apply post_skip; intros ?). cbv zeta.
  apply post_save; [|intros w r w' Hrun; by rinv].
  intros d0. keeps_walk. apply bind_goal_grows.
Qed.

Lemma create_run_once p g r a a' key :
  rk_policy_version k = rk_policy_version k' →
  once id (create_run k p g r a key) (create_run k' p g r a' key).
Proof.
  intros Hpv. unfold create_run. rewrite Hpv. do 4 (apply once_lift; intros ? _).
  apply once_pure; [apply actor_id_pure..|intros actor actor']. cbv zeta.
  apply once_transaction, (once_prior id _ _ _ _ id id); [done..|]. do 5 (apply post_skip; intros ?). cbv zeta.
  apply post_save; [|intros w x w' Hrun; by rinv]. intros d0. keeps_walk.
Qed.

Lemma add_task_once b b' p s a a' key r au au' :
  once id (add_task k b p s a key r au) (add_task k' b' p s a' key r au').
Proof.
  unfold add_task. do 2 (apply once_lift; intros ? _).
  assert (∀ f f' : option string → P json, (∀ x, once id (f x) (f' x)) →
    once id (match r with Some r => r ← lift_res (_command_text r); mret (Some r) | None => mret None end ≫= f)
            (match r with Some r => r ← lift_res (_command_text r); mret (Some r) | None => mret None end ≫= f'))
    as Hopt.
  { intros f f' Hf. destruct r as [r|]; [|apply Hf].
    intros w x w1 w2 x' w3 H1 Hg Hg1 H2. apply bind_ok in H1 as (o & ? & Ho & H1).
    apply bind_ok in H2 as (o' & ? & Ho' & H2). rinv.
    match goal with H : _ = Ok ?y, H' : _ = Ok ?z |- _ => assert (z = y) as -> by congruence end.
    by eapply (Hf _ w _ w1). }
  apply Hopt. intros run.
  apply once_pure; [apply actor_id_pure..|intros actor actor']. apply once_lift; intros t _.
  apply once_pure; [apply spine_pure..|intros o o'].
  apply once_pure; [apply check_task_pure..|intros c c']. cbv zeta.
  apply once_transaction, (once_prior id _ _ _ _ id id); [done..|]. do 8 (apply post_skip; intros ?). cbv zeta.
  apply post_save; [|intros w x w' Hrun; by rinv]. intros d0. keeps_walk. apply bind_task_grows.
Qed.

Lemma grown_tasks d d' : grows d d' → task_origin <$> tasks d ⊆ task_origin <$> tasks d'.
Proof. apply gw_tasks. Qed.
Lemma grown_runs d d' : grows d d' → run_origin <$> runs d ⊆ run_origin <$> runs d'.
Proof. apply gw_runs. Qed.

Lemma circuit_breaker_pure r e : pure_db (circuit_breaker r e).
Proof.
  unfold circuit_breaker. destruct (bool_decide _); [|by intros w].
  repeat (apply pure_bind; [by intros w|intros ?]). apply pure_ensure.
Qed.
Lemma advance_once r e a a' key gs gs' pl c c' :
  once id (advance_loop k r e a key gs pl c) (advance_loop k' r e a' key gs' pl c').
Proof.
  unfold advance_loop. do 2 (apply once_lift; intros ? _). apply once_pure; [apply option_text_pure..|intros cs cs'].
  apply once_pure; [apply actor_id_pure..|intros actor actor']. cbv zeta.
  apply once_transaction, (once_row id runs run_origin); [apply grown_runs|]. intros x y Hxy.
  assert (ru_project_id y = ru_project_id x) as -> by (unfold run_origin in Hxy; congruence).
  apply once_pure; [apply circuit_breaker_pure..|intros _ _].
  apply (once_prior id _ _ _ _ id id); [done..|]. do 6 (apply post_skip; intros ?). cbv zeta.
  apply post_save; [|intros w z w' Hrun; by rinv]. intros d0. keeps_walk.
Qed.

Lemma task_command_once t sc key pl body body' :
  once id (task_command t sc key pl body) (task_command t sc key pl body').
Proof.
  unfold task_command. cbv zeta. apply once_transaction, (once_row id tasks task_origin); [apply grown_tasks|].
  intros x y Hxy. assert (t_project_id y = t_project_id x) as -> by (unfold task_origin in Hxy; congruence).
  apply (once_prior id _ _ _ _ id id); [done..|]. apply post_skip; intros ?.
  apply post_save; [|intros w z w' Hrun; by rinv]. intros d0. keeps_walk.
Qed.
End retries.

(** Two requests for the same command: the actor, the bindings in memory, the
    compiled authority, the guards that the caller claims and the causation may
    differ. *)
Inductive retry : KernelOp → KernelOp → Prop :=
  | retry_goal b b' p s a a' key au au' :
      retry (KoCreateGoal b p s a key au) (KoCreateGoal b' p s a' key au')
  | retry_run p g r a a' key : retry (KoCreateRun p g r a key) (KoCreateRun p g r a' key)
  | retry_task b b' p s a a' key r au au' :
      retry (KoAddTask b p s a key r au) (KoAddTask b' p s a' key r au')
  | retry_advance r e a a' key gs gs' pl c c' :
      retry (KoAdvance r e a key gs pl c) (KoAdvance r e a' key gs' pl c')
  | retry_accept t a a' key e : retry (KoAccept t a key e) (KoAccept t a' key e)
  | retry_confirm t a a' key : retry (KoConfirm t a key) (KoConfirm t a' key)
  | retry_control t x r a a' key : retry (KoControl t x r a key) (KoControl t x r a' key).

Section theorems.
Context `{ENV : Env}.

(** A command with its answer. *)
Definition command (k : RuntimeKernel) (op : KernelOp) : P json :=
  match op with
  | KoInitialize => _ ← initialize k; mret JNull
  | KoCreateGoal b p s a key au => r ← create_goal k b p s a key au; mret r.1
  | KoCreateRun p g r a key => create_run k p g r a key
  | KoAddTask b p s a key r au => add_task k b p s a key r au
  | KoAdvance r e a key gs pl c => advance_loop k r e a key gs pl c
  | KoAccept t a key e => accept_task_evidence k t a key e
  | KoConfirm t a key => confirm_task_delivery k t a key
  | KoControl t x r a key => control_task k t x r a key
  end.

Lemma command_op k op r w w' : command k op w = (Ok r, w') → run_kernel_op k op w = (Ok tt, w').
Proof.
  assert (∀ A (m : P A) a, m w = (Ok a, w') → ignore m w = (Ok tt, w')) as Hig
    by (intros A m a Hm; unfold ignore, mbind, M_bind; by rewrite Hm).
  destruct op; simpl; intros Hrun; try (by eapply Hig).
  - apply bind_ok in Hrun as ([] & ? & Hrun & [= <- <-]). exact Hrun.
  - apply bind_ok in Hrun as (x & ? & Hrun & [= <- <-]). by eapply Hig.
Qed.
Lemma command_atomic k op : atomic (command k op).
Proof.
  assert (∀ A (m : P A) w e w', m w = (Raise e, w') → ignore m w = (Raise e, w')) as Hig
    by (intros A m w e w' Hm; unfold ignore, mbind, M_bind; by rewrite Hm).
  intros w e w' Hrun. apply (run_kernel_op_atomic k op w e w').
  destruct op; simpl in *; try (by apply Hig); unfold mbind, M_bind in Hrun.
  - destruct (initialize k w) as [[u|e'] w1]; [discriminate Hrun|by injection Hrun as -> ->].
  - match type of Hrun with (let '(_, _) := ?m w in _) = _ => destruct (m w) as [[u|e'] w1] eqn:Hm end;
      [discriminate Hrun|]. injection Hrun as -> ->. by apply Hig.
Qed.
Lemma command_grows k op r w w' : command k op w = (Ok r, w') → grows (w_db w) (w_db w').
Proof. intros Hrun%command_op. by eapply (kernel_op_keeps _ (kernel_writes_grow (w_db w)) k op). Qed.

Lemma command_once k k' op op' :
  retry op op' → rk_policy_version k = rk_policy_version k' → once id (command k op) (command k' op').
Proof.
  intros [] Hpv; unfold command.
  - intros w x w1 w2 x' w3 H1 Hg Hg1 H2. apply bind_ok in H1 as (x1 & ? & H1 & [= <- <-]).
    apply bind_ok in H2 as (x2 & ? & H2 & [= <- <-]). by eapply create_goal_once.
  - by apply create_run_once.
  - apply add_task_once.
  - apply advance_once.
  - unfold accept_task_evidence. do 3 (apply once_lift; intros ? _).
    apply once_pure; [apply actor_id_pure..|intros]. apply task_command_once.
  - unfold confirm_task_delivery. do 2 (apply once_lift; intros ? _).
    apply once_pure; [apply actor_id_pure..|intros]. apply task_command_once.
  - unfold control_task. do 2 (apply once_lift; intros ? _).
    apply once_pure; [apply actor_id_pure..|intros]. cbv zeta. do 3 apply once_guard. apply task_command_once.
Qed.

(** C3: commands happen once.  When a kernel command has succeeded, a request for the
    same command, from the same or another kernel with the same policy version, by
    any actor and after any other commands, changes no table, and it answers with
    nothing but the recorded answer.  It may be refused, by a check that comes before
    the record is looked up: see [retried_start_is_refused]. *)
Theorem commands_happen_once k k' op op' ops w r w1 :
  retry op op' → rk_policy_version k = rk_policy_version k' →
  command k op w = (Ok r, w1) →
  let w2 := run_sys_ops ops w1 in
  w_db (command k' op' w2).2 = w_db w2 ∧ ∀ r', (command k' op' w2).1 = Ok r' → r' = r.
Proof.
  intros Hop Hpv H1 w2. pose proof (run_sys_ops_grow ops w1) as Hg.
  destruct (command k' op' w2) as [[r'|e] w3] eqn:H2; simpl.
  - destruct (command_once k k' op op' Hop Hpv w r w1 w2 r' w3 H1) as [Heq Hdb];
      [etrans; [by eapply command_grows|exact Hg]|exact Hg|exact H2|].
    split; [exact Hdb|]. intros r'' [= <-]. exact Heq.
  - split; [by eapply command_atomic|done].
Qed.

(** What is recorded stays recorded.  No sequence of commands, whichever
    raise, removes or rewrites an event, an idempotency record, a goal, an adopted
    project or program or an authority binding, or changes of a run or a task
    anything but its state, version, times, attempt count and last error. *)
Theorem history_only_grows ops w : grows (w_db w) (w_db (run_sys_ops ops w)).
Proof. apply run_sys_ops_grow. Qed.
End theorems.

(** ** Closing a task *)
Section closing.
Context `{ENV : Env}.

Lemma kernel_writes_le d0 : kept_by_kernel (lease_le d0).
Proof.
  constructor; intros; try by apply write_le.
  - unfold append. keeps_walk. apply keeps_append_event. intros e. by apply keeps_constraint_write.
  - unfold save_idempotent_result. keeps_walk. by apply keeps_constraint_write.
  - by apply keeps_constraint_write.
  - by apply keeps_constraint_write.
  - by apply keeps_constraint_write.
  - by apply keeps_constraint_write.
  - by apply keeps_constraint_write.
  - by apply keeps_constraint_write.
  - by apply keeps_constraint_write.
  - apply keeps_write. intros d Hle. etrans; [exact Hle|]. intros k l Hl. simpl.
    rewrite lookup_update_where, Hl. simpl. eexists. split; [done|]. right. by destruct (f l).
Qed.

Lemma service_writes_le d0 : kept_beside (lease_le d0).
Proof.
  constructor.
  - intros a _. apply keeps_append_event. intros e. by apply keeps_constraint_write.
  - intros f Hf. apply write_le. intros d. by destruct (beside_tables f d Hf) as (_ & _ & _ & _ & _ & _ & ? & _).
  - intros c. by apply keeps_constraint_write.
Qed.

Lemma sys_op_le op d0 : keeps (lease_le d0) (run_sys_op op).
Proof.
  destruct op; [apply kernel_op_keeps, kernel_writes_le|apply run_sched_op_le|apply service_op_keeps, service_writes_le].
Qed.
Lemma run_sys_ops_le ops w : lease_le (w_db w) (w_db (run_sys_ops ops w)).
Proof.
  apply (run_sys_ops_keeps (λ _, True) (lease_le (w_db w)) ops w); [intros op _; apply sys_op_le| |done].
  by apply Forall_true.
Qed.

(** No scheduler ever accepts a call on the claim again, whatever commands come between. *)
Definition dead_forever (c : TaskClaim) (w : World) : Prop := ∀ ops (s : TaskScheduler) vp,
  let w1 := run_sys_ops ops w in
  ¬ act_ok (start s c vp) w1 ∧ ¬ act_ok (complete s c vp) w1 ∧
  ∀ cls msg sev route, ¬ act_ok (fail s c vp cls msg sev route) w1.

Lemma over_dead_forever c w : over (w_db w) (tc_resource_key c) (tc_fence c) → dead_forever c w.
Proof.
  intros Ho ops s vp w1. apply (over_dead s c w1) with (ops := []).
  by eapply over_stays; [apply run_sys_ops_le|].
Qed.

(** C31: once a later grant of the resource exists, or the grant was released, its
    fence can never again renew the lease nor pass the check for an active lease,
    whatever commands of kernels, schedulers, lease managers and services come in
    between.  Once a later grant exists, its fence passes no check at all, not even
    the one that does not ask for an active lease, and cannot release the lease.
    Each of these calls is refused and changes no table. *)
Theorem stale_fence_is_dead pv ops resource project task holder fence ttl w :
  let w1 := run_sys_ops ops w in
  (over (w_db w) (strip resource) fence →
     refused (renew pv resource project task holder fence ttl) w1 ∧
     refused (require_current_fence resource project task holder fence true) w1) ∧
  (overtaken (w_db w) (strip resource) fence → ∀ require_active,
     refused (release pv resource project task holder fence) w1 ∧
     refused (require_current_fence resource project task holder fence require_active) w1).
Proof.
  intros w1. pose proof (run_sys_ops_le ops w) as Hle. split.
  - intros Ho. apply over_refused. by eapply over_stays.
  - intros Ho active. apply overtaken_refused. by eapply overtaken_stays.
Qed.

(** A task command that was not answered from its record. *)
Lemma task_command_fresh t sc key pl body r w w' :
  task_command t sc key pl body w = (Ok r, w') → w_db w' ≠ w_db w →
  ∃ row res wb rec, tasks (w_db w) !! t = Some row ∧ body row w = (Ok res, wb) ∧
    r = JObj (task_result res) ∧
    w_db w' = set_idempotency <[(t_project_id row, sc +:+ t, key) := rec]> (w_db wb).
Proof.
  unfold task_command. cbv zeta. intros Hrun Hne. apply (proj1 (transaction_ok _ _ _ _)) in Hrun.
  apply bind_ok in Hrun as (o & ? & [-> ->]%read_ok & Hrun).
  apply bind_ok in Hrun as (row & ? & [Hrow ->]%expect_ok & Hrun).
  apply bind_ok in Hrun as (prior & w1 & Hprior & Hrun).
  assert (w1 = w) as -> by (unfold get_idempotent_result in Hprior; rinv;
    destruct (idempotency (w_db w) !! _); by rinv).
  destruct prior as [p|]; [by injection Hrun as <- <-|].
  apply bind_ok in Hrun as (res & wb & Hbody & Hrun). unfold save_idempotent_result, insert_idempotency in Hrun.
  rinv. exists row, res, wb. eexists. split_and!; done.
Qed.

Lemma closing_actions a :
  a ∈ ["block"; "cancel"; "delete"; "retire"]%string →
  a ≠ "resume" ∧ ∃ t, _TASK_CONTROL_TARGETS a = Some t ∧ memb t closing = true.
Proof.
  intros Ha. assert (Forall (λ a, a ≠ "resume" ∧ ∃ t, _TASK_CONTROL_TARGETS a = Some t ∧ memb t closing = true)
    ["block"; "cancel"; "delete"; "retire"]%string) as Hall.
  { repeat (constructor; [split; [discriminate|by eexists]|]). constructor. }
  by apply (proj1 (Forall_forall _ _) Hall).
Qed.

(** C16: closing a task ends its work.  When [control_task] has blocked, canceled,
    deleted or retired a task (and has not merely answered a retry), the task is
    in that state, none of its leases is held and none of its attempts is open;
    and no scheduler ever accepts [start], [complete] or [fail] on a claim whose
    fence the lease of that task had reached, whatever commands come after. *)
Theorem closing_ends_work k task action reason actor key w r w' :
  (∀ i t, tasks (w_db w) !! i = Some t → t_id t = i) →
  control_task k task action reason actor key w = (Ok r, w') → w_db w' ≠ w_db w →
  lower (strip action) ∈ ["block"; "cancel"; "delete"; "retire"]%string →
  (∃ t, tasks (w_db w') !! task = Some t ∧ _TASK_CONTROL_TARGETS (lower (strip action)) = Some (t_state t)) ∧
  (∀ j l, leases (w_db w') !! j = Some l → l_task_id l = task → l_released_at l ≠ None) ∧
  (∀ i a, attempts (w_db w') !! i = Some a → a_task_id a = task → a_ended_at a ≠ None) ∧
  ∀ c l, leases (w_db w) !! tc_resource_key c = Some l → l_task_id l = task → tc_fence c ≤ l_fence l →
    dead_forever c w'.
Proof.
  intros Hkeys Hrun Hne Haction. unfold control_task in Hrun.
  apply bind_ok in Hrun as (task' & ? & [Htask ->]%lift_res_ok & Hrun). apply command_text_ok in Htask as [-> _].
  apply bind_ok in Hrun as (key' & ? & [_ ->]%lift_res_ok & Hrun).
  apply bind_ok in Hrun as (actor_id & w1 & Hactor & Hrun).
  pose proof (actor_id_pure actor [R_OWNER; R_SYSTEM] w) as Hw1. rewrite Hactor in Hw1. simpl in Hw1.
  cbv zeta in Hrun. do 3 apply bind_ok in Hrun as (? & ? & [_ ->]%ensure_ok & Hrun).
  rewrite <- Hw1 in *.
  apply task_command_fresh in Hrun as (row & res & wb & rec & Hrow & Hbody & -> & Hdb); [|done].
  unfold control in Hbody. apply bind_ok in Hbody as (target & w2 & Htarget & Hbody).
  assert (w2 = w1 ∧ _TASK_CONTROL_TARGETS (lower (strip action)) = Some target ∧ memb target closing = true)
    as (-> & Ht & Hclosing).
  { destruct (closing_actions _ Haction) as (Hno & t & Ht & Hc). unfold control_target in Htarget.
    rewrite (bool_decide_eq_false_2 _ Hno), Ht in Htarget. by injection Htarget as <- <-. }
  apply bind_ok in Hbody as (res' & w3 & Hmove & Hbody).
  apply move_projection in Hmove as (e & now & _ & _ & _ & _ & _ & _ & _ & _ & Hdb3). rewrite Hclosing in Hbody.
  unfold close_work in Hbody. rinv. simpl in Hdb. rewrite Hdb3 in Hdb.
  rewrite (Hkeys _ _ Hrow) in Hdb. rewrite Hdb. simpl. split_and!.
  - rewrite lookup_alter_eq, Hrow. by eexists.
  - intros j l Hl Hj. rewrite lookup_update_where in Hl. destruct (leases (w_db w1) !! j) as [l0|]; [|done].
    injection Hl as <-. destruct (l_released_at l0) eqn:Hr;
      [rewrite andb_false_r; congruence|]. revert Hj. rewrite andb_true_r. by case_bool_decide.
  - intros i a Ha Hi. rewrite lookup_update_where in Ha. destruct (attempts (w_db w1) !! i) as [a0|]; [|done].
    injection Ha as <-. destruct (a_ended_at a0) eqn:Hr;
      [rewrite andb_false_r; congruence|]. revert Hi. rewrite andb_true_r. by case_bool_decide.
  - intros c l Hl Hj Hf. apply over_dead_forever. rewrite Hdb. unfold over. simpl.
    rewrite lookup_update_where, Hl. simpl. eexists. split; [done|]. rewrite (bool_decide_eq_true_2 _ Hj).
    destruct (decide (tc_fence c = l_fence l)) as [He|]; [right|left; by destruct (l_released_at l); simpl; lia].
    by destruct (l_released_at l) eqn:Hr; simpl; rewrite ?Hr.
Qed.
End closing.

(** ** Delivery of a task *)
Section delivery.
Context `{ENV : Env}.

(** The role check of a command. *)
Lemma actor_live actor role w id w' :
  _actor_id actor [role] w = (Ok id, w') → live_as (w_db w) actor role ∧ id = vp_principal_id actor.
Proof.
  unfold _actor_id, verify. intros Hrun. apply bind_ok in Hrun as (rec & w1 & Hv & Hrun).
  apply (proj1 (transaction_ok _ _ _ _)) in Hv. rinv.
  match goal with H : existsb _ _ = true |- _ => apply existsb_In in H as (r & Hr & Hin) end.
  apply memb_true, list_elem_of_singleton in Hin as ->. split; [by eapply verify_live_as|].
  by apply verify_ok in Hv as (_ & s & p & _ & _ & _ & _ & ? & _).
Qed.

(** Every gate of the contracts has an approval that is still valid. *)
Definition gates_open (d : DB) (task_id : string) : Prop :=
  match _validated_task_authority_binding d task_id with
  | Ok None => True
  | Ok (Some (authority, binding)) => ∀ c, c ∈ ct_decision_gate_contracts authority →
      ∃ c' i a n, contract_for (ct_decision_gate_contracts authority) (dg_gate_id c) = Some c' ∧
        approvals (registry d) !! i = Some a ∧
        gate_approval task_id binding (ct_version authority) c' (sql_at n) a = true
  | Raise _ => False
  end.

Lemma gates_approved_true task authority binding request gates w w' :
  gates_approved task authority binding request gates w = (Ok true, w') →
  w_db w' = w_db w ∧ ∀ g, g ∈ gates → ∃ c i a n,
    contract_for (ct_decision_gate_contracts authority) g = Some c ∧
    (∀ r, request = Some r → r = contract_request c) ∧
    approvals (registry (w_db w)) !! i = Some a ∧
    gate_approval task binding (ct_version authority) c (sql_at n) a = true.
Proof.
  revert w. induction gates as [|g gates IH]; intros w Hrun; simpl in Hrun.
  { rinv. split; [done|]. intros ? []%not_elem_of_nil. }
  apply bind_ok in Hrun as (c & ? & [Hc ->]%expect_ok & Hrun).
  assert (∀ r, request = Some r → r = contract_request c) as Hreq.
  { intros r ->. destruct (bool_decide _) eqn:Hb in Hrun; [by bsplit|by injection Hrun]. }
  replace (match request with Some r => negb (bool_decide (r = contract_request c)) | None => false end)
    with false in Hrun by (destruct request as [r|]; [by rewrite (bool_decide_eq_true_2 _ (Hreq r eq_refl))|done]).
  apply bind_ok in Hrun as (now & w1 & [-> ->]%sql_now_ok & Hrun).
  apply bind_ok in Hrun as (b & ? & [-> ->]%read_ok & Hrun).
  destruct (map_any _ _) eqn:Hany; [|by injection Hrun]. apply IH in Hrun as [Hdb Hall].
  apply map_any_true in Hany as (i & a & Ha & Hok). split; [done|].
  intros g' [->|Hg]%elem_of_cons; [|by apply Hall]. exists c, i, a, (w_ticks w). done.
Qed.

Lemma required_gates_true task w w' :
  _required_decision_gates_satisfied task None None w = (Ok true, w') →
  w_db w' = w_db w ∧ gates_open (w_db w) task.
Proof.
  unfold _required_decision_gates_satisfied, gates_open. intros Hrun.
  apply bind_ok in Hrun as (d & ? & [-> ->]%read_id_ok & Hrun).
  destruct (_validated_task_authority_binding _ _) as [[[authority binding]|]|[]]; try (by rinv). simpl in Hrun.
  case_match; [by rinv|]. apply gates_approved_true in Hrun as [Hdb Hall]. split; [done|].
  intros c Hc. destruct (Hall (dg_gate_id c)) as (c' & i & a & n & ? & _ & ? & ?); [|eauto 10].
  apply fromkeys_elem, list_elem_of_fmap. by exists c.
Qed.

(** The newest observation of a required surface: of the right target, by an
    allowed probe of an enabled observer, healthy, current and uncontradicted. *)
Definition surface_verified (d : DB) (run : RunRow) (s : RuntimeSurfaceSpec) : Prop :=
  ∃ o rest n, surface_observations d run (rs_surface_key s) = o :: rest ∧ surface_static d run s o = true ∧
    julianday (ob_observed_at o) ≤ julianday (sql_at n) < julianday (ob_expires_at o) ∧
    ∀ o', o' ∈ rest → ob_observed_at o' = ob_observed_at o → signature o' = signature o.

Lemma surface_fresh_true run s w w' :
  surface_fresh run s w = (Ok true, w') → w_db w' = w_db w ∧ surface_verified (w_db w) run s.
Proof.
  unfold surface_fresh, surface_verified. intros Hrun. apply bind_ok in Hrun as (d & ? & [-> ->]%read_id_ok & Hrun).
  destruct (surface_observations _ _ _) as [|o rest]; [by rinv|]. case_match; [by rinv|].
  apply bind_ok in Hrun as (now & w1 & [-> ->]%sql_now_ok & Hrun).
  case_match eqn:Hnow; rinv; [done|]. bsplit.
  match goal with H : true = _ |- _ => symmetry in H; rename H into Hall end.
  split; [done|]. exists o, rest, (w_ticks w). split_and!; try done.
  intros o' Ho' He.
  apply (proj1 (forallb_In _ _)) with (x := o') in Hall; [|set_solver]. rewrite He, Z.eqb_refl in Hall.
  by apply bool_decide_eq_true in Hall.
Qed.

Lemma allP_true {A} (f : A → P bool) (F : DB → A → Prop) l w w' :
  (∀ x w w', f x w = (Ok true, w') → w_db w' = w_db w ∧ F (w_db w) x) →
  allP f l w = (Ok true, w') → w_db w' = w_db w ∧ ∀ x, x ∈ l → F (w_db w) x.
Proof.
  intros Hf. revert w. induction l as [|x l IH]; intros w Hrun; simpl in Hrun.
  { rinv. split; [done|]. intros ? []%not_elem_of_nil. }
  apply bind_ok in Hrun as (b & w1 & Hx & Hrun). destruct b; [|by injection Hrun].
  apply Hf in Hx as [Hdb Hx]. apply IH in Hrun as [Hdb' Hall]. rewrite Hdb in *. split; [done|].
  intros y [->|Hy]%elem_of_cons; auto.
Qed.

Lemma freshness_true run w w' :
  _freshness_satisfied run w = (Ok true, w') →
  w_db w' = w_db w ∧ ∃ goal, _goal (w_db w) run = Ok goal ∧
    ∀ s, s ∈ gs_required_runtime_surfaces goal → surface_verified (w_db w) run s.
Proof.
  unfold _freshness_satisfied. intros Hrun. apply bind_ok in Hrun as (d & ? & [-> ->]%read_id_ok & Hrun).
  apply bind_ok in Hrun as (goal & ? & [Hg ->]%lift_res_ok & Hrun).
  apply (allP_true _ (λ d s, surface_verified d run s)) in Hrun as [Hdb Hall]; [eauto|].
  intros s w0 w1. apply surface_fresh_true.
Qed.

(** Evidence on the target state of a task, with one of the verdicts. *)
Definition evidenced (d : DB) (t : TaskRow) (verdicts : list EvaluatorVerdict) : Prop :=
  ∃ i c, evidence_claims (registry d) !! i = Some c ∧ ec_task_id c = t_id t ∧
    ec_evidence_state c = ts_evidence_target (t_spec t) ∧ ec_evaluator_verdict c ∈ verdicts.

Lemma passes_true d t verdicts : passes verdicts (target_verdicts d t) = true → evidenced d t verdicts.
Proof.
  intros (v & Hv & Hin%memb_true)%existsb_In. unfold target_verdicts in Hv.
  apply list_elem_of_fmap in Hv as (c & -> & [[i Hi] Hc]%elem_of_select). bsplit. by exists i, c.
Qed.

(** Every declared step has a row, every row is of a declared step and succeeded. *)
Lemma steps_done_true d t :
  steps_done d t = true → ∀ s, s ∈ ws_step_id <$> ts_workflow_steps (t_spec t) →
  ∃ i row, workflow_steps (registry d) !! i = Some row ∧ st_task_id row = t_id t ∧ st_step_id row = s ∧
    st_status row = "succeeded".
Proof.
  unfold steps_done. intros [Hnil|Hdone]%orb_true_iff s Hs.
  { apply bool_decide_eq_true in Hnil. rewrite Hnil in Hs. by apply not_elem_of_nil in Hs. }
  apply andb_true_iff in Hdone as [[_ Hall]%andb_true_iff Hst].
  pose proof (proj1 (forallb_In _ _) Hall s Hs) as Hin. apply memb_true, list_elem_of_fmap in Hin as (row & -> & Hrow).
  pose proof (proj1 (forallb_In _ _) Hst row Hrow) as Hok. apply elem_of_select in Hrow as [[i Hi] Ht].
  apply bool_decide_eq_true in Hok, Ht. by exists i, row.
Qed.

Lemma integrated_true d id :
  integrated d id = true →
  (∃ i x, integration_items (registry d) !! i = Some x ∧ ii_task_id x = id) ∧
  ∀ i x, integration_items (registry d) !! i = Some x → ii_task_id x = id → ii_state x ∈ _INTEGRATION_FINAL.
Proof.
  unfold integrated. intros [Hne Hall]%andb_true_iff. split.
  - destruct (select _ _) as [|x l] eqn:Hsel; [done|].
    assert (x ∈ select (λ i, bool_decide (ii_task_id i = id)) (integration_items (registry d))) as Hx
      by (rewrite Hsel; by constructor).
    apply elem_of_select in Hx as [[i Hi] Hx]. bsplit. by exists i, x.
  - intros i x Hi Hx. pose proof (proj1 (forallb_In _ _) Hall (ii_state x)) as Hin. apply memb_true, Hin.
    apply list_elem_of_fmap. exists x. split; [done|]. apply elem_of_select. split; [by exists i|].
    by apply bool_decide_eq_true.
Qed.

(** What backs the delivery of a task, as the database shows it. *)
Record deliverable (d : DB) (t : TaskRow) : Prop := {
  dl_state : t_state t = T_INTEGRATION_PENDING;
  dl_evidence : evidenced d t [V_NOT_REQUIRED; V_PASS; V_PASS_WITH_RISK];
  dl_evaluator : ts_evaluator_required (t_spec t) = true → evidenced d t [V_PASS; V_PASS_WITH_RISK];
  dl_gates : gates_open d (t_id t);
  dl_steps s : s ∈ ws_step_id <$> ts_workflow_steps (t_spec t) →
    ∃ i row, workflow_steps (registry d) !! i = Some row ∧ st_task_id row = t_id t ∧ st_step_id row = s ∧
      st_status row = "succeeded";
  dl_integration : ts_integration_required (t_spec t) = true →
    (∃ i x, integration_items (registry d) !! i = Some x ∧ ii_task_id x = t_id t) ∧
    ∀ i x, integration_items (registry d) !! i = Some x → ii_task_id x = t_id t →
      ii_state x ∈ [I_DELIVERED; I_SUPERSEDED];
  dl_fresh : ∃ id run goal, t_run_id t = Some id ∧ runs d !! id = Some run ∧ _goal d run = Ok goal ∧
    ∀ s, s ∈ gs_required_runtime_surfaces goal → surface_verified d run s }.

Lemma deliver_ok self actor_id key actor t r w w' :
  deliver self actor_id key actor t w = (Ok r, w') →
  deliverable (w_db w) t ∧ ∃ e now,
    w_db w' = changed (t_id t) (task_with T_DELIVERED (t_version t + 1) now) (logged [e] (w_db w)).
Proof.
  unfold deliver. intros Hrun.
  apply bind_ok in Hrun as (? & ? & [Hst ->]%ensure_ok & Hrun).
  apply bind_ok in Hrun as (status & ? & [-> ->]%read_ok & Hrun).
  apply bind_ok in Hrun as (? & ? & [[Hev Hval]%andb_true_iff ->]%ensure_ok & Hrun).
  apply bind_ok in Hrun as (gates & w1 & Hgates & Hrun).
  apply bind_ok in Hrun as (? & ? & [-> ->]%ensure_ok & Hrun). apply required_gates_true in Hgates as [Hdb Hgates].
  apply bind_ok in Hrun as (steps & ? & [-> ->]%read_ok & Hrun).
  apply bind_ok in Hrun as (? & ? & [Hsteps ->]%ensure_ok & Hrun).
  apply bind_ok in Hrun as (integration & ? & [-> ->]%read_ok & Hrun).
  apply bind_ok in Hrun as (? & ? & [Hint ->]%ensure_ok & Hrun).
  apply bind_ok in Hrun as (o & ? & [-> ->]%read_ok & Hrun).
  apply bind_ok in Hrun as (run & ? & [Hro ->]%expect_ok & Hrun).
  apply bind_ok in Hrun as (fresh & w2 & Hfresh & Hrun).
  apply bind_ok in Hrun as (? & ? & [-> ->]%ensure_ok & Hrun).
  apply freshness_true in Hfresh as (Hdb2 & goal & Hgoal & Hall).
  apply move_projection in Hrun as (e & now & _ & _ & _ & _ & _ & _ & _ & _ & Hdb3).
  rewrite Hdb2, Hdb in Hdb3. rewrite Hdb in *. split; [|by exists e, now]. simpl in Hev, Hval.
  constructor; try done.
  - by apply bool_decide_eq_true in Hst.
  - by apply passes_true.
  - intros Hreq. rewrite Hreq in Hval. by apply passes_true.
  - by apply steps_done_true.
  - intros Hreq. rewrite Hreq in Hint. by apply integrated_true.
  - destruct (t_run_id t) as [id|]; [|done]. by exists id, run, goal.
Qed.

(** C6: a task is delivered only on recorded facts.  When [confirm_task_delivery]
    has delivered a task (and has not merely answered a retry), its actor had a
    live session with the release role, the task was pending integration, and the
    database held passing evidence on its target, the evaluator's verdict where it
    is required, a valid approval for every decision gate, a successful row of
    every workflow step, integration items that are all final where integration is
    required, and a healthy, current, uncontradicted observation of every surface
    that the goal requires; the task is then delivered at its next version. *)
Theorem delivery_is_backed k task actor key w r w' :
  (∀ i t, tasks (w_db w) !! i = Some t → t_id t = i) →
  confirm_task_delivery k task actor key w = (Ok r, w') → w_db w' ≠ w_db w →
  live_as (w_db w) actor R_RELEASE ∧
  ∃ t now, tasks (w_db w) !! task = Some t ∧ deliverable (w_db w) t ∧
    tasks (w_db w') = <[task := task_with T_DELIVERED (t_version t + 1) now t]> (tasks (w_db w)).
Proof.
  intros Hkeys Hrun Hne. unfold confirm_task_delivery in Hrun.
  apply bind_ok in Hrun as (task' & ? & [Htask ->]%lift_res_ok & Hrun). apply command_text_ok in Htask as [-> _].
  apply bind_ok in Hrun as (key' & ? & [_ ->]%lift_res_ok & Hrun).
  apply bind_ok in Hrun as (actor_id & w1 & Hactor & Hrun).
  pose proof (actor_id_pure actor [R_RELEASE] w) as Hw1. rewrite Hactor in Hw1. simpl in Hw1.
  apply actor_live in Hactor as [Hlive _]. rewrite <- Hw1 in *. split; [done|].
  apply task_command_fresh in Hrun as (row & res & wb & rec & Hrow & Hbody & -> & Hdb); [|done].
  apply deliver_ok in Hbody as (Hd & e & now & Hdbb). exists row, now. split_and!; [done..|].
  rewrite Hdb, Hdbb. simpl. rewrite (Hkeys _ _ Hrow). by apply alter_known.
Qed.
End delivery.

(** ** The circuit breaker *)
Section breaker.
Context `{ENV : Env}.

(** The starts of a run without evidence stay within the limit of its goal. *)
Record starts_inv (d : DB) : Prop := {
  si_keys id r : runs d !! id = Some r → ru_id r = id;
  si_goals id r : runs d !! id = Some r → is_Some (goals d !! ru_goal_id r);
  si_new id : runs d !! id = None → fruitless_starts d id = 0;
  si_bound id r g : runs d !! id = Some r → goals d !! ru_goal_id r = Some g →
    fruitless_starts d id ≤ Z.max 0 (gs_max_iterations_without_evidence (go_spec g)) }.

Lemma starts_same d d' :
  events d' = events d → evidence_claims (registry d') = evidence_claims (registry d) →
  runs d' = runs d → goals d' = goals d → starts_inv d → starts_inv d'.
Proof.
  intros He Hc Hr Hg [H0 H1 H2 H3].
  assert (∀ id, fruitless_starts d' id = fruitless_starts d id) as Hf
    by (intros id; unfold fruitless_starts, last_evidence; by rewrite He, Hc).
  constructor; intros *; rewrite ?Hr, ?Hg, ?Hf; eauto.
Qed.

Definition is_start (id : string) (e : Event) : bool :=
  bool_decide (ev_aggregate_type e = "run") && bool_decide (ev_aggregate_id e = id)
  && bool_decide (ev_event_type e = value E_TASK_STARTED).

Lemma starts_logged d e id :
  fruitless_starts (logged [e] d) id ≤ fruitless_starts d id + (if is_start id e then 1 else 0) ∧
  (is_start id e = false → fruitless_starts (logged [e] d) id = fruitless_starts d id).
Proof.
  unfold fruitless_starts, last_evidence. simpl. rewrite List.filter_app, length_app. simpl.
  unfold is_start. generalize (value E_TASK_STARTED). intros v.
  destruct (bool_decide (ev_aggregate_type e = _)), (bool_decide (ev_aggregate_id e = _)),
    (bool_decide (ev_event_type e = _)); simpl; try (split; [lia|intros _; lia]).
  split; [|done]. destruct (match foldr _ _ _ with Some _ => _ | None => _ end); simpl; lia.
Qed.

Lemma starts_logged_other d e : (∀ id, is_start id e = false) → starts_inv d → starts_inv (logged [e] d).
Proof.
  intros Hno [H0 H1 H2 H3]. constructor; simpl; [done|done|intros id Hid|intros id r g Hr Hg];
    rewrite (proj2 (starts_logged d e id) (Hno id)); eauto.
Qed.

Lemma keeps_starts_append a :
  ea_aggregate_type a ∉ ["run"]%string → keeps starts_inv (append_event a).
Proof.
  intros Hty. apply keeps_of_atomic; [apply append_event_atomic|]. intros w e w' Hrun Hi.
  apply append_event_ok in Hrun as (auth & wa & _ & Ha & ->). apply starts_logged_other; [|done].
  intros id. unfold is_start. rewrite (ap_type _ _ _ _ _ Ha), bool_decide_eq_false_2; [done|set_solver].
Qed.
Lemma starts_append f : (∀ id, ea_aggregate_type (f id) ∉ ["run"]%string) → keeps starts_inv (append f).
Proof. intros Hty. unfold append. keeps_walk. by apply keeps_starts_append. Qed.

Definition off_runs (f : DB → DB) : Prop := ∀ d,
  events (f d) = events d ∧ evidence_claims (registry (f d)) = evidence_claims (registry d) ∧
  runs (f d) = runs d ∧ goals (f d) = goals d.
Lemma starts_write f : off_runs f → keeps starts_inv (write f).
Proof. intros Hf. apply keeps_write. intros d. destruct (Hf d) as (? & ? & ? & ?). by apply starts_same. Qed.
Lemma starts_insert c f : off_runs f → keeps starts_inv (_ ← constraint c; write f).
Proof.
  intros Hf. apply keeps_bind; [apply keeps_constraint|intros _]. by apply starts_write.
Qed.
Lemma starts_goal g : keeps starts_inv (insert_goal g).
Proof.
  apply keeps_constraint_write. intros d Hc%absent_true [H0 H1 H2 H3].
  constructor; simpl; [done|intros id r Hr|done|intros id r g' Hr Hg].
  - destruct (H1 _ _ Hr) as [g0 Hg0]. destruct (decide (ru_goal_id r = go_id g)) as [->|];
      [by rewrite lookup_insert_eq|by rewrite lookup_insert_ne].
  - destruct (H1 _ _ Hr) as [g0 Hg0]. rewrite lookup_insert_ne in Hg by congruence. by eapply H3.
Qed.

Lemma starts_save p s k g r i : keeps starts_inv (save_idempotent_result p s k g r i).
Proof. unfold save_idempotent_result. keeps_walk. by apply starts_insert. Qed.

(** What a passed circuit breaker says. *)
Definition passed (r : RunRow) (event : LoopEvent) (d : DB) : Prop := event = E_TASK_STARTED →
  ∃ g, goals d !! ru_goal_id r = Some g ∧
       fruitless_starts d (ru_id r) < gs_max_iterations_without_evidence (go_spec g).

Lemma post_breaker {B} I r event (k : unit → P B) Q :
  post (λ d, I d ∧ passed r event d) (k tt) Q → post I (circuit_breaker r event ≫= k) Q.
Proof.
  intros Hk w b w' Hrun Hi. apply bind_ok in Hrun as ([] & w1 & Hb & Hrun).
  pose proof (circuit_breaker_pure r event w) as Hdb. rewrite Hb in Hdb. simpl in Hdb.
  eapply Hk; [exact Hrun|]. rewrite Hdb. split; [done|]. intros ->. unfold circuit_breaker in Hb.
  rewrite bool_decide_eq_true_2 in Hb by done. rinv. bsplit. eauto.
Qed.

Lemma starts_moved d e id t v n r :
  starts_inv d → runs d !! id = Some r →
  (is_start id e = true → passed r E_TASK_STARTED d) →
  (∀ j, j ≠ id → is_start j e = false) →
  starts_inv (set_runs (alter (run_moved t v n) id) (logged [e] d)).
Proof.
  intros [H0 H1 H2 H3] Hr Hpass Hother.
  assert (∀ j, fruitless_starts (set_runs (alter (run_moved t v n) id) (logged [e] d)) j
               = fruitless_starts (logged [e] d) j) as Hf by done.
  assert (∀ j x, alter (run_moved t v n) id (runs d) !! j = Some x →
            ∃ y, runs d !! j = Some y ∧ ru_goal_id x = ru_goal_id y ∧ ru_id x = ru_id y) as Hrow.
  { intros j x. destruct (decide (j = id)) as [->|].
    - rewrite lookup_alter_eq, Hr. intros [= <-]. eauto.
    - rewrite lookup_alter_ne by done. eauto. }
  constructor; simpl.
  - intros j x (y & Hy & _ & ->)%Hrow. eauto.
  - intros j x (y & Hy & -> & _)%Hrow. eauto.
  - intros j Hj. rewrite Hf. destruct (decide (j = id)) as [->|Hne]; [by rewrite lookup_alter_eq, Hr in Hj|].
    rewrite lookup_alter_ne in Hj by done. rewrite (proj2 (starts_logged d e j) (Hother j Hne)). by apply H2.
  - intros j x g (y & Hy & Hgo & _)%Hrow Hg. rewrite Hf. rewrite Hgo in Hg. specialize (H3 _ _ _ Hy Hg).
    destruct (is_start j e) eqn:Hst; [|by rewrite (proj2 (starts_logged d e j) Hst)].
    destruct (decide (j = id)) as [->|Hne]; [|by rewrite Hother in Hst].
    destruct (Hpass Hst eq_refl) as (g' & Hg' & Hlt). rewrite (H0 _ _ Hr) in Hlt.
    assert (y = r) as -> by congruence. assert (g' = g) as -> by congruence.
    pose proof (proj1 (starts_logged d e id)) as Hle. rewrite Hst in Hle. lia.
Qed.

Lemma advance_starts self run event actor key guards payload causation :
  post starts_inv (advance_loop self run event actor key guards payload causation) (λ _, starts_inv).
Proof.
  unfold advance_loop. do 2 (apply post_lift; intros ? _).
  apply post_seq; [destruct causation; keeps_walk|intros cause].
  apply post_seq; [apply keeps_pure, actor_id_pure|intros actor_id].
  apply post_transaction, post_read. intros o. apply post_expect. intros r ->. cbv zeta.
  apply post_breaker. apply post_prior; [by intros d [[? _] _]|].
  apply post_seq; [apply keeps_resolve|intros gs]. apply post_guard. intros _.
  apply post_lift. intros target Htarget. apply post_commit.
  - intros d id auth now e t [[Hi Hr] Hp] Ha w u w' Hput Hdb. rinv. unfold set_db. simpl. rewrite Hdb.
    destruct Ha. simpl in *. eapply starts_moved; [done|by symmetry| |].
    + unfold is_start. intros Hst. bsplit. rewrite ap_event in *. intros _. apply Hp.
      by match goal with H : value _ = value _ |- _ => apply value_inj in H end.
    + intros j Hj. unfold is_start. rewrite ap_id, (bool_decide_eq_false_2 (_ = j)) by congruence.
      by rewrite andb_false_r.
  - intros e. apply keeps_bind; [apply starts_save|intros _; apply keeps_ret].
Qed.

Lemma starts_inserted d (r : RunRow) :
  starts_inv d → runs d !! ru_id r = None → is_Some (goals d !! ru_goal_id r) →
  starts_inv (set_runs <[ru_id r := r]> d).
Proof.
  intros [H0 H1 H2 H3] Hnone Hg.
  assert (∀ j x, <[ru_id r := r]> (runs d) !! j = Some x → j = ru_id r ∧ x = r ∨ runs d !! j = Some x) as Hrow
    by (intros j x [[<- <-]|[_ ?]]%lookup_insert_Some; auto).
  constructor; simpl.
  - intros j x [[-> ->]|Hx]%Hrow; eauto.
  - intros j x [[-> ->]|Hx]%Hrow; eauto.
  - intros j [Hj _]%lookup_insert_None. by apply H2.
  - intros j x g [[-> ->]|Hx]%Hrow Hgo; [|by eapply H3].
    assert (fruitless_starts (set_runs <[ru_id r := r]> d) (ru_id r) = fruitless_starts d (ru_id r)) as -> by done.
    rewrite H2 by done. lia.
Qed.

Lemma create_run_starts self project goal run actor key :
  post starts_inv (create_run self project goal run actor key) (λ _, starts_inv).
Proof.
  unfold create_run. do 4 (apply post_lift; intros ? _).
  apply post_seq; [apply keeps_pure, actor_id_pure|intros actor_id]. cbv zeta.
  apply post_transaction, post_prior; [done|].
  apply post_read. intros o. apply post_guard. intros Hgoal. apply post_commit.
  - intros d id auth now e t [Hi ->] Ha w u w' Hrun Hdb. unfold insert_run in Hrun. rinv. bsplit.
    unfold set_db. simpl.
    match goal with H : absent _ _ = true |- _ => apply absent_true in H; rename H into Hnone end.
    rewrite Hdb in *. apply (starts_inserted (logged [e] d)); [|done|].
    + apply starts_logged_other; [|done]. intros j. unfold is_start. rewrite (ap_event _ _ _ _ _ Ha).
      rewrite (bool_decide_eq_false_2 (_ = value E_TASK_STARTED)); [by rewrite !andb_false_r|discriminate].
    + simpl in *. by destruct (goals d !! a0).
  - intros e. apply keeps_bind; [apply starts_save|intros _; apply keeps_ret].
Qed.

Ltac starts_walk := keeps_walk; first
  [ by apply starts_write | by apply starts_insert | apply starts_goal | apply starts_save
  | apply starts_append; intros id; not_listed | apply keeps_starts_append; not_listed ].

Lemma sched_writes_starts : kept_by_sched starts_inv.
Proof.
  constructor; intros; first [ apply keeps_starts_append; revert H; by apply types_apart | by apply starts_write
    | apply starts_write; intros d; by destruct (H d) as (? & ? & ? & ? & ? & ->)
    | apply starts_insert; intros d; by destruct (H d) as (? & ? & ? & ? & ? & ->) ].
Qed.
Lemma adopt_starts self entry : keeps starts_inv (adopt self entry).
Proof.
  destruct entry as [project [[spec program] graph]]. unfold adopt. cbv zeta.
  apply keeps_bind; [apply keeps_read|intros existing]. apply keeps_bind.
  - apply keeps_forM_In. intros [[[ty id] et] payload] Hin. unfold adopt_event.
    apply keeps_bind; [apply keeps_read|intros [e|]]; [apply keeps_ensure|].
    apply keeps_bind; [|intros; apply keeps_ret]. apply starts_append. intros cid. simpl.
    apply elem_of_cons in Hin as [Hin|Hin]; [injection Hin as -> _ _ _; not_listed|].
    apply list_elem_of_fmap in Hin as (p & Hin & _). injection Hin as -> _ _ _. not_listed.
  - intros _. destruct existing; keeps_walk; by apply starts_insert.
Qed.

Lemma kernel_op_starts self op : keeps starts_inv (run_kernel_op self op).
Proof.
  apply keeps_of_post; [apply run_kernel_op_atomic|].
  assert (∀ A (m : P A), post starts_inv m (λ _, starts_inv) → post starts_inv (ignore m) (λ _, starts_inv)) as Hig.
  { intros A m Hm. eapply post_bind; [exact Hm|]. intros ?. by apply post_ret. }
  destruct op; unfold run_kernel_op.
  - apply post_keeps, keeps_transaction, keeps_forM. intros e. apply adopt_starts.
  - apply Hig, post_keeps. unfold create_goal, bind_goal. starts_walk.
  - apply Hig, create_run_starts.
  - apply Hig, post_keeps. unfold add_task, bind_task, open_run. starts_walk.
  - apply Hig, advance_starts.
  - apply Hig, post_keeps. unfold accept_task_evidence, task_command, accept_evidence,
      _transition_task_projection. starts_walk.
  - apply Hig, post_keeps. unfold confirm_task_delivery, task_command, deliver, _transition_task_projection.
    starts_walk.
  - apply Hig, post_keeps. unfold control_task, task_command, control, control_target, resume_target, close_work,
      _transition_task_projection. starts_walk.
Qed.

(** A claim of evidence only starts the count anew. *)
Definition latest (l : list EvidenceClaim) : option Instant :=
  foldr (λ c m, Some (match m with Some t => Z.max (ec_created_at c) t | None => ec_created_at c end)) None l.
#[local] Instance latest_perm : Proper ((≡ₚ) ==> eq) latest.
Proof.
  intros l l' Hl. induction Hl as [|x l l' _ IH|x y l|l l' l'' _ IH1 _ IH2]; simpl; [done|by rewrite IH| |congruence].
  f_equal. destruct (latest l); [lia|apply Z.max_comm].
Qed.
Lemma filter_length_le {A} (f g : A → bool) l :
  (∀ x, f x = true → g x = true) → (length (List.filter f l) ≤ length (List.filter g l))%nat.
Proof.
  intros Hfg. induction l as [|x l IH]; simpl; [done|]. destruct (f x) eqn:Hf.
  - rewrite (Hfg x Hf). simpl. lia.
  - destruct (g x); simpl; lia.
Qed.
Lemma starts_evidence c d id :
  evidence_claims (registry d) !! ec_id c = None →
  fruitless_starts (set_evidence_claims <[ec_id c := c]> d) id ≤ fruitless_starts d id.
Proof.
  intros Hc. unfold fruitless_starts. apply inj_le, filter_length_le. intros e He. simpl in He.
  apply andb_true_iff in He as [-> He]. simpl. revert He.
  unfold last_evidence. fold (latest (select (λ c, bool_decide (ec_run_id c = id)) (evidence_claims (registry d)))).
  simpl. fold (latest (select (λ c, bool_decide (ec_run_id c = id)) (<[ec_id c := c]> (evidence_claims (registry d))))).
  rewrite (select_insert _ _ _ c Hc). case_bool_decide; simpl; [|done].
  destruct (latest _) as [t|]; [|done]. intros He. apply Z.ltb_lt. apply Z.ltb_lt in He.
  eapply Z.le_lt_trans; [|exact He]. unfold julianday. apply Z.div_le_mono; lia.
Qed.

Lemma service_writes_starts : kept_beside starts_inv.
Proof.
  constructor.
  - intros a Ha. apply keeps_starts_append. revert Ha. by apply types_apart.
  - intros f Hf. apply keeps_write. intros d.
    destruct (beside_tables f d Hf) as (? & _ & ? & ? & _ & _ & _ & ? & _). by apply starts_same.
  - intros c. apply keeps_constraint_write. intros d Hc [H0 H1 H2 H3]. bsplit.
    match goal with H : absent _ _ = true |- _ => apply absent_true in H; rename H into Hnone end.
    pose proof (λ id, starts_evidence c d id Hnone) as Hle. constructor; [done|done| |].
    + intros id Hid. specialize (Hle id). rewrite (H2 id Hid) in Hle. unfold fruitless_starts in *. lia.
    + intros id r g Hr Hg. etrans; [apply Hle|by apply (H3 id r g)].
Qed.

Definition starts_within_limit (d : DB) : Prop := ∀ id r g,
  runs d !! id = Some r → goals d !! ru_goal_id r = Some g →
  fruitless_starts d id ≤ Z.max 0 (gs_max_iterations_without_evidence (go_spec g)).

(** C40: the circuit breaker holds.  Through any sequence of commands, a run is
    never started more often since its last evidence than its goal allows
    iterations without evidence. *)
Theorem starts_stay_bounded ops w :
  fresh (w_db w) → starts_within_limit (w_db (run_sys_ops ops w)).
Proof.
  intros Hf id r g. apply si_bound.
  apply (run_sys_ops_keeps (λ _, True) starts_inv ops w); [|by apply Forall_true|].
  - intros [k op|s op|op] _; [apply kernel_op_starts|apply sched_op_keeps, sched_writes_starts
      |apply service_op_keeps, service_writes_starts].
  - destruct Hf as [He _ Hr _ _ _ _ _].
    constructor; try (intros *; rewrite Hr, lookup_empty; discriminate).
    intros j _. unfold fruitless_starts. by rewrite He.
Qed.
End breaker.

(** ** Witnesses *)
Module Repeats.
Import Toy Sample Queue Story.

Lemma task_keys ops : Forall sys_op_ok ops →
  ∀ i t, tasks (w_db (run_sys_ops ops opened)) !! i = Some t → t_id t = i.
Proof.
  intros Hops i t Ht.
  exact (proj2 (current_row _ i t (conj (sys_core ops opened opened_fresh Hops) (Forall_nil_2 _)) Ht)).
Qed.

Lemma some_shows {A} (o : option A) (f : A → bool) :
  match o with Some x => f x | None => false end = true → ∃ x, o = Some x ∧ f x = true.
Proof. destruct o as [x|]; [eauto|done]. Qed.
Definition state_of (w : World) : option TaskState := t_state <$> tasks (w_db w) !! "t1".
Lemma changed_state w w' : negb (bool_decide (state_of w' = state_of w)) = true → w_db w' ≠ w_db w.
Proof. intros Hs Heq. apply negb_true_iff, bool_decide_eq_false in Hs. apply Hs. unfold state_of. by rewrite Heq. Qed.

(** The same run is created again, with other claims about it, after other commands. *)
Definition new_run : KernelOp := KoCreateRun "proj" "g1" "r1" alice_vp "k2".
Definition goal_made : World := run_sys_ops (firstn 1 begin_ops) opened.

Lemma commands_happen_once_witness :
  ∃ r w1 w3, command k new_run goal_made = (Ok r, w1) ∧
    command k new_run (run_sys_ops (skipn 2 begin_ops) w1) = (Ok r, w3) ∧
    w_db w3 = w_db (run_sys_ops (skipn 2 begin_ops) w1).
Proof.
  destruct (run_succeeds (command k new_run) goal_made ltac:(by_eval)) as (r & w1 & H1).
  pose proof (run_shows (command k new_run) goal_made
    (λ _ w1, is_ok (command k new_run (run_sys_ops (skipn 2 begin_ops) w1)).1) r w1 ltac:(by_eval) H1) as H2.
  destruct (run_succeeds (command k new_run) (run_sys_ops (skipn 2 begin_ops) w1) H2) as (r' & w3 & H3).
  destruct (commands_happen_once k k new_run new_run (skipn 2 begin_ops) goal_made r w1
    ltac:(constructor) eq_refl H1) as [Hdb Hanswer].
  rewrite H3 in Hdb, Hanswer. rewrite (Hanswer r' eq_refl) in H3.
  exists r, w1, w3. split; [exact H1|]. split; [exact H3|exact Hdb].
Defined.

(** The leased task is blocked. *)
Definition leased_ops : list SysOp := begin_ops ++ firstn 1 work_ops.
Definition leased : World := run_sys_ops leased_ops opened.
Lemma leased_ok : Forall sys_op_ok leased_ops.
Proof. repeat constructor. Qed.
Lemma leased_keys i t : tasks (w_db leased) !! i = Some t → t_id t = i.
Proof. unfold leased. apply task_keys. exact leased_ok. Qed.

(** The lease of the claim is released and acquired again. *)
Definition handover : list SysOp := [
  SysSched sc (SoLease "v1" (LoRelease "task://t1" "proj" "t1" alice_vp 1));
  SysSched sc (SoLease "v1" (LoAcquire "task://t1" "proj" "t1" alice_vp 600))].
Definition handed_over : World := run_sys_ops handover leased.
Lemma stale_fence_is_dead_witness :
  overtaken (w_db handed_over) "task://t1" 1 ∧
  refused (renew "v1" "task://t1" "proj" "t1" alice_vp 1 60) (run_sys_ops (skipn 1 work_ops) handed_over) ∧
  refused (require_current_fence "task://t1" "proj" "t1" alice_vp 1 false) (run_sys_ops (skipn 1 work_ops) handed_over).
Proof.
  destruct (some_shows (leases (w_db handed_over) !! "task://t1") (λ l, l_fence l =? 2) ltac:(by_eval))
    as (l & Hl & Hf%Z.eqb_eq).
  destruct (stale_fence_is_dead "v1" (skipn 1 work_ops) "task://t1" "proj" "t1" alice_vp 1 60 handed_over) as [Hover Htaken].
  assert (strip "task://t1" = "task://t1") as Hs by (vm_compute; reflexivity). rewrite Hs in Hover, Htaken.
  assert (1 < l_fence l) as Hlt by (rewrite Hf; reflexivity).
  split; [exists l; split; [exact Hl|exact Hlt]|]. split.
  - apply Hover. exists l. split; [exact Hl|left; exact Hlt].
  - refine (proj2 (Htaken _ false)). exists l. split; [exact Hl|exact Hlt].
Defined.

Lemma closing_ends_work_witness :
  ∃ r w', control_task k "t1" "Block" "no longer needed" alice_vp "k9" leased = (Ok r, w') ∧
    dead_forever grant w'.
Proof.
  destruct (run_succeeds (control_task k "t1" "Block" "no longer needed" alice_vp "k9") leased ltac:(by_eval)) as (r & w' & Hr).
  pose proof (run_shows (control_task k "t1" "Block" "no longer needed" alice_vp "k9") leased (λ _ w', negb (bool_decide (state_of w' = state_of leased))) r w'
    ltac:(by_eval) Hr) as Hne.
  destruct (some_shows (leases (w_db leased) !! tc_resource_key grant)
    (λ l, bool_decide (l_task_id l = "t1") && (tc_fence grant <=? l_fence l)) ltac:(by_eval))
    as (l & Hlease & Hl).
  apply andb_true_iff in Hl as [Ht%bool_decide_eq_true Hf%Z.leb_le].
  destruct (closing_ends_work k "t1" "Block" "no longer needed" alice_vp "k9" leased r w'
    leased_keys Hr (changed_state _ _ Hne)
    (proj1 (memb_true _ _) ltac:(by_eval))) as (_ & _ & _ & Hdead).
  exists r, w'. split; [exact Hr|]. exact (Hdead grant l Hlease Ht Hf).
Defined.

(** The task of the story is delivered. *)
Definition judged_ops : list SysOp := begin_ops ++ work_ops ++ firstn 1 finish_ops.
Definition judged : World := run_sys_ops judged_ops opened.
Lemma judged_ok : Forall sys_op_ok judged_ops.
Proof. repeat constructor. Qed.

Lemma judged_keys i t : tasks (w_db judged) !! i = Some t → t_id t = i.
Proof. unfold judged. apply task_keys. exact judged_ok. Qed.

Lemma delivery_is_backed_witness :
  ∃ r w' t, confirm_task_delivery k "t1" alice_vp "k10" judged = (Ok r, w') ∧ deliverable (w_db judged) t.
Proof.
  destruct (run_succeeds (confirm_task_delivery k "t1" alice_vp "k10") judged ltac:(by_eval)) as (r & w' & Hr).
  pose proof (run_shows (confirm_task_delivery k "t1" alice_vp "k10") judged (λ _ w', negb (bool_decide (state_of w' = state_of judged))) r w'
    ltac:(by_eval) Hr) as Hne.
  destruct (delivery_is_backed k "t1" alice_vp "k10" judged r w' judged_keys Hr
    (changed_state _ _ Hne)) as (_ & t & now & _ & Hd & _).
  exists r, w', t. split; [exact Hr|exact Hd].
Defined.

Lemma starts_stay_bounded_witness :
  ∃ r g, runs (w_db (run_sys_ops story opened)) !! "r1" = Some r ∧
    fruitless_starts (w_db (run_sys_ops story opened)) "r1"
      ≤ Z.max 0 (gs_max_iterations_without_evidence (go_spec g)).
Proof.
  destruct (some_shows (runs (w_db (run_sys_ops story opened)) !! "r1")
    (λ r, bool_decide (is_Some (goals (w_db (run_sys_ops story opened)) !! ru_goal_id r))) ltac:(by_eval))
    as (r & Hr & Hg%bool_decide_eq_true).
  destruct Hg as [g Hg].
  exists r, g. split; [exact Hr|]. exact (starts_stay_bounded story opened opened_fresh "r1" r g Hr Hg).
Defined.
End Repeats.
