(* ===== verification/Tables.v ===== *)
(** * The core tables stay well formed

    The typing invariant of the tables of goals, runs and tasks, through any
    commands of kernels, schedulers, lease and identity managers: keys, references
    between rows, specifications in canonical form, and every task within the
    authority of its goal.  A command that raises changes no table at all. *)

From S2P Require Import Prelude PyStr Json Enums StateMachine Contracts Scope Db Store Identity.
From S2P Require Import Leases Scheduler Authority Gates Registries Services Kernel Replay System Commands.

Local Open Scope string_scope.
Local Open Scope list_scope.
Local Open Scope Z_scope.

Definition goal_typed (k : string) (g : GoalRow) : Prop :=
  go_id g = k ∧ gs_goal_id (go_spec g) = k ∧ GoalSpec_from_dict (GoalSpec_to_dict (go_spec g)) = Ok (go_spec g) ∧
  validate_goal_scope (go_spec g) = Ok tt.
Definition run_typed (gs : gmap string GoalRow) (k : string) (r : RunRow) : Prop :=
  ru_id r = k ∧ ∃ g, gs !! ru_goal_id r = Some g ∧ go_project_id g = ru_project_id r.
Definition task_typed (gs : gmap string GoalRow) (rs : gmap string RunRow) (k : string) (t : TaskRow) : Prop :=
  t_id t = k ∧ ts_task_id (t_spec t) = k ∧ ts_goal_id (t_spec t) = t_goal_id t ∧
  TaskSpec_from_dict (TaskSpec_to_dict (t_spec t)) = Ok (t_spec t) ∧
  (∃ g, gs !! t_goal_id t = Some g ∧ go_project_id g = t_project_id t ∧
        validate_task_within_goal (go_spec g) (t_spec t) = Ok tt) ∧
  ∀ id, t_run_id t = Some id →
    ∃ r, rs !! id = Some r ∧ ru_goal_id r = t_goal_id t ∧ ru_project_id r = t_project_id t.

Record typed (d : DB) : Prop := {
  ty_goal k g : goals d !! k = Some g → goal_typed k g;
  ty_run k r : runs d !! k = Some r → run_typed (goals d) k r;
  ty_task k t : tasks d !! k = Some t → task_typed (goals d) (runs d) k t }.

(** Only what is set for good counts. *)
Lemma run_typed_origin gs gs' k r r' :
  gs ⊆ gs' → run_origin r' = run_origin r → run_typed gs k r → run_typed gs' k r'.
Proof.
  intros Hgs [= He1 He2 He3 _ _] (Hid & g & Hg & Hp). split; [congruence|]. exists g.
  rewrite He2, He3. split; [|done]. by eapply lookup_weaken.
Qed.
Lemma task_typed_origin gs gs' rs rs' k t t' :
  gs ⊆ gs' → run_origin <$> rs ⊆ run_origin <$> rs' → task_origin t' = task_origin t →
  task_typed gs rs k t → task_typed gs' rs' k t'.
Proof.
  intros Hgs Hrs [= He1 He2 He3 He4 He5 _] (Hid & Hsid & Hsg & Hrt & (g & Hg & Hp & Hv) & Hrun).
  unfold task_typed. rewrite He1, He2, He3, He4, He5. split_and!; try done.
  - exists g. split; [by eapply lookup_weaken|done].
  - intros id Hr. destruct (Hrun id Hr) as (r & Hr0 & Hrg & Hrp).
    assert ((run_origin <$> rs) !! id = Some (run_origin r)) as Hlo by (by rewrite lookup_fmap, Hr0).
    apply (lookup_weaken _ _ _ _ Hlo) in Hrs. rewrite lookup_fmap in Hrs.
    destruct (rs' !! id) as [r'|]; [|done]. injection Hrs as Ho1 Ho2 Ho3 _ _.
    exists r'. split_and!; [done|congruence..].
Qed.

(** Tables that differ only in what may change. *)
Lemma typed_same d d' :
  goals d' = goals d → run_origin <$> runs d' = run_origin <$> runs d →
  task_origin <$> tasks d' = task_origin <$> tasks d → typed d → typed d'.
Proof.
  intros Hg Hr Ht [H1 H2 H3]. constructor; rewrite ?Hg.
  - done.
  - intros k r Hk. assert ((run_origin <$> runs d) !! k = Some (run_origin r)) as Ho
      by (by rewrite <- Hr, lookup_fmap, Hk).
    rewrite lookup_fmap in Ho. destruct (runs d !! k) as [r0|] eqn:Hr0; [|done].
    eapply run_typed_origin; [done| |by apply H2]. simpl in Ho. congruence.
  - intros k t Hk. assert ((task_origin <$> tasks d) !! k = Some (task_origin t)) as Ho
      by (by rewrite <- Ht, lookup_fmap, Hk).
    rewrite lookup_fmap in Ho. destruct (tasks d !! k) as [t0|] eqn:Ht0; [|done].
    apply (task_typed_origin (goals d) _ (runs d) _ k t0); [done|by rewrite Hr| |by apply H3].
    simpl in Ho. congruence.
Qed.

Section typed.
Context `{ENV : Env}.

Definition off_core (f : DB → DB) : Prop := ∀ d,
  goals (f d) = goals d ∧ run_origin <$> runs (f d) = run_origin <$> runs d ∧
  task_origin <$> tasks (f d) = task_origin <$> tasks d.
Lemma typed_write f : off_core f → keeps typed (write f).
Proof. intros Hf. apply keeps_write. intros d. destruct (Hf d) as (? & ? & ?). by apply typed_same. Qed.
Lemma typed_insert c f : off_core f → keeps typed (_ ← constraint c; write f).
Proof. intros Hf. apply keeps_bind; [apply keeps_constraint|intros _; by apply typed_write]. Qed.
Lemma typed_event a : keeps typed (append_event a).
Proof. apply keeps_append_event. intros e. by apply typed_insert. Qed.
Lemma typed_append f : keeps typed (append f).
Proof. unfold append. keeps_walk. apply typed_event. Qed.
Lemma typed_save p s k g r i : keeps typed (save_idempotent_result p s k g r i).
Proof. unfold save_idempotent_result. keeps_walk. by apply typed_insert. Qed.
Lemma off_core_task f id : (∀ t, task_origin (f t) = task_origin t) → off_core (set_tasks (alter f id)).
Proof. intros Hf d. split_and!; [done..|]. by apply fmap_alter_same. Qed.
Lemma off_core_run f id : (∀ r, run_origin (f r) = run_origin r) → off_core (set_runs (alter f id)).
Proof. intros Hf d. split_and!; [done| |done]. by apply fmap_alter_same. Qed.

Lemma sched_writes_typed : kept_by_sched typed.
Proof.
  assert (∀ f, elsewhere f → off_core f) as Hoff.
  { intros f Hf d. destruct (Hf d) as (_ & _ & -> & -> & -> & _). done. }
  constructor; intros; [apply typed_event|by apply typed_write, Hoff|by apply typed_insert, Hoff|].
  by apply typed_write, off_core_task.
Qed.

Lemma service_writes_typed : kept_beside typed.
Proof.
  constructor; intros; [apply typed_event| |by apply typed_insert].
  apply typed_write. intros d. by destruct (beside_tables f d H) as (_ & _ & -> & -> & -> & _).
Qed.

Lemma insert_goal_typed d (g : GoalRow) :
  typed d → goals d !! go_id g = None → goal_typed (go_id g) g → typed (set_goals <[go_id g := g]> d).
Proof.
  intros [H1 H2 H3] Hnone Hg. assert (goals d ⊆ <[go_id g := g]> (goals d)) as Hsub by (by apply insert_subseteq).
  constructor; simpl.
  - intros k g' [[<- <-]|[_ ?]]%lookup_insert_Some; auto.
  - intros k r Hr. eapply run_typed_origin; [exact Hsub|done|by apply H2].
  - intros k t Ht. eapply task_typed_origin; [exact Hsub|done|done|by apply H3].
Qed.
Lemma insert_run_typed d (r : RunRow) :
  typed d → runs d !! ru_id r = None → run_typed (goals d) (ru_id r) r → typed (set_runs <[ru_id r := r]> d).
Proof.
  intros [H1 H2 H3] Hnone Hr.
  assert (run_origin <$> runs d ⊆ run_origin <$> <[ru_id r := r]> (runs d)) as Hsub by (by apply fmap_insert_grows).
  constructor; simpl; [done| |].
  - intros k r' [[<- <-]|[_ ?]]%lookup_insert_Some; auto.
  - intros k t Ht. by eapply task_typed_origin; [|exact Hsub|done|apply H3].
Qed.
Lemma insert_task_typed d (t : TaskRow) :
  typed d → task_typed (goals d) (runs d) (t_id t) t → typed (set_tasks <[t_id t := t]> d).
Proof.
  intros [H1 H2 H3] Ht. constructor; simpl; [done..|]. intros k t' [[<- <-]|[_ ?]]%lookup_insert_Some; auto.
Qed.

Lemma create_goal_typed self bindings project spec actor key authority :
  post typed (create_goal self bindings project spec actor key authority) (λ _, typed).
Proof.
  unfold create_goal. do 2 (apply post_lift; intros ? _).
  apply post_seq; [apply keeps_pure, actor_id_pure|intros actor_id].
  apply post_lift; intros g Hg. pose proof (canonical_goal _ _ Hg) as Hrt.
  assert (validate_goal_scope g = Ok tt) as Hscope.
  { unfold _canonical_goal_spec in Hg. rinv. by match goal with u : unit |- _ => destruct u end. }
  apply post_seq; [apply keeps_pure, spine_pure|intros spine]. apply post_lift; intros canonical _.
  cbv zeta. apply post_transaction, post_prior; [done|]. apply post_constraint, post_commit.
  - intros d id auth now e t [Hi Hc%absent_true] Ha w u w' Hrun Hdb. unfold insert_goal in Hrun. rinv.
    unfold set_db. simpl. rewrite Hdb. apply (insert_goal_typed (logged [e] d)); [|done|by split_and!].
    by eapply typed_same; [..|exact Hi].
  - intros e. apply keeps_bind; [apply typed_save|intros _].
    destruct canonical; unfold bind_goal; keeps_walk; first [apply typed_append|by apply typed_insert].
Qed.

Lemma create_run_typed self project goal run actor key :
  post typed (create_run self project goal run actor key) (λ _, typed).
Proof.
  unfold create_run. do 4 (apply post_lift; intros ? _).
  apply post_seq; [apply keeps_pure, actor_id_pure|intros actor_id]. cbv zeta.
  apply post_transaction, post_prior; [done|]. apply post_read. intros o. apply post_guard. intros Hgoal.
  apply post_commit.
  - intros d id auth now e t [Hi ->] Ha w u w' Hrun Hdb. unfold insert_run in Hrun. rinv. bsplit.
    destruct (goals d !! _) as [g|] eqn:Hg; [|done]. bsplit. unfold set_db. simpl.
    match goal with H : absent _ _ = true |- _ => apply absent_true in H; rename H into Hnone end.
    rewrite Hdb in *. apply (insert_run_typed (logged [e] d)); [by eapply typed_same; [..|exact Hi]|done|].
    split; [done|]. by exists g.
  - intros e. apply keeps_bind; [apply typed_save|intros _; apply keeps_ret].
Qed.

(** The run of a new task, of the goal and the project. *)
Lemma post_run_of {B} I project goal run (k : unit → P B) Q :
  post (λ d, I d ∧ ∀ id, run = Some id →
          ∃ r, runs d !! id = Some r ∧ ru_goal_id r = goal ∧ ru_project_id r = project) (k tt) Q →
  post I (open_run project goal run ≫= k) Q.
Proof.
  intros Hk w b w' Hrun Hi. apply bind_ok in Hrun as ([] & w1 & H1 & Hrun).
  assert (w1 = w ∧ ∀ id, run = Some id →
    ∃ r, runs (w_db w) !! id = Some r ∧ ru_goal_id r = goal ∧ ru_project_id r = project) as [-> Hrow].
  { unfold open_run in H1. destruct run as [r|]; rinv; [|done]. bsplit. split; [done|].
    intros id [= <-]. eauto. }
  by eapply Hk; [exact Hrun|].
Qed.

Lemma add_task_typed self bindings project spec actor key run authority :
  post typed (add_task self bindings project spec actor key run authority) (λ _, typed).
Proof.
  unfold add_task. do 2 (apply post_lift; intros ? _). apply post_seq; [destruct run; keeps_walk|intros r].
  apply post_seq; [apply keeps_pure, actor_id_pure|intros actor_id].
  apply post_lift; intros t Ht%canonical_task.
  apply post_seq; [apply keeps_pure, spine_pure|intros spine].
  apply post_seq; [apply keeps_pure, check_task_pure|intros canonical].
  cbv zeta. apply post_transaction, post_prior; [done|].
  apply post_read. intros o. apply post_expect. intros g ->. apply post_guard. intros Hproj%bool_decide_eq_true.
  apply post_lift; intros [] Hwithin. apply post_run_of, post_commit.
  - intros d id auth now e at_ [[Hi Hg] Hrun] Ha w u w' Hput Hdb. unfold insert_task in Hput. rinv. bsplit.
    unfold set_db. simpl. rewrite Hdb in *.
    apply (insert_task_typed (logged [e] d)); [by eapply typed_same; [..|exact Hi]|].
    unfold task_typed. simpl. split_and!; try done. by exists g.
  - intros e. apply keeps_bind; [apply typed_save|intros _].
    destruct canonical; unfold bind_task; keeps_walk; first [apply typed_append|by apply typed_insert].
Qed.

Ltac typed_walk := keeps_walk; first
  [ by apply typed_write | by apply typed_insert | apply typed_save | apply typed_append
  | by apply typed_write, off_core_task | by apply typed_write, off_core_run ].

Lemma kernel_op_typed self op : keeps typed (run_kernel_op self op).
Proof.
  apply keeps_of_post; [apply run_kernel_op_atomic|].
  assert (∀ A (m : P A), post typed m (λ _, typed) → post typed (ignore m) (λ _, typed)) as Hig.
  { intros A m Hm. eapply post_bind; [exact Hm|]. intros ?. by apply post_ret. }
  destruct op; unfold run_kernel_op.
  - apply post_keeps, keeps_transaction, keeps_forM. intros [project [[spec program] graph]].
    unfold adopt, adopt_event. typed_walk.
  - apply Hig, create_goal_typed.
  - apply Hig, create_run_typed.
  - apply Hig, add_task_typed.
  - apply Hig, post_keeps. unfold advance_loop, _loop_actor_id. typed_walk.
  - apply Hig, post_keeps. unfold accept_task_evidence, accept_evidence, task_command,
      _transition_task_projection. typed_walk.
  - apply Hig, post_keeps. unfold confirm_task_delivery, deliver, task_command, _transition_task_projection.
    typed_walk.
  - apply Hig, post_keeps. unfold control_task, control, control_target, resume_target, close_work, task_command,
      _transition_task_projection. typed_walk.
Qed.

(** C27: the core tables are well typed.  Through any sequence of commands every
    goal, run and task is stored under its own identifier, every goal and task
    specification is canonical, every run belongs to a goal of its project and
    every task to a goal (and a run of that goal, if any) of its project, and
    every task is within its goal: its scopes, capabilities and surfaces pass
    [validate_task_within_goal]. *)
Theorem core_tables_typed ops w : fresh (w_db w) → typed (w_db (run_sys_ops ops w)).
Proof.
  intros Hf. apply (run_sys_ops_keeps (λ _, True) typed ops w); [|by apply Forall_true|].
  - intros [k op|s op|op] _; [apply kernel_op_typed|apply sched_op_keeps, sched_writes_typed
      |apply service_op_keeps, service_writes_typed].
  - destruct Hf as [_ Hg Hr Ht _ _ _ _].
    constructor; intros k x; [rewrite Hg|rewrite Hr|rewrite Ht]; rewrite lookup_empty; discriminate.
Qed.

(** A command that raises has left every table as it was. *)
Definition all_or_nothing (op : SysOp) : Prop := ∀ w e w',
  run_sys_op op w = (Raise e, w') → w_db w' = w_db w.

(** C29: failures change nothing.  A command that raises, of whichever kernel,
    scheduler, lease or identity manager and at whichever point, leaves every
    table as it was. *)
Theorem failed_commands_change_nothing op : all_or_nothing op.
Proof.
  intros w e w' Hrun. destruct op as [k op|s op|op]; simpl in Hrun.
  - by eapply run_kernel_op_atomic.
  - by eapply run_sched_op_atomic.
  - by eapply service_op_atomic.
Qed.
End typed.

(** ** Witnesses *)
Module Examples.
Import Toy Sample Queue Story.

Lemma core_tables_typed_witness : typed (w_db (run_sys_ops story opened)).
Proof. exact (core_tables_typed story opened opened_fresh). Defined.

(** A run of a goal that does not exist. *)
Definition orphan : SysOp := SysKernel k (KoCreateRun "proj" "nowhere" "r9" alice_vp "k9").
Lemma failed_commands_change_nothing_witness :
  ∃ w', run_sys_op orphan opened = (Raise NotFoundError, w') ∧ w_db w' = w_db opened.
Proof.
  assert (match (run_sys_op orphan opened).1 with Raise NotFoundError => true | _ => false end = true) as He
    by by_eval.
  destruct (run_sys_op orphan opened) as [[u|e] w'] eqn:Hrun; [discriminate He|].
  assert (e = NotFoundError) as -> by (destruct e; try discriminate He; reflexivity).
  exists w'. split; [reflexivity|]. exact (failed_commands_change_nothing orphan _ _ _ Hrun).
Defined.
End Examples.
