(* ===== verification/Parts.v ===== *)
(** * Who writes what

    Each service owns some tables and the events of some kinds.  A [part] of the
    database that is made of such tables and events changes only by the commands
    of its owner: this file says so once for all other commands. *)

From S2P Require Import Prelude PyStr Json Enums StateMachine Contracts Scope Db Store Identity.
From S2P Require Import Leases Scheduler Authority Gates Registries Policy Integration Evidence Observations.
From S2P Require Import Context Memory Promotions Evaluation Rules Adapters Workflow Services Kernel Replay System Commands.

(** The tables of the services. *)
Definition service_tables (d : DB) :=
  (evidence_claims (registry d), observations (registry d), integration_items (registry d),
   workflow_steps (registry d), (approvals (registry d), grants (registry d), proposals (registry d)), effects (registry d)).

Section parts.
Context `{ENV : Env} {T : Type} (part : DB → T) (types : list string).

(** The part is made of tables of the services and of events of [types]. *)
Definition made_of : Prop :=
  (∀ d d', events d' = events d → service_tables d' = service_tables d → part d' = part d) ∧
  (∀ d e, ev_aggregate_type e ∉ types → part (logged [e] d) = part d).
Hypothesis Hpart : made_of.
Definition apart (l : list string) : Prop := forallb (λ t, negb (memb t types)) l = true.

Definition part_is (x : T) (d : DB) : Prop := part d = x.

Lemma part_event x a : ea_aggregate_type a ∉ types → keeps (part_is x) (append_event a).
Proof.
  intros Hty. apply keeps_of_atomic; [apply append_event_atomic|]. intros w e w' Hrun Hx.
  apply append_logged in Hrun as (auth & now & Ha & ->). unfold part_is. rewrite (proj2 Hpart); [done|].
  by rewrite (ap_type _ _ _ _ _ Ha).
Qed.
Lemma part_write x f :
  (∀ d, events (f d) = events d ∧ service_tables (f d) = service_tables d) → keeps (part_is x) (write f).
Proof. intros Hf. apply keeps_write. intros d Hx. unfold part_is. destruct (Hf d). by rewrite (proj1 Hpart d). Qed.
Lemma part_insert x c f :
  (∀ d, events (f d) = events d ∧ service_tables (f d) = service_tables d) →
  keeps (part_is x) (_ ← constraint c; write f).
Proof. intros Hf. apply keeps_bind; [apply keeps_constraint|intros _; by apply part_write]. Qed.

Lemma kernel_op_part x k op : apart kernel_types → keeps (part_is x) (run_kernel_op k op).
Proof.
  intros Hty. apply kernel_op_keeps. constructor; intros; try first [by apply part_insert | by apply part_write].
  - unfold append. apply keeps_bind; [apply keeps_new_uuid|intros id]. apply part_event.
    by eapply types_apart.
  - unfold save_idempotent_result. keeps_walk. by apply part_insert.
Qed.

Lemma sched_op_part x s op : apart sched_types → keeps (part_is x) (run_sched_op s op).
Proof.
  intros Hty. assert (∀ f, elsewhere f → ∀ d, events (f d) = events d ∧ service_tables (f d) = service_tables d) as Hel.
  { intros f Hf d. destruct (Hf d) as (He & _ & _ & _ & _ & Hr). unfold service_tables. by rewrite He, Hr. }
  apply sched_op_keeps. constructor; intros;
    [apply part_event; by eapply types_apart|by apply part_write, Hel|by apply part_insert, Hel|by apply part_write].
Qed.

(** A service that writes other tables and logs other events. *)
Lemma part_footprint x mine l :
  apart l → (∀ f, mine f → ∀ d, part (f d) = part d) → footprint l mine (part_is x).
Proof.
  intros Hl Hm. constructor; [intros a Ha; apply part_event; by eapply types_apart|].
  intros f Hf. apply keeps_write. intros d. unfold part_is. by rewrite (Hm f Hf).
Qed.

(** What a command that keeps the part has left of it. *)
Lemma part_same {A} (m : P A) w r w' : (∀ x, keeps (part_is x) m) → m w = (r, w') → part (w_db w') = part (w_db w).
Proof. intros Hm Hrun. exact (Hm _ w r w' Hrun eq_refl). Qed.

(** The services by name, what each logs and what it writes. *)
Inductive Service := V_policy | V_queue | V_evidence | V_observe | V_context | V_memory | V_evaluate | V_outbox.
Definition service_of (op : ServiceOp) : Service :=
  match op with
  | SvPolicy _ _ => V_policy | SvQueue _ _ => V_queue | SvEvidence _ _ => V_evidence | SvObserve _ _ => V_observe
  | SvContext _ _ => V_context | SvMemory _ => V_memory | SvEvaluate _ _ => V_evaluate | SvOutbox _ _ => V_outbox
  end.
Definition service_types (s : Service) : list string :=
  match s with
  | V_policy => ["approval"; "grant"; "capability_use"] | V_queue => ["integration"]
  | V_evidence => ["artifact"; "evidence"] | V_observe => ["runtime_observation"]
  | V_context => ["context_item"; "context_assembly"] | V_memory => ["memory_item"]
  | V_evaluate => ["eval"; "improvement"; "sealed_custody"] | V_outbox => ["effect"]
  end.
Definition service_writes (s : Service) (f : DB → DB) : Prop :=
  match s with
  | V_policy => Engine.policy_writes f | V_queue => only set_integration_items f
  | V_evidence => only set_artifacts f ∨ only set_evidence_claims f | V_observe => only set_observations f
  | V_context => Context.context_writes f | V_memory => only set_memory_items f
  | V_evaluate => Rules.eval_writes f | V_outbox => Outbox.outbox_writes f
  end.
Definition spared (s : Service) : Prop :=
  apart (service_types s) ∧ ∀ f, service_writes s f → ∀ d, part (f d) = part d.

Lemma service_op_part x op :
  spared (service_of op) → (service_of op = V_outbox → spared V_policy) → keeps (part_is x) (run_service_op op).
Proof.
  intros [Hl Hw] Hp. pose proof (λ l mine Hl Hm, part_footprint x mine l Hl Hm) as Hfoot.
  destruct op; simpl in *.
  - by apply Engine.policy_op_footprint, Hfoot.
  - by apply Items.queue_op_footprint, Hfoot.
  - apply EvidenceOps.evidence_op_footprint; [by apply Hfoot; [|intros f Hf; apply Hw; left]|].
    intros c. apply keeps_constraint_write. intros d _ Hx. unfold part_is. rewrite Hw; [done|]. right. by eexists.
  - by apply Observe.observe_op_footprint, Hfoot.
  - by apply Context.context_op_footprint, Hfoot.
  - by apply Memory.memory_op_footprint, Hfoot.
  - by apply Rules.eval_op_footprint, Hfoot.
  - apply Outbox.outbox_op_footprint; [by apply Hfoot|]. intros e ->. apply Engine.consume_effect_footprint.
    destruct (Hp eq_refl) as [Hpl Hpw]. apply Hfoot; [|exact Hpw]. unfold apart in *. simpl in *.
    rewrite !andb_true_iff in *. tauto.
Qed.

(** A part that one service owns: whatever runs leaves it alone, or is a call of
    that service (or a workflow that settles a use with the policy engine). *)
Lemma sys_op_apart own op w r w' :
  (∀ s, s ≠ own → spared s) → apart kernel_types → apart sched_types → run_sys_op op w = (r, w') →
  part (w_db w') = part (w_db w) ∨
  ∃ so, op = SysService so ∧ (service_of so = own ∨ own = V_policy ∧ service_of so = V_outbox).
Proof.
  intros Hsp Hk Hs Hrun. destruct op as [k op|s op|op]; simpl in Hrun.
  - left. eapply part_same; [|exact Hrun]. intros x. by apply kernel_op_part.
  - left. eapply part_same; [|exact Hrun]. intros x. by apply sched_op_part.
  - assert (service_of op = own ∨ service_of op ≠ own) as [Ho|Ho] by (destruct (service_of op), own; eauto; by right).
    { right. eauto. }
    assert (own = V_policy ∧ service_of op = V_outbox ∨ (service_of op = V_outbox → V_policy ≠ own)) as [?|Hp]
      by (destruct (service_of op), own; eauto; by right).
    { right. eauto. }
    left. eapply part_same; [|exact Hrun]. intros x. apply service_op_part; [by apply Hsp|]. intros Hop. by apply Hsp, Hp.
Qed.
End parts.

(** The writes of a service spare the part; and those of every service but the owner. *)
Ltac writes_spare :=
  unfold Outbox.outbox_writes, Engine.policy_writes, Context.context_writes, Rules.eval_writes, only;
  intros f Hf d; destruct_or?; destruct Hf as [? ->]; reflexivity.
Ltac spares := intros [] Hs; try done; (split; [done|]); simpl; writes_spare.
