(* ===== verification/Grants.v ===== *)
(** * What grants guarantee

    The theorems about [Policy]: what a grant rests on, how its uses and its cost
    are booked, what a consumption checks, and that a revocation is final, through
    any commands of the whole system. *)

From S2P Require Import Prelude PyStr Json Enums StateMachine Contracts Scope Db Store Identity.
From S2P Require Import Leases Scheduler Authority Gates Registries Policy Integration Evidence Observations.
From S2P Require Import Adapters Workflow Services Kernel Replay System Bench Commands Tables Parts.
Import Engine.

Local Open Scope string_scope.
Local Open Scope list_scope.
Local Open Scope Z_scope.

Section specs.
Context `{ENV : Env}.

(** ** What each operation checks and writes *)

(** The task of a request, with its goal and its run. *)
Record scope_of (d : DB) (project goal run task : string) (t : TaskRow) (g : GoalRow) (r : RunRow) : Prop := {
  so_task : tasks d !! task = Some t; so_goal : goals d !! goal = Some g; so_run : runs d !! run = Some r;
  so_task_at : (t_project_id t, t_goal_id t, t_run_id t) = (project, goal, Some run);
  so_run_at : (ru_project_id r, ru_goal_id r) = (project, goal);
  so_goal_at : go_project_id g = project }.

Lemma scope_checked project goal run task x w w' :
  _assert_task_scope project goal run task w = (Ok x, w') →
  w' = w ∧ scope_of (w_db w) project goal run task x.1.1 x.1.2 x.2.
Proof.
  unfold _assert_task_scope. intros Hrun. rinv.
  match goal with H : _ = Some x |- _ => rename H into Hx end.
  apply bind_Some in Hx as (t & Ht & Hx). apply bind_Some in Hx as (r & Hr & Hx).
  apply bind_Some in Hx as (g & Hg & Hx). case_match; [|done]. injection Hx as <-. bsplit.
  split; [done|]. constructor; simpl; congruence.
Qed.

(** The capability, action and resource lie within the task and its goal. *)
Definition contract_allows (d : DB) (task capability action resource : string) : Prop :=
  ∃ t g, tasks d !! task = Some t ∧ goals d !! t_goal_id t = Some g ∧
    _assert_task_authority (t_spec t) (go_spec g) capability action resource = Ok tt.

(** The request is approved for every decision gate that it needs. *)
Definition request_gates_open (d : DB) (task capability action resource digest : string) : Prop :=
  match _validated_task_authority_binding d task with
  | Ok None => True
  | Ok (Some (authority, binding)) => ∀ c, c ∈ ct_decision_gate_contracts authority →
      (value (dg_capability c), dg_action c, dg_resource c) = (capability, action, resource) →
      ∃ c' i a n, contract_for (ct_decision_gate_contracts authority) (dg_gate_id c) = Some c' ∧
        contract_request c' = (capability, action, resource, digest) ∧
        approvals (registry d) !! i = Some a ∧
        gate_approval task binding (ct_version authority) c' (sql_at n) a = true
  | Raise _ => False
  end.

Lemma decision_gates_ok task capability action resource digest u w w' :
  assert_decision_gates task capability action resource digest w = (Ok u, w') →
  w_db w' = w_db w ∧ request_gates_open (w_db w) task capability action resource digest.
Proof.
  unfold assert_decision_gates, request_gates_open, _decision_gates_for_request. intros Hrun.
  apply bind_ok in Hrun as (d & ? & [-> ->]%read_id_ok & Hrun).
  apply bind_ok in Hrun as (gates & ? & [Hg ->]%lift_res_ok & Hrun).
  apply bind_ok in Hrun as (ok & w1 & Hreq & Hrun). apply ensure_ok in Hrun as [-> ->].
  unfold _required_decision_gates_satisfied in Hreq. apply bind_ok in Hreq as (d & ? & [-> ->]%read_id_ok & Hreq).
  destruct (_validated_task_authority_binding _ _) as [[[authority binding]|]|[]] eqn:Hv; try (by rinv).
  simpl in Hreq. case_match; [by rinv|]. apply gates_approved_true in Hreq as [Hdb Hall]. split; [done|].
  intros c Hc He. injection Hg as <-.
  destruct (Hall (dg_gate_id c)) as (c' & i & a & n & ? & Hr & ? & ?).
  { apply list_elem_of_fmap. exists c. split; [done|].
    rewrite list_elem_of_In, filter_In, <- list_elem_of_In. split; [done|]. by apply bool_decide_eq_true. }
  exists c', i, a, n. split_and!; try done. symmetry. by apply Hr.
Qed.

Lemma scope_allows d project goal run task t g r u capability action resource :
  scope_of d project goal run task t g r →
  _assert_task_authority (t_spec t) (go_spec g) capability action resource = Ok u →
  contract_allows d task capability action resource.
Proof. intros [Ht Hg _ [= _ Hgo _] _ _] Ha. destruct u. exists t, g. by rewrite Hgo. Qed.

Lemma current_lease_ok resource project task principal fence u w w' :
  _assert_current_lease resource project task principal fence w = (Ok u, w') →
  w_db w' = w_db w ∧ ∃ n, current_lease resource project task principal (Some fence) (sql_at n) (w_db w) = true.
Proof. unfold _assert_current_lease. intros Hrun. rinv. split; [done|]. by exists (w_ticks w). Qed.
Lemma current_claim_ok project task principal u w w' :
  _assert_current_task_claim project task principal w = (Ok u, w') →
  w_db w' = w_db w ∧
  ∃ n, current_lease ("task://" +:+ task) project task principal None (sql_at n) (w_db w) = true.
Proof. unfold _assert_current_task_claim. intros Hrun. rinv. split; [done|]. by exists (w_ticks w). Qed.

(** Somebody other than its requester decided the approval. *)
Definition approval_ok (a : Approval) : Prop :=
  ∃ approver, av_approver a = Some approver ∧ approver ≠ av_requester a.

Lemma record_approval_ok self requester approver args i w r w' :
  record_approval self requester approver args i w = (Ok r, w') →
  ∃ a e, approvals (registry (w_db w)) !! av_id a = None ∧ approval_ok a ∧ live_as (w_db w) approver R_OWNER ∧
    av_approver a = Some (vp_principal_id approver) ∧ av_requester a = vp_principal_id requester ∧
    contract_allows (w_db w) (av_task_id a) (av_capability a) (av_action a) (av_resource a) ∧
    w_db w' = set_approvals <[av_id a := a]> (logged [e] (w_db w)).
Proof.
  unfold record_approval. intros Hrun. rinv.
  match goal with x : TaskRow * GoalRow * RunRow |- _ => destruct x as [[task goal] run] end. rinv.
  match goal with H : append_event _ _ = _ |- _ => pose proof (append_logged _ _ _ _ H) as (auth & now & Ha & Hdb) end.
  match goal with H : insert_approval _ _ = _ |- _ => unfold insert_approval in H; rinv end.
  unfold Engine._now in *. rinv. same_db.
  match goal with H : _assert_task_scope _ _ _ _ _ = _ |- _ => apply scope_checked in H as [-> Hscope] end.
  match goal with H : require_role_in_transaction _ _ _ = _ |- _ =>
    pose proof (verify_live _ _ _ _ _ H) as Hlive; apply verify_ok in H as (_ & ? & ? & _ & _ & _ & _ & Hid & _) end.
  match goal with H : verify_in_transaction _ _ = _ |- _ =>
    apply verify_ok in H as (_ & ? & ? & _ & _ & _ & _ & Hrq & _) end.
  cbn [tick drawn set_db w_db] in *. bsplit.
  match goal with H : absent _ _ = true |- _ => apply absent_true in H; rename H into Hnone end.
  repeat match goal with H : w_db _ = w_db _ |- _ => rewrite H in *; clear H end. rewrite Hdb in *.
  eexists (approval_row _ _ _ _ _ _ _), _. split_and!; [exact Hnone| |exact Hlive|by rewrite <- Hid|exact Hrq| |done].
  - by eexists.
  - by eapply scope_allows.
Qed.

(** What a grant repeats of the approval it was issued on. *)
Record granted_on (a : Approval) (g : Grant) : Prop := {
  gn_decision : av_decision a = "approved";
  gn_issuer : av_approver a = Some (gr_issuer g);
  gn_principal : av_requester a = gr_principal g;
  gn_request : (gr_capability g, gr_action g, gr_resource g, gr_request_digest g, gr_policy_version g)
               = approved_request a;
  gn_scope : (gr_project_id g, gr_goal_id g, gr_run_id g, gr_task_id g)
             = (av_project_id a, av_goal_id a, av_run_id a, av_task_id a);
  gn_expiry : ∃ t, av_expires_at a = Some t ∧ julianday (gr_expires_at g) ≤ julianday t }.

(** Memory and rule promotions are never granted, and only provider grants cost. *)
Definition grantable (g : Grant) : Prop :=
  gr_capability g ∉ (value <$> _PROMOTION_CAPABILITIES) ∧
  (gr_capability g ≠ value C_PROVIDER_COST → gr_cost_limit g = 0).

Record issued (d : DB) (issuer principal : VerifiedPrincipal) (g : Grant) : Prop := {
  is_issuer : live_as d issuer R_OWNER ∧ gr_issuer g = vp_principal_id issuer;
  is_principal : gr_principal g = vp_principal_id principal;
  is_approved : ∃ i a, gr_approval_id g = Some i ∧ approvals (registry d) !! i = Some a ∧ granted_on a g;
  is_contract : contract_allows d (gr_task_id g) (gr_capability g) (gr_action g) (gr_resource g);
  is_gates : request_gates_open d (gr_task_id g) (gr_capability g) (gr_action g) (gr_resource g)
               (gr_request_digest g);
  is_grantable : grantable g;
  is_books : gr_used_count g = 0 ∧ gr_cost_used g = 0 ∧ gr_revoked_at g = None ∧ 0 < gr_max_uses g ∧
    0 ≤ gr_cost_limit g }.

Lemma lifecycle_grantable task run capability :
  _assert_task_lifecycle task run capability Ph_grant = Ok tt → capability ∉ (value <$> _PROMOTION_CAPABILITIES).
Proof.
  unfold _assert_task_lifecycle. intros Hrun Hin.
  apply list_elem_of_fmap in Hin as (m & -> & Hm). unfold member_of in Hrun.
  rewrite of_value_value in Hrun. simpl in Hrun. unfold memb in Hrun at 1.
  rewrite bool_decide_eq_true_2 in Hrun by done. by rinv.
Qed.

Lemma usable_approval_ok a issuer principal x w w' :
  usable_approval a issuer principal w = (Ok x, w') →
  w_db w' = w_db w ∧ approvals (registry (w_db w)) !! ga_approval_id a = Some x ∧
  av_decision x = "approved" ∧ av_approver x = Some issuer ∧ av_requester x = principal ∧
  approved_request x = granted_request a.
Proof.
  unfold usable_approval. intros Hrun. rinv. bsplit.
  repeat match goal with H : ensure _ _ _ = _ |- _ => apply ensure_ok in H as [? ->] end. by bsplit.
Qed.

Lemma issue_grant_ok issuer principal args i w r w' :
  issue_grant issuer principal args i w = (Ok r, w') →
  ∃ g e, grants (registry (w_db w)) !! gr_id g = None ∧ issued (w_db w) issuer principal g ∧
    w_db w' = set_grants <[gr_id g := g]> (logged [e] (w_db w)).
Proof.
  unfold issue_grant. intros Hrun. rinv.
  match goal with x : TaskRow * GoalRow * RunRow |- _ => destruct x as [[task goal] run] end. rinv.
  match goal with H : append_event _ _ = _ |- _ => pose proof (append_logged _ _ _ _ H) as (auth & now & Ha & Hdb) end.
  match goal with H : insert_grant _ _ = _ |- _ => unfold insert_grant in H; rinv end.
  unfold Engine._now in *. rinv. same_db.
  match goal with H : _assert_task_scope _ _ _ _ _ = _ |- _ => apply scope_checked in H as [-> Hscope] end.
  match goal with H : require_role_in_transaction _ _ _ = _ |- _ =>
    pose proof (verify_live _ _ _ _ _ H) as Hlive; apply verify_ok in H as (_ & ? & ? & _ & _ & _ & _ & Hid & _) end.
  match goal with H : verify_in_transaction _ _ = _ |- _ =>
    apply verify_ok in H as (_ & ? & ? & _ & _ & _ & _ & Hpr & _) end.
  match goal with H : usable_approval _ _ _ _ = _ |- _ =>
    apply usable_approval_ok in H as (_ & Hap & Hdec & Hby & Hfor & Hreq) end.
  match goal with H : assert_decision_gates _ _ _ _ _ _ = _ |- _ => apply decision_gates_ok in H as (_ & Hgates) end.
  match goal with H : _assert_task_lifecycle _ _ _ _ = Ok ?u |- _ => destruct u; apply lifecycle_grantable in H as Hlife end.
  match goal with H : _ = Some ?t |- context [grant_row _ _ _ _ _ _ ?t] => rename t into expires; rename H into Hexp end.
  match goal with H : (if bool_decide _ then _ else _) _ = (Ok _, _) |- _ => rename H into Hcost end.
  cbn [tick drawn set_db w_db] in *. bsplit.
  match goal with H : absent _ _ = true |- _ => apply absent_true in H; rename H into Hnone end.
  assert (ga_capability x ≠ value C_PROVIDER_COST → ga_cost_limit x = 0) as Hfree.
  { intros Hne. rewrite bool_decide_eq_false_2 in Hcost by done. rinv. by bsplit. }
  repeat match goal with H : w_db _ = w_db _ |- _ => rewrite H in *; clear H end. rewrite Hdb in *.
  eexists (grant_row _ _ _ _ _ _ _), _. split_and!; [exact Hnone| |done].
  constructor; simpl in *.
  - by rewrite <- Hid.
  - exact Hpr.
  - eexists _, _. split_and!; [done|exact Hap|]. constructor; simpl; try done.
    repeat case_match; simplify_eq; bsplit; eauto.
  - by eapply scope_allows.
  - exact Hgates.
  - by split.
  - done.
Qed.

(** *** Revocation *)
Lemma revoke_grant_ok k actor w r w' :
  revoke_grant k actor w = (Ok r, w') →
  live_as (w_db w) actor R_OWNER ∧ ∃ g, grants (registry (w_db w)) !! strip k = Some g ∧
    ((gr_revoked_at g ≠ None ∧ w_db w' = w_db w) ∨
     (gr_revoked_at g = None ∧ ∃ e now,
        w_db w' = set_grants (alter (grant_revoked now) (strip k)) (logged [e] (w_db w)))).
Proof.
  unfold revoke_grant, _required_text, required_text. intros Hrun. rinv.
  match goal with H : require_role_in_transaction _ _ _ = _ |- _ =>
    pose proof (verify_live _ _ _ _ _ H) as Hlive; apply verify_ok in H as (-> & _) end. simpl in *.
  split; [done|]. eexists. split; [done|]. destruct (bool_decide _) eqn:Hb in Hrun; simpl in Hrun.
  - right. split; [by apply bool_decide_eq_true in Hb|]. unfold _now in Hrun. rinv.
    match goal with H : append_event _ _ = _ |- _ => apply append_logged in H as (auth & now & _ & Hdb) end.
    eexists _, _. simpl. by rewrite Hdb.
  - left. rinv. by apply bool_decide_eq_false in Hb.
Qed.

(** *** Consumption *)

(** Who consumes: a live session, or an enabled principal on record. *)
Definition may_execute (d : DB) (who : Consumer) (capability principal : string) : Prop :=
  ∃ m role, capability = value m ∧ role ∈ _CAPABILITY_EXECUTION_ROLES m ∧
    match who with
    | BySession s => principal = vp_principal_id s ∧ live_as d s role
    | ByRecord q => principal = q ∧ ∃ p, principals d !! q = Some p ∧ p_enabled p = true ∧
        is_Some (principal_roles d !! (q, role))
    end.

Lemma execution_role_ok roles capability :
  _assert_execution_role roles capability = Ok tt →
  ∃ m role, capability = value m ∧ role ∈ _CAPABILITY_EXECUTION_ROLES m ∧ role ∈ roles.
Proof.
  unfold _assert_execution_role. intros Hrun. rinv.
  match goal with H : existsb _ _ = true |- _ => apply existsb_In in H as (role & Hin & Hrole%memb_true) end.
  match goal with H : of_value _ = Ok ?m |- _ => apply of_value_ok in H as <-; by exists m, role end.
Qed.

Lemma consumer_roles_ok who capability principal roles w w' :
  consumer_roles who capability w = (Ok (principal, roles), w') →
  w_db w' = w_db w ∧ may_execute (w_db w) who capability principal ∧
  ∀ role, role ∈ roles ↔ is_Some (principal_roles (w_db w) !! (principal, role)).
Proof.
  unfold consumer_roles. intros Hrun. destruct who as [s|q]; rinv; simplify_eq;
    match goal with H : _assert_execution_role _ _ = Ok ?u |- _ => destruct u;
      apply execution_role_ok in H as (m & role & -> & Hrole & Hin) end.
  - match goal with H : verify_in_transaction _ _ = _ |- _ => pose proof H as Hv; apply verify_ok in Hv
      as (-> & _ & _ & _ & _ & _ & _ & Hid & Hroles & _) end.
    split; [done|]. rewrite Hid. split.
    + exists m, role. split_and!; [done..|]. by eapply verify_live_as.
    + intros r. rewrite Hroles. apply role_set_elem.
  - split; [done|]. unfold record_roles in *. destruct (principals _ !! q) as [p|] eqn:Hp; [|by apply not_elem_of_nil in Hin].
    destruct (p_enabled p) eqn:He; [|by apply not_elem_of_nil in Hin]. split; [|intros r; apply role_set_elem].
    exists m, role. split_and!; [done..|]. exists p. split_and!; [done..|]. by apply role_set_elem.
Qed.

(** What a request is checked for, whether it is a use or its repetition. *)
Record permitted (d : DB) (a : ConsumeArgs) (who : Consumer) (p : string) (g : Grant) : Prop := {
  pm_grant : grants (registry d) !! ca_grant_id a = Some g;
  pm_scope : exact_scope g = request_scope a p;
  pm_who : may_execute d who (ca_capability a) p;
  pm_task : ∃ t go r, scope_of d (ca_project_id a) (ca_goal_id a) (ca_run_id a) (ca_task_id a) t go r ∧
    _assert_task_authority (t_spec t) (go_spec go) (ca_capability a) (ca_action a) (ca_resource a) = Ok tt ∧
    _assert_task_lifecycle (t_state t) (ru_loop_state r) (ca_capability a) Ph_consume = Ok tt;
  pm_gates : request_gates_open d (ca_task_id a) (ca_capability a) (ca_action a) (ca_resource a)
               (ca_request_digest a);
  pm_claim : is_Some (principal_roles d !! (p, R_WORKER)) → ∃ n,
    current_lease ("task://" +:+ ca_task_id a) (ca_project_id a) (ca_task_id a) p None (sql_at n) d = true;
  pm_fence : gr_required_fence g = ca_fence a ∧ ∀ f, ca_fence a = Some f → ∃ n,
    current_lease (ca_resource a) (ca_project_id a) (ca_task_id a) p (Some f) (sql_at n) d = true;
  pm_force : gr_revoked_at g = None ∧ ∃ n, in_force (sql_at n) g = true }.

Lemma assert_request_ok a p roles g u w w' :
  assert_request a p roles g w = (Ok u, w') →
  exact_scope g = request_scope a p ∧
  (∃ t go r, scope_of (w_db w) (ca_project_id a) (ca_goal_id a) (ca_run_id a) (ca_task_id a) t go r ∧
    _assert_task_authority (t_spec t) (go_spec go) (ca_capability a) (ca_action a) (ca_resource a) = Ok tt ∧
    _assert_task_lifecycle (t_state t) (ru_loop_state r) (ca_capability a) Ph_consume = Ok tt) ∧
  request_gates_open (w_db w) (ca_task_id a) (ca_capability a) (ca_action a) (ca_resource a) (ca_request_digest a) ∧
  (R_WORKER ∈ roles → ∃ n, current_lease ("task://" +:+ ca_task_id a) (ca_project_id a) (ca_task_id a) p None
     (sql_at n) (w_db w) = true) ∧ gr_required_fence g = ca_fence a.
Proof.
  unfold assert_request. intros Hrun. rinv.
  match goal with x : TaskRow * GoalRow * RunRow |- _ => destruct x as [[task goal] run] end. rinv. bsplit.
  match goal with H : _assert_task_scope _ _ _ _ _ = _ |- _ => apply scope_checked in H as [-> Hscope] end.
  match goal with H : assert_decision_gates _ _ _ _ _ _ = _ |- _ => apply decision_gates_ok in H as (Hdb & Hgates) end.
  repeat match goal with H : unit |- _ => destruct H end.
  split_and!; try done; [by exists task, goal, run|]. intros Hw. rewrite <- Hdb.
  match goal with H : (if memb _ _ then _ else _) _ = _ |- _ => unfold memb in H; rewrite bool_decide_eq_true_2 in H by done;
    by apply current_claim_ok in H as [_ ?] end.
Qed.

(** The budget of the compiled task has room for the request. *)
Definition budget_allows (d : DB) (a : ConsumeArgs) : Prop :=
  match _validated_task_authority_binding d (ca_task_id a) with
  | Ok None => True
  | Ok (Some (authority, _)) =>
    sum us_cost (provider_uses d (ca_task_id a)) + ca_cost a ≤ ct_provider_budget_minor_units authority ∧
    Z.of_nat (length (provider_uses d (ca_task_id a))) + 1 ≤ ct_provider_call_limit authority
  | Raise _ => False
  end.
Lemma within_budget_ok a u w w' :
  within_task_budget a w = (Ok u, w') → w' = w ∧ budget_allows (w_db w) a.
Proof.
  unfold within_task_budget, budget_allows, sql_sum. intros Hrun. rinv.
  match goal with H : _ = Ok ?x |- _ => rewrite H; destruct x as [[authority binding]|] end; rinv; [|done].
  by bsplit.
Qed.

(** What booking a new use checks, and what it writes. *)
Definition usage_row (a : ConsumeArgs) (now : Instant) : Usage := {|
  us_grant_id := ca_grant_id a; us_idempotency_key := ca_idempotency_key a;
  us_request_digest := ca_request_digest a; us_cost := ca_cost a; us_used_at := now;
  us_effect_id := ca_effect_id a |}.
Record booked (d : DB) (a : ConsumeArgs) (g : Grant) (d' : DB) : Prop := {
  bk_new : capability_usage (effects (registry d)) !! (ca_grant_id a, ca_idempotency_key a) = None;
  bk_uses : gr_used_count g < gr_max_uses g;
  bk_cost : 0 ≤ ca_cost a ∧ gr_cost_used g + ca_cost a ≤ gr_cost_limit g;
  bk_budget : ca_capability a = value C_PROVIDER_COST → budget_allows d a;
  bk_writes : ∃ e now, ev_aggregate_type e = "capability_use" ∧ ev_aggregate_id e = use_id a ∧
    ev_event_type e = "capability_consumed" ∧
    d' = set_grants (alter (grant_used (ca_cost a)) (ca_grant_id a))
           (set_capability_usage <[(ca_grant_id a, ca_idempotency_key a) := usage_row a now]> (logged [e] d)) }.

Lemma spend_ok a p g r w w' :
  grants (registry (w_db w)) !! ca_grant_id a = Some g →
  spend a p g w = (Ok r, w') → booked (w_db w) a g (w_db w') ∧
  cu_replayed r = false ∧ cu_used_count r = gr_used_count g + 1 ∧ cu_cost_used r = gr_cost_used g + ca_cost a.
Proof.
  unfold spend, _now, insert_usage. intros Hg Hrun. rinv. bsplit.
  match goal with H : (if bool_decide _ then _ else _) _ = (Ok _, ?w1) |- _ => rename H into Hbudget;
    assert (w_db w1 = w_db w ∧ (ca_capability a = value C_PROVIDER_COST → budget_allows (w_db w) a)) as [Hdb Hb] end.
  { case_bool_decide; [apply within_budget_ok in Hbudget as [-> ?]|rinv]; done. }
  match goal with H : append_event _ _ = _ |- _ => apply append_logged in H as (auth & now & Ha & He) end.
  match goal with H : absent _ _ = true |- _ => apply absent_true in H; rename H into Hnone end.
  unfold set_db, tick, drawn in *. cbn [w_db] in *. rewrite He, Hdb in *. destruct Ha. simpl in *.
  match goal with H : alter _ _ _ !! _ = Some _ |- _ => rewrite lookup_alter_eq, Hg in H; injection H as <- end.
  split; [|done]. constructor; try done. eexists _, _. split_and!; [done..|]. reflexivity.
Qed.

(** A consumption repeats a use that is on record, or it books a new one. *)
Lemma consume_ok a who r w w' :
  consume_in_transaction a who w = (Ok r, w') →
  ∃ p g, permitted (w_db w) a who p g ∧
    ((∃ u, capability_usage (effects (registry (w_db w))) !! (ca_grant_id a, ca_idempotency_key a) = Some u ∧
        same_use a u = true ∧ r = use_of a (us_used_at u) g true ∧ w_db w' = w_db w) ∨
     booked (w_db w) a g (w_db w') ∧ cu_replayed r = false).
Proof.
  unfold consume_in_transaction. intros Hrun. rinv.
  match goal with x : string * list Role |- _ => destruct x as [p roles] end. rinv.
  match goal with H : consumer_roles _ _ _ = _ |- _ => apply consumer_roles_ok in H as (Hdb & Hwho & Hroles) end.
  match goal with H : assert_request _ _ _ _ _ = _ |- _ => pose proof H as Hreq;
    apply assert_request_ok in Hreq as (Hscope & Htask & Hgates & Hclaim & Hfence) end.
  match goal with H : match gr_required_fence _ with _ => _ end _ = (Ok _, ?w1) |- _ => rename H into Hlease end.
  same_db. unfold tick in *. cbn [w_db] in *. bsplit.
  match goal with H : grants _ !! _ = Some ?x |- _ => rename x into g end.
  assert (∀ f, ca_fence a = Some f → ∃ n, current_lease (ca_resource a) (ca_project_id a) (ca_task_id a) p
    (Some f) (sql_at n) (w_db w) = true) as Hheld.
  { intros f Hf. rewrite Hfence, Hf in Hlease. apply current_lease_ok in Hlease as [_ [n Hl]].
    cbn [w_db] in Hl. exists n. congruence. }
  repeat match goal with H : w_db _ = w_db _ |- _ => rewrite H in *; clear H end.
  exists p, g. split.
  { constructor; try done; [intros Hw; by apply Hclaim, Hroles|]. split; [done|]. eexists. by eassumption. }
  destruct (capability_usage _ !! _) as [u|]; [rinv; left; by exists u|right].
  match type of Hrun with spend _ _ _ ?w1 = _ => assert (w_db w1 = w_db w) as Hw by congruence end.
  apply spend_ok in Hrun as (Hb & Hr & _); [|by rewrite Hw]. by rewrite Hw in Hb.
Qed.
End specs.

(** ** The life of approvals and grants as a step relation *)
Definition policy_part (d : DB) :=
  (approvals (registry d), grants (registry d), capability_usage (effects (registry d))).

Section steps.
Context `{ENV : Env}.

Inductive policy_step (d d' : DB) : Prop :=
  | ps_other : policy_part d' = policy_part d → policy_step d d'
  | ps_approve a e approver : approvals (registry d) !! av_id a = None → approval_ok a →
      av_approver a = Some approver → live_owner d approver →
      d' = set_approvals <[av_id a := a]> (logged [e] d) → policy_step d d'
  | ps_issue issuer principal g e : grants (registry d) !! gr_id g = None → issued d issuer principal g →
      d' = set_grants <[gr_id g := g]> (logged [e] d) → policy_step d d'
  | ps_revoke k g e now : grants (registry d) !! k = Some g → gr_revoked_at g = None →
      d' = set_grants (alter (grant_revoked now) k) (logged [e] d) → policy_step d d'
  | ps_use a who p g : permitted d a who p g → booked d a g d' → policy_step d d'.

Lemma policy_made : made_of policy_part [].
Proof. split; [|done]. intros d d' _ Hs. unfold service_tables in Hs. unfold policy_part. congruence. Qed.

Lemma consume_step a who w r w' : consume_in_transaction a who w = (Ok r, w') → policy_step (w_db w) (w_db w').
Proof.
  intros (p & g & Hp & [(u & _ & _ & _ & ->)|[Hb _]])%consume_ok; [by apply ps_other|by eapply ps_use].
Qed.
Lemma consume_effect_step e w r w' : _consume_effect e w = (Ok r, w') → policy_step (w_db w) (w_db w').
Proof. unfold _consume_effect. intros Hrun. rinv. by eapply consume_step. Qed.

Lemma policy_op_step self op w r w' :
  run_policy_op self op w = (Ok r, w') → policy_step (w_db w) (w_db w').
Proof.
  destruct op; simpl; unfold ignore; intros Hrun; rinv.
  - match goal with H : record_approval _ _ _ _ _ _ = _ |- _ => apply record_approval_ok in H as
      (a & e & Hn & Ha & Hlive & Hby & _ & _ & ->) end. eapply ps_approve; [done..| |done]. by eexists.
  - match goal with H : issue_grant _ _ _ _ _ = _ |- _ => apply issue_grant_ok in H as (g & e & Hn & Hi & ->) end.
    by eapply ps_issue.
  - match goal with H : revoke_grant _ _ _ = _ |- _ => apply revoke_grant_ok in H as
      (_ & g & Hg & [[_ ->]|[Hr (e & now & ->)]]) end; [by apply ps_other|by eapply ps_revoke].
  - unfold consume in *. rinv. by eapply consume_step.
  - by eapply consume_effect_step.
  - same_db. apply ps_other. congruence.
Qed.

(** Whatever command runs, the tables of the policy engine make one step. *)
Lemma sys_op_step op w r w' : run_sys_op op w = (r, w') → policy_step (w_db w) (w_db w').
Proof.
  intros Hrun. destruct r as [u|e]; [|apply failed_commands_change_nothing in Hrun as ->; by apply ps_other].
  assert (∀ s, s ≠ V_policy → spared policy_part [] s) as Hsp by spares.
  destruct (sys_op_apart policy_part [] policy_made V_policy op w (Ok u) w') as [Hp|(so & -> & [Hso|[_ Hso]])];
    [exact Hsp|done|done|exact Hrun|by apply ps_other|..]; destruct so as [s op|s op|s op|s op|s op|op|s op|s op]; try done.
  - by eapply policy_op_step.
  - destruct op as [p a i|e|e|o rc|o m]; [|simpl in Hrun; unfold ignore in Hrun; rinv; by eapply consume_effect_step|..];
      apply ps_other; (eapply part_same; [|exact Hrun]; intros x; apply Outbox.outbox_op_footprint;
        [apply (part_footprint _ [] policy_made); [done|]; apply (Hsp V_outbox); done|done]).
Qed.
End steps.

(** ** The books of the grants *)
Section books.
Context `{ENV : Env}.

(** The recorded uses of a grant. *)
Definition uses (d : DB) (grant_id : string) : list Usage :=
  select (λ u, bool_decide (us_grant_id u = grant_id)) (capability_usage (effects (registry d))).

(** The books of a grant agree with its recorded uses and stay within its limits. *)
Record balanced (d : DB) (k : string) (g : Grant) : Prop := {
  bl_uses : gr_used_count g = Z.of_nat (length (uses d k));
  bl_cost : gr_cost_used g = sum us_cost (uses d k);
  bl_within : 0 ≤ gr_used_count g ≤ gr_max_uses g ∧ 0 ≤ gr_cost_used g ≤ gr_cost_limit g }.

(** What the grant rests on. *)
Definition backed (d : DB) (g : Grant) : Prop :=
  (∃ i a, gr_approval_id g = Some i ∧ approvals (registry d) !! i = Some a ∧ approval_ok a ∧ granted_on a g) ∧
  grantable g ∧ contract_allows d (gr_task_id g) (gr_capability g) (gr_action g) (gr_resource g).

Record grants_inv (d : DB) : Prop := {
  gi_key k g : grants (registry d) !! k = Some g → gr_id g = k;
  gi_books k g : grants (registry d) !! k = Some g → balanced d k g;
  gi_backed k g : grants (registry d) !! k = Some g → backed d g;
  gi_approval i a : approvals (registry d) !! i = Some a → approval_ok a;
  gi_usage k key u : capability_usage (effects (registry d)) !! (k, key) = Some u →
    us_grant_id u = k ∧ us_idempotency_key u = key ∧ 0 ≤ us_cost u ∧ is_Some (grants (registry d) !! k) }.

Lemma task_origin_grows d d' k t :
  grows d d' → tasks d !! k = Some t → ∃ t', tasks d' !! k = Some t' ∧ task_origin t' = task_origin t.
Proof.
  intros Hg Ht. assert ((task_origin <$> tasks d) !! k = Some (task_origin t)) as Ho by (by rewrite lookup_fmap, Ht).
  pose proof (lookup_weaken _ _ _ _ Ho (gw_tasks _ _ Hg)) as Ho'. rewrite lookup_fmap in Ho'.
  destruct (tasks d' !! k) as [t'|]; [|done]. injection Ho' as ?. exists t'. split; [done|]. by unfold task_origin; congruence.
Qed.
Lemma contract_allows_grows d d' task capability action resource :
  grows d d' → contract_allows d task capability action resource →
  contract_allows d' task capability action resource.
Proof.
  intros Hg (t & g & Ht & Hgo & Ha). destruct (task_origin_grows _ _ _ _ Hg Ht) as (t' & Ht' & [= _ Hgi _ _ Hs _]).
  exists t', g. rewrite Hgi, Hs. split_and!; [done| |done]. eapply lookup_weaken; [exact Hgo|apply Hg].
Qed.
Lemma backed_grows d d' g :
  grows d d' → approvals (registry d) ⊆ approvals (registry d') → backed d g → backed d' g.
Proof.
  intros Hg Ha ((i & a & Hi & Hap & Hok & Hon) & Hgr & Hc). split; [|split; [done|by eapply contract_allows_grows]].
  exists i, a. split_and!; [done|by eapply lookup_weaken|done..].
Qed.

(** The uses of a grant after one more. *)
Lemma uses_booked d a now e k :
  capability_usage (effects (registry d)) !! (ca_grant_id a, ca_idempotency_key a) = None →
  uses (set_capability_usage <[(ca_grant_id a, ca_idempotency_key a) := usage_row a now]> (logged [e] d)) k
  ≡ₚ (if bool_decide (ca_grant_id a = k) then [usage_row a now] else []) ++ uses d k.
Proof. intros Hn. unfold uses. simpl. by rewrite (select_insert _ _ _ _ Hn). Qed.

Lemma uses_none d k : grants_inv d → grants (registry d) !! k = None → uses d k = [].
Proof.
  intros Hi Hn. destruct (uses d k) as [|u l] eqn:Hus; [done|].
  assert (u ∈ uses d k) as Hu by (rewrite Hus; by constructor).
  apply elem_of_select in Hu as [[[j key] Hj] Hk%bool_decide_eq_true].
  destruct (gi_usage d Hi j key u Hj) as (Hj' & _ & _ & [g Hg]). congruence.
Qed.

(** Only its books and its revocation change in a grant. *)
Definition grant_terms (g : Grant) :=
  (gr_id g, (gr_project_id g, gr_goal_id g, gr_run_id g, gr_task_id g), (gr_approval_id g, gr_issuer g, gr_principal g),
   (gr_capability g, gr_action g, gr_resource g, gr_request_digest g, gr_policy_version g),
   (gr_not_before g, gr_expires_at g, gr_max_uses g, gr_cost_limit g, gr_required_fence g)).
Lemma backed_terms d g g' : grant_terms g' = grant_terms g → backed d g → backed d g'.
Proof.
  unfold grant_terms. intros [= Hid Hp Hgo Hr Ht Hai His Hpr Hc Ha Hre Hd Hv Hnb Hex Hmu Hcl Hf].
  intros ((i & a & Hi & Hap & Hok & []) & [Hg1 Hg2] & Hall). split; [|split].
  - exists i, a. split_and!; [congruence|done|done|]. constructor; congruence || by rewrite ?Hex.
  - split; rewrite ?Hc, ?Hcl; done.
  - by rewrite Ht, Hc, Ha, Hre.
Qed.

Lemma grants_inv_step d d' : grants_inv d → policy_step d d' → grows d d' → grants_inv d'.
Proof.
  intros [Hk Hb Hba Hap Hu] Hstep Hg. destruct Hstep as [He|a e approver Hn Ha _ _ -> | issuer principal g e Hn Hi -> | k g e now Hgk Hr -> | a who p g Hp Hbk].
  - injection He as Ha Hgr Hus. constructor; rewrite ?Ha, ?Hgr, ?Hus; try done.
    + intros k g Hkg. destruct (Hb k g Hkg). constructor; unfold uses; by rewrite ?Hus.
    + intros k g Hkg. apply (backed_grows d); [done|by rewrite Ha|by eapply Hba].
  - constructor; simpl; try done.
    + intros k g Hkg. destruct (Hb k g Hkg). by constructor.
    + intros k g Hkg. apply (backed_grows d); [done|simpl; by apply insert_subseteq|by eapply Hba].
    + intros i x [[<- <-]|[_ ?]]%lookup_insert_Some; [done|by eapply Hap].
  - constructor; simpl; try done.
    + intros k x [[<- <-]|[_ ?]]%lookup_insert_Some; [done|by apply Hk].
    + intros k x [[<- <-]|[_ Hkx]]%lookup_insert_Some; [|destruct (Hb k x Hkx); by constructor].
      destruct (is_books _ _ _ _ Hi) as (Hz & Hc & _ & Hm & Hl).
      assert (uses d (gr_id g) = []) as Hno by (by apply uses_none).
      constructor; unfold uses in *; simpl; rewrite ?Hno; simpl; lia.
    + intros k x [[<- <-]|[_ Hkx]]%lookup_insert_Some; (apply (backed_grows d); [done|done|]); [|by eapply Hba].
      destruct Hi as [_ _ (i & a & ? & ? & ?) ? _ ? _]. split; [|done]. exists i, a. split_and!; try done. by eapply Hap.
    + intros k key u Hku. destruct (Hu k key u Hku) as (? & ? & ? & ?). split_and!; try done.
      rewrite lookup_insert_is_Some. destruct (decide (gr_id g = k)); auto.
  - assert (∀ j x', alter (grant_revoked now) k (grants (registry d)) !! j = Some x' →
      ∃ x, grants (registry d) !! j = Some x ∧ grant_terms x' = grant_terms x ∧
        (gr_used_count x', gr_cost_used x') = (gr_used_count x, gr_cost_used x)) as Halt.
    { intros j x' Hj. apply lookup_alter_Some in Hj as [(_ & x & Hx & Hx')|[_ Hx]]; [subst x'; by exists x|by exists x']. }
    constructor; simpl; try done.
    + intros j x' (x & Hx & [= -> _] & _)%Halt. by apply Hk.
    + intros j x' (x & Hx & Hterms & [= Hc1 Hc2])%Halt. destruct (Hb j x Hx) as [Hb1 Hb2 Hb3].
      injection Hterms as _ _ _ _ _ _ _ _ _ _ _ _ _ _ _ Hmu Hcl _.
      constructor; rewrite ?Hc1, ?Hc2, ?Hmu, ?Hcl; done.
    + intros j x' (x & Hx & Hterms & _)%Halt. apply (backed_terms _ x); [done|].
      apply (backed_grows d); [done|done|by eapply Hba].
    + intros j key u Hj. destruct (Hu j key u Hj) as (? & ? & ? & ?). split_and!; try done. by apply lookup_alter_is_Some.
  - destruct Hbk as [Hnew Hlt [Hpos Hle] _ (e & now & _ & _ & _ & ->)]. pose proof (pm_grant _ _ _ _ _ Hp) as Hgk.
    assert (∀ j, uses (set_grants (alter (grant_used (ca_cost a)) (ca_grant_id a)) (set_capability_usage
      <[(ca_grant_id a, ca_idempotency_key a) := usage_row a now]> (logged [e] d))) j
      ≡ₚ (if bool_decide (ca_grant_id a = j) then [usage_row a now] else []) ++ uses d j) as Huses
      by (intros j; apply (uses_booked d a now e j Hnew)).
    constructor; simpl; try done.
    + intros j x' [(<- & x & Hx & ->)|[_ Hx]]%lookup_alter_Some; [|by apply Hk]. by apply (Hk _ x).
    + intros j x' Hj. specialize (Huses j).
      apply lookup_alter_Some in Hj as [(<- & x & Hx & ->)|[Hne Hx]]; destruct (Hb _ _ Hx) as [Hb1 Hb2 Hb3].
      * rewrite bool_decide_eq_true_2 in Huses by done. rewrite Hgk in Hx. injection Hx as <-.
        pose proof (Permutation_length Huses) as Hlen. simpl in Hlen.
        constructor; [|rewrite Huses|]; simpl in *; lia.
      * rewrite bool_decide_eq_false_2 in Huses by done. simpl in Huses.
        pose proof (Permutation_length Huses) as Hlen. constructor; rewrite ?Huses, ?Hlen; done.
    + intros j x' [(<- & x & Hx & ->)|[_ Hx]]%lookup_alter_Some.
      * apply (backed_terms _ x); [done|]. apply (backed_grows d); [done|done|by eapply Hba].
      * apply (backed_grows d); [done|done|by eapply Hba].
    + intros j key u [[[= <- <-] <-]|[_ Hj]]%lookup_insert_Some.
      * split_and!; [done..|]. apply lookup_alter_is_Some. by rewrite Hgk.
      * destruct (Hu j key u Hj) as (? & ? & ? & ?). split_and!; try done. by apply lookup_alter_is_Some.
Qed.
End books.

(** ** Bindings of tasks are as old as their tasks *)
Section bindings.
Context `{ENV : Env}.

Definition fresh_bindings (d0 d : DB) : Prop := ∀ k b,
  task_bindings (registry d) !! k = Some b → task_bindings (registry d0) !! k = Some b ∨
  tasks d0 !! k = None ∧ 0 ≤ tb_provider_budget_minor_units b ∧ 0 ≤ tb_provider_call_limit b.
Definition binds (d0 d : DB) : Prop := grows d0 d ∧ fresh_bindings d0 d.

Lemma keeps_and (I J : DB → Prop) {A} (m : P A) : keeps I m → keeps J m → keeps (λ d, I d ∧ J d) m.
Proof. intros H1 H2 w r w' Hrun [Hi Hj]. split; [by eapply H1|by eapply H2]. Qed.
Lemma keeps_binds d0 {A} (m : P A) :
  keeps (grows d0) m → keeps (fresh_bindings d0) m → keeps (binds d0) m.
Proof. apply keeps_and. Qed.

Lemma bindings_append d0 a : keeps (fresh_bindings d0) (append_event a).
Proof. apply keeps_append_event. intros e. by apply keeps_constraint_write. Qed.
Lemma bindings_command d0 f : keeps (fresh_bindings d0) (append f).
Proof. unfold append. keeps_walk. apply bindings_append. Qed.
Lemma bindings_save d0 p s k g r i : keeps (fresh_bindings d0) (save_idempotent_result p s k g r i).
Proof. unfold save_idempotent_result. keeps_walk. by apply keeps_constraint_write. Qed.

Lemma kernel_writes_bind d0 : kept_but_bindings (binds d0).
Proof.
  destruct (kernel_writes_grow d0).
  constructor; intros; (apply keeps_binds; [eauto|]);
    first [apply bindings_command | apply bindings_save | by apply keeps_write | by apply keeps_constraint_write].
Qed.

Lemma insert_binding_fresh d0 b :
  tasks d0 !! tb_task_id b = None → keeps (fresh_bindings d0) (insert_task_binding b).
Proof.
  intros Hn. apply keeps_constraint_write. intros d Hc Hfr k x Hk. simpl in Hk.
  apply lookup_insert_Some in Hk as [[<- <-]|[_ Hx]]; [|by apply Hfr]. right. by bsplit.
Qed.
Lemma absent_before d0 d k : grows d0 d → tasks d !! k = None → tasks d0 !! k = None.
Proof.
  intros Hg Hn. destruct (tasks d0 !! k) as [t|] eqn:Ht; [|done].
  destruct (task_origin_grows _ _ _ _ Hg Ht) as (t' & ? & _). congruence.
Qed.

Lemma add_task_bindings d0 self bindings project spec actor key run authority :
  post (binds d0) (add_task self bindings project spec actor key run authority) (λ _, binds d0).
Proof.
  destruct (kernel_writes_grow d0) as [_ Hgs _ _ Hgt _ _ _ Hgb _ _ _ _].
  unfold add_task. do 2 (apply post_lift; intros ? _). apply post_seq; [destruct run; keeps_walk|intros r].
  apply post_seq; [apply keeps_pure, actor_id_pure|intros actor_id].
  apply post_lift; intros t _.
  apply post_seq; [apply keeps_pure, spine_pure|intros spine].
  apply post_seq; [apply keeps_pure, check_task_pure|intros canonical].
  cbv zeta. apply post_transaction, post_prior; [done|].
  apply post_read. intros o. apply post_expect. intros g ->. apply post_guard. intros Hproj.
  apply post_lift; intros [] _. apply post_run_of.
  eapply post_weaken with (J := binds d0) (R := λ _ d, binds d0 d ∧ tasks d0 !! ts_task_id t = None);
    [|by intros d [[??]?]|by intros ? ? []].
  apply post_commit.
  - intros d id auth now e at_ [Hi Hb] Ha w u w' Hput Hdb.
    assert (binds d0 (w_db w)) as Hw by (rewrite Hdb; split; [by apply grows_logged|done]).
    pose proof (Hgt _ w _ w' Hput (proj1 Hw)) as Hg'. unfold insert_task in Hput. rinv. bsplit.
    match goal with H : absent _ _ = true |- _ => apply absent_true in H; rename H into Hnone end.
    split; [split; [exact Hg'|exact (proj2 Hw)]|]. by apply (absent_before _ _ _ (proj1 Hw)).
  - intros e. apply keeps_bind.
    { apply keeps_and; [apply keeps_binds; [apply Hgs|apply bindings_save]|by intros ?]. }
    intros _. apply keeps_bind; [|intros _; apply keeps_ret].
    destruct canonical as [c|]; [|apply keeps_ret]. unfold bind_task. apply keeps_bind.
    { apply keeps_and; [apply keeps_binds; [apply grows_command_event|apply bindings_command]|by intros ?]. }
    intros bound w u w' Hput [[Hgr Hfr] Hnone]. pose proof (Hgb _ w _ w' Hput Hgr) as Hg'.
    split; [split; [done|]|done]. by refine (insert_binding_fresh d0 _ _ w u w' Hput Hfr).
Qed.

Lemma sys_op_binds op w r w' : run_sys_op op w = (r, w') → binds (w_db w) (w_db w').
Proof.
  intros Hrun. assert (binds (w_db w) (w_db w)) as H0 by (split; [done|by intros k b ?; left]).
  destruct op as [k op|s op|op]; simpl in Hrun.
  - revert Hrun H0. apply kernel_op_keeps_but; [apply kernel_writes_bind|]. intros.
    apply keeps_of_post; [apply run_kernel_op_atomic|].
    eapply post_bind; [apply add_task_bindings|]. intros ?. by apply post_ret.
  - revert Hrun H0. apply keeps_binds; [apply sched_op_keeps, sched_writes_grow|].
    apply sched_op_keeps. assert (∀ f, elsewhere f → ∀ d, fresh_bindings (w_db w) d → fresh_bindings (w_db w) (f d)) as Hf.
    { intros f Hf d Hd k b. destruct (Hf d) as (_ & _ & _ & _ & _ & ->). apply Hd. }
    constructor; [intros; apply bindings_append|intros f Hel; apply keeps_write, Hf, Hel| |intros; by apply keeps_write].
    intros c f Hel. apply keeps_constraint_write. intros d _. by apply Hf.
  - revert Hrun H0. apply keeps_binds; [apply service_op_keeps, service_writes_grow|]. apply service_op_keeps.
    constructor; [intros; apply bindings_append| |intros c; by apply keeps_constraint_write].
    intros f Hf. apply keeps_write. intros d Hd k b.
    destruct (beside_tables f d Hf) as (_ & _ & _ & _ & _ & _ & _ & _ & _ & _ & _ & ->). apply Hd.
Qed.
End bindings.

(** ** The provider budget of a compiled task *)
Section budget.
Context `{ENV : Env}.

(** The recorded provider uses of every bound task stay within its budget. *)
Definition within_budgets (d : DB) : Prop := ∀ k b, task_bindings (registry d) !! k = Some b →
  sum us_cost (provider_uses d k) ≤ tb_provider_budget_minor_units b ∧
  Z.of_nat (length (provider_uses d k)) ≤ tb_provider_call_limit b.

Lemma provider_uses_same d d' k :
  capability_usage (effects (registry d')) = capability_usage (effects (registry d)) →
  (∀ j u, capability_usage (effects (registry d)) !! j = Some u → provider_use d' k u = provider_use d k u) →
  provider_uses d' k = provider_uses d k.
Proof. intros Hus Hu. unfold provider_uses. rewrite Hus. by apply select_ext. Qed.

(** Whether a use counts depends on what never changes in its grant. *)
Lemma provider_use_terms d d' k u g g' :
  grants (registry d) !! us_grant_id u = Some g → grants (registry d') !! us_grant_id u = Some g' →
  grant_terms g' = grant_terms g → provider_use d' k u = provider_use d k u.
Proof. unfold provider_use, grant_terms. intros -> ->. by intros [= _ _ _ _ -> _ _ _ -> _]. Qed.

Lemma provider_uses_step d d' k : grants_inv d → policy_step d d' →
  provider_uses d' k ≡ₚ provider_uses d k ∨
  ∃ a who p g now, permitted d a who p g ∧ booked d a g d' ∧ ca_task_id a = k ∧
    ca_capability a = value C_PROVIDER_COST ∧ provider_uses d' k ≡ₚ usage_row a now :: provider_uses d k.
Proof.
  intros Hinv Hstep.
  assert (∀ j u, capability_usage (effects (registry d)) !! j = Some u →
    ∃ g, grants (registry d) !! us_grant_id u = Some g) as Hgrant.
  { intros [j key] u Hu. by destruct (gi_usage d Hinv j key u Hu) as (-> & _ & _ & Hg). }
  destruct Hstep as [He|a e approver Hn Ha Hby Hlive Hd|issuer principal g e Hn Hi Hd|j g e now Hgk Hr Hd|a who p g Hp Hbk].
  - left. injection He as _ Hgr Hus. rewrite (provider_uses_same d d'); [done..|].
    intros j u _. unfold provider_use. by rewrite Hgr.
  - left. subst. rewrite (provider_uses_same d); [done|done|done].
  - left. subst. rewrite (provider_uses_same d); [done|done|]. intros j u (x & Hx)%Hgrant.
    apply (provider_use_terms _ _ _ _ x x); [done| |done]. simpl. by rewrite lookup_insert_ne by congruence.
  - left. subst. rewrite (provider_uses_same d); [done|done|]. intros i u (x & Hx)%Hgrant.
    destruct (decide (j = us_grant_id u)) as [->|Hne].
    + apply (provider_use_terms _ _ _ _ x (grant_revoked now x)); [done| |done]. simpl. by rewrite lookup_alter_eq, Hx.
    + apply (provider_use_terms _ _ _ _ x x); [done| |done]. simpl. by rewrite lookup_alter_ne.
  - destruct (bk_writes _ _ _ _ Hbk) as (e & now & _ & _ & _ & Hd'). pose proof (pm_grant _ _ _ _ _ Hp) as Hgk.
    assert (provider_uses d' k ≡ₚ (if provider_use d' k (usage_row a now) then [usage_row a now] else []) ++
      provider_uses d k) as Huses.
    { unfold provider_uses. rewrite Hd' at 1. simpl. rewrite Hd'. simpl.
      rewrite (select_insert _ _ _ _ (bk_new _ _ _ _ Hbk)). apply Permutation_app_head.
      rewrite (select_ext _ (provider_use d k)); [done|]. intros i u (x & Hx)%Hgrant.
      destruct (decide (ca_grant_id a = us_grant_id u)) as [Heq|Hne].
      + apply (provider_use_terms _ _ _ _ x (grant_used (ca_cost a) x)); [done| |done]. simpl.
        by rewrite Heq, lookup_alter_eq, Hx.
      + apply (provider_use_terms _ _ _ _ x x); [done| |done]. simpl. by rewrite lookup_alter_ne. }
    destruct (provider_use d' k (usage_row a now)) eqn:Hc; [right|by left].
    exists a, who, p, g, now. rewrite Hd' in Hc. unfold provider_use in Hc. simpl in Hc.
    rewrite lookup_alter_eq, Hgk in Hc. simpl in Hc. bsplit.
    pose proof (pm_scope _ _ _ _ _ Hp) as Hsc. unfold exact_scope, request_scope in Hsc. injection Hsc as ? ? ? ? ? ? ? ? ?.
    split_and!; [done|done|congruence|congruence|done].
Qed.

Lemma no_provider_uses d k : grants_inv d → tasks d !! k = None → provider_uses d k = [].
Proof.
  intros Hinv Hn. destruct (provider_uses d k) as [|u l] eqn:Hus; [done|].
  assert (u ∈ provider_uses d k) as Hu by (rewrite Hus; by constructor).
  apply elem_of_select in Hu as [_ Hu]. unfold provider_use in Hu.
  destruct (grants _ !! _) as [g|] eqn:Hg; [|done]. bsplit.
  destruct (gi_backed d Hinv _ _ Hg) as (_ & _ & t & _ & Ht & _). congruence.
Qed.

Lemma validated_binding d k x :
  _validated_task_authority_binding d k = Ok x →
  match x with
  | None => task_bindings (registry d) !! k = None
  | Some (authority, b) => task_bindings (registry d) !! k = Some b ∧
      tb_provider_budget_minor_units b = ct_provider_budget_minor_units authority ∧
      tb_provider_call_limit b = ct_provider_call_limit authority
  end.
Proof.
  unfold _validated_task_authority_binding. intros Hv. apply res_bind_ok in Hv as (t & _ & Hv). cbv zeta in Hv.
  destruct (task_bindings _ !! k) as [b|]; [|by rinv]. rinv.
  match goal with x : ProjectSpec * ProgramSpec * CompiledGoalAuthority |- _ => destruct x as [[project program] goal] end.
  rinv. match goal with H : binding_ok _ _ _ _ = true |- _ => unfold binding_ok in H; bsplit end. done.
Qed.

Lemma within_budgets_step d d' :
  grants_inv d → within_budgets d → policy_step d d' → binds d d' → within_budgets d'.
Proof.
  intros Hinv Hb Hstep [Hg Hnew] k b Hkb.
  destruct (provider_uses_step d d' k Hinv Hstep) as [He|(a & who & p & g & now & Hp & Hbk & Htask & Hcap & He)];
    rewrite He; destruct (Hnew k b Hkb) as [Hold|(Hn & ? & ?)].
  - by apply Hb.
  - by rewrite no_provider_uses.
  - pose proof (bk_budget _ _ _ _ Hbk Hcap) as Hal. unfold budget_allows in Hal. rewrite Htask in Hal.
    destruct (_validated_task_authority_binding d k) as [x|] eqn:Hv; [|done]. apply validated_binding in Hv.
    destruct x as [[authority b']|]; [|congruence]. destruct Hv as (Hb' & Hx & Hy).
    assert (b' = b) as -> by congruence. simpl. lia.
  - destruct (pm_task _ _ _ _ _ Hp) as (t & _ & _ & [Ht _ _ _ _ _] & _). congruence.
Qed.
End budget.

(** ** Through any commands *)
Section theorems.
Context `{ENV : Env}.

(** A database in which nothing has been approved, granted or used. *)
Record ungranted (d : DB) : Prop := {
  ug_approvals : approvals (registry d) = ∅; ug_grants : grants (registry d) = ∅;
  ug_usage : capability_usage (effects (registry d)) = ∅ }.

Lemma ungranted_inv d : ungranted d → grants_inv d.
Proof.
  intros [Ha Hg Hu]. constructor; intros *; rewrite ?Ha, ?Hg, ?Hu, lookup_empty; discriminate.
Qed.
Lemma grants_inv_ops ops w : ungranted (w_db w) → grants_inv (w_db (run_sys_ops ops w)).
Proof.
  intros Hu. apply (run_sys_ops_keeps (λ _, True) grants_inv ops w); [|by apply Forall_true|by apply ungranted_inv].
  intros op _ w0 r w1 Hrun Hi. eapply grants_inv_step; [exact Hi|by eapply sys_op_step|].
  by apply (sys_op_grows (w_db w0) op w0 r w1 Hrun).
Qed.

(** *** Who approved and who issued *)
Lemma approvals_step d d' : policy_step d d' → approvals (registry d) ⊆ approvals (registry d').
Proof.
  intros [[= -> _ _]|a e approver Hn _ _ _ ->|? ? g e _ _ ->|k g e now _ _ ->|a who p g _ Hb];
    [done|by apply insert_subseteq|done..|].
  destruct (bk_writes _ _ _ _ Hb) as (ev & now & _ & _ & _ & ->). done.
Qed.
Lemma approvals_stay ops w : approvals (registry (w_db w)) ⊆ approvals (registry (w_db (run_sys_ops ops w))).
Proof.
  apply (run_sys_ops_keeps (λ _, True) (λ d, approvals (registry (w_db w)) ⊆ approvals (registry d)) ops w);
    [|by apply Forall_true|done].
  intros op _ w0 r w1 Hrun Hsub. etrans; [exact Hsub|]. by eapply approvals_step, sys_op_step.
Qed.

(** The row was written while its approver had a live session with the owner role. *)
Lemma approval_written ops w i a :
  approvals (registry (w_db w)) = ∅ → approvals (registry (w_db (run_sys_ops ops w))) !! i = Some a →
  ∃ approver, av_approver a = Some approver ∧
    brought_about ops w (λ d, approvals (registry d) !! i = Some a) (λ d, live_owner d approver).
Proof.
  intros Hw Ha.
  assert (brought_about ops w (λ d, is_Some (approvals (registry d) !! i))
    (λ d, ∃ approver, av_approver a = Some approver ∧ live_owner d approver))
    as (pre & op & post & -> & Hno & [x Hx] & approver & Hby & Hlive).
  { apply brought_about_by; [intros d; apply _|by rewrite Hw, lookup_empty; intros []|by eexists|].
    intros pre op post -> before Hno [x Hx]. rewrite run_sys_ops_app in Ha. simpl in Ha.
    pose proof (lookup_weaken _ _ _ _ Hx (approvals_stay post _)) as Hx'. fold before in Ha.
    rewrite Ha in Hx'. injection Hx' as <-.
    destruct (run_sys_op op before) as [r w'] eqn:Hrun. simpl in *. apply sys_op_step in Hrun.
    destruct Hrun as [[= He _ _]|b e approver Hn Hok Hby Hlive Hd|? ? g e _ _ Hd|k g e now _ _ Hd|b who p g _ Hb].
    1: rewrite He in Hx. 2: exists approver. 3, 4: rewrite Hd in Hx; simpl in Hx.
    5: destruct (bk_writes _ _ _ _ Hb) as (ev & now & _ & _ & _ & Hd); rewrite Hd in Hx; simpl in Hx.
    1, 3, 4, 5: by destruct Hno; eexists.
    rewrite Hd in Hx. simpl in Hx. apply lookup_insert_Some in Hx as [[_ <-]|[_ Hx]]; [done|]. by destruct Hno; eexists. }
  rewrite run_sys_ops_app in Ha. simpl in Ha.
  pose proof (lookup_weaken _ _ _ _ Hx (approvals_stay post _)) as Hx'. rewrite Ha in Hx'. injection Hx' as <-.
  exists approver. split; [done|]. exists pre, op, post. split_and!; [done|].
  split_and!; [intros Hy; by destruct Hno; eexists|done|done].
Qed.

(** The grant was issued while its issuer had a live session with the owner role. *)
Lemma grant_issued ops w k g :
  grants (registry (w_db w)) = ∅ → grants (registry (w_db (run_sys_ops ops w))) !! k = Some g →
  brought_about ops w (λ d, grant_terms <$> grants (registry d) !! k = Some (grant_terms g))
    (λ d, live_owner d (gr_issuer g)).
Proof.
  intros Hw Hg. apply brought_about_by; [intros d; apply _|by rewrite Hw, lookup_empty|by rewrite Hg|].
  intros pre op post _ before Hno Hyes. destruct (run_sys_op op before) as [r w'] eqn:Hrun. simpl in *.
  apply sys_op_step in Hrun.
  destruct Hrun as [[= _ He _]|b e approver _ _ _ _ Hd|issuer principal x e _ Hi Hd|j x e now Hx _ Hd|b who p x Hp Hb].
  - by rewrite He in Hyes.
  - by rewrite Hd in Hyes.
  - rewrite Hd in Hyes. simpl in Hyes. destruct (decide (gr_id x = k)) as [<-|]; [|by rewrite lookup_insert_ne in Hyes].
    rewrite lookup_insert_eq in Hyes. assert (gr_issuer g = gr_issuer x) as -> by (unfold grant_terms in Hyes; simpl in Hyes; congruence).
    destruct (is_issuer _ _ _ _ Hi) as [Hlive ->]. by eexists.
  - destruct Hno. rewrite Hd in Hyes. simpl in Hyes. destruct (decide (j = k)) as [<-|]; [|by rewrite lookup_alter_ne in Hyes].
    by rewrite lookup_alter_eq, Hx in Hyes; rewrite Hx.
  - destruct Hno. destruct (bk_writes _ _ _ _ Hb) as (ev & now & _ & _ & _ & Hd). rewrite Hd in Hyes. simpl in Hyes.
    pose proof (pm_grant _ _ _ _ _ Hp) as Hx.
    destruct (decide (ca_grant_id b = k)) as [<-|]; [|by rewrite lookup_alter_ne in Hyes].
    by rewrite lookup_alter_eq, Hx in Hyes; rewrite Hx.
Qed.

(** C5: the books of every grant balance.  Through any sequence of commands, the
    use count and the cost of a grant are the number and the sum of its recorded
    uses, and neither exceeds what the grant allows. *)
Theorem grant_books_balance ops w : ungranted (w_db w) →
  ∀ k g, grants (registry (w_db (run_sys_ops ops w))) !! k = Some g → balanced (w_db (run_sys_ops ops w)) k g.
Proof. intros Hu. apply gi_books. by apply grants_inv_ops. Qed.

(** C8: every grant is backed.  Through any sequence of commands, a grant names an
    approval that somebody other than the requester gave to exactly this
    principal, task, capability, action, resource, request and policy, which it
    does not outlive; the contract of the task and its goal allow it; it is no
    promotion of memory or rules, and it costs nothing unless it is for a
    provider.  Whoever approved is the one who issued, and had a live session with
    the role of an owner both when a command wrote the approval and when a command
    issued the grant. *)
Theorem grants_are_backed ops w : ungranted (w_db w) →
  ∀ k g, grants (registry (w_db (run_sys_ops ops w))) !! k = Some g →
  let d := w_db (run_sys_ops ops w) in
  backed d g ∧ gr_issuer g ≠ gr_principal g ∧
  (∃ i a, gr_approval_id g = Some i ∧ approvals (registry d) !! i = Some a ∧ granted_on a g ∧
     brought_about ops w (λ d, approvals (registry d) !! i = Some a) (λ d, live_owner d (gr_issuer g))) ∧
  brought_about ops w (λ d, grant_terms <$> grants (registry d) !! k = Some (grant_terms g))
    (λ d, live_owner d (gr_issuer g)).
Proof.
  intros Hu k g Hg d. pose proof (gi_backed _ (grants_inv_ops ops w Hu) k g Hg) as Hb. fold d in Hb.
  destruct Hb as [(i & a & Hi & Ha & (x & Hx & Hne) & Hon) Hrest].
  split; [split; [by exists i, a; split_and!; [..|exists x|]|exact Hrest]|].
  destruct (approval_written ops w i a (ug_approvals _ Hu) Ha) as (approver & Hby & Hwhen).
  pose proof (gn_issuer _ _ Hon) as Hiss. rewrite Hiss in Hby, Hx. injection Hby as <-. injection Hx as <-.
  split_and!; [by rewrite <- (gn_principal _ _ Hon)|by exists i, a|]. apply grant_issued; [apply Hu|done].
Qed.

(** C18: a compiled task stays within its provider budget.  Through any sequence of
    commands, the provider uses recorded for a task with a compiled authority, over
    all its grants, expired and revoked ones included, never cost more than its
    budget nor exceed its call limit. *)
Theorem provider_budget_holds ops w :
  fresh (w_db w) → ungranted (w_db w) → within_budgets (w_db (run_sys_ops ops w)).
Proof.
  intros Hf Hu. apply (run_sys_ops_keeps (λ _, True) (λ d, grants_inv d ∧ within_budgets d) ops w);
    [|by apply Forall_true|].
  - intros op _ w0 r w1 Hrun [Hi Hb]. pose proof (sys_op_step _ _ _ _ Hrun) as Hstep.
    pose proof (sys_op_binds _ _ _ _ Hrun) as Hbind. split; [|by eapply within_budgets_step].
    eapply grants_inv_step; [exact Hi|done|apply Hbind].
  - split; [by apply ungranted_inv|]. intros k b. rewrite (fr_task_bindings _ Hf), lookup_empty. discriminate.
Qed.

(** *** What stays *)
Definition used_up (d : DB) (k : string) : Prop :=
  ∃ g, grants (registry d) !! k = Some g ∧ gr_revoked_at g ≠ None.
Definition recorded_use (d : DB) (k key : string) (u : Usage) : Prop :=
  capability_usage (effects (registry d)) !! (k, key) = Some u.

Lemma used_up_step d d' k : used_up d k → policy_step d d' → used_up d' k.
Proof.
  intros (g & Hg & Hr) [He|a e approver Hn Ha Hby Hlive Hd|issuer principal x e Hn Hi Hd|j x e now Hx Hrx Hd|a who p x Hp Hbk];
    unfold used_up.
  - injection He as _ -> _. by exists g.
  - subst. by exists g.
  - subst. exists g. split; [|done]. simpl. rewrite lookup_insert_ne; [done|]. congruence.
  - subst. simpl. destruct (decide (j = k)) as [->|]; [rewrite lookup_alter_eq|rewrite lookup_alter_ne by done; by exists g].
    rewrite Hg. by eexists.
  - destruct (bk_writes _ _ _ _ Hbk) as (e & now & _ & _ & _ & ->). simpl.
    destruct (decide (ca_grant_id a = k)) as [<-|]; [rewrite lookup_alter_eq|rewrite lookup_alter_ne by done; by exists g].
    rewrite Hg. by eexists.
Qed.
Lemma recorded_use_step d d' k key u : recorded_use d k key u → policy_step d d' → recorded_use d' k key u.
Proof.
  unfold recorded_use. intros Hu [He|a e approver Hn Ha Hby Hlive Hd|issuer principal x e Hn Hi Hd|j x e now Hx Hrx Hd|a who p x Hp Hbk];
    [by injection He as _ _ ->|by subst..|].
  destruct (bk_writes _ _ _ _ Hbk) as (e & now & _ & _ & _ & ->). simpl.
  pose proof (bk_new _ _ _ _ Hbk). rewrite lookup_insert_ne; [done|]. congruence.
Qed.
Lemma stays (F : DB → Prop) ops w :
  (∀ d d', F d → policy_step d d' → F d') → F (w_db w) → F (w_db (run_sys_ops ops w)).
Proof.
  intros HF. apply (run_sys_ops_keeps (λ _, True) F ops w); [|by apply Forall_true].
  intros op _ w0 r w1 Hrun Hi. by eapply HF, sys_op_step.
Qed.

(** C17: a revocation is final.  Once [revoke_grant] has answered, no request on the
    grant is ever accepted again, whoever makes it and whatever commands come
    between: not by a session, and not for a persisted effect. *)
Theorem revocation_is_final grant_id actor w r w1 :
  revoke_grant grant_id actor w = (Ok r, w1) →
  ∀ ops a who use w2, ca_grant_id a = strip grant_id →
  consume_in_transaction a who (run_sys_ops ops w1) ≠ (Ok use, w2).
Proof.
  intros Hrun ops a who use w2 Hid Hc. apply consume_ok in Hc as (p & g & Hp & _).
  assert (used_up (w_db (run_sys_ops ops w1)) (strip grant_id)) as (x & Hx & Hr).
  { apply (stays (λ d, used_up d (strip grant_id))); [intros d d'; apply used_up_step|].
    apply revoke_grant_ok in Hrun as (_ & g0 & Hg0 & [[Hr ->]|[_ (e & now & ->)]]); [by exists g0|].
    unfold used_up. simpl. rewrite lookup_alter_eq, Hg0. by eexists. }
  pose proof (pm_grant _ _ _ _ _ Hp) as Hg. rewrite Hid, Hx in Hg. injection Hg as ->.
  by destruct (pm_force _ _ _ _ _ Hp) as [? _].
Qed.

(** A request is authorised and booked.  When [consume] answers, the caller had
    a live session of the principal that the grant names, with a role that may
    execute the capability; the grant matches the request in every column, is in
    force and not revoked; the task and its run are in an executable state and
    their contract allows the resource; every decision gate of the request is
    approved; a worker holds the task and the fenced resource.  Then either the
    request repeats a use on record and nothing changes, or there was room in the
    grant and in the task's budget, and exactly one use, its booking and its event
    are written. *)
Theorem consume_is_authorised principal args w use w' :
  consume principal args w = (Ok use, w') →
  ∃ a p g, consume_args args = Ok a ∧ permitted (w_db w) a (BySession principal) p g ∧
    ((cu_replayed use = true ∧ w_db w' = w_db w ∧
       ∃ u, recorded_use (w_db w) (ca_grant_id a) (ca_idempotency_key a) u ∧ same_use a u = true) ∨
     (cu_replayed use = false ∧ booked (w_db w) a g (w_db w'))).
Proof.
  unfold consume. intros Hrun. rinv.
  match goal with H : consume_args _ = Ok ?x |- _ => exists x end.
  apply consume_ok in Hrun as (p & g & Hp & [(u & Hu & Hs & -> & Hdb)|[Hb Hr]]); exists p, g; split_and!; try done; [left|by right].
  split_and!; [done..|by exists u].
Qed.

(** C15: a request is booked at most once.  After a consumption that was answered,
    any later request on the same grant under the same key is either refused or
    the same request again, answered from the record and without a change,
    whatever commands come between. *)
Theorem consume_happens_once a who use w w1 :
  consume_in_transaction a who w = (Ok use, w1) →
  ∀ ops a' who' use' w', let w2 := run_sys_ops ops w1 in
  ca_grant_id a' = ca_grant_id a → ca_idempotency_key a' = ca_idempotency_key a →
  consume_in_transaction a' who' w2 = (Ok use', w') →
  cu_replayed use' = true ∧ w_db w' = w_db w2 ∧ ca_request_digest a' = ca_request_digest a ∧
  ca_cost a' = ca_cost a ∧ ca_effect_id a' = ca_effect_id a.
Proof.
  intros Hrun ops a' who' use' w' w2 Hid Hkey Hrun'.
  assert (∃ u, recorded_use (w_db w1) (ca_grant_id a) (ca_idempotency_key a) u ∧ same_use a u = true) as (u & Hu & Hs).
  { apply consume_ok in Hrun as (p & g & _ & [(u & Hu & Hs & _ & ->)|[Hb _]]); [by exists u|].
    destruct (bk_writes _ _ _ _ Hb) as (e & now & _ & _ & _ & ->). exists (usage_row a now). split.
    - unfold recorded_use. simpl. apply lookup_insert_eq.
    - unfold same_use. simpl. rewrite !bool_decide_eq_true_2, Z.eqb_refl by done. done. }
  apply (stays (λ d, recorded_use d (ca_grant_id a) (ca_idempotency_key a) u) ops w1) in Hu;
    [|intros d d'; apply recorded_use_step]. fold w2 in Hu. unfold recorded_use in Hu. rewrite <- Hid, <- Hkey in Hu.
  apply consume_ok in Hrun' as (p & g & _ & [(u' & Hu' & Hs' & -> & Hdb)|[Hb _]]).
  - rewrite Hu in Hu'. injection Hu' as <-. unfold same_use in Hs, Hs'. bsplit. split_and!; [done|done|congruence..].
  - pose proof (bk_new _ _ _ _ Hb). congruence.
Qed.
End theorems.

(** ** Witnesses: a grant of the organisation of [Bench] *)
Module Examples.
Import Toy Sample Bench.

Definition spent_ops : list SysOp := granted_ops ++ [use1].
Local Notation spent := (run_sys_ops spent_ops genesis).
Lemma genesis_ungranted : ungranted (w_db genesis).
Proof. by constructor. Qed.

(** The grant after its only use, and the provider uses of the task. *)
Lemma spent_grant :
  match grants (registry (w_db spent)) !! "gr1", task_bindings (registry (w_db spent)) !! "t1" with
  | Some g, Some b => (gr_used_count g =? 1) && (gr_cost_used g =? 60) && (gr_max_uses g =? 1)
      && (tb_provider_budget_minor_units b =? 100) && (Z.of_nat (length (provider_uses (w_db spent) "t1")) =? 1)
  | _, _ => false
  end = true.
Proof. by_eval. Qed.

Lemma grant_books_balance_witness :
  ∃ g, grants (registry (w_db spent)) !! "gr1" = Some g ∧ gr_used_count g = 1 ∧
    1 = Z.of_nat (length (uses (w_db spent) "gr1")) ∧ 60 = sum us_cost (uses (w_db spent) "gr1").
Proof.
  pose proof spent_grant as Hs.
  destruct (grants (registry (w_db spent)) !! "gr1") as [g|] eqn:Hg; [|discriminate Hs].
  destruct (task_bindings _ !! _) as [b|]; [|discriminate Hs]. bsplit.
  destruct (grant_books_balance spent_ops genesis genesis_ungranted "gr1" g Hg) as [Hused Hcost _].
  exists g. split_and!; [reflexivity|assumption|rewrite <- Hused; symmetry; assumption|rewrite <- Hcost; symmetry; assumption].
Defined.

Lemma grants_are_backed_witness :
  ∃ g a, grants (registry (w_db spent)) !! "gr1" = Some g ∧ granted_on a g ∧ approval_ok a ∧
    brought_about spent_ops genesis (λ d, grant_terms <$> grants (registry d) !! "gr1" = Some (grant_terms g))
      (λ d, live_owner d (gr_issuer g)).
Proof.
  pose proof spent_grant as Hs.
  destruct (grants (registry (w_db spent)) !! "gr1") as [g|] eqn:Hg; [|discriminate Hs].
  destruct (grants_are_backed spent_ops genesis genesis_ungranted "gr1" g Hg)
    as (((i & a & _ & _ & Ho & Ha) & _) & _ & _ & Hwhen).
  exists g, a. split_and!; [reflexivity|exact Ha|exact Ho|exact Hwhen].
Defined.

Lemma provider_budget_holds_witness :
  ∃ b, task_bindings (registry (w_db spent)) !! "t1" = Some b ∧
    sum us_cost (provider_uses (w_db spent) "t1") ≤ tb_provider_budget_minor_units b.
Proof.
  pose proof spent_grant as Hs.
  destruct (grants (registry (w_db spent)) !! "gr1") as [g|]; [|discriminate Hs].
  destruct (task_bindings (registry (w_db spent)) !! "t1") as [b|] eqn:Hb; [|discriminate Hs].
  exists b. split; [reflexivity|].
  exact (proj1 (provider_budget_holds spent_ops genesis genesis_fresh genesis_ungranted "t1" b Hb)).
Defined.

Local Notation granted := (run_sys_ops granted_ops genesis).
Lemma use_request_clean : consume_args use_request = Ok use_request.
Proof. vm_cast_no_check (eq_refl (Ok use_request)). Qed.
Lemma consume_is_authorised_witness :
  ∃ use w' p g, consume alice_vp use_request granted = (Ok use, w') ∧ cu_replayed use = false ∧
    permitted (w_db granted) use_request (BySession alice_vp) p g ∧ booked (w_db granted) use_request g (w_db w').
Proof.
  destruct (run_succeeds (consume alice_vp use_request) granted ltac:(by_eval)) as (use & w' & Hrun).
  pose proof (run_shows (consume alice_vp use_request) granted (λ u _, negb (cu_replayed u)) use w' ltac:(by_eval) Hrun) as Hnew.
  destruct (consume_is_authorised _ _ _ _ _ Hrun) as (a & p & g & Ha & Hp & Hor).
  rewrite use_request_clean in Ha. injection Ha as <-. exists use, w', p, g.
  cbv beta in Hnew. destruct Hor as [(Hr & _)|[Hr Hb]]; [rewrite Hr in Hnew; discriminate Hnew|].
  split_and!; [exact Hrun|exact Hr|exact Hp|exact Hb].
Defined.

Lemma consume_happens_once_witness :
  ∃ use w1 use' w2, consume_in_transaction use_request (BySession alice_vp) granted = (Ok use, w1) ∧
    consume_in_transaction use_request (BySession alice_vp) w1 = (Ok use', w2) ∧
    cu_replayed use' = true ∧ w_db w2 = w_db w1.
Proof.
  assert (is_ok ((_ ← consume_in_transaction use_request (BySession alice_vp);
                  consume_in_transaction use_request (BySession alice_vp)) granted).1 = true) as Hok by by_eval.
  apply run_succeeds in Hok as (use' & w2 & Hrun). apply bind_ok in Hrun as (use & w1 & H1 & H2).
  destruct (consume_happens_once _ _ _ _ _ H1 [] _ _ _ _ eq_refl eq_refl H2) as (Hr & Hdb & _).
  exists use, w1, use', w2. split_and!; [exact H1|exact H2|exact Hr|exact Hdb].
Defined.

Lemma revocation_is_final_witness :
  ∃ r w1, revoke_grant "gr1" olga_vp granted = (Ok r, w1) ∧
    ∀ use w2, consume_in_transaction use_request (BySession alice_vp) w1 ≠ (Ok use, w2).
Proof.
  destruct (run_succeeds (revoke_grant "gr1" olga_vp) granted ltac:(by_eval)) as (r & w1 & Hrun).
  exists r, w1. split; [exact Hrun|]. intros use w2.
  exact (revocation_is_final _ _ _ _ _ Hrun [] use_request (BySession alice_vp) use w2 eq_refl).
Defined.
End Examples.
