(* ===== verification/Claims.v ===== *)
(** * What evidence guarantees

    The theorems about [Evidence]: what every recorded claim rests on, and what
    that means for the tasks that were delivered on it. *)

From S2P Require Import Prelude PyStr Json Enums StateMachine Contracts Scope Db Store Identity.
From S2P Require Import Leases Scheduler Authority Gates Registries Policy Integration Evidence Observations.
From S2P Require Import Adapters Workflow Services Kernel Replay System Bench Commands Tables Parts.
Import Evidence EvidenceOps.

Local Open Scope string_scope.
Local Open Scope list_scope.
Local Open Scope Z_scope.

Definition claims_part (d : DB) := (evidence_claims (registry d), artifacts (effects (registry d))).

Section claims.
Context `{ENV : Env}.

Lemma claims_made : made_of claims_part [].
Proof. split; [|done]. intros d d' _ Hs. unfold service_tables in Hs. unfold claims_part. congruence. Qed.

(** The passing verdicts and the promotions of memory and rules need a second person;
    that no verdict is required, or that the work failed, its producer may record too. *)
Definition needs_independence (c : EvidenceClaim) : Prop :=
  ec_evaluator_verdict c ∈ _EVALUATOR_VERDICTS ∨
  ec_evidence_state c ∈ [ES_DURABLE_MEMORY_PROMOTION; ES_ACTIVE_RULE_PROMOTION].

(** What a claim rests on: artifacts of its task of the kinds that its state
    needs, from an environment that can prove it, and where [needs_independence] asks
    for it, judged by someone who produced none of them. *)
Record justified (d : DB) (c : EvidenceClaim) (refs : list string) (rows : list Artifact) : Prop := {
  js_refs : ec_artifact_refs c = jstrs refs ∧ refs ≠ [];
  js_rows : Forall2 (λ r a, artifacts (effects (registry d)) !! r = Some a) refs rows;
  js_task : Forall (λ a, at_task_id a = ec_task_id c) rows;
  js_kinds : kinds_suffice (ec_evidence_state c) (at_kind <$> rows) = true;
  js_environment : ∃ o, classify_evidence_environment (ec_environment c) = Ok o ∧
    (pc_reality o = Non_real → ec_evidence_state c ∈ [ES_STRUCTURE; ES_RUNTIME]);
  js_independent : needs_independence c → ec_verifier_principal_id c ∉ (at_producer_principal_id <$> rows) }.

Lemma found_artifacts_all d refs :
  length (found_artifacts d refs) = length refs →
  Forall2 (λ r a, artifacts (effects (registry d)) !! r = Some a) refs (found_artifacts d refs).
Proof. apply omap_full. Qed.

Lemma open_task_ok task x w w' :
  _task_scope task w = (Ok x, w') →
  w' = w ∧ tasks (w_db w) !! task = Some x.1 ∧ t_state x.1 ∉ TERMINAL_TASK_STATES.
Proof. unfold _task_scope. intros Hrun. rinv. unfold memb in *. by bsplit. Qed.

Lemma register_artifact_ok self args producer i w r w' :
  register_artifact self args producer i w = (Ok r, w') →
  w_db w' = w_db w ∨
  ∃ a e, artifacts (effects (registry (w_db w))) !! at_id a = None ∧
    w_db w' = set_artifacts <[at_id a := a]> (logged [e] (w_db w)).
Proof.
  unfold register_artifact. intros Hrun. rinv.
  match goal with H : match ?o with _ => _ end _ = (Ok r, _) |- _ => destruct o as [old|]; rinv; same_db; [left; congruence|right] end.
  match goal with p : TaskRow * string |- _ => destruct p as [task run_id] end. rinv.
  match goal with H : append_event _ _ = _ |- _ => pose proof (append_logged _ _ _ _ H) as (auth & now & Ha & Hdb) end.
  match goal with H : _task_scope _ _ = _ |- _ => apply open_task_ok in H as (-> & _) end.
  unfold insert_artifact in *. rinv. same_db. bsplit. cbn [tick drawn set_db w_db] in *.
  match goal with H : absent _ _ = true |- _ => apply absent_true in H; rename H into Hnone end.
  repeat match goal with H : w_db _ = w_db _ |- _ => rewrite H in *; clear H end. rewrite Hdb in *.
  by eexists (artifact_row _ _ _ _ _ _), _.
Qed.

(** What the registry checks of a claim. *)
Record well_claimed (d : DB) (verifier : VerifiedPrincipal) (c : EvidenceClaim) : Prop := {
  cb_verifier : ec_verifier_principal_id c = vp_principal_id verifier ∧
    (ec_evaluator_verdict c ∈ _EVALUATOR_VERDICTS → live_as d verifier R_EVALUATOR);
  cb_task : ∃ t, tasks d !! ec_task_id c = Some t ∧ t_state t ∉ TERMINAL_TASK_STATES;
  cb_justified : ∃ refs rows, justified d c refs rows }.

Lemma provenance_ok state environment verdict verifier rows :
  _enforce_provenance state environment verdict verifier rows = Ok tt →
  (∃ o, classify_evidence_environment environment = Ok o ∧
    (pc_reality o = Non_real → state ∈ [ES_STRUCTURE; ES_RUNTIME])) ∧
  (verdict ∈ _EVALUATOR_VERDICTS → R_EVALUATOR ∈ pr_roles verifier) ∧
  (verdict ∈ _EVALUATOR_VERDICTS ∨ state ∈ [ES_DURABLE_MEMORY_PROMOTION; ES_ACTIVE_RULE_PROMOTION] →
    pr_id verifier ∉ (at_producer_principal_id <$> rows)) ∧
  kinds_suffice state (at_kind <$> rows) = true.
Proof.
  unfold _enforce_provenance. intros Hrun. apply res_bind_ok in Hrun as (o & Ho & Hrun). cbv zeta in Hrun.
  apply res_bind_ok in Hrun as (? & Henv%require_ok & Hrun). apply res_bind_ok in Hrun as (? & _ & Hrun).
  apply res_bind_ok in Hrun as ([] & Hrole & Hrun). apply res_bind_ok in Hrun as (? & Hind%require_ok & Hrun).
  apply require_ok in Hrun. split_and!; try done.
  - exists o. split; [done|]. intros Hr. rewrite Hr in Henv. apply negb_true_iff in Henv. simpl in Henv.
    apply negb_false_iff, memb_true in Henv. done.
  - intros Hv. rewrite (proj2 (memb_true _ _) Hv) in Hrole. unfold _require_roles in Hrole. rinv.
    simpl in Hrole. rewrite andb_true_r in Hrole. by apply memb_true.
  - intros Hneed Hin. apply negb_true_iff in Hind. rewrite (proj2 (memb_true _ _) Hin), andb_true_r in Hind.
    apply orb_false_iff in Hind as [H1 H2]. destruct Hneed as [Hn|Hn]; apply memb_true in Hn; congruence.
Qed.

Lemma record_claim_ok self args verifier i w c w' :
  record_claim self args verifier i w = (Ok c, w') →
  evidence_claims (registry (w_db w)) !! ec_id c = None ∧ well_claimed (w_db w) verifier c ∧
  ∃ e, ev_aggregate_type e = "evidence" ∧ ev_aggregate_id e = ec_id c ∧
    ev_payload e = JObj (claim_payload c) ∧
    w_db w' = set_evidence_claims <[ec_id c := c]> (logged [e] (w_db w)).
Proof.
  unfold record_claim. intros Hrun. rinv.
  match goal with p : TaskRow * string |- _ => destruct p as [task run_id] end. rinv.
  match goal with H : append_event _ _ = _ |- _ => pose proof (append_logged _ _ _ _ H) as (auth & now & Ha & Hdb) end.
  match goal with H : _task_scope _ _ = _ |- _ => apply open_task_ok in H as (-> & Htask & Hopen) end.
  match goal with H : _enforce_provenance _ _ _ _ _ = Ok ?u |- _ => destruct u; rename H into Hprov end.
  unfold insert_evidence_claim in *. rinv. same_db. bsplit. cbn [tick drawn set_db w_db] in *.
  match goal with H : absent _ _ = true |- _ => apply absent_true in H; rename H into Hnone end.
  match goal with H : verify_in_transaction _ _ = (Ok ?x, _) |- _ => rename x into seen; unfold verify_in_transaction in H;
    pose proof (λ role, verify_live_as _ _ role _ _ _ H) as Hlive;
    apply verify_ok in H as (_ & ? & ? & _ & _ & _ & _ & Hid & _) end.
  match goal with H : claim_args _ = Ok ?x |- _ => rename x into cl; unfold claim_args in H; rinv; simpl in * end.
  repeat match goal with H : w_db _ = w_db _ |- _ => rewrite H in *; clear H end. rewrite Hdb in *.
  apply provenance_ok in Hprov as (Henv & Heval & Hind & Hkinds).
  match goal with H : forallb _ _ = true |- _ => rename H into Hrows; rewrite forallb_In in Hrows end.
  split; [exact Hnone|]. split; [|eexists; split_and!; [apply Ha|apply Ha|apply Ha|done]].
  constructor; simpl.
  - split; [done|]. intros Hv. by apply Hlive, Heval.
  - by exists task.
  - eexists _, _. constructor; simpl; [split; [done|]|by apply found_artifacts_all| |exact Hkinds|exact Henv|exact Hind].
    + intros Hnil. bsplit. done.
    + apply Forall_forall. intros a Ha'. by apply Hrows, bool_decide_eq_true in Ha'.
Qed.
End claims.

(** ** The claims of a database through any command *)
Section steps.
Context `{ENV : Env}.

Inductive claims_step (d d' : DB) : Prop :=
  | cs_other : claims_part d' = claims_part d → claims_step d d'
  | cs_artifact a e : artifacts (effects (registry d)) !! at_id a = None →
      d' = set_artifacts <[at_id a := a]> (logged [e] d) → claims_step d d'
  | cs_claim verifier c e : evidence_claims (registry d) !! ec_id c = None → well_claimed d verifier c →
      ev_aggregate_type e = "evidence" → ev_aggregate_id e = ec_id c → ev_payload e = JObj (claim_payload c) →
      d' = set_evidence_claims <[ec_id c := c]> (logged [e] d) → claims_step d d'.

Lemma evidence_op_step self op w r w' :
  run_evidence_op self op w = (Ok r, w') → claims_step (w_db w) (w_db w').
Proof.
  destruct op; simpl; unfold ignore; intros Hrun; rinv.
  - match goal with H : register_artifact _ _ _ _ _ = _ |- _ => apply register_artifact_ok in H as
      [Hdb|(a & e & Hn & Hdb)] end; [apply cs_other; congruence|by eapply cs_artifact].
  - match goal with H : record_claim _ _ _ _ _ = _ |- _ => apply record_claim_ok in H as
      (Hn & Hc & e & ? & ? & ? & Hdb) end. by eapply cs_claim.
  - match goal with H : require_task_evidence _ _ = _ |- _ => unfold require_task_evidence in H end. rinv.
    match goal with H : assess_task _ ?w0 = _ |- _ => pose proof (pure_assess task_id w0) as Hp; rewrite H in Hp; simpl in Hp end.
    apply cs_other. by rewrite Hp.
Qed.

Lemma sys_op_claims op w r w' : run_sys_op op w = (r, w') → claims_step (w_db w) (w_db w').
Proof.
  intros Hrun. destruct r as [u|e]; [|apply failed_commands_change_nothing in Hrun as ->; by apply cs_other].
  destruct (sys_op_apart claims_part [] claims_made V_evidence op w (Ok u) w') as [Hp|(so & -> & [Hso|[]])];
    [spares|done|done|exact Hrun|by apply cs_other| |done].
  destruct so; try done. by eapply evidence_op_step.
Qed.
End steps.

(** ** Every recorded claim *)
Section claims_inv.
Context `{ENV : Env}.

(** The event that the claim was recorded with. *)
Definition claimed (d : DB) (c : EvidenceClaim) : Prop :=
  ∃ e, e ∈ events d ∧ ev_aggregate_type e = "evidence" ∧ ev_aggregate_id e = ec_id c ∧
    ev_payload e = JObj (claim_payload c).
Definition claims_inv (d : DB) : Prop := ∀ k c, evidence_claims (registry d) !! k = Some c →
  ec_id c = k ∧ (∃ refs rows, justified d c refs rows) ∧ claimed d c.

Lemma justified_grows d d' c refs rows :
  artifacts (effects (registry d)) ⊆ artifacts (effects (registry d')) → justified d c refs rows → justified d' c refs rows.
Proof.
  intros Ha []. constructor; try done. eapply Forall2_impl; [eassumption|]. intros r a Hr. simpl in *. by apply (lookup_weaken _ _ _ _ Hr).
Qed.
Lemma claimed_grows d d' c : grows d d' → claimed d c → claimed d' c.
Proof.
  intros Hg (e & He & Hrest). exists e. split; [|done]. destruct (gw_events _ _ Hg) as [l ->]. apply elem_of_app. by left.
Qed.

Lemma claims_inv_step d d' : claims_step d d' → grows d d' → claims_inv d → claims_inv d'.
Proof.
  intros Hstep Hg Hi.
  assert (∀ c, artifacts (effects (registry d)) ⊆ artifacts (effects (registry d')) →
    (∃ refs rows, justified d c refs rows) ∧ claimed d c → (∃ refs rows, justified d' c refs rows) ∧ claimed d' c) as Hkeep.
  { intros c Ha ((refs & rows & Hj) & Hc). split; [exists refs, rows; by apply (justified_grows d)|by apply (claimed_grows d)]. }
  destruct Hstep as [[= Hc Ha]|a e Hn Hd|v c e Hn Hc Hty Hid Hp Hd].
  - intros k c Hk. rewrite Hc in Hk. destruct (Hi k c Hk) as [? ?]. split; [done|]. apply Hkeep; [by rewrite Ha|done].
  - subst d'. intros k c Hk. destruct (Hi k c Hk) as [? ?]. split; [done|]. apply Hkeep; [by apply insert_subseteq|done].
  - subst d'. intros k c' Hk. simpl in Hk. apply lookup_insert_Some in Hk as [[<- <-]|[_ Hk]].
    + split; [done|]. split; [destruct Hc as [_ _ (refs & rows & Hj)]; exists refs, rows; by apply (justified_grows d)|].
      exists e. split; [|done]. apply elem_of_app. right. by constructor.
    + destruct (Hi k c' Hk) as [? ?]. split; [done|]. by apply Hkeep.
Qed.

Lemma claims_inv_ops ops w :
  evidence_claims (registry (w_db w)) = ∅ → claims_inv (w_db (run_sys_ops ops w)).
Proof.
  intros Hw. apply (run_sys_ops_keeps (λ _, True) claims_inv ops w); [|by apply Forall_true|].
  - intros op _ w0 r w1 Hrun. apply claims_inv_step; [by eapply sys_op_claims|].
    by apply (sys_op_grows (w_db w0) op w0 r w1 Hrun).
  - intros k c. by rewrite Hw, lookup_empty.
Qed.

(** C21: every claim of the registry rests on artifacts that prove it.  Through any
    sequence of commands from a database without claims, each recorded claim names
    at least one artifact, all of them exist and belong to its task, their kinds
    suffice for the evidence state, the environment is classified and a non-real
    one supports no more than runtime evidence; whoever recorded a passing verdict
    (with or without risk) or a promotion of memory or rules produced none of the
    artifacts; and the log has an event with the content of the claim. *)
Theorem claims_are_justified ops w : evidence_claims (registry (w_db w)) = ∅ →
  let d := w_db (run_sys_ops ops w) in
  ∀ k c, evidence_claims (registry d) !! k = Some c →
  ec_id c = k ∧ (∃ refs rows, justified d c refs rows) ∧ claimed d c.
Proof. intros Hw d. by apply claims_inv_ops. Qed.

(** C9: a judged delivery was judged by someone else.  In a system that started
    without records, when [confirm_task_delivery] delivers a task whose specification
    requires an evaluator, the database holds a passing claim on the target state of
    the task that rests on artifacts of this task, and the principal who made the
    claim produced none of them. *)
Theorem delivery_is_independent ops w k task actor key r w' :
  fresh (w_db w) → evidence_claims (registry (w_db w)) = ∅ → Forall sys_op_ok ops →
  let w1 := run_sys_ops ops w in
  confirm_task_delivery k task actor key w1 = (Ok r, w') → w_db w' ≠ w_db w1 →
  ∃ t, tasks (w_db w1) !! task = Some t ∧ (ts_evaluator_required (t_spec t) = true →
    ∃ i c refs rows, evidence_claims (registry (w_db w1)) !! i = Some c ∧ ec_task_id c = task ∧
      ec_evidence_state c = ts_evidence_target (t_spec t) ∧ ec_evaluator_verdict c ∈ [V_PASS; V_PASS_WITH_RISK] ∧
      justified (w_db w1) c refs rows ∧ ec_verifier_principal_id c ∉ (at_producer_principal_id <$> rows)).
Proof.
  intros Hf Hw Hops w1 Hrun Hne.
  assert (∀ i t, tasks (w_db w1) !! i = Some t → t_id t = i) as Hkeys.
  { intros i t Ht. exact (proj2 (current_row _ i t (conj (sys_core ops w Hf Hops) (Forall_nil_2 _)) Ht)). }
  destruct (delivery_is_backed k task actor key w1 r w' Hkeys Hrun Hne) as (_ & t & now & Ht & Hd & _).
  exists t. split; [done|]. intros He. destruct (dl_evaluator _ _ Hd He) as (i & c & Hc & Hct & Hs & Hv).
  destruct (claims_inv_ops ops w Hw i c Hc) as (_ & (refs & rows & Hj) & _).
  exists i, c, refs, rows. split_and!; try done; [by rewrite Hct; apply Hkeys|].
  apply Hj. by left.
Qed.
End claims_inv.

(** ** Witnesses: the judged delivery of [Bench] *)
Module Examples.
Import Toy Sample Bench.

Local Notation delivered := (run_sys_ops delivery_ops genesis).

Lemma the_claim :
  match evidence_claims (registry (w_db delivered)) !! "ev1" with
  | Some c => bool_decide (ec_verifier_principal_id c = "p-olga")
  | None => false
  end = true.
Proof. by_eval. Qed.

Lemma claims_are_justified_witness :
  ∃ c refs rows, evidence_claims (registry (w_db delivered)) !! "ev1" = Some c ∧
    ec_verifier_principal_id c = "p-olga" ∧ justified (w_db delivered) c refs rows ∧ refs ≠ [].
Proof.
  pose proof the_claim as Hc.
  destruct (evidence_claims (registry (w_db delivered)) !! "ev1") as [c|] eqn:He; [|discriminate Hc].
  destruct (claims_are_justified delivery_ops genesis eq_refl "ev1" c He) as (_ & (refs & rows & Hj) & _).
  apply bool_decide_eq_true in Hc. exists c, refs, rows.
  split_and!; [reflexivity|exact Hc|exact Hj|exact (proj2 (js_refs _ _ _ _ Hj))].
Defined.

Definition in_state (s : TaskState) (w : World) : bool :=
  match tasks (w_db w) !! "t1" with Some t => bool_decide (t_state t = s) | None => false end.
Lemma state_changed s s' w w' : in_state s w = true → in_state s' w' = true → s ≠ s' → w_db w' ≠ w_db w.
Proof.
  unfold in_state. intros Hs Hs' Hne Heq. rewrite Heq in Hs'. destruct (tasks (w_db w) !! "t1"); [|done]. bsplit. congruence.
Qed.
Lemma before_delivery : in_state T_INTEGRATION_PENDING delivered = true.
Proof. by_eval. Qed.
Lemma delivery_runs :
  match confirm_task_delivery k "t1" alice_vp "k10" delivered with (Ok _, w') => in_state T_DELIVERED w' | _ => false end = true.
Proof. by_eval. Qed.
Lemma the_delivery : ∃ r w', confirm_task_delivery k "t1" alice_vp "k10" delivered = (Ok r, w') ∧
  w_db w' ≠ w_db delivered.
Proof.
  pose proof delivery_runs as Hr. destruct (confirm_task_delivery k "t1" alice_vp "k10" delivered) as [[r|e] w'];
    [|discriminate Hr]. exists r, w'. split; [reflexivity|]. by apply (state_changed _ _ _ _ before_delivery Hr).
Qed.
Lemma delivery_ok : Forall sys_op_ok delivery_ops.
Proof. repeat constructor. Qed.

Lemma delivery_is_independent_witness :
  ∃ r w' t, confirm_task_delivery k "t1" alice_vp "k10" delivered = (Ok r, w') ∧
    tasks (w_db delivered) !! "t1" = Some t ∧ ts_evaluator_required (t_spec t) = true ∧
    ∃ i c refs rows, evidence_claims (registry (w_db delivered)) !! i = Some c ∧
      justified (w_db delivered) c refs rows ∧ ec_verifier_principal_id c ∉ (at_producer_principal_id <$> rows).
Proof.
  destruct the_delivery as (r & w' & Hrun & Hne).
  destruct (delivery_is_independent delivery_ops genesis k "t1" alice_vp "k10" r w' genesis_fresh eq_refl delivery_ok
    Hrun Hne) as (t & Ht & Hby).
  assert (match tasks (w_db delivered) !! "t1" with Some t => ts_evaluator_required (t_spec t) | None => false end = true)
    as He by by_eval.
  rewrite Ht in He. cbv beta iota in He. destruct (Hby He) as (i & c & refs & rows & Hc & _ & _ & _ & Hj & Hp).
  exists r, w', t. split_and!; [exact Hrun|exact Ht|exact He|]. exists i, c, refs, rows. split_and!; [exact Hc|exact Hj|exact Hp].
Defined.
End Examples.
