(* ===== verification/Deliveries.v ===== *)
(** * What the integration queue guarantees

    The theorems about [Integration]: the items are the outcome of their events,
    each moving along the transitions of the queue, and an item that is final
    rests on passing evidence of its task. *)

From S2P Require Import Prelude PyStr Json Enums StateMachine Contracts Scope Db Store Identity.
From S2P Require Import Leases Scheduler Authority Gates Registries Policy Integration Evidence Observations.
From S2P Require Import Adapters Workflow Services Kernel Replay System Bench Commands Tables Parts Claims.
Import Items.

Local Open Scope string_scope.
Local Open Scope list_scope.
Local Open Scope Z_scope.

(** ** The log as the specification of the items *)

Definition text_field (p : dict) (k : string) : option string :=
  match dget p k with Some (JStr s) => Some s | _ => None end.

(** What one event of an item makes of its state; [None] is an item that is not
    there, or whose events do not fit. *)
Definition follow (item : string) (s : option IntegrationState) (e : Event) : option IntegrationState :=
  if negb (bool_decide (ev_aggregate_id e = item)) then s
  else match ev_payload e, s with
  | JObj p, None =>
    if bool_decide (ev_event_type e = "integration_item_created")
       && bool_decide (text_field p "state" = Some (value I_REVIEW_PENDING))
    then Some I_REVIEW_PENDING else None
  | JObj p, Some a =>
    if bool_decide (ev_event_type e = "integration_state_changed") && bool_decide (text_field p "from" = Some (value a))
    then List.find (λ b, bool_decide (text_field p "to" = Some (value b))) (_TRANSITIONS a) else None
  | _, _ => None
  end.
Definition integration_events (d : DB) : list Event :=
  List.filter (λ e, bool_decide (ev_aggregate_type e = "integration")) (events d).
Definition item_state (d : DB) (item : string) : option IntegrationState :=
  foldl (follow item) None (integration_events d).
Definition queue_part (d : DB) := (integration_items (registry d), integration_events d).

Lemma follow_other item s e : ev_aggregate_id e ≠ item → follow item s e = s.
Proof. intros Hne. unfold follow. by rewrite bool_decide_eq_false_2. Qed.

Section queue.
Context `{ENV : Env}.

Lemma queue_made : made_of queue_part ["integration"].
Proof.
  split.
  - intros d d' He Hs. unfold service_tables in Hs. unfold queue_part, integration_events. rewrite He. congruence.
  - intros d e He. unfold queue_part, integration_events, logged. simpl. rewrite List.filter_app. simpl.
    rewrite bool_decide_eq_false_2, app_nil_r; [done|]. intros Ht. apply He. rewrite Ht. by constructor.
Qed.
Lemma logged_item d e item : ev_aggregate_type e = "integration" →
  item_state (logged [e] d) item = follow item (item_state d item) e.
Proof.
  intros Ht. unfold item_state, integration_events. simpl. rewrite List.filter_app. simpl.
  rewrite Ht. cbn [bool_decide decide_rel]. by rewrite bool_decide_eq_true_2, foldl_app.
Qed.

Lemma stored_jstrs refs : stored_refs (jstrs refs) = Ok refs.
Proof.
  unfold stored_refs, jstrs, iter_items. rewrite res_ret_bind.
  assert (∀ f : json → res string, (∀ r, f (JStr r) = Ok r) → mapR f (JStr <$> refs) = Ok refs) as Hmap; [|by apply Hmap].
  intros f Hf. induction refs as [|r refs IH]; [done|]. rewrite fmap_cons. simpl. by rewrite Hf, IH.
Qed.

(** ** The operations *)
Record opened (x : IntegrationItem) (e : Event) : Prop := {
  op_state : ii_state x = I_REVIEW_PENDING;
  op_type : ev_aggregate_type e = "integration";
  op_id : ev_aggregate_id e = ii_id x;
  op_event : ev_event_type e = "integration_item_created";
  op_payload : ∃ source target owner refs, ev_payload e = JObj (created_payload (ii_state x) source target owner refs) }.

(** Evidence that closes an item: claims of its task, one of which passes on the
    target of the task. *)
Definition closing_evidence (d : DB) (x : IntegrationItem) (refs : list string) : Prop :=
  refs ≠ [] ∧ evidence_valid d (ii_task_id x) refs = true ∧
  ∃ t c r, tasks d !! ii_task_id x = Some t ∧ r ∈ refs ∧ evidence_claims (registry d) !! r = Some c ∧
    passing_claim (t_spec t) (ii_task_id x) c = true.
Record moved (d : DB) (x : IntegrationItem) (s : IntegrationState) (refs : list string) (e : Event) : Prop := {
  mv_step : s ∈ _TRANSITIONS (ii_state x);
  mv_task : ∃ t, tasks d !! ii_task_id x = Some t ∧ t_state t ∉ TERMINAL_TASK_STATES;
  mv_final : s ∈ _FINAL → closing_evidence d x refs ∧ gates_open d (ii_task_id x);
  mv_type : ev_aggregate_type e = "integration";
  mv_event : ev_event_type e = "integration_state_changed";
  mv_payload : ∃ reason new, ev_payload e = JObj (moved_payload (ii_state x) s reason new) }.

Lemma create_ok self task source target owner init refs i w r w' :
  create self task source target owner init refs i w = (Ok r, w') →
  w_db w' = w_db w ∨
  ∃ x e, integration_items (registry (w_db w)) !! ii_id x = None ∧ opened x e ∧
    w_db w' = set_integration_items <[ii_id x := x]> (logged [e] (w_db w)).
Proof.
  unfold create, _actor_id_in_transaction, _validate_evidence. intros Hrun. rinv.
  match goal with H : match ?o with _ => _ end _ = (Ok r, _) |- _ => destruct o as [old|]; rinv; same_db; [left; congruence|right] end.
  match goal with p : TaskRow * string |- _ => destruct p as [row run_id] end. rinv.
  match goal with H : append_event _ _ = _ |- _ => pose proof (append_logged _ _ _ _ H) as (auth & now & Ha & Hdb) end.
  unfold insert_integration_item, _task in *. rinv. same_db. bsplit. cbn [tick drawn set_db w_db] in *.
  match goal with H : absent _ _ = true |- _ => apply absent_true in H; rename H into Hnone end.
  repeat match goal with H : w_db _ = w_db _ |- _ => rewrite H in *; clear H end. rewrite Hdb in *.
  eexists (Build_IntegrationItem _ _ _ _ _ _ _ _ _ _), _. split; [exact Hnone|]. split; [|done].
  constructor; try (etrans; [apply Ha|done]); [done|]. eexists _, _, _, _. apply Ha.
Qed.

Lemma assert_final_ok task id refs w r w' :
  assert_final task id refs w = (Ok r, w') →
  w_db w' = w_db w ∧ gates_open (w_db w) id ∧ refs ≠ [] ∧ evidence_valid (w_db w) id refs = true ∧
  ∃ c k, k ∈ refs ∧ evidence_claims (registry (w_db w)) !! k = Some c ∧ passing_claim (t_spec task) id c = true.
Proof.
  unfold assert_final, _validate_evidence. intros Hrun.
  apply bind_ok in Hrun as (b & w1 & Hb & Hrun). apply bind_ok in Hrun as (u & ? & [-> ->]%ensure_ok & Hrun).
  apply required_gates_true in Hb as [Hdb Hgates]. rinv. bsplit. rewrite Hdb in *. split_and!; try done.
  match goal with H : existsb _ _ = true |- _ => apply existsb_In in H as (c & Hc & Hp) end.
  apply list_elem_of_omap in Hc as (k & Hk & Hc). by exists c, k.
Qed.

Lemma final_if task id s refs w u w' :
  (if memb s _FINAL then assert_final task id refs else mret tt) w = (Ok u, w') →
  w_db w' = w_db w ∧ (s ∈ _FINAL → gates_open (w_db w) id ∧ refs ≠ [] ∧ evidence_valid (w_db w) id refs = true ∧
  ∃ c k, k ∈ refs ∧ evidence_claims (registry (w_db w)) !! k = Some c ∧ passing_claim (t_spec task) id c = true).
Proof.
  destruct (memb s _FINAL) eqn:Hs; intros Hrun; [by apply assert_final_ok in Hrun as [? ?]|].
  injection Hrun as _ <-. split; [done|]. intros Hin%memb_true. congruence.
Qed.

Lemma advance_ok self item target actor new reason w r w' :
  advance self item target actor new reason w = (Ok r, w') →
  ∃ k x s refs now e, integration_items (registry (w_db w)) !! k = Some x ∧ moved (w_db w) x s refs e ∧
    ev_aggregate_id e = k ∧
    w_db w' = set_integration_items (alter (with_state s refs now) k) (logged [e] (w_db w)).
Proof.
  unfold advance, _actor_id_in_transaction, _validate_evidence. intros Hrun. rinv.
  match goal with H : append_event _ _ = _ |- _ => pose proof (append_logged _ _ _ _ H) as (auth & now & Ha & Hdb) end.
  match goal with H : (if _ then _ else _) _ = _ |- _ => apply final_if in H as [Hdb' Hfinal] end.
  same_db. bsplit. cbn [tick drawn set_db w_db] in *.
  match goal with H : integration_items _ !! ?k = Some ?x |- _ => exists k, x; rename H into Hx, x into row end.
  match goal with H : tasks _ !! _ = Some ?t |- _ => rename H into Ht, t into task end.
  match goal with H : w_db ?v = w_db w |- _ => rewrite H in * end. rewrite Hdb' in *.
  eexists _, _, _, _. split; [exact Hx|]. split; [|split; [apply Ha|by rewrite Hdb]].
  constructor; try (etrans; [apply Ha|done]); [by apply memb_true|exists task; split; [done|unfold memb in *; by bsplit]| |].
  - intros Hs. destruct (Hfinal Hs) as (Hgates & Hne & Hvalid & c & j & Hj & Hc & Hp).
    split; [|done]. split_and!; [done..|]. by exists task, c, j.
  - eexists _, _. apply Ha.
Qed.

(** ** The items through any command *)
Inductive queue_step (d d' : DB) : Prop :=
  | qs_other : queue_part d' = queue_part d → queue_step d d'
  | qs_create x e : integration_items (registry d) !! ii_id x = None → opened x e →
      d' = set_integration_items <[ii_id x := x]> (logged [e] d) → queue_step d d'
  | qs_advance k x s refs now e : integration_items (registry d) !! k = Some x → moved d x s refs e →
      ev_aggregate_id e = k →
      d' = set_integration_items (alter (with_state s refs now) k) (logged [e] d) → queue_step d d'.

Lemma queue_op_step self op w r w' : run_queue_op self op w = (Ok r, w') → queue_step (w_db w) (w_db w').
Proof.
  destruct op; simpl; unfold ignore; intros Hrun; rinv.
  - match goal with H : create _ _ _ _ _ _ _ _ _ = _ |- _ => apply create_ok in H as [Hdb|(x' & e & Hn & Ho & Hdb)] end;
      [apply qs_other; by rewrite Hdb|by eapply qs_create].
  - match goal with H : advance _ _ _ _ _ _ _ = _ |- _ => apply advance_ok in H as (k & x' & s & refs & now & e & Hx & Hm & Hk & Hdb) end.
    by eapply qs_advance.
  - match goal with H : require_task_satisfied _ _ _ = _ |- _ => unfold require_task_satisfied in H end. rinv.
    by apply qs_other.
Qed.

Lemma sys_op_queue op w r w' : run_sys_op op w = (r, w') → queue_step (w_db w) (w_db w').
Proof.
  intros Hrun. destruct r as [u|e]; [|apply failed_commands_change_nothing in Hrun as ->; by apply qs_other].
  destruct (sys_op_apart queue_part _ queue_made V_queue op w (Ok u) w') as [Hp|(so & -> & [Hso|[]])];
    [spares|done|done|exact Hrun|by apply qs_other| |done].
  destruct so; try done. by eapply queue_op_step.
Qed.
End queue.

(** ** Every item *)
Section queue_inv.
Context `{ENV : Env}.

Lemma claims_grow d d' : claims_step d d' → evidence_claims (registry d) ⊆ evidence_claims (registry d').
Proof. intros [[= -> _]|a e _ ->|v c e Hn _ _ _ _ ->]; [done..|]. simpl. by apply insert_subseteq. Qed.

Lemma evidence_valid_grows d d' task refs :
  evidence_claims (registry d) ⊆ evidence_claims (registry d') →
  evidence_valid d task refs = true → evidence_valid d' task refs = true.
Proof.
  intros Hc Hv. unfold evidence_valid in *. rewrite forallb_In in *. intros r Hr. specialize (Hv r Hr).
  destruct (evidence_claims (registry d) !! r) as [c|] eqn:Hl; [|done]. by rewrite (lookup_weaken _ _ _ _ Hl Hc).
Qed.
Lemma closing_grows d d' x x' refs :
  grows d d' → evidence_claims (registry d) ⊆ evidence_claims (registry d') → ii_task_id x' = ii_task_id x →
  closing_evidence d x refs → closing_evidence d' x' refs.
Proof.
  intros Hg Hc Hx (Hne & Hv & t & c & r & Ht & Hr & Hl & Hp). rewrite <- Hx in *.
  split_and!; [done|by apply (evidence_valid_grows d)|].
  assert ((task_origin <$> tasks d) !! ii_task_id x' = Some (task_origin t)) as Ho by (by rewrite lookup_fmap, Ht).
  pose proof (lookup_weaken _ _ _ _ Ho (gw_tasks _ _ Hg)) as Ho'. rewrite lookup_fmap in Ho'.
  destruct (tasks d' !! _) as [t'|]; [|done]. injection Ho' as _ _ _ _ Hspec _. rewrite <- Hspec in Hp.
  exists t', c, r. split_and!; try done. by eapply lookup_weaken.
Qed.

Record queue_inv (d : DB) : Prop := {
  qv_state i : item_state d i = ii_state <$> integration_items (registry d) !! i;
  qv_key i x : integration_items (registry d) !! i = Some x → ii_id x = i;
  qv_final i x : integration_items (registry d) !! i = Some x → ii_state x ∈ _FINAL →
    ∃ refs, ii_evidence_refs x = jstrs refs ∧ closing_evidence d x refs }.

Lemma follow_opened x e : opened x e → follow (ii_id x) None e = Some (ii_state x).
Proof.
  intros [Hs Ht Hi He (source & target & owner & refs & Hp)]. unfold follow.
  rewrite Hi, Hp, He, Hs. by rewrite bool_decide_eq_true_2.
Qed.
Lemma find_transition a s : s ∈ _TRANSITIONS a →
  List.find (λ b, bool_decide (Some (value s) = Some (value b))) (_TRANSITIONS a) = Some s.
Proof. destruct a, s; intros Hin; try reflexivity; by apply memb_true in Hin. Qed.
Lemma follow_moved d x s refs e : moved d x s refs e → follow (ev_aggregate_id e) (Some (ii_state x)) e = Some s.
Proof.
  intros [Hs _ _ Ht He (reason & new & Hp)]. unfold follow. rewrite (bool_decide_eq_true_2 (_ = _)) by done. simpl.
  rewrite Hp, He. rewrite (bool_decide_eq_true_2 (_ = _)) by done.
  change (text_field (moved_payload (ii_state x) s reason new) "from") with (Some (value (ii_state x))).
  change (text_field (moved_payload (ii_state x) s reason new) "to") with (Some (value s)).
  rewrite bool_decide_eq_true_2 by done. simpl. by apply find_transition.
Qed.

Lemma queue_inv_step d d' :
  queue_step d d' → grows d d' → evidence_claims (registry d) ⊆ evidence_claims (registry d') →
  queue_inv d → queue_inv d'.
Proof.
  intros Hstep Hg Hc [Hst Hk Hf].
  destruct Hstep as [[= Hi He]|x e Hn Ho Hd|k x s refs now e Hx Hm Hid Hd]; [|subst d'..].
  - constructor; unfold item_state in *; rewrite ?Hi, ?He; try done.
    intros i x Hx Hs. destruct (Hf i x Hx Hs) as (refs & ? & ?). exists refs. split; [done|]. by apply (closing_grows d d' x x).
  - pose proof (op_type _ _ Ho) as Hty. constructor; simpl.
    + intros i. change (item_state (set_integration_items _ ?d0) i) with (item_state d0 i).
      rewrite (logged_item d e i Hty), Hst. destruct (decide (ii_id x = i)) as [<-|Hne].
      * rewrite lookup_insert_eq, Hn. by apply follow_opened.
      * rewrite lookup_insert_ne by done. apply follow_other. by rewrite (op_id _ _ Ho).
    + intros i y [[<- <-]|[_ Hy]]%lookup_insert_Some; [done|by apply Hk].
    + intros i y [[<- <-]|[_ Hy]]%lookup_insert_Some Hs; [rewrite (op_state _ _ Ho) in Hs; by apply memb_true in Hs|].
      destruct (Hf i y Hy Hs) as (refs & ? & ?). exists refs. split; [done|]. by apply (closing_grows d _ y y).
  - pose proof (mv_type _ _ _ _ _ Hm) as Hty. constructor; simpl.
    + intros i. change (item_state (set_integration_items _ ?d0) i) with (item_state d0 i).
      rewrite (logged_item d e i Hty), Hst. destruct (decide (k = i)) as [<-|Hne].
      * rewrite lookup_alter_eq, Hx. simpl. rewrite <- Hid. by eapply follow_moved.
      * rewrite lookup_alter_ne by done. apply follow_other. congruence.
    + intros i y [(<- & z & Hz & ->)|[_ Hy]]%lookup_alter_Some; [by apply (Hk _ z)|by apply Hk].
    + intros i y [(<- & z & Hz & ->)|[_ Hy]]%lookup_alter_Some Hs; simpl in *.
      * rewrite Hx in Hz. injection Hz as <-. exists refs. split; [done|].
        apply (closing_grows d _ x); [done..|]. by apply (mv_final _ _ _ _ _ Hm).
      * destruct (Hf i y Hy Hs) as (refs' & ? & ?). exists refs'. split; [done|]. by apply (closing_grows d _ y y).
Qed.

Definition no_items (d : DB) : Prop := integration_items (registry d) = ∅ ∧ integration_events d = [].
Lemma queue_inv_ops ops w : no_items (w_db w) → queue_inv (w_db (run_sys_ops ops w)).
Proof.
  intros [Hi He]. apply (run_sys_ops_keeps (λ _, True) queue_inv ops w); [|by apply Forall_true|].
  - intros op _ w0 r w1 Hrun. apply queue_inv_step; [by eapply sys_op_queue| |].
    + by apply (sys_op_grows (w_db w0) op w0 r w1 Hrun).
    + by eapply claims_grow, sys_op_claims.
  - constructor; unfold item_state; rewrite Hi, ?He; [intros i; by rewrite lookup_empty|intros i x; by rewrite lookup_empty..].
Qed.

(** C25: the items are what their events say.  Through any sequence of commands
    from a system without items, the state of every item is the one that its events
    lead to, each a creation in review or a step along the transitions of the queue
    from the state before; and an identifier without an item has no such events. *)
Theorem items_follow_log ops w : no_items (w_db w) →
  let d := w_db (run_sys_ops ops w) in
  ∀ i, item_state d i = ii_state <$> integration_items (registry d) !! i.
Proof. intros Hw d. by apply qv_state, queue_inv_ops. Qed.

(** C10: integrated deliveries rest on evidence.  When [confirm_task_delivery]
    delivers a task that needs integration, in a system that started without
    records, the task has items, each of them is final, and each carries references
    to claims of this task of which one passes on its evidence target with a verdict
    that its specification accepts. *)
Theorem delivery_is_integrated ops w k task actor key r w' :
  fresh (w_db w) → no_items (w_db w) → Forall sys_op_ok ops →
  let w1 := run_sys_ops ops w in
  confirm_task_delivery k task actor key w1 = (Ok r, w') → w_db w' ≠ w_db w1 →
  ∃ t, tasks (w_db w1) !! task = Some t ∧ (ts_integration_required (t_spec t) = true →
    (∃ i x, integration_items (registry (w_db w1)) !! i = Some x ∧ ii_task_id x = task) ∧
    ∀ i x, integration_items (registry (w_db w1)) !! i = Some x → ii_task_id x = task →
      ii_state x ∈ _FINAL ∧ ∃ refs, ii_evidence_refs x = jstrs refs ∧ closing_evidence (w_db w1) x refs).
Proof.
  intros Hf Hw Hops w1 Hrun Hne.
  assert (∀ i t, tasks (w_db w1) !! i = Some t → t_id t = i) as Hkeys.
  { intros i t Ht. exact (proj2 (current_row _ i t (conj (sys_core ops w Hf Hops) (Forall_nil_2 _)) Ht)). }
  destruct (delivery_is_backed k task actor key w1 r w' Hkeys Hrun Hne) as (_ & t & now & Ht & Hd & _).
  exists t. split; [done|]. intros Hi. destruct (dl_integration _ _ Hd Hi) as [Hsome Hall].
  rewrite (Hkeys _ _ Ht) in *. split; [done|]. intros i x Hx Hxt. pose proof (Hall i x Hx Hxt) as Hs.
  split; [exact Hs|]. by apply (qv_final _ (queue_inv_ops ops w Hw) i x).
Qed.
End queue_inv.

(** ** Witnesses: the delivery of [Bench] *)
Module Examples.
Import Toy Sample Bench Claims.Examples.

Local Notation delivered := (run_sys_ops delivery_ops genesis).

Lemma genesis_items : no_items (w_db genesis).
Proof. by split. Qed.
Lemma the_item :
  match integration_items (registry (w_db delivered)) !! "i1" with
  | Some x => bool_decide (ii_state x = I_DELIVERED)
  | None => false
  end = true.
Proof. by_eval. Qed.

Lemma items_follow_log_witness : item_state (w_db delivered) "i1" = Some I_DELIVERED.
Proof.
  rewrite (items_follow_log delivery_ops genesis genesis_items "i1").
  pose proof the_item as Hi. destruct (integration_items _ !! _) as [x|]; [|discriminate Hi].
  apply bool_decide_eq_true in Hi. simpl. rewrite Hi. reflexivity.
Defined.

Lemma delivery_is_integrated_witness :
  ∃ r w' x refs, confirm_task_delivery k "t1" alice_vp "k10" delivered = (Ok r, w') ∧
    integration_items (registry (w_db delivered)) !! "i1" = Some x ∧ ii_state x ∈ _FINAL ∧
    closing_evidence (w_db delivered) x refs.
Proof.
  destruct the_delivery as (r & w' & Hrun & Hne).
  destruct (delivery_is_integrated delivery_ops genesis k "t1" alice_vp "k10" r w' genesis_fresh genesis_items delivery_ok
    Hrun Hne) as (t & Ht & Hby).
  assert (match tasks (w_db delivered) !! "t1", integration_items (registry (w_db delivered)) !! "i1" with
          | Some t, Some x => ts_integration_required (t_spec t) && bool_decide (ii_task_id x = "t1")
          | _, _ => false end = true) as He by by_eval.
  rewrite Ht in He. cbv beta iota in He.
  destruct (integration_items (registry (w_db delivered)) !! "i1") as [x|] eqn:Hx; [|discriminate He].
  apply andb_true_iff in He as [He Hxt]. apply bool_decide_eq_true in Hxt.
  destruct (proj2 (Hby He) "i1" x Hx Hxt) as (Hs & refs & _ & Hc).
  exists r, w', x, refs. split_and!; [exact Hrun|reflexivity|exact Hs|exact Hc].
Defined.
End Examples.
