(* ===== verification/Freshness.v ===== *)
(** * What observations guarantee

    The theorems about [Observations]: every recorded observation conforms to the
    contract of its goal, and the freshness gate of the registry and the guard of
    the kernel decide the same, up to the rounding of the database's clock. *)

From S2P Require Import Prelude PyStr Json Enums StateMachine Contracts Scope Db Store Identity.
From S2P Require Import Leases Scheduler Authority Gates Registries Policy Integration Evidence Observations.
From S2P Require Import Adapters Workflow Services Kernel Replay System Bench Commands Tables Parts.
Import Observe.

Local Open Scope string_scope.
Local Open Scope list_scope.
Local Open Scope Z_scope.

Definition observations_part (d : DB) := observations (registry d).

Section freshness.
Context `{ENV : Env}.

Lemma observations_made : made_of observations_part [].
Proof. split; [|done]. intros d d' _ Hs. unfold service_tables in Hs. unfold observations_part. congruence. Qed.

(** An observation of a surface that the goal of its run declares, of the declared
    target by an allowed probe, that lives for whole seconds within the declared
    limit, and whose trigger is an event of the same run. *)
Record conforming (d : DB) (o : Observation) : Prop := {
  cf_contract : ∃ run goal req ttl, runs d !! ob_run_id o = Some run ∧ goals d !! ru_goal_id run = Some goal ∧
    surface_for (gs_required_runtime_surfaces (go_spec goal)) (ob_surface_key o) = Some req ∧
    ob_target_identity o = rs_target_identity req ∧ ob_probe_name o ∈ rs_allowed_probes req ∧
    ob_expires_at o = ob_observed_at o + ttl * 1000000 ∧ 1 ≤ ttl ≤ rs_max_ttl_seconds req ∧
    (rs_trigger_event_required req = true → is_Some (ob_trigger_event_id o));
  cf_probe : document_probe (ob_probe_name o) = false;
  cf_status : ob_status o ∈ _VALID_STATUSES;
  cf_trigger e : ob_trigger_event_id o = Some e →
    ∃ f, f ∈ events d ∧ ev_id f = e ∧ ev_run_id f = Some (ob_run_id o) }.

Lemma observe_args_ok args a : observe_args args = Ok a →
  document_probe (oa_probe_name a) = false ∧ oa_status a ∈ _VALID_STATUSES ∧ 1 ≤ oa_ttl_seconds a.
Proof.
  unfold observe_args. intros Hrun. rinv. bsplit. simpl. split_and!; [done|by apply memb_true|done].
Qed.
Lemma later_ok t s x : later t s = Ok x → x = t + s * 1000000.
Proof. unfold later. intros Hrun. by rinv. Qed.
Lemma instant_db v w t w' : (match v with Some t => mret t | None => utc_now end : P Instant) w = (Ok t, w') →
  w_db w' = w_db w.
Proof. destruct v; intros Hrun; by rinv. Qed.

Lemma kept_some {A} (o : option A) (p : A → bool) x :
  o ≫= (λ r, if p r then Some r else None) = Some x → o = Some x.
Proof. destruct o as [r|]; simpl; [|done]. by case_match; simplify_eq. Qed.

Lemma observe_ok self args observer at_ i w o w' :
  record self args observer at_ i w = (Ok o, w') →
  observations (registry (w_db w)) !! ob_id o = None ∧ conforming (w_db w) o ∧ live_as (w_db w) observer R_OBSERVER ∧
  ob_observer o = vp_principal_id observer ∧
  ∃ e, w_db w' = set_observations <[ob_id o := o]> (logged [e] (w_db w)).
Proof.
  unfold record, _instant, require_role_in_transaction. intros Hrun. rinv.
  match goal with H : append_event _ _ = _ |- _ => pose proof (append_logged _ _ _ _ H) as (auth & now & Ha & Hdb) end.
  match goal with H : insert_observation _ _ = _ |- _ => unfold insert_observation in H end. rinv. same_db.
  match goal with H : _verify_session _ _ _ = _ |- _ => pose proof (verify_live _ _ _ _ _ H) as Hlive;
    apply verify_ok in H as (_ & ? & ? & _ & _ & _ & _ & Hid & _) end.
  match goal with H : observe_args _ = Ok ?x |- _ => rename x into a; apply observe_args_ok in H as (Hprobe & Hstatus & Httl) end.
  match goal with H : later _ _ = Ok _ |- _ => apply later_ok in H; subst end.
  match goal with H : (match _ with Some _ => _ | None => _ end) w = _ |- _ => apply instant_db in H end.
  unfold conforms, trigger_known, insert_observation in *. rinv. bsplit. cbn [tick drawn set_db w_db] in *.
  match goal with H : absent _ _ = true |- _ => apply absent_true in H; rename H into Hnone end.
  repeat match goal with H : w_db _ = w_db _ |- _ => rewrite H in *; clear H end. rewrite Hdb in *.
  split; [exact Hnone|]. split; [|split_and!; [done|done|by eexists]].
  constructor; simpl; [|done..|].
  - repeat match goal with H : _ ≫= _ = Some _ |- _ => apply kept_some in H end.
    eexists _, _, _, _. split_and!; [eassumption..|by apply memb_true|reflexivity|done|done|].
    intros Hreq. destruct (oa_trigger_event_id a) as [e|]; [done|]. by rewrite Hreq in *.
  - intros e He. rewrite He in *.
    match goal with H : existsb (λ f, _ && _) _ = true |- _ => apply existsb_In in H as (f & Hf & Hfe) end.
    bsplit. by exists f.
Qed.

(** ** The gate of the registry *)
Definition surface_current (d : DB) (id : string) (t : Instant) (s : RuntimeSurfaceSpec) : Prop :=
  ∃ latest rest, observed_rows d id (rs_surface_key s) = latest :: rest ∧
    surface_failure d s t (latest :: rest) latest = None.

Lemma check_surfaces d id t l acc :
  (foldl (check_surface d id t) acc l).2 = [] ↔ acc.2 = [] ∧ ∀ s, s ∈ l → surface_current d id t s.
Proof.
  revert acc. induction l as [|s l IH]; intros acc; simpl.
  { split; [|by intros [? _]]. intros ?. split; [done|]. by intros s ?%not_elem_of_nil. }
  rewrite IH. assert ((check_surface d id t acc s).2 = [] ↔ acc.2 = [] ∧ surface_current d id t s) as ->.
  { unfold check_surface, surface_current. destruct (observed_rows d id _) as [|o rest] eqn:Ho.
    - simpl. split; [intros Hnil; by apply app_eq_nil in Hnil as [? ?]|]. by intros (_ & o & rest & ? & _).
    - destruct (surface_failure d s t (o :: rest) o) eqn:Hf; simpl.
      + split; [intros Hnil; by apply app_eq_nil in Hnil as [? ?]|]. intros (_ & ? & ? & [= <- <-] & Hf'). congruence.
      + split; [|by intros [? _]]. intros ?. split; [done|]. by exists o, rest. }
  split; [intros [[Ha Hs] Hl]|intros [Ha Hl]].
  - split; [exact Ha|]. intros x [->|Hx]%elem_of_cons; [exact Hs|by apply Hl].
  - split; [split; [exact Ha|]; apply Hl; set_solver|]. intros x Hx. apply Hl. set_solver.
Qed.

Lemma require_fresh_ok run_id l t w m w' :
  require_fresh run_id l t w = (Ok m, w') → w_db w' = w_db w ∧
  ∃ id now, _text run_id = Ok id ∧ (∀ t', t = Some t' → now = t') ∧ ∀ s, s ∈ l → surface_current (w_db w) id now s.
Proof.
  unfold require_fresh, _instant. intros Hrun. rinv.
  destruct (foldl _ _ _) as [result failures] eqn:Hfold in Hrun. rinv.
  match goal with H : (match _ with Some _ => _ | None => _ end) w = _ |- _ => pose proof (instant_db _ _ _ _ H) as Hdb;
    rename H into Hnow end. bsplit.
  split; [done|]. eexists _, _. split; [eassumption|]. split; [by intros t' ->; injection Hnow|].
  rewrite <- Hdb. refine (proj2 (proj1 (check_surfaces _ _ _ l (∅, [])) _)). rewrite Hfold. done.
Qed.
Lemma require_fresh_complete run_id run l t w :
  _text run_id = Ok run → (∀ s, s ∈ l → surface_current (w_db w) run t s) →
  is_ok (require_fresh run_id l (Some t) w).1 = true.
Proof.
  intros Hid Hl. unfold require_fresh, _instant. rewrite Hid.
  pose proof (proj2 (check_surfaces (w_db w) run t l (∅, [])) (conj eq_refl Hl)) as Hf.
  unfold mbind, M_bind, lift_res, mret, M_ret, read, gets. simpl.
  destruct (foldl _ _ _) as [result failures]. simpl in Hf. subst failures. done.
Qed.

(** ** The observations through any command *)
Inductive observations_step (d d' : DB) : Prop :=
  | bs_other : observations_part d' = observations_part d → observations_step d d'
  | bs_record o e : observations (registry d) !! ob_id o = None → conforming d o →
      d' = set_observations <[ob_id o := o]> (logged [e] d) → observations_step d d'.

Lemma observe_op_step self op w r w' :
  run_observe_op self op w = (Ok r, w') → observations_step (w_db w) (w_db w').
Proof.
  destruct op; simpl; unfold ignore; intros Hrun; rinv.
  - match goal with H : record _ _ _ _ _ _ = _ |- _ => apply observe_ok in H as (Hn & Hc & _ & _ & e & Hdb) end.
    by eapply bs_record.
  - match goal with H : require_fresh _ _ _ _ = _ |- _ => apply require_fresh_ok in H as (Hdb & _) end.
    apply bs_other. unfold observations_part. by rewrite Hdb.
Qed.

Lemma sys_op_observations op w r w' : run_sys_op op w = (r, w') → observations_step (w_db w) (w_db w').
Proof.
  intros Hrun. destruct r as [u|e]; [|apply failed_commands_change_nothing in Hrun as ->; by apply bs_other].
  destruct (sys_op_apart observations_part [] observations_made V_observe op w (Ok u) w') as [Hp|(so & -> & [Hso|[]])];
    [spares|done|done|exact Hrun|by apply bs_other| |done].
  destruct so; try done. by eapply observe_op_step.
Qed.

(** ** Every observation conforms *)
Definition observations_inv (d : DB) : Prop :=
  ∀ k o, observations (registry d) !! k = Some o → ob_id o = k ∧ conforming d o.

Lemma conforming_grows d d' o : grows d d' → conforming d o → conforming d' o.
Proof.
  intros Hg [(run & goal & req & ttl & Hr & Hgo & Hrest) Hp Hs Ht].
  assert ((run_origin <$> runs d) !! ob_run_id o = Some (run_origin run)) as Ho by (by rewrite lookup_fmap, Hr).
  pose proof (lookup_weaken _ _ _ _ Ho (gw_runs _ _ Hg)) as Ho'. rewrite lookup_fmap in Ho'.
  destruct (runs d' !! ob_run_id o) as [run'|] eqn:Hr'; [|done]. injection Ho' as Ho'.
  constructor; [|done..|].
  - exists run', goal, req, ttl. split; [done|]. split; [|done].
    replace (ru_goal_id run') with (ru_goal_id run) by (unfold run_origin in Ho'; congruence).
    eapply lookup_weaken; [exact Hgo|apply Hg].
  - intros e He. destruct (Ht e He) as (f & Hf & ?). exists f. split; [|done].
    destruct (gw_events _ _ Hg) as [l ->]. apply elem_of_app. by left.
Qed.

Lemma observations_inv_step d d' :
  observations_step d d' → grows d d' → observations_inv d → observations_inv d'.
Proof.
  intros [Hsame|o e Hn Ho Hd] Hg Hi; unfold observations_part in *; [|subst d']; intros k x Hk.
  - rewrite Hsame in Hk. destruct (Hi k x Hk). split; [done|]. by eapply conforming_grows.
  - simpl in Hk. apply lookup_insert_Some in Hk as [[<- <-]|[_ Hk]].
    + split; [done|]. by eapply conforming_grows.
    + destruct (Hi k x Hk). split; [done|]. by eapply conforming_grows.
Qed.
Lemma observations_inv_ops ops w :
  observations (registry (w_db w)) = ∅ → observations_inv (w_db (run_sys_ops ops w)).
Proof.
  intros Hw. apply (run_sys_ops_keeps (λ _, True) observations_inv ops w); [|by apply Forall_true|].
  - intros op _ w0 r w1 Hrun. apply observations_inv_step; [by eapply sys_op_observations|].
    by apply (sys_op_grows (w_db w0) op w0 r w1 Hrun).
  - intros k o. by rewrite Hw, lookup_empty.
Qed.

(** C28: every observation conforms to its contract.  Through any sequence of
    commands from a database without observations, each recorded observation is
    of a surface that the goal of its run declares, of the declared target, by an
    allowed probe that is not documentation, with a time to live within the declared
    limit, and with a trigger that is an event of the same run, where one is needed. *)
Theorem observations_conform ops w : observations (registry (w_db w)) = ∅ →
  let d := w_db (run_sys_ops ops w) in
  ∀ k o, observations (registry d) !! k = Some o → ob_id o = k ∧ conforming d o.
Proof. intros Hw d. by apply observations_inv_ops. Qed.

(** ** Two gates, one decision *)

(** What both gates ask of the newest observation, apart from the times. *)
Definition trusted (d : DB) (s : RuntimeSurfaceSpec) (rows : list Observation) (o : Observation) : bool :=
  memb (ob_status o) _HEALTHY && bool_decide (ob_target_identity o = rs_target_identity s)
  && memb (ob_probe_name o) (rs_allowed_probes s)
  && negb (rs_trigger_event_required s && bool_decide (ob_trigger_event_id o = None))
  && observer_enabled d (ob_observer o)
  && forallb (λ x, negb (ob_observed_at x =? ob_observed_at o) || bool_decide (signature x = signature o)) rows.

Lemma no_failure d s t rows o :
  surface_failure d s t rows o = None ↔
  ob_observed_at o ≤ t < ob_expires_at o ∧ ob_expires_at o - ob_observed_at o ≤ rs_max_ttl_seconds s * 1000000 ∧
  trusted d s rows o = true.
Proof.
  unfold surface_failure, trusted. rewrite !andb_true_iff.
  destruct (Z.ltb_spec t (ob_observed_at o)); [split; [done|naive_solver lia]|].
  destruct (Z.leb_spec (ob_expires_at o) t); [split; [done|naive_solver lia]|].
  destruct (memb (ob_status o) _); simpl; [|naive_solver].
  destruct (bool_decide (_ = rs_target_identity s)); simpl; [|naive_solver].
  destruct (memb (ob_probe_name o) _); simpl; [|naive_solver].
  destruct (Z.ltb_spec (rs_max_ttl_seconds s * 1000000) (ob_expires_at o - ob_observed_at o)); [split; [done|naive_solver lia]|].
  destruct (_ && bool_decide (ob_trigger_event_id o = None)); simpl; [naive_solver|].
  destruct (observer_enabled _ _); simpl; [|naive_solver].
  destruct (forallb _ _); simpl; [|naive_solver].
  split; [intros _; split_and!; lia || done|done].
Qed.

(** What the guard of the kernel answers. *)
Definition guard_says (w : World) (run : RunRow) (s : RuntimeSurfaceSpec) : bool :=
  match surface_observations (w_db w) run (rs_surface_key s) with
  | [] => false
  | o :: rest => surface_static (w_db w) run s o
      && ((julianday (ob_observed_at o) <=? julianday (sql_at (w_ticks w)))
          && (julianday (sql_at (w_ticks w)) <? julianday (ob_expires_at o)))
      && forallb (λ x, negb (ob_observed_at x =? ob_observed_at o) || bool_decide (signature x = signature o)) (o :: rest)
  end.
Lemma guard_answers run s w : (surface_fresh run s w).1 = Ok (guard_says w run s).
Proof.
  unfold surface_fresh, guard_says, mbind, M_bind, read, gets, mret, M_ret, sql_now. simpl.
  destruct (surface_observations _ _ _) as [|o rest]; [done|].
  destruct (surface_static _ _ _ _); [|done]. unfold sql_at. cbn -[julianday Z.div].
  destruct (julianday (ob_observed_at o) <=? _), (_ <? julianday (ob_expires_at o)); done.
Qed.

(** A time to live in whole seconds reads the same through the database's clock. *)
Lemma whole_seconds t s : unix_seconds (t + s * 1000000) - unix_seconds t = s.
Proof.
  unfold unix_seconds, julianday.
  replace (t + s * 1000000 + 500) with ((t + 500) + (s * 1000) * 1000) by lia.
  rewrite Z.div_add by lia. rewrite Z.div_add by lia. lia.
Qed.
Lemma whole_milliseconds n : julianday (sql_at n) * 1000 = sql_at n.
Proof. unfold julianday, sql_at. rewrite Z.div_add_l by lia. change (500 / 1000) with 0. lia. Qed.

(** Whether [t] is not rounded up to a millisecond after [now]. *)
Definition clear_of (now t : Instant) : Prop := t ≤ now ∨ now + 500 ≤ t.
Lemma clear_compare n t : clear_of (sql_at n) t → (julianday t ≤ julianday (sql_at n) ↔ t ≤ sql_at n).
Proof.
  intros Hc. pose proof (whole_milliseconds n) as Hw. revert Hc Hw. unfold clear_of. generalize (sql_at n) as now.
  intros now Hc Hw. set (m := julianday now) in *. unfold julianday in *. clearbody m.
  destruct Hc as [Hc|Hc]; (split; intros H1); [lia| |exfalso|lia].
  - assert ((t + 500) / 1000 < m + 1) by (apply Z.div_lt_upper_bound; lia). lia.
  - assert (m + 1 ≤ (t + 500) / 1000) by (apply Z.div_le_lower_bound; lia). lia.
Qed.

Lemma guard_iff d w run s o rest :
  w_db w = d → surface_observations d run (rs_surface_key s) = o :: rest →
  conforming d o → ob_run_id o = ru_id run →
  clear_of (sql_at (w_ticks w)) (ob_observed_at o) → clear_of (sql_at (w_ticks w)) (ob_expires_at o) →
  guard_says w run s = true ↔ surface_failure d s (sql_at (w_ticks w)) (o :: rest) o = None.
Proof.
  intros <- Hrows [(run0 & goal & req & ttl & _ & _ & _ & _ & _ & Hexp & Httl & _) _ _ Htr] Hrun Hobs Hexpc.
  rewrite no_failure. unfold guard_says, surface_static, trusted. rewrite Hrows.
  assert (match ob_trigger_event_id o with
          | Some e => existsb (λ f, bool_decide (ev_id f = e) && bool_decide (ev_run_id f = Some (ru_id run))) (events (w_db w))
          | None => true end = true) as ->.
  { destruct (ob_trigger_event_id o) as [e|]; [|done]. destruct (Htr e eq_refl) as (f & Hf & Hid & Hfr).
    apply existsb_In. exists f. split; [done|]. rewrite Hrun in Hfr. by rewrite !bool_decide_eq_true_2. }
  rewrite Hexp, whole_seconds. rewrite <- Hexp. rewrite !andb_true_iff, !Z.leb_le, Z.ltb_lt.
  pose proof (clear_compare _ _ Hobs). pose proof (clear_compare _ _ Hexpc).
  assert (ob_expires_at o - ob_observed_at o = ttl * 1000000) by lia. intuition lia.
Qed.

(** C26: the two freshness gates agree.  In any system that started without
    observations, the guard of the kernel accepts a surface of a run exactly when
    [require_fresh] accepts it at the same moment, although one compares database
    times to the millisecond and counts the time to live in seconds of the calendar
    and the other compares microseconds, and although only the guard looks for the
    trigger in the log; unless a time of the newest observation lies within the half
    millisecond after the moment that the database rounds away. *)
Theorem freshness_gates_agree ops w run_id run s :
  observations (registry (w_db w)) = ∅ → _text run_id = Ok (ru_id run) →
  let w1 := run_sys_ops ops w in let now := sql_at (w_ticks w1) in
  (∀ o, head (surface_observations (w_db w1) run (rs_surface_key s)) = Some o →
    clear_of now (ob_observed_at o) ∧ clear_of now (ob_expires_at o)) →
  (surface_fresh run s w1).1 = Ok true ↔ is_ok (require_fresh run_id [s] (Some now) w1).1 = true.
Proof.
  intros Hw Hid w1 now Hclear.
  trans (surface_current (w_db w1) (ru_id run) now s).
  - rewrite guard_answers. unfold surface_current. change (observed_rows (w_db w1) (ru_id run)) with (surface_observations (w_db w1) run).
    destruct (surface_observations (w_db w1) run (rs_surface_key s)) as [|o rest] eqn:Hrows.
    { unfold guard_says. rewrite Hrows. split; [done|]. by intros (? & ? & ? & _). }
    assert (o ∈ surface_observations (w_db w1) run (rs_surface_key s)) as Hin by (rewrite Hrows; by constructor).
    unfold surface_observations in Hin. apply elem_of_order_by in Hin. apply elem_of_select in Hin as [[k Hk] Ho]. bsplit.
    destruct (observations_inv_ops ops w Hw k o Hk) as [_ Hc]. destruct (Hclear o eq_refl).
    assert (guard_says w1 run s = true ↔ surface_failure (w_db w1) s now (o :: rest) o = None) as Hiff
      by (by eapply guard_iff).
    split; [intros [= Hg]; exists o, rest; by rewrite <- Hiff|]. intros (? & ? & [= <- <-] & Hf). by rewrite (proj2 Hiff Hf).
  - split.
    + intros Hc. eapply require_fresh_complete; [exact Hid|]. by intros x ->%list_elem_of_singleton.
    + intros (m & w2 & Hrun)%run_succeeds. apply require_fresh_ok in Hrun as (_ & id & t & Hid' & Ht & Hl).
      rewrite Hid in Hid'. injection Hid' as <-. rewrite (Ht _ eq_refl) in Hl. apply Hl. by constructor.
Qed.
End freshness.

(** ** Witnesses *)
Module Examples.
Import Toy Sample Queue Story.

Definition registry1 : ObservationRegistry := {| ob_policy_version := "v1" |}.
Definition unobserved : World := world (set_observations (λ _, ∅) new_db) domain.
Definition probe1 : ObserveArgs := {|
  oa_project_id := "proj"; oa_run_id := "r1"; oa_surface_key := "api"; oa_target_identity := "svc";
  oa_probe_name := "http"; oa_probe_version := "1"; oa_status := "healthy"; oa_value := []; oa_ttl_seconds := 60;
  oa_trigger_event_id := Some "uuid-3" |}.
Definition observe_ops : list SysOp :=
  begin_ops ++ [SysService (SvObserve registry1 (OoRecord probe1 alice_vp None (Some "o1")))].
Local Notation probed := (run_sys_ops observe_ops unobserved).
Definition the_run : RunRow := {|
  ru_id := "r1"; ru_goal_id := "g1"; ru_project_id := "proj"; ru_loop_state := L_READY; ru_version := 0;
  ru_policy_version := "v1"; ru_created_at := past; ru_updated_at := past |}.
Definition api : RuntimeSurfaceSpec := {|
  rs_surface_key := "api"; rs_target_identity := "svc"; rs_allowed_probes := ["http"]; rs_max_ttl_seconds := 300;
  rs_trigger_event_required := true |}.

Lemma the_observation :
  match observations (registry (w_db probed)) !! "o1" with
  | Some o => bool_decide (ob_surface_key o = "api")
  | None => false
  end = true.
Proof. by_eval. Qed.
Lemma observations_conform_witness :
  ∃ o, observations (registry (w_db probed)) !! "o1" = Some o ∧ ob_surface_key o = "api" ∧ conforming (w_db probed) o.
Proof.
  pose proof the_observation as Ho.
  destruct (observations (registry (w_db probed)) !! "o1") as [o|] eqn:He; [|discriminate Ho].
  destruct (observations_conform observe_ops unobserved eq_refl "o1" o He) as [_ Hc].
  apply bool_decide_eq_true in Ho. exists o. split_and!; [reflexivity|exact Ho|exact Hc].
Defined.

Definition clear_ofb (now t : Instant) : bool := (t <=? now) || (now + 500 <=? t).
Lemma clear_ofb_true now t : clear_ofb now t = true → clear_of now t.
Proof. unfold clear_ofb, clear_of. intros [?%Z.leb_le|?%Z.leb_le]%orb_true_iff; auto. Qed.
Lemma probed_clear :
  match head (surface_observations (w_db probed) the_run "api") with
  | Some o => clear_ofb (sql_at (w_ticks probed)) (ob_observed_at o) && clear_ofb (sql_at (w_ticks probed)) (ob_expires_at o)
  | None => false
  end = true.
Proof. by_eval. Qed.
Lemma probed_fresh :
  match (surface_fresh the_run api probed).1 with Ok b => b | Raise _ => false end = true.
Proof. by_eval. Qed.
Lemma freshness_gates_agree_witness :
  (surface_fresh the_run api probed).1 = Ok true ∧
  is_ok (require_fresh "r1" [api] (Some (sql_at (w_ticks probed))) probed).1 = true.
Proof.
  pose proof probed_fresh as Hf. pose proof probed_clear as Hc.
  assert ((surface_fresh the_run api probed).1 = Ok true) as Hg
    by (destruct ((surface_fresh the_run api probed).1) as [[]|]; [reflexivity|discriminate Hf|discriminate Hf]).
  split; [exact Hg|].
  pose proof (freshness_gates_agree observe_ops unobserved "r1" the_run api eq_refl eq_refl) as Hiff. cbv zeta in Hiff.
  refine (proj1 (Hiff _) Hg). clear Hiff Hg Hf. intros o Ho. change (rs_surface_key api) with "api" in Ho.
  destruct (head (surface_observations (w_db probed) the_run "api")) as [x|]; [|discriminate Hc].
  injection Ho as <-. apply andb_true_iff in Hc as [H1 H2]. split; [exact (clear_ofb_true _ _ H1)|exact (clear_ofb_true _ _ H2)].
Defined.
End Examples.
