(* ===== verification/Assemblies.v ===== *)
(** * What an assembled context contains ([context.py])

    An assembly is a fair selection: it partitions the project's items in the order
    of their rank, keeps within the budget, takes only eligible instructions and
    gives up on an eligible one only when it no longer fits.  And every instruction
    that it takes was attested to the registry's verifier of trusted sources. *)

From S2P Require Import Prelude PyStr Json Enums StateMachine Contracts Scope Db Store Identity.
From S2P Require Import Leases Scheduler Authority Gates Registries Policy Integration Evidence Observations.
From S2P Require Import Context Memory Promotions Evaluation Rules Adapters Workflow Services Kernel Replay System Commands.
From S2P Require Import Tables Parts Bench.
Import Context.

Local Open Scope string_scope.
Local Open Scope list_scope.
Local Open Scope Z_scope.

(** ** The loop over the items *)
Fixpoint tokens (l : list ContextItem) : Z :=
  match l with [] => 0 | r :: l => cx_token_estimate r + tokens l end.
Lemma tokens_app l1 l2 : tokens (l1 ++ l2) = tokens l1 + tokens l2.
Proof. induction l1 as [|r l1 IH]; simpl; [done|]. rewrite IH. lia. Qed.

(** The rest of a selection: what the loop takes of [rows] and what it rejects,
    with [used] tokens in use before. *)
Inductive picks (why : ContextItem → res (option string)) (budget : Z) :
    Z → list ContextItem → list ContextItem → list (ContextItem * string) → Prop :=
  | pk_none used : picks why budget used [] [] []
  | pk_take used r rows sel rej : why r = Ok None → used + cx_token_estimate r ≤ budget →
      picks why budget (used + cx_token_estimate r) rows sel rej → picks why budget used (r :: rows) (r :: sel) rej
  | pk_full used r rows sel rej : why r = Ok None → budget < used + cx_token_estimate r →
      picks why budget used rows sel rej → picks why budget used (r :: rows) sel ((r, "token_budget") :: rej)
  | pk_reject used r x rows sel rej : why r = Ok (Some x) →
      picks why budget used rows sel rej → picks why budget used (r :: rows) sel ((r, x) :: rej).

Lemma select_rows_picks why budget rows s s' :
  select_rows why budget s rows = Ok s' →
  ∃ sel rej, sl_selected s' = sl_selected s ++ sel ∧ sl_rejected s' = sl_rejected s ++ rej ∧
    sl_used s' = sl_used s + tokens sel ∧ picks why budget (sl_used s) rows sel rej.
Proof.
  revert s. induction rows as [|r rows IH]; intros s Hrun; simpl in Hrun.
  { rinv. exists [], []. rewrite !app_nil_r. split_and!; try done; [simpl; lia|constructor]. }
  apply res_bind_ok in Hrun as (s1 & Hrow & Hrun). unfold select_row in Hrow. cbv zeta in Hrow.
  apply res_bind_ok in Hrow as (reason & Hwhy & Hrow). destruct (IH _ Hrun) as (sel & rej & Hs & Hr & Hu & Hp).
  destruct reason as [x|]; [|destruct (budget <? sl_used s + cx_token_estimate r) eqn:Hb; bsplit];
    rinv; simpl in *.
  - exists sel, ((r, x) :: rej). rewrite <- app_assoc in Hr. split_and!; [done..|by apply pk_reject].
  - exists sel, ((r, "token_budget") :: rej). rewrite <- app_assoc in Hr. split_and!; [done..|by apply pk_full].
  - exists (r :: sel), rej. rewrite <- app_assoc in Hs. split_and!; [done..|simpl; lia|by apply pk_take].
Qed.

Section fair.
Context (why : ContextItem → res (option string)) (budget : Z).

Lemma picks_partition used rows sel rej : picks why budget used rows sel rej → sel ++ rej.*1 ≡ₚ rows.
Proof. induction 1; simpl; [done|by constructor|..]; rewrite <- Permutation_middle; by constructor. Qed.
Lemma picks_order used rows sel rej :
  picks why budget used rows sel rej → sel `sublist_of` rows ∧ rej.*1 `sublist_of` rows.
Proof. induction 1 as [|????????[]|????????[]|????????[]]; split; simpl; by constructor. Qed.
Lemma picks_budget used rows sel rej :
  picks why budget used rows sel rej → used ≤ budget → used + tokens sel ≤ budget.
Proof. induction 1; intros Hu; simpl; try specialize (IHpicks ltac:(lia)); lia. Qed.
Lemma picks_eligible used rows sel rej : picks why budget used rows sel rej → Forall (λ r, why r = Ok None) sel.
Proof. by induction 1; [constructor|constructor|..]. Qed.

(** Why the item was left out: it is not eligible, or it did not fit on top of what
    was taken before it. *)
Definition left_out (used : Z) (rows sel : list ContextItem) (r : ContextItem) (x : string) : Prop :=
  why r = Ok (Some x) ∨
  x = "token_budget" ∧ why r = Ok None ∧ ∃ before after taken, rows = before ++ r :: after ∧
    taken `prefix_of` sel ∧ taken `sublist_of` before ∧ budget < used + tokens taken + cx_token_estimate r.
Lemma picks_reasons used rows sel rej :
  picks why budget used rows sel rej → ∀ r x, (r, x) ∈ rej → left_out used rows sel r x.
Proof.
  induction 1 as [used|used r rows sel rej Hw Hb Hp IH|used r rows sel rej Hw Hb Hp IH|used r x rows sel rej Hw Hp IH];
    intros r' x' Hin; [by apply not_elem_of_nil in Hin|..].
  - destruct (IH r' x' Hin) as [?|(-> & Hok & before & after & taken & -> & Hpre & Hsub & Hlt)]; [by left|right].
    split_and!; [done..|]. exists (r :: before), after, (r :: taken). split_and!; [done| | |simpl; lia].
    + by apply prefix_cons.
    + by constructor.
  - apply elem_of_cons in Hin as [[= -> ->]|Hin].
    { right. split_and!; [done..|]. exists [], rows, []. split_and!; [done|apply prefix_nil|constructor|simpl; lia]. }
    destruct (IH r' x' Hin) as [?|(-> & Hok & before & after & taken & -> & Hpre & Hsub & Hlt)]; [by left|right].
    split_and!; [done..|]. exists (r :: before), after, taken. by split_and!; [| |constructor|].
  - apply elem_of_cons in Hin as [[= -> ->]|Hin]; [by left|].
    destruct (IH r' x' Hin) as [?|(-> & Hok & before & after & taken & -> & Hpre & Hsub & Hlt)]; [by left|right].
    split_and!; [done..|]. exists (r :: before), after, taken. by split_and!; [| |constructor|].
Qed.

(** A fair selection of [rows]. *)
Record fair (rows : list ContextItem) (s : Selection) : Prop := {
  fa_partition : sl_selected s ++ (sl_rejected s).*1 ≡ₚ rows;
  fa_order : sl_selected s `sublist_of` rows ∧ (sl_rejected s).*1 `sublist_of` rows;
  fa_budget : sl_used s = tokens (sl_selected s) ∧ sl_used s ≤ budget;
  fa_eligible : Forall (λ r, why r = Ok None) (sl_selected s);
  fa_reasons r x : (r, x) ∈ sl_rejected s → left_out 0 rows (sl_selected s) r x }.
Lemma select_rows_fair rows s : 0 ≤ budget → select_rows why budget nothing_selected rows = Ok s → fair rows s.
Proof.
  intros Hb (sel & rej & Hs & Hr & Hu & Hp)%select_rows_picks. simpl in *.
  constructor; rewrite ?Hs, ?Hr, ?Hu.
  - by eapply picks_partition.
  - by eapply picks_order.
  - split; [lia|]. pose proof (picks_budget _ _ _ _ Hp Hb). lia.
  - by eapply picks_eligible.
  - by apply picks_reasons.
Qed.
End fair.

(** ** What makes an item eligible *)
Section eligible.
Context `{ENV : Env}.

(** An instruction of the project, true to its source, imported on record, for one
    of the scopes asked for, in force at the instant, not superseded, and public
    enough. *)
Record eligible (d : DB) (a : AssembleArgs) (at_ : Instant) (r : ContextItem) : Prop := {
  eb_project : ∃ k, context_items (knowledge (effects (registry d))) !! k = Some r ∧ cx_project_id r = ab_project_id a;
  eb_source : source_digest (cx_source_ref r) (cx_content r) = cx_source_digest r;
  eb_instruction : cx_normative_status r ∈ INSTRUCTION_STATUSES;
  eb_trusted : ∃ e, e ∈ events d ∧ ev_event_type e = "trusted_context_imported" ∧ vouches e r = true;
  eb_scope : anyR (scopes_overlap (cx_scope r)) (ab_scopes a) = Ok true;
  eb_current : cx_effective_at r ≤ at_ ∧ ∀ t, cx_expires_at r = Some t → at_ < t;
  eb_newest : superseded_by d (ab_project_id a) at_ (project_items d (ab_project_id a)) r = None;
  eb_classification : cx_classification r ∈ classifications a }.

Lemma elem_project_items d p r :
  r ∈ project_items d p ↔ ∃ k, context_items (knowledge (effects (registry d))) !! k = Some r ∧ cx_project_id r = p.
Proof.
  unfold project_items. rewrite elem_of_order_by, elem_of_select, bool_decide_eq_true.
  naive_solver.
Qed.

Lemma ineligible_none d a at_ r :
  let rows := project_items d (ab_project_id a) in
  r ∈ rows → ineligible d a at_ rows r = Ok None → eligible d a at_ r.
Proof.
  intros rows Hr Hrun. apply elem_project_items in Hr. unfold ineligible in Hrun.
  destruct (bool_decide (_ = cx_source_digest r)) eqn:Hsrc; [|done]. simpl in Hrun.
  destruct (memb (cx_normative_status r) INSTRUCTION_STATUSES) eqn:Hinst; simpl in Hrun.
  2: { apply res_bind_ok in Hrun as ([] & _ & Hrun); simpl in Hrun; discriminate. }
  destruct (trusted d (ab_project_id a) r) eqn:Ht; [|done]. simpl in Hrun.
  apply res_bind_ok in Hrun as (overlap & Hov & Hrun). destruct overlap; [|done]. simpl in Hrun.
  destruct (at_ <? cx_effective_at r) eqn:Heff; [done|].
  destruct (match cx_expires_at r with Some t => t <=? at_ | None => false end) eqn:Hexp; [done|].
  destruct (superseded_by d (ab_project_id a) at_ rows r) as [?|] eqn:Hsup; [done|].
  destruct (memb (cx_classification r) (classifications a)) eqn:Hc; [|simpl in Hrun; by case_match]. bsplit.
  constructor; try done.
  - by apply memb_true.
  - unfold trusted in Ht. apply existsb_exists in Ht as (e & He & Hb). bsplit. exists e.
    split_and!; [by apply list_elem_of_In|congruence|done].
  - split; [done|]. intros t Hx. rewrite Hx in Hexp. by bsplit.
  - by apply memb_true.
Qed.
End eligible.

(** ** The operations of a registry *)
Section operations.
Context `{ENV : Env}.

(** What a registry whose verifier is [V] has the right to enter. *)
Definition attested (V : TrustedSourceVerifier) (r : ContextItem) : Prop :=
  ∃ a, V a = Ok true ∧ bound_by a = bound_of r.
Definition may_enter (V : TrustedSourceVerifier) (r : ContextItem) : Prop :=
  cx_normative_status r ∈ INSTRUCTION_STATUSES → attested V r.

Definition items (d : DB) : gmap string ContextItem := context_items (knowledge (effects (registry d))).
Inductive items_step (V : TrustedSourceVerifier) (d d' : DB) : Prop :=
  | it_other : items d' = items d → items_step V d d'
  | it_new r e : items d !! cx_id r = None → may_enter V r →
      d' = set_context_items <[cx_id r := r]> (logged [e] d) → items_step V d d'.

Lemma persist_ok record c event_type attestation w x w' :
  _persist record c event_type attestation w = (Ok x, w') →
  w_db w' = w_db w ∨
  ∃ e, items (w_db w) !! cx_id record = None ∧
    w_db w' = set_context_items <[cx_id record := record]> (logged [e] (w_db w)).
Proof.
  unfold _persist. intros Hrun. rinv.
  match goal with H : match ?o with _ => _ end _ = (Ok x, _) |- _ => destruct o as [old|] eqn:Hold; rinv; [by left|right] end.
  match goal with H : append_event _ _ = _ |- _ => pose proof (append_logged _ _ _ _ H) as (auth & now & Ha & Hdb) end.
  unfold insert_context_item in *. rinv. same_db. bsplit. cbn [tick drawn set_db w_db] in *.
  repeat match goal with H : w_db _ = w_db _ |- _ => rewrite H in *; clear H end. rewrite Hdb in *.
  eexists. split; [exact Hold|done].
Qed.
Lemma prepare_same args w r w' : _prepare_record args w = (Ok r, w') → w_db w' = w_db w.
Proof. intros Hrun. pose proof (pure_prepare args w) as Hp. by rewrite Hrun in Hp. Qed.

Lemma authoring_apart s : memb s AUTHORING_STATUSES = true → s ∉ INSTRUCTION_STATUSES.
Proof.
  intros Hs%memb_true Hi. unfold AUTHORING_STATUSES, INSTRUCTION_STATUSES in *.
  rewrite !elem_of_cons, elem_of_nil in *. by destruct_or!; subst.
Qed.

(** What an assembly answers, and what it leaves: nothing, or its row. *)
Record assembled (d : DB) (a : AssembleArgs) (at_ : Instant) (s : Selection) (digest : string) (d' : DB) : Prop := {
  am_selection : let rows := project_items d (ab_project_id a) in
    select_rows (ineligible d a at_ rows) (ab_token_budget a) nothing_selected rows = Ok s;
  am_digest : digest = content_hash (JObj (assembly_trace a at_ s));
  am_row : ∃ row, context_assemblies (knowledge (effects (registry d'))) !! ab_assembly_id a = Some row ∧
    as_digest row = digest;
  am_items : items d' = items d }.
Lemma assemble_ok args as_of actor policy w s digest w' :
  assemble args as_of actor policy w = (Ok (s, digest), w') →
  ∃ a, assemble_args args = Ok a ∧ assembled (w_db w) a (default (clock (w_ticks w)) as_of) s digest (w_db w').
Proof.
  unfold assemble, assert_execution. intros Hrun. rinv.
  match goal with H : assemble_args _ = Ok ?a |- _ => exists a; split; [done|] end.
  match goal with H : match ?o with _ => _ end _ = (Ok (s, digest), _) |- _ => destruct o as [old|] eqn:Hold end; rinv; simplify_eq.
  - bsplit. constructor; try done. by exists old.
  - match goal with H : append_event _ _ = _ |- _ => pose proof (append_logged _ _ _ _ H) as (auth & now & Ha & Hdb) end.
    unfold insert_assembly in *. rinv. same_db. cbn [tick drawn set_db w_db] in *.
    repeat match goal with H : w_db _ = w_db _ |- _ => rewrite H in *; clear H end. rewrite Hdb in *.
    constructor; try done. eexists. split; [apply lookup_insert_eq|done].
Qed.

Lemma context_op_step self op w r w' :
  run_context_op self op w = (Ok r, w') → items_step (cr_trusted_source_verifier self) (w_db w) (w_db w').
Proof.
  destruct op as [a c|a t c|a t n p]; simpl; unfold ignore; intros Hrun; rinv.
  - match goal with H : register _ _ _ = _ |- _ => unfold register in H; rinv end.
    match goal with H : _prepare_record _ _ = _ |- _ => apply prepare_same in H as Hw end.
    match goal with H : _persist _ _ _ _ _ = _ |- _ => apply persist_ok in H as [Hdb|(e & Hn & Hdb)] end; rewrite Hw in *.
    + apply it_other. by rewrite Hdb.
    + eapply it_new; [exact Hn| |exact Hdb]. intros Hi.
      by edestruct authoring_apart.
  - match goal with H : import_trusted _ _ _ _ _ = _ |- _ => unfold import_trusted in H; rinv end.
    match goal with H : _prepare_record _ _ = _ |- _ => apply prepare_same in H as Hw end.
    match goal with H : _validate_trusted_attestation _ _ _ _ = Ok ?u |- _ => unfold _validate_trusted_attestation in H; rinv end.
    match goal with H : _persist _ _ _ _ _ = _ |- _ => apply persist_ok in H as [Hdb|(e & Hn & Hdb)] end; rewrite Hw in *.
    + apply it_other. by rewrite Hdb.
    + eapply it_new; [exact Hn| |exact Hdb]. intros Hi. bsplit. subst. by exists t.
  - match goal with x : Selection * string |- _ => destruct x as [s digest] end. apply it_other.
    match goal with H : assemble _ _ _ _ _ = _ |- _ => apply assemble_ok in H as (b & _ & Hb) end. apply (am_items _ _ _ _ _ _ Hb).
Qed.
End operations.

(** ** Every assembly *)
Section assemblies.
Context `{ENV : Env}.

(** C23: an assembly is a fair selection of eligible instructions.  When [assemble]
    answers, what it selected and what it rejected are, in the order of their rank,
    exactly the project's items; every selected item is an instruction of the
    project, true to its source, imported on record, overlapping the scopes asked
    for, in force, not superseded and of an allowed classification; their tokens are
    within the budget; every rejected item is rejected for the reason given, and one
    rejected for the budget would not have fitted on top of those taken before it;
    and the assembly is on record under the digest of this very selection. *)
Theorem assembly_selects_fairly args as_of actor policy w s digest w' :
  assemble args as_of actor policy w = (Ok (s, digest), w') →
  ∃ a, assemble_args args = Ok a ∧
    let d := w_db w in let at_ := default (clock (w_ticks w)) as_of in let rows := project_items d (ab_project_id a) in
    fair (ineligible d a at_ rows) (ab_token_budget a) rows s ∧ Forall (eligible d a at_) (sl_selected s) ∧
    digest = content_hash (JObj (assembly_trace a at_ s)) ∧
    ∃ row, context_assemblies (knowledge (effects (registry (w_db w')))) !! ab_assembly_id a = Some row ∧
      as_digest row = digest.
Proof.
  intros (a & Ha & [Hs Hd Hrow _])%assemble_ok. exists a. split; [done|]. cbv zeta.
  assert (1 ≤ ab_token_budget a) as Hb by (unfold assemble_args in Ha; rinv; simpl; by bsplit).
  apply select_rows_fair in Hs as Hf; [|lia]. split_and!; [done| |done..].
  apply Forall_forall. intros r Hr. apply ineligible_none.
  - eapply elem_of_sublist; [exact Hr|apply (fa_order _ _ _ _ Hf)].
  - pose proof (fa_eligible _ _ _ _ Hf) as He. rewrite Forall_forall in He. by apply He.
Qed.

(** The registries of the commands all have the verifier [V]. *)
Definition verified_by (V : TrustedSourceVerifier) (op : SysOp) : Prop :=
  match op with SysService (SvContext s _) => cr_trusted_source_verifier s = V | _ => True end.
Definition items_inv (V : TrustedSourceVerifier) (d : DB) : Prop := map_Forall (λ _, may_enter V) (items d).

Lemma items_made : made_of items [].
Proof. split; [|done]. intros d d' _ Hs. unfold service_tables in Hs. unfold items. congruence. Qed.
Lemma sys_op_items V op w r w' :
  verified_by V op → run_sys_op op w = (r, w') → items_step V (w_db w) (w_db w').
Proof.
  intros HV Hrun. destruct r as [u|e]; [|apply failed_commands_change_nothing in Hrun as ->; by apply it_other].
  destruct (sys_op_apart items [] items_made V_context op w (Ok u) w') as [Hp|(so & -> & [Hso|[]])];
    [spares|done|done|exact Hrun|by apply it_other| |done].
  destruct so; try done. simpl in HV. rewrite <- HV. by eapply context_op_step.
Qed.
Lemma items_inv_ops V ops w :
  items (w_db w) = ∅ → Forall (verified_by V) ops → items_inv V (w_db (run_sys_ops ops w)).
Proof.
  intros Hw Hops. apply (run_sys_ops_keeps (verified_by V) (items_inv V) ops w); [|done|].
  - intros op HV w0 r w1 Hrun Hi. destruct (sys_op_items V op w0 r w1 HV Hrun) as [Hs|x e Hn He ->].
    + unfold items_inv. by rewrite Hs.
    + by apply map_Forall_insert_2.
  - unfold items_inv. by rewrite Hw.
Qed.

(** C14: nobody is instructed by context that no one vouched for.  In a system
    that started without context items and whose context registries all have the
    verifier [V], whatever commands ran, every item that [assemble] selects has the
    very fields of an attestation that [V] accepted, and an import event of the log
    vouches for it; so with a verifier that accepts nothing, such as the default one,
    nothing is ever selected. *)
Theorem selected_context_is_attested V ops w args as_of actor policy s digest w' :
  items (w_db w) = ∅ → Forall (verified_by V) ops → let w1 := run_sys_ops ops w in
  assemble args as_of actor policy w1 = (Ok (s, digest), w') →
  (∀ r, r ∈ sl_selected s → attested V r ∧
    ∃ e, e ∈ events (w_db w1) ∧ ev_event_type e = "trusted_context_imported" ∧ vouches e r = true) ∧
  ((∀ a, V a ≠ Ok true) → sl_selected s = []).
Proof.
  intros Hw Hops w1 Hrun.
  assert (∀ r, r ∈ sl_selected s → attested V r ∧
    ∃ e, e ∈ events (w_db w1) ∧ ev_event_type e = "trusted_context_imported" ∧ vouches e r = true) as Hall.
  { intros r Hr. destruct (assemble_ok _ _ _ _ _ _ _ _ Hrun) as (a & Ha & [Hs _ _ _]).
    assert (1 ≤ ab_token_budget a) as Hb by (unfold assemble_args in Ha; rinv; simpl; by bsplit).
    apply select_rows_fair in Hs as Hf; [|lia].
    assert (eligible (w_db w1) a (default (clock (w_ticks w1)) as_of) r) as He.
    { apply ineligible_none; [eapply elem_of_sublist; [exact Hr|apply (fa_order _ _ _ _ Hf)]|].
      pose proof (fa_eligible _ _ _ _ Hf) as He. rewrite Forall_forall in He. by apply He. }
    split; [|apply (eb_trusted _ _ _ _ He)]. destruct (eb_project _ _ _ _ He) as (k & Hk & _).
    exact (items_inv_ops V ops w Hw Hops k r Hk (eb_instruction _ _ _ _ He)). }
  split; [exact Hall|]. intros Hdeny. destruct (sl_selected s) as [|r l]; [done|].
  destruct (Hall r) as [(a & HV & _) _]; [left|]. by destruct (Hdeny a).
Qed.
End assemblies.

(** ** Witnesses: two items, of which the budget takes one *)
Module Examples.
Import Toy Sample Bench.

Definition item (i content : string) (priority : Z) : ItemArgs := {|
  ia_context_id := i; ia_project_id := "proj"; ia_scope := "src/app/x"; ia_source_ref := "docs/rules.md";
  ia_content := content; ia_classification := "internal"; ia_normative_status := "active"; ia_priority := priority;
  ia_token_estimate := Some 60; ia_observed_at := Some past; ia_effective_at := None;
  ia_expires_at := Some future; ia_supersedes := None |}.
Definition attestation (a : ItemArgs) : TrustedSourceAttestation :=
  let b := bound_of (item_row a past past past None) in {|
  ta_attestation_id := "att-" +:+ bd_context_id b; ta_proof := "signed"; ta_context_id := bd_context_id b;
  ta_project_id := bd_project_id b; ta_scope := bd_scope b; ta_source_ref := bd_source_ref b;
  ta_source_digest := bd_source_digest b; ta_classification := bd_classification b;
  ta_normative_status := bd_normative_status b; ta_priority := bd_priority b;
  ta_token_estimate := bd_token_estimate b; ta_observed_at := bd_observed_at b;
  ta_effective_at := bd_effective_at b; ta_expires_at := bd_expires_at b; ta_supersedes := bd_supersedes b;
  ta_policy_version := "v1" |}.
(** A verifier that knows one signature. *)
Definition signed : TrustedSourceVerifier := λ a,
  if bool_decide (ta_proof a = "signed") then Ok true else Raise AuthorizationError.
Definition registry : ContextRegistry := {| cr_trusted_source_verifier := signed |}.
Definition caller : Caller := {| who_actor := "p-olga"; who_policy := "v1"; who_command_id := None; who_correlation_id := None |}.
Definition import (a : ItemArgs) : SysOp := SysService (SvContext registry (CoImport a (attestation a) caller)).
Definition context_ops : list SysOp :=
  [import (item "c1" "draw with care" 1); import (item "c2" "never draw twice" 2)].
(** The adopted task, which may read the code as well. *)
Definition reader_spec : TaskSpec := Eval vm_compute in
  match TaskSpec_from_dict (("read_scope", jstrs ["src/app/x"]) :: Spine.task_dict) with Ok t => t | Raise _ => sample_task end.
Definition reads (t : TaskRow) : TaskRow := {|
  t_id := t_id t; t_goal_id := t_goal_id t; t_run_id := t_run_id t; t_project_id := t_project_id t;
  t_state := t_state t; t_spec := reader_spec; t_version := t_version t; t_attempt_count := t_attempt_count t;
  t_due_at := t_due_at t; t_last_error := t_last_error t; t_created_at := t_created_at t; t_updated_at := t_updated_at t |}.
Local Notation adopted := (set_db (set_tasks (alter reads "t1")) (run_sys_ops adopt_ops genesis)).
Local Notation informed := (run_sys_ops context_ops adopted).

Definition request : AssembleArgs := {|
  ab_assembly_id := "as1"; ab_project_id := "proj"; ab_run_id := "r1"; ab_task_id := "t1"; ab_scopes := ["src/app/x"];
  ab_token_budget := 100; ab_allowed_classifications := None |}.
Local Notation answer := (assemble request None "p-alice" "v1").

Lemma the_answer :
  match (answer informed).1 with
  | Ok (s, _) => bool_decide (cx_id <$> sl_selected s = ["c2"])
                 && bool_decide ((λ rx, (cx_id rx.1, rx.2)) <$> sl_rejected s = [("c1", "token_budget")])
  | Raise _ => false
  end = true.
Proof. by_eval. Qed.
Lemma adopted_items : items (w_db adopted) = ∅.
Proof.
  assert (bool_decide (map_to_list (items (w_db adopted)) = []) = true) as Hi by by_eval.
  by apply bool_decide_eq_true, map_to_list_empty_iff in Hi.
Qed.
Lemma context_verified : Forall (verified_by signed) context_ops.
Proof. repeat constructor. Qed.

Lemma assembly_selects_fairly_witness :
  ∃ s digest w' a, answer informed = (Ok (s, digest), w') ∧ cx_id <$> sl_selected s = ["c2"] ∧
    Forall (eligible (w_db informed) a (clock (w_ticks informed))) (sl_selected s).
Proof.
  pose proof the_answer as Hok. destruct (answer informed) as [[[s digest]|e] w'] eqn:Hrun; [|discriminate Hok].
  apply andb_true_iff in Hok as [Hsel _]. apply bool_decide_eq_true in Hsel.
  destruct (assembly_selects_fairly request None "p-alice" "v1" informed s digest w' Hrun) as (a & _ & _ & He & _).
  exists s, digest, w', a. split_and!; [reflexivity|exact Hsel|exact He].
Defined.

Lemma selected_context_is_attested_witness :
  ∃ s digest w', answer informed = (Ok (s, digest), w') ∧ ∃ r, r ∈ sl_selected s ∧ attested signed r.
Proof.
  pose proof the_answer as Hok. destruct (answer informed) as [[[s digest]|e] w'] eqn:Hrun; [|discriminate Hok].
  apply andb_true_iff in Hok as [Hsel _]. apply bool_decide_eq_true in Hsel.
  destruct (selected_context_is_attested signed context_ops adopted request None "p-alice" "v1" s digest w'
    adopted_items context_verified Hrun) as [Hall _].
  destruct (sl_selected s) as [|r l] eqn:Hs; [discriminate Hsel|].
  exists s, digest, w'. split; [reflexivity|]. rewrite Hs. exists r. split; [left|]. apply (Hall r). left.
Defined.
End Examples.
