(* ===== verification/Improvements.v ===== *)
(** * Evaluations are used once, rules are promoted by owners ([evaluation.py])

    Through any commands: a sealed dataset is used by one evaluation at most; a
    limited or active proposal carries an owner's approval of this very promotion
    and a clean held-out evaluation; and four different people stand behind an
    active one. *)

From S2P Require Import Prelude PyStr Json Enums StateMachine Contracts Scope Db Store Identity.
From S2P Require Import Leases Scheduler Authority Gates Registries Policy Integration Evidence Observations.
From S2P Require Import Context Memory Promotions Evaluation Rules Adapters Workflow Services Kernel Replay System Commands.
From S2P Require Import Tables Parts Grants Bench.
Import Promotions Evaluation Rules.

Local Open Scope string_scope.
Local Open Scope list_scope.
Local Open Scope Z_scope.

(** ** What the operations do to the tables *)
Section operations.
Context `{ENV : Env}.

Definition evals (d : DB) : gmap string EvalRow := eval_runs (knowledge (effects (registry d))).
Definition custodies (d : DB) : gmap string Custody := custody (knowledge (effects (registry d))).
Definition evaluation_part (d : DB) := (evals d, proposals (registry d), custodies d).
Lemma evaluation_made : made_of evaluation_part [].
Proof.
  split; [|done]. intros d d' _ Hs. unfold service_tables in Hs. unfold evaluation_part, evals, custodies. congruence.
Qed.

(** A sealed dataset that nothing has used yet. *)
Definition unburned (d : DB) (row : EvalRow) : Prop :=
  el_dataset_split row = "sealed" →
  ∀ k e, evals d !! k = Some e → el_dataset_split e = "sealed" → el_dataset_digest e ≠ el_dataset_digest row.

Lemma burned_false d g : burned d g = false →
  ∀ k e, evals d !! k = Some e → el_dataset_split e = "sealed" → el_dataset_digest e ≠ g.
Proof.
  unfold burned. intros Hb k e He Hs Hg. assert (e ∈ rows (evals d)) as Hin by (apply elem_of_rows; by exists k).
  pose proof (existsb_false_In _ _ Hb e Hin) as Hf. simpl in Hf. by rewrite !bool_decide_eq_true_2 in Hf.
Qed.

Lemma record_eval_ok self a evaluator attestation w row w' :
  record_eval self a evaluator attestation w = (Ok row, w') →
  w_db w' = w_db w ∨
  ∃ e, evals (w_db w) !! el_id row = None ∧ unburned (w_db w) row ∧
    vf_verify (eg_result_verifier self) attestation = Ok true ∧
    w_db w' = set_eval_runs <[el_id row := row]> (logged [e] (w_db w)).
Proof.
  unfold record_eval. intros Hrun. rinv.
  match goal with x : string * string * string * string * string |- _ => destruct x as [[[[project candidate] name] split] digest] end.
  rinv. match goal with x : string * string * _ * list string |- _ => destruct x as [[[version status] metrics] failures] end.
  rinv. match goal with H : match ?o with _ => _ end _ = (Ok row, _) |- _ => destruct o as [old|] eqn:Hold end;
    match goal with H : require_role ?v ?r ?w0 = _ |- _ =>
      pose proof (pure_require_role v r w0) as Hrole; rewrite H in Hrole; simpl in Hrole end; rinv; same_db.
  - left. cbn [tick w_db] in *. congruence.
  - right. match goal with H : append_event _ _ = _ |- _ => pose proof (append_logged _ _ _ _ H) as (auth & now & Ha & Hdb) end.
    unfold insert_eval in *. rinv. bsplit. cbn [tick drawn set_db w_db] in *.
    repeat match goal with H : w_db _ = w_db _ |- _ => rewrite H in *; clear H end. rewrite Hdb in *.
    eexists. split_and!; [exact Hold| |by subst|done].
    intros Hs. simpl in Hs. subst split. apply burned_false. match goal with H : _ && _ = false |- _ => rewrite andb_false_iff in H; destruct H end; by bsplit.
Qed.

Lemma propose_ok self a proposer i w p w' :
  propose self a proposer i w = (Ok p, w') →
  ip_state p = P_CANDIDATE ∧ ip_held_in_eval_id p = None ∧ ip_held_out_eval_id p = None ∧ ip_sealed_eval_id p = None ∧
  proposals (registry (w_db w)) !! ip_id p = None ∧
  ∃ e, w_db w' = set_proposals <[ip_id p := p]> (logged [e] (w_db w)).
Proof.
  unfold propose. intros Hrun. rinv. same_db.
  match goal with H : append_event _ _ = _ |- _ => pose proof (append_logged _ _ _ _ H) as (auth & now & Ha & Hdb) end.
  unfold insert_proposal in *. rinv. cbn [tick drawn set_db w_db] in *.
  repeat match goal with H : w_db _ = w_db _ |- _ => rewrite H in *; clear H end. rewrite Hdb in *.
  match goal with H : absent _ _ = true |- _ => apply absent_true in H end.
  split_and!; [done..|by eexists].
Qed.

(** An evaluation of this candidate by someone other than the proposer. *)
Definition independent (d : DB) (k : string) (p : Proposal) (e : EvalRow) : Prop :=
  el_project_id e = ip_project_id p ∧ el_candidate_digest e = ip_candidate_digest p ∧
  ∃ maker, proposer_of d k = Some maker ∧ maker ≠ el_evaluator e.

Lemma attach_eval_ok self proposal_id eval_id actor w x w' :
  attach_eval self proposal_id eval_id actor w = (Ok x, w') →
  ∃ k i p e st now ev, proposals (registry (w_db w)) !! k = Some p ∧ evals (w_db w) !! i = Some e ∧
    independent (w_db w) k p e ∧ attach_target (w_db w) p e = Ok st ∧
    w_db w' = set_proposals (alter (attached (el_dataset_split e) i st now) k) (logged [ev] (w_db w)).
Proof.
  unfold attach_eval. intros Hrun. rinv. same_db.
  match goal with H : append_event _ _ = _ |- _ => pose proof (append_logged _ _ _ _ H) as (auth & now & Ha & Hdb) end.
  cbn [tick drawn set_db w_db] in *. bsplit.
  repeat match goal with H : w_db _ = w_db _ |- _ => rewrite H in *; clear H end. rewrite Hdb in *.
  match goal with H : match proposer_of _ ?k with _ => _ end = true |- _ =>
    destruct (proposer_of (w_db w) k) as [maker|] eqn:Hmaker; [|discriminate H]; bsplit end.
  eexists _, _, _, _, _, _, _. split_and!; [eassumption|eassumption| |eassumption|done].
  split_and!; [done..|by exists maker].
Qed.
Lemma custody_ok self proposal_id attestation w x w' :
  record_sealed_custody_attestation self proposal_id attestation w = (Ok x, w') →
  w_db w' = w_db w ∨
  ∃ c e, custodies (w_db w) !! sa_attestation_id c = None ∧
    w_db w' = set_custody <[sa_attestation_id c := c]> (logged [e] (w_db w)).
Proof.
  unfold record_sealed_custody_attestation, verified_snapshot. intros Hrun. rinv.
  match goal with H : match ?o with _ => _ end _ = (Ok x, _) |- _ => destruct o as [old|] eqn:Hold end; rinv;
    match goal with H : verify_event_chain _ = _ |- _ => apply chain_pure in H as -> end; [by left|right].
  match goal with H : append_event _ _ = _ |- _ => pose proof (append_logged _ _ _ _ H) as (auth & now & Ha & Hdb) end.
  unfold insert_custody in *. rinv. cbn [tick drawn set_db w_db] in *. rewrite Hdb in *.
  eexists _, _. split; [|done]. exact Hold.
Qed.

(** ** Promotions *)

(** The row approves this promotion: the capability, the action and the proposal,
    in its project and run.  [promotes] below says of which request and by whom. *)
Definition approves (p : Proposal) (st : ProposalState) (a : Approval) : Prop :=
  av_decision a = "approved" ∧ av_capability a = value C_ACTIVE_RULE_PROMOTION ∧ av_action a = promotion_action st ∧
  promotion_resource (ip_id p) = Ok (av_resource a) ∧ av_project_id a = ip_project_id p ∧
  av_run_id a = ip_source_run_id p.

(** The request that an approval of the promotion has to be of, by its digest and its
    source task, as the tables stand. *)
Inductive requested (self : EvaluationRegistry) (d : DB) (p : Proposal) : ProposalState → string → string → Prop :=
  | requested_limited request : _build_limited_request self d p (args_of request) None = Ok request →
      requested self d p P_LIMITED (limited_request_digest request) (lr_source_task_id request)
  | requested_active sealed limited digest : eval_of d (ip_sealed_eval_id p) = Some sealed → clean_pass sealed = true →
      active_request self d p sealed = Ok (limited, digest) →
      requested self d p P_ACTIVE digest (lr_source_task_id (lm_request limited)).

(** The approval is of exactly the request for this promotion, and its approver is an
    owner with a live session. *)
Definition promotes (d : DB) (p : Proposal) (st : ProposalState) (a : Approval) : Prop :=
  ∃ self approver, av_approver a = Some approver ∧ live_owner d approver ∧
    av_policy_version a = eg_policy_version self ∧ requested self d p st (av_request_digest a) (av_task_id a).

(** The clean held-out evaluation of the proposal. *)
Definition validated (d : DB) (p : Proposal) : Prop :=
  ∃ e, eval_of d (ip_held_out_eval_id p) = Some e ∧ clean_pass e = true ∧ el_dataset_split e = "held_out" ∧
    el_project_id e = ip_project_id p ∧ el_candidate_digest e = ip_candidate_digest p.

(** Who stands behind an active rule: the proposer, the evaluator of the sealed
    dataset, its custodian and the principal who approved are four. *)
Record separated (d : DB) (p : Proposal) (approval_id : string) : Prop := {
  sp_sealed : ∃ e, eval_of d (ip_sealed_eval_id p) = Some e ∧ clean_pass e = true ∧ el_dataset_split e = "sealed" ∧
    el_candidate_digest e = ip_candidate_digest p ∧
    ∃ maker c a owner, proposer_of d (ip_id p) = Some maker ∧
      (∃ k, custodies d !! k = Some c) ∧ sa_proposal_id c = ip_id p ∧ sa_eval_id c = el_id e ∧
      approvals (registry d) !! approval_id = Some a ∧ av_approver a = Some owner ∧
      NoDup [maker; el_evaluator e; sa_custodian_id c; owner] }.

Lemma the_event_ok es e : the_event es = Ok e → es = [e].
Proof. destruct es as [|e0 [|e1 es]]; try done. simpl. by intros [= ->]. Qed.
Lemma proposal_event_ok self d p e : _verified_proposal_event self d p = Ok e → proposer_of d (ip_id p) = Some (ev_actor e.2).
Proof.
  unfold _verified_proposal_event. intros Hrun. rinv.
  match goal with H : the_event _ = Ok _ |- _ => apply the_event_ok in H end. unfold proposer_of.
  match goal with H : events_of _ _ _ _ = _ |- _ => by rewrite H end.
Qed.
Lemma heldout_ok d p e : heldout_of d p = Ok e → validated d p.
Proof. unfold heldout_of. intros Hrun. rinv. bsplit. by exists e. Qed.

Lemma custody_of_ok d k c : custody_of d k = Some c → (∃ i, custodies d !! i = Some c) ∧ sa_proposal_id c = k.
Proof.
  unfold custody_of. intros [Hin Hk]%List.find_some. apply bool_decide_eq_true in Hk.
  apply list_elem_of_In, elem_of_rows in Hin. by split.
Qed.

Lemma live_approval_ok self d p st g i actor resource now a :
  live_approval self d p st g i actor resource now = Some a →
  approvals (registry d) !! i = Some a ∧ av_approver a = Some actor ∧ av_decision a = "approved" ∧
  av_capability a = value C_ACTIVE_RULE_PROMOTION ∧ av_action a = promotion_action st ∧ av_resource a = resource ∧
  av_project_id a = ip_project_id p ∧ av_run_id a = ip_source_run_id p ∧ av_policy_version a = eg_policy_version self ∧
  av_request_digest a = gt_request_digest g ∧ av_task_id a = gt_source_task_id g.
Proof.
  unfold live_approval. intros H. destruct (approvals (registry d) !! i) as [a'|] eqn:Ha; [|discriminate H].
  simpl in H. destruct (_ && _) eqn:Hb in H; [|discriminate H]. injection H as ->. bsplit. simplify_eq. done.
Qed.

Lemma separated_ok self d p a approval_id record_id payload actor :
  approvals (registry d) !! approval_id = Some a → av_approver a = Some actor →
  active_promotion self d p a approval_id record_id = Ok payload → separated d p approval_id.
Proof.
  unfold active_promotion, _assemble_active_rule_promotion_record. intros Ha Hactor Hrun. rinv.
  match goal with x : LimitedRulePromotionRecord * _ * _ |- _ => destruct x as [[limited lev] aev] end. rinv.
  match goal with x : Custody * _ |- _ => destruct x as [c cev] end. rinv.
  match goal with H : _verified_proposal_event _ _ _ = Ok _ |- _ => apply proposal_event_ok in H end.
  match goal with H : _verified_sealed_custody _ _ _ _ _ _ = Ok _ |- _ => unfold _verified_sealed_custody in H; rinv end.
  match goal with H : custody_of _ _ = Some _ |- _ => apply custody_of_ok in H as [Hc Hp] end.
  match goal with H : sealed_of _ _ = Ok ?e |- _ => unfold sealed_of in H; rinv end. bsplit.
  constructor. eexists. split_and!; try eassumption. eexists _, _, _, _. split_and!; try eassumption.
  by apply no_dups_true.
Qed.

(** A step of [promote], from the proposal that it found. *)
Record promoting (d : DB) (p : Proposal) (st : ProposalState) (approval_id : string) : Prop := {
  pm_target : st = P_LIMITED ∨ st = P_ACTIVE;
  pm_source : ip_state p = promotion_source st;
  pm_approval : ∃ a, approvals (registry d) !! approval_id = Some a ∧ approves p st a ∧ promotes d p st a;
  pm_limited : st = P_LIMITED → validated d p;
  pm_active : st = P_ACTIVE → separated d p approval_id }.

Lemma gate_requested self d p heldout request st g :
  st = P_LIMITED ∨ st = P_ACTIVE →
  (if bool_decide (st = P_LIMITED) then limited_gate self d p heldout request else active_gate self d p request) = Ok g →
  requested self d p st (gt_request_digest g) (gt_source_task_id g).
Proof.
  intros [->| ->]; [rewrite bool_decide_eq_true_2 by done|rewrite bool_decide_eq_false_2 by done];
    [unfold limited_gate|unfold active_gate]; intros Hrun; rinv; bsplit; simpl.
  - subst. by constructor.
  - match goal with x : LimitedRulePromotionRecord * string |- _ => destruct x end. by econstructor.
Qed.

Lemma promote_ok self proposal_id target i actor request w x w' :
  promote self proposal_id target i actor request w = (Ok x, w') →
  ∃ k p st approval_id now ev, proposals (registry (w_db w)) !! k = Some p ∧ (ip_id p = k → promoting (w_db w) p st approval_id) ∧
    w_db w' = set_proposals (alter (with_promotion st approval_id now) k) (logged [ev] (w_db w)).
Proof.
  unfold promote. intros Hrun. rinv.
  match goal with H : verify_event_chain _ = _ |- _ => apply chain_pure in H as -> end. same_db.
  match goal with H : append_event _ _ = _ |- _ => pose proof (append_logged _ _ _ _ H) as (auth & now & Ha & Hdb) end.
  cbn [tick drawn set_db w_db] in *. bsplit.
  match goal with H : live_approval _ _ _ _ _ _ _ _ _ = Some ?a |- _ => rename H into Hlive, a into approval end.
  apply live_approval_ok in Hlive as (Hap & Happrover & Hdec & Hcap & Hact & Hres & Hpr & Hru & Hpol & Hdig & Htask).
  match goal with H : require_role_in_transaction _ _ _ = _ |- _ =>
    pose proof (verify_live _ _ _ _ _ H) as Howner; apply verify_ok in H as (_ & ? & ? & _ & _ & _ & _ & Hactor & _) end.
  repeat match goal with H : w_db _ = w_db _ |- _ => rewrite H in *; clear H end. rewrite Hdb in *.
  eexists _, _, _, _, _, _. split_and!; [eassumption| |done]. intros Hid.
  match goal with H : promotion_target _ = Ok ?t |- _ => unfold promotion_target in H;
    destruct (of_value target) as [st|] eqn:Hst; [rinv; rename t into st'|done] end.
  match goal with H : memb st' _ = true |- _ => apply memb_true in H; rewrite !elem_of_cons, elem_of_nil in H; rename H into Htarget end.
  constructor; [tauto|done| | |].
  - exists approval. split; [done|]. split; [by split_and!|]. eexists self, _. split_and!; [done| |done|].
    + rewrite Hactor. by eexists.
    + rewrite Hdig, Htask. eapply gate_requested; [tauto|eassumption].
  - intros ->. rewrite bool_decide_eq_true_2 in * by done.
    match goal with H : limited_gate _ _ _ _ _ = Ok _ |- _ => unfold limited_gate in H; rinv end.
    match goal with H : _build_limited_request _ _ _ _ _ = Ok _ |- _ => unfold _build_limited_request in H;
      apply res_bind_ok in H as (? & _ & H); apply res_bind_ok in H as (? & Hheld & _) end.
    by eapply heldout_ok.
  - intros ->. rewrite bool_decide_eq_false_2 in * by done. by eapply separated_ok.
Qed.

(** ** The tables through any command *)
Inductive evaluation_step (d d' : DB) : Prop :=
  | es_other : evaluation_part d' = evaluation_part d → evaluation_step d d'
  | es_record row e : evals d !! el_id row = None → unburned d row →
      d' = set_eval_runs <[el_id row := row]> (logged [e] d) → evaluation_step d d'
  | es_propose p e : proposals (registry d) !! ip_id p = None → ip_state p = P_CANDIDATE →
      ip_held_in_eval_id p = None → ip_held_out_eval_id p = None → ip_sealed_eval_id p = None →
      d' = set_proposals <[ip_id p := p]> (logged [e] d) → evaluation_step d d'
  | es_attach k i p e st now ev : proposals (registry d) !! k = Some p → evals d !! i = Some e → independent d k p e →
      attach_target d p e = Ok st →
      d' = set_proposals (alter (attached (el_dataset_split e) i st now) k) (logged [ev] d) → evaluation_step d d'
  | es_custody c e : custodies d !! sa_attestation_id c = None →
      d' = set_custody <[sa_attestation_id c := c]> (logged [e] d) → evaluation_step d d'
  | es_promote k p st approval_id now ev : proposals (registry d) !! k = Some p →
      (ip_id p = k → promoting d p st approval_id) →
      d' = set_proposals (alter (with_promotion st approval_id now) k) (logged [ev] d) → evaluation_step d d'.

Lemma eval_op_step self op w r w' : run_eval_op self op w = (Ok r, w') → evaluation_step (w_db w) (w_db w').
Proof.
  destruct op; simpl; unfold ignore; intros Hrun; rinv.
  - match goal with H : record_eval _ _ _ _ _ = _ |- _ => apply record_eval_ok in H as [Hdb|(e & Hn & Hu & _ & Hdb)] end;
      [apply es_other; by rewrite Hdb|by eapply es_record].
  - match goal with H : propose _ _ _ _ _ = _ |- _ => apply propose_ok in H as (? & ? & ? & ? & ? & e & Hdb) end.
    by eapply es_propose.
  - match goal with H : attach_eval _ _ _ _ _ = _ |- _ => apply attach_eval_ok in H as (k & i & p & e & st & now & ev & ? & ? & ? & ? & Hdb) end.
    by eapply es_attach.
  - match goal with H : record_sealed_custody_attestation _ _ _ _ = _ |- _ => apply custody_ok in H as [Hdb|(c & e & Hn & Hdb)] end;
      [apply es_other; by rewrite Hdb|by eapply es_custody].
  - match goal with H : promote _ _ _ _ _ _ _ = _ |- _ => apply promote_ok in H as (k & p & st & i & now & ev & ? & ? & Hdb) end.
    by eapply es_promote.
Qed.
Lemma sys_op_evaluation op w r w' : run_sys_op op w = (r, w') → evaluation_step (w_db w) (w_db w').
Proof.
  intros Hrun. destruct r as [u|e]; [|apply failed_commands_change_nothing in Hrun as ->; by apply es_other].
  destruct (sys_op_apart evaluation_part [] evaluation_made V_evaluate op w (Ok u) w') as [Hp|(so & -> & [Hso|[]])];
    [spares|done|done|exact Hrun|by apply es_other| |done].
  destruct so; try done. by eapply eval_op_step.
Qed.
End operations.

(** ** What an invariant may rest on: rows that stay *)
Section invariants.
Context `{ENV : Env}.

Record wider (d d' : DB) : Prop := {
  wd_events : events d `prefix_of` events d';
  wd_evals : evals d ⊆ evals d';
  wd_custodies : custodies d ⊆ custodies d';
  wd_approvals : approvals (registry d) ⊆ approvals (registry d') }.

Lemma tables_grow d d' : evaluation_step d d' → evals d ⊆ evals d' ∧ custodies d ⊆ custodies d'.
Proof.
  intros [Hp|row e Hn _ ->|p e _ _ _ _ _ ->|k i p e st now ev _ _ _ _ ->|c e Hn ->|k p st i now ev _ _ ->]; try done.
  - unfold evaluation_part in Hp. injection Hp as -> _ ->. done.
  - split; [by apply insert_subseteq|done].
  - split; [done|by apply insert_subseteq].
Qed.
Lemma sys_op_wider op w r w' : run_sys_op op w = (r, w') → wider (w_db w) (w_db w').
Proof.
  intros Hrun. destruct (tables_grow _ _ (sys_op_evaluation _ _ _ _ Hrun)) as [He Hc]. constructor; try done.
  - by apply (gw_events _ _ (sys_op_grows (w_db w) op w r w' Hrun ltac:(done))).
  - by eapply approvals_step, sys_op_step.
Qed.

Section wider.
Context (d d' : DB) (Hw : wider d d').
Lemma eval_of_wider o e : eval_of d o = Some e → eval_of d' o = Some e.
Proof. destruct o as [i|]; [|done]. simpl. intros He. eapply lookup_weaken; [exact He|apply (wd_evals _ _ Hw)]. Qed.
Lemma proposer_wider k maker : proposer_of d k = Some maker → proposer_of d' k = Some maker.
Proof.
  unfold proposer_of, events_of, log. destruct (wd_events _ _ Hw) as [l ->]. rewrite imap_app, List.filter_app.
  by destruct (List.filter _ (imap _ (events d))).
Qed.
Lemma validated_wider p : validated d p → validated d' p.
Proof. intros (e & He & Hrest). exists e. split; [by apply eval_of_wider|done]. Qed.
Lemma independent_wider k p e : independent d k p e → independent d' k p e.
Proof. intros (? & ? & maker & Hm & ?). split_and!; [done..|]. exists maker. split; [by apply proposer_wider|done]. Qed.
Lemma separated_wider p i : separated d p i → separated d' p i.
Proof.
  intros [(e & He & ? & ? & ? & maker & c & a & owner & Hm & [j Hj] & ? & ? & Ha & ? & ?)]. constructor.
  exists e. split_and!; [by apply eval_of_wider|done..|]. exists maker, c, a, owner. split_and!; try done.
  - by apply proposer_wider.
  - exists j. eapply lookup_weaken; [exact Hj|apply (wd_custodies _ _ Hw)].
  - eapply lookup_weaken; [exact Ha|apply (wd_approvals _ _ Hw)].
Qed.
End wider.

(** ** Every proposal *)
Definition promoted_state (st : ProposalState) : Prop := st = P_LIMITED ∨ st = P_ACTIVE.
Definition attached_to (p : Proposal) (i : string) : Prop :=
  ip_held_in_eval_id p = Some i ∨ ip_held_out_eval_id p = Some i ∨ ip_sealed_eval_id p = Some i.

(** What is true of a proposal at all times. *)
Record sound (d : DB) (k : string) (p : Proposal) : Prop := {
  so_key : ip_id p = k;
  so_attached i : attached_to p i → ∃ e, evals d !! i = Some e ∧ independent d k p e;
  so_approved : promoted_state (ip_state p) → ∃ i a, ip_owner_approval_id p = Some i ∧
    approvals (registry d) !! i = Some a ∧ approves p (ip_state p) a;
  so_validated : promoted_state (ip_state p) → validated d p;
  so_separated : ip_state p = P_ACTIVE → ∃ i, ip_owner_approval_id p = Some i ∧ separated d p i }.
Definition proposals_inv (d : DB) : Prop := map_Forall (sound d) (proposals (registry d)).

Lemma sound_wider d d' k p : wider d d' → sound d k p → sound d' k p.
Proof.
  intros Hw [Hk Hat Hap Hv Hs]. constructor; [done|..].
  - intros i Hi. destruct (Hat i Hi) as (e & He & Hind). exists e.
    split; [eapply lookup_weaken; [exact He|apply (wd_evals _ _ Hw)]|by eapply independent_wider].
  - intros Hst. destruct (Hap Hst) as (i & a & ? & Ha & ?). exists i, a.
    split_and!; [done|eapply lookup_weaken; [exact Ha|apply (wd_approvals _ _ Hw)]|done].
  - intros Hst. by eapply validated_wider, Hv.
  - intros Hst. destruct (Hs Hst) as (i & ? & ?). exists i. split; [done|by eapply separated_wider].
Qed.

(** An attachment leads to a promoted state only from limited, with a sealed evaluation. *)
Lemma attach_target_promoted d p e st :
  attach_target d p e = Ok st → promoted_state st →
  st = P_LIMITED ∧ ip_state p = P_LIMITED ∧ el_dataset_split e ≠ "held_in" ∧ el_dataset_split e ≠ "held_out".
Proof.
  unfold attach_target. intros Hrun Hst. destruct (clean_pass e); simpl in Hrun; [|rinv; by destruct Hst].
  destruct (bool_decide (_ = "held_in")) eqn:Hin; [rinv; by destruct Hst|].
  destruct (bool_decide (_ = "held_out")) eqn:Hout; [rinv; by destruct Hst|]. rinv. bsplit. done.
Qed.

Lemma sound_attached d k i p e st now :
  evals d !! i = Some e → independent d k p e → attach_target d p e = Ok st → sound d k p →
  sound d k (attached (el_dataset_split e) i st now p).
Proof.
  intros He Hind Ht [Hk Hat Hap Hv Hs]. constructor; simpl; [done|..].
  - intros j Hj. assert (j = i ∨ attached_to p j) as [Hji|Ho].
    { unfold attached_to in *. simpl in Hj. repeat case_bool_decide; destruct Hj as [Hj|[Hj|Hj]]; naive_solver. }
    + subst j. by exists e.
    + by apply Hat.
  - intros Hst. destruct (attach_target_promoted _ _ _ _ Ht Hst) as (-> & Hp & _). rewrite Hp in Hap. apply Hap. by left.
  - intros Hst. destruct (attach_target_promoted _ _ _ _ Ht Hst) as (-> & Hp & _ & Hout).
    destruct Hv as (h & Hh & Hrest); [rewrite Hp; by left|]. exists h. simpl. by rewrite bool_decide_eq_false_2.
  - intros ->. by destruct (attach_target_promoted _ _ _ _ Ht (or_intror eq_refl)).
Qed.

Lemma sound_promoted d k p st i now :
  promoting d p st i → sound d k p → sound d k (with_promotion st i now p).
Proof.
  intros [Hst Hsrc (a & Ha & Hok & _) Hlim Hact] [Hk Hat Hap Hv Hs]. constructor; simpl; [done|done|..].
  - intros _. by exists i, a.
  - intros _. destruct Hst as [Hs1|Hs1]; rewrite Hs1 in *; [exact (Hlim eq_refl)|]. apply Hv. rewrite Hsrc. by left.
  - intros ->. exists i. split; [done|]. destruct (Hact eq_refl) as [Hsep]. by constructor.
Qed.

Lemma proposals_inv_step d d' : evaluation_step d d' → wider d d' → proposals_inv d → proposals_inv d'.
Proof.
  intros Hstep Hw Hi. assert (map_Forall (sound d') (proposals (registry d))) as Hi'.
  { intros k p Hp. by eapply sound_wider, Hi. }
  destruct Hstep as [Hp|row e Hn _ Hd|p e Hn Hst Hin Hout Hsl Hd|k i p e st now ev Hp He Hind Ht Hd|c e Hn Hd|k p st i now ev Hp Hpm Hd].
  - unfold evaluation_part in Hp. injection Hp as _ Hp _. unfold proposals_inv. by rewrite Hp.
  - unfold proposals_inv. by rewrite Hd in Hi' |- *.
  - unfold proposals_inv. rewrite Hd at 2. simpl. apply map_Forall_insert_2; [|done].
    constructor; [done| |by rewrite Hst; intros []..|by rewrite Hst].
    unfold attached_to. rewrite Hin, Hout, Hsl. by intros i [|[|]].
  - intros j q Hq. rewrite Hd in Hq. simpl in Hq. apply lookup_alter_Some in Hq as [(<- & q0 & Hq0 & ->)|[_ Hq]]; [|by apply Hi'].
    rewrite Hp in Hq0. injection Hq0 as <-. eapply sound_wider; [exact Hw|]. apply sound_attached; try done. by apply Hi.
  - unfold proposals_inv. by rewrite Hd in Hi' |- *.
  - intros j q Hq. rewrite Hd in Hq. simpl in Hq. apply lookup_alter_Some in Hq as [(<- & q0 & Hq0 & ->)|[_ Hq]]; [|by apply Hi'].
    rewrite Hp in Hq0. injection Hq0 as <-. eapply sound_wider; [exact Hw|].
    pose proof (Hi k p Hp) as Hso. apply sound_promoted; [apply Hpm, (so_key _ _ _ Hso)|done].
Qed.

Lemma proposals_inv_ops ops w : proposals (registry (w_db w)) = ∅ → proposals_inv (w_db (run_sys_ops ops w)).
Proof.
  intros Hw. apply (run_sys_ops_keeps (λ _, True) proposals_inv ops w); [|by apply Forall_true|].
  - intros op _ w0 r w1 Hrun. apply proposals_inv_step; [by eapply sys_op_evaluation|by eapply sys_op_wider].
  - unfold proposals_inv. by rewrite Hw.
Qed.

(** ** Sealed datasets *)
Definition sealed_with (g : string) (e : EvalRow) : Prop := el_dataset_split e = "sealed" ∧ el_dataset_digest e = g.
Definition sealed_inv (d : DB) : Prop :=
  ∀ i j e f g, evals d !! i = Some e → evals d !! j = Some f → sealed_with g e → sealed_with g f → i = j.

Lemma sealed_inv_step d d' : evaluation_step d d' → sealed_inv d → sealed_inv d'.
Proof.
  intros Hstep Hi. destruct Hstep as [Hp|row e Hn Hu ->|p e _ _ _ _ _ ->|k i p e st now ev _ _ _ _ ->|c e Hn ->|k p st i now ev _ _ ->];
    try exact Hi.
  - unfold evaluation_part in Hp. injection Hp as Hp _ _. unfold sealed_inv. by rewrite Hp.
  - intros i j x y g Hx Hy [Hxs Hxg] [Hys Hyg]. unfold evals in Hx, Hy. simpl in Hx, Hy.
    apply lookup_insert_Some in Hx as [[<- <-]|[Hni Hx]], Hy as [[<- <-]|[Hnj Hy]]; [done|..].
    + exfalso. apply (Hu Hxs j y); [done..|congruence].
    + exfalso. apply (Hu Hys i x); [done..|congruence].
    + by eapply (Hi i j x y g).
Qed.

(** C22: an evaluation that has been recorded is never changed or removed by any
    commands, and from a table without evaluations, whatever is called, every sealed
    dataset is used by one evaluation at most: the sealed set cannot be probed. *)
Theorem sealed_datasets_burn ops w :
  evals (w_db w) ⊆ evals (w_db (run_sys_ops ops w)) ∧
  (evals (w_db w) = ∅ → sealed_inv (w_db (run_sys_ops ops w))).
Proof.
  split.
  - apply (run_sys_ops_keeps (λ _, True) (λ d, evals (w_db w) ⊆ evals d) ops w); [|by apply Forall_true|done].
    intros op _ w0 r w1 Hrun Hsub. etrans; [exact Hsub|]. by eapply wd_evals, sys_op_wider.
  - intros Hw. apply (run_sys_ops_keeps (λ _, True) sealed_inv ops w); [|by apply Forall_true|].
    + intros op _ w0 r w1 Hrun. eapply sealed_inv_step. by eapply sys_op_evaluation.
    + intros i j e f g He. by rewrite Hw in He.
Qed.

(** *** Who promoted *)

(** The state of a proposal with the approval that its last promotion names. *)
Definition standing (p : Proposal) : ProposalState * option string := (ip_state p, ip_owner_approval_id p).

Lemma promotion_step d d' k st i :
  evaluation_step d d' → proposals_inv d → promoted_state st →
  standing <$> proposals (registry d) !! k ≠ Some (st, Some i) →
  standing <$> proposals (registry d') !! k = Some (st, Some i) →
  ∃ q, proposals (registry d) !! k = Some q ∧ promoting d q st i.
Proof.
  intros Hstep Hi Hst Hno Hyes.
  destruct Hstep as [[= _ He _]|row e _ _ Hd|q e _ Hq _ _ _ Hd|j x q e st' now ev Hq _ _ Ht Hd|c e _ Hd|j q st' x now ev Hq Hpm Hd];
    try (rewrite Hd in Hyes; simpl in Hyes); try done.
  - by rewrite He in Hyes.
  - destruct (decide (ip_id q = k)) as [<-|]; [|by rewrite lookup_insert_ne in Hyes].
    rewrite lookup_insert_eq in Hyes. injection Hyes as Hs _. rewrite Hq in Hs. subst st. by destruct Hst.
  - destruct (decide (j = k)) as [<-|]; [|by rewrite lookup_alter_ne in Hyes].
    rewrite lookup_alter_eq, Hq in Hyes. injection Hyes as -> Hap. destruct Hno. rewrite Hq. simpl. unfold standing.
    destruct (attach_target_promoted _ _ _ _ Ht Hst) as (-> & -> & _). by rewrite Hap.
  - destruct (decide (j = k)) as [<-|]; [|by rewrite lookup_alter_ne in Hyes].
    rewrite lookup_alter_eq, Hq in Hyes. injection Hyes as -> ->. exists q. split; [done|].
    apply Hpm. by apply (so_key _ _ _ (Hi j q Hq)).
Qed.

(** C13: through any commands, a proposal that is limited or active names an approval of
    this promotion (capability, action, resource, project and run), its held-out
    evaluation passed cleanly on exactly its candidate, and no attached evaluation was
    made by its proposer.  The command that put the proposal in that state on that
    approval ran while the approver had a live session with the role of an owner, and
    the approval was of exactly the request for this promotion, by the digest and the
    source task that the tables gave then, under the policy version of the registry. *)
Theorem promotions_are_approved ops w k p :
  proposals (registry (w_db w)) = ∅ →
  proposals (registry (w_db (run_sys_ops ops w))) !! k = Some p →
  let d := w_db (run_sys_ops ops w) in
  (promoted_state (ip_state p) → validated d p ∧ ∃ i a, ip_owner_approval_id p = Some i ∧
     approvals (registry d) !! i = Some a ∧ approves p (ip_state p) a ∧
     brought_about ops w (λ d, standing <$> proposals (registry d) !! k = Some (ip_state p, Some i))
       (λ d, ∃ q, proposals (registry d) !! k = Some q ∧ ip_state q = promotion_source (ip_state p) ∧
                  promotes d q (ip_state p) a)) ∧
  (∀ i, attached_to p i → ∃ e, evals d !! i = Some e ∧ independent d k p e).
Proof.
  intros Hw Hp d. destruct (proposals_inv_ops ops w Hw k p Hp) as [_ Hat Hap Hv _]. split; [|exact Hat].
  intros Hst. split; [by apply Hv|]. destruct (Hap Hst) as (i & a & Hi & Ha & Hok). exists i, a.
  split_and!; [done..|]. apply brought_about_by.
  - intros d0. apply _.
  - by rewrite Hw, lookup_empty.
  - rewrite Hp. simpl. unfold standing. by rewrite Hi.
  - intros pre op post Hops before Hno Hyes. destruct (run_sys_op op before) as [r w'] eqn:Hrun. simpl in *.
    destruct (promotion_step (w_db before) (w_db w') k (ip_state p) i) as (q & Hq & Hpm); try done.
    { by eapply sys_op_evaluation. } { by apply proposals_inv_ops. }
    destruct (pm_approval _ _ _ _ Hpm) as (b & Hb & _ & Hpr).
    assert (b = a) as ->; [|by exists q; split_and!; [|apply (pm_source _ _ _ _ Hpm)|]].
    unfold d in Ha. rewrite Hops, run_sys_ops_app in Ha.
    pose proof (lookup_weaken _ _ _ _ Hb (approvals_stay (op :: post) before)) as Hb'. fold before in Ha. congruence.
Qed.

(** C11: behind an active rule stand four different people, through any commands: who
    proposed it, who evaluated it on the sealed dataset (a clean pass of exactly this
    candidate), the custodian of that dataset, and who approved the promotion. *)
Theorem active_rules_are_separated ops w k p :
  proposals (registry (w_db w)) = ∅ →
  proposals (registry (w_db (run_sys_ops ops w))) !! k = Some p → ip_state p = P_ACTIVE →
  ∃ i, ip_owner_approval_id p = Some i ∧ separated (w_db (run_sys_ops ops w)) p i.
Proof. intros Hw Hp. apply (proposals_inv_ops ops w Hw k p Hp). Qed.
End invariants.

(** ** Witnesses: one prompt, from its proposal to an active rule *)
Module Hall.
Import Toy Sample Bench Engine.
Definition eve : Principal := {|
  p_id := "p-eve"; p_key := "eve"; p_display_name := "Eve"; p_salt := "salt";
  p_hash := pbkdf2 "correct horse clip" "salt" 600000; p_iterations := 600000;
  p_credential_version := 1; p_enabled := true; p_created_at := past; p_updated_at := past;
  p_disabled_at := None |}.
Definition eve_session : Session := {|
  s_id := "sess3"; s_principal_id := "p-eve"; s_token_hash := sha256 "secret3";
  s_credential_version := 1; s_issued_at := past; s_expires_at := future; s_revoked_at := None |}.
Definition eve_vp : VerifiedPrincipal := {|
  vp_principal_id := "p-eve"; vp_display_name := "Eve"; vp_session_id := "sess3";
  vp_session_secret := "secret3"; vp_issued_at := past; vp_expires_at := future |}.

(** Verifiers that know one signature. *)
Definition results : Verifier EvalResultAttestation := {|
  vf_module := "bench"; vf_qualname := "Results"; vf_authority_id := Some "results.v1";
  vf_verify := λ a, if bool_decide (ra_proof a = "signed") then Ok true else Raise AuthorizationError |}.
Definition seals : Verifier SealedCustodyAttestation := {|
  vf_module := "bench"; vf_qualname := "Seals"; vf_authority_id := Some "seals.v1";
  vf_verify := λ a, if bool_decide (ca_proof a = "signed") then Ok true else Raise AuthorizationError |}.

Definition evaluators : DB := {|
  principals := <["p-eve" := eve]> (principals staff);
  principal_roles := <[("p-eve", R_EVALUATOR) := past]> (principal_roles staff);
  sessions := <["sess3" := eve_session]> (sessions staff);
  events := []; idempotency := ∅; goals := ∅; runs := ∅; tasks := ∅;
  attempts := ∅; leases := ∅; negatives := ∅; registry := empty_registry |}.
Definition binding (o : nat) (h digest : string) : Binding := {|
  b_handler := h; b_owner := o; b_kind := K_protected; b_binding_id := "b"; b_config_digest := digest |}.
Definition v1 : json := JStr "v1".
Definition evaluation_digest : string :=
  match _verifier_authority_id results, _verifier_authority_id seals with
  | Ok r, Ok s => protected_authority_config_digest "evaluation_registry"
                    [("policy_version", v1); ("result_verifier", JStr r); ("sealed_custody_verifier", JStr s)]
  | _, _ => ""
  end.
Definition hall : Domain := {|
  d_authorities := <[2%nat := binding 3 "policy_engine" (protected_authority_config_digest "policy_engine" [])]>
    (<[3%nat := binding 4 "evidence_registry" (protected_authority_config_digest "evidence_registry" [("policy_version", v1)])]>
    (<[4%nat := binding 5 "evaluation_registry" evaluation_digest]> (d_authorities domain)));
  d_configs := ∅; d_types := ∅; d_live := {[1%nat; 2%nat; 3%nat; 4%nat; 5%nat]} |}.
Definition opened : World := world evaluators hall.

Definition goal_dict : dict :=
  [("goal_id", JStr "g1"); ("target_outcome", JStr "ship");
   ("success_evidence_states", jstrs ["runtime_verification"]);
   ("read_scope", jstrs ["src/app/**"]); ("write_scope", jstrs ["src/app/**"; "improvement://proposals/**"; "memory://**"]);
   ("allowed_capabilities", jstrs ["read_local"; "write_local"; "active_rule_promotion"; "durable_memory_promotion"]);
   ("evaluator_required", JBool true)].
Definition goal : GoalSpec := Eval vm_compute in
  match GoalSpec_from_dict goal_dict with Ok g => g | Raise _ => sample_goal end.
Definition task_dict : dict :=
  [("task_id", JStr "t1"); ("goal_id", JStr "g1"); ("objective", JStr "tune");
   ("expected_delta", JStr "d"); ("primary_surface", JStr "api");
   ("evidence_target", JStr "runtime_verification");
   ("capabilities", jstrs ["write_local"; "active_rule_promotion"; "durable_memory_promotion"]);
   ("write_scope", jstrs ["src/app/x"; "improvement://proposals/**"; "memory://**"]); ("evaluator_required", JBool true); ("integration_required", JBool false)].
Definition task_spec : TaskSpec := Eval vm_compute in
  match TaskSpec_from_dict task_dict with Ok t => t | Raise _ => sample_task end.

Definition k : RuntimeKernel := {| rk_self := 1; rk_command_authority := 0; rk_policy_version := "v1";
  rk_authority_spines := [] |}.
Definition begin_ops : list SysOp := [
  SysKernel k (KoCreateGoal ∅ "proj" goal alice_vp "k1" None);
  SysKernel k (KoCreateRun "proj" "g1" "r1" alice_vp "k2");
  SysKernel k (KoAddTask ∅ "proj" task_spec alice_vp "k3" (Some "r1") None);
  SysKernel k (KoAdvance "r1" E_GOAL_COMPILED alice_vp "k4" [] [] None);
  SysKernel k (KoAdvance "r1" E_RUN_READY alice_vp "k5" [] [] None)].
Definition claim : TaskClaim := {| tc_task_id := "t1"; tc_run_id := "r1"; tc_attempt_id := "uuid-10"; tc_attempt_number := 1;
  tc_worker_id := "p-alice"; tc_resource_key := "task://t1"; tc_fence := 1; tc_expires_at := 1700000600028000 |}.
Definition lease_facts : dict :=
  [("task_id", JStr "t1"); ("resource_key", JStr "task://t1"); ("holder", JStr "p-alice"); ("fence", JInt 1)].
Definition artifact_request : EvidenceOps.ArtifactArgs := {|
  EvidenceOps.xa_task_id := "t1"; EvidenceOps.xa_kind := "quality-report"; EvidenceOps.xa_uri := "file://out.log";
  EvidenceOps.xa_content_digest := Spine.digest; EvidenceOps.xa_confidentiality := "internal" |}.
Definition claim_request : EvidenceOps.ClaimArgs := {|
  EvidenceOps.xc_task_id := "t1"; EvidenceOps.xc_claim := "it is faster";
  EvidenceOps.xc_evidence_state := "runtime_verification"; EvidenceOps.xc_artifact_refs := ["a1"];
  EvidenceOps.xc_verifier_version := "1"; EvidenceOps.xc_environment := "ci";
  EvidenceOps.xc_evaluator_verdict := "pass"; EvidenceOps.xc_non_claims := [] |}.
Definition work_ops : list SysOp := [
  SysSched sc (SoClaim "proj" alice_vp 600);
  SysKernel k (KoAdvance "r1" E_TASK_STARTED alice_vp "k6" [] lease_facts None);
  SysSched sc (SoStart claim alice_vp);
  SysSched sc (SoComplete claim alice_vp);
  SysService (SvEvidence evidence_registry (EvidenceOps.EoArtifact artifact_request alice_vp (Some "a1")));
  SysService (SvEvidence evidence_registry (EvidenceOps.EoClaim claim_request olga_vp (Some "ev1")));
  SysKernel k (KoAdvance "r1" E_EVIDENCE_SUBMITTED alice_vp "k7" [] [] None);
  SysKernel k (KoAccept "t1" olga_vp "k8" "ev1");
  SysKernel k (KoAdvance "r1" E_EVALUATOR_VERDICT_RECEIVED alice_vp "k9" [] [] None);
  SysKernel k (KoConfirm "t1" alice_vp "k10");
  SysKernel k (KoAdvance "r1" E_DELIVERY_CONFIRMED alice_vp "k11" [] [] None)].
Definition ev : EvaluationRegistry := {| eg_self := 5; eg_command_authority := 4; eg_policy_version := "v1";
  eg_config_digest := evaluation_digest; eg_result_verifier := results; eg_sealed_custody_verifier := seals |}.
Definition candidate : string := Eval vm_compute in sha "candidate".
Definition proposal_request : ProposeArgs := {|
  pa_project_id := "proj"; pa_source_run_id := "r1"; pa_hypothesis := "a shorter prompt is faster";
  pa_candidate_digest := candidate; pa_editable_surface := "prompt_candidate"; pa_expected_benefit := "time";
  pa_risk := "low"; pa_rollback_route := "restore the prompt" |}.
Definition eval_request (status id split : string) : EvalArgs := {|
  rv_project_id := "proj"; rv_candidate_digest := candidate; rv_dataset_name := split; rv_dataset_split := split;
  rv_dataset_digest := sha split; rv_evaluator_version := "1"; rv_status := status;
  rv_metrics := [("score", N_int 1)]; rv_safety_failures := []; rv_eval_id := Some id |}.
Definition one : SpecFloat.spec_float := match float_of_int 1 with Ok f => f | Raise _ => SpecFloat.S754_nan end.
Definition signed (status id split : string) : EvalResultAttestation := {|
  ra_attestation_id := "at-" +:+ id; ra_proof := "signed"; ra_eval_id := id; ra_project_id := "proj";
  ra_candidate_digest := candidate; ra_dataset_name := split; ra_dataset_split := split; ra_dataset_digest := sha split;
  ra_evaluator_principal_id := "p-eve"; ra_evaluator_version := "1"; ra_status := status; ra_metrics := [("score", one)];
  ra_safety_failures := []; ra_policy_version := "v1" |}.
Definition grade (status id split : string) : SysOp :=
  SysService (SvEvaluate ev (RoRecord (eval_request status id split) eve_vp (signed status id split))).
Definition attach (id : string) : SysOp := SysService (SvEvaluate ev (RoAttach "im1" id alice_vp)).
Definition propose_it : SysOp := SysService (SvEvaluate ev (RoPropose proposal_request alice_vp (Some "im1"))).
Definition propose_ops : list SysOp := [propose_it;
  grade "pass" "e1" "held_in"; grade "pass" "e2" "held_out"; attach "e1"; attach "e2"].
Definition limited_args : LimitedArgs := {|
  la_source_task_id := "t1"; la_verification_evidence_id := "ev1"; la_scope := "project://proj/prompts";
  la_actual_outcome_kind := "benefit"; la_actual_outcome := "it is faster"; la_non_goals := ["quality"];
  la_review_condition := "monthly"; la_rollback_or_retirement_path := "restore the prompt";
  la_non_claim_boundary := "one prompt" |}.

Definition limited_request : LimitedRulePromotionRequest := Eval vm_compute in
  match (build_limited_promotion_request ev "im1" limited_args (run_sys_ops (begin_ops ++ work_ops ++ propose_ops) opened)).1 with
  | Ok r => r
  | Raise _ => Build_LimitedRulePromotionRequest "" "" "" "" "" "" "" "" "" "" "" "" "" 0 "" "" "" "" "" [] "" "" ""
  end.
Definition approval (target digest : string) : ApprovalArgs := {|
  aa_project_id := "proj"; aa_goal_id := "g1"; aa_run_id := "r1"; aa_task_id := "t1";
  aa_capability := "active_rule_promotion"; aa_action := "promote_improvement:" +:+ target;
  aa_resource := "improvement://proposals/im1"; aa_request_digest := digest; aa_policy_version := "v1";
  aa_decision := "approved"; aa_ttl_seconds := 3600 |}.
Definition approve_promotion (target digest id : string) : SysOp :=
  SysService (SvPolicy engine (PoApprove alice_vp olga_vp (approval target digest) (Some id))).
Definition promote_to (target id : string) (request : option LimitedRulePromotionRequest) : SysOp :=
  SysService (SvEvaluate ev (RoPromote "im1" target id olga_vp request)).
Definition limited_ops : list SysOp := [
  approve_promotion "limited" (limited_request_digest limited_request) "ap1"; promote_to "limited" "ap1" (Some limited_request)].
Definition custody : SealedCustodyAttestation := {|
  ca_attestation_id := "cu1"; ca_proof := "signed"; ca_proposal_id := "im1"; ca_eval_id := "e3"; Evaluation.ca_project_id := "proj";
  ca_candidate_digest := candidate; ca_dataset_digest := sha "sealed";
  ca_eval_attestation_digest := content_hash (JObj (result_envelope (signed "pass" "e3" "sealed")));
  ca_evaluator_principal_id := "p-eve"; ca_custody_provider := "vault"; ca_custodian_id := "vault-7";
  ca_policy_version := "v1" |}.
Definition sealed_ops : list SysOp := [
  grade "pass" "e3" "sealed"; attach "e3"; SysService (SvEvaluate ev (RoCustody "im1" custody))].
Definition most : list SysOp := begin_ops ++ work_ops ++ propose_ops ++ limited_ops ++ sealed_ops.
Definition active_digest : string := Eval vm_compute in
  match (promotion_request_digest ev "im1" candidate "active" None (run_sys_ops most opened)).1 with Ok g => g | Raise _ => "" end.
Definition active_ops : list SysOp := [approve_promotion "active" active_digest "ap2"; promote_to "active" "ap2" None].
Definition story : list SysOp := most ++ active_ops.

Local Notation told := (run_sys_ops story opened).
Lemma story_ends :
  match proposals (registry (w_db told)) !! "im1", evals (w_db told) !! "e3" with
  | Some p, Some e => bool_decide (ip_state p = P_ACTIVE) && bool_decide (ip_held_out_eval_id p = Some "e2")
                      && bool_decide (el_dataset_split e = "sealed")
  | _, _ => false
  end = true.
Proof. by_eval. Qed.
(** Both records read back, which checks the whole chain of their sources again. *)
Example records_read_back :
  match (get_active_rule_promotion_record ev "im1" told).1, (get_limited_rule_promotion_record ev "im1" told).1 with
  | Ok a, Ok l => bool_decide (ar_limited_promotion_record_digest a = limited_record_digest l)
                  && bool_decide (lm_request l = limited_request)
  | _, _ => false
  end = true.
Proof. by_eval. Qed.

Lemma sealed_datasets_burn_witness : evals (w_db opened) = ∅ ∧ sealed_inv (w_db told) ∧ ∃ e, evals (w_db told) !! "e3" = Some e.
Proof.
  split; [reflexivity|]. split; [apply (sealed_datasets_burn story opened); reflexivity|].
  pose proof story_ends as Hend. destruct (proposals _ !! "im1"); [|discriminate Hend].
  destruct (evals (w_db told) !! "e3") as [e|]; [by exists e|discriminate Hend].
Defined.
Lemma promotions_are_approved_witness :
  ∃ p, proposals (registry (w_db told)) !! "im1" = Some p ∧ ip_state p = P_ACTIVE ∧ validated (w_db told) p ∧
    (∃ i, brought_about story opened (λ d, standing <$> proposals (registry d) !! "im1" = Some (ip_state p, Some i))
       (λ d, ∃ q a, proposals (registry d) !! "im1" = Some q ∧ promotes d q (ip_state p) a)) ∧
    ∃ e, evals (w_db told) !! "e2" = Some e ∧ independent (w_db told) "im1" p e.
Proof.
  pose proof story_ends as Hend. destruct (proposals _ !! "im1") as [p|] eqn:Hp; [|discriminate Hend].
  destruct (evals (w_db told) !! "e3") as [e|]; [|discriminate Hend]. apply andb_true_iff in Hend as [[Hst Hout]%andb_true_iff _].
  apply bool_decide_eq_true in Hst, Hout.
  destruct (promotions_are_approved story opened "im1" p (eq_refl _) Hp) as [Happ Hatt].
  destruct Happ as [Hv (i & a & _ & _ & _ & pre & op & post & Hops & Hno & Hyes & q & Hq & _ & Hpr)]; [by right|].
  exists p. split_and!; [reflexivity|exact Hst|exact Hv| |apply Hatt; right; by left].
  exists i, pre, op, post. split; [exact Hops|]. split; [exact Hno|]. split; [exact Hyes|]. exists q, a. by split.
Defined.
Lemma active_rules_are_separated_witness :
  ∃ p i, proposals (registry (w_db told)) !! "im1" = Some p ∧ ip_owner_approval_id p = Some i ∧ separated (w_db told) p i.
Proof.
  pose proof story_ends as Hend. destruct (proposals _ !! "im1") as [p|] eqn:Hp; [|discriminate Hend].
  destruct (evals (w_db told) !! "e3") as [e|]; [|discriminate Hend]. apply andb_true_iff in Hend as [[Hst _]%andb_true_iff _].
  apply bool_decide_eq_true in Hst.
  destruct (active_rules_are_separated story opened "im1" p (eq_refl _) Hp Hst) as (i & Hi & Hsep).
  exists p, i. split_and!; [reflexivity|exact Hi|exact Hsep].
Defined.
End Hall.
