(* ===== verification/Memories.v ===== *)
(** * Memories are promoted on evidence, by owners ([memory.py])

    The theorems about [Memory], through any commands: a memory never changes but
    for its promotions, from candidate to limited to active; it rests on passing
    evidence that is no more confidential; and behind a promoted one stand the
    owner's approval of exactly this step and held-out evaluations of exactly this
    content. *)

From S2P Require Import Prelude PyStr Json Enums StateMachine Contracts Scope Db Store Identity.
From S2P Require Import Leases Scheduler Authority Gates Registries Policy Integration Evidence Observations.
From S2P Require Import Context Memory Promotions Evaluation Rules Adapters Workflow Services Kernel Replay System Commands.
From S2P Require Import Tables Parts Grants Bench Claims Improvements.
Import Memory.

Local Open Scope string_scope.
Local Open Scope list_scope.
Local Open Scope Z_scope.

Section memories.
Context `{ENV : Env}.

Definition memories (d : DB) : gmap string MemoryItem := memory_items (knowledge (effects (registry d))).
Lemma memories_made : made_of memories [].
Proof. split; [|done]. intros d d' _ Hs. unfold service_tables in Hs. unfold memories. congruence. Qed.

(** The confidentiality of an artifact and of a memory, as ranks. *)
Definition rank_of (classification : string) : Z := default 3 (CLASSIFICATION_RANK classification).

(** The evidence that the memory was made from: its digest is that of the evidence
    and of its artifacts, which are no more confidential; the evidence passed, and
    its task may write the scope of the memory. *)
Definition sourced (d : DB) (m : MemoryItem) : Prop :=
  ∃ ev t rows, evidence_claims (registry d) !! mi_source_evidence_id m = Some ev ∧ tasks d !! ec_task_id ev = Some t ∧
    ec_project_id ev = mi_project_id m ∧ ec_evaluator_verdict ev ∈ SEEDING_VERDICTS ∧
    scope_allowed (ts_write_scope (t_spec t)) (mi_scope m) = Ok true ∧
    _evidence_provenance d ev = Ok (mi_source_digest m, rows) ∧
    Forall (λ a, rank_of (at_confidentiality a) ≤ rank_of (mi_classification m)) rows.

(** What the last promotion of the memory rests on: an approval of exactly this step of
    exactly this content, and a held-out evaluation from before it was decided. *)
Definition endorsed (d : DB) (m : MemoryItem) : Prop :=
  ∃ from i j a e ev t who decided,
    MEMORY_TRANSITIONS from = Some (mi_status m) ∧
    let request := {| rq_memory_id := mi_id m; rq_candidate_digest := _candidate_digest m; rq_from_status := from;
                      rq_target_status := mi_status m |} in
    mi_promotion_approval_id m = Some i ∧ approvals (registry d) !! i = Some a ∧
    evidence_claims (registry d) !! mi_source_evidence_id m = Some ev ∧ tasks d !! ec_task_id ev = Some t ∧
    exact_approval a m ev t request who = true ∧ av_decided_at a = Some decided ∧
    mi_heldout_eval_id m = Some j ∧ evals d !! j = Some e ∧ heldout_pass e m request = true ∧
    el_created_at e ≤ decided.

(** A clean held-out evaluation of the memory. *)
Definition heldout_of_memory (m : MemoryItem) (e : EvalRow) : Prop :=
  el_project_id e = mi_project_id m ∧ el_candidate_digest e = _candidate_digest m ∧
  el_dataset_split e = "held_out" ∧ el_status e = "pass" ∧ el_safety_failures e = JList [].
(** Two of them, on different datasets. *)
Definition confirmed (d : DB) (m : MemoryItem) : Prop :=
  ∃ i j e f, evals d !! i = Some e ∧ evals d !! j = Some f ∧ heldout_of_memory m e ∧ heldout_of_memory m f ∧
    el_dataset_digest e ≠ el_dataset_digest f.

(** ** What the operations do *)
Lemma required_rank_ok rows r : 0 ≤ r → required_rank rows ≤ r → Forall (λ a, rank_of (at_confidentiality a) ≤ r) rows.
Proof.
  intros Hr. unfold required_rank. assert (∀ l acc, foldl Z.max acc l ≤ r → acc ≤ r ∧ Forall (λ z, z ≤ r) l) as Hmax.
  { induction l as [|z l IH]; intros acc; simpl; [by split|]. intros [? ?]%IH. split; [lia|]. constructor; [lia|done]. }
  destruct rows as [|a rows]; simpl; [done|]. intros [Ha Hall]%Hmax. constructor; [exact Ha|].
  by rewrite Forall_fmap in Hall.
Qed.
Lemma rank_of_nonneg c : 0 ≤ rank_of c.
Proof. unfold rank_of, CLASSIFICATION_RANK. repeat case_match; simpl; lia. Qed.

Lemma evidence_of_ok d i ev t :
  evidence_of d i = Some (ev, t) → evidence_claims (registry d) !! i = Some ev ∧ tasks d !! ec_task_id ev = Some t.
Proof.
  unfold evidence_of. intros H. destruct (evidence_claims (registry d) !! i) as [e|] eqn:He; [|discriminate H]. simpl in H.
  destruct (tasks d !! ec_task_id e) as [t'|] eqn:Ht; [|discriminate H]. simpl in H. by injection H as <- <-.
Qed.

Lemma seeded_ok d a ev t g :
  seeded d a ev t = Ok g → ec_project_id ev = ma_project_id a ∧ ec_evaluator_verdict ev ∈ SEEDING_VERDICTS ∧
  scope_allowed (ts_write_scope (t_spec t)) (ma_scope a) = Ok true ∧
  ∃ rows, _evidence_provenance d ev = Ok (g, rows) ∧
    Forall (λ x, rank_of (at_confidentiality x) ≤ rank_of (ma_classification a)) rows.
Proof.
  unfold seeded. intros H. apply res_bind_ok in H as (? & Hpr%require_ok & H).
  apply res_bind_ok in H as (b & Hscope & H). apply res_bind_ok in H as (? & Hb%require_ok & H).
  apply res_bind_ok in H as (? & Hverdict%require_ok & H). apply res_bind_ok in H as ([g' rows] & Hprov & H).
  apply res_bind_ok in H as (? & Hrank%require_ok & H). apply res_bind_ok in H as (? & _ & [= <-]).
  apply bool_decide_eq_true in Hpr. apply memb_true in Hverdict. apply Z.leb_le in Hrank. subst b.
  split_and!; try done. exists rows. split; [done|]. apply required_rank_ok; [apply rank_of_nonneg|done].
Qed.

Lemma create_candidate_ok args actor pv w r w' :
  create_candidate args actor pv w = (Ok r, w') →
  w_db w' = w_db w ∨
  ∃ m e, memories (w_db w) !! mi_id m = None ∧ mi_status m = "candidate" ∧ sourced (w_db w) m ∧
    w_db w' = set_memory_items <[mi_id m := m]> (logged [e] (w_db w)).
Proof.
  unfold create_candidate. intros Hrun. rinv.
  match goal with H : match ?o with _ => _ end _ = (Ok r, _) |- _ => destruct o as [old|] eqn:Hold end; rinv; same_db.
  - left. cbn [tick w_db] in *. destruct (ma_expires_at _); rinv; same_db; congruence.
  - right. match goal with p : EvidenceClaim * TaskRow |- _ => destruct p as [ev t] end. rinv.
    match goal with H : append_event _ _ = _ |- _ => pose proof (append_logged _ _ _ _ H) as (auth & now & Ha & Hdb) end.
    unfold insert_memory in *. rinv. same_db. cbn [tick drawn set_db w_db] in *. bsplit.
    match goal with H : absent _ _ = true |- _ => apply absent_true in H; rename H into Hnone end.
    match goal with H : evidence_of _ _ = Some _ |- _ => apply evidence_of_ok in H as [Hev Ht] end.
    match goal with H : seeded _ _ _ _ = _ |- _ => apply seeded_ok in H as (Hpr & Hverdict & Hscope & rows & Hprov & Hrank) end.
    repeat match goal with H : w_db _ = w_db _ |- _ => rewrite H in *; clear H end. rewrite Hdb in *.
    eexists (candidate_row _ _ _ _ _), _. split_and!; [exact Hnone|done| |done].
    by exists ev, t, rows.
Qed.

(** A promotion of the memory, behind what it asks for. *)
Record advancing (d : DB) (m : MemoryItem) (target i j : string) : Prop := {
  dv_target : MEMORY_TRANSITIONS (mi_status m) = Some target;
  dv_endorsed : endorsed d (promoted m target i j);
  dv_owner : ∃ a who, approvals (registry d) !! i = Some a ∧ av_approver a = Some who ∧ live_owner d who;
  dv_fresh : mi_status m = "limited" → ∃ e, evals d !! j = Some e ∧ fresh_evaluation d m e = true }.

Lemma promotion_request_ok m target r :
  _promotion_request m target = Ok r →
  MEMORY_TRANSITIONS (mi_status m) = Some (rq_target_status r) ∧
  r = {| rq_memory_id := mi_id m; rq_candidate_digest := _candidate_digest m; rq_from_status := mi_status m;
         rq_target_status := rq_target_status r |}.
Proof. unfold _promotion_request. intros Hrun. rinv. bsplit. by split. Qed.

Lemma promotable_ok d now m target i j who r ev :
  live_owner d who → promotable d now m target i j who = Ok (r, ev) → advancing d m (rq_target_status r) i j.
Proof.
  unfold promotable. intros Howner Hrun. rinv. match goal with p : EvidenceClaim * TaskRow |- _ => destruct p as [ev' t] end. rinv.
  match goal with H : evidence_of _ _ = Some _ |- _ => apply evidence_of_ok in H as [Hev Ht] end.
  match goal with H : _promotion_request _ _ = _ |- _ => apply promotion_request_ok in H as [Hto Hr] end. bsplit.
  destruct r as [? ? ? to]. simpl in *. injection Hr as -> -> ->.
  match goal with H : exact_approval ?x _ _ _ _ _ = true |- _ => assert (av_approver x = Some who) as Hby
    by (unfold exact_approval in H; by bsplit) end.
  constructor; [done| |by eexists _, who|].
  - eexists (mi_status m), i, _, _, _, _, _, _, _. split; [exact Hto|]. simpl. by split_and!.
  - intros Hl. rewrite bool_decide_eq_true_2 in * by done. by eexists.
Qed.

Lemma promote_memory_ok k target i j who pv w r w' :
  promote k target i j who pv w = (Ok r, w') →
  ∃ k m to i j e, memories (w_db w) !! k = Some m ∧ advancing (w_db w) m to i j ∧
    w_db w' = logged [e] (set_memory_items (alter (λ m, promoted m to i j) k) (w_db w)).
Proof.
  unfold promote. intros Hrun. rinv. match goal with p : PromotionRequest * EvidenceClaim |- _ => destruct p as [rq ev] end. rinv.
  match goal with H : append_event _ _ = _ |- _ => pose proof (append_logged _ _ _ _ H) as (auth & now & Ha & Hdb) end.
  match goal with H : require_role_in_transaction _ _ _ = _ |- _ =>
    pose proof (verify_live _ _ _ _ _ H) as Howner; apply verify_ok in H as (-> & ? & ? & _ & _ & _ & _ & Hwho & _) end.
  match goal with H : promotable _ _ _ _ _ _ _ = _ |- _ =>
    pose proof (λ Hl, promotable_ok _ _ _ _ _ _ _ _ _ Hl H) as Hadv; clear H end.
  unfold update_memory in *. rinv. same_db. cbn [tick drawn set_db w_db] in *. bsplit.
  repeat match goal with H : w_db _ = w_db _ |- _ => rewrite H in *; clear H end.
  rewrite Hwho in Hadv. specialize (Hadv ltac:(by eexists)).
  eexists _, _, _, _, _, _. split_and!; [eassumption|eassumption|exact Hdb].
Qed.

(** ** The table through any command *)
Inductive memory_step (d d' : DB) : Prop :=
  | ms_other : memories d' = memories d → memory_step d d'
  | ms_create m e : memories d !! mi_id m = None → mi_status m = "candidate" → sourced d m →
      d' = set_memory_items <[mi_id m := m]> (logged [e] d) → memory_step d d'
  | ms_promote k m to i j e : memories d !! k = Some m → advancing d m to i j →
      d' = logged [e] (set_memory_items (alter (λ m, promoted m to i j) k) d) → memory_step d d'.

Lemma sys_op_memory op w r w' : run_sys_op op w = (r, w') → memory_step (w_db w) (w_db w').
Proof.
  intros Hrun. destruct r as [u|e]; [|apply failed_commands_change_nothing in Hrun as ->; by apply ms_other].
  destruct (sys_op_apart memories [] memories_made V_memory op w (Ok u) w') as [Hp|(so & -> & [Hso|[]])];
    [spares|done|done|exact Hrun|by apply ms_other| |done].
  destruct so as [| | | | |op| |]; try done. simpl in Hrun. destruct op; simpl in Hrun; unfold ignore in Hrun; rinv.
  - match goal with H : create_candidate _ _ _ _ = _ |- _ => apply create_candidate_ok in H as [Hdb|(m & e & ? & ? & ? & ?)] end;
      [apply ms_other; by rewrite Hdb|by eapply ms_create].
  - match goal with H : promote _ _ _ _ _ _ _ = _ |- _ => apply promote_memory_ok in H as (? & ? & ? & ? & ? & ? & ? & ? & ?) end.
    by eapply ms_promote.
Qed.
End memories.

(** ** What an invariant may rest on: rows that stay *)
Section invariants.
Context `{ENV : Env}.

Record richer (d d' : DB) : Prop := {
  rh_wider : wider d d';
  rh_claims : evidence_claims (registry d) ⊆ evidence_claims (registry d');
  rh_artifacts : artifacts (effects (registry d)) ⊆ artifacts (effects (registry d'));
  rh_grows : grows d d' }.

Lemma sources_grow d d' : claims_step d d' →
  evidence_claims (registry d) ⊆ evidence_claims (registry d') ∧
  artifacts (effects (registry d)) ⊆ artifacts (effects (registry d')).
Proof.
  intros [[= -> ->]|a e Hn ->|v c e Hn _ _ _ _ ->]; [done|split; [done|by apply insert_subseteq]|split; [by apply insert_subseteq|done]].
Qed.
Lemma sys_op_richer op w r w' : run_sys_op op w = (r, w') → richer (w_db w) (w_db w').
Proof.
  intros Hrun. destruct (sources_grow _ _ (sys_op_claims _ _ _ _ Hrun)) as [He Ha]. constructor; try done.
  - by eapply sys_op_wider.
  - by apply (sys_op_grows (w_db w) op w r w' Hrun).
Qed.

Section richer.
Context (d d' : DB) (Hr : richer d d').
Lemma found_artifacts_richer refs :
  forallb (λ r, present (artifacts (effects (registry d))) r) refs = true →
  EvidenceOps.found_artifacts d' refs = EvidenceOps.found_artifacts d refs ∧
  forallb (λ r, present (artifacts (effects (registry d'))) r) refs = true.
Proof.
  induction refs as [|r refs IH]; simpl; [done|]. intros [Hp Hps]%andb_true_iff. destruct (IH Hps) as [Hf Ha].
  apply present_true in Hp as [a Hl]. pose proof (lookup_weaken _ _ _ _ Hl (rh_artifacts _ _ Hr)) as Hl'.
  split; [|rewrite andb_true_iff, present_true; by split].
  unfold EvidenceOps.found_artifacts in *. simpl. rewrite Hl, Hl'. by f_equal.
Qed.
Lemma provenance_richer ev x : _evidence_provenance d ev = Ok x → _evidence_provenance d' ev = Ok x.
Proof.
  unfold _evidence_provenance. intros H. apply res_bind_ok in H as (refs & -> & H). simpl.
  apply res_bind_ok in H as (? & Hall%require_ok & H). destruct (found_artifacts_richer _ Hall) as [-> ->]. exact H.
Qed.
Lemma sourced_richer m : sourced d m → sourced d' m.
Proof.
  intros (ev & t & rows & Hev & Ht & ? & ? & Hs & Hp & ?).
  destruct (task_origin_grows _ _ _ _ (rh_grows _ _ Hr) Ht) as (t' & Ht' & [= _ _ _ _ Hspec _]).
  exists ev, t', rows. rewrite Hspec. split_and!; try done; [|by apply provenance_richer].
  eapply lookup_weaken; [exact Hev|apply Hr].
Qed.
Lemma endorsed_richer m : endorsed d m → endorsed d' m.
Proof.
  intros (from & i & j & a & e & ev & t & who & at_ & Hto & Hi & Ha & Hev & Ht & Hx & Hd & Hj & He & Hpass & Hle).
  destruct (task_origin_grows _ _ _ _ (rh_grows _ _ Hr) Ht) as (t' & Ht' & [= _ Hg _ _ _ _]).
  exists from, i, j, a, e, ev, t', who, at_. split; [exact Hto|]. split_and!; try done.
  - eapply lookup_weaken; [exact Ha|apply Hr].
  - eapply lookup_weaken; [exact Hev|apply Hr].
  - unfold exact_approval in *. by rewrite Hg.
  - eapply lookup_weaken; [exact He|apply Hr].
Qed.
Lemma confirmed_richer m : confirmed d m → confirmed d' m.
Proof.
  intros (i & j & e & f & He & Hf & Hrest). exists i, j, e, f.
  split_and!; [eapply lookup_weaken; [exact He|apply Hr]|eapply lookup_weaken; [exact Hf|apply Hr]|apply Hrest..].
Qed.
End richer.

(** ** Every memory *)
Record kept_well (d : DB) (k : string) (m : MemoryItem) : Prop := {
  kw_key : mi_id m = k;
  kw_status : mi_status m ∈ ["candidate"; "limited"; "active"];
  kw_sourced : sourced d m;
  kw_endorsed : mi_status m ≠ "candidate" → endorsed d m;
  kw_confirmed : mi_status m = "active" → confirmed d m }.
Definition memories_inv (d : DB) : Prop := map_Forall (kept_well d) (memories d).

Lemma kept_well_richer d d' k m : richer d d' → kept_well d k m → kept_well d' k m.
Proof.
  intros Hr [Hk Hst Hs He Hc]. constructor; try done; [by eapply sourced_richer|..]; intros H.
  - by eapply endorsed_richer, He.
  - by eapply confirmed_richer, Hc.
Qed.

Lemma heldout_pass_ok e m r : rq_candidate_digest r = _candidate_digest m → heldout_pass e m r = true → heldout_of_memory m e.
Proof.
  unfold heldout_pass, heldout_of_memory. intros -> H. bsplit. simplify_eq. split_and!; try done.
  by destruct (el_safety_failures e) as [| | | |[]|].
Qed.
Lemma transitions_ok s t : MEMORY_TRANSITIONS s = Some t → s = "candidate" ∧ t = "limited" ∨ s = "limited" ∧ t = "active".
Proof.
  unfold MEMORY_TRANSITIONS. repeat case_bool_decide; intros [= <-]; [by left|by right].
Qed.

(** The second promotion has another evaluation than the first, on another dataset. *)
Lemma confirmed_promoted d k m target i j :
  kept_well d k m → advancing d m target i j → target = "active" → confirmed d (promoted m target i j).
Proof.
  intros Hk [Hto Hend _ Hfresh] ->. apply transitions_ok in Hto as [[_ ?]|[Hl _]]; [done|].
  destruct (kw_endorsed _ _ _ Hk) as (? & ? & j0 & ? & e0 & ? & ? & ? & ? & _ & _ & _ & _ & _ & _ & _ & Hj0 & He0 & Hp0 & _); [by rewrite Hl|].
  destruct Hend as (? & ? & j1 & ? & e1 & ? & ? & ? & ? & _ & _ & _ & _ & _ & _ & _ & Hj1 & He1 & Hp1 & _).
  destruct (Hfresh Hl) as (e & He & Hf). simpl in Hj1. injection Hj1 as <-. rewrite He1 in He. injection He as <-.
  exists j0, j, e0, e1. split_and!; [done..| | |].
  - by eapply (heldout_pass_ok e0 (promoted m "active" i j)), Hp0.
  - by eapply heldout_pass_ok, Hp1.
  - unfold fresh_evaluation in Hf. rewrite Hj0 in Hf. simpl in Hf. unfold evals in He0. rewrite He0 in Hf. by bsplit.
Qed.

Lemma kept_well_promoted d k m target i j :
  advancing d m target i j → kept_well d k m → kept_well d k (promoted m target i j).
Proof.
  intros Ha Hk. pose proof (dv_target _ _ _ _ _ Ha) as Hto. constructor; simpl.
  - apply Hk.
  - apply transitions_ok in Hto as [[_ ->]|[_ ->]]; [right; left|right; right; left].
  - apply Hk.
  - intros _. apply Ha.
  - by eapply confirmed_promoted.
Qed.

Lemma memories_inv_step d d' : memory_step d d' → richer d d' → memories_inv d → memories_inv d'.
Proof.
  intros Hstep Hr Hi. assert (map_Forall (kept_well d') (memories d)) as Hi'.
  { intros k m Hm. by eapply kept_well_richer, Hi. }
  destruct Hstep as [Hm|m e Hn Hst Hs Hd|k m to i j e Hm Ha Hd].
  - unfold memories_inv. by rewrite Hm.
  - unfold memories_inv. rewrite Hd at 2. apply map_Forall_insert_2; [|done].
    constructor; [done|rewrite Hst; left|by eapply sourced_richer|by rewrite Hst..].
  - intros l m' Hm'. rewrite Hd in Hm'. unfold memories in Hm'. simpl in Hm'.
    apply lookup_alter_Some in Hm' as [(<- & m0 & Hm0 & ->)|[_ Hm']]; [|by apply Hi'].
    unfold memories in Hm. rewrite Hm in Hm0. injection Hm0 as <-. eapply kept_well_richer; [exact Hr|].
    apply kept_well_promoted; [done|by apply Hi].
Qed.

Lemma memories_inv_ops ops w : memories (w_db w) = ∅ → memories_inv (w_db (run_sys_ops ops w)).
Proof.
  intros Hw. apply (run_sys_ops_keeps (λ _, True) memories_inv ops w); [|by apply Forall_true|].
  - intros op _ w0 r w1 Hrun. apply memories_inv_step; [by eapply sys_op_memory|by eapply sys_op_richer].
  - unfold memories_inv. by rewrite Hw.
Qed.

(** The status of a memory with the approval that its last promotion names. *)
Definition standing_memory (m : MemoryItem) : string * option string := (mi_status m, mi_promotion_approval_id m).

Lemma promotion_by_owner d d' k st i :
  memory_step d d' → st ≠ "candidate" →
  standing_memory <$> memories d !! k ≠ Some (st, Some i) → standing_memory <$> memories d' !! k = Some (st, Some i) →
  ∃ a who, approvals (registry d) !! i = Some a ∧ av_approver a = Some who ∧ live_owner d who.
Proof.
  intros Hstep Hst Hno Hyes. destruct Hstep as [He|m e _ Hc _ Hd|j m to x y e Hm Hadv Hd].
  - by rewrite He in Hyes.
  - rewrite Hd in Hyes. unfold memories in Hyes. simpl in Hyes.
    destruct (decide (mi_id m = k)) as [<-|]; [|by rewrite lookup_insert_ne in Hyes].
    rewrite lookup_insert_eq in Hyes. injection Hyes as Hs _. congruence.
  - rewrite Hd in Hyes. unfold memories in Hyes, Hm. simpl in Hyes.
    destruct (decide (j = k)) as [<-|]; [|by rewrite lookup_alter_ne in Hyes].
    rewrite lookup_alter_eq, Hm in Hyes. injection Hyes as -> ->. apply (dv_owner _ _ _ _ _ Hadv).
Qed.

(** C12: through any commands, from a table without memories: every memory rests on
    recorded evidence of its project that passed, by the digest of that evidence and
    its artifacts, and is at least as confidential as each of them; a promoted one
    carries an approval of exactly this promotion of exactly this content and a clean
    held-out evaluation of it that was there when the approval was decided, and the
    command that gave it this status on this approval ran while the approver had a
    live session with the role of an owner; and an active one has passed two held-out
    evaluations on different datasets. *)
Theorem memories_are_backed ops w k m :
  memories (w_db w) = ∅ → memories (w_db (run_sys_ops ops w)) !! k = Some m →
  let d := w_db (run_sys_ops ops w) in
  mi_id m = k ∧ mi_status m ∈ ["candidate"; "limited"; "active"] ∧ sourced d m ∧
  (mi_status m ≠ "candidate" → endorsed d m ∧ ∃ i a who, mi_promotion_approval_id m = Some i ∧
     approvals (registry d) !! i = Some a ∧ av_approver a = Some who ∧
     brought_about ops w (λ d, standing_memory <$> memories d !! k = Some (mi_status m, Some i)) (λ d, live_owner d who)) ∧
  (mi_status m = "active" → confirmed d m).
Proof.
  intros Hw Hm d. destruct (memories_inv_ops ops w Hw k m Hm) as [Hk Hst Hs He Hc]. split_and!; try done.
  intros Hne. split; [by apply He|].
  destruct (He Hne) as (from & i & j & a & e & ev & t & who & decided & _ & Hi & Ha & _ & _ & Hx & _).
  assert (av_approver a = Some who) as Hby by (unfold exact_approval in Hx; by bsplit).
  exists i, a, who. split_and!; [done..|]. apply brought_about_by.
  - intros d0. apply _.
  - by rewrite Hw, lookup_empty.
  - rewrite Hm. simpl. unfold standing_memory. by rewrite Hi.
  - intros pre op post Hops before Hno Hyes. destruct (run_sys_op op before) as [r w'] eqn:Hrun. simpl in *.
    destruct (promotion_by_owner (w_db before) (w_db w') k (mi_status m) i) as (b & who' & Hb & Hby' & Hlive); try done.
    { by eapply sys_op_memory. }
    unfold d in Ha. rewrite Hops, run_sys_ops_app in Ha.
    pose proof (lookup_weaken _ _ _ _ Hb (approvals_stay (op :: post) before)) as Hb'. fold before in Ha. congruence.
Qed.

(** ** A memory only advances *)

(** One promotion of the row, which writes its status, approval and evaluation. *)
Definition advanced (m m' : MemoryItem) : Prop :=
  ∃ i j target, MEMORY_TRANSITIONS (mi_status m) = Some target ∧ m' = promoted m target i j.
Definition advances (d d' : DB) : Prop :=
  ∀ k m, memories d !! k = Some m → ∃ m', memories d' !! k = Some m' ∧ rtc advanced m m'.

Lemma advances_step d d' : memory_step d d' → advances d d'.
Proof.
  intros [Hm|m e Hn _ _ ->|k m to i j e Hm Ha ->] l x Hx.
  - rewrite Hm. by exists x.
  - exists x. split; [|done]. unfold memories in *. simpl. rewrite lookup_insert_ne; [done|]. intros <-. congruence.
  - unfold memories in *. simpl. destruct (decide (k = l)) as [<-|Hne].
    + rewrite lookup_alter_eq, Hx. simpl. eexists. split; [done|]. apply rtc_once. rewrite Hm in Hx. injection Hx as <-.
      exists i, j, to. split; [apply Ha|done].
    + rewrite lookup_alter_ne by done. by exists x.
Qed.
#[export] Instance advances_preorder : PreOrder advances.
Proof.
  split; [intros d k m Hm; by exists m|]. intros d1 d2 d3 H12 H23 k m Hm. destruct (H12 k m Hm) as (m2 & Hm2 & Hr).
  destruct (H23 k m2 Hm2) as (m3 & Hm3 & Hr'). exists m3. split; [done|by etrans].
Qed.

(** C24: a memory is never removed, and nothing but promotions changes it: through any
    commands, its row moves from candidate to limited and from limited to active
    only, one step at a time, and the digest of its content, its source and its
    scope stay the same. *)
Theorem memories_only_advance ops w k m :
  memories (w_db w) !! k = Some m →
  ∃ m', memories (w_db (run_sys_ops ops w)) !! k = Some m' ∧ rtc advanced m m' ∧
    _candidate_digest m' = _candidate_digest m ∧ mi_created_at m' = mi_created_at m ∧
    (mi_status m = "active" → m' = m).
Proof.
  intros Hm. assert (advances (w_db w) (w_db (run_sys_ops ops w))) as Ha.
  { apply (run_sys_ops_keeps (λ _, True) (advances (w_db w)) ops w); [|by apply Forall_true|done].
    intros op _ w0 r w1 Hrun Hadv. etrans; [exact Hadv|]. by eapply advances_step, sys_op_memory. }
  destruct (Ha k m Hm) as (m' & Hm' & Hr). exists m'. split_and!; [done..| | |].
  - clear -Hr. induction Hr as [|x y z (i & j & to & _ & ->) _ IH]; [done|exact IH].
  - clear -Hr. induction Hr as [|x y z (i & j & to & _ & ->) _ IH]; [done|exact IH].
  - intros Hact. inversion Hr as [|x y z (i & j & to & Hto & _)]; [done|]. rewrite Hact in Hto. discriminate Hto.
Qed.
End invariants.

(** ** Witnesses: what the work taught, remembered *)
Module Lessons.
Import Toy Sample Bench Engine Evaluation Rules Hall.

Definition lesson : CandidateArgs := {|
  ma_memory_id := "m1"; ma_project_id := "proj"; ma_source_evidence_id := "ev1"; ma_scope := "src/app/x";
  ma_classification := "internal"; ma_content := "short prompts are faster";
  ma_ttl_seconds := DEFAULT_MEMORY_TTL_SECONDS; ma_effective_at := None; ma_expires_at := None; ma_supersedes := None |}.
Definition create_ops : list SysOp := begin_ops ++ Hall.work_ops ++ [SysService (SvMemory (MoCreate lesson alice_vp "v1"))].
(** The digests of the candidate and of the two promotions. *)
Definition digests : string * string * string := Eval vm_compute in
  match memories (w_db (run_sys_ops create_ops Hall.opened)) !! "m1" with
  | Some m => let g := _candidate_digest m in
    let r from to := request_digest {| rq_memory_id := "m1"; rq_candidate_digest := g; rq_from_status := from; rq_target_status := to |} in
    (g, r "candidate" "limited", r "limited" "active")
  | None => ("", "", "")
  end.
Definition tried (id dataset : string) : EvalArgs := {|
  rv_project_id := "proj"; rv_candidate_digest := digests.1.1; rv_dataset_name := dataset; rv_dataset_split := "held_out";
  rv_dataset_digest := sha dataset; rv_evaluator_version := "1"; rv_status := "pass";
  rv_metrics := [("score", N_int 1)]; rv_safety_failures := []; rv_eval_id := Some id |}.
Definition tried_attestation (id dataset : string) : EvalResultAttestation := {|
  ra_attestation_id := "at-" +:+ id; ra_proof := "signed"; ra_eval_id := id; ra_project_id := "proj";
  ra_candidate_digest := digests.1.1; ra_dataset_name := dataset; ra_dataset_split := "held_out";
  ra_dataset_digest := sha dataset; ra_evaluator_principal_id := "p-eve"; ra_evaluator_version := "1"; ra_status := "pass";
  ra_metrics := [("score", one)]; ra_safety_failures := []; ra_policy_version := "v1" |}.
Definition try (id dataset : string) : SysOp :=
  SysService (SvEvaluate ev (RoRecord (tried id dataset) eve_vp (tried_attestation id dataset))).
Definition approve_memory (digest id : string) : SysOp := SysService (SvPolicy engine (PoApprove alice_vp olga_vp
  {| aa_project_id := "proj"; aa_goal_id := "g1"; aa_run_id := "r1"; aa_task_id := "t1";
     aa_capability := MEMORY_PROMOTION_CAPABILITY; aa_action := MEMORY_PROMOTION_ACTION; aa_resource := "memory://m1";
     aa_request_digest := digest; aa_policy_version := "v1"; aa_decision := "approved"; aa_ttl_seconds := 3600 |} (Some id))).
Definition advance_to (target approval eval : string) : SysOp :=
  SysService (SvMemory (MoPromote "m1" target approval eval olga_vp "v1")).
Definition limit_ops : list SysOp :=
  create_ops ++ [try "e1" "spring"; approve_memory digests.1.2 "ap1"; advance_to "limited" "ap1" "e1"].
Definition activate_ops : list SysOp := [try "e2" "summer"; approve_memory digests.2 "ap2"; advance_to "active" "ap2" "e2"].

Local Notation limited := (run_sys_ops limit_ops Hall.opened).
Local Notation active := (run_sys_ops activate_ops limited).
Local Notation told := (run_sys_ops (limit_ops ++ activate_ops) Hall.opened).
Lemma lesson_limited :
  match memories (w_db limited) !! "m1" with Some m => bool_decide (mi_status m = "limited") | None => false end = true.
Proof. by_eval. Qed.
Lemma lesson_active :
  match memories (w_db active) !! "m1" with Some m => bool_decide (mi_status m = "active") | None => false end = true.
Proof. by_eval. Qed.
Lemma lesson_told :
  match memories (w_db told) !! "m1" with Some m => bool_decide (mi_status m = "active") | None => false end = true.
Proof. by_eval. Qed.

Lemma memories_are_backed_witness :
  ∃ m i who, memories (w_db told) !! "m1" = Some m ∧ mi_status m = "active" ∧ confirmed (w_db told) m ∧
    brought_about (limit_ops ++ activate_ops) Hall.opened
      (λ d, standing_memory <$> memories d !! "m1" = Some (mi_status m, Some i)) (λ d, live_owner d who).
Proof.
  pose proof lesson_told as Hact.
  destruct (memories _ !! "m1") as [m|] eqn:Hm; [|discriminate Hact]. apply bool_decide_eq_true in Hact.
  destruct (memories_are_backed (limit_ops ++ activate_ops) Hall.opened "m1" m (eq_refl _) Hm) as (_ & _ & _ & He & Hc).
  destruct He as (_ & i & a & who & _ & _ & _ & Hwhen); [by rewrite Hact|].
  exists m, i, who. split_and!; [reflexivity|exact Hact|by apply Hc|exact Hwhen].
Defined.
Lemma memories_only_advance_witness :
  ∃ m m', memories (w_db limited) !! "m1" = Some m ∧ memories (w_db active) !! "m1" = Some m' ∧
    mi_status m = "limited" ∧ mi_status m' = "active" ∧ rtc advanced m m'.
Proof.
  pose proof lesson_limited as Hl. destruct (memories (w_db limited) !! "m1") as [m|] eqn:Hm; [|discriminate Hl].
  apply bool_decide_eq_true in Hl. pose proof lesson_active as Hact.
  destruct (memories_only_advance activate_ops limited "m1" m Hm) as (m' & Hm' & Hr & _). rewrite Hm' in Hact.
  apply bool_decide_eq_true in Hact. exists m, m'. split_and!; [reflexivity|exact Hm'|exact Hl|exact Hact|exact Hr].
Defined.
End Lessons.
