(* ===== verification/Outboxes.v ===== *)
(** * What the transactions of the outbox do

    The specifications of the database transactions of [Workflow]: what an
    enqueued effect is bound to, and how an effect is closed; and that nothing else
    touches the outbox, its receipts and the workflow steps. *)

From S2P Require Import Prelude PyStr Json Enums StateMachine Contracts Scope Db Store Identity.
From S2P Require Import Leases Scheduler Authority Gates Registries Policy Integration Evidence Observations.
From S2P Require Import Adapters Workflow Services Kernel Replay System Commands Tables Parts.
Import Outbox.

Local Open Scope string_scope.
Local Open Scope list_scope.
Local Open Scope Z_scope.

Definition outbox_part (d : DB) :=
  (outbox (effects (registry d)), effect_receipts (effects (registry d)), workflow_steps (registry d)).

(** What never changes in a row of the outbox. *)
Definition ox_identity (o : OutboxRow) :=
  (ox_effect_id o, ox_project_id o, ox_run_id o, (ox_task_id o, ox_step_id o), ox_adapter o, ox_idempotency_key o,
   ox_request_digest o, ox_request o).
Definition known (d : DB) (o : OutboxRow) : Prop :=
  ∃ o', outbox (effects (registry d)) !! ox_effect_id o = Some o' ∧ ox_identity o' = ox_identity o.

#[local] Hint Extern 1 (keeps _ (Engine.preflight_effect_authority _ _)) => apply Engine.keeps_preflight : keeps.

Section transactions.
Context `{ENV : Env}.

Lemma outbox_made : made_of outbox_part [].
Proof. split; [|done]. intros d d' _ Hs. unfold service_tables in Hs. unfold outbox_part. congruence. Qed.

Lemma head_of_select `{Countable K} {A} f (m : gmap K A) x :
  head (select f m) = Some x → ∃ k, m !! k = Some x ∧ f x = true.
Proof.
  intros Hh. assert (x ∈ select f m) as Hin by (destruct (select f m); [done|injection Hh as ->; by constructor]).
  apply elem_of_select in Hin as [[k Hk] Hf]. by exists k.
Qed.

Lemma receipt_none d e : receipt_of d e = None ↔
  ∀ j r, effect_receipts (effects (registry d)) !! j = Some r → rc_effect_id r ≠ e.
Proof.
  unfold receipt_of. split.
  - intros Hn j r Hj He. destruct (select _ _) as [|x l] eqn:Hs; [|done].
    assert (r ∈ select (λ r, bool_decide (rc_effect_id r = e)) (effect_receipts (effects (registry d)))) as Hin
      by (apply elem_of_select; split; [by exists j|by apply bool_decide_eq_true]).
    rewrite Hs in Hin. by apply not_elem_of_nil in Hin.
  - intros Hall. destruct (select _ _) as [|x l] eqn:Hs; [done|].
    assert (x ∈ x :: l) as Hin by constructor. rewrite <- Hs in Hin.
    apply elem_of_select in Hin as [[j Hj] He%bool_decide_eq_true]. by destruct (Hall j x Hj).
Qed.
Lemma receipt_some d e r : receipt_of d e = Some r →
  (∃ j, effect_receipts (effects (registry d)) !! j = Some r) ∧ rc_effect_id r = e.
Proof.
  intros (j & Hj & He%bool_decide_eq_true)%head_of_select. split; [by exists j|done].
Qed.

(** ** Enqueue *)

(** An effect that nothing in the outbox repeats, queued for one step of the
    contract of a running task, with the declared adapter and request. *)
Record enqueued (d : DB) (o : OutboxRow) (st : StepRow) : Prop := {
  en_new : outbox (effects (registry d)) !! ox_effect_id o = None;
  en_key k p : outbox (effects (registry d)) !! k = Some p →
    (ox_project_id p, ox_idempotency_key p) ≠ (ox_project_id o, ox_idempotency_key o);
  en_status : ox_status o = "authorization_pending";
  en_step : workflow_steps (registry d) !! (ox_task_id o, ox_step_id o) = None ∧
    (st_task_id st, st_step_id st) = (ox_task_id o, ox_step_id o) ∧ st_status st = "queued" ∧
    st_effect_id st = Some (ox_effect_id o) ∧ st_input_digest st = ox_request_digest o;
  en_task : ∃ t, tasks d !! ox_task_id o = Some t ∧ t_state t = T_RUNNING ∧ t_project_id t = ox_project_id o ∧
    t_run_id t = Some (ox_run_id o) ∧
    ∃ s, s ∈ ts_workflow_steps (t_spec t) ∧ ws_step_id s = ox_step_id o ∧ ws_adapter s = ox_adapter o ∧
      ws_request_digest s = ox_request_digest o;
  en_request : ∃ q, dget (ox_request o) "request" = Some (JObj q) ∧ content_hash (JObj q) = ox_request_digest o }.

Lemma step_binding_ok spec actual : _assert_step_binding spec actual = Ok tt → actual ∈ ts_workflow_steps spec.
Proof.
  unfold _assert_step_binding, _declared_step. intros Hrun.
  apply res_bind_ok in Hrun as (s & Hs & Hrun). apply require_ok, bool_decide_eq_true in Hrun. subst s.
  destruct (List.filter _ _) as [|x [|]] eqn:Hf; [done| |done]. apply res_bind_ok in Hs as (_ & _ & [= ->]).
  assert (In actual (List.filter (λ s, bool_decide (ws_step_id s = ws_step_id actual)) (ts_workflow_steps spec))) as Hin
    by (rewrite Hf; by left).
  apply filter_In in Hin as [Hin _]. by apply list_elem_of_In.
Qed.

Lemma insert_step_ok s w r w' : workflow_steps (registry (w_db w)) !! (st_task_id s, st_step_id s) = None →
  insert_or_ignore_step s w = (Ok r, w') →
  w_db w' = set_workflow_steps <[(st_task_id s, st_step_id s) := s]> (w_db w).
Proof.
  intros Hn. unfold insert_or_ignore_step. intros Hrun.
  apply bind_ok in Hrun as (d & ? & [-> ->]%read_id_ok & Hrun). unfold present in Hrun at 1.
  rewrite (proj2 (absent_true _ _) Hn) in Hrun.
  change (negb true) with false in Hrun. cbv iota in Hrun. by rinv.
Qed.
Lemma lifecycle_ok d t : _assert_effect_lifecycle d t = Ok tt → t_state t = T_RUNNING.
Proof.
  unfold _assert_effect_lifecycle. intros Hrun. apply res_bind_ok in Hrun as (run & _ & Hrun).
  apply res_bind_ok in Hrun as (u & _ & Hrun). by apply require_ok, bool_decide_eq_true in Hrun.
Qed.

Lemma enqueue_ok self p args i o b w w' :
  enqueue self p args i w = (Ok (o, b), w') →
  (b = true ∧ w_db w' = w_db w ∧ ∃ k, outbox (effects (registry (w_db w))) !! k = Some o) ∨
  (b = false ∧ ∃ st e, enqueued (w_db w) o st ∧
     w_db w' = set_workflow_steps <[(ox_task_id o, ox_step_id o) := st]>
                 (set_outbox <[ox_effect_id o := o]> (logged [e] (w_db w)))).
Proof.
  unfold enqueue. intros Hrun. rinv.
  match goal with H : match ?m with _ => _ end _ = (Ok (o, b), _) |- _ => destruct m as [old|] eqn:Hprior; rinv; same_db; [left|right] end.
  - match goal with H : (o, b) = _ |- _ => injection H as -> -> end.
    split_and!; [done|congruence|]. unfold prior_effect in Hprior.
    apply head_of_select in Hprior as (k & Hk & _). exists k. congruence.
  - match goal with H : append_event _ _ = _ |- _ => pose proof (append_logged _ _ _ _ H) as (auth & now & Ha & Hdb) end.
    match goal with H : Ok _ = Ok (o, b) |- _ => injection H as <- <- | H : (o, b) = _ |- _ => injection H as -> -> end.
    unfold insert_outbox in *. rinv. same_db. bsplit. cbn [tick drawn set_db w_db] in *.
    match goal with H : insert_or_ignore_step _ _ = _ |- _ => rename H into Hstep end.
    match goal with H : absent (outbox _) _ = true |- _ => apply absent_true in H; rename H into Hnone end.
    match goal with H : map_any _ _ = false |- _ => rename H into Hkey; rewrite map_any_false in Hkey end.
    match goal with H : _assert_effect_lifecycle _ _ = Ok ?u |- _ => destruct u; apply lifecycle_ok in H end.
    match goal with H : _assert_step_binding _ _ = Ok ?u |- _ => destruct u; apply step_binding_ok in H end.
    repeat match goal with H : w_db _ = w_db _ |- _ => rewrite H in *; clear H end.
    apply insert_step_ok in Hstep; [|cbn [set_db w_db tick]; by rewrite Hdb]. cbn [set_db w_db tick] in Hstep. rewrite Hdb in *.
    split; [done|]. eexists _, _. split; [|exact Hstep].
    constructor; simpl; try done.
    + intros k p' Hp' He. specialize (Hkey k p' Hp'). by apply bool_decide_eq_false in Hkey.
    + eexists. split_and!; try done. by eexists.
    + by eexists.
Qed.

(** ** Closing an effect *)

(** The first receipt of a known effect; its row and its step take its status. *)
Record closed (d : DB) (o : OutboxRow) (rc : Receipt) (d' : DB) : Prop := {
  cl_first : receipt_of d (ox_effect_id o) = None;
  cl_receipt : rc_effect_id rc = ox_effect_id o ∧ effect_receipts (effects (registry d)) !! rc_receipt_id rc = None ∧
    is_Some (outbox (effects (registry d)) !! ox_effect_id o);
  cl_writes : ∃ dispatched now err, outbox_part d' =
    (alter (λ x, with_status (rc_status rc) (dispatched x) (Some now) err x) (ox_effect_id o) (outbox (effects (registry d))),
     <[rc_receipt_id rc := rc]> (effect_receipts (effects (registry d))),
     alter (step_done (rc_status rc) (rc_result rc) now) (ox_task_id o, ox_step_id o) (workflow_steps (registry d))) }.
Definition same_content (rc : Receipt) (status : string) (receipt : option string) (result : json) : Prop :=
  rc_status rc = status ∧ rc_provider_receipt rc = receipt ∧ rc_result rc = result ∧ rc_result_digest rc = content_hash result.

Lemma close_effect_ok o status receipt result now dispatched err w u w' :
  close_effect o status receipt result now dispatched err w = (Ok u, w') →
  receipt_of (w_db w) (ox_effect_id o) = None ∧
  ∃ rc, closed (w_db w) o rc (w_db w') ∧ same_content rc status receipt (JObj result).
Proof.
  unfold close_effect, insert_receipt. intros Hrun. rinv. bsplit. cbn [tick drawn set_db w_db] in *.
  match goal with H : absent _ _ = true |- _ => apply absent_true in H; rename H into Hnone end.
  match goal with H : map_any _ _ = false |- _ => rename H into Hfirst; rewrite map_any_false in Hfirst end.
  match goal with H : present (outbox _) _ = true |- _ => apply present_true in H; rename H into Hknown end.
  assert (receipt_of (w_db w) (ox_effect_id o) = None) as Hn.
  { apply receipt_none. intros j r Hj He. specialize (Hfirst j r Hj). by apply bool_decide_eq_false in Hfirst. }
  split; [exact Hn|]. eexists (Build_Receipt _ _ _ _ _ _ _). split; [|done].
  constructor; [exact Hn|done|]. eexists _, _, _. reflexivity.
Qed.

Lemma retain_part x o result now : keeps (part_is outbox_part x) (_retain_negative o result now).
Proof.
  unfold _retain_negative, insert_negative. keeps_walk;
    first [by apply (part_write _ [] outbox_made) | by apply (part_insert _ [] outbox_made)].
Qed.
Lemma closed_weaken d d' o rc d1 d2 : outbox_part d' = outbox_part d → outbox_part d2 = outbox_part d1 →
  closed d' o rc d1 → closed d o rc d2.
Proof.
  unfold outbox_part. intros [= H1 H2 H3] [= H4 H5 H6] [Hf Hr (di & n & e & Hw)]. unfold receipt_of, outbox_part in *.
  rewrite ?H1, ?H2, ?H3 in *. constructor; [done|done|]. exists di, n, e. unfold outbox_part. by rewrite H4, H5, H6.
Qed.

Definition answer_of (rc : Receipt) (provider_replayed checkpoint_replayed : bool) : DispatchResult := {|
  dr_effect_id := rc_effect_id rc; dr_status := rc_status rc; dr_provider_receipt := rc_provider_receipt rc;
  dr_result := rc_result rc; dr_provider_replayed := provider_replayed;
  dr_checkpoint_replayed := checkpoint_replayed |}.

Lemma checkpoint_ok self o x w r w' :
  _checkpoint self o x w = (Ok r, w') →
  (∃ rc, receipt_of (w_db w) (ox_effect_id o) = Some rc ∧ r = answer_of rc (rp_replayed x) true ∧
     rc_provider_receipt rc = rp_provider_receipt x ∧ rc_result_digest rc = content_hash (JObj (rp_result x)) ∧
     w_db w' = w_db w) ∨
  (∃ rc, closed (w_db w) o rc (w_db w') ∧ r = answer_of rc (rp_replayed x) false ∧
     same_content rc (rp_status x) (rp_provider_receipt x) (JObj (rp_result x))).
Proof.
  unfold _checkpoint. intros Hrun. rinv.
  match goal with H : match ?m with _ => _ end _ = (Ok r, _) |- _ => destruct m as [prior|] eqn:Hprior; rinv; [left|right] end.
  - bsplit. apply receipt_some in Hprior as Hp. destruct Hp as [_ <-]. exists prior. by split_and!.
  - match goal with H : append_event _ _ = _ |- _ => pose proof (append_logged _ _ _ _ H) as (auth & now & Ha & Hdb) end.
    match goal with H : close_effect _ _ _ _ _ _ _ _ = (_, ?w1) |- _ =>
      apply close_effect_ok in H as (_ & rc & Hc & Hs); rename w1 into wc end.
    match goal with H : (if _ then _ else _) wc = (_, ?w1) |- _ => assert (outbox_part (w_db w1) = outbox_part (w_db wc)) as Hneg;
      [destruct (negb _) in H; [by apply (part_same outbox_part _ _ _ _ (λ x, retain_part x _ _ _) H)|by injection H as _ <-]|] end.
    exists rc. split; [eapply closed_weaken; [|exact Hneg|exact Hc]|].
    + cbn [tick drawn w_db]. rewrite Hdb. done.
    + split; [|done]. destruct Hs as (<- & <- & <- & _). unfold answer_of. by rewrite (proj1 (cl_receipt _ _ _ _ Hc)).
Qed.

Lemma denied_ok self o m w r w' :
  _checkpoint_authorization_failure self o m w = (Ok r, w') →
  (∃ rc, receipt_of (w_db w) (ox_effect_id o) = Some rc ∧ r = answer_of rc (from_provider rc) true ∧ w_db w' = w_db w) ∨
  (∃ rc, closed (w_db w) o rc (w_db w') ∧ r = answer_of rc false false ∧
     same_content rc "failed" None (JObj (denial m))).
Proof.
  unfold _checkpoint_authorization_failure. intros Hrun. rinv.
  match goal with H : match ?m with _ => _ end _ = (Ok r, _) |- _ => destruct m as [prior|] eqn:Hprior; rinv; [left|right] end.
  - apply receipt_some in Hprior as Hp. destruct Hp as [_ <-]. by exists prior.
  - match goal with H : append_event _ _ = _ |- _ => pose proof (append_logged _ _ _ _ H) as (auth & now & Ha & Hdb) end.
    match goal with H : close_effect _ _ _ _ _ _ _ _ = (_, ?w1) |- _ =>
      apply close_effect_ok in H as (_ & rc & Hc & Hs); rename w1 into wc end.
    match goal with H : _retain_negative _ _ _ wc = _ |- _ =>
      pose proof (part_same outbox_part _ _ _ _ (λ x, retain_part x _ _ _) H) as Hneg end.
    exists rc. split; [eapply closed_weaken; [|exact Hneg|exact Hc]|].
    + cbn [tick drawn w_db]. rewrite Hdb. done.
    + split; [|done]. destruct Hs as (<- & <- & <- & _). unfold answer_of. by rewrite (proj1 (cl_receipt _ _ _ _ Hc)).
Qed.
End transactions.
