(* ===== verification/Effects.v ===== *)
(** * What the durable workflow guarantees

    Commands of the system, dispatches with a crash at any point and recoveries,
    in any order, over the database and an external service that satisfies
    [AdapterLaws].  Each is a sequence of small steps, one per transaction or call
    of the service; the invariants are proved of the steps. *)

From S2P Require Import Prelude PyStr Json Enums StateMachine Contracts Scope Db Store Identity.
From S2P Require Import Leases Scheduler Authority Gates Registries Policy Integration Evidence Observations.
From S2P Require Import Adapters Workflow Services Kernel Replay System Bench Commands Tables Parts Grants Outboxes.
Import Outbox.

Local Open Scope string_scope.
Local Open Scope list_scope.
Local Open Scope Z_scope.

(** A use of a grant was booked for the effect. *)
Definition authorised (d : DB) (effect_id : string) : Prop :=
  ∃ key u, capability_usage (effects (registry d)) !! key = Some u ∧ us_effect_id u = Some effect_id.
(** The request that was enqueued. *)
Definition requests (o : OutboxRow) (q : dict) : Prop := dget (ox_request o) "request" = Some (JObj q).
Definition settled : list string := ["succeeded"; "failed"].

(** The commands that a client can give: of the outbox, [enqueue] only. *)
Definition public (op : SysOp) : bool :=
  match op with
  | SysService (SvOutbox _ (OoEnqueue _ _ _)) => true
  | SysService (SvOutbox _ _) => false
  | _ => true
  end.

Section database.
Context `{ENV : Env}.

Lemma policy_text_ok v x : Engine._required_text v = Ok x → x = strip v.
Proof. unfold Engine._required_text, required_text. intros Hrun. by rinv. Qed.
Lemma consume_args_effect a a' :
  Engine.consume_args a = Ok a' → Engine.ca_effect_id a' = strip <$> Engine.ca_effect_id a.
Proof.
  unfold Engine.consume_args. intros Hrun. rinv. simpl.
  destruct (Engine.ca_effect_id a) as [e|]; rinv; [|done].
  match goal with H : Engine._required_text e = Ok _ |- _ => apply policy_text_ok in H; by rewrite H end.
Qed.
Lemma effect_request_effect e o g r : Engine.effect_request e o g = Ok r → Engine.ca_effect_id r.1 = Some e.
Proof. unfold Engine.effect_request. intros Hrun. by rinv. Qed.

Lemma consume_authorises e w u w' :
  Engine._consume_effect e w = (Ok u, w') → authorised (w_db w') (strip e).
Proof.
  unfold Engine._consume_effect. intros Hrun. rinv.
  match goal with H : Engine._required_text e = Ok ?x |- _ => apply policy_text_ok in H; subst x end.
  match goal with H : Engine.effect_request _ _ _ = Ok _ |- _ => apply effect_request_effect in H as He end.
  match goal with H : Engine.consume_args _ = Ok _ |- _ => apply consume_args_effect in H as Ha end.
  rewrite He in Ha. simpl in Ha. rewrite strip_idemp in Ha.
  apply consume_ok in Hrun as (p & g & _ & [(u' & Hu & Hs & _ & ->)|[Hb _]]).
  - eexists _, u'. split; [exact Hu|].
    unfold Engine.same_use in Hs. bsplit. congruence.
  - destruct (bk_writes _ _ _ _ Hb) as (ev & now & _ & _ & _ & ->). eexists _, _. split; [apply lookup_insert_eq|]. exact Ha.
Qed.

(** ** The outbox through any public command *)
Lemma consume_part x e : keeps (part_is outbox_part x) (Engine._consume_effect e).
Proof.
  apply Engine.consume_effect_footprint, (part_footprint _ [] outbox_made); [by apply forallb_In|writes_spare].
Qed.

Lemma public_part op w r w' : public op = true → run_sys_op op w = (r, w') →
  outbox_part (w_db w') = outbox_part (w_db w) ∨
  ∃ o st e, enqueued (w_db w) o st ∧
    w_db w' = set_workflow_steps <[(ox_task_id o, ox_step_id o) := st]>
                (set_outbox <[ox_effect_id o := o]> (logged [e] (w_db w))).
Proof.
  intros Hp Hrun. destruct r as [u|e]; [|apply failed_commands_change_nothing in Hrun as ->; by left].
  destruct (sys_op_apart outbox_part [] outbox_made V_outbox op w (Ok u) w') as [?|(so & -> & [Hso|[]])];
    [spares|done|done|exact Hrun|by left| |done].
  destruct so as [s op|s op|s op|s op|s op|op|s op|s op]; try done. destruct op; try done. simpl in Hrun. unfold ignore in Hrun. rinv.
  match goal with x : OutboxRow * bool |- _ => destruct x as [o b] end.
  match goal with H : enqueue _ _ _ _ _ = _ |- _ => apply enqueue_ok in H as [(_ & -> & _)|(_ & st & e & Hen & Hdb)] end;
    [by left|right; by exists o, st, e].
Qed.

(** Uses are never taken back. *)
Lemma authorised_step d d' e : policy_step d d' → authorised d e → authorised d' e.
Proof.
  intros Hstep (key & u & Hu & He). exists key, u. split; [|done].
  destruct Hstep as [[= _ _ ->]|a ev approver _ _ _ _ ->|i p g ev _ _ ->|k g ev now _ _ ->|a who p g _ Hb]; try done.
  destruct (bk_writes _ _ _ _ Hb) as (ev & now & _ & _ & _ & ->). simpl.
  rewrite lookup_insert_ne; [done|]. intros <-. pose proof (bk_new _ _ _ _ Hb). congruence.
Qed.
End database.

(** ** The outbox keeps its books *)
Section books.
Context `{ENV : Env}.

(** One step of the outbox. *)
Inductive outbox_move (d d' : DB) : Prop :=
  | om_same : outbox_part d' = outbox_part d → outbox_move d d'
  | om_enqueue o st : enqueued d o st →
      outbox_part d' = (<[ox_effect_id o := o]> (outbox (effects (registry d))), effect_receipts (effects (registry d)),
        <[(ox_task_id o, ox_step_id o) := st]> (workflow_steps (registry d))) → outbox_move d d'
  | om_ready k : outbox_part d' = (alter made_ready k (outbox (effects (registry d))),
      effect_receipts (effects (registry d)), workflow_steps (registry d)) → outbox_move d d'
  | om_close o rc : known d o → rc_status rc ∈ settled → closed d o rc d' → outbox_move d d'.

(** An effect waits with its step, or it was settled once and its row, its step and
    its receipt agree. *)
Definition in_books (d : DB) (o : OutboxRow) (st : StepRow) : Prop :=
  st_effect_id st = Some (ox_effect_id o) ∧ st_input_digest st = ox_request_digest o ∧
  match receipt_of d (ox_effect_id o) with
  | None => ox_status o ∈ ["authorization_pending"; "ready"] ∧ st_status st = "queued"
  | Some r => rc_status r ∈ settled ∧ ox_status o = rc_status r ∧ st_status st = rc_status r ∧
              st_result st = Some (rc_result r)
  end.
Record outbox_inv (d : DB) : Prop := {
  oi_key k o : outbox (effects (registry d)) !! k = Some o → ox_effect_id o = k;
  oi_unique k k' o o' : outbox (effects (registry d)) !! k = Some o → outbox (effects (registry d)) !! k' = Some o' →
    (ox_project_id o, ox_idempotency_key o) = (ox_project_id o', ox_idempotency_key o') → k = k';
  oi_request k o : outbox (effects (registry d)) !! k = Some o →
    ∃ q, requests o q ∧ content_hash (JObj q) = ox_request_digest o;
  oi_receipt j r : effect_receipts (effects (registry d)) !! j = Some r →
    rc_receipt_id r = j ∧ is_Some (outbox (effects (registry d)) !! rc_effect_id r);
  oi_once j j' r r' : effect_receipts (effects (registry d)) !! j = Some r →
    effect_receipts (effects (registry d)) !! j' = Some r' → rc_effect_id r = rc_effect_id r' → j = j';
  oi_books k o : outbox (effects (registry d)) !! k = Some o →
    ∃ st, workflow_steps (registry d) !! (ox_task_id o, ox_step_id o) = Some st ∧ in_books d o st }.

Lemma receipt_part d d' e : effect_receipts (effects (registry d')) = effect_receipts (effects (registry d)) →
  receipt_of d' e = receipt_of d e.
Proof. intros Hr. unfold receipt_of. by rewrite Hr. Qed.
Lemma identity_status s a b c o : ox_identity (with_status s a b c o) = ox_identity o.
Proof. done. Qed.
Lemma identity_ready o : ox_identity (made_ready o) = ox_identity o.
Proof. unfold made_ready. by case_bool_decide. Qed.

(** The receipt that closes an effect is the only one it will have. *)
Lemma receipt_new d d' o rc e : outbox_inv d → closed d o rc d' →
  receipt_of d' e = if bool_decide (e = ox_effect_id o) then Some rc else receipt_of d e.
Proof.
  intros Hi [Hf (Hrc & Hn & _) (di & now & err & [= _ Hr _])].
  assert (∀ r, receipt_of d' e = Some r → if bool_decide (e = ox_effect_id o) then r = rc else receipt_of d e = Some r) as Hsome.
  { intros r ([j Hj] & He)%receipt_some. rewrite Hr in Hj. apply lookup_insert_Some in Hj as [[<- <-]|[Hne Hj]].
    - rewrite bool_decide_eq_true_2 by congruence. done.
    - case_bool_decide as Heq.
      + destruct (proj1 (receipt_none d (ox_effect_id o)) Hf j r Hj). congruence.
      + destruct (receipt_of d e) as [r'|] eqn:Hr'; [|by destruct (proj1 (receipt_none d e) Hr' j r Hj)].
        apply receipt_some in Hr' as [[j' Hj'] He']. assert (j' = j) as -> by (eapply (oi_once d Hi); eauto; congruence).
        congruence. }
  destruct (receipt_of d' e) as [r|] eqn:Hr'.
  - specialize (Hsome r eq_refl). by case_bool_decide; [subst|].
  - rewrite receipt_none in Hr'. case_bool_decide as Heq.
    + exfalso. apply (Hr' (rc_receipt_id rc) rc); [rewrite Hr; apply lookup_insert_eq|congruence].
    + symmetry. apply receipt_none. intros j r Hj. apply (Hr' j r). rewrite Hr.
      rewrite lookup_insert_ne; [done|]. intros <-. congruence.
Qed.

Lemma in_books_weaken d d' o o' st : ox_effect_id o' = ox_effect_id o → ox_request_digest o' = ox_request_digest o →
  receipt_of d' (ox_effect_id o) = receipt_of d (ox_effect_id o) →
  (ox_status o' = ox_status o ∨ ox_status o = "authorization_pending" ∧ ox_status o' = "ready") →
  in_books d o st → in_books d' o' st.
Proof.
  unfold in_books. intros -> -> -> Hs (He & Hd & Hb). split; [done|]. split; [done|].
  destruct (receipt_of d (ox_effect_id o)) as [r|]; destruct Hs as [->|[Hs Hs']]; try done.
  - destruct Hb as (Hset & Ho & _). rewrite Hs in Ho. rewrite <- Ho in Hset. by apply memb_true in Hset.
  - destruct Hb as [_ ?]. rewrite Hs'. split; [by right; left|done].
Qed.

Lemma inv_same d d' : outbox_part d' = outbox_part d → outbox_inv d → outbox_inv d'.
Proof.
  unfold outbox_part. intros [= Ho Hr Hs] [].
  assert (∀ e, receipt_of d' e = receipt_of d e) as He by (intros e; by apply receipt_part).
  constructor; rewrite ?Ho, ?Hr, ?Hs; try done. intros k o Hk. destruct (oi_books0 k o Hk) as (st & Hst & Hb).
  exists st. split; [done|]. unfold in_books in *. by rewrite He.
Qed.

Lemma inv_enqueue d d' o st : enqueued d o st →
  outbox_part d' = (<[ox_effect_id o := o]> (outbox (effects (registry d))), effect_receipts (effects (registry d)),
    <[(ox_task_id o, ox_step_id o) := st]> (workflow_steps (registry d))) → outbox_inv d → outbox_inv d'.
Proof.
  unfold outbox_part. intros He [= Ho Hr Hs] Hi. destruct (en_step _ _ _ He) as (Hst & _ & Hq & Heff & Hd).
  assert (∀ e, receipt_of d' e = receipt_of d e) as Hrec by (intros e; by apply receipt_part).
  constructor; rewrite ?Ho, ?Hr, ?Hs.
  - intros k x [[<- <-]|[_ Hx]]%lookup_insert_Some; [done|by apply (oi_key d Hi)].
  - intros k k' x x' [[<- <-]|[_ Hx]]%lookup_insert_Some [[<- <-]|[_ Hx']]%lookup_insert_Some Heq; [done|..].
    + by destruct (en_key _ _ _ He k' x' Hx').
    + by destruct (en_key _ _ _ He k x Hx).
    + by apply (oi_unique d Hi k k' x x').
  - intros k x [[<- <-]|[_ Hx]]%lookup_insert_Some; [|by apply (oi_request d Hi k)].
    destruct (en_request _ _ _ He) as (q & ? & ?). by exists q.
  - intros j r Hj. destruct (oi_receipt d Hi j r Hj) as [? ?]. split; [done|]. apply lookup_insert_is_Some. 
    destruct (decide (ox_effect_id o = rc_effect_id r)); auto.
  - apply (oi_once d Hi).
  - intros k x [[<- <-]|[_ Hx]]%lookup_insert_Some.
    + exists st. split; [apply lookup_insert_eq|]. unfold in_books. rewrite Hrec. split_and!; [done..|].
      destruct (receipt_of d (ox_effect_id o)) as [r|] eqn:Hro.
      * apply receipt_some in Hro as [[j Hj] Hre]. destruct (oi_receipt d Hi j r Hj) as [_ [y Hy]].
        rewrite Hre, (en_new _ _ _ He) in Hy. done.
      * rewrite (en_status _ _ _ He). split; [by left|done].
    + destruct (oi_books d Hi k x Hx) as (st' & Hst' & Hb). exists st'. split.
      * rewrite lookup_insert_ne; [done|]. intros Heq. congruence.
      * unfold in_books in *. by rewrite Hrec.
Qed.

Lemma inv_ready d d' k : outbox_part d' = (alter made_ready k (outbox (effects (registry d))),
  effect_receipts (effects (registry d)), workflow_steps (registry d)) → outbox_inv d → outbox_inv d'.
Proof.
  unfold outbox_part. intros [= Ho Hr Hs] Hi.
  assert (∀ e, receipt_of d' e = receipt_of d e) as Hrec by (intros e; by apply receipt_part).
  assert (∀ i o', alter made_ready k (outbox (effects (registry d))) !! i = Some o' →
    ∃ o, outbox (effects (registry d)) !! i = Some o ∧ ox_identity o' = ox_identity o ∧ (o' = o ∨ o' = made_ready o)) as Hrow.
  { intros i o' [(<- & o & Hl & ->)|[_ Hl]]%lookup_alter_Some; [exists o|exists o']; auto using identity_ready. }
  constructor; rewrite ?Ho, ?Hr, ?Hs.
  - intros i o' (o & Hl & [= -> _ _ _ _ _ _ _ _] & _)%Hrow. by apply (oi_key d Hi).
  - intros i i' o' o2' (o & Hl & [= _ -> _ _ _ _ -> _ _] & _)%Hrow (o2 & Hl2 & [= _ -> _ _ _ _ -> _ _] & _)%Hrow.
    by apply (oi_unique d Hi).
  - intros i o' (o & Hl & [= _ _ _ _ _ _ _ -> Hq] & _)%Hrow. unfold requests. rewrite Hq. by apply (oi_request d Hi i).
  - intros j r Hj. destruct (oi_receipt d Hi j r Hj). split; [done|by apply lookup_alter_is_Some].
  - apply (oi_once d Hi).
  - intros i o' (o & Hl & [= H1 _ _ H2 H3 _ _ H4 _] & Hor)%Hrow.
    destruct (oi_books d Hi i o Hl) as (st & Hst & Hb). rewrite H2, H3. exists st. split; [done|].
    apply (in_books_weaken d d' o); [done|done|done| |done].
    destruct Hor as [->|Hm]; [by left|]. unfold made_ready in Hm. case_bool_decide; subst; auto.
Qed.

Lemma inv_close d d' o rc : known d o → rc_status rc ∈ settled → closed d o rc d' → outbox_inv d → outbox_inv d'.
Proof.
  intros (o0 & Ho0 & Hid0) Hset Hc Hi. pose proof (λ e, receipt_new d d' o rc e Hi Hc) as Hrec.
  destruct Hc as [Hf (Hrc & Hnew & _) (di & now & err & Hpart)]. unfold outbox_part in Hpart. injection Hpart as Ho Hr Hs.
  set (f := λ x, with_status (rc_status rc) (di x) (Some now) err x) in Ho.
  assert (∀ i o', alter f (ox_effect_id o) (outbox (effects (registry d))) !! i = Some o' →
    ∃ x, outbox (effects (registry d)) !! i = Some x ∧ ox_identity o' = ox_identity x ∧
      ((i = ox_effect_id o ∧ o' = f x) ∨ (i ≠ ox_effect_id o ∧ o' = x))) as Hrow.
  { intros i o' [(<- & x & Hl & ->)|[Hne Hl]]%lookup_alter_Some; [exists x|exists o']; auto. }
  constructor; rewrite ?Ho, ?Hr, ?Hs.
  - intros i o' (x & Hl & [= -> _ _ _ _ _ _ _ _] & _)%Hrow. by apply (oi_key d Hi).
  - intros i i' o' o2' (x & Hl & [= _ -> _ _ _ _ -> _ _] & _)%Hrow (o2 & Hl2 & [= _ -> _ _ _ _ -> _ _] & _)%Hrow.
    by apply (oi_unique d Hi).
  - intros i o' (x & Hl & [= _ _ _ _ _ _ _ -> Hq] & _)%Hrow. unfold requests. rewrite Hq. by apply (oi_request d Hi i).
  - intros j r [[<- <-]|[_ Hj]]%lookup_insert_Some; (split; [|apply lookup_alter_is_Some]); [done|..].
    + rewrite Hrc. by exists o0.
    + by apply (oi_receipt d Hi j).
    + by apply (oi_receipt d Hi j).
  - rewrite receipt_none in Hf.
    intros j j' r r' [[<- <-]|[_ Hj]]%lookup_insert_Some [[<- <-]|[_ Hj']]%lookup_insert_Some He; [done|..].
    + destruct (Hf j' r' Hj'). congruence.
    + destruct (Hf j r Hj). congruence.
    + by apply (oi_once d Hi j j' r r').
  - intros i o' (x & Hl & [= H1 _ _ H2 H3 _ _ H4 _] & Hor)%Hrow. pose proof (oi_key d Hi i x Hl) as Hk.
    destruct (oi_books d Hi i x Hl) as (st & Hst & He & Hd & Hb). rewrite H2, H3. unfold in_books. rewrite H1, H4, Hrec.
    destruct Hor as [[-> ->]|[Hne ->]].
    + rewrite Hl in Ho0. injection Ho0 as ->. injection Hid0 as _ _ _ Ht Hsp _ _ _ _.
      rewrite <- Ht, <- Hsp, lookup_alter_eq, Hst. eexists. split; [done|]. rewrite bool_decide_eq_true_2 by congruence. done.
    + rewrite lookup_alter_ne.
      * exists st. rewrite bool_decide_eq_false_2 by congruence. done.
      * intros Heq. destruct (oi_books d Hi _ o0 Ho0) as (st0 & Hst0 & He0 & _).
        injection Hid0 as Hio _ _ Ht Hsp _ _ _ _. rewrite Ht, Hsp, Heq, Hst in Hst0. injection Hst0 as ->. congruence.
Qed.

Lemma outbox_inv_step d d' : outbox_move d d' → outbox_inv d → outbox_inv d'.
Proof.
  intros [Hs|o st He Hp|k Hp|o rc Hk Hst Hc]; [by apply inv_same|by eapply inv_enqueue|by eapply inv_ready|by eapply inv_close].
Qed.
End books.

(** ** Steps over the database and the service *)
Section service.
Context `{ENV : Env} {T : Type} `{LAWS : AdapterLaws T}.

(** The service has committed what the receipt says of the effect. *)
Definition committed_as (s : T) (o : OutboxRow) (x : AdapterReceipt) : Prop :=
  ∃ x0, committed s (ox_project_id o) (ox_idempotency_key o) = Some x0 ∧ outcome x = outcome x0.

Inductive effect_step : World * T → World * T → Prop :=
  | es_command op w s : public op = true → effect_step (w, s) ((run_sys_op op w).2, s)
  | es_consume e w s : effect_step (w, s) ((Engine._consume_effect e w).2, s)
  | es_ready e w s : effect_step (w, s) ((mark_ready e w).2, s)
  | es_execute o q w s : known (w_db w) o → authorised (w_db w) (ox_effect_id o) → requests o q →
      effect_step (w, s) (w, (execute (effect_key o) q s).2)
  | es_checkpoint self o x w s : known (w_db w) o → rp_status x ∈ settled → receipt_key x = effect_key o →
      committed_as s o x → effect_step (w, s) ((_checkpoint self o x w).2, s)
  | es_denied self o m w s : known (w_db w) o →
      effect_step (w, s) ((_checkpoint_authorization_failure self o m w).2, s).

(** Every step is one command for the database. *)
Lemma step_is_command ws ws' : effect_step ws ws' → ws'.1 = ws.1 ∨ ∃ op, ws'.1 = (run_sys_op op ws.1).2.
Proof.
  assert (∀ {A} (m : P A) w, (ignore m w).2 = (m w).2) as Hig.
  { intros A m w. unfold ignore, mbind, M_bind. by destruct (m w) as [[a|e] w1]. }
  intros Hstep. set (wf := Build_DurableWorkflow "" (Build_PolicyEngine 0 0) "").
  destruct Hstep as [op w s Hp|e w s|e w s|o q w s Hk Ha Hq|self o x w s Hk Hs Hr Hc|self o m w s Hk]; simpl; [right|right|right|by left|right|right].
  - by exists op.
  - exists (SysService (SvOutbox wf (OoConsume e))). simpl. by rewrite Hig.
  - exists (SysService (SvOutbox wf (OoReady e))). done.
  - exists (SysService (SvOutbox self (OoCheckpoint o x))). simpl. by rewrite Hig.
  - exists (SysService (SvOutbox self (OoDenied o m))). simpl. by rewrite Hig.
Qed.
Lemma step_policy ws ws' : effect_step ws ws' → policy_step (w_db ws.1) (w_db ws'.1).
Proof.
  intros [->|[op ->]]%step_is_command; [by apply ps_other|].
  destruct (run_sys_op op ws.1) as [r w'] eqn:Hrun. by apply (sys_op_step op _ r).
Qed.

Lemma step_move ws ws' : effect_step ws ws' → outbox_move (w_db ws.1) (w_db ws'.1).
Proof.
  intros [op w s Hp|e w s|e w s|o q w s Hk Ha Hq|self o x w s Hk Hs Hr Hc|self o m w s Hk]; simpl.
  - destruct (run_sys_op op w) as [r w'] eqn:Hrun. simpl.
    destruct (public_part op w r w' Hp Hrun) as [Hsame|(o & st & e & He & ->)]; [by apply om_same|by apply (om_enqueue _ _ o st)].
  - apply om_same. destruct (Engine._consume_effect e w) as [r w'] eqn:Hrun.
    apply (part_same outbox_part _ _ _ _ (λ x, consume_part x e) Hrun).
  - apply (om_ready _ _ e). reflexivity.
  - by apply om_same.
  - destruct (_checkpoint self o x w) as [r w'] eqn:Hrun. simpl. destruct r as [r|e].
    + apply checkpoint_ok in Hrun as [(rc & _ & _ & _ & _ & ->)|(rc & Hcl & _ & (Hst & _))]; [by apply om_same|].
      apply (om_close _ _ o rc); [done|by rewrite Hst|done].
    + unfold _checkpoint in Hrun. apply transaction_raise in Hrun. apply om_same. by rewrite Hrun.
  - destruct (_checkpoint_authorization_failure self o m w) as [r w'] eqn:Hrun. simpl. destruct r as [r|e].
    + apply denied_ok in Hrun as [(rc & _ & _ & ->)|(rc & Hcl & _ & (Hst & _))]; [by apply om_same|].
      apply (om_close _ _ o rc); [done|rewrite Hst; by right; left|done].
    + unfold _checkpoint_authorization_failure in Hrun. apply transaction_raise in Hrun. apply om_same. by rewrite Hrun.
Qed.

(** ** What the steps keep *)
Lemma known_move d d' o : outbox_move d d' → known d o → known d' o.
Proof.
  assert (∀ f k, (∀ x, ox_identity (f x) = ox_identity x) → known d o →
    ∃ o', alter f k (outbox (effects (registry d))) !! ox_effect_id o = Some o' ∧ ox_identity o' = ox_identity o) as Halt.
  { intros f k Hf (o' & Ho & Hid). destruct (decide (k = ox_effect_id o)) as [->|Hne].
    - exists (f o'). rewrite lookup_alter_eq, Ho. split; [done|]. by rewrite Hf.
    - exists o'. by rewrite lookup_alter_ne. }
  intros Hmove Hk. unfold known.
  destruct Hmove as [Hp|x st He Hp|k Hp|x rc _ _ [_ _ (di & n & e & Hp)]]; injection Hp as -> _ _.
  - done.
  - destruct Hk as (o' & Ho & Hid). exists o'. split; [|done]. rewrite lookup_insert_ne; [done|].
    intros Heq. pose proof (en_new _ _ _ He) as Hn. congruence.
  - apply Halt; [apply identity_ready|done].
  - by apply Halt.
Qed.
Lemma receipt_move d d' e r : outbox_inv d → outbox_move d d' → receipt_of d e = Some r → receipt_of d' e = Some r.
Proof.
  intros Hi Hmove Hr. destruct Hmove as [Hp|x st _ Hp|k Hp|x rc _ _ Hc];
    [injection Hp as _ Hp _; by rewrite (receipt_part d)..|].
  rewrite (receipt_new d d' x rc e Hi Hc). case_bool_decide as Heq; [|done].
  subst e. by rewrite (cl_first _ _ _ _ Hc) in Hr.
Qed.

(** What the receipts of the database and the ledger of the service have to do with
    each other, where the ledger was that of [s0] in the beginning. *)
Record truthful (s0 : T) (d : DB) (s : T) : Prop := {
  tr_receipt e r c : receipt_of d e = Some r → rc_provider_receipt r = Some c →
    ∃ o x, known d o ∧ ox_effect_id o = e ∧ committed_as s o x ∧ receipt_key x = effect_key o ∧
      rp_provider_receipt x = Some c ∧ rp_status x = rc_status r ∧ JObj (rp_result x) = rc_result r;
  tr_ledger p key x : committed s p key = Some x → committed s0 p key = Some x ∨
    ∃ o, known d o ∧ receipt_key x = service_key (effect_key o) ∧ authorised d (ox_effect_id o) }.

Lemma committed_keeps k q s r s' o x : execute k q s = (r, s') → committed_as s o x → committed_as s' o x.
Proof. intros Hrun (x0 & Hx & Ho). exists x0. split; [|done]. by eapply execute_keeps. Qed.

(** Receipts and ledger after a step that adds neither. *)
Lemma truthful_weaken s0 d d' s : (∀ o, known d o → known d' o) → (∀ e, authorised d e → authorised d' e) →
  (∀ e r c, receipt_of d' e = Some r → rc_provider_receipt r = Some c → receipt_of d e = Some r) →
  truthful s0 d s → truthful s0 d' s.
Proof.
  intros Hk Ha Hr [Htr Htl]. constructor.
  - intros e r c He Hc. destruct (Htr e r c (Hr e r c He Hc) Hc) as (o & x & Ho & Hrest). exists o, x. auto.
  - intros p key x Hx. destruct (Htl p key x Hx) as [?|(o & Ho & Hkey & Hau)]; [by left|right; exists o; auto].
Qed.

Lemma effect_step_keeps s0 ws ws' : effect_step ws ws' → outbox_inv (w_db ws.1) → truthful s0 (w_db ws.1) ws.2 →
  outbox_inv (w_db ws'.1) ∧ truthful s0 (w_db ws'.1) ws'.2.
Proof.
  intros Hstep Hi Ht. pose proof (step_move _ _ Hstep) as Hmove. pose proof (step_policy _ _ Hstep) as Hpol.
  split; [by eapply outbox_inv_step|].
  assert (∀ o, known (w_db ws.1) o → known (w_db ws'.1) o) as Hk by (intros o; by apply known_move).
  assert (∀ e, authorised (w_db ws.1) e → authorised (w_db ws'.1) e) as Ha by (intros e; by apply authorised_step).
  assert (∀ rc o, closed (w_db ws.1) o rc (w_db ws'.1) → (∀ c, rc_provider_receipt rc = Some c → False) →
    ws'.2 = ws.2 → truthful s0 (w_db ws'.1) ws'.2) as Hneg.
  { intros rc o Hc Hno ->. apply (truthful_weaken s0 (w_db ws.1)); [done..| |done].
    intros e r c He Hrc. rewrite (receipt_new _ _ o rc e Hi Hc) in He. case_bool_decide; [|done].
    injection He as ->. by destruct (Hno c). }
  destruct Hstep as [op w s Hp|e w s|e w s|o q w s Hko Hau Hq|self o x w s Hko Hs Hr Hc|self o m w s Hko]; simpl in *.
  - apply (truthful_weaken s0 (w_db w)); [done..| |done]. intros e r c He _.
    destruct (run_sys_op op w) as [a w'] eqn:Hrun. simpl in *.
    destruct (public_part op w a w' Hp Hrun) as [[= _ Hre _]|(o & st & ev & _ & Hdb)];
      [by rewrite (receipt_part (w_db w)) in He|by rewrite Hdb in He].
  - apply (truthful_weaken s0 (w_db w)); [done..| |done]. intros e' r c He _.
    destruct (Engine._consume_effect e w) as [a w'] eqn:Hrun. simpl in *.
    pose proof (part_same outbox_part _ _ _ _ (λ x, consume_part x e) Hrun) as [= _ Hre _].
    by rewrite (receipt_part (w_db w)) in He.
  - by apply (truthful_weaken s0 (w_db w)).
  - destruct (execute (effect_key o) q s) as [r s'] eqn:Hex. simpl. destruct Ht as [Htr Htl]. constructor.
    + intros e r' c He Hc. destruct (Htr e r' c He Hc) as (o' & x & Ho' & Hid & Hcm & Hrest). exists o', x.
      split; [done|]. split; [done|]. split; [by eapply committed_keeps|done].
    + intros p key x Hx. destruct (committed s p key) as [y|] eqn:Hy.
      * pose proof (execute_keeps _ _ _ _ _ _ _ _ Hex Hy) as Hy'. rewrite Hx in Hy'. injection Hy' as ->. by apply Htl.
      * right. exists o. destruct (execute_adds _ _ _ _ _ _ _ _ Hex Hy Hx) as (? & _). done.
  - destruct (_checkpoint self o x w) as [r w'] eqn:Hrun. simpl in *. destruct r as [r|e].
    + apply checkpoint_ok in Hrun as [(rc & _ & _ & _ & _ & ->)|(rc & Hcl & _ & (Hst & Hpr & Hre & _))]; [done|].
      destruct Ht as [Htr Htl]. constructor.
      * intros e rc' c He Hrc. rewrite (receipt_new _ _ o rc e Hi Hcl) in He. case_bool_decide as Heq.
        -- injection He as <-. exists o, x. split_and!; auto; congruence.
        -- destruct (Htr e rc' c He Hrc) as (o' & x' & ? & ?). exists o', x'. auto.
      * intros p key y Hy. destruct (Htl p key y Hy) as [?|(o' & ? & ? & ?)]; [by left|right; exists o'; auto].
    + unfold _checkpoint in Hrun. apply transaction_raise in Hrun. by rewrite Hrun.
  - destruct (_checkpoint_authorization_failure self o m w) as [r w'] eqn:Hrun. simpl in *. destruct r as [r|e].
    + apply denied_ok in Hrun as [(rc & _ & _ & ->)|(rc & Hcl & _ & (_ & Hpr & _))]; [done|].
      apply (Hneg rc o); [done|congruence|done].
    + unfold _checkpoint_authorization_failure in Hrun. apply transaction_raise in Hrun. by rewrite Hrun.
Qed.

Lemma steps_keep s0 ws ws' : rtc effect_step ws ws' →
  outbox_inv (w_db ws.1) → truthful s0 (w_db ws.1) ws.2 → outbox_inv (w_db ws'.1) ∧ truthful s0 (w_db ws'.1) ws'.2.
Proof.
  induction 1 as [|ws1 ws2 ws3 Hstep _ IH]; [done|]. intros Hi Ht.
  destruct (effect_step_keeps s0 _ _ Hstep Hi Ht). by apply IH.
Qed.
Lemma steps_inv ws ws' : rtc effect_step ws ws' → outbox_inv (w_db ws.1) → outbox_inv (w_db ws'.1).
Proof.
  induction 1 as [|ws1 ws2 ws3 Hstep _ IH]; [done|]. intros Hi. apply IH.
  eapply outbox_inv_step; [by eapply step_move|done].
Qed.
Lemma steps_grow ws ws' : rtc effect_step ws ws' → outbox_inv (w_db ws.1) →
  (∀ o, known (w_db ws.1) o → known (w_db ws'.1) o) ∧
  (∀ e, authorised (w_db ws.1) e → authorised (w_db ws'.1) e) ∧
  (∀ e r, receipt_of (w_db ws.1) e = Some r → receipt_of (w_db ws'.1) e = Some r).
Proof.
  induction 1 as [|ws1 ws2 ws3 Hstep _ IH]; [done|]. intros Hi.
  pose proof (step_move _ _ Hstep) as Hm. pose proof (step_policy _ _ Hstep) as Hp.
  destruct (IH (outbox_inv_step _ _ Hm Hi)) as (Hk & Ha & Hr). split_and!.
  - intros o Ho. eapply Hk, known_move; [exact Hm|exact Ho].
  - intros e He. eapply Ha, authorised_step; [exact Hp|exact He].
  - intros e r He. by eapply Hr, receipt_move.
Qed.

(** ** The calls of the workflow are made of steps *)
Definition traced {A} (m : M (World * T) A) (ws : World * T) : Prop :=
  ∀ r ws', m ws = (r, ws') → rtc effect_step ws ws'.
Definition still {A} (m : M (World * T) A) (ws : World * T) : Prop := (m ws).2 = ws.

Lemma traced_still {A} (m : M (World * T) A) ws : still m ws → traced m ws.
Proof. intros Hs r ws' Hrun. unfold still in Hs. rewrite Hrun in Hs. simpl in Hs. by subst. Qed.
Lemma traced_bind {A B} (m : M (World * T) A) (k : A → M (World * T) B) ws :
  traced m ws → (∀ a ws1, m ws = (Ok a, ws1) → rtc effect_step ws ws1 → traced (k a) ws1) → traced (m ≫= k) ws.
Proof.
  intros Hm Hk r ws' Hrun. unfold mbind, M_bind in Hrun. destruct (m ws) as [[a|e] ws1] eqn:Hm1.
  - pose proof (Hm _ _ Hm1) as H1. etrans; [exact H1|]. by eapply Hk.
  - injection Hrun as <- <-. by eapply Hm.
Qed.
Lemma traced_then {A B} (m : M (World * T) A) (k : A → M (World * T) B) ws :
  still m ws → (∀ a, m ws = (Ok a, ws) → traced (k a) ws) → traced (m ≫= k) ws.
Proof.
  intros Hm Hk. apply traced_bind; [by apply traced_still|]. intros a ws1 Hrun _.
  assert (ws1 = ws) as -> by (unfold still in Hm; by rewrite Hrun in Hm). by apply Hk.
Qed.
Lemma still_lift {A} (r : res A) ws : still (lift_res r) ws.
Proof. by destruct r. Qed.
Lemma still_ensure b e ws : still (ensure b e) ws.
Proof. by destruct b. Qed.
Lemma still_expect {A} (o : option A) e ws : still (expect o e) ws.
Proof. by destruct o. Qed.
Lemma still_db {A} (m : P A) w (s : T) : (m w).2 = w → still (on_db m) (w, s).
Proof. unfold still, on_db, zoom. simpl. destruct (m w). simpl. by intros ->. Qed.
Lemma still_crash f p (ws : World * T) : still (crash_at f p) ws.
Proof. apply still_ensure. Qed.
Lemma still_lookup k w (s : T) : still (on_service (lookup_effect k)) (w, s).
Proof.
  unfold still, on_service, zoom. simpl. destruct (lookup_effect k s) as [r s'] eqn:Hl. simpl.
  by rewrite (lookup_reads _ _ _ _ Hl).
Qed.
Lemma traced_db {A} (m : P A) w (s : T) : effect_step (w, s) ((m w).2, s) → traced (on_db m) (w, s).
Proof.
  intros Hstep r ws' Hrun. unfold on_db, zoom in Hrun. simpl in Hrun. destruct (m w) as [r' w'].
  injection Hrun as <- <-. by apply rtc_once.
Qed.
Lemma on_db_inv {A} (m : P A) w (s : T) r ws' : on_db m (w, s) = (r, ws') → ws' = ((m w).2, s) ∧ (m w).1 = r.
Proof. unfold on_db, zoom. simpl. destruct (m w) as [r' w']. by intros [= <- <-]. Qed.

Lemma receipt_bound self o x : _assert_receipt_binding self o x = Ok tt → receipt_key x = effect_key o ∧ rp_status x ∈ settled.
Proof.
  unfold _assert_receipt_binding. intros Hrun. apply res_bind_ok in Hrun as (u & H1%require_ok & H2%require_ok).
  bsplit. split; [congruence|by apply memb_true].
Qed.
Lemma committed_of s o x x0 : receipt_key x = effect_key o →
  committed s (Adapters.rp_project_id x) (rp_idempotency_key x) = Some x0 → outcome x = outcome x0 → committed_as s o x.
Proof. intros Hk Hc Ho. injection Hk as Hp Hi _ _. exists x0. by rewrite <- Hp, <- Hi. Qed.

Lemma perform_steps self o q f ws : known (w_db ws.1) o → outbox_inv (w_db ws.1) →
  authorised (w_db ws.1) (ox_effect_id o) → requests o q → traced (perform_effect self o q f) ws.
Proof.
  intros Hk Hi Ha Hq. destruct ws as [w s]. simpl in *. unfold perform_effect.
  apply traced_then; [apply still_lookup|]. intros [x|] Hl.
  - apply traced_then; [apply still_lift|]. intros [] Hb. unfold lift_res in Hb. injection Hb as Hb. apply receipt_bound in Hb as [Hkey Hst].
    apply traced_db, es_checkpoint; [done..|]. unfold on_service, zoom in Hl. simpl in Hl.
    destruct (lookup_effect (effect_key o) s) as [r s'] eqn:Hlk. injection Hl as -> _.
    destruct (lookup_agrees _ _ _ _ Hlk) as (x0 & Hc & Ho). by eapply committed_of.
  - apply traced_bind; [apply traced_db, es_ready|]. intros [] [w1 s1] [[= -> ->] _]%on_db_inv Hsteps.
    destruct (steps_grow _ _ Hsteps Hi) as (Hk1 & Ha1 & _). simpl in *. clear Hsteps. set (w1 := (mark_ready (ox_effect_id o) w).2) in *.
    apply traced_then; [apply still_crash|]. intros [] _.
    apply traced_bind.
    + intros r ws' Hrun. unfold on_service, zoom in Hrun. simpl in Hrun.
      destruct (execute (effect_key o) q s) as [r' s'] eqn:Hex. injection Hrun as <- <-.
      replace s' with (execute (effect_key o) q s).2 by (by rewrite Hex). apply rtc_once, es_execute; auto.
    + intros x [w2 s2] Hrun _. unfold on_service, zoom in Hrun. simpl in Hrun.
      destruct (execute (effect_key o) q s) as [r' s'] eqn:Hex. injection Hrun as -> <- <-.
      apply traced_then; [apply still_lift|]. intros [] Hb. unfold lift_res in Hb. injection Hb as Hb. apply receipt_bound in Hb as [Hkey Hst].
      apply traced_then; [apply still_crash|]. intros [] _.
      destruct (execute_agrees _ _ _ _ _ Hex) as (x0 & Hc & Ho).
      apply traced_bind; [apply traced_db, es_checkpoint; [auto..|by eapply committed_of]|].
      intros r ws1 _ _. apply traced_then; [apply still_crash|]. intros _ _. by apply traced_still.
Qed.

Lemma envelope_ok o q : _effect_envelope o = Ok q → requests o q.
Proof.
  unfold _effect_envelope, requests. intros Hrun. apply res_bind_ok in Hrun as (? & _ & Hrun).
  apply res_bind_ok in Hrun as (q' & Hq & Hrun). apply res_bind_ok in Hrun as (? & _ & [= <-]).
  destruct (dget _ _) as [[]|]; try done. by injection Hq as ->.
Qed.
Lemma persisted_still o w : (_assert_persisted_step_binding o w).2 = w.
Proof.
  unfold _assert_persisted_step_binding, mbind, M_bind, read, gets, expect, lift_res, ensure, require, raise, mret, M_ret.
  repeat (simpl; case_match; simplify_eq; try done).
Qed.
Lemma stripped_ok v x : _text v = Ok x → x = strip v.
Proof. unfold _text, required_text. intros Hrun. by rinv. Qed.

Lemma dispatch_steps self e f ws : outbox_inv (w_db ws.1) → traced (dispatch self e f) ws.
Proof.
  intros Hi. destruct ws as [w s]. simpl in Hi. unfold dispatch.
  apply traced_then; [apply still_lift|]. intros e1 He. unfold lift_res in He. injection He as He. apply stripped_ok in He as ->.
  apply traced_then; [apply still_ensure|]. intros [] _.
  apply traced_then; [by apply still_db|]. intros o' Ho'. apply on_db_inv in Ho' as [_ [= <-]].
  apply traced_then; [apply still_expect|]. intros o Ho. assert (outbox (effects (registry (w_db w))) !! strip e = Some o) as Hrow
    by (by destruct (outbox _ !! _); [injection Ho as ->|]).
  apply traced_then; [by apply still_db|]. intros r Hr. apply on_db_inv in Hr as [_ [= <-]].
  destruct (receipt_of (w_db w) (strip e)) as [rc|]; [by apply traced_still|].
  apply traced_then; [apply still_lift|]. intros q Hq. unfold lift_res in Hq. injection Hq as Hq. apply envelope_ok in Hq.
  apply traced_then; [apply still_lift|]. intros [] _.
  apply traced_then; [apply still_db, persisted_still|]. intros [] _.
  apply traced_bind; [apply traced_db, es_consume|]. intros u [w1 s1] [Hw1 Hu]%on_db_inv Hsteps.
  assert (authorised (w_db w1) (strip (strip e))) as Hau.
  { injection Hw1 as -> ->. destruct (Engine._consume_effect (strip e) w) as [r' w2] eqn:Hc. simpl in *. subst r'.
    by eapply consume_authorises. }
  rewrite strip_idemp in Hau. pose proof (oi_key _ Hi _ _ Hrow) as Hkey.
  destruct (steps_grow _ _ Hsteps Hi) as (Hk & _ & _). pose proof (steps_inv _ _ Hsteps Hi) as Hi1.
  apply perform_steps; simpl; [|done|by rewrite Hkey|done]. apply Hk. exists o. by rewrite Hkey.
Qed.

Lemma recover_rows self message rows ws : outbox_inv (w_db ws.1) → (∀ o, o ∈ rows → known (w_db ws.1) o) →
  traced (mapM (λ row, or_denied (dispatch self (ox_effect_id row) None)
    (on_db (_checkpoint_authorization_failure self row (message (ox_effect_id row))))) rows) ws.
Proof.
  revert ws. induction rows as [|o rows IH]; intros ws Hi Hknown; [by apply (traced_still _ _ eq_refl)|]. simpl.
  apply traced_bind.
  - intros r ws' Hrun. unfold or_denied in Hrun.
    destruct (dispatch self (ox_effect_id o) None ws) as [r1 ws1] eqn:Hd. pose proof (dispatch_steps _ _ _ _ Hi _ _ Hd) as Hsteps.
    assert (∀ r, on_db (_checkpoint_authorization_failure self o (message (ox_effect_id o))) ws1 = (r, ws') →
      rtc effect_step ws ws') as Hden.
    { intros r' Hden. etrans; [exact Hsteps|]. destruct ws1 as [w1 s1]. revert Hden. apply traced_db, es_denied.
      destruct (steps_grow _ _ Hsteps Hi) as (Hk & _). apply Hk, Hknown. by constructor. }
    destruct r1 as [x|[]]; try (by injection Hrun as <- <-). by eapply Hden.
  - intros x ws1 _ Hsteps. apply traced_bind; [|intros; by apply (traced_still _ _ eq_refl)].
    apply IH; [by eapply steps_inv|]. intros o' Ho'. destruct (steps_grow _ _ Hsteps Hi) as (Hk & _).
    apply Hk, Hknown. by right.
Qed.
Lemma recover_steps self lim message ws : outbox_inv (w_db ws.1) → traced (recover_pending self lim message) ws.
Proof.
  intros Hi. destruct ws as [w s]. simpl in Hi. unfold recover_pending.
  apply traced_then; [apply still_ensure|]. intros [] _.
  apply traced_then; [apply still_ensure|]. intros [] _.
  apply traced_then; [by apply still_db|]. intros rows Hrows. apply on_db_inv in Hrows as [_ [= <-]].
  apply recover_rows; [done|]. intros o Ho. unfold pending_effects in Ho.
  apply limit_elem, elem_of_order_by, elem_of_select in Ho as [[k Hk] _]. exists o. by rewrite (oi_key _ Hi _ _ Hk).
Qed.

(** What a dispatch answers is what the receipt of the effect says. *)
Lemma perform_answer self o q f ws r ws' : known (w_db ws.1) o → outbox_inv (w_db ws.1) →
  perform_effect self o q f ws = (Ok r, ws') →
  ∃ rc b c, receipt_of (w_db ws'.1) (ox_effect_id o) = Some rc ∧ r = answer_of rc b c.
Proof.
  intros Hk Hi Hrun. destruct ws as [w s]. simpl in *.
  assert (∀ w0 (s0 : T) x r ws', outbox_inv (w_db w0) → on_db (_checkpoint self o x) (w0, s0) = (Ok r, ws') →
    ∃ rc b c, receipt_of (w_db ws'.1) (ox_effect_id o) = Some rc ∧ r = answer_of rc b c) as Hcp.
  { intros w0 s0 x r0 ws0 Hi0 [-> Hc]%on_db_inv. simpl.
    destruct (_checkpoint self o x w0) as [a w1] eqn:Hcr. simpl in *. subst a.
    apply checkpoint_ok in Hcr as [(rc & Hrc & -> & _ & _ & ->)|(rc & Hcl & -> & _)]; exists rc; do 2 eexists; split; try done.
    rewrite (receipt_new _ _ _ _ _ Hi0 Hcl). by rewrite bool_decide_eq_true_2. }
  unfold perform_effect in Hrun. apply bind_ok in Hrun as (l & ws1 & Hl & Hrun).
  pose proof (still_lookup (effect_key o) w s) as Hst. unfold still in Hst. rewrite Hl in Hst. simpl in Hst. subst ws1.
  destruct l as [x|].
  - apply bind_ok in Hrun as (u & ? & [_ ->]%lift_res_ok & Hrun). by eapply Hcp.
  - apply bind_ok in Hrun as (u & [w1 s1] & Hready & Hrun).
    assert (outbox_inv (w_db w1)) as Hi1 by exact (steps_inv _ _ (traced_db _ _ _ (es_ready (ox_effect_id o) w s) _ _ Hready) Hi).
    apply bind_ok in Hrun as (? & ? & [_ ->]%ensure_ok & Hrun).
    apply bind_ok in Hrun as (y & [w2 s2] & Hex & Hrun).
    assert (w2 = w1) as -> by (unfold on_service, zoom in Hex; simpl in Hex; destruct (execute _ _ _); by injection Hex).
    apply bind_ok in Hrun as (? & ? & [_ ->]%lift_res_ok & Hrun). apply bind_ok in Hrun as (? & ? & [_ ->]%ensure_ok & Hrun).
    apply bind_ok in Hrun as (r1 & ws3 & Hc & Hrun). apply bind_ok in Hrun as (? & ? & [_ ->]%ensure_ok & Hrun).
    injection Hrun as -> ->. by eapply Hcp.
Qed.

Lemma dispatch_answer self e f ws r ws' : outbox_inv (w_db ws.1) → dispatch self e f ws = (Ok r, ws') →
  ∃ rc b c, receipt_of (w_db ws'.1) (strip e) = Some rc ∧ r = answer_of rc b c.
Proof.
  intros Hi Hrun. destruct ws as [w s]. simpl in Hi. unfold dispatch in Hrun.
  apply bind_ok in Hrun as (e1 & ? & [He ->]%lift_res_ok & Hrun). apply stripped_ok in He as ->.
  apply bind_ok in Hrun as (? & ? & [_ ->]%ensure_ok & Hrun).
  apply bind_ok in Hrun as (o' & ? & [-> [= <-]]%on_db_inv & Hrun). simpl in Hrun.
  apply bind_ok in Hrun as (o & ? & [Ho ->]%expect_ok & Hrun).
  apply bind_ok in Hrun as (rc & ? & [-> [= <-]]%on_db_inv & Hrun). simpl in Hrun.
  destruct (receipt_of (w_db w) (strip e)) as [rc|] eqn:Hrc.
  { injection Hrun as <- <-. exists rc, (from_provider rc), true. split; [done|].
    apply receipt_some in Hrc as [_ <-]. done. }
  apply bind_ok in Hrun as (q & ? & [_ ->]%lift_res_ok & Hrun). apply bind_ok in Hrun as (? & ? & [_ ->]%lift_res_ok & Hrun).
  apply bind_ok in Hrun as (? & ? & [-> _]%on_db_inv & Hrun). rewrite persisted_still in Hrun.
  apply bind_ok in Hrun as (u & ws2 & Hc & Hrun).
  pose proof (traced_db _ _ _ (es_consume (strip e) w s) _ _ Hc) as Hsteps.
  pose proof (oi_key _ Hi _ _ Ho) as Hkey. destruct (steps_grow _ _ Hsteps Hi) as (Hk & _).
  apply perform_answer in Hrun; [by rewrite Hkey in Hrun| |by eapply steps_inv].
  apply Hk. exists o. by rewrite Hkey.
Qed.

(** Once there is a receipt, a dispatch only reads it. *)
Lemma dispatch_recorded self e f ws r ws' rc : receipt_of (w_db ws.1) (strip e) = Some rc →
  dispatch self e f ws = (Ok r, ws') → ws' = ws ∧ r = answer_of rc (from_provider rc) true.
Proof.
  intros Hrc Hrun. destruct ws as [w s]. simpl in Hrc. unfold dispatch in Hrun.
  apply bind_ok in Hrun as (e1 & ? & [He ->]%lift_res_ok & Hrun). apply stripped_ok in He as ->.
  apply bind_ok in Hrun as (? & ? & [_ ->]%ensure_ok & Hrun).
  apply bind_ok in Hrun as (o' & ? & [-> [= <-]]%on_db_inv & Hrun). simpl in Hrun.
  apply bind_ok in Hrun as (o & ? & [Ho ->]%expect_ok & Hrun).
  apply bind_ok in Hrun as (rc' & ? & [-> [= <-]]%on_db_inv & Hrun). simpl in Hrun. rewrite Hrc in Hrun.
  injection Hrun as <- <-. split; [done|]. apply receipt_some in Hrc as [_ <-]. done.
Qed.

(** ** Any history of commands, dispatches and recoveries *)
Inductive WorkOp :=
  | WoCommand (op : SysOp)
  | WoDispatch (self : DurableWorkflow) (effect_id : string) (fault_at : option string)
  | WoRecover (self : DurableWorkflow) (lim : Z) (message : string → string).
Definition run_work_op (op : WorkOp) : M (World * T) unit :=
  match op with
  | WoCommand op => on_db (run_sys_op op)
  | WoDispatch self e f => r ← dispatch self e f; mret tt
  | WoRecover self lim message => r ← recover_pending self lim message; mret tt
  end.
Definition run_work_ops (ops : list WorkOp) (ws : World * T) : World * T := foldl (λ ws op, (run_work_op op ws).2) ws ops.
Definition public_op (op : WorkOp) : Prop := match op with WoCommand op => public op = true | _ => True end.

Lemma work_op_steps op ws : public_op op → outbox_inv (w_db ws.1) → rtc effect_step ws (run_work_op op ws).2.
Proof.
  intros Hp Hi. assert (traced (run_work_op op) ws) as Ht.
  { destruct op as [op|self e f|self lim message]; simpl.
    - destruct ws as [w s]. by apply traced_db, es_command.
    - apply traced_bind; [by apply dispatch_steps|]. intros; by apply (traced_still _ _ eq_refl).
    - apply traced_bind; [by apply recover_steps|]. intros; by apply (traced_still _ _ eq_refl). }
  destruct (run_work_op op ws) as [r ws'] eqn:Hrun. by apply (Ht r ws').
Qed.
Lemma work_steps ops ws : Forall public_op ops → outbox_inv (w_db ws.1) → rtc effect_step ws (run_work_ops ops ws).
Proof.
  intros Hops. revert ws. induction Hops as [|op ops Hop _ IH]; intros ws Hi; [done|]. unfold run_work_ops in *. simpl.
  pose proof (work_op_steps op ws Hop Hi) as Hs. etrans; [exact Hs|]. apply IH. by eapply steps_inv.
Qed.

(** The outbox, its receipts and the steps are empty. *)
Definition idle (d : DB) : Prop := outbox_part d = (∅, ∅, ∅).
Lemma idle_receipt d e : idle d → receipt_of d e = None.
Proof. intros [= _ Hr _]. apply receipt_none. intros j r. by rewrite Hr, lookup_empty. Qed.
Lemma idle_outbox d : idle d → outbox_inv d.
Proof. intros [= Ho Hr Hs]. constructor; rewrite ?Ho, ?Hr; intros *; by rewrite lookup_empty. Qed.
Lemma idle_truthful d s : idle d → truthful s d s.
Proof. intros Hd. constructor; [intros e r c; by rewrite (idle_receipt d e Hd)|intros p k x; by left]. Qed.

Lemma work_inv ops w s : idle (w_db w) → Forall public_op ops →
  let ws := run_work_ops ops (w, s) in outbox_inv (w_db ws.1) ∧ truthful s (w_db ws.1) ws.2.
Proof.
  intros Hw Hops ws. apply (steps_keep s (w, s)); [|by apply idle_outbox|by apply idle_truthful].
  apply work_steps; [done|by apply idle_outbox].
Qed.

(** ** The service performs an effect once *)
Definition performed (s : T) (o : OutboxRow) : Prop :=
  is_Some (committed s (ek_project_id (service_key (effect_key o))) (ek_idempotency_key (service_key (effect_key o)))).

Lemma step_performed ws ws' o : effect_step ws ws' → performed ws.2 o → performed ws'.2 o.
Proof.
  intros [op w s Hp|e w s|e w s|o' q w s Hk Ha Hq|self o' x' w s Hk Hs Hr Hc|self o' m w s Hk]; simpl; try done.
  intros [x Hx]. destruct (execute (effect_key o') q s) as [r s'] eqn:Hex. exists x. by eapply execute_keeps.
Qed.
Lemma steps_performed ws ws' o : rtc effect_step ws ws' → performed ws.2 o → performed ws'.2 o.
Proof. induction 1 as [|ws1 ws2 ws3 Hstep _ IH]; [done|]. intros Hc. by eapply IH, step_performed. Qed.

(** A call of the workflow leaves the service alone, or executes one effect that
    the service has not performed. *)
Definition executes (o : OutboxRow) (s s' : T) : Prop :=
  s' = s ∨ ¬ performed s o ∧ ∃ q, s' = (execute (effect_key o) q s).2.

Lemma still_then {A B} (m : M (World * T) A) (k : A → M (World * T) B) ws (R : T → Prop) :
  still m ws → R ws.2 → (∀ a, m ws = (Ok a, ws) → R (k a ws).2.2) → R ((m ≫= k) ws).2.2.
Proof.
  intros Hm HR Hk. unfold mbind, M_bind. unfold still in Hm. destruct (m ws) as [[a|e] ws1]; simpl in *; subst; eauto.
Qed.

Lemma perform_service self o q f ws : executes o ws.2 (perform_effect self o q f ws).2.2.
Proof.
  destruct ws as [w s]. unfold perform_effect. apply (still_then _ _ _ (executes o s)); [apply still_lookup|by left|].
  intros l Hl. assert (l = None → ¬ performed s o) as Hno.
  { intros -> [x Hx]. unfold on_service, zoom in Hl. simpl in Hl.
    destruct (lookup_effect (effect_key o) s) as [r s'] eqn:Hlk. injection Hl as -> _.
    by apply (lookup_finds _ _ _ _ _ Hlk Hx). }
  destruct l as [x|].
  - apply (still_then _ _ _ (executes o s)); [apply still_lift|by left|]. intros [] _.
    unfold on_db, zoom. simpl. destruct (_checkpoint self o x w). by left.
  - unfold mbind at 1, M_bind at 1. unfold on_db at 1, zoom at 1. simpl.
    generalize (set_db (set_outbox (alter made_ready (ox_effect_id o))) w) as w1. intros w1.
    apply (still_then _ _ (w1, s) (executes o s)); [apply still_crash|by left|]. intros [] _.
    unfold mbind at 1, M_bind at 1. unfold on_service at 1, zoom at 1. simpl.
    destruct (execute (effect_key o) q s) as [[x|e] s'] eqn:Hex; simpl; (right; split; [by apply Hno|]; exists q; rewrite Hex); [|done].
    simpl. apply (still_then _ _ (w1, s') (λ s0, s0 = s')); [apply still_lift|done|]. intros [] _.
    apply (still_then _ _ (w1, s') (λ s0, s0 = s')); [apply still_crash|done|]. intros [] _.
    unfold mbind at 1, M_bind at 1. unfold on_db at 1, zoom at 1. simpl.
    destruct (_checkpoint self o x w1) as [[r|e] w2]; simpl; [|done].
    by apply (still_then _ _ (w2, s') (λ s0, s0 = s')); [apply still_crash|..].
Qed.

Lemma dispatch_service self e f ws : (dispatch self e f ws).2.2 = ws.2 ∨
  ∃ o, outbox (effects (registry (w_db ws.1))) !! strip e = Some o ∧ executes o ws.2 (dispatch self e f ws).2.2.
Proof.
  destruct ws as [w s]. set (R := λ s', s' = s ∨
    ∃ o, outbox (effects (registry (w_db w))) !! strip e = Some o ∧ executes o s s'). change (R (dispatch self e f (w, s)).2.2).
  assert (R s) as HR by by left. unfold dispatch.
  apply (still_then _ _ (w, s) R); [apply still_lift|done|]. intros e1 He1. unfold lift_res in He1. injection He1 as He1. apply stripped_ok in He1 as ->.
  apply (still_then _ _ (w, s) R); [apply still_ensure|done|]. intros [] _.
  apply (still_then _ _ (w, s) R); [by apply still_db|done|]. intros r Hr. apply on_db_inv in Hr as [_ [= <-]].
  apply (still_then _ _ (w, s) R); [apply still_expect|done|]. intros o Ho.
  assert (outbox (effects (registry (w_db w))) !! strip e = Some o) as Hrow by (by destruct (outbox _ !! _); [injection Ho as ->|]).
  apply (still_then _ _ (w, s) R); [by apply still_db|done|]. intros rc Hrc. apply on_db_inv in Hrc as [_ [= <-]].
  destruct (receipt_of (w_db w) (strip e)) as [rc|]; [done|].
  apply (still_then _ _ (w, s) R); [apply still_lift|done|]. intros q _.
  apply (still_then _ _ (w, s) R); [apply still_lift|done|]. intros [] _.
  apply (still_then _ _ (w, s) R); [apply still_db, persisted_still|done|]. intros [] _.
  unfold mbind at 1, M_bind at 1. unfold on_db at 1, zoom at 1. simpl.
  destruct (Engine._consume_effect (strip e) w) as [[u|er] w1]; simpl; [|done].
  right. exists o. split; [done|]. apply (perform_service self o q f (w1, s)).
Qed.

Lemma work_once ops w s : idle (w_db w) → Forall public_op ops → outbox_inv (w_db (run_work_ops ops (w, s)).1).
Proof. intros Hw Hops. by apply work_inv. Qed.

(** C4: every effect is settled once and the tables agree on it.  Through any
    sequence of public commands, of dispatches with a crash at any point and of
    recoveries, over any service that satisfies its laws, the step of every enqueued
    effect is bound to it; either there is no receipt, the effect is pending and the
    step is queued, or the outbox, the step and the receipt show the same status and
    result; and no effect has two receipts. *)
Theorem effects_settle_once ops w s : idle (w_db w) → Forall public_op ops →
  let d := w_db (run_work_ops ops (w, s)).1 in
  (∀ k o, outbox (effects (registry d)) !! k = Some o →
    ∃ st, workflow_steps (registry d) !! (ox_task_id o, ox_step_id o) = Some st ∧ in_books d o st) ∧
  (∀ j j' r r', effect_receipts (effects (registry d)) !! j = Some r →
    effect_receipts (effects (registry d)) !! j' = Some r' → rc_effect_id r = rc_effect_id r' → j = j').
Proof. intros Hw Hops d. destruct (work_once ops w s Hw Hops). by split. Qed.

(** C20: the receipts are true.  A recorded receipt that names one of the provider
    belongs to an enqueued effect, and the service has committed this effect, under
    the project, the idempotency key and the request digest of the outbox, with this
    provider receipt, this status and this result; whatever crashes happened. *)
Theorem receipts_are_true ops w s : idle (w_db w) → Forall public_op ops →
  let ws := run_work_ops ops (w, s) in
  ∀ e r c, receipt_of (w_db ws.1) e = Some r → rc_provider_receipt r = Some c →
  ∃ o x, known (w_db ws.1) o ∧ ox_effect_id o = e ∧ committed_as ws.2 o x ∧ receipt_key x = effect_key o ∧
    rp_provider_receipt x = Some c ∧ rp_status x = rc_status r ∧ JObj (rp_result x) = rc_result r.
Proof. intros Hw Hops ws. apply (tr_receipt s). by apply work_inv. Qed.

(** C7: nothing happens without authority.  Whatever the service has committed
    beyond what it had in the beginning is an effect of the outbox, under its key,
    for which a use of a grant is on record. *)
Theorem effects_are_authorised ops w s : idle (w_db w) → Forall public_op ops →
  let ws := run_work_ops ops (w, s) in
  ∀ p key x, committed ws.2 p key = Some x → committed s p key = None →
  ∃ o, known (w_db ws.1) o ∧ receipt_key x = service_key (effect_key o) ∧ authorised (w_db ws.1) (ox_effect_id o).
Proof.
  intros Hw Hops ws p key x Hx Hn. destruct (tr_ledger s _ _ (proj2 (work_inv ops w s Hw Hops)) p key x Hx); [congruence|done].
Qed.

(** C2: an effect happens once.  After a dispatch with which the service has
    committed something, even one that then crashed, no later dispatch of the same
    effect, by any workflow, with any crash and after anything else, makes the
    service do anything. *)
Theorem effects_happen_once ops w s self e f r ws1 : idle (w_db w) → Forall public_op ops →
  let ws := run_work_ops ops (w, s) in
  dispatch self e f ws = (r, ws1) → (∃ p key, committed ws.2 p key = None ∧ is_Some (committed ws1.2 p key)) →
  ∀ ops' self' e' f', Forall public_op ops' → strip e' = strip e →
  let ws2 := run_work_ops ops' ws1 in (dispatch self' e' f' ws2).2.2 = ws2.2.
Proof.
  intros Hw Hops ws Hrun (p & key & Hnone & x & Hx) ops' self' e' f' Hops' He ws2.
  pose proof (work_once ops w s Hw Hops) as Hi. fold ws in Hi.
  pose proof (dispatch_steps self e f ws Hi _ _ Hrun) as Hsteps.
  pose proof (work_steps ops' ws1 Hops' (steps_inv _ _ Hsteps Hi)) as Hsteps'. fold ws2 in Hsteps'.
  destruct (dispatch_service self e f ws) as [Hs|(o & Ho & Hex)]; rewrite Hrun in *; simpl in *; [congruence|].
  destruct Hex as [Hs|[_ [q Hs]]]; [congruence|].
  assert (performed ws1.2 o) as Hp.
  { destruct (execute (effect_key o) q ws.2) as [r' s'] eqn:Hex. simpl in Hs. subst s'.
    destruct (execute_adds _ _ _ _ _ _ _ _ Hex Hnone Hx) as (Hk & <- & <- & _). exists x.
    rewrite <- Hk. exact Hx. }
  apply (steps_performed _ _ _ Hsteps') in Hp. pose proof (oi_key _ Hi _ _ Ho) as Hkey.
  destruct (steps_grow _ _ Hsteps Hi) as (Hk1 & _). destruct (steps_grow _ _ Hsteps' (steps_inv _ _ Hsteps Hi)) as (Hk2 & _).
  destruct (Hk2 o (Hk1 o ltac:(exists o; by rewrite Hkey))) as (o2 & Ho2 & Hid). rewrite Hkey, <- He in Ho2.
  assert (effect_key o2 = effect_key o) as Heq by (injection Hid as H1 H2 _ _ _ _ H7 H8 _; unfold effect_key; congruence).
  destruct (dispatch_service self' e' f' ws2) as [Hs2|(o3 & Ho3 & Hex)]; [done|].
  rewrite Ho2 in Ho3. injection Ho3 as <-. destruct Hex as [Hs2|[Hno _]]; [done|].
  destruct Hno. unfold performed in *. by rewrite Heq.
Qed.

(** Answers are final.  What a dispatch has answered about an effect, every
    later dispatch of it answers again from the receipt, with the same status,
    provider receipt and result, and without a change of the database or a call of
    the service; whatever came between. *)
Theorem answers_are_final ops w s self e f r ws1 : idle (w_db w) → Forall public_op ops →
  dispatch self e f (run_work_ops ops (w, s)) = (Ok r, ws1) →
  ∀ ops' self' e' f' r' ws3, Forall public_op ops' → strip e' = strip e →
  let ws2 := run_work_ops ops' ws1 in dispatch self' e' f' ws2 = (Ok r', ws3) →
  ws3 = ws2 ∧ dr_checkpoint_replayed r' = true ∧ dr_status r' = dr_status r ∧
  dr_provider_receipt r' = dr_provider_receipt r ∧ dr_result r' = dr_result r.
Proof.
  intros Hw Hops Hrun ops' self' e' f' r' ws3 Hops' He ws2 Hrun'.
  pose proof (work_once ops w s Hw Hops) as Hi. set (ws := run_work_ops ops (w, s)) in *.
  pose proof (dispatch_steps self e f ws Hi _ _ Hrun) as Hsteps.
  destruct (dispatch_answer self e f ws r ws1 Hi Hrun) as (rc & b & c & Hrc & ->).
  pose proof (steps_inv _ _ Hsteps Hi) as Hi1. pose proof (work_steps ops' ws1 Hops' Hi1) as Hsteps'. fold ws2 in Hsteps'.
  destruct (steps_grow _ _ Hsteps' Hi1) as (_ & _ & Hr). apply Hr in Hrc. rewrite <- He in Hrc.
  destruct (dispatch_recorded self' e' f' ws2 r' ws3 rc Hrc Hrun') as [-> ->]. done.
Qed.

(** To the database, the workflow is a client like any other.  Any history of
    public commands, dispatches and recoveries leaves the database of some sequence
    of commands, so that what holds after every sequence of commands holds with
    dispatches, crashes and recoveries among them. *)
Theorem work_is_commands ops w s : idle (w_db w) → Forall public_op ops →
  ∃ cmds, (run_work_ops ops (w, s)).1 = run_sys_ops cmds w.
Proof.
  intros Hw Hops. pose proof (work_steps ops (w, s) Hops (idle_outbox _ Hw)) as Hsteps.
  change w with (w, s).1 at 2. revert Hsteps. generalize (run_work_ops ops (w, s)) as ws'. generalize (w, s) as ws.
  intros ws ws'. induction 1 as [ws|ws1 ws2 ws3 Hstep _ (cmds & IH)]; [by exists []|].
  destruct (step_is_command _ _ Hstep) as [Heq|[op Hop]]; [exists cmds; by rewrite <- Heq|].
  exists (op :: cmds). simpl. by rewrite <- Hop.
Qed.
End service.

(** ** Witnesses: an effect of [Bench] at the provider double *)
Module Examples.
Import Toy Sample Bench.

#[local] Instance py_text : PyText.
Proof. refine {| py_str := λ j, match j with JStr s => s | _ => "" end |}. done. Defined.

Definition provider : FakeProvider := {| fp_effects := ∅; fp_drawn := 0; fp_ticks := 0 |}.
Definition enqueue_ops : list WorkOp := WoCommand <$> granted_ops ++ [enqueue1].
Definition dispatch_ops : list WorkOp := enqueue_ops ++ [WoDispatch workflow "ef1" None].
Local Notation queued := (run_work_ops enqueue_ops (genesis, provider)).
Local Notation served := (run_work_ops dispatch_ops (genesis, provider)).

Lemma genesis_idle : idle (w_db genesis).
Proof. reflexivity. Qed.
Lemma enqueue_public : Forall public_op enqueue_ops.
Proof. repeat constructor. Qed.
Lemma dispatch_public : Forall public_op dispatch_ops.
Proof. repeat constructor. Qed.

Lemma the_effect :
  match outbox (effects (registry (w_db served.1))) !! "ef1", receipt_of (w_db served.1) "ef1",
        committed served.2 "proj" "gen1" with
  | Some o, Some r, Some x => bool_decide (ox_status o = "succeeded") && bool_decide (rc_status r = "succeeded")
      && bool_decide (rc_provider_receipt r = Some "fake-uuid-0")
  | _, _, _ => false
  end = true.
Proof. by_eval. Qed.

Lemma effects_settle_once_witness :
  ∃ o st, outbox (effects (registry (w_db served.1))) !! "ef1" = Some o ∧ ox_status o = "succeeded" ∧
    in_books (w_db served.1) o st.
Proof.
  pose proof the_effect as He.
  destruct (outbox (effects (registry (w_db served.1))) !! "ef1") as [o|] eqn:Ho; [|discriminate He].
  destruct (receipt_of _ _) as [r|]; [|discriminate He]. destruct (committed _ _ _) as [x|]; [|discriminate He]. bsplit.
  destruct (proj1 (effects_settle_once dispatch_ops genesis provider genesis_idle dispatch_public) "ef1" o Ho)
    as (st & _ & Hb).
  exists o, st. split_and!; [reflexivity|assumption|exact Hb].
Defined.

Lemma receipts_are_true_witness :
  ∃ r o x, receipt_of (w_db served.1) "ef1" = Some r ∧ rc_provider_receipt r = Some "fake-uuid-0" ∧
    committed_as served.2 o x ∧ rp_status x = rc_status r.
Proof.
  pose proof the_effect as He.
  destruct (outbox _ !! _) as [o|]; [|discriminate He].
  destruct (receipt_of (w_db served.1) "ef1") as [r|] eqn:Hr; [|discriminate He].
  destruct (committed _ _ _) as [x|]; [|discriminate He]. bsplit.
  destruct (receipts_are_true dispatch_ops genesis provider genesis_idle dispatch_public "ef1" r "fake-uuid-0" Hr)
    as (o' & x' & _ & _ & Hc & _ & _ & Hs & _); [assumption|].
  exists r, o', x'. split_and!; [reflexivity|assumption|exact Hc|exact Hs].
Defined.

Lemma effects_are_authorised_witness :
  ∃ x o, committed served.2 "proj" "gen1" = Some x ∧ known (w_db served.1) o ∧ authorised (w_db served.1) (ox_effect_id o).
Proof.
  pose proof the_effect as He.
  destruct (outbox _ !! _) as [o|]; [|discriminate He]. destruct (receipt_of _ _) as [r|]; [|discriminate He].
  destruct (committed served.2 "proj" "gen1") as [x|] eqn:Hx; [|discriminate He].
  destruct (effects_are_authorised dispatch_ops genesis provider genesis_idle dispatch_public "proj" "gen1" x Hx eq_refl)
    as (o' & Hk & _ & Ha).
  exists x, o'. split_and!; [reflexivity|exact Hk|exact Ha].
Defined.

(** The process crashes after the effect; the next dispatch finds it done. *)
Definition crash : option string := Some "after_effect_before_checkpoint".
Lemma not_yet : fake_committed queued.2 "proj" "gen1" = None.
Proof. vm_cast_no_check (eq_refl (@None AdapterReceipt)). Qed.
Lemma the_crash :
  (let '(r1, ws1) := dispatch workflow "ef1" crash queued in
   let '(r2, ws2) := dispatch workflow "ef1" None ws1 in
   match r1, r2, fake_committed ws1.2 "proj" "gen1" with
   | Raise _, Ok r, Some _ => bool_decide (dr_status r = "succeeded")
   | _, _, _ => false
   end) = true.
Proof. by_eval. Qed.

Lemma effects_happen_once_witness :
  ∃ e ws1 r ws2, dispatch workflow "ef1" crash queued = (Raise e, ws1) ∧
    is_Some (fake_committed ws1.2 "proj" "gen1") ∧
    dispatch workflow "ef1" None ws1 = (Ok r, ws2) ∧ dr_status r = "succeeded" ∧ ws2.2 = ws1.2.
Proof.
  pose proof the_crash as Hc. destruct (dispatch workflow "ef1" crash queued) as [r1 ws1] eqn:H1.
  destruct (dispatch workflow "ef1" None ws1) as [r2 ws2] eqn:H2.
  destruct r1 as [?|e]; [discriminate Hc|]. destruct r2 as [r|]; [|discriminate Hc].
  destruct (fake_committed ws1.2 "proj" "gen1") as [x|] eqn:Hx; [|discriminate Hc]. bsplit.
  assert (∃ p key, committed queued.2 p key = None ∧ is_Some (committed ws1.2 p key)) as Hgain
    by (exists "proj", "gen1"; split; [exact not_yet|exists x; exact Hx]).
  pose proof (effects_happen_once enqueue_ops genesis provider workflow "ef1" crash (Raise e) ws1 genesis_idle enqueue_public
    H1 Hgain [] workflow "ef1" None (Forall_nil_2 _) eq_refl) as Hs.
  cbv zeta in Hs. change (run_work_ops [] ws1) with ws1 in Hs. rewrite H2 in Hs.
  exists e, ws1, r, ws2. split_and!; [reflexivity|exists x; exact Hx|exact H2|assumption|exact Hs].
Defined.

Lemma answers_are_final_witness :
  ∃ r ws1 r', dispatch workflow "ef1" None queued = (Ok r, ws1) ∧ dispatch workflow "ef1" None ws1 = (Ok r', ws1) ∧
    dr_checkpoint_replayed r' = true ∧ dr_result r' = dr_result r.
Proof.
  assert ((let '(r, ws1) := dispatch workflow "ef1" None queued in
           match r with Ok _ => is_ok (dispatch workflow "ef1" None ws1).1 | Raise _ => false end) = true) as He by by_eval.
  destruct (dispatch workflow "ef1" None queued) as [[r|] ws1] eqn:H1; [|discriminate He].
  destruct (dispatch workflow "ef1" None ws1) as [[r'|] ws3] eqn:H2; [|discriminate He].
  destruct (answers_are_final enqueue_ops genesis provider workflow "ef1" None r ws1 genesis_idle enqueue_public H1
    [] workflow "ef1" None r' ws3 (Forall_nil_2 _) eq_refl H2) as (-> & Hc & _ & _ & Hr).
  exists r, ws1, r'. split_and!; [reflexivity|exact H2|exact Hc|exact Hr].
Defined.

Lemma work_is_commands_witness : ∃ cmds, served.1 = run_sys_ops cmds genesis.
Proof. exact (work_is_commands dispatch_ops genesis provider genesis_idle dispatch_public). Defined.
End Examples.
