(* ===== verification/Counterexamples.v ===== *)
(** * Runs that the code does not mean to allow

    Concrete runs of the kernel, the scheduler, the store and replay, from a
    database with a principal and no goals, in which the code does something
    that its own checks or comments rule out. *)

From S2P Require Import Prelude PyStr Json Enums StateMachine Contracts Scope Db Store Identity.
From S2P Require Import Leases Scheduler Authority Gates Registries Policy Integration Evidence Observations.
From S2P Require Import Context Promotions Evaluation Rules Adapters Workflow Services Kernel Replay System Bench Effects.
From S2P Require Import Improvements.

Local Open Scope string_scope.
Local Open Scope list_scope.
Local Open Scope Z_scope.

Import Toy Sample Queue Story.

Definition raised {A} (r : res A * World) : option Exn := match r.1 with Raise e => Some e | Ok _ => None end.

(** [fail] takes any text as the class of a failure and logs it as the reason of
    the move, but replay refuses a move without a reason: a worker that reports a
    blank class leaves a log that can never be replayed or repaired again. *)
Definition blank_failure : list SysOp := begin_ops ++ firstn 3 work_ops ++ [
  SysSched sc (SoFail grant alice_vp "" "it broke" "high" "retry")].
Example blank_failure_breaks_replay :
  let w := run_sys_ops blank_failure opened in
  (t_state <$> tasks (w_db w) !! "t1", raised (verify_event_chain w), raised (replay w))
  = (Some T_RETRY_PENDING, None, Some IntegrityError).
Proof. vm_compute. reflexivity. Qed.

(** [advance_loop] asks the circuit breaker before the idempotency record.  With
    a goal that allows one iteration, the first start succeeds and its retry, with
    the same key, raises instead of returning the recorded answer. *)
Definition one_shot : GoalSpec := {|
  gs_goal_id := gs_goal_id sample_goal; gs_target_outcome := gs_target_outcome sample_goal;
  gs_success_evidence_states := gs_success_evidence_states sample_goal;
  gs_read_scope := gs_read_scope sample_goal; gs_write_scope := gs_write_scope sample_goal;
  gs_forbidden_scope := gs_forbidden_scope sample_goal;
  gs_allowed_capabilities := gs_allowed_capabilities sample_goal;
  gs_required_runtime_surfaces := gs_required_runtime_surfaces sample_goal;
  gs_evaluator_required := gs_evaluator_required sample_goal; gs_max_iterations_without_evidence := 1;
  gs_provider_budget_minor_units := gs_provider_budget_minor_units sample_goal;
  gs_provider_call_limit := gs_provider_call_limit sample_goal;
  gs_budget_currency := gs_budget_currency sample_goal; gs_non_goals := gs_non_goals sample_goal |}.
Definition one_shot_ops : list SysOp :=
  SysKernel k (KoCreateGoal ∅ "proj" one_shot alice_vp "k1" None) :: skipn 1 begin_ops
  ++ [SysSched sc (SoClaim "proj" alice_vp 600)].
Definition start_run_op : P json := advance_loop k "r1" E_TASK_STARTED alice_vp "k6" [] lease_facts None.
Example retried_start_is_refused :
  let w := run_sys_ops one_shot_ops opened in
  (raised (start_run_op w), raised (start_run_op (start_run_op w).2)) = (None, Some TransitionError).
Proof. vm_compute. reflexivity. Qed.

(** The kernel appends the adoption of projects and programs under its command
    authority, but the store checks authority only for core and protected
    aggregates: anyone may append such an event, without authority or session. *)
Definition forged : EventArgs := with_control None None (adoption_event k "project_authority" "other" "other"
  "project_authority_adopted" [] "c1").
Example adoption_needs_no_authority :
  (raised (append_event forged opened), ea_command_authority forged, ea_auth_session forged) = (None, None, None).
Proof. vm_compute. reflexivity. Qed.

(** A retry of [create_goal] with another compiled authority for the same goal
    returns the recorded answer, but it leaves the other authority in the memory
    of the kernel, over the persisted one.  A task compiled against it is then
    accepted and logged: its binding is refused at every use, and the log can
    never be replayed again. *)
Definition adopted_kernel : RuntimeKernel := {| rk_self := 1; rk_command_authority := 0; rk_policy_version := "v1";
  rk_authority_spines := [("proj", (Spine.project, Spine.program, Spine.graph))] |}.
Definition second_goal : CompiledGoalAuthority := {|
  cg_version := 2; cg_project_ref := cg_project_ref Spine.goal; cg_program_ref := cg_program_ref Spine.goal;
  cg_required_decision_gates := cg_required_decision_gates Spine.goal;
  cg_goal_spec := cg_goal_spec Spine.goal; cg_schema_version := cg_schema_version Spine.goal |}.
Definition second_task : CompiledTaskAuthority := {|
  ct_version := 1; ct_project_ref := ct_project_ref Spine.task; ct_program_ref := ct_program_ref Spine.task;
  ct_goal_ref := CompiledGoalAuthority_reference second_goal;
  ct_required_decision_gates := ct_required_decision_gates Spine.task;
  ct_decision_gate_contracts := ct_decision_gate_contracts Spine.task;
  ct_provider_budget_minor_units := ct_provider_budget_minor_units Spine.task;
  ct_provider_call_limit := ct_provider_call_limit Spine.task;
  ct_budget_currency := ct_budget_currency Spine.task; ct_task_spec := ct_task_spec Spine.task;
  ct_schema_version := ct_schema_version Spine.task |}.
Definition stale_binding (second : CompiledGoalAuthority) (task : CompiledTaskAuthority) : P json :=
  let spec := cg_goal_spec Spine.goal in
  _ ← initialize adopted_kernel;
  r ← create_goal adopted_kernel ∅ "proj" spec alice_vp "k1" (Some Spine.goal);
  r ← create_goal adopted_kernel r.2 "proj" spec alice_vp "k1" (Some second);
  add_task adopted_kernel r.2 "proj" Spine.task_spec alice_vp "k2" None (Some task).
Example retried_goal_leaves_stale_binding :
  let w := (stale_binding second_goal second_task opened).2 in
  (raised (stale_binding second_goal second_task opened), raised (replay w),
   match _validated_task_authority_binding (w_db w) "t1" with Raise e => Some e | Ok _ => None end)
  = (None, Some IntegrityError, Some AuthorizationError).
Proof. vm_compute. reflexivity. Qed.
(** With the authority that is persisted the same commands can be replayed. *)
Example persisted_binding_replays :
  let w := (stale_binding Spine.goal Spine.task opened).2 in
  (raised (stale_binding Spine.goal Spine.task opened), raised (replay w)) = (None, None).
Proof. vm_compute. reflexivity. Qed.

(** ** The services beside the kernel *)
Module Spending.
Import Engine Bench.

(** The goal's provider budget only counts the reservations of live grants.  A
    grant that was spent and then revoked frees its reservation: of a budget of 500,
    1000 are spent, under one approval. *)
Definition free : RuntimeKernel := {| rk_self := 1; rk_command_authority := 0; rk_policy_version := "v1";
  rk_authority_spines := [] |}.
Definition free_claim : TaskClaim := {| tc_task_id := "t1"; tc_run_id := "r1"; tc_attempt_id := "uuid-10"; tc_attempt_number := 1;
  tc_worker_id := "p-alice"; tc_resource_key := "task://t1"; tc_fence := 1; tc_expires_at := future |}.
Definition all_of_it : GrantArgs := {|
  ga_approval_id := "ap1"; ga_capability := "provider_cost"; ga_action := "generate"; ga_resource := "provider://images";
  ga_request_digest := Spine.digest; ga_policy_version := "v1"; ga_ttl_seconds := 600; ga_max_uses := 4;
  ga_cost_limit := 500; ga_required_fence := None |}.
Definition spend_all (grant key : string) : ConsumeArgs := {|
  ca_grant_id := grant; ca_project_id := "proj"; ca_goal_id := "g1"; ca_run_id := "r1"; ca_task_id := "t1";
  ca_capability := "provider_cost"; ca_action := "generate"; ca_resource := "provider://images";
  ca_request_digest := Spine.digest; ca_idempotency_key := key; ca_cost := 500; ca_fence := None; ca_effect_id := None |}.
Definition spend_twice : list SysOp := [
  SysKernel free (KoCreateGoal ∅ "proj" (cg_goal_spec Spine.goal) alice_vp "k1" None);
  SysKernel free (KoCreateRun "proj" "g1" "r1" alice_vp "k2");
  SysKernel free (KoAddTask ∅ "proj" Spine.task_spec alice_vp "k3" (Some "r1") None);
  SysKernel free (KoAdvance "r1" E_GOAL_COMPILED alice_vp "k4" [] [] None);
  SysKernel free (KoAdvance "r1" E_RUN_READY alice_vp "k5" [] [] None);
  SysSched Bench.sc (SoClaim "proj" alice_vp 600);
  SysKernel free (KoAdvance "r1" E_TASK_STARTED alice_vp "k6" [] Bench.facts None);
  SysSched Bench.sc (SoStart free_claim alice_vp); approve;
  SysService (SvPolicy engine (PoIssue olga_vp alice_vp all_of_it (Some "gr1")));
  SysService (SvPolicy engine (PoConsume alice_vp (spend_all "gr1" "use1")));
  SysService (SvPolicy engine (PoRevoke "gr1" olga_vp));
  SysService (SvPolicy engine (PoIssue olga_vp alice_vp all_of_it (Some "gr2")));
  SysService (SvPolicy engine (PoConsume alice_vp (spend_all "gr2" "use2")))].
Example goal_budget_is_overspent :
  let d := w_db (run_sys_ops spend_twice genesis) in
  ((λ g, gs_provider_budget_minor_units (go_spec g)) <$> goals d !! "g1",
   sum us_cost (select (λ _, true) (capability_usage (effects (registry d))))) = (Some 500, 1000).
Proof. vm_compute. reflexivity. Qed.
End Spending.

Module Reports.
Import Bench.

(** An unknown evidence state is a [ContractError] of the parser, which the
    [except ValueError] of [record_claim] does not turn into an [EvidenceError], as
    it does for an unknown verdict. *)
Definition odd_claim (state verdict : string) : EvidenceOps.ClaimArgs := {|
  EvidenceOps.xc_task_id := "t1"; EvidenceOps.xc_claim := "it draws"; EvidenceOps.xc_evidence_state := state;
  EvidenceOps.xc_artifact_refs := ["a1"]; EvidenceOps.xc_verifier_version := "1"; EvidenceOps.xc_environment := "test";
  EvidenceOps.xc_evaluator_verdict := verdict; EvidenceOps.xc_non_claims := [] |}.
Example unknown_state_escapes :
  (raised (EvidenceOps.record_claim evidence_registry (odd_claim "nonsense" "pass") olga_vp None genesis),
   raised (EvidenceOps.record_claim evidence_registry (odd_claim "runtime_verification" "nonsense") olga_vp None genesis))
  = (Some ContractError, Some EvidenceError).
Proof. vm_compute. reflexivity. Qed.

(** The process crashes after the effect and the grant is revoked before the
    recovery: [recover_pending] asks for authority before it asks the provider, so
    it records a failure without provider receipt for an effect that succeeded, and
    no later dispatch corrects it. *)
Import Effects.Examples.
#[local] Existing Instance py_text.
Example performed_effect_is_denied :
  let ws := run_work_ops (enqueue_ops ++ [WoDispatch workflow "ef1" crash; WoCommand revoke1;
                                          WoRecover workflow 10 (λ _, "capability grant has been revoked")])
              (genesis, provider) in
  (Adapters.rp_status <$> fake_committed ws.2 "proj" "gen1", rc_status <$> Outbox.receipt_of (w_db ws.1) "ef1",
   rc_provider_receipt <$> Outbox.receipt_of (w_db ws.1) "ef1")
  = (Some "succeeded", Some "failed", Some None).
Proof. vm_compute. reflexivity. Qed.
End Reports.

Module Rejections.
Import Promotions Evaluation Rules Hall.

(** A failed evaluation rejects the candidate, but the clean held-in branch of
    [attach_eval] looks at no state: a candidate that failed its held-out evaluation
    goes through both again, on the same datasets, and is promoted. *)
Definition failed_ops : list SysOp := begin_ops ++ work_ops ++
  [propose_it; grade "fail" "e0" "held_out"; grade "pass" "e1" "held_in"; grade "pass" "e2" "held_out"; attach "e0"].
Definition state_of (w : World) : option ProposalState := ip_state <$> proposals (Db.registry (w_db w)) !! "im1".
Example rejected_candidate_is_promoted :
  let failed := run_sys_ops failed_ops Hall.opened in
  let reviewed := run_sys_ops [attach "e1"; attach "e2"] failed in
  (state_of failed, state_of reviewed,
   match (build_limited_promotion_request ev "im1" limited_args reviewed).1 with
   | Ok r => state_of (run_sys_ops [approve_promotion "limited" (limited_request_digest r) "ap1";
                                    promote_to "limited" "ap1" (Some r)] reviewed)
   | Raise _ => None
   end) = (Some P_REJECTED, Some P_OWNER_REVIEW, Some P_LIMITED).
Proof. vm_compute. reflexivity. Qed.
End Rejections.
